(* ===== verification/_CoqProject ===== *)
-Q . S2P
Prelude.v
GoStd.v
GoTime.v
AuthorityTypes.v
Ledger.v
LedgerSafety.v
Samples.v
LedgerTheorems.v
FenceRows.v
FenceStore.v
FenceSafety.v
FenceTheorems.v
Interfaces.v
Programs.v
Transactions.v
Coordinator.v
CoordinatorLogic.v
CoordinatorSafety.v
CoordinatorTheorems.v
GoCrypto.v
Text.v
Sensitive.v
Idempotency.v
IdempotencyTheorems.v
RateLimit.v
Tokens.v
Readiness.v
GoJson.v
StrictJson.v
StrictJsonTheorems.v
Descriptors.v
Events.v
Outbox.v
OutboxSafety.v
OutboxSystem.v
OutboxTheorems.v
DeviceRows.v
DeviceChallenge.v
DeviceRotate.v
DeviceSafety.v
DeviceSystem.v
DeviceSamples.v
DeviceChallengeTheorems.v
DeviceTheorems.v
RelyGuarantee.v
FileSystem.v
TrustStore.v
TrustStoreSafety.v
TrustStoreSystem.v
TrustStoreTheorems.v
TrustJson.v
TrustJsonTheorems.v
TrustVerify.v
TrustVerifyFacts.v
TrustSamples.v
TrustVerifyTheorems.v
TrustJcs.v
TrustServer.v
TrustSigner.v
TrustSignerTheorems.v
TrustSeal.v
TrustServerFacts.v
TrustIssue.v
TrustIssueTheorems.v
DeviceBundle.v
TrustRows.v
TrustApplication.v
TrustMetadata.v
TrustMetadataTheorems.v
TrustApplicationRuns.v
TrustApplicationSafety.v
TrustApplicationTheorems.v
TrustReplay.v
TrustDelivery.v
TrustRowsSamples.v
TrustApplicationWitnesses.v
