(* ===== verification/Prelude.v ===== *)
(** Talenro control plane: a verification development.

    The program ([src/], Go) is the control plane of a network product.  Its core
    is the authority protocol of the node control plane: effects on nodes and
    operators are fenced by reservations of an external authority provider and
    mirrored in Postgres.  Around it are the services every request goes through:
    idempotent requests, protection of sensitive fields, rate limits, opaque
    tokens, strict JSON bodies, readiness, and events that are appended in a
    transaction, published to a stream and consumed once.  On top of them, devices
    rotate their refresh tokens with a proof of possession, and ask for trust
    bundles: signed and sealed configurations that the control plane issues under
    dense versions, stores, and serves by a secret path, and that the trust client
    of the device verifies and keeps without ever going back to an older one.

    ** Parts and files

    - This file: notations for Go's comparisons, results as sums, the tactics
      ([bool_props], [case_top], [text_eval], ...).  [GoStd]: machine integers,
      bytes, strings, [strconv], hexadecimal, SHA-256, HMAC, UTF-8, JSON strings.
      [GoTime]: [time.Time] as nanoseconds, civil dates, timestamp columns,
      RFC 3339 texts.  [GoJson]: the token stream of [encoding/json] and Go types
      as targets.
      [GoCrypto]: AES-256-GCM.  [Text]: [strings.Split], framing, UUID texts.
      [Programs]: programs over calls, their interleaving and a program logic.
      [Transactions]: database transactions as a state and error monad.
      [RelyGuarantee]: invariants of interleaved programs under a rely.
      [FileSystem]: a directory tree with what a machine crash can lose of it.
    - [AuthorityTypes], with theorems in [LedgerTheorems]:
      [internal/nodecontrol/authority/provider.go] and
      [internal/nodecontrol/contracts/authority.go]; value types, their [Validate]
      methods, WAL positions, transcript digests.
    - [Ledger], [LedgerSafety], [Samples], [LedgerTheorems]:
      [deterministic_fake.go], the reference provider with injected failures.
    - [FenceRows], [FenceStore], [FenceSafety], [FenceTheorems]:
      [repository.go] and [postgres_repository.go] over the table
      [control_plane_authority_fences] of migrations 6 and 7, with the statements
      of [db/queries/nodecontrol_authority.sql].
    - [Interfaces]: what the coordinator needs of a provider and of a repository,
      as classes with laws, and the two components above as instances.
    - [Coordinator], [CoordinatorLogic], [CoordinatorSafety], [CoordinatorTheorems]:
      [coordinator.go]; each method is a program over calls to the provider, the
      repository, the resolver, the clock and the context, and any number of them
      run interleaved.
    - [Sensitive]: [internal/sensitive/local.go].
    - [Idempotency], [IdempotencyTheorems]: [internal/idempotency/service.go] with
      [db/queries/idempotency.sql] and its table.
    - [RateLimit]: [internal/ratelimit/limiter.go] and [redis.go].
    - [Tokens]: [internal/securitykit/token.go] with base64url.
    - [Readiness]: [internal/readiness/checker.go] and [policy.go].
    - [Descriptors], [Events]: [internal/contracts/events].
    - [Outbox], [OutboxSafety], [OutboxSystem], [OutboxTheorems]:
      [internal/outbox] with [db/queries/outbox.sql] and its tables.
    - [StrictJson], [StrictJsonTheorems]: [internal/strictjson/decode.go].
    - [DeviceRows], [DeviceChallenge], [DeviceRotate], [DeviceSafety],
      [DeviceSystem], [DeviceSamples], [DeviceChallengeTheorems],
      [DeviceTheorems]: the rotation of device tokens of [internal/deviceauth]
      ([rotate.go] with what it uses of [register.go], [token.go], [pop.go],
      [challenge_store.go], [redis_challenge_store.go],
      [postgres_repository.go]), the statements of [db/queries/deviceauth.sql] and
      the tables of migration 3, and the methods of the identity participant it
      calls.  [DeviceBundle]: the bundle authority of an access token ([token.go]).
    - [TrustStore], [TrustStoreSafety], [TrustStoreSystem], [TrustStoreTheorems]:
      [internal/trustclient/store.go], the store of verified bundles, over the file
      system; any number of processes use one directory, call by call, and any of
      them may die and the machine crash.
    - [TrustJson], [TrustJsonTheorems], [TrustVerify], [TrustVerifyFacts],
      [TrustSamples], [TrustVerifyTheorems]: [internal/trustclient/verify.go] and
      [types.go], the checks of a bundle and their composition with the store.
    - [TrustJcs], [TrustServer], [TrustSigner], [TrustSignerTheorems], [TrustSeal],
      [TrustServerFacts], [TrustIssue], [TrustIssueTheorems]: [internal/trust]
      without its database: [types.go], [validate.go], [jcs.go], [metadata.go],
      [signer.go] (the bounded signer as a system of callers, a worker and
      deadlines), [envelope.go], [distribution.go].
    - [TrustRows], [TrustApplication], [TrustMetadata]: the requests of
      [application.go] and the repositories of [postgres_repository.go] with the
      statements of [db/queries/trust.sql] and the tables of migration 4.
      [TrustApplicationRuns] says what a transaction that returned has done,
      [TrustApplicationSafety] is the invariant of the tables,
      [TrustApplicationTheorems], [TrustReplay], [TrustMetadataTheorems] and
      [TrustDelivery] hold the theorems; [TrustRowsSamples] and
      [TrustApplicationWitnesses] a control plane with one device.

    ** Conventions

    A Go function returning [(T, error)] returns [result err T], one returning
    [error] returns [option err].  Errors are inductive types with a constructor
    per sentinel.  A context is what each poll of it observes ([ctx_poll]), in the
    order of the polls; a database failure is a [fault] of a numbered statement.
    Machine integers are [Z] with [i64], [u64] and the like where the code can
    wrap.  Tables are [gmap]s from the primary key to a row record, with the
    constraints of the migration as a boolean function and every statement as a
    definition.  A transaction's changes are kept only by a commit, and a commit
    that reports a failure may or may not have happened.

    A process on the file system is a program whose calls the directory tree
    answers; a crash of the machine keeps what was synced and loses any part of the
    rest.  The requests of the trust application are taken one after the other
    (their transactions are serialised), in any order, with any answers of clock,
    random source, signer and HPKE ([tchoice]), any fate of each transaction, and
    any change of the tables of other packages in between ([trust_step]).

    Libraries outside the repository are parameters with named laws: [Primitives]
    (hashing, UUID texts, JSON canonicalisation), [UUIDText], [Protobuf],
    [Protector], [JetStream], [TimestampColumn], [NetURL], [Ed25519],
    [Ed25519Keys], [HPKE], [HPKESender], the order of texts in the database
    ([Collation], bytewise where a claim depends on it), the Unicode tables beyond
    ASCII ([Unicode]), the replies of Redis to the limiter, and the handlers of
    consumers.  [Ed25519Laws] is that a signature verifies under the key of its
    seed, [HPKELaws] that a sealed text opens under its private key, [JCSLaws]
    that canonical texts are the modelled ones.  Every property with such laws has a witness with a
    concrete instance.

    ** What is shown

    - Authority ledger: what a call on a reachable ledger answers, and what it does
      to the ledger, is what an append-only log of operations allows for that call,
      each operation getting at most one fate, and without a failure nothing that
      the log allows is refused ([ledger_refines_log]); reserve, finalize and abort
      are exactly-once under lost responses; sequence numbers are dense; the head
      does not depend on map iteration order.
    - Fence repository: every call refines a step of an abstract mirror or changes
      nothing; slots are unique; terminal receipts are durable; an abort claim
      excludes effects.
    - Coordinator: under every interleaving with other requests and clients, and
      every failure, the mirror agrees with the ledger, responses are settled on
      both sides, and readiness means synchronisation.  One defect of the pending
      inspection is proved ([invalid_fence_unreported]): whatever the components
      answer, a fence that is malformed in itself is not reported as a mismatch.
    - Sensitive fields: encryption round trips; a closed protector fails closed.
      Idempotency: responses are replayed exactly, requests start and complete
      once; digests and scopes are unambiguous.  Rate limits: windows are exact
      floors without overflow, the limiter fails closed and never allows more than
      the limit.  Tokens: the text of a token is canonical, drawing one terminates
      for every random source.  Readiness: a report is the exact aggregation of
      the probes in whatever order they answer, with the Redis hysteresis.
    - Events: accepted envelopes are exactly canonical encodings and agree with
      their payload; the schema walk terminates and is exact on cyclic schemas.
      Outbox: what is marked published is in the stream, leases exclude, a calm
      run publishes everything due, retries are bounded, and each consumer applies
      an event once per life of its deduplication record, the application's state
      being the replay of these applications.
    - Strict JSON: decoding terminates; what it accepts is one value within the
      byte and depth limits, without repeated members, and with exact field names
      in structs; structs of plain strings round trip at the exact byte limit.
    - Device tokens: under every interleaving of rotation requests and every
      failure, a family has at most one active refresh token and a token at most
      one successor; tokens are only issued to a request whose signature verifies
      under the device's key over its own transcript, or replayed from the
      request's record; reuse of a token compromises its family, and a dead family
      stays dead.  Challenges are used once, their stored form is canonical and
      proof transcripts are unambiguous; the expiries of new tokens are
      characterised exactly; the stored response gives back the issued tokens.  A
      rotation returns after at most six calls.

    - Bundle authority: a token gives one only if it, its family, authorization,
      device and account are in order at a time the service's clock showed, and
      asking changes nothing.
    - Trust client: a frame is its version and body; at most one of the processes
      that stage a version succeeds; once a version was staged no later answer is
      an older one, through deaths and crashes (on systems other than Windows,
      where the code lets a failed sync of a directory pass); what is accepted has a chain of
      authority from a trusted root, and versions only grow; every call returns
      within a bounded number of file system calls.  The scan of a text accepts
      exactly the strict JSON texts.
    - Trust server: a signature that the bounded signer returns is the provider's
      answer for that message, and a deadline releases its caller; after [Close]
      the worker ends by itself, unless it is inside a provider that does not
      answer, where it stays.  Server and client judge metadata alike.
    - Trust application: the bundles of an authorization have the versions 1 to the
      highest, each once, and are never changed; a stored bundle is served until it
      expires; a resolution names the current bundle; a repeated request gets the
      recorded answer.  [delivered_bundle_accepted] composes everything: what a
      request made, whatever happens afterwards, is served under its path and
      accepted by the trust client of its device.
    - Trust metadata: a newer valid version with new keys is accepted when the
      database answers, whatever the number of stored versions, and is listed
      while there are at most 1024.  Two defects are proved: a
      version that keeps a stored signing key can never be published
      ([key_published_once]), and publishing at the limit of stored versions makes
      the table unreadable ([published_listed]).

    ** Fuel and bounds

    [retry_loop] gets six rounds and is proved to return within them;
    [validatePayloadDescriptor] one level per described message plus one, proved
    enough; the strict JSON walk two steps per byte of the body plus two, proved
    enough; a token of the JSON stream at most two turns of its loop; number
    formatting and UTF-8 decoding get the length of their input; [writeAll] the
    length of the frame, since a write that makes no progress is an error; the scan
    and the reader of a JSON text two steps per byte and two more, proved enough
    ([read_enough], [json_text_reads]); [ijson_tokens] one token per byte; RFC 3339
    texts round trip for years 0 to 9999, which the claims about delivery ask of the
    clock ([dated]); programs are finite trees and [run] gets a list of choices,
    with theorems that enough of them give a result.

    ** Not modelled

    The v7 migration tooling of the authority (one-off sealing and import), effect
    resolution and dispatch beyond the resolver interface, of the fence repository
    [GetStoredFence], [Lock] and [ConsumeVerifiedFreshRestoreImport] (and with them
    the persisted outcome of a stored fence), identity beyond the two
    methods the rotation calls, registration of devices, their revocation and the
    creation of challenges by the service; of the trust packages
    [EnsureLocalMetadata] (a fixture of local deployments), the observing signer,
    the checks of [NewApplication] on its dependencies, the durability of the root
    directory of the store, which its owner creates, and the methods that redact
    printing and refuse serialization; targets of strict JSON outside the modelled
    Go types ([any], floating point, custom unmarshalers other than
    [json.RawMessage]), the HTTP handlers, configuration, observability, process
    wiring, and generated code. Nil receivers and typed-nil interfaces are outside
    the types of the models; clearing of byte slices is modelled only where a claim
    depends on it (closing the protector, taking a response).  Times that are not
    UTC are kept apart by a flag, and [Year] is that of UTC. *)
From Stdlib Require Import ZArith Lia Strings.Byte.
From stdpp Require Import base gmap list strings numbers option.

#[global] Open Scope Z_scope.

(** ** Notations *)

(** Go's [==] and [!=] on comparable values, as booleans. *)
Declare Scope go_scope.
Delimit Scope go_scope with go.

Notation "x == y" := (bool_decide (x = y))
  (at level 70, no associativity) : go_scope.
Notation "x != y" := (negb (bool_decide (x = y)))
  (at level 70, no associativity) : go_scope.

(** ** Bytes *)

(** Go's [byte] (= [uint8]) is the 256-element [byte] of the standard library;
    [[]byte] and the fixed-size arrays [[16]byte] and [[32]byte] are lists of
    them. *)
Abbreviation byte := Corelib.Init.Byte.byte.
Abbreviation bytes := (list byte).

#[export] Instance byte_eq_dec : EqDecision byte := Byte.byte_eq_dec.

#[export] Program Instance byte_countable : Countable byte :=
  inj_countable Byte.to_N Byte.of_N _.
Next Obligation. apply Byte.of_to_N. Qed.

(** ** Results

    A Go function that returns [(value, error)] returns a [result]: [Ok value]
    for a nil error and [Err e] for the zero value with error [e].  A function
    that returns only an [error] returns an [option] of it, [None] for nil. *)
Inductive result (E A : Type) : Type :=
| Ok (a : A)
| Err (e : E).
Arguments Ok {E A} a.
Arguments Err {E A} e.

#[export] Instance result_eq_dec {E A} `{EqDecision E} `{EqDecision A} :
  EqDecision (result E A).
Proof. solve_decision. Defined.

(** The error component alone, as [_, err := f()]. *)
Definition result_err {E A} (r : result E A) : option E :=
  match r with Ok _ => None | Err e => Some e end.

(** [err == nil]. *)
Definition ok_err {E} (e : option E) : bool :=
  match e with None => true | Some _ => false end.

(** [err != nil]. *)
Definition is_err {E} (e : option E) : bool :=
  match e with None => false | Some _ => true end.

(** [p == nil] on a pointer modelled as an option. *)
Definition is_nil {A} (p : option A) : bool :=
  match p with None => true | Some _ => false end.

(** [p != nil]. *)
Definition not_nil {A} (p : option A) : bool := negb (is_nil p).

(** ** Automation *)

(** Turn boolean guards of the code into propositions. *)
Ltac bool_props :=
  repeat match goal with
  | H : true = false |- _ => discriminate H
  | H : false = true |- _ => discriminate H
  | H : (_ && _) = true |- _ => apply andb_true_iff in H; destruct H
  | H : (_ || _) = false |- _ => apply orb_false_iff in H; destruct H
  | H : negb _ = true |- _ => apply negb_true_iff in H
  | H : negb _ = false |- _ => apply negb_false_iff in H
  | H : bool_decide _ = true |- _ => apply bool_decide_eq_true in H
  | H : bool_decide _ = false |- _ => apply bool_decide_eq_false in H
  | H : (_ <? _)%Z = true |- _ => apply Z.ltb_lt in H
  | H : (_ <? _)%Z = false |- _ => apply Z.ltb_ge in H
  | H : (_ <=? _)%Z = true |- _ => apply Z.leb_le in H
  | H : (_ <=? _)%Z = false |- _ => apply Z.leb_gt in H
  | H : (_ =? _)%Z = true |- _ => apply Z.eqb_eq in H
  | H : (_ =? _)%Z = false |- _ => apply Z.eqb_neq in H
  | H : is_err ?e = false |- _ => destruct e eqn:?; [discriminate H|clear H]
  | H : ok_err ?e = true |- _ => destruct e eqn:?; [discriminate H|clear H]
  | H : is_nil ?p = true |- _ => destruct p eqn:?; [discriminate H|clear H]
  | H : is_nil ?p = false |- _ => destruct p eqn:?; [clear H|discriminate H]
  | H : not_nil ?p = _ |- _ => unfold not_nil in H
  end.

(** Case analysis on the innermost scrutinee of a [match] in a hypothesis or in
    the goal, keeping the equation. *)
Ltac destruct_inner t :=
  lazymatch t with
  | context [match ?u with _ => _ end] => destruct_inner u
  | _ => destruct t eqn:?
  end.

Ltac case_in H :=
  match type of H with
  | context [match ?t with _ => _ end] => destruct_inner t
  end.

(** The same on the outermost scrutinee of an equation. *)
Ltac case_top H :=
  match type of H with
  | match ?t with _ => _ end = _ => destruct t eqn:?
  end.

Ltac case_goal :=
  match goal with
  | |- context [match ?t with _ => _ end] => destruct_inner t
  end.

(** Evaluate the comparisons of two closed texts. *)
Ltac closed_bool v := match v with true => idtac | false => idtac end.

Ltac text_eval :=
  repeat match goal with
  | H : context [@bool_decide (@eq string ?a ?b) ?d] |- _ =>
      let v := eval vm_compute in (@bool_decide (@eq string a b) d) in
      closed_bool v; change (@bool_decide (@eq string a b) d) with v in H
  | |- context [@bool_decide (@eq string ?a ?b) ?d] =>
      let v := eval vm_compute in (@bool_decide (@eq string a b) d) in
      closed_bool v; change (@bool_decide (@eq string a b) d) with v
  end.

Create HintDb go discriminated.

(** ** Lists and sums shared by the components *)

Lemma length_repeat_Z {A} (x : A) n : length (repeat x n) = n.
Proof. apply repeat_length. Qed.

(** A boolean test on every element, Go's [for ... if !p { return false }]. *)
Lemma forallb_Forall {A} (p : A -> bool) l :
  forallb p l = true <-> Forall (fun x => p x = true) l.
Proof. rewrite List.forallb_forall, List.Forall_forall. done. Qed.

Lemma app_inj_same_length {A} (a b c d : list A) :
  length a = length c -> a ++ b = c ++ d -> a = c /\ b = d.
Proof. intros Hl He. by apply app_inj_1. Qed.
