(* ===== verification/GoStd.v ===== *)
(** Executable models of the parts of the Go language and standard library that
    the modelled packages use: fixed-width integers, [encoding/binary],
    [encoding/hex], [strconv], [strings], [crypto/sha256], [crypto/hmac] and
    [bytes].  Each definition is total and evaluates by [vm_compute]. *)
From Stdlib Require Import ZArith Lia Strings.Byte.
From stdpp Require Import base list sets strings numbers option.
From S2P Require Import Prelude.

(** ** Integers at their width *)

Definition u16 (z : Z) : Z := z mod 2 ^ 16.
Definition u32 (z : Z) : Z := z mod 2 ^ 32.
Definition u64 (z : Z) : Z := z mod 2 ^ 64.

(** Conversion to [int64]: two's-complement reinterpretation. *)
Definition i64 (z : Z) : Z := (z + 2 ^ 63) mod 2 ^ 64 - 2 ^ 63.

Definition MaxInt64 : Z := 2 ^ 63 - 1.
Definition MinInt64 : Z := - 2 ^ 63.
Definition MaxUint32 : Z := 2 ^ 32 - 1.

Definition is_u64 (z : Z) : Prop := 0 <= z < 2 ^ 64.
Definition is_i64 (z : Z) : Prop := - 2 ^ 63 <= z < 2 ^ 63.

Lemma u64_id z : is_u64 z -> u64 z = z.
Proof. unfold is_u64, u64. intros. by apply Z.mod_small. Qed.

Lemma u32_id z : 0 <= z < 2 ^ 32 -> u32 z = z.
Proof. unfold u32. intros. by apply Z.mod_small. Qed.

Lemma i64_id z : is_i64 z -> i64 z = z.
Proof. unfold is_i64, i64. intros. rewrite Z.mod_small; lia. Qed.

Lemma i64_range z : is_i64 (i64 z).
Proof.
  unfold is_i64, i64. pose proof (Z.mod_pos_bound (z + 2 ^ 63) (2 ^ 64)). lia.
Qed.

#[export] Hint Resolve u64_id u32_id i64_id i64_range : go.

(** [len(x)] as an integer. *)
Definition len {A} (l : list A) : Z := Z.of_nat (length l).

(** [len(s)] of a Go string: its number of bytes. *)
Definition slen (s : string) : Z := Z.of_nat (String.length s).

Lemma len_nonneg {A} (l : list A) : 0 <= len l.
Proof. unfold len. lia. Qed.

Lemma len_app {A} (l k : list A) : len (l ++ k) = len l + len k.
Proof. unfold len. rewrite length_app. lia. Qed.

(** ** Bytes and numbers *)

Definition byte_to_Z (b : byte) : Z := Z.of_N (Byte.to_N b).

(** Conversion to [byte] keeps the low eight bits. *)
Definition byte_of_Z (z : Z) : byte :=
  match Byte.of_N (Z.to_N (z mod 256)) with
  | Some b => b
  | None => x00
  end.

Lemma byte_to_Z_range b : 0 <= byte_to_Z b < 256.
Proof. unfold byte_to_Z. pose proof (Byte.to_N_bounded b). lia. Qed.

Lemma byte_to_of_Z z : byte_to_Z (byte_of_Z z) = z mod 256.
Proof.
  unfold byte_to_Z, byte_of_Z.
  pose proof (Z.mod_pos_bound z 256 ltac:(lia)) as Hb.
  destruct (Byte.of_N (Z.to_N (z mod 256))) as [b|] eqn:E.
  - apply Byte.to_of_N in E. rewrite E. rewrite Z2N.id; lia.
  - apply Byte.of_N_None_iff in E. lia.
Qed.

Lemma byte_of_to_Z b : byte_of_Z (byte_to_Z b) = b.
Proof. by destruct b. Qed.

Lemma byte_to_Z_inj a b : byte_to_Z a = byte_to_Z b -> a = b.
Proof.
  intros H. rewrite <- (byte_of_to_Z a), <- (byte_of_to_Z b). by rewrite H.
Qed.

(** [binary.BigEndian]: the value of a byte string, most significant first, and
    the [n] bytes of a value. *)
Fixpoint be_value_acc (acc : Z) (l : bytes) : Z :=
  match l with
  | [] => acc
  | b :: l' => be_value_acc (acc * 256 + byte_to_Z b) l'
  end.

Definition be_value (l : bytes) : Z := be_value_acc 0 l.

Fixpoint be_bytes (n : nat) (z : Z) : bytes :=
  match n with
  | O => []
  | S m => byte_of_Z (z / 256 ^ Z.of_nat m) :: be_bytes m z
  end.

Lemma be_bytes_length n z : length (be_bytes n z) = n.
Proof. induction n; simpl; congruence. Qed.

Lemma be_value_acc_add acc l :
  be_value_acc acc l = acc * 256 ^ len l + be_value l.
Proof.
  unfold be_value. revert acc. induction l as [|b l IH]; intros acc.
  - simpl. unfold len. simpl. lia.
  - cbn [be_value_acc]. rewrite IH. rewrite (IH (0 * 256 + byte_to_Z b)).
    replace (len (b :: l)) with (1 + len l) by (unfold len; simpl length; lia).
    rewrite Z.pow_add_r by (pose proof (len_nonneg l); lia). lia.
Qed.

Lemma be_value_cons b l :
  be_value (b :: l) = byte_to_Z b * 256 ^ len l + be_value l.
Proof. unfold be_value at 1. cbn [be_value_acc]. rewrite be_value_acc_add. lia. Qed.

Lemma be_value_range l : 0 <= be_value l < 256 ^ len l.
Proof.
  induction l as [|b l IH].
  - unfold be_value, len; simpl; lia.
  - rewrite be_value_cons.
    replace (len (b :: l)) with (1 + len l) by (unfold len; simpl length; lia).
    rewrite Z.pow_add_r by (pose proof (len_nonneg l); lia).
    pose proof (byte_to_Z_range b). nia.
Qed.

Lemma be_value_be_bytes n z : be_value (be_bytes n z) = z mod 256 ^ Z.of_nat n.
Proof.
  induction n as [|n IH].
  - cbn [be_bytes]. unfold be_value. cbn [be_value_acc]. by rewrite Z.mod_1_r.
  - cbn [be_bytes]. rewrite be_value_cons, IH, byte_to_of_Z.
    unfold len. rewrite be_bytes_length.
    rewrite Nat2Z.inj_succ, <- Z.add_1_r, Z.pow_add_r by lia.
    rewrite (Z.rem_mul_r z (256 ^ Z.of_nat n) (256 ^ 1)) by lia.
    rewrite Z.pow_1_r. lia.
Qed.

Lemma be_bytes_mod n k z : (n <= k)%nat -> be_bytes n (z mod 256 ^ Z.of_nat k) = be_bytes n z.
Proof.
  induction n as [|n IH]; intros Hk; [done|]. cbn [be_bytes].
  rewrite IH by lia. f_equal.
  apply byte_to_Z_inj. rewrite !byte_to_of_Z.
  replace (Z.of_nat k) with (Z.of_nat n + (1 + (Z.of_nat k - Z.of_nat n - 1))) by lia.
  rewrite Z.pow_add_r, (Z.pow_add_r 256 1) by lia.
  rewrite (Z.rem_mul_r z) by (try apply Z.pow_nonzero; try apply Z.mul_pos_pos; lia).
  rewrite Z.mul_comm, Z.div_add by (apply Z.pow_nonzero; lia).
  rewrite (Z.div_small (z mod _)) by (apply Z.mod_pos_bound; lia).
  rewrite Z.add_0_l, Z.pow_1_r, Z.rem_mul_r by lia.
  rewrite Z.mul_comm, Z.mod_add by lia. by rewrite Z.mod_mod by lia.
Qed.

Lemma be_bytes_be_value l : be_bytes (length l) (be_value l) = l.
Proof.
  induction l as [|b l IH]; [done|]. cbn [length be_bytes].
  rewrite be_value_cons. pose proof (be_value_range l) as Hr. unfold len in *.
  f_equal.
  - apply byte_to_Z_inj. rewrite byte_to_of_Z, Z.div_add_l by (apply Z.pow_nonzero; lia).
    rewrite (Z.div_small (be_value l)) by lia.
    rewrite Z.add_0_r. apply Z.mod_small, byte_to_Z_range.
  - rewrite <- (be_bytes_mod (length l) (length l)) by lia.
    rewrite Z.add_comm, Z.mod_add by (apply Z.pow_nonzero; lia).
    rewrite (Z.mod_small (be_value l)) by lia. done.
Qed.

Lemma be_value_inj a b :
  length a = length b -> be_value a = be_value b -> a = b.
Proof.
  intros Hl Hv. rewrite <- (be_bytes_be_value a), <- (be_bytes_be_value b).
  by rewrite Hl, Hv.
Qed.

(** [l[from:to]] *)
Definition subslice (l : bytes) (from to : Z) : bytes :=
  take (Z.to_nat (to - from)) (drop (Z.to_nat from) l).

Lemma subslice_app a b c from to : from = len a -> to = len a + len b -> subslice (a ++ b ++ c) from to = b.
Proof.
  intros -> ->. unfold subslice, len. rewrite Nat2Z.id, drop_app_length.
  replace (Z.to_nat _) with (length b) by lia. apply take_app_length.
Qed.

Lemma subslice_length l from to : 0 <= from <= to -> to <= len l -> len (subslice l from to) = to - from.
Proof. intros. unfold subslice, len in *. rewrite length_take, length_drop. lia. Qed.

Lemma subslice_split l from mid to : 0 <= from <= mid -> mid <= to -> to <= len l ->
  subslice l from to = subslice l from mid ++ subslice l mid to.
Proof.
  intros. unfold subslice. replace (Z.to_nat mid) with (Z.to_nat from + Z.to_nat (mid - from))%nat by lia.
  rewrite <- drop_drop. replace (Z.to_nat (to - from)) with (Z.to_nat (mid - from) + Z.to_nat (to - mid))%nat by lia.
  symmetry. apply take_take_drop.
Qed.

Lemma subslice_all l : subslice l 0 (len l) = l.
Proof. unfold subslice, len. rewrite Z.sub_0_r, Nat2Z.id. apply firstn_all. Qed.

(** ** Strings *)

(** [[]byte(s)] and [string(b)]. *)
Definition sbytes (s : string) : bytes := String.list_byte_of_string s.
Definition bstring (b : bytes) : string := String.string_of_list_byte b.

Lemma bstring_sbytes s : bstring (sbytes s) = s.
Proof. apply String.string_of_list_byte_of_string. Qed.

Lemma sbytes_bstring b : sbytes (bstring b) = b.
Proof. apply String.list_byte_of_string_of_list_byte. Qed.

Lemma sbytes_inj s t : sbytes s = sbytes t -> s = t.
Proof. intros H. rewrite <- (bstring_sbytes s), <- (bstring_sbytes t). by rewrite H. Qed.

Lemma bstring_inj a b : bstring a = bstring b -> a = b.
Proof. intros H. rewrite <- (sbytes_bstring a), <- (sbytes_bstring b). by rewrite H. Qed.

Lemma sbytes_length s : length (sbytes s) = String.length s.
Proof.
  unfold sbytes, String.list_byte_of_string. rewrite length_map.
  induction s as [|a s IH]; [done|]. cbn. by rewrite IH.
Qed.

Lemma sbytes_app s t : sbytes (s +:+ t) = sbytes s ++ sbytes t.
Proof.
  unfold sbytes, String.list_byte_of_string. rewrite <- List.map_app. f_equal.
  induction s as [|a s IH]; [done|].
  change (a :: String.list_ascii_of_string (s +:+ t) =
          a :: (String.list_ascii_of_string s ++ String.list_ascii_of_string t)).
  by rewrite IH.
Qed.

(** [lo <= c && c <= hi] on a byte. *)
Definition in_range (lo hi : byte) (c : byte) : bool :=
  (byte_to_Z lo <=? byte_to_Z c) && (byte_to_Z c <=? byte_to_Z hi).

(** [strings.HasPrefix]/[bytes.HasPrefix], [HasSuffix], [TrimPrefix] and
    [TrimSuffix]. *)
Fixpoint has_prefix (p l : bytes) : bool :=
  match p, l with
  | [], _ => true
  | a :: p', b :: l' => bool_decide (a = b) && has_prefix p' l'
  | _ :: _, [] => false
  end.

Definition has_suffix (p l : bytes) : bool := has_prefix (rev p) (rev l).

Definition trim_prefix (p l : bytes) : bytes :=
  if has_prefix p l then drop (length p) l else l.

Definition trim_suffix (p l : bytes) : bytes :=
  if has_suffix p l then take (length l - length p) l else l.

(** [strings.Count(s, sep)] for a one-byte separator. *)
Definition count_byte (c : byte) (l : bytes) : Z :=
  len (List.filter (fun b => bool_decide (b = c)) l).

(** [strings.SplitN(s, sep, 2)] for a one-byte separator: the parts before and
    after its first occurrence. *)
Fixpoint split_first (c : byte) (l : bytes) : option (bytes * bytes) :=
  match l with
  | [] => None
  | b :: l' =>
      if bool_decide (b = c) then Some ([], l')
      else match split_first c l' with
           | Some (p, q) => Some (b :: p, q)
           | None => None
           end
  end.

Lemma has_prefix_spec p l : has_prefix p l = true <-> exists k, l = p ++ k.
Proof.
  revert l. induction p as [|a p IH]; intros l; simpl.
  - split; [eauto | done].
  - destruct l as [|b l]; [split; [done | by intros [k ?]]|].
    rewrite andb_true_iff, bool_decide_eq_true, IH. split.
    + intros [-> [k ->]]. by exists k.
    + intros [k Hk]. injection Hk as -> ->. eauto.
Qed.

Lemma has_suffix_spec p l : has_suffix p l = true <-> exists k, l = k ++ p.
Proof.
  unfold has_suffix. rewrite has_prefix_spec. split.
  - intros [k Hk]. exists (rev k). rewrite <- (rev_involutive l), Hk.
    by rewrite rev_app_distr, rev_involutive.
  - intros [k ->]. exists (rev k). apply rev_app_distr.
Qed.

Lemma has_prefix_app p k : has_prefix p (p ++ k) = true.
Proof. apply has_prefix_spec. eauto. Qed.

Lemma has_suffix_app p k : has_suffix p (k ++ p) = true.
Proof. apply has_suffix_spec. eauto. Qed.

Lemma trim_prefix_app p k : trim_prefix p (p ++ k) = k.
Proof. unfold trim_prefix. rewrite has_prefix_app. apply drop_app_length. Qed.

Lemma trim_suffix_app p k : trim_suffix p (k ++ p) = k.
Proof.
  unfold trim_suffix. rewrite has_suffix_app.
  rewrite length_app, Nat.add_sub. apply take_app_length.
Qed.

Lemma split_first_spec c l p q :
  split_first c l = Some (p, q) <-> l = p ++ c :: q /\ c ∉ p.
Proof.
  revert p q. induction l as [|b l IH]; intros p q; simpl.
  - split; [done|]. intros [H _]. by destruct p.
  - case_bool_decide as Hb.
    + subst. split.
      * intros [= <- <-]. split; [done | set_solver].
      * intros [H Hn]. destruct p as [|a p]; simplify_list_eq; [done|].
        exfalso. apply Hn. set_solver.
    + destruct (split_first c l) as [[p' q']|] eqn:E.
      * destruct (proj1 (IH p' q') eq_refl) as [-> Hn]. split.
        -- intros [= <- <-]. split; [done | set_solver].
        -- intros [H Hn']. destruct p as [|a p]; simplify_list_eq.
           enough (Some (p', q') = Some (p, q)) by congruence.
           apply IH. split; [done | set_solver].
      * split; [done|]. intros [H Hn]. destruct p as [|a p]; simplify_list_eq.
        enough (@None (bytes * bytes) = Some (p, q)) by done.
        apply IH. split; [done | set_solver].
Qed.

(** ** [strconv] *)

(** The digits of [n] in base [base], most significant first; 64 steps suffice
    for a [uint64] in any base. *)
Fixpoint digits_fuel (fuel : nat) (base n : Z) (acc : list Z) : list Z :=
  match fuel with
  | O => acc
  | S f => if n <? base then n :: acc
           else digits_fuel f base (n / base) (n mod base :: acc)
  end.

Definition digits (base n : Z) : list Z := digits_fuel 64 base n [].

Definition digit_char (d : Z) : byte :=
  if d <? 10 then byte_of_Z (48 + d) else byte_of_Z (87 + d).

(** [strconv.FormatUint(n, base)]. *)
Definition FormatUint (n base : Z) : bytes := map digit_char (digits base n).

(** The value of a digit or letter, either case. *)
Definition digit_val (c : byte) : option Z :=
  if in_range "0" "9" c then Some (byte_to_Z c - 48)
  else if in_range "a" "z" c then Some (byte_to_Z c - 87)
  else if in_range "A" "Z" c then Some (byte_to_Z c - 55)
  else None.

Fixpoint parse_digits (base max acc : Z) (l : bytes) : option Z :=
  match l with
  | [] => Some acc
  | c :: l' =>
      match digit_val c with
      | None => None
      | Some d =>
          if base <=? d then None
          else let n := acc * base + d in
               if max <? n then None else parse_digits base max n l'
      end
  end.

(** [strconv.ParseUint(s, base, bits)]: [None] for a syntax or range error. *)
Definition ParseUint (l : bytes) (base bits : Z) : option Z :=
  match l with
  | [] => None
  | _ => parse_digits base (2 ^ bits - 1) 0 l
  end.

(** [strings.ToUpper] on the ASCII text [FormatUint] returns. *)
Definition upper_byte (c : byte) : byte :=
  if in_range "a" "z" c then byte_of_Z (byte_to_Z c - 32) else c.
Definition ToUpper (l : bytes) : bytes := map upper_byte l.

Definition digits_value (base : Z) (acc : Z) (ds : list Z) : Z :=
  fold_left (fun a d => a * base + d) ds acc.

Lemma digits_value_app base acc a b :
  digits_value base acc (a ++ b) = digits_value base (digits_value base acc a) b.
Proof. unfold digits_value. apply fold_left_app. Qed.

Lemma digits_fuel_app f base n acc :
  digits_fuel f base n acc = digits_fuel f base n [] ++ acc.
Proof.
  revert n acc. induction f as [|f IH]; intros n acc; simpl; [done|].
  case_match; [done|].
  rewrite (IH _ (n mod base :: acc)), (IH _ [n mod base]).
  by rewrite <- app_assoc.
Qed.

Lemma digits_fuel_range f base n :
  2 <= base -> 0 <= n -> Forall (fun d => 0 <= d < base) (digits_fuel f base n []).
Proof.
  intros Hb. revert n. induction f as [|f IH]; intros n Hn; simpl; [constructor|].
  destruct (n <? base) eqn:E; bool_props; [repeat constructor; lia|].
  rewrite digits_fuel_app. apply Forall_app_2.
  - apply IH, Z.div_pos; lia.
  - repeat constructor; apply Z.mod_pos_bound; lia.
Qed.

Lemma digits_fuel_value f base n acc :
  2 <= base -> 0 <= n < base ^ Z.of_nat f ->
  digits_value base acc (digits_fuel f base n []) =
  acc * base ^ len (digits_fuel f base n []) + n.
Proof.
  intros Hb. revert n acc. induction f as [|f IH]; intros n acc Hn.
  - simpl in *. unfold len; simpl. lia.
  - rewrite Nat2Z.inj_succ, Z.pow_succ_r in Hn by lia. cbn [digits_fuel].
    destruct (n <? base) eqn:E; bool_props.
    { unfold digits_value, len; simpl. lia. }
    rewrite digits_fuel_app, digits_value_app, IH, len_app.
    2: { split; [apply Z.div_pos; lia | apply Z.div_lt_upper_bound; lia]. }
    replace (len [n mod base]) with 1 by done.
    rewrite Z.pow_add_r by (pose proof (len_nonneg (digits_fuel f base (n / base) [])); lia).
    unfold digits_value. cbn [fold_left].
    pose proof (Z.div_mod n base ltac:(lia)). nia.
Qed.

Lemma digits_value_ge base acc ds :
  1 <= base -> 0 <= acc -> Forall (fun d => 0 <= d < base) ds ->
  acc <= digits_value base acc ds.
Proof.
  intros Hb. revert acc. induction ds as [|d ds IH]; intros acc Ha Hd.
  - unfold digits_value. simpl. lia.
  - inversion Hd; subst. unfold digits_value. cbn [fold_left].
    specialize (IH (acc * base + d) ltac:(nia) ltac:(done)).
    unfold digits_value in IH. nia.
Qed.

Lemma digits_fuel_nonempty f base n : digits_fuel (S f) base n [] <> [].
Proof.
  cbn [digits_fuel]. case_match; [done|].
  rewrite digits_fuel_app. by destruct (digits_fuel _ _ _ _).
Qed.

Lemma digits_nonempty base n : digits base n <> [].
Proof. apply digits_fuel_nonempty. Qed.

Lemma digit_char_val d : 0 <= d < 36 -> digit_val (digit_char d) = Some d.
Proof.
  intros Hd.
  assert (Forall (fun d => digit_val (digit_char d) = Some d) (seqZ 0 36)) as Hall
    by (apply (bool_decide_unpack _); vm_compute; exact I).
  rewrite List.Forall_forall in Hall. apply Hall, list_elem_of_In, elem_of_seqZ. lia.
Qed.

Lemma parse_digits_map base max acc ds :
  1 <= base <= 36 -> 0 <= acc -> Forall (fun d => 0 <= d < base) ds ->
  digits_value base acc ds <= max ->
  parse_digits base max acc (map digit_char ds) = Some (digits_value base acc ds).
Proof.
  intros Hb. revert acc. induction ds as [|d ds IH]; intros acc Ha Hd Hm; [done|].
  inversion Hd as [|? ? Hd1 Hd2]; subst. cbn [map parse_digits].
  rewrite digit_char_val by lia.
  rewrite (proj2 (Z.leb_gt base d)) by lia.
  assert (acc * base + d <= max) as Hle.
  { pose proof (digits_value_ge base (acc * base + d) ds ltac:(lia) ltac:(nia) Hd2) as Hge.
    unfold digits_value in *. cbn [fold_left] in Hm. lia. }
  cbv zeta. rewrite (proj2 (Z.ltb_ge max (acc * base + d))) by lia.
  apply IH; [nia | done | exact Hm].
Qed.

(** Printing and parsing a number in a base between 2 and 36 is the identity. *)
Lemma ParseUint_FormatUint n base bits :
  2 <= base <= 36 -> 0 <= bits <= 64 -> 0 <= n < 2 ^ bits ->
  ParseUint (FormatUint n base) base bits = Some n.
Proof.
  intros Hbase Hbits Hn. unfold ParseUint, FormatUint.
  destruct (map digit_char (digits base n)) eqn:E.
  { apply map_eq_nil in E. by apply digits_nonempty in E. }
  rewrite <- E. unfold digits.
  assert (0 <= n < base ^ Z.of_nat 64) as Hr.
  { split; [lia|]. apply Z.lt_le_trans with (2 ^ bits); [lia|].
    apply Z.le_trans with (2 ^ 64); [apply Z.pow_le_mono_r; lia|].
    apply (Z.pow_le_mono_l 2 base 64). lia. }
  pose proof (digits_fuel_value 64 base n 0 ltac:(lia) Hr) as Hv.
  rewrite Z.mul_0_l, Z.add_0_l in Hv.
  rewrite parse_digits_map; [by rewrite Hv | lia | lia | apply digits_fuel_range; lia | lia].
Qed.

(** [fmt.Sprintf("%0*d", width, n)] of an unsigned number. *)
Definition pad_decimal (width : nat) (n : Z) : bytes :=
  let digits := FormatUint n 10 in repeat "0"%byte (width - length digits) ++ digits.

(** ** [encoding/hex] *)

Definition hex_byte (b : byte) : bytes :=
  [digit_char (byte_to_Z b / 16); digit_char (byte_to_Z b mod 16)].

(** [hex.EncodeToString]. *)
Definition hex_encode (l : bytes) : bytes := flat_map hex_byte l.

Lemma digit_char_inj a b :
  0 <= a < 36 -> 0 <= b < 36 -> digit_char a = digit_char b -> a = b.
Proof.
  intros Ha Hb H. apply (f_equal digit_val) in H.
  rewrite !digit_char_val in H by lia. congruence.
Qed.

Lemma hex_byte_inj a b : hex_byte a = hex_byte b -> a = b.
Proof.
  unfold hex_byte. intros [= H1 H2].
  pose proof (byte_to_Z_range a). pose proof (byte_to_Z_range b).
  apply digit_char_inj in H1; [|split; [apply Z.div_pos; lia | apply Z.div_lt_upper_bound; lia]..].
  apply digit_char_inj in H2;
    [|pose proof (Z.mod_pos_bound (byte_to_Z a) 16 ltac:(lia)); lia
     |pose proof (Z.mod_pos_bound (byte_to_Z b) 16 ltac:(lia)); lia].
  apply byte_to_Z_inj.
  rewrite (Z.div_mod (byte_to_Z a) 16), (Z.div_mod (byte_to_Z b) 16) by lia. congruence.
Qed.

Lemma hex_encode_inj a b : hex_encode a = hex_encode b -> a = b.
Proof.
  revert b. induction a as [|x a IH]; intros [|y b] H; simpl in H; try done.
  injection H as H1 H2 H3. f_equal; [|by apply IH].
  apply hex_byte_inj. unfold hex_byte. congruence.
Qed.

(** ** [crypto/sha256]

    FIPS 180-4 over 32-bit words kept as integers below [2 ^ 32]. *)
Definition rotr (n x : Z) : Z :=
  Z.lor (Z.shiftr x n) (u32 (Z.shiftl x (32 - n))).

(** The round constants and the initial state are the first 32 bits of the
    fractional parts of the cube and square roots of the first primes. *)
Definition icbrt (n : Z) : Z :=
  fold_left (fun r k => let r' := r + 2 ^ k in if r' * r' * r' <=? n then r' else r)
            (rev (seqZ 0 36)) 0.

Definition small_primes : list Z :=
  filter (fun n => forallb (fun d => negb (n mod d =? 0)) (seqZ 2 (Z.sqrt n - 1)) = true)
         (seqZ 2 310).

Definition sha_k : list Z :=
  Eval vm_compute in map (fun q => u32 (icbrt (q * 2 ^ 96))) (take 64 small_primes).

Definition sha_h0 : list Z :=
  Eval vm_compute in map (fun q => u32 (Z.sqrt (q * 2 ^ 64))) (take 8 small_primes).

Record sha_state := ShaState {
  sh_a : Z; sh_b : Z; sh_c : Z; sh_d : Z; sh_e : Z; sh_f : Z; sh_g : Z; sh_h : Z }.

Definition sha_init : sha_state :=
  ShaState (nth 0 sha_h0 0) (nth 1 sha_h0 0) (nth 2 sha_h0 0) (nth 3 sha_h0 0)
           (nth 4 sha_h0 0) (nth 5 sha_h0 0) (nth 6 sha_h0 0) (nth 7 sha_h0 0).

(** The message schedule, newest word first. *)
Fixpoint sha_schedule (n : nat) (w : list Z) : list Z :=
  match n with
  | O => w
  | S m =>
      let w2 := nth 1 w 0 in let w7 := nth 6 w 0 in
      let w15 := nth 14 w 0 in let w16 := nth 15 w 0 in
      let s0 := Z.lxor (Z.lxor (rotr 7 w15) (rotr 18 w15)) (Z.shiftr w15 3) in
      let s1 := Z.lxor (Z.lxor (rotr 17 w2) (rotr 19 w2)) (Z.shiftr w2 10) in
      sha_schedule m (u32 (w16 + s0 + w7 + s1) :: w)
  end.

Definition sha_round (s : sha_state) (kw : Z * Z) : sha_state :=
  let s1 := Z.lxor (Z.lxor (rotr 6 (sh_e s)) (rotr 11 (sh_e s))) (rotr 25 (sh_e s)) in
  let ch := Z.lxor (Z.land (sh_e s) (sh_f s)) (Z.land (2 ^ 32 - 1 - sh_e s) (sh_g s)) in
  let t1 := sh_h s + s1 + ch + kw.1 + kw.2 in
  let s0 := Z.lxor (Z.lxor (rotr 2 (sh_a s)) (rotr 13 (sh_a s))) (rotr 22 (sh_a s)) in
  let maj := Z.lxor (Z.lxor (Z.land (sh_a s) (sh_b s)) (Z.land (sh_a s) (sh_c s)))
                    (Z.land (sh_b s) (sh_c s)) in
  ShaState (u32 (t1 + s0 + maj)) (sh_a s) (sh_b s) (sh_c s)
           (u32 (sh_d s + t1)) (sh_e s) (sh_f s) (sh_g s).

Definition sha_add (s t : sha_state) : sha_state :=
  ShaState (u32 (sh_a s + sh_a t)) (u32 (sh_b s + sh_b t)) (u32 (sh_c s + sh_c t))
           (u32 (sh_d s + sh_d t)) (u32 (sh_e s + sh_e t)) (u32 (sh_f s + sh_f t))
           (u32 (sh_g s + sh_g t)) (u32 (sh_h s + sh_h t)).

(** Cut a list into [n] pieces of [k] elements. *)
Fixpoint chunks {A} (k n : nat) (l : list A) : list (list A) :=
  match n with
  | O => []
  | S m => take k l :: chunks k m (drop k l)
  end.

Definition sha_block (s : sha_state) (block : bytes) : sha_state :=
  let w := rev (sha_schedule 48 (rev (map be_value (chunks 4 16 block)))) in
  sha_add s (fold_left sha_round (combine sha_k w) s).

(** The message, a one bit, zeros up to 56 bytes modulo 64, and the bit length. *)
Definition sha_pad (m : bytes) : bytes :=
  m ++ [x80] ++ repeat x00 (Z.to_nat ((55 - len m) mod 64)) ++ be_bytes 8 (8 * len m).

Definition sha_output (s : sha_state) : bytes :=
  be_bytes 4 (sh_a s) ++ be_bytes 4 (sh_b s) ++ be_bytes 4 (sh_c s) ++ be_bytes 4 (sh_d s) ++
  be_bytes 4 (sh_e s) ++ be_bytes 4 (sh_f s) ++ be_bytes 4 (sh_g s) ++ be_bytes 4 (sh_h s).

(** [sha256.Sum256]. *)
Definition sha256 (m : bytes) : bytes :=
  let padded := sha_pad m in
  sha_output (fold_left sha_block (chunks 64 (length padded / 64) padded) sha_init).

Lemma sha256_length m : length (sha256 m) = 32%nat.
Proof. unfold sha256, sha_output. by rewrite !length_app, !be_bytes_length. Qed.

#[global] Opaque sha256.

(** ** [crypto/hmac] *)
Definition xor_byte (k : Z) (b : byte) : byte := byte_of_Z (Z.lxor k (byte_to_Z b)).

Definition hmac_key (sum : bytes -> bytes) (key : bytes) : bytes :=
  let k := if 64 <? len key then sum key else key in
  k ++ repeat x00 (64 - length k).

(** HMAC (RFC 2104) over a hash with 64-byte blocks. *)
Definition hmac (sum : bytes -> bytes) (key m : bytes) : bytes :=
  let k := hmac_key sum key in
  sum (map (xor_byte 0x5c) k ++ sum (map (xor_byte 0x36) k ++ m)).

(** Published test vectors of the two functions. *)
Example sha256_abc :
  bstring (hex_encode (sha256 (sbytes "abc"))) =
  "ba7816bf8f01cfea414140de5dae2223b00361a396177a9cb410ff61f20015ad".
Proof. vm_compute. reflexivity. Qed.

Example hmac_sha256_jefe :
  bstring (hex_encode (hmac sha256 (sbytes "Jefe") (sbytes "what do ya want for nothing?"))) =
  "5bdcc146bf60754e6a042426089575c75a003f089d2739839dec58b964ec3843".
Proof. vm_compute. reflexivity. Qed.

(** ** [unicode/utf8] *)

Definition RuneError : Z := 0xFFFD.

Definition cont (lo hi : Z) (b : byte) : bool :=
  (lo <=? byte_to_Z b) && (byte_to_Z b <=? hi).

(** The accepted range of the second byte after the first byte [b0] of a
    multi-byte sequence, and the sequence's length. *)
Definition utf8_first (b0 : Z) : option (nat * Z * Z) :=
  if (0xC2 <=? b0) && (b0 <=? 0xDF) then Some (2%nat, 0x80, 0xBF)
  else if b0 =? 0xE0 then Some (3%nat, 0xA0, 0xBF)
  else if b0 =? 0xED then Some (3%nat, 0x80, 0x9F)
  else if (0xE1 <=? b0) && (b0 <=? 0xEF) then Some (3%nat, 0x80, 0xBF)
  else if b0 =? 0xF0 then Some (4%nat, 0x90, 0xBF)
  else if b0 =? 0xF4 then Some (4%nat, 0x80, 0x8F)
  else if (0xF1 <=? b0) && (b0 <=? 0xF3) then Some (4%nat, 0x80, 0xBF)
  else None.

(** [utf8.DecodeRune] of a non-empty slice: the rune and its width, with
    [(RuneError, 1)] for an invalid encoding. *)
Definition DecodeRune (b0 : byte) (l : bytes) : Z * nat :=
  let v0 := byte_to_Z b0 in
  if v0 <? 0x80 then (v0, 1%nat)
  else match utf8_first v0 with
       | Some (2%nat, lo, hi) =>
           match l with
           | b1 :: _ =>
               if cont lo hi b1 then ((v0 mod 32) * 64 + byte_to_Z b1 mod 64, 2%nat)
               else (RuneError, 1%nat)
           | _ => (RuneError, 1%nat)
           end
       | Some (3%nat, lo, hi) =>
           match l with
           | b1 :: b2 :: _ =>
               if cont lo hi b1 && cont 0x80 0xBF b2
               then ((v0 mod 16) * 4096 + (byte_to_Z b1 mod 64) * 64 + byte_to_Z b2 mod 64, 3%nat)
               else (RuneError, 1%nat)
           | _ => (RuneError, 1%nat)
           end
       | Some (_, lo, hi) =>
           match l with
           | b1 :: b2 :: b3 :: _ =>
               if cont lo hi b1 && cont 0x80 0xBF b2 && cont 0x80 0xBF b3
               then ((v0 mod 8) * 262144 + (byte_to_Z b1 mod 64) * 4096
                     + (byte_to_Z b2 mod 64) * 64 + byte_to_Z b3 mod 64, 4%nat)
               else (RuneError, 1%nat)
           | _ => (RuneError, 1%nat)
           end
       | None => (RuneError, 1%nat)
       end.

(** [utf8.Valid]; the fuel is the number of bytes, and every rune consumes at
    least one. *)
Fixpoint utf8_valid_fuel (fuel : nat) (l : bytes) : bool :=
  match fuel, l with
  | _, [] => true
  | O, _ :: _ => false
  | S f, b :: l' =>
      let '(r, w) := DecodeRune b l' in
      if (r =? RuneError) && (w =? 1)%nat then false
      else utf8_valid_fuel f (drop (w - 1) l')
  end.

Definition utf8_Valid (l : bytes) : bool := utf8_valid_fuel (length l) l.

(** ** [encoding/json]: [Marshal] of structs of strings

    The payloads the modelled code marshals are structs whose fields are
    strings, nil pointers, nested structs and slices of structs. *)
Inductive json : Type :=
| JNull
| JStr (s : bytes)
| JObj (fields : list (bytes * json))
| JList (items : list json).

(** The escape of one ASCII byte, with the HTML escapes [Marshal] applies. *)
Definition json_escape_ascii (b : byte) : bytes :=
  let v := byte_to_Z b in
  if (v =? 0x22) || (v =? 0x5C) then [x5c; b]
  else if v =? 0x08 then sbytes "\b"
  else if v =? 0x0C then sbytes "\f"
  else if v =? 0x0A then sbytes "\n"
  else if v =? 0x0D then sbytes "\r"
  else if v =? 0x09 then sbytes "\t"
  else if (v <? 0x20) || (v =? 0x3C) || (v =? 0x3E) || (v =? 0x26)
  then sbytes "\u00" ++ hex_byte b
  else [b].

Fixpoint json_escape_fuel (fuel : nat) (l : bytes) : bytes :=
  match fuel, l with
  | S f, b :: l' =>
      if byte_to_Z b <? 0x80 then json_escape_ascii b ++ json_escape_fuel f l'
      else
        let '(r, w) := DecodeRune b l' in
        (if (r =? RuneError) && (w =? 1)%nat then sbytes "\ufffd"
         else if r =? 0x2028 then sbytes "\u2028"
         else if r =? 0x2029 then sbytes "\u2029"
         else take w (b :: l'))
        ++ json_escape_fuel f (drop (w - 1) l')
  | _, _ => []
  end.

Definition json_string (s : bytes) : bytes :=
  [x22] ++ json_escape_fuel (length s) s ++ [x22].

(** Join with commas. *)
Fixpoint join_comma (parts : list bytes) : bytes :=
  match parts with
  | [] => []
  | [p] => p
  | p :: rest => p ++ [x2c] ++ join_comma rest
  end.

Fixpoint json_Marshal (v : json) : bytes :=
  match v with
  | JNull => sbytes "null"
  | JStr s => json_string s
  | JObj fields =>
      [x7b] ++
      join_comma ((fix go (fs : list (bytes * json)) : list bytes :=
                     match fs with
                     | [] => []
                     | (k, w) :: fs' => (json_string k ++ [x3a] ++ json_Marshal w) :: go fs'
                     end) fields)
      ++ [x7d]
  | JList items => [x5b] ++ join_comma (map json_Marshal items) ++ [x5d]
  end.

Example json_Marshal_example :
  json_Marshal (JObj [(sbytes "a", JStr (sbytes "x<y")); (sbytes "b", JNull)]) =
  [x7b; x22; x61; x22; x3a; x22; x78] ++ sbytes "\u003c" ++ [x79; x22; x2c; x22; x62; x22; x3a]
  ++ sbytes "null" ++ [x7d].
Proof. vm_compute. reflexivity. Qed.
