(* ===== verification/GoTime.v ===== *)
(** Go's [time.Time] and [time.Duration] as the modelled packages use them: an
    instant as nanoseconds since the zero time (January 1, year 1, 00:00 UTC),
    with a flag for the location being [time.UTC]; durations are nanoseconds.

    [time.RFC3339Nano]: the text of a UTC time and what [time.Parse] makes of
    it.  [Parse] here is the path the standard library takes for texts of the
    RFC 3339 grammar; it is total on texts and rejects all others. *)
From Stdlib Require Import ZArith Lia Strings.Byte.
From stdpp Require Import base list strings numbers option.
From S2P Require Import Prelude GoStd.

Record time := Time { t_nanos : Z; t_utc : bool }.

#[export] Instance time_eq_dec : EqDecision time.
Proof. solve_decision. Defined.

Definition Microsecond : Z := 1000.
Definition Millisecond : Z := 1000 * Microsecond.
Definition Second : Z := 1000 * Millisecond.
Definition Minute : Z := 60 * Second.
Definition Hour : Z := 60 * Minute.
Definition Day : Z := 24 * Hour.

(** [Time.IsZero], [Equal], [Before], [After], [Add], [Sub], [UTC]. *)
Definition IsZero (t : time) : bool := t_nanos t =? 0.
Definition time_Equal (a b : time) : bool := t_nanos a =? t_nanos b.
Definition Before (a b : time) : bool := t_nanos a <? t_nanos b.
Definition After (a b : time) : bool := t_nanos b <? t_nanos a.
Definition time_Add (t : time) (d : Z) : time := Time (t_nanos t + d) (t_utc t).
Definition UTC (t : time) : time := Time (t_nanos t) true.

(** [Time.Truncate]: round down to a multiple of [d] since the zero time. *)
Definition Truncate (t : time) (d : Z) : time :=
  if d <=? 0 then t else Time (t_nanos t - t_nanos t mod d) (t_utc t).

(** [Time.Sub]: the difference saturates at the [int64] bounds of a duration. *)
Definition time_Sub (a b : time) : Z :=
  Z.max MinInt64 (Z.min MaxInt64 (t_nanos a - t_nanos b)).

(** ** Civil dates (proleptic Gregorian calendar) *)

(** Days since 0000-03-01 of the date [year-month-day]. *)
Definition days_of_civil (year month day : Z) : Z :=
  let y := if month <=? 2 then year - 1 else year in
  let era := y / 400 in
  let yoe := y mod 400 in
  let mp := (month + 9) mod 12 in
  let doy := (153 * mp + 2) / 5 + day - 1 in
  let doe := yoe * 365 + yoe / 4 - yoe / 100 + doy in
  era * 146097 + doe.

Definition civil_of_days (z : Z) : Z * Z * Z :=
  let era := z / 146097 in
  let doe := z mod 146097 in
  let yoe := (doe - doe / 1460 + doe / 36524 - doe / 146096) / 365 in
  let doy := doe - (365 * yoe + yoe / 4 - yoe / 100) in
  let mp := (5 * doy + 2) / 153 in
  let day := doy - (153 * mp + 2) / 5 + 1 in
  let month := if mp <? 10 then mp + 3 else mp - 9 in
  let year := yoe + era * 400 + (if month <=? 2 then 1 else 0) in
  (year, month, day).

(** 0001-01-01 is day 306 counted from 0000-03-01. *)
Definition epoch_days : Z := 306.

(** [Time.Year] of a UTC time. *)
Definition Year (t : time) : Z :=
  let '(y, _, _) := civil_of_days (t_nanos t / Day + epoch_days) in y.

(** The UTC instant of a civil date and time of day. *)
Definition Date (year month day hour minute second nanos : Z) : time :=
  Time ((days_of_civil year month day - epoch_days) * Day
        + hour * Hour + minute * Minute + second * Second + nanos) true.

Example epoch_is_zero : Date 1 1 1 0 0 0 0 = Time 0 true.
Proof. reflexivity. Qed.

(** Unix epoch: 62135596800 seconds after the zero time. *)
Definition unix_epoch_nanos : Z := 62135596800 * Second.

Example unix_epoch_date : Date 1970 1 1 0 0 0 0 = Time unix_epoch_nanos true.
Proof. reflexivity. Qed.

Example year_bounds :
  Year (Date 2019 12 31 23 59 59 999999999) = 2019 /\ Year (Date 2020 1 1 0 0 0 0) = 2020 /\
  Year (Date 2100 12 31 23 59 59 0) = 2100 /\ Year (Date 2101 1 1 0 0 0 0) = 2101.
Proof. vm_compute. auto. Qed.

Lemma Truncate_idem t d : Truncate (Truncate t d) d = Truncate t d.
Proof.
  unfold Truncate. destruct (d <=? 0) eqn:E; [done|]. bool_props. cbn [t_nanos t_utc].
  f_equal. rewrite Zminus_mod_idemp_r, Z.sub_diag, Z.mod_0_l by lia. lia.
Qed.

Lemma Truncate_le t d : t_nanos (Truncate t d) <= t_nanos t.
Proof.
  unfold Truncate. destruct (d <=? 0) eqn:E; [done|]. bool_props. simpl.
  pose proof (Z.mod_pos_bound (t_nanos t) d). lia.
Qed.

Lemma Truncate_mono a b d :
  t_nanos a <= t_nanos b -> t_nanos (Truncate a d) <= t_nanos (Truncate b d).
Proof.
  intros H. unfold Truncate. destruct (d <=? 0) eqn:E; [done|]. bool_props. simpl.
  rewrite !Z.mod_eq by lia. pose proof (Z.div_le_mono (t_nanos a) (t_nanos b) d). nia.
Qed.

(** ** Timestamp columns *)

(** What a timestamp column returns for a stored time: the driver keeps
    microseconds. *)
Class TimestampColumn := { column_time : time -> time }.
Class TimestampColumnLaws `{TimestampColumn} := {
  column_time_floor t : t_nanos (column_time t) = t_nanos t / 1000 * 1000 }.

#[local] Open Scope go_scope.

(** ** Fixed-width decimals *)

Fixpoint fixed_digits (w : nat) (n : Z) : bytes :=
  match w with
  | O => []
  | S w => fixed_digits w (n / 10) ++ [digit_char (n mod 10)]
  end.

Definition is_digit (c : byte) : bool := in_range "0" "9" c.

(** [parseUint] on a slice of digits; [None] sets [ok] to false. *)
Fixpoint scan_uint (acc : Z) (l : bytes) : option Z :=
  match l with
  | [] => Some acc
  | c :: l => if is_digit c then scan_uint (acc * 10 + (byte_to_Z c - 48)) l else None
  end.

Definition parse_field (l : bytes) (min max : Z) : option Z :=
  match scan_uint 0 l with
  | Some x => if (x <? min) || (max <? x) then None else Some x
  | None => None
  end.

Definition leap (y : Z) : bool := (y mod 4 =? 0) && (negb (y mod 100 =? 0) || (y mod 400 =? 0)).

Definition daysIn (m y : Z) : Z :=
  if (m =? 2) then (if leap y then 29 else 28)
  else if (m =? 4) || (m =? 6) || (m =? 9) || (m =? 11) then 30 else 31.

(** ** Formatting *)

Fixpoint trim_zeros (l : bytes) : bytes :=
  match l with
  | [] => []
  | c :: l => match trim_zeros l with
              | [] => if c == "0"%byte then [] else [c]
              | t => c :: t
              end
  end.

Definition fraction (nanos : Z) : bytes :=
  if nanos =? 0 then [] else ["."%byte] ++ trim_zeros (fixed_digits 9 nanos).

(** [t.UTC().Format(time.RFC3339Nano)] for the years 0 to 9999. *)
Definition FormatRFC3339Nano (t : time) : bytes :=
  let '(y, m, d) := civil_of_days (t_nanos t / Day + epoch_days) in
  let tod := t_nanos t mod Day in
  fixed_digits 4 y ++ ["-"%byte] ++ fixed_digits 2 m ++ ["-"%byte] ++ fixed_digits 2 d ++ ["T"%byte] ++
  fixed_digits 2 (tod / Hour) ++ [":"%byte] ++ fixed_digits 2 (tod / Minute mod 60) ++ [":"%byte] ++
  fixed_digits 2 (tod / Second mod 60) ++ fraction (tod mod Second) ++ ["Z"%byte].

(** ** Parsing *)

(** The digits of a fraction and what follows them. *)
Fixpoint span_digits (l : bytes) : bytes * bytes :=
  match l with
  | c :: r => if is_digit c then let '(ds, rest) := span_digits r in (c :: ds, rest) else ([], l)
  | [] => ([], [])
  end.

(** [parseNanoseconds]: at most nine digits count. *)
Definition fraction_nanos (ds : bytes) : Z :=
  let ds := take 9 ds in
  default 0 (scan_uint 0 (ds ++ repeat "0"%byte (9 - length ds))).

(** The offset of the zone in seconds, and whether the location is UTC. *)
Definition parse_zone (l : bytes) : option Z :=
  match l with
  | [c] => if c == "Z"%byte then Some 0 else None
  | [sign; h1; h2; colon; m1; m2] =>
      if ((sign == "+"%byte) || (sign == "-"%byte)) && (colon == ":"%byte) then
        match parse_field [h1; h2] 0 24, parse_field [m1; m2] 0 60 with
        | Some h, Some m =>
            let offset := (h * 60 + m) * 60 in
            Some (if sign == "-"%byte then - offset else offset)
        | _, _ => None
        end
      else None
  | _ => None
  end.

(** [s[from:from+w]] *)
Definition field (from w : nat) (l : bytes) : bytes := take w (drop from l).

Definition separators (l : bytes) : bool :=
  (l !! 4%nat == Some "-"%byte) && (l !! 7%nat == Some "-"%byte) && (l !! 10%nat == Some "T"%byte) &&
  (l !! 13%nat == Some ":"%byte) && (l !! 16%nat == Some ":"%byte).

(** The fractional second, if there is one, and the zone. *)
Definition parse_tail (l : bytes) : option (Z * Z) :=
  let '(nsec, rest) :=
    match l with
    | "."%byte :: r =>
        match span_digits r with
        | ([], _) => (0, l)
        | (ds, rest) => (fraction_nanos ds, rest)
        end
    | _ => (0, l)
    end in
  match parse_zone rest with Some offset => Some (nsec, offset) | None => None end.

Definition ParseRFC3339Nano (l : bytes) : option time :=
  if len l <? 19 then None
  else
    y ← parse_field (field 0 4 l) 0 9999;
    m ← parse_field (field 5 2 l) 1 12;
    d ← parse_field (field 8 2 l) 1 (daysIn m y);
    hour ← parse_field (field 11 2 l) 0 23;
    minute ← parse_field (field 14 2 l) 0 59;
    second ← parse_field (field 17 2 l) 0 59;
    if negb (separators l) then None
    else
      '(nsec, offset) ← parse_tail (drop 19 l);
      let t := Date y m d hour minute second nsec in
      Some (Time (t_nanos t - offset * Second) (offset =? 0)).

Example parse_examples :
  ParseRFC3339Nano (sbytes "2024-02-29T23:59:58.25Z") = Some (Date 2024 2 29 23 59 58 250000000) /\
  ParseRFC3339Nano (sbytes "2024-01-01T01:00:00+01:00") = Some (Time (t_nanos (Date 2024 1 1 0 0 0 0)) false) /\
  ParseRFC3339Nano (sbytes "2023-02-29T00:00:00Z") = None /\
  FormatRFC3339Nano (Date 2024 2 29 23 59 58 250000000) = sbytes "2024-02-29T23:59:58.25Z".
Proof. vm_compute. repeat split. Qed.

(** ** Laws *)

(** What holds of every number of an interval by computation. *)
Fixpoint all_from (p : Z -> bool) (lo : Z) (n : nat) : bool :=
  match n with O => true | S n => p lo && all_from p (lo + 1) n end.

Lemma all_from_spec p lo n i : all_from p lo n = true -> lo <= i < lo + Z.of_nat n -> p i = true.
Proof.
  revert lo. induction n as [|n IH]; intros lo Hall Hi; [lia|]. cbn in Hall. bool_props.
  destruct (Z.eq_dec i lo) as [->|Hne]; [done|]. apply (IH (lo + 1)); [done|lia].
Qed.

Lemma digit_char_digit n : 0 <= n < 10 -> is_digit (digit_char n) = true /\ byte_to_Z (digit_char n) = 48 + n.
Proof.
  intros Hn. pose proof (all_from_spec
    (fun n => is_digit (digit_char n) && (byte_to_Z (digit_char n) =? 48 + n)) 0 10 n eq_refl) as Hd.
  specialize (Hd ltac:(lia)). cbn beta in Hd. bool_props. auto.
Qed.

Lemma scan_uint_app acc a b :
  scan_uint acc (a ++ b) = match scan_uint acc a with Some x => scan_uint x b | None => None end.
Proof. revert acc. induction a as [|c a IH]; intros acc; cbn; [done|]. by destruct (is_digit c). Qed.

Lemma scan_fixed w n acc : 0 <= n < 10 ^ Z.of_nat w ->
  scan_uint acc (fixed_digits w n) = Some (acc * 10 ^ Z.of_nat w + n).
Proof.
  revert n. induction w as [|w IH]; intros n Hn; cbn [fixed_digits scan_uint].
  - change (10 ^ Z.of_nat 0) with 1 in *. f_equal. lia.
  - rewrite Nat2Z.inj_succ, Z.pow_succ_r in Hn |- * by lia.
    assert (0 <= n / 10 < 10 ^ Z.of_nat w) as Hq by (split; [apply Z.div_pos|apply Z.div_lt_upper_bound]; lia).
    rewrite scan_uint_app, (IH _ Hq).
    cbn [scan_uint]. destruct (digit_char_digit (n mod 10)) as [-> ->]; [by apply Z.mod_pos_bound|]. f_equal.
    pose proof (Z.div_mod n 10 ltac:(done)). rewrite (Z.mul_comm 10), Z.mul_assoc. lia.
Qed.

Lemma parse_fixed w n min max : 0 <= n < 10 ^ Z.of_nat w -> min <= n <= max ->
  parse_field (fixed_digits w n) min max = Some n.
Proof.
  intros Hn Hr. unfold parse_field. rewrite scan_fixed by done. rewrite Z.mul_0_l, Z.add_0_l.
  destruct (Z.ltb_spec n min), (Z.ltb_spec max n); cbn; [lia..|done].
Qed.

Lemma fixed_all_digits w n : Forall (fun c => is_digit c = true) (fixed_digits w n).
Proof.
  revert n. induction w as [|w IH]; intros n; cbn; [done|]. apply Forall_app. split; [done|].
  constructor; [|done]. apply digit_char_digit. by apply Z.mod_pos_bound.
Qed.

Lemma fixed_length w n : length (fixed_digits w n) = w.
Proof. revert n. induction w as [|w IH]; intros n; cbn; [done|]. rewrite length_app, IH. cbn. lia. Qed.

(** Trimming removes zeros only. *)
Lemma trim_zeros_spec l : exists k, l = trim_zeros l ++ repeat "0"%byte k.
Proof.
  induction l as [|c l (k & Hk)]; cbn; [by exists 0%nat|].
  destruct (trim_zeros l) as [|x t] eqn:E.
  - case_bool_decide; [exists (S k)|exists k]; cbn in *; by subst.
  - exists k. cbn. by rewrite Hk at 1.
Qed.

Lemma span_digits_app a c rest : Forall (fun c => is_digit c = true) a -> is_digit c = false ->
  span_digits (a ++ c :: rest) = (a, c :: rest).
Proof.
  induction 1 as [|x a Hx _ IH]; intros Hc; cbn; [by rewrite Hc|]. by rewrite Hx, IH.
Qed.

Lemma fraction_fixed n : 0 <= n < 10 ^ 9 -> fraction_nanos (trim_zeros (fixed_digits 9 n)) = n.
Proof.
  intros Hn. destruct (trim_zeros_spec (fixed_digits 9 n)) as (k & Hk).
  pose proof (f_equal length Hk) as Hl. rewrite fixed_length, length_app, repeat_length in Hl.
  unfold fraction_nanos. rewrite take_ge by lia.
  replace (9 - length (trim_zeros (fixed_digits 9 n)))%nat with k by lia.
  rewrite <- Hk, scan_fixed by done. cbn [default from_option id]. lia.
Qed.

Lemma parse_tail_fraction n : 0 <= n < Second -> parse_tail (fraction n ++ ["Z"%byte]) = Some (n, 0).
Proof.
  intros Hn. unfold fraction. destruct (Z.eqb_spec n 0) as [->|Hne]; [reflexivity|].
  cbn [app]. unfold parse_tail. rewrite (span_digits_app (trim_zeros (fixed_digits 9 n))).
  - pose proof (fraction_fixed n Hn) as Hf. destruct (trim_zeros (fixed_digits 9 n)) as [|c t]; [|by rewrite Hf].
    cbn in Hf. lia.
  - destruct (trim_zeros_spec (fixed_digits 9 n)) as (k & Hk). pose proof (fixed_all_digits 9 n) as Hd.
    rewrite Hk in Hd. by apply Forall_app in Hd as [? _].
  - reflexivity.
Qed.

(** *** The civil calendar

    Years of an era start on March 1st; the year of a day is monotone, so the
    first and the last day of each year decide all days. *)

Definition year_of_era (doe : Z) : Z := (doe - doe / 1460 + doe / 36524 - doe / 146096) / 365.
Definition year_start (yoe : Z) : Z := yoe * 365 + yoe / 4 - yoe / 100.
Definition year_end (yoe : Z) : Z := year_start yoe + (if leap (yoe + 1) then 365 else 364).

Definition year_ok (yoe : Z) : bool :=
  (year_of_era (year_start yoe) =? yoe) && (year_of_era (year_end yoe) =? yoe) &&
  ((yoe =? 399) || (year_start (yoe + 1) =? year_end yoe + 1)).

Lemma years_ok yoe : 0 <= yoe < 400 -> year_ok yoe = true.
Proof. intros Hy. by apply (all_from_spec year_ok 0 400). Qed.

Lemma year_of_era_mono a b : 0 <= a <= b -> b < 146097 -> year_of_era a <= year_of_era b.
Proof.
  intros Ha Hb. unfold year_of_era. apply Z.div_le_mono; [done|].
  Z.to_euclidean_division_equations. lia.
Qed.

Lemma year_of_era_range doe : 0 <= doe < 146097 -> 0 <= year_of_era doe < 400.
Proof. intros Hd. unfold year_of_era. Z.to_euclidean_division_equations. lia. Qed.

Lemma year_contains doe : 0 <= doe < 146097 ->
  year_start (year_of_era doe) <= doe <= year_end (year_of_era doe).
Proof.
  intros Hd. pose proof (year_of_era_range doe Hd) as Hy. set (y := year_of_era doe) in *.
  assert (forall k, 0 <= k < 400 -> 0 <= year_end k < 146097) as Hend.
  { intros k Hk. apply (all_from_spec (fun k => (0 <=? year_end k) && (year_end k <? 146097)) 0 400) in Hk;
      [|reflexivity]. cbn beta in Hk. bool_props. lia. }
  assert (0 <= year_start y) as Hs0 by (unfold year_start; Z.to_euclidean_division_equations; lia).
  pose proof (years_ok y Hy) as Hok. unfold year_ok in Hok. bool_props. split.
  - destruct (Z.le_gt_cases (year_start y) doe) as [|Hlt]; [done|exfalso].
    destruct (Z.eq_dec y 0) as [Hy0|Hy0]; [rewrite Hy0 in Hlt; change (year_start 0) with 0 in Hlt; lia|].
    pose proof (years_ok (y - 1) ltac:(lia)) as Hp. unfold year_ok in Hp. bool_props.
    replace (y - 1 + 1) with y in * by lia. pose proof (Hend (y - 1) ltac:(lia)).
    pose proof (year_of_era_mono doe (year_end (y - 1)) ltac:(lia) ltac:(lia)) as Hm.
    change (year_of_era doe) with y in Hm. lia.
  - destruct (Z.le_gt_cases doe (year_end y)) as [|Hlt]; [done|exfalso].
    destruct (Z.eq_dec y 399) as [Hy0|Hy0]; [rewrite Hy0 in Hlt; change (year_end 399) with 146096 in Hlt; lia|].
    pose proof (years_ok (y + 1) ltac:(lia)) as Hp. unfold year_ok in Hp. bool_props.
    assert (0 <= year_start (y + 1)) by (unfold year_start; Z.to_euclidean_division_equations; lia).
    pose proof (year_of_era_mono (year_start (y + 1)) doe ltac:(lia) ltac:(lia)) as Hm.
    change (year_of_era doe) with y in Hm. lia.
Qed.

(** The month and the day of a day of the year. *)
Definition day_ok (doy : Z) : bool :=
  let mp := (5 * doy + 2) / 153 in
  let day := doy - (153 * mp + 2) / 5 + 1 in
  let month := if mp <? 10 then mp + 3 else mp - 9 in
  (1 <=? month) && (month <=? 12) && (1 <=? day) && ((month + 9) mod 12 =? mp) &&
  (day <=? daysIn month (if doy =? 365 then 4 else 1)).

Lemma days_ok doy : 0 <= doy < 366 -> day_ok doy = true.
Proof. intros Hd. by apply (all_from_spec day_ok 0 366). Qed.

Lemma daysIn_common m y : daysIn m 1 <= daysIn m y.
Proof. unfold daysIn. change (leap 1) with false. repeat case_match; lia. Qed.

Lemma daysIn_leap m y : (m =? 2) && negb (leap y) = false -> daysIn m 4 <= daysIn m y.
Proof. unfold daysIn. change (leap 4) with true. destruct (m =? 2), (leap y); intros; (discriminate || lia). Qed.

Lemma day_facts doy mp month day : mp = (5 * doy + 2) / 153 -> day = doy - (153 * mp + 2) / 5 + 1 ->
  month = (if mp <? 10 then mp + 3 else mp - 9) -> 0 <= doy < 366 ->
  1 <= month <= 12 /\ 1 <= day <= daysIn month (if doy =? 365 then 4 else 1) /\ (month + 9) mod 12 = mp.
Proof. intros -> -> -> Hr. pose proof (days_ok doy Hr) as Hok. unfold day_ok in Hok. bool_props. lia. Qed.

(** From a year of the era and a day of the year. *)
Lemma civil_year yoe doy mp month day : 0 <= yoe < 400 -> 0 <= doy < 366 -> (doy = 365 -> leap (yoe + 1) = true) ->
  mp = (5 * doy + 2) / 153 -> day = doy - (153 * mp + 2) / 5 + 1 ->
  month = (if mp <? 10 then mp + 3 else mp - 9) ->
  let y := yoe + (if month <=? 2 then 1 else 0) in
  days_of_civil y month day = year_start yoe + doy /\ 1 <= month <= 12 /\ 1 <= day <= daysIn month y.
Proof.
  intros Hy Hr Hleap Hmp Hday Hmonth y.
  destruct (day_facts doy mp month day Hmp Hday Hmonth Hr) as (Hm & Hd & Hback).
  split; [|split; [done|split; [lia|]]].
  - unfold days_of_civil. rewrite Hback.
    replace (if month <=? 2 then y - 1 else y) with yoe by (unfold y; destruct (month <=? 2); lia).
    rewrite (Z.div_small yoe 400), (Z.mod_small yoe 400) by done. unfold year_start. lia.
  - etrans; [apply Hd|]. destruct (Z.eqb_spec doy 365) as [Hl|Hl]; [|apply daysIn_common].
    apply daysIn_leap. destruct (Z.eqb_spec month 2) as [H2|]; [|done]. unfold y. rewrite H2.
    change (2 <=? 2) with true. cbv iota. by rewrite Hleap.
Qed.

Lemma civil_era doe y m d : 0 <= doe < 146097 -> civil_of_days doe = (y, m, d) ->
  days_of_civil y m d = doe /\ 1 <= m <= 12 /\ 1 <= d <= daysIn m y.
Proof.
  intros Hd. unfold civil_of_days. rewrite (Z.div_small doe 146097), (Z.mod_small doe 146097) by done.
  pose proof (year_of_era_range doe Hd) as Hy. pose proof (year_contains doe Hd) as Hin.
  change ((doe - doe / 1460 + doe / 36524 - doe / 146096) / 365) with (year_of_era doe).
  generalize dependent (year_of_era doe). intros yoe Hy Hin He. unfold year_end in Hin.
  assert (365 * yoe + yoe / 4 - yoe / 100 = year_start yoe) as Hs by (unfold year_start; lia).
  rewrite Hs in He. injection He as Hyear Hm Hdd. rewrite Hm, Z.mul_0_l, Z.add_0_r in Hyear.
  pose proof (civil_year yoe (doe - year_start yoe) _ _ _ Hy
    ltac:(destruct (leap (yoe + 1)); lia) ltac:(destruct (leap (yoe + 1)); [done|lia])
    eq_refl eq_refl eq_refl) as Hc.
  rewrite Hm, Hdd, Hyear in Hc. cbv zeta in Hc. lia.
Qed.

Lemma civil_shift era doe : 0 <= doe < 146097 ->
  civil_of_days (era * 146097 + doe) = let '(y, m, d) := civil_of_days doe in (y + era * 400, m, d).
Proof.
  intros Hd. unfold civil_of_days.
  rewrite Z.div_add_l, (Z.add_comm (era * _)), Z_mod_plus_full by lia.
  rewrite (Z.div_small doe), (Z.mod_small doe) by lia.
  f_equal. f_equal. lia.
Qed.

Lemma days_shift era y m d : days_of_civil (y + era * 400) m d = era * 146097 + days_of_civil y m d.
Proof.
  unfold days_of_civil.
  assert (forall k, (k + era * 400) / 400 = k / 400 + era) as Hdiv by (intros; apply Z_div_plus_full; lia).
  assert (forall k, (k + era * 400) mod 400 = k mod 400) as Hmod by (intros; apply Z_mod_plus_full).
  destruct (m <=? 2); [replace (y + era * 400 - 1) with (y - 1 + era * 400) by lia|];
    rewrite Hdiv, Hmod; lia.
Qed.

Lemma daysIn_shift era m y : daysIn m (y + era * 400) = daysIn m y.
Proof.
  unfold daysIn, leap.
  assert ((y + era * 400) mod 4 = y mod 4) as ->
    by (rewrite <- (Z_mod_plus_full y (era * 100) 4); f_equal; ring).
  assert ((y + era * 400) mod 100 = y mod 100) as ->
    by (rewrite <- (Z_mod_plus_full y (era * 4) 100); f_equal; ring).
  by rewrite Z_mod_plus_full.
Qed.

Lemma civil_inverse z y m d : civil_of_days z = (y, m, d) ->
  days_of_civil y m d = z /\ 1 <= m <= 12 /\ 1 <= d <= daysIn m y.
Proof.
  intros He. pose proof (Z.div_mod z 146097 ltac:(lia)) as Hz.
  pose proof (Z.mod_pos_bound z 146097 ltac:(lia)) as Hb.
  set (era := z / 146097) in *. set (doe := z mod 146097) in *.
  rewrite Hz, (Z.mul_comm 146097), civil_shift in He by done.
  destruct (civil_of_days doe) as [[y0 m0] d0] eqn:E. destruct (civil_era _ _ _ _ Hb E) as (? & ? & ?).
  simplify_eq. rewrite days_shift, daysIn_shift. lia.
Qed.

(** A text of a year with four digits is read back. *)
Theorem time_text_roundtrip t : 0 <= Year t <= 9999 ->
  ParseRFC3339Nano (FormatRFC3339Nano t) = Some (UTC t).
Proof.
  unfold Year, FormatRFC3339Nano. intros Hy.
  destruct (civil_of_days (t_nanos t / Day + epoch_days)) as [[y m] d] eqn:Hc.
  destruct (civil_inverse _ _ _ _ Hc) as (Hdays & Hm & Hd).
  assert (daysIn m y <= 31) as Hdi by (unfold daysIn; repeat case_match; lia).
  pose proof (Z.mod_pos_bound (t_nanos t) Day ltac:(done)) as Htod.
  set (tod := t_nanos t mod Day) in *.
  assert (tod = tod / Hour * Hour + tod / Minute mod 60 * Minute + tod / Second mod 60 * Second
          + tod mod Second) as Hsplit
    by (unfold Hour, Minute, Second, Millisecond, Microsecond; Z.to_euclidean_division_equations; lia).
  assert (0 <= tod / Hour <= 23)
    by (unfold Day, Hour, Minute, Second, Millisecond, Microsecond in *; Z.to_euclidean_division_equations; lia).
  pose proof (Z.mod_pos_bound (tod / Minute) 60 ltac:(done)).
  pose proof (Z.mod_pos_bound (tod / Second) 60 ltac:(done)).
  pose proof (Z.mod_pos_bound tod Second ltac:(done)).
  unfold ParseRFC3339Nano.
  set (l := fixed_digits 4 y ++ _).
  assert (drop 19 l = fraction (tod mod Second) ++ ["Z"%byte]) as Hdrop by reflexivity.
  assert (separators l = true) as Hsep by reflexivity.
  assert ((len l <? 19) = false) as Hlen.
  { apply Z.ltb_ge. unfold len. rewrite <- (take_drop 19 l), length_app, Hdrop.
    change (length (take 19 l)) with 19%nat. lia. }
  rewrite Hlen. change (field 0 4 l) with (fixed_digits 4 y). change (field 5 2 l) with (fixed_digits 2 m).
  change (field 8 2 l) with (fixed_digits 2 d). change (field 11 2 l) with (fixed_digits 2 (tod / Hour)).
  change (field 14 2 l) with (fixed_digits 2 (tod / Minute mod 60)).
  change (field 17 2 l) with (fixed_digits 2 (tod / Second mod 60)).
  rewrite (parse_fixed 4 y) by lia. cbn [mbind option_bind].
  rewrite (parse_fixed 2 m) by lia. cbn [mbind option_bind].
  rewrite (parse_fixed 2 d) by lia. cbn [mbind option_bind].
  rewrite (parse_fixed 2 (tod / Hour)) by lia. cbn [mbind option_bind].
  rewrite (parse_fixed 2 (tod / Minute mod 60)) by lia. cbn [mbind option_bind].
  rewrite (parse_fixed 2 (tod / Second mod 60)) by lia. cbn [mbind option_bind].
  rewrite Hsep, Hdrop, parse_tail_fraction by done. cbn [negb mbind option_bind Z.eqb].
  unfold UTC, Date. cbn [t_nanos]. f_equal. f_equal. rewrite Hdays, Z.sub_0_r.
  replace (t_nanos t / Day + epoch_days - epoch_days) with (t_nanos t / Day) by lia.
  pose proof (Z.div_mod (t_nanos t) Day ltac:(done)) as Hdm. fold tod in Hdm. rewrite (Z.mul_comm Day) in Hdm. lia.
Qed.
