(* ===== verification/AuthorityTypes.v ===== *)
(** The value types of [internal/nodecontrol/authority/provider.go]: effect and
    scope kinds, reservations, receipts, records and heads, their [Validate]
    methods, canonical WAL positions and the transcript digests.  Also
    [internal/nodecontrol/contracts/authority.go]. *)
From Stdlib Require Import ZArith Lia Strings.Byte.
From stdpp Require Import base gmap list strings numbers option.
From S2P Require Import Prelude GoStd.

#[local] Open Scope go_scope.

(** ** Primitives

    [github.com/google/uuid] and [github.com/gowebpki/jcs] are not part of the
    repository; the operations the authority package calls are parameters.  The
    digest function is a parameter too, so that every theorem holds for whatever
    32-byte digest is used; the program's is [GoStd.sha256]. *)
Class Primitives := {
  (** [sha256.Sum256(m)] *)
  Sum256 : bytes -> bytes;
  (** [u.Variant() == uuid.RFC4122] *)
  uuid_variant_rfc4122 : bytes -> bool;
  (** [u.String()] *)
  uuid_String : bytes -> bytes;
  (** [jcs.Transform(body)]; [None] is an error *)
  jcs_Transform : bytes -> option bytes;
}.

Inductive auth_err :=
| ErrInvalidArgument
| ErrConflict
| ErrTerminalConflict
| ErrNotFound
| ErrCanceled
| ErrInjectedFailure
| ErrResponseLost
(** [context.Canceled] and [context.DeadlineExceeded] returned by a dependency *)
| CtxCanceled
| CtxDeadlineExceeded
(** any error that is none of the above *)
| ErrOther.

#[export] Instance auth_err_eq_dec : EqDecision auth_err.
Proof. solve_decision. Defined.

(** [contracts.Digest] is [[32]byte] and [uuid.UUID] is [[16]byte]. *)
Abbreviation Digest := bytes (only parsing).
Abbreviation UUID := bytes (only parsing).

Definition zero_digest : Digest := repeat x00 32.
Definition uuid_Nil : UUID := repeat x00 16.

(** ** String enumerations *)

Abbreviation EffectKind := string (only parsing).
Definition EffectTrustBundlePublish : EffectKind := "trust_bundle_publish".
Definition EffectRootPublish : EffectKind := "root_publish".
Definition EffectMetadataPublish : EffectKind := "metadata_publish".
Definition EffectGrantCreate : EffectKind := "grant_create".
Definition EffectGrantClaim : EffectKind := "grant_claim".
Definition EffectCertificateActivate : EffectKind := "certificate_activate".
Definition EffectCertificateRevoke : EffectKind := "certificate_revoke".
Definition EffectIdentityEpochAdvance : EffectKind := "identity_epoch_advance".
Definition EffectSecurityIncidentOpen : EffectKind := "security_incident_open".
Definition EffectSecurityIncidentResolve : EffectKind := "security_incident_resolve".
Definition EffectResourceEnvelopeActivate : EffectKind := "resource_envelope_activate".
Definition EffectDesiredActivate : EffectKind := "desired_activate".
Definition EffectRecoveryActivate : EffectKind := "recovery_activate".
Definition EffectOperatorTransition : EffectKind := "operator_transition".
Definition EffectOperatorAuthorizerChange : EffectKind := "operator_authorizer_change".

Abbreviation ScopeKind := string (only parsing).
Definition ScopeNode : ScopeKind := "node".
Definition ScopeGlobalNodeTrust : ScopeKind := "global_node_trust".
Definition ScopeGlobalOperatorTrust : ScopeKind := "global_operator_trust".

Abbreviation WALPosition := string (only parsing).

Abbreviation AbortReason := string (only parsing).
Definition AbortValidationFailed : AbortReason := "validation_failed".
Definition AbortSuperseded : AbortReason := "superseded".
Definition AbortProviderDependencyFailed : AbortReason := "provider_dependency_failed".
Definition AbortActivationDeadlineExpired : AbortReason := "activation_deadline_expired".

Abbreviation ReceiptStatus := string (only parsing).
Definition StatusCommitted : ReceiptStatus := "committed".
Definition StatusAborted : ReceiptStatus := "aborted".

Abbreviation Operation := string (only parsing).
Definition OperationReserve : Operation := "reserve".
Definition OperationFinalize : Operation := "finalize".
Definition OperationAbort : Operation := "abort".
Definition OperationInspect : Operation := "inspect".
Definition OperationHead : Operation := "head".

Abbreviation Failure := string (only parsing).
Definition FailureBeforeMutation : Failure := "before_mutation".
Definition FailureAfterMutationResponseLost : Failure := "after_mutation_response_lost".

(** [switch value { case a, b, ...: return nil; default: return ErrInvalidArgument }] *)
Definition one_of (allowed : list string) (v : string) : option auth_err :=
  if bool_decide (v ∈ allowed) then None else Some ErrInvalidArgument.

Definition EffectKind_Validate (value : EffectKind) : option auth_err :=
  one_of [EffectTrustBundlePublish; EffectRootPublish; EffectMetadataPublish; EffectGrantCreate;
          EffectGrantClaim; EffectCertificateActivate; EffectCertificateRevoke;
          EffectIdentityEpochAdvance; EffectSecurityIncidentOpen; EffectSecurityIncidentResolve;
          EffectResourceEnvelopeActivate; EffectDesiredActivate; EffectRecoveryActivate;
          EffectOperatorTransition; EffectOperatorAuthorizerChange] value.

Definition ScopeKind_Validate (value : ScopeKind) : option auth_err :=
  one_of [ScopeNode; ScopeGlobalNodeTrust; ScopeGlobalOperatorTrust] value.

Definition AbortReason_Validate (value : AbortReason) : option auth_err :=
  one_of [AbortValidationFailed; AbortSuperseded; AbortProviderDependencyFailed;
          AbortActivationDeadlineExpired] value.

Definition ReceiptStatus_Validate (value : ReceiptStatus) : option auth_err :=
  one_of [StatusCommitted; StatusAborted] value.

Definition Operation_Validate (value : Operation) : option auth_err :=
  one_of [OperationReserve; OperationFinalize; OperationAbort; OperationInspect; OperationHead] value.

Definition Failure_Validate (value : Failure) : option auth_err :=
  one_of [FailureBeforeMutation; FailureAfterMutationResponseLost] value.

(** ** Records *)

Record ReserveRequest := MkReserveRequest {
  rr_OperationID : UUID;
  rr_Kind : EffectKind;
  rr_ScopeKind : ScopeKind;
  rr_ScopeDigest : Digest }.

Record FinalizeRequest := MkFinalizeRequest {
  fr_OperationID : UUID;
  fr_EffectDigest : Digest;
  fr_DBSystemID : Z;
  fr_DBTimeline : Z;
  fr_RequiredLSN : WALPosition }.

Record AbortRequest := MkAbortRequest {
  ar_OperationID : UUID;
  ar_Reason : AbortReason }.

Record Reservation := MkReservation {
  rv_OperationID : UUID;
  rv_Kind : EffectKind;
  rv_ScopeKind : ScopeKind;
  rv_ScopeDigest : Digest;
  rv_Epoch : Z;
  rv_Sequence : Z;
  rv_ReservationDigest : Digest }.

Record DatabasePoint := MkDatabasePoint {
  dp_SystemID : Z;
  dp_Timeline : Z;
  dp_RequiredLSN : WALPosition }.

Record Receipt := MkReceipt {
  rc_Reservation : Reservation;
  rc_EffectDigest : option Digest;
  rc_DatabasePoint : option DatabasePoint;
  rc_Status : ReceiptStatus;
  rc_AbortReason : option AbortReason;
  rc_ReceiptDigest : Digest }.

(** [Record] is a reserved word: the Go type [Record] is [FenceRecord] here. *)
Record FenceRecord := MkRecord {
  rd_Reservation : Reservation;
  rd_BoundEffectDigest : option Digest;
  rd_BoundDatabasePoint : option DatabasePoint;
  rd_TerminalReceipt : option Receipt }.

Record Head := MkHead {
  hd_Epoch : Z;
  hd_LatestReservedSequence : Z;
  hd_LatestCommittedSequence : Z;
  hd_LatestReservationDigest : Digest;
  hd_LatestCommittedOperationID : UUID;
  hd_LatestCommittedReceiptDigest : Digest;
  hd_LatestCommittedDatabasePoint : option DatabasePoint }.

Record NodeCheckpoint := MkNodeCheckpoint {
  nc_AuthorityEpoch : Z;
  nc_Sequence : Z;
  nc_ReceiptDigest : Digest }.

#[export] Instance ReserveRequest_eq_dec : EqDecision ReserveRequest.
Proof. solve_decision. Defined.
#[export] Instance FinalizeRequest_eq_dec : EqDecision FinalizeRequest.
Proof. solve_decision. Defined.
#[export] Instance AbortRequest_eq_dec : EqDecision AbortRequest.
Proof. solve_decision. Defined.
#[export] Instance Reservation_eq_dec : EqDecision Reservation.
Proof. solve_decision. Defined.
#[export] Instance DatabasePoint_eq_dec : EqDecision DatabasePoint.
Proof. solve_decision. Defined.
#[export] Instance Receipt_eq_dec : EqDecision Receipt.
Proof. solve_decision. Defined.
#[export] Instance FenceRecord_eq_dec : EqDecision FenceRecord.
Proof. solve_decision. Defined.
#[export] Instance Head_eq_dec : EqDecision Head.
Proof. solve_decision. Defined.
#[export] Instance NodeCheckpoint_eq_dec : EqDecision NodeCheckpoint.
Proof. solve_decision. Defined.

(** ** Scopes *)

(** The NUL that ends the Go string literals of the transcript domains. *)
Definition NUL : bytes := [x00].

Definition globalNodeScopeDigest `{Primitives} : Digest :=
  Sum256 (sbytes "TALENRO-GLOBAL-NODE-TRUST-SCOPE-V1" ++ NUL ++ sbytes "global_node_trust").
Definition globalOperatorScopeDigest `{Primitives} : Digest :=
  Sum256 (sbytes "TALENRO-GLOBAL-OPERATOR-TRUST-SCOPE-V1" ++ NUL ++ sbytes "global_operator_trust").

Definition validEffectScope (kind : EffectKind) (scope : ScopeKind) : bool :=
  if kind == EffectTrustBundlePublish then
    (scope == ScopeGlobalNodeTrust) || (scope == ScopeGlobalOperatorTrust)
  else if bool_decide (kind ∈ [EffectRootPublish; EffectMetadataPublish]) then
    scope == ScopeGlobalNodeTrust
  else if kind == EffectOperatorAuthorizerChange then
    scope == ScopeGlobalOperatorTrust
  else if bool_decide (kind ∈
    [EffectGrantCreate; EffectGrantClaim; EffectCertificateActivate; EffectCertificateRevoke;
     EffectIdentityEpochAdvance; EffectSecurityIncidentOpen; EffectSecurityIncidentResolve;
     EffectResourceEnvelopeActivate; EffectDesiredActivate; EffectRecoveryActivate;
     EffectOperatorTransition]) then
    scope == ScopeNode
  else false.

Definition validScopeDigest `{Primitives} (scope : ScopeKind) (digest : Digest) : bool :=
  if scope == ScopeNode then
    (digest != zero_digest) && (digest != globalNodeScopeDigest) &&
    (digest != globalOperatorScopeDigest)
  else if scope == ScopeGlobalNodeTrust then digest == globalNodeScopeDigest
  else if scope == ScopeGlobalOperatorTrust then digest == globalOperatorScopeDigest
  else false.

Definition validPositiveCoordinate (value : Z) : bool :=
  (0 <? value) && (value <=? MaxInt64).

(** ** WAL positions *)

Definition uppercaseHex (value : bytes) : bool :=
  if value == [] then false
  else forallb (fun c => in_range "0" "9" c || in_range "A" "F" c) value.

(** The canonical text of a position given its two 32-bit halves. *)
Definition wal_text (high low : Z) : WALPosition :=
  bstring (ToUpper (FormatUint high 16) ++ sbytes "/" ++ ToUpper (FormatUint low 16)).

Definition canonicalWALPosition (value : WALPosition) : result auth_err WALPosition :=
  let text := sbytes value in
  if negb (count_byte "/" text =? 1) then Err ErrInvalidArgument
  else match split_first "/" text with
       | None => Err ErrInvalidArgument
       | Some (high_part, low_part) =>
           if negb (uppercaseHex high_part) || negb (uppercaseHex low_part)
           then Err ErrInvalidArgument
           else match ParseUint high_part 16 32, ParseUint low_part 16 32 with
                | Some high, Some low => Ok (wal_text high low)
                | _, _ => Err ErrInvalidArgument
                end
       end.

(** [coordinator.go]: the two halves of a canonical position. *)
Definition walPositionParts (value : WALPosition) : option (Z * Z) :=
  match canonicalWALPosition value with
  | Err _ => None
  | Ok canonical =>
      if canonical != value then None
      else match split_first "/" (sbytes value) with
           | None => None
           | Some (h, l) =>
               match ParseUint h 16 32, ParseUint l 16 32 with
               | Some high, Some low => Some (high, low)
               | _, _ => None
               end
           end
  end.

Definition walPositionLess (left right : WALPosition) : bool :=
  match walPositionParts left, walPositionParts right with
  | Some (leftHigh, leftLow), Some (rightHigh, rightLow) =>
      (leftHigh <? rightHigh) || ((leftHigh =? rightHigh) && (leftLow <? rightLow))
  | _, _ => true
  end.

Definition equalOptionalDigest (left right : option Digest) : bool :=
  match left, right with
  | Some l, Some r => l == r
  | _, _ => is_nil left && is_nil right
  end.

Definition equalOptionalDatabasePoint (left right : option DatabasePoint) : bool :=
  match left, right with
  | Some l, Some r => l == r
  | _, _ => is_nil left && is_nil right
  end.

Definition DatabasePoint_Validate (value : DatabasePoint) : option auth_err :=
  if (dp_SystemID value =? 0) || (dp_Timeline value =? 0) then Some ErrInvalidArgument
  else match canonicalWALPosition (dp_RequiredLSN value) with
       | Ok canonical =>
           if canonical != dp_RequiredLSN value then Some ErrInvalidArgument else None
       | Err _ => Some ErrInvalidArgument
       end.

(** ** Validation and transcript digests *)
Section Validate.
Context `{Primitives}.

Definition validOperationID (value : UUID) : bool :=
  (value != uuid_Nil) && uuid_variant_rfc4122 value.

Definition ReserveRequest_Validate (request : ReserveRequest) : option auth_err :=
  if negb (validOperationID (rr_OperationID request)) ||
     is_err (EffectKind_Validate (rr_Kind request)) ||
     is_err (ScopeKind_Validate (rr_ScopeKind request)) ||
     (rr_ScopeDigest request == zero_digest) ||
     negb (validEffectScope (rr_Kind request) (rr_ScopeKind request)) ||
     negb (validScopeDigest (rr_ScopeKind request) (rr_ScopeDigest request))
  then Some ErrInvalidArgument else None.

Definition FinalizeRequest_Validate (request : FinalizeRequest) : option auth_err :=
  if negb (validOperationID (fr_OperationID request)) ||
     (fr_EffectDigest request == zero_digest) ||
     (fr_DBSystemID request =? 0) || (fr_DBTimeline request =? 0)
  then Some ErrInvalidArgument
  else match canonicalWALPosition (fr_RequiredLSN request) with
       | Err _ => Some ErrInvalidArgument
       | Ok _ => None
       end.

Definition AbortRequest_Validate (request : AbortRequest) : option auth_err :=
  if negb (validOperationID (ar_OperationID request)) ||
     is_err (AbortReason_Validate (ar_Reason request))
  then Some ErrInvalidArgument else None.

Definition reservationTranscriptDomain : bytes :=
  sbytes "TALENRO-CONTROL-PLANE-AUTHORITY-RESERVATION-V1" ++ NUL.
Definition receiptTranscriptDomain : bytes :=
  sbytes "TALENRO-CONTROL-PLANE-AUTHORITY-RECEIPT-V1" ++ NUL.

Definition canonicalTranscriptDigest (domain : bytes) (payload : json) : result auth_err Digest :=
  match jcs_Transform (json_Marshal payload) with
  | None => Err ErrInvalidArgument
  | Some canonical => Ok (Sum256 (domain ++ canonical))
  end.

Definition authorityReservationPayloadV1 (value : Reservation) : json :=
  JObj [(sbytes "authority_epoch", JStr (FormatUint (rv_Epoch value) 10));
        (sbytes "authority_sequence", JStr (FormatUint (rv_Sequence value) 10));
        (sbytes "effect_kind", JStr (sbytes (rv_Kind value)));
        (sbytes "operation_id", JStr (uuid_String (rv_OperationID value)));
        (sbytes "scope_digest", JStr (hex_encode (rv_ScopeDigest value)));
        (sbytes "scope_kind", JStr (sbytes (rv_ScopeKind value)))].

Definition reservationDigest (value : Reservation) : result auth_err Digest :=
  canonicalTranscriptDigest reservationTranscriptDomain (authorityReservationPayloadV1 value).

Definition authorityDatabasePointPayloadV1 (point : DatabasePoint) : json :=
  JObj [(sbytes "db_system_id", JStr (FormatUint (dp_SystemID point) 10));
        (sbytes "db_timeline", JStr (FormatUint (dp_Timeline point) 10));
        (sbytes "required_lsn", JStr (sbytes (dp_RequiredLSN point)))].

Definition authorityReceiptPayloadV1 (value : Receipt) : json :=
  let r := rc_Reservation value in
  JObj [(sbytes "abort_reason",
          match rc_AbortReason value with Some a => JStr (sbytes a) | None => JNull end);
        (sbytes "authority_epoch", JStr (FormatUint (rv_Epoch r) 10));
        (sbytes "authority_sequence", JStr (FormatUint (rv_Sequence r) 10));
        (sbytes "database_point",
          match rc_DatabasePoint value with
          | Some p => authorityDatabasePointPayloadV1 p | None => JNull end);
        (sbytes "effect_digest",
          match rc_EffectDigest value with Some d => JStr (hex_encode d) | None => JNull end);
        (sbytes "effect_kind", JStr (sbytes (rv_Kind r)));
        (sbytes "operation_id", JStr (uuid_String (rv_OperationID r)));
        (sbytes "reservation_digest", JStr (hex_encode (rv_ReservationDigest r)));
        (sbytes "scope_digest", JStr (hex_encode (rv_ScopeDigest r)));
        (sbytes "scope_kind", JStr (sbytes (rv_ScopeKind r)));
        (sbytes "status", JStr (sbytes (rc_Status value)))].

Definition receiptDigest (value : Receipt) : result auth_err Digest :=
  canonicalTranscriptDigest receiptTranscriptDomain (authorityReceiptPayloadV1 value).

Definition Reservation_Validate (value : Reservation) : option auth_err :=
  let request := MkReserveRequest (rv_OperationID value) (rv_Kind value) (rv_ScopeKind value)
                                  (rv_ScopeDigest value) in
  if is_err (ReserveRequest_Validate request) ||
     negb (validPositiveCoordinate (rv_Epoch value)) ||
     negb (validPositiveCoordinate (rv_Sequence value))
  then Some ErrInvalidArgument
  else match reservationDigest value with
       | Ok digest =>
           if digest != rv_ReservationDigest value then Some ErrInvalidArgument else None
       | Err _ => Some ErrInvalidArgument
       end.

Definition Receipt_Validate (value : Receipt) : option auth_err :=
  if is_err (Reservation_Validate (rc_Reservation value)) ||
     is_err (ReceiptStatus_Validate (rc_Status value)) ||
     (rc_ReceiptDigest value == zero_digest)
  then Some ErrInvalidArgument
  else if negb (Bool.eqb (is_nil (rc_EffectDigest value)) (is_nil (rc_DatabasePoint value)))
  then Some ErrInvalidArgument
  else if match rc_EffectDigest value, rc_DatabasePoint value with
          | Some effect, Some point =>
              (effect == zero_digest) || is_err (DatabasePoint_Validate point)
          | _, _ => false
          end
  then Some ErrInvalidArgument
  else if (if rc_Status value == StatusCommitted then
             is_nil (rc_EffectDigest value) || is_nil (rc_DatabasePoint value) ||
             not_nil (rc_AbortReason value)
           else if rc_Status value == StatusAborted then
             match rc_AbortReason value with
             | None => true
             | Some reason => is_err (AbortReason_Validate reason)
             end
           else false)
  then Some ErrInvalidArgument
  else match receiptDigest value with
       | Ok digest => if digest != rc_ReceiptDigest value then Some ErrInvalidArgument else None
       | Err _ => Some ErrInvalidArgument
       end.

Definition Record_Validate (value : FenceRecord) : option auth_err :=
  if is_err (Reservation_Validate (rd_Reservation value)) ||
     negb (Bool.eqb (is_nil (rd_BoundEffectDigest value)) (is_nil (rd_BoundDatabasePoint value)))
  then Some ErrInvalidArgument
  else if match rd_BoundEffectDigest value, rd_BoundDatabasePoint value with
          | Some effect, Some point =>
              (effect == zero_digest) || is_err (DatabasePoint_Validate point)
          | _, _ => false
          end
  then Some ErrInvalidArgument
  else match rd_TerminalReceipt value with
       | None => None
       | Some terminal =>
           if is_err (Receipt_Validate terminal) ||
              (rc_Reservation terminal != rd_Reservation value) ||
              negb (equalOptionalDigest (rd_BoundEffectDigest value) (rc_EffectDigest terminal)) ||
              negb (equalOptionalDatabasePoint (rd_BoundDatabasePoint value)
                                               (rc_DatabasePoint terminal))
           then Some ErrInvalidArgument else None
       end.

Definition Head_Validate (value : Head) : option auth_err :=
  if negb (validPositiveCoordinate (hd_Epoch value)) ||
     (MaxInt64 <? hd_LatestReservedSequence value) ||
     (MaxInt64 <? hd_LatestCommittedSequence value) ||
     (hd_LatestReservedSequence value <? hd_LatestCommittedSequence value) ||
     negb (Bool.eqb (hd_LatestReservedSequence value =? 0)
                    (hd_LatestReservationDigest value == zero_digest))
  then Some ErrInvalidArgument
  else if hd_LatestCommittedSequence value =? 0 then
    if (hd_LatestCommittedOperationID value != uuid_Nil) ||
       (hd_LatestCommittedReceiptDigest value != zero_digest) ||
       not_nil (hd_LatestCommittedDatabasePoint value)
    then Some ErrInvalidArgument else None
  else if negb (validOperationID (hd_LatestCommittedOperationID value)) ||
          (hd_LatestCommittedReceiptDigest value == zero_digest) ||
          match hd_LatestCommittedDatabasePoint value with
          | None => true
          | Some point => is_err (DatabasePoint_Validate point)
          end
  then Some ErrInvalidArgument else None.

Definition NodeCheckpoint_Validate (value : NodeCheckpoint) : option auth_err :=
  if negb (validPositiveCoordinate (nc_AuthorityEpoch value)) ||
     (MaxInt64 <? nc_Sequence value) ||
     negb (Bool.eqb (nc_Sequence value =? 0) (nc_ReceiptDigest value == zero_digest))
  then Some ErrInvalidArgument else None.

(** [deterministic_fake.go]: a request with its WAL position in canonical form. *)
Definition normalizeFinalizeRequest (request : FinalizeRequest) :
  result auth_err FinalizeRequest :=
  if is_err (FinalizeRequest_Validate request) then Err ErrInvalidArgument
  else match canonicalWALPosition (fr_RequiredLSN request) with
       | Err _ => Err ErrInvalidArgument
       | Ok canonical =>
           Ok (MkFinalizeRequest (fr_OperationID request) (fr_EffectDigest request)
                 (fr_DBSystemID request) (fr_DBTimeline request) canonical)
       end.
End Validate.

(** ** WAL positions: lemmas *)

Lemma all_bytes (P : byte -> Prop) `{forall b, Decision (P b)} :
  forallb (fun n => match Byte.of_N n with
                    | Some b => bool_decide (P b) | None => true end)
          (map N.of_nat (seq 0 256)) = true -> forall b, P b.
Proof.
  intros Hall b. rewrite List.forallb_forall in Hall.
  specialize (Hall (Byte.to_N b)). rewrite Byte.of_to_N in Hall.
  apply (bool_decide_eq_true_1 (P b)), Hall, in_map_iff.
  exists (N.to_nat (Byte.to_N b)). split; [lia|].
  apply in_seq. pose proof (Byte.to_N_bounded b). lia.
Qed.

Lemma digit_val_upper c : digit_val (upper_byte c) = digit_val c.
Proof. revert c. apply (all_bytes _). vm_compute. reflexivity. Qed.

Lemma parse_digits_ToUpper base max acc l :
  parse_digits base max acc (ToUpper l) = parse_digits base max acc l.
Proof.
  revert acc. induction l as [|c l IH]; intros acc; [done|].
  cbn [ToUpper map parse_digits]. rewrite digit_val_upper.
  destruct (digit_val c); [|done]. destruct (base <=? z); [done|].
  cbv zeta. destruct (max <? _); [done|]. apply IH.
Qed.

Lemma ParseUint_ToUpper l base bits :
  ParseUint (ToUpper l) base bits = ParseUint l base bits.
Proof.
  unfold ParseUint. destruct l; [done|]. cbn [ToUpper map].
  apply (parse_digits_ToUpper base (2 ^ bits - 1) 0 (b :: l)).
Qed.

Lemma upper_digit_char d :
  0 <= d < 16 ->
  in_range "0" "9" (upper_byte (digit_char d)) || in_range "A" "F" (upper_byte (digit_char d)) = true.
Proof.
  intros Hd.
  assert (Forall (fun d => in_range "0" "9" (upper_byte (digit_char d))
            || in_range "A" "F" (upper_byte (digit_char d)) = true) (seqZ 0 16)) as Hall
    by (apply (bool_decide_unpack _); vm_compute; exact I).
  rewrite List.Forall_forall in Hall. apply Hall, list_elem_of_In, elem_of_seqZ. lia.
Qed.

Lemma uppercaseHex_format n : 0 <= n -> uppercaseHex (ToUpper (FormatUint n 16)) = true.
Proof.
  intros Hn. unfold uppercaseHex, ToUpper, FormatUint.
  case_bool_decide as He.
  - apply map_eq_nil, map_eq_nil in He. by apply digits_nonempty in He.
  - apply List.forallb_forall. intros c Hc. rewrite map_map in Hc.
    apply in_map_iff in Hc as [d [<- Hd]]. apply upper_digit_char.
    pose proof (digits_fuel_range 64 16 n ltac:(lia) Hn) as Hr.
    rewrite List.Forall_forall in Hr. by apply Hr.
Qed.

Lemma uppercaseHex_no_slash l : uppercaseHex l = true -> "/"%byte ∉ l.
Proof.
  unfold uppercaseHex. case_bool_decide; [done|]. intros Hall Hin.
  rewrite List.forallb_forall in Hall. apply list_elem_of_In, Hall in Hin. by vm_compute in Hin.
Qed.

Lemma count_byte_absent c l : c ∉ l -> count_byte c l = 0.
Proof.
  intros Hn. unfold count_byte. induction l as [|b l IH]; [done|].
  apply not_elem_of_cons in Hn as [Hb Hn]. cbn [List.filter].
  rewrite bool_decide_eq_false_2 by congruence. by apply IH.
Qed.

Lemma count_byte_split c p q : c ∉ p -> c ∉ q -> count_byte c (p ++ c :: q) = 1.
Proof.
  intros Hp Hq. apply count_byte_absent in Hp, Hq. unfold count_byte in *.
  rewrite List.filter_app, len_app. cbn [List.filter].
  rewrite bool_decide_eq_true_2 by done.
  unfold len in *. cbn [length]. lia.
Qed.

Lemma parse_digits_range base max acc l n :
  1 <= base -> 0 <= acc <= max -> parse_digits base max acc l = Some n -> acc <= n <= max.
Proof.
  intros Hb. revert acc. induction l as [|c l IH]; intros acc Ha Hp; simpl in Hp.
  - simplify_eq. lia.
  - destruct (digit_val c) as [d|] eqn:Ed; [|done].
    assert (0 <= d).
    { revert Ed. unfold digit_val, in_range. pose proof (byte_to_Z_range c).
      change (byte_to_Z "0") with 48. change (byte_to_Z "9") with 57.
      change (byte_to_Z "a") with 97. change (byte_to_Z "z") with 122.
      change (byte_to_Z "A") with 65. change (byte_to_Z "Z") with 90.
      repeat case_match; intros; simplify_eq; bool_props; lia. }
    destruct (base <=? d) eqn:E1; [done|]. destruct (max <? _) eqn:E2; [done|].
    bool_props. apply IH in Hp; nia.
Qed.

Lemma ParseUint_range l base bits n :
  1 <= base -> 0 <= bits -> ParseUint l base bits = Some n -> 0 <= n < 2 ^ bits.
Proof.
  intros Hb Hbits. unfold ParseUint. destruct l; [done|]. intros Hp.
  apply parse_digits_range in Hp; [lia | lia |].
  pose proof (Z.pow_pos_nonneg 2 bits). lia.
Qed.

Definition half (z : Z) : Prop := 0 <= z < 2 ^ 32.

Lemma split_wal_text h l :
  half h -> half l ->
  split_first "/" (sbytes (wal_text h l)) =
  Some (ToUpper (FormatUint h 16), ToUpper (FormatUint l 16)).
Proof.
  intros [Hh _] [Hl _]. unfold wal_text. rewrite sbytes_bstring.
  apply split_first_spec. split; [done|].
  apply uppercaseHex_no_slash, uppercaseHex_format, Hh.
Qed.

Lemma parse_wal_half n : half n -> ParseUint (ToUpper (FormatUint n 16)) 16 32 = Some n.
Proof. intros Hn. rewrite ParseUint_ToUpper. apply ParseUint_FormatUint; [lia | lia | exact Hn]. Qed.

Lemma canonical_wal_text h l :
  half h -> half l -> canonicalWALPosition (wal_text h l) = Ok (wal_text h l).
Proof.
  intros Hh Hl. unfold canonicalWALPosition. rewrite split_wal_text by done.
  assert (count_byte "/" (sbytes (wal_text h l)) = 1) as ->.
  { unfold wal_text. rewrite sbytes_bstring.
    apply count_byte_split; apply uppercaseHex_no_slash, uppercaseHex_format; [apply Hh | apply Hl]. }
  rewrite !uppercaseHex_format by (apply Hh || apply Hl).
  by rewrite !parse_wal_half.
Qed.

Lemma canonicalWALPosition_ok value c :
  canonicalWALPosition value = Ok c -> exists h l, half h /\ half l /\ c = wal_text h l.
Proof.
  unfold canonicalWALPosition. intros Hc. repeat case_in Hc; simplify_eq.
  repeat match goal with
  | E : ParseUint _ 16 32 = Some _ |- _ => apply ParseUint_range in E; [|lia|lia]
  end. unfold half. eauto 6.
Qed.

Lemma canonicalWALPosition_idem value c :
  canonicalWALPosition value = Ok c -> canonicalWALPosition c = Ok c.
Proof. intros (h & l & Hh & Hl & ->)%canonicalWALPosition_ok. by apply canonical_wal_text. Qed.

Lemma walPositionParts_wal_text h l :
  half h -> half l -> walPositionParts (wal_text h l) = Some (h, l).
Proof.
  intros Hh Hl. unfold walPositionParts. rewrite canonical_wal_text by done.
  rewrite bool_decide_eq_true_2 by done. cbn [negb].
  rewrite split_wal_text by done. by rewrite !parse_wal_half.
Qed.

Lemma walPositionParts_Some value h l :
  walPositionParts value = Some (h, l) <-> half h /\ half l /\ value = wal_text h l.
Proof.
  split.
  - intros Hp. destruct (canonicalWALPosition value) as [c|] eqn:Ec.
    2: { unfold walPositionParts in Hp. by rewrite Ec in Hp. }
    destruct (canonicalWALPosition_ok _ _ Ec) as (h' & l' & Hh & Hl & ->).
    assert (wal_text h' l' = value) as <-.
    { unfold walPositionParts in Hp. rewrite Ec in Hp. case_bool_decide; [done|].
      by simpl in Hp. }
    rewrite walPositionParts_wal_text in Hp by done. by simplify_eq.
  - intros (Hh & Hl & ->). by apply walPositionParts_wal_text.
Qed.

Lemma DatabasePoint_Validate_lsn p :
  DatabasePoint_Validate p = None ->
  dp_SystemID p <> 0 /\ dp_Timeline p <> 0 /\
  exists h l, half h /\ half l /\ dp_RequiredLSN p = wal_text h l.
Proof.
  unfold DatabasePoint_Validate. intros Hv. repeat case_in Hv; simplify_eq; bool_props.
  match goal with E : canonicalWALPosition _ = Ok _ |- _ =>
    apply canonicalWALPosition_ok in E as (h & l & Hh & Hl & He) end.
  split; [done|]. split; [done|]. exists h, l. split; [done|]. split; [done|]. congruence.
Qed.

(** The byte offset in the write-ahead log a pair of halves denotes. *)
Definition wal_offset (h l : Z) : Z := h * 2 ^ 32 + l.

(** ** [contracts/authority.go]: versioned digests *)
Module Contracts.

Record AuthorityVersion := MkAuthorityVersion { av_Epoch : Z; av_Sequence : Z }.

Record VersionedDigest := MkVersionedDigest {
  vd_Version : Z;
  vd_AuthoritySequence : Z;
  vd_Digest : Digest }.

Record LocalVersionedDigestV1 := MkLocalVersionedDigestV1 {
  lvd_Version : Z;
  lvd_Digest : Digest }.

Inductive Comparison :=
| ComparisonSame
| ComparisonAdvance
| ComparisonRollback
| ComparisonFork.

Inductive contracts_err := ErrInvalidAuthorityValue.

#[export] Instance VersionedDigest_eq_dec : EqDecision VersionedDigest.
Proof. solve_decision. Defined.
#[export] Instance Comparison_eq_dec : EqDecision Comparison.
Proof. solve_decision. Defined.

Definition AuthorityVersion_Validate (value : AuthorityVersion) : option contracts_err :=
  if (av_Epoch value =? 0) || (av_Sequence value =? 0) ||
     (MaxInt64 <? av_Epoch value) || (MaxInt64 <? av_Sequence value)
  then Some ErrInvalidAuthorityValue else None.

Definition CompareVersionedDigest (current candidate : VersionedDigest) :
  result contracts_err Comparison :=
  if (vd_Version current =? 0) || (MaxInt64 <? vd_Version current) ||
     (vd_AuthoritySequence current =? 0) || (MaxInt64 <? vd_AuthoritySequence current) ||
     (vd_Digest current == zero_digest) ||
     (vd_Version candidate =? 0) || (MaxInt64 <? vd_Version candidate) ||
     (vd_AuthoritySequence candidate =? 0) || (MaxInt64 <? vd_AuthoritySequence candidate) ||
     (vd_Digest candidate == zero_digest)
  then Err ErrInvalidAuthorityValue
  else if (vd_Version candidate <? vd_Version current) ||
          (vd_AuthoritySequence candidate <? vd_AuthoritySequence current)
  then Ok ComparisonRollback
  else if (vd_Version candidate =? vd_Version current) &&
          (vd_AuthoritySequence candidate =? vd_AuthoritySequence current)
  then (if vd_Digest candidate == vd_Digest current then Ok ComparisonSame else Ok ComparisonFork)
  else if (vd_Version current <? vd_Version candidate) &&
          (vd_AuthoritySequence current <? vd_AuthoritySequence candidate)
  then Ok ComparisonAdvance
  else Ok ComparisonFork.

Definition CompareLocalVersionedDigest (current candidate : LocalVersionedDigestV1) :
  result contracts_err Comparison :=
  if (lvd_Version current =? 0) || (MaxInt64 <? lvd_Version current) ||
     (lvd_Digest current == zero_digest) ||
     (lvd_Version candidate =? 0) || (MaxInt64 <? lvd_Version candidate) ||
     (lvd_Digest candidate == zero_digest)
  then Err ErrInvalidAuthorityValue
  else if lvd_Version candidate <? lvd_Version current then Ok ComparisonRollback
  else if lvd_Version current <? lvd_Version candidate then Ok ComparisonAdvance
  else if lvd_Digest candidate == lvd_Digest current then Ok ComparisonSame
  else Ok ComparisonFork.

(** A versioned digest [CompareVersionedDigest] accepts. *)
Definition comparable (v : VersionedDigest) : Prop :=
  vd_Version v <> 0 /\ vd_Version v <= MaxInt64 /\ vd_AuthoritySequence v <> 0 /\
  vd_AuthoritySequence v <= MaxInt64 /\ vd_Digest v <> zero_digest.

Lemma CompareVersionedDigest_comparable a b c :
  CompareVersionedDigest a b = Ok c -> comparable a /\ comparable b.
Proof.
  unfold CompareVersionedDigest, comparable. intros Hc.
  case_in Hc; [done|]. bool_props. repeat split; assumption.
Qed.

Lemma CompareVersionedDigest_total a b :
  comparable a -> comparable b -> exists c, CompareVersionedDigest a b = Ok c.
Proof.
  intros (?&?&?&?&?) (?&?&?&?&?). unfold CompareVersionedDigest.
  repeat rewrite (proj2 (Z.eqb_neq _ _)) by done.
  repeat rewrite (proj2 (Z.ltb_ge MaxInt64 _)) by done.
  repeat rewrite (bool_decide_eq_false_2 (_ = zero_digest)) by done. cbn [orb].
  repeat case_goal; eauto.
Qed.

(** The answer [ComparisonAdvance], exactly. *)
Lemma Compare_advance_iff a b :
  CompareVersionedDigest a b = Ok ComparisonAdvance <->
  comparable a /\ comparable b /\
  vd_Version a < vd_Version b /\ vd_AuthoritySequence a < vd_AuthoritySequence b.
Proof.
  split.
  - intros Hc. destruct (CompareVersionedDigest_comparable _ _ _ Hc) as [Ha Hb].
    split; [done|]. split; [done|]. unfold CompareVersionedDigest in Hc.
    repeat case_in Hc; simplify_eq; bool_props; lia.
  - intros (Ha & Hb & Hv & Hs).
    destruct (CompareVersionedDigest_total a b Ha Hb) as [c Hc].
    rewrite Hc. f_equal. unfold CompareVersionedDigest in Hc.
    repeat case_in Hc; simplify_eq; bool_props; try done;
      repeat match goal with H : (_ || _) = true |- _ => apply orb_true_iff in H; destruct H
             | H : (_ && _) = false |- _ => apply andb_false_iff in H; destruct H end;
      bool_props; lia.
Qed.
End Contracts.
