(* ===== verification/Ledger.v ===== *)
(** The in-memory authority ledger of
    [internal/nodecontrol/authority/deterministic_fake.go]: the reference
    implementation of the [Provider] interface, with its injected failures. *)
From Stdlib Require Import ZArith Lia Strings.Byte Sorting.Permutation.
From stdpp Require Import base gmap list strings numbers option sorting.
From S2P Require Import Prelude GoStd AuthorityTypes.

#[local] Open Scope go_scope.

(** What one poll of a [context.Context] observes: the context is nil, it is
    done, or it is live. *)
Inductive ctx_poll := CtxNil | CtxDone | CtxLive.

#[export] Instance ctx_poll_eq_dec : EqDecision ctx_poll.
Proof. solve_decision. Defined.

Definition contextError (ctx : ctx_poll) : option auth_err :=
  match ctx with
  | CtxNil => Some ErrInvalidArgument
  | CtxDone => Some ErrCanceled
  | CtxLive => None
  end.

Record deterministicRecord := MkDeterministicRecord {
  dr_reserveRequest : ReserveRequest;
  dr_record : FenceRecord;
  dr_finalizeRequest : option FinalizeRequest;
  dr_abortRequest : option AbortRequest }.

#[export] Instance deterministicRecord_eq_dec : EqDecision deterministicRecord.
Proof. solve_decision. Defined.

Record DeterministicProvider := MkProvider {
  pv_epoch : Z;
  pv_nextSequence : Z;
  pv_records : gmap UUID deterministicRecord;
  pv_failures : gmap string string }.

#[export] Instance DeterministicProvider_eq_dec : EqDecision DeterministicProvider.
Proof. solve_decision. Defined.

Definition set_records (p : DeterministicProvider) (m : gmap UUID deterministicRecord) :
  DeterministicProvider := MkProvider (pv_epoch p) (pv_nextSequence p) m (pv_failures p).

Definition set_failures (p : DeterministicProvider) (m : gmap string string) :
  DeterministicProvider := MkProvider (pv_epoch p) (pv_nextSequence p) (pv_records p) m.

Definition consumeFailure (failure : Failure) (operation : Operation) (p : DeterministicProvider) :
  bool * DeterministicProvider :=
  if pv_failures p !! operation == Some failure
  then (true, set_failures p (delete operation (pv_failures p)))
  else (false, p).

Definition consumeBeforeMutationFailure := consumeFailure FailureBeforeMutation.
Definition consumeAfterMutationFailure := consumeFailure FailureAfterMutationResponseLost.

(** The read side of a record: its sequence and terminal receipt. *)
Definition dr_sequence (r : deterministicRecord) : Z := rv_Sequence (rd_Reservation (dr_record r)).

Definition dr_committed (r : deterministicRecord) : option Receipt :=
  match rd_TerminalReceipt (dr_record r) with
  | Some t => if rc_Status t == StatusCommitted then Some t else None
  | None => None
  end.

Section Provider.
Context `{Primitives}.

Definition NewDeterministicProvider (epoch : Z) : result auth_err DeterministicProvider :=
  if negb (validPositiveCoordinate epoch) then Err ErrInvalidArgument
  else Ok (MkProvider epoch 0 ∅ ∅).

(** Every method polls its context before and after taking the lock: [ctx0] and
    [ctx1].  The receiver is not nil. *)
Definition Reserve (ctx0 ctx1 : ctx_poll) (request : ReserveRequest) (p : DeterministicProvider) :
  result auth_err Reservation * DeterministicProvider :=
  match contextError ctx0 with Some e => (Err e, p) | None =>
  match contextError ctx1 with Some e => (Err e, p) | None =>
  let '(before, p) := consumeBeforeMutationFailure OperationReserve p in
  if before then (Err ErrInjectedFailure, p) else
  match pv_records p !! rr_OperationID request with
  | Some existing =>
      if dr_reserveRequest existing != request then (Err ErrConflict, p)
      else (Ok (rd_Reservation (dr_record existing)), p)
  | None =>
      if is_err (ReserveRequest_Validate request) || (MaxInt64 <=? pv_nextSequence p)
      then (Err ErrInvalidArgument, p)
      else
        let reservation :=
          MkReservation (rr_OperationID request) (rr_Kind request) (rr_ScopeKind request)
            (rr_ScopeDigest request) (pv_epoch p) (u64 (pv_nextSequence p + 1)) zero_digest in
        match reservationDigest reservation with
        | Err e => (Err e, p)
        | Ok digest =>
            let reservation :=
              MkReservation (rr_OperationID request) (rr_Kind request) (rr_ScopeKind request)
                (rr_ScopeDigest request) (pv_epoch p) (u64 (pv_nextSequence p + 1)) digest in
            if is_err (Reservation_Validate reservation) then (Err ErrInvalidArgument, p)
            else
              let p := MkProvider (pv_epoch p) (rv_Sequence reservation)
                         (<[rr_OperationID request :=
                             MkDeterministicRecord request (MkRecord reservation None None None)
                               None None]> (pv_records p))
                         (pv_failures p) in
              let '(lost, p) := consumeAfterMutationFailure OperationReserve p in
              if lost then (Err ErrResponseLost, p) else (Ok reservation, p)
        end
  end end end.

(** The committed receipt a normalized request produces for a record. *)
Definition committed_receipt (r : deterministicRecord) (n : FinalizeRequest) (digest : Digest) : Receipt :=
  MkReceipt (rd_Reservation (dr_record r)) (Some (fr_EffectDigest n))
    (Some (MkDatabasePoint (fr_DBSystemID n) (fr_DBTimeline n) (fr_RequiredLSN n)))
    StatusCommitted None digest.

Definition Finalize (ctx0 ctx1 : ctx_poll) (request : FinalizeRequest) (p : DeterministicProvider) :
  result auth_err Receipt * DeterministicProvider :=
  match contextError ctx0 with Some e => (Err e, p) | None =>
  match contextError ctx1 with Some e => (Err e, p) | None =>
  let '(before, p) := consumeBeforeMutationFailure OperationFinalize p in
  if before then (Err ErrInjectedFailure, p) else
  match pv_records p !! fr_OperationID request with
  | None =>
      if is_err (FinalizeRequest_Validate request) then (Err ErrInvalidArgument, p)
      else (Err ErrNotFound, p)
  | Some stored =>
      match rd_TerminalReceipt (dr_record stored) with
      | Some terminal =>
          if rc_Status terminal == StatusAborted then (Err ErrTerminalConflict, p)
          else match normalizeFinalizeRequest request with
               | Err _ => (Err ErrConflict, p)
               | Ok normalized =>
                   if dr_finalizeRequest stored == Some normalized then (Ok terminal, p)
                   else (Err ErrConflict, p)
               end
      | None =>
          match normalizeFinalizeRequest request with
          | Err e => (Err e, p)
          | Ok normalized =>
              match receiptDigest (committed_receipt stored normalized zero_digest) with
              | Err e => (Err e, p)
              | Ok digest =>
                  let receipt := committed_receipt stored normalized digest in
                  if is_err (Receipt_Validate receipt) then (Err ErrInvalidArgument, p)
                  else
                    let stored' :=
                      MkDeterministicRecord (dr_reserveRequest stored)
                        (MkRecord (rd_Reservation (dr_record stored)) (rc_EffectDigest receipt)
                           (rc_DatabasePoint receipt) (Some receipt))
                        (Some normalized) (dr_abortRequest stored) in
                    let p := set_records p (<[fr_OperationID request := stored']> (pv_records p)) in
                    let '(lost, p) := consumeAfterMutationFailure OperationFinalize p in
                    if lost then (Err ErrResponseLost, p) else (Ok receipt, p)
              end
          end
      end
  end end end.

Definition aborted_receipt (r : deterministicRecord) (reason : AbortReason) (digest : Digest) : Receipt :=
  MkReceipt (rd_Reservation (dr_record r)) (rd_BoundEffectDigest (dr_record r))
    (rd_BoundDatabasePoint (dr_record r)) StatusAborted (Some reason) digest.

Definition Abort (ctx0 ctx1 : ctx_poll) (request : AbortRequest) (p : DeterministicProvider) :
  result auth_err Receipt * DeterministicProvider :=
  match contextError ctx0 with Some e => (Err e, p) | None =>
  match contextError ctx1 with Some e => (Err e, p) | None =>
  let '(before, p) := consumeBeforeMutationFailure OperationAbort p in
  if before then (Err ErrInjectedFailure, p) else
  match pv_records p !! ar_OperationID request with
  | None =>
      if is_err (AbortRequest_Validate request) then (Err ErrInvalidArgument, p)
      else (Err ErrNotFound, p)
  | Some stored =>
      match rd_TerminalReceipt (dr_record stored) with
      | Some terminal =>
          if rc_Status terminal == StatusCommitted then (Err ErrTerminalConflict, p)
          else if dr_abortRequest stored == Some request then (Ok terminal, p)
          else (Err ErrConflict, p)
      | None =>
          if is_err (AbortRequest_Validate request) then (Err ErrInvalidArgument, p)
          else match receiptDigest (aborted_receipt stored (ar_Reason request) zero_digest) with
               | Err e => (Err e, p)
               | Ok digest =>
                   let receipt := aborted_receipt stored (ar_Reason request) digest in
                   if is_err (Receipt_Validate receipt) then (Err ErrInvalidArgument, p)
                   else
                     let stored' :=
                       MkDeterministicRecord (dr_reserveRequest stored)
                         (MkRecord (rd_Reservation (dr_record stored))
                            (rd_BoundEffectDigest (dr_record stored))
                            (rd_BoundDatabasePoint (dr_record stored)) (Some receipt))
                         (dr_finalizeRequest stored) (Some request) in
                     let p := set_records p (<[ar_OperationID request := stored']> (pv_records p)) in
                     let '(lost, p) := consumeAfterMutationFailure OperationAbort p in
                     if lost then (Err ErrResponseLost, p) else (Ok receipt, p)
               end
      end
  end end end.

Definition Inspect (ctx0 ctx1 : ctx_poll) (operationID : UUID) (p : DeterministicProvider) :
  result auth_err FenceRecord * DeterministicProvider :=
  match contextError ctx0 with Some e => (Err e, p) | None =>
  match contextError ctx1 with Some e => (Err e, p) | None =>
  let '(before, p) := consumeBeforeMutationFailure OperationInspect p in
  if before then (Err ErrInjectedFailure, p) else
  if negb (validOperationID operationID) then (Err ErrInvalidArgument, p) else
  match pv_records p !! operationID with
  | None => (Err ErrNotFound, p)
  | Some stored => (Ok (dr_record stored), p)
  end end end.

(** The body of the loop over the records in [Head]. *)
Definition head_step (next : Z) (head : Head) (stored : deterministicRecord) : Head :=
  let rv := rd_Reservation (dr_record stored) in
  let head :=
    if rv_Sequence rv =? next then
      MkHead (hd_Epoch head) (hd_LatestReservedSequence head) (hd_LatestCommittedSequence head)
        (rv_ReservationDigest rv) (hd_LatestCommittedOperationID head)
        (hd_LatestCommittedReceiptDigest head) (hd_LatestCommittedDatabasePoint head)
    else head in
  match rd_TerminalReceipt (dr_record stored) with
  | None => head
  | Some t =>
      if (rc_Status t != StatusCommitted) || (rv_Sequence rv <=? hd_LatestCommittedSequence head)
      then head
      else MkHead (hd_Epoch head) (hd_LatestReservedSequence head) (rv_Sequence rv)
             (hd_LatestReservationDigest head) (rv_OperationID rv) (rc_ReceiptDigest t)
             (rc_DatabasePoint t)
  end.

Definition head_loop (p : DeterministicProvider) (order : list deterministicRecord) : Head :=
  fold_left (head_step (pv_nextSequence p)) order
    (MkHead (pv_epoch p) (pv_nextSequence p) 0 zero_digest uuid_Nil zero_digest None).

(** [Head] ranges over the map of records in an unspecified order: [order] is
    the sequence of values the iteration visits. *)
Definition ProviderHead (order : list deterministicRecord) (ctx0 ctx1 : ctx_poll)
  (p : DeterministicProvider) : result auth_err Head * DeterministicProvider :=
  match contextError ctx0 with Some e => (Err e, p) | None =>
  match contextError ctx1 with Some e => (Err e, p) | None =>
  let '(before, p) := consumeBeforeMutationFailure OperationHead p in
  if before then (Err ErrInjectedFailure, p) else
  let head := head_loop p order in
  if is_err (Head_Validate head) then (Err ErrInvalidArgument, p) else (Ok head, p)
  end end.

Definition checkpoint_step (nodeScopeDigest : Digest) (checkpoint : NodeCheckpoint)
  (stored : deterministicRecord) : NodeCheckpoint :=
  let rv := rd_Reservation (dr_record stored) in
  match rd_TerminalReceipt (dr_record stored) with
  | None => checkpoint
  | Some t =>
      if (rc_Status t != StatusCommitted) || (rv_Sequence rv <=? nc_Sequence checkpoint)
      then checkpoint
      else
        let matchesNode :=
          (rv_ScopeKind rv == ScopeNode) && (rv_ScopeDigest rv == nodeScopeDigest) in
        let matchesGlobalNode :=
          (rv_ScopeKind rv == ScopeGlobalNodeTrust) && (rv_ScopeDigest rv == globalNodeScopeDigest) in
        if matchesNode || matchesGlobalNode
        then MkNodeCheckpoint (nc_AuthorityEpoch checkpoint) (rv_Sequence rv) (rc_ReceiptDigest t)
        else checkpoint
  end.

Definition CommittedNodeCheckpoint (order : list deterministicRecord) (ctx0 ctx1 : ctx_poll)
  (nodeScopeDigest : Digest) (p : DeterministicProvider) : result auth_err NodeCheckpoint :=
  match contextError ctx0 with Some e => Err e | None =>
  if (nodeScopeDigest == zero_digest) || (nodeScopeDigest == globalNodeScopeDigest) ||
     (nodeScopeDigest == globalOperatorScopeDigest) then Err ErrInvalidArgument else
  match contextError ctx1 with Some e => Err e | None =>
  let checkpoint := fold_left (checkpoint_step nodeScopeDigest) order
                      (MkNodeCheckpoint (pv_epoch p) 0 zero_digest) in
  if is_err (NodeCheckpoint_Validate checkpoint) then Err ErrInvalidArgument else Ok checkpoint
  end end.

Definition FailNext (operation : Operation) (failure : Failure) (p : DeterministicProvider) :
  option auth_err * DeterministicProvider :=
  if is_err (Operation_Validate operation) || is_err (Failure_Validate failure) ||
     ((failure == FailureAfterMutationResponseLost) && (operation != OperationReserve) &&
      (operation != OperationFinalize) && (operation != OperationAbort))
  then (Some ErrInvalidArgument, p)
  else (None, set_failures p (<[operation := failure]> (pv_failures p))).

(** The order [sort.Slice] sorts a snapshot by. *)
Definition seq_le (a b : FenceRecord) : Prop :=
  rv_Sequence (rd_Reservation a) <= rv_Sequence (rd_Reservation b).

#[export] Instance seq_le_dec a b : Decision (seq_le a b) := Z_le_dec _ _.

Definition Snapshot (order : list deterministicRecord) : list FenceRecord :=
  merge_sort seq_le (map dr_record order).
End Provider.
