(* ===== verification/LedgerSafety.v ===== *)
(** The authority ledger: its invariant, an abstract specification of it as an
    append-only log (what each call may answer and what it then does to the map
    from operations to their fate), the refinement of that specification by every
    call, and the behaviour of retries.

    The read side of the authority ledger: [Head], [CommittedNodeCheckpoint] and
    [Snapshot].  Go ranges over the map of records in an unspecified order; the
    lemmas characterize the results by membership, so that the order cannot
    matter. *)
From Stdlib Require Import ZArith Lia Strings.Byte Sorting.Permutation.
From stdpp Require Import base gmap list strings numbers option sorting relations.
From S2P Require Import Prelude GoStd AuthorityTypes Ledger.

#[local] Open Scope go_scope.

Section LedgerSafety.
Context `{Primitives}.

Implicit Types (p : DeterministicProvider) (id : UUID) (r : deterministicRecord).

(** ** The invariant *)

(** How a record's terminal receipt, bound effect and remembered request fit
    together. *)
Definition outcome_ok id r : Prop :=
  match rd_TerminalReceipt (dr_record r) with
  | None =>
      dr_finalizeRequest r = None /\ dr_abortRequest r = None /\
      rd_BoundEffectDigest (dr_record r) = None /\ rd_BoundDatabasePoint (dr_record r) = None
  | Some t =>
      (exists n, dr_finalizeRequest r = Some n /\ dr_abortRequest r = None /\
         fr_OperationID n = id /\ normalizeFinalizeRequest n = Ok n /\
         t = committed_receipt r n (rc_ReceiptDigest t) /\
         rd_BoundEffectDigest (dr_record r) = rc_EffectDigest t /\
         rd_BoundDatabasePoint (dr_record r) = rc_DatabasePoint t)
      \/ (exists q, dr_abortRequest r = Some q /\ dr_finalizeRequest r = None /\
         ar_OperationID q = id /\ t = aborted_receipt r (ar_Reason q) (rc_ReceiptDigest t) /\
         rd_BoundEffectDigest (dr_record r) = None /\ rd_BoundDatabasePoint (dr_record r) = None)
  end.

Record record_ok (epoch next : Z) id r : Prop := {
  ro_request : dr_reserveRequest r =
    MkReserveRequest id (rv_Kind (rd_Reservation (dr_record r)))
      (rv_ScopeKind (rd_Reservation (dr_record r))) (rv_ScopeDigest (rd_Reservation (dr_record r)));
  ro_id : rv_OperationID (rd_Reservation (dr_record r)) = id;
  ro_epoch : rv_Epoch (rd_Reservation (dr_record r)) = epoch;
  ro_seq : 1 <= dr_sequence r <= next;
  ro_valid : Record_Validate (dr_record r) = None;
  ro_outcome : outcome_ok id r }.

Record ledger_inv p : Prop := {
  li_epoch : validPositiveCoordinate (pv_epoch p) = true;
  li_next : 0 <= pv_nextSequence p <= MaxInt64;
  li_size : Z.of_nat (size (pv_records p)) = pv_nextSequence p;
  li_records : forall id r, pv_records p !! id = Some r ->
               record_ok (pv_epoch p) (pv_nextSequence p) id r;
  li_unique : forall i j a b, pv_records p !! i = Some a -> pv_records p !! j = Some b ->
              dr_sequence a = dr_sequence b -> i = j }.

(** ** The step relation

    What a call can do to the ledger: nothing to its records, or exactly one of
    three changes. *)
Definition same_ledger p p' : Prop :=
  pv_epoch p' = pv_epoch p /\ pv_nextSequence p' = pv_nextSequence p /\
  pv_records p' = pv_records p.

Definition new_record (request : ReserveRequest) (rv : Reservation) : deterministicRecord :=
  MkDeterministicRecord request (MkRecord rv None None None) None None.

Definition finalized r (n : FinalizeRequest) (t : Receipt) : deterministicRecord :=
  MkDeterministicRecord (dr_reserveRequest r)
    (MkRecord (rd_Reservation (dr_record r)) (rc_EffectDigest t) (rc_DatabasePoint t) (Some t))
    (Some n) (dr_abortRequest r).

Definition aborted r (q : AbortRequest) (t : Receipt) : deterministicRecord :=
  MkDeterministicRecord (dr_reserveRequest r)
    (MkRecord (rd_Reservation (dr_record r)) (rd_BoundEffectDigest (dr_record r))
       (rd_BoundDatabasePoint (dr_record r)) (Some t))
    (dr_finalizeRequest r) (Some q).

Inductive ledger_change p p' : Prop :=
| change_none : same_ledger p p' -> ledger_change p p'
| change_reserve request rv :
    pv_records p !! rr_OperationID request = None ->
    pv_nextSequence p < MaxInt64 ->
    rv_OperationID rv = rr_OperationID request -> rv_Kind rv = rr_Kind request ->
    rv_ScopeKind rv = rr_ScopeKind request -> rv_ScopeDigest rv = rr_ScopeDigest request ->
    rv_Epoch rv = pv_epoch p -> rv_Sequence rv = u64 (pv_nextSequence p + 1) ->
    Reservation_Validate rv = None ->
    pv_epoch p' = pv_epoch p -> pv_nextSequence p' = rv_Sequence rv ->
    pv_records p' = <[rr_OperationID request := new_record request rv]> (pv_records p) ->
    ledger_change p p'
| change_finalize r n t :
    pv_records p !! fr_OperationID n = Some r ->
    rd_TerminalReceipt (dr_record r) = None ->
    normalizeFinalizeRequest n = Ok n ->
    t = committed_receipt r n (rc_ReceiptDigest t) ->
    Receipt_Validate t = None ->
    pv_epoch p' = pv_epoch p -> pv_nextSequence p' = pv_nextSequence p ->
    pv_records p' = <[fr_OperationID n := finalized r n t]> (pv_records p) ->
    ledger_change p p'
| change_abort r q t :
    pv_records p !! ar_OperationID q = Some r ->
    rd_TerminalReceipt (dr_record r) = None ->
    t = aborted_receipt r (ar_Reason q) (rc_ReceiptDigest t) ->
    Receipt_Validate t = None ->
    pv_epoch p' = pv_epoch p -> pv_nextSequence p' = pv_nextSequence p ->
    pv_records p' = <[ar_OperationID q := aborted r q t]> (pv_records p) ->
    ledger_change p p'.

(** The methods that can change the provider, with the context observations and
    arguments of one call. *)
Inductive ledger_call :=
| CallReserve (ctx0 ctx1 : ctx_poll) (request : ReserveRequest)
| CallFinalize (ctx0 ctx1 : ctx_poll) (request : FinalizeRequest)
| CallAbort (ctx0 ctx1 : ctx_poll) (request : AbortRequest)
| CallInspect (ctx0 ctx1 : ctx_poll) (operationID : UUID)
| CallHead (order : list deterministicRecord) (ctx0 ctx1 : ctx_poll)
| CallFailNext (operation : Operation) (failure : Failure).

Definition ledger_run (c : ledger_call) p : DeterministicProvider :=
  match c with
  | CallReserve c0 c1 q => (Reserve c0 c1 q p).2
  | CallFinalize c0 c1 q => (Finalize c0 c1 q p).2
  | CallAbort c0 c1 q => (Abort c0 c1 q p).2
  | CallInspect c0 c1 i => (Inspect c0 c1 i p).2
  | CallHead order c0 c1 => (ProviderHead order c0 c1 p).2
  | CallFailNext o f => (FailNext o f p).2
  end.

(** The ledgers a sequence of calls can reach from a new provider. *)
Inductive reachable : DeterministicProvider -> Prop :=
| reach_new epoch p : NewDeterministicProvider epoch = Ok p -> reachable p
| reach_call c p : reachable p -> reachable (ledger_run c p).

(** ** Failure injection leaves the records alone *)

Lemma consumeFailure_same f o p b p' : consumeFailure f o p = (b, p') -> same_ledger p p'.
Proof.
  unfold consumeFailure, same_ledger. intros Hc.
  case_in Hc; simplify_eq; done.
Qed.

Lemma consumeFailure_none f o p :
  pv_failures p !! o = None -> consumeFailure f o p = (false, p).
Proof. intros Hf. unfold consumeFailure. rewrite Hf. by rewrite bool_decide_eq_false_2. Qed.

Lemma same_ledger_refl p : same_ledger p p.
Proof. done. Qed.

Lemma same_ledger_trans p q s : same_ledger p q -> same_ledger q s -> same_ledger p s.
Proof. unfold same_ledger. intros (?&?&?) (?&?&?). repeat split; congruence. Qed.

Lemma normalize_ok request n :
  normalizeFinalizeRequest request = Ok n ->
  fr_OperationID n = fr_OperationID request /\ normalizeFinalizeRequest n = Ok n.
Proof.
  unfold normalizeFinalizeRequest. intros Hn. repeat case_in Hn; simplify_eq.
  split; [done|]. cbn [fr_RequiredLSN fr_OperationID fr_EffectDigest fr_DBSystemID fr_DBTimeline].
  match goal with E : canonicalWALPosition _ = Ok _ |- _ =>
    pose proof (canonicalWALPosition_idem _ _ E) as Hi; rename E into Hcan end.
  rewrite Hi. bool_props.
  match goal with E : FinalizeRequest_Validate _ = None |- _ => rename E into HV end.
  unfold FinalizeRequest_Validate in *. cbn [fr_OperationID fr_EffectDigest fr_DBSystemID
    fr_DBTimeline fr_RequiredLSN]. rewrite Hi.
  case_in HV; [done|]. done.
Qed.

(** Split the [let '(b, p') := consumeFailure ...] of a method. *)
Ltac split_consume Hc :=
  repeat match type of Hc with
  | context [consumeBeforeMutationFailure ?o ?p] =>
      let b := fresh "before" in let p' := fresh "p" in let E := fresh "Hbefore" in
      destruct (consumeBeforeMutationFailure o p) as [b p'] eqn:E;
      apply consumeFailure_same in E as (? & ? & ?)
  | context [consumeAfterMutationFailure ?o ?p] =>
      let b := fresh "lost" in let p' := fresh "p" in let E := fresh "Hlost" in
      destruct (consumeAfterMutationFailure o p) as [b p'] eqn:E;
      apply consumeFailure_same in E as (? & ? & ?)
  end.

Ltac ledger_none := apply change_none; unfold same_ledger; repeat split; congruence.

Lemma Reserve_change c0 c1 request p res p' :
  Reserve c0 c1 request p = (res, p') -> ledger_change p p'.
Proof.
  unfold Reserve. intros Hc.
  destruct (contextError c0); [simplify_eq; ledger_none|].
  destruct (contextError c1); [simplify_eq; ledger_none|].
  split_consume Hc. destruct before; [simplify_eq; ledger_none|].
  destruct (pv_records p0 !! _) as [existing|] eqn:Hl.
  { repeat case_in Hc; simplify_eq; ledger_none. }
  destruct (is_err (ReserveRequest_Validate request) || _) eqn:Hg; [simplify_eq; ledger_none|].
  destruct (reservationDigest _) as [digest|] eqn:Hd; [|simplify_eq; ledger_none].
  destruct (is_err (Reservation_Validate _)) eqn:Hv; [simplify_eq; ledger_none|].
  split_consume Hc. bool_props. cbn [pv_epoch pv_nextSequence pv_records rv_Sequence] in *.
  eapply (change_reserve _ _ request
            (MkReservation (rr_OperationID request) (rr_Kind request) (rr_ScopeKind request)
               (rr_ScopeDigest request) (pv_epoch p0) (u64 (pv_nextSequence p0 + 1)) digest));
    [congruence | congruence | reflexivity | reflexivity
    | reflexivity | reflexivity | cbn; congruence | cbn; congruence | eassumption | ..];
    repeat case_in Hc; simplify_eq; unfold new_record; cbn [rv_Sequence]; congruence.
Qed.

Lemma Finalize_change c0 c1 request p res p' :
  Finalize c0 c1 request p = (res, p') -> ledger_change p p'.
Proof.
  unfold Finalize. intros Hc.
  destruct (contextError c0); [simplify_eq; ledger_none|].
  destruct (contextError c1); [simplify_eq; ledger_none|].
  split_consume Hc. destruct before; [simplify_eq; ledger_none|].
  destruct (pv_records p0 !! _) as [stored|] eqn:Hl.
  2: { repeat case_in Hc; simplify_eq; ledger_none. }
  destruct (rd_TerminalReceipt (dr_record stored)) as [t|] eqn:Ht.
  { repeat case_in Hc; simplify_eq; ledger_none. }
  destruct (normalizeFinalizeRequest request) as [n|] eqn:Hn; [|simplify_eq; ledger_none].
  destruct (receiptDigest _) as [digest|] eqn:Hd; [|simplify_eq; ledger_none].
  cbv zeta in Hc.
  destruct (is_err (Receipt_Validate _)) eqn:Hv; [simplify_eq; ledger_none|].
  split_consume Hc. bool_props.
  unfold set_records in *. cbn [pv_epoch pv_nextSequence pv_records] in *.
  destruct (normalize_ok _ _ Hn) as [Hid Hnn].
  eapply (change_finalize _ _ stored n (committed_receipt stored n digest));
    [congruence | done | done | reflexivity | done | ..];
    repeat case_in Hc; simplify_eq; unfold finalized; congruence.
Qed.

Lemma Abort_change c0 c1 request p res p' :
  Abort c0 c1 request p = (res, p') -> ledger_change p p'.
Proof.
  unfold Abort. intros Hc.
  destruct (contextError c0); [simplify_eq; ledger_none|].
  destruct (contextError c1); [simplify_eq; ledger_none|].
  split_consume Hc. destruct before; [simplify_eq; ledger_none|].
  destruct (pv_records p0 !! _) as [stored|] eqn:Hl.
  2: { repeat case_in Hc; simplify_eq; ledger_none. }
  destruct (rd_TerminalReceipt (dr_record stored)) as [t|] eqn:Ht.
  { repeat case_in Hc; simplify_eq; ledger_none. }
  destruct (is_err (AbortRequest_Validate request)) eqn:Ha; [simplify_eq; ledger_none|].
  destruct (receiptDigest _) as [digest|] eqn:Hd; [|simplify_eq; ledger_none].
  cbv zeta in Hc.
  destruct (is_err (Receipt_Validate _)) eqn:Hv; [simplify_eq; ledger_none|].
  split_consume Hc. bool_props.
  unfold set_records in *. cbn [pv_epoch pv_nextSequence pv_records] in *.
  eapply (change_abort _ _ stored request (aborted_receipt stored (ar_Reason request) digest));
    [congruence | done | reflexivity | done | ..];
    repeat case_in Hc; simplify_eq; unfold aborted; congruence.
Qed.

Lemma ledger_run_change c p : ledger_change p (ledger_run c p).
Proof.
  destruct c as [c0 c1 q|c0 c1 q|c0 c1 q|c0 c1 i|order c0 c1|o f]; cbn [ledger_run].
  - destruct (Reserve c0 c1 q p) eqn:E. by eapply Reserve_change.
  - destruct (Finalize c0 c1 q p) eqn:E. by eapply Finalize_change.
  - destruct (Abort c0 c1 q p) eqn:E. by eapply Abort_change.
  - destruct (Inspect c0 c1 i p) eqn:E. unfold Inspect in E.
    repeat case_in E; simplify_eq; simpl;
      try (match goal with E' : consumeBeforeMutationFailure _ _ = _ |- _ =>
             apply consumeFailure_same in E'; by apply change_none end); ledger_none.
  - destruct (ProviderHead order c0 c1 p) eqn:E. unfold ProviderHead in E.
    repeat case_in E; simplify_eq; simpl;
      try (match goal with E' : consumeBeforeMutationFailure _ _ = _ |- _ =>
             apply consumeFailure_same in E'; by apply change_none end); ledger_none.
  - unfold FailNext. case_goal; ledger_none.
Qed.

(** ** The invariant is inductive *)

Lemma equalOptionalDigest_refl d : equalOptionalDigest d d = true.
Proof. destruct d; [by apply bool_decide_eq_true_2 | done]. Qed.

Lemma equalOptionalDatabasePoint_refl d : equalOptionalDatabasePoint d d = true.
Proof. destruct d; [by apply bool_decide_eq_true_2 | done]. Qed.

(** A valid receipt makes the record that holds it valid. *)
Lemma Record_Validate_of_receipt t :
  Receipt_Validate t = None ->
  Record_Validate (MkRecord (rc_Reservation t) (rc_EffectDigest t) (rc_DatabasePoint t) (Some t)) = None.
Proof.
  intros Ht. unfold Record_Validate.
  cbn [rd_Reservation rd_BoundEffectDigest rd_BoundDatabasePoint rd_TerminalReceipt].
  rewrite Ht, equalOptionalDigest_refl, equalOptionalDatabasePoint_refl.
  rewrite (bool_decide_eq_true_2 (rc_Reservation t = _)) by done. cbn [is_err negb orb].
  unfold Receipt_Validate in Ht.
  destruct (is_err (Reservation_Validate (rc_Reservation t)) || _ || _) eqn:E1; [done|].
  destruct (negb (Bool.eqb _ _)) eqn:E2; [done|].
  apply orb_false_iff in E1 as [E1 _]. apply orb_false_iff in E1 as [E1 _].
  rewrite E1. cbn [orb]. rewrite ?E2.
  destruct (rc_EffectDigest t), (rc_DatabasePoint t); try done.
  by destruct (_ || _).
Qed.

Lemma validPositiveCoordinate_bounds z :
  validPositiveCoordinate z = true <-> 1 <= z <= MaxInt64.
Proof. unfold validPositiveCoordinate. rewrite andb_true_iff, Z.ltb_lt, Z.leb_le. lia. Qed.

Lemma record_ok_next epoch next next' id r :
  next <= next' -> record_ok epoch next id r -> record_ok epoch next' id r.
Proof. intros Hn []. constructor; try done. lia. Qed.

Lemma new_record_ok p request rv :
  0 <= pv_nextSequence p < MaxInt64 ->
  rv_OperationID rv = rr_OperationID request -> rv_Kind rv = rr_Kind request ->
  rv_ScopeKind rv = rr_ScopeKind request -> rv_ScopeDigest rv = rr_ScopeDigest request ->
  rv_Epoch rv = pv_epoch p -> rv_Sequence rv = pv_nextSequence p + 1 ->
  Reservation_Validate rv = None ->
  record_ok (pv_epoch p) (pv_nextSequence p + 1) (rr_OperationID request) (new_record request rv).
Proof.
  intros Hn H1 H2 H3 H4 H5 H6 Hv. constructor; cbn; try done.
  - rewrite H2, H3, H4. by destruct request.
  - unfold dr_sequence. cbn. lia.
  - unfold Record_Validate. cbn. by rewrite Hv.
Qed.

Lemma finalized_ok p r n t :
  record_ok (pv_epoch p) (pv_nextSequence p) (fr_OperationID n) r ->
  rd_TerminalReceipt (dr_record r) = None -> normalizeFinalizeRequest n = Ok n ->
  t = committed_receipt r n (rc_ReceiptDigest t) -> Receipt_Validate t = None ->
  record_ok (pv_epoch p) (pv_nextSequence p) (fr_OperationID n) (finalized r n t).
Proof.
  intros [] Hnone Hn Ht Hv.
  assert (rc_Reservation t = rd_Reservation (dr_record r)) as Hrv by (rewrite Ht; done).
  constructor; try done.
  - cbn. rewrite <- Hrv. by apply Record_Validate_of_receipt.
  - unfold outcome_ok in *. rewrite Hnone in ro_outcome0. destruct ro_outcome0 as (?&?&?&?).
    left. exists n. repeat split; done.
Qed.

Lemma aborted_ok p r q t :
  record_ok (pv_epoch p) (pv_nextSequence p) (ar_OperationID q) r ->
  rd_TerminalReceipt (dr_record r) = None ->
  t = aborted_receipt r (ar_Reason q) (rc_ReceiptDigest t) -> Receipt_Validate t = None ->
  record_ok (pv_epoch p) (pv_nextSequence p) (ar_OperationID q) (aborted r q t).
Proof.
  intros [] Hnone Ht Hv. pose proof (Record_Validate_of_receipt t Hv) as Hrec.
  rewrite Ht in Hrec at 1 2 3. cbn in Hrec.
  constructor; try done.
  unfold outcome_ok in *. rewrite Hnone in ro_outcome0. destruct ro_outcome0 as (?&?&?&?).
  right. exists q. repeat split; done.
Qed.

Lemma finalized_sequence r n t : dr_sequence (finalized r n t) = dr_sequence r.
Proof. done. Qed.

Lemma aborted_sequence r q t : dr_sequence (aborted r q t) = dr_sequence r.
Proof. done. Qed.

(** Replacing a record by one with the same sequence keeps the invariant. *)
Lemma ledger_inv_update p p' id r r' :
  ledger_inv p -> pv_records p !! id = Some r -> dr_sequence r' = dr_sequence r ->
  record_ok (pv_epoch p) (pv_nextSequence p) id r' ->
  pv_epoch p' = pv_epoch p -> pv_nextSequence p' = pv_nextSequence p ->
  pv_records p' = <[id := r']> (pv_records p) -> ledger_inv p'.
Proof.
  intros [] Hl Hs Hok He Hn Hr. constructor.
  - by rewrite He.
  - by rewrite Hn.
  - rewrite Hr, Hn, map_size_insert_Some by eauto. done.
  - intros i a. rewrite Hr, He, Hn. rewrite lookup_insert. case_decide; [|apply li_records0].
    intros [= <-]. by subst.
  - rewrite Hr. intros i j a b Ha Hb Hab. rewrite lookup_insert in Ha, Hb.
    case_decide; case_decide; simplify_eq; try done.
    + rewrite Hs in Hab. by eapply li_unique0.
    + rewrite Hs in Hab. by eapply li_unique0.
    + by eapply li_unique0.
Qed.

Lemma ledger_inv_insert p p' request rv :
  ledger_inv p -> pv_records p !! rr_OperationID request = None ->
  rv_Sequence rv = pv_nextSequence p + 1 ->
  record_ok (pv_epoch p) (pv_nextSequence p + 1) (rr_OperationID request) (new_record request rv) ->
  pv_nextSequence p < MaxInt64 ->
  pv_epoch p' = pv_epoch p -> pv_nextSequence p' = pv_nextSequence p + 1 ->
  pv_records p' = <[rr_OperationID request := new_record request rv]> (pv_records p) ->
  ledger_inv p'.
Proof.
  intros [Hep Hnx Hsz Hrec Huq] Hfresh Hseq Hok Hmax He Hn Hr.
  constructor; rewrite ?He, ?Hn, ?Hr.
  - done.
  - lia.
  - rewrite map_size_insert_None by done. lia.
  - intros i a. rewrite lookup_insert. case_decide as Hi.
    + intros [= <-]. by subst i.
    + intros Ha. eapply record_ok_next; [|by apply Hrec]. lia.
  - intros i j a b Ha Hb Hab. rewrite lookup_insert in Ha, Hb.
    assert (dr_sequence (new_record request rv) = pv_nextSequence p + 1) as Hnew by done.
    case_decide; case_decide; simplify_eq; try done.
    1: apply Hrec in Ha as []; lia.
    1: apply Hrec in Hb as []; lia.
    by eapply Huq.
Qed.

Lemma ledger_change_inv p p' : ledger_change p p' -> ledger_inv p -> ledger_inv p'.
Proof.
  intros Hc Hinv.
  destruct Hc as [Hs | request rv Hfresh Hmax Hi Hk Hsk Hsd Hep Hseq Hv He Hn Hr | r n t | r q t].
  - destruct Hs as (He & Hn & Hr). destruct Hinv. constructor; rewrite ?He, ?Hn, ?Hr; done.
  - pose proof (li_next _ Hinv).
    rewrite u64_id in Hseq by (unfold is_u64, MaxInt64 in *; lia).
    eapply ledger_inv_insert; eauto; [|congruence]. apply new_record_ok; try done; lia.
  - eapply (ledger_inv_update p p' _ r (finalized r n t)); eauto. apply finalized_ok; try done. by apply Hinv.
  - eapply (ledger_inv_update p p' _ r (aborted r q t)); eauto. apply aborted_ok; try done. by apply Hinv.
Qed.

Lemma reachable_inv p : reachable p -> ledger_inv p.
Proof.
  induction 1 as [epoch p Hnew | c p _ IH].
  - unfold NewDeterministicProvider in Hnew. case_in Hnew; simplify_eq. bool_props.
    constructor; cbn [pv_epoch pv_nextSequence pv_records].
    + done.
    + unfold MaxInt64. lia.
    + by rewrite map_size_empty.
    + intros i r Hl. by rewrite lookup_empty in Hl.
    + intros i j a b Ha. by rewrite lookup_empty in Ha.
  - eapply ledger_change_inv; [apply ledger_run_change | done].
Qed.

(** ** Abstract specification

    The ledger promises a gap-free log of fences: an operation gets the next
    sequence number when it is reserved, and later at most one fate. *)
Inductive fate :=
| Pending
| Committed (effect : Digest) (point : DatabasePoint)
| Aborted (reason : AbortReason).

Record entry := Entry {
  en_sequence : Z;
  en_request : ReserveRequest;
  en_fate : fate }.

(** The point a normalized request binds its effect to. *)
Definition bound_point (n : FinalizeRequest) : DatabasePoint :=
  MkDatabasePoint (fr_DBSystemID n) (fr_DBTimeline n) (fr_RequiredLSN n).

(** What a call says: it was refused, its response was lost, a sequence number or
    a fate. *)
Inductive answer :=
| Refused
| Lost
| Number (sequence : Z)
| Fate (f : fate).

(** What the log allows a call to do and to say.  A refusal changes nothing; the
    response of a change may be lost. *)
Inductive log_call (m : gmap UUID entry) : ledger_call -> answer -> gmap UUID entry -> Prop :=
| log_refused c : log_call m c Refused m
| log_reserve c0 c1 q a :
    m !! rr_OperationID q = None -> ReserveRequest_Validate q = None -> Z.of_nat (size m) < MaxInt64 ->
    a = Number (Z.of_nat (size m) + 1) \/ a = Lost ->
    log_call m (CallReserve c0 c1 q) a
      (<[rr_OperationID q := Entry (Z.of_nat (size m) + 1) q Pending]> m)
| log_reserved c0 c1 q sequence f :
    m !! rr_OperationID q = Some (Entry sequence q f) ->
    log_call m (CallReserve c0 c1 q) (Number sequence) m
| log_commit c0 c1 q n sequence request a :
    normalizeFinalizeRequest q = Ok n -> m !! fr_OperationID q = Some (Entry sequence request Pending) ->
    fr_EffectDigest n <> zero_digest -> DatabasePoint_Validate (bound_point n) = None ->
    a = Fate (Committed (fr_EffectDigest n) (bound_point n)) \/ a = Lost ->
    log_call m (CallFinalize c0 c1 q) a
      (<[fr_OperationID q := Entry sequence request (Committed (fr_EffectDigest n) (bound_point n))]> m)
| log_committed c0 c1 q n sequence request :
    normalizeFinalizeRequest q = Ok n ->
    m !! fr_OperationID q = Some (Entry sequence request (Committed (fr_EffectDigest n) (bound_point n))) ->
    log_call m (CallFinalize c0 c1 q) (Fate (Committed (fr_EffectDigest n) (bound_point n))) m
| log_abort c0 c1 q sequence request a :
    m !! ar_OperationID q = Some (Entry sequence request Pending) -> AbortReason_Validate (ar_Reason q) = None ->
    a = Fate (Aborted (ar_Reason q)) \/ a = Lost ->
    log_call m (CallAbort c0 c1 q) a
      (<[ar_OperationID q := Entry sequence request (Aborted (ar_Reason q))]> m)
| log_aborted c0 c1 q sequence request :
    m !! ar_OperationID q = Some (Entry sequence request (Aborted (ar_Reason q))) ->
    log_call m (CallAbort c0 c1 q) (Fate (Aborted (ar_Reason q))) m
| log_inspect c0 c1 id sequence request f :
    m !! id = Some (Entry sequence request f) -> log_call m (CallInspect c0 c1 id) (Fate f) m
| log_head order c0 c1 : log_call m (CallHead order c0 c1) (Number (Z.of_nat (size m))) m.

(** The abstraction function. *)
Definition abs_fate (terminal : option Receipt) : fate :=
  match terminal with
  | None => Pending
  | Some t =>
      match rc_AbortReason t, rc_EffectDigest t, rc_DatabasePoint t with
      | Some reason, _, _ => Aborted reason
      | None, Some effect, Some point => Committed effect point
      | None, _, _ => Pending
      end
  end.

Definition abs_record r : entry :=
  Entry (dr_sequence r) (dr_reserveRequest r) (abs_fate (rd_TerminalReceipt (dr_record r))).

Definition abs p : gmap UUID entry := abs_record <$> pv_records p.

Lemma abs_lookup p id : abs p !! id = abs_record <$> pv_records p !! id.
Proof. apply lookup_fmap. Qed.

Lemma abs_size p : size (abs p) = size (pv_records p).
Proof. apply map_size_fmap. Qed.

Lemma abs_insert p p' id r :
  pv_records p' = <[id := r]> (pv_records p) -> abs p' = <[id := abs_record r]> (abs p).
Proof. intros Hr. unfold abs. by rewrite Hr, fmap_insert. Qed.

Lemma Reservation_Validate_request rv :
  Reservation_Validate rv = None ->
  ReserveRequest_Validate (MkReserveRequest (rv_OperationID rv) (rv_Kind rv) (rv_ScopeKind rv)
                             (rv_ScopeDigest rv)) = None.
Proof.
  unfold Reservation_Validate. intros Hv. case_in Hv; [done|]. by bool_props.
Qed.

(** What a valid receipt says about its optional fields. *)
Lemma Receipt_Validate_effect t effect point :
  Receipt_Validate t = None -> rc_EffectDigest t = Some effect -> rc_DatabasePoint t = Some point ->
  effect <> zero_digest /\ DatabasePoint_Validate point = None.
Proof.
  unfold Receipt_Validate. intros Hv He Hp. rewrite He, Hp in Hv.
  case_in Hv; [done|]. cbn in Hv. case_in Hv; [done|]. by bool_props.
Qed.

Lemma Receipt_Validate_reason t reason :
  Receipt_Validate t = None -> rc_Status t = StatusAborted -> rc_AbortReason t = Some reason ->
  AbortReason_Validate reason = None.
Proof.
  unfold Receipt_Validate. intros Hv Hs Hr. rewrite Hs, Hr in Hv.
  rewrite (bool_decide_eq_false_2 (StatusAborted = StatusCommitted)) in Hv by done.
  rewrite (bool_decide_eq_true_2 (StatusAborted = StatusAborted)) in Hv by done.
  destruct (AbortReason_Validate reason); [|done]. cbn [is_err] in Hv.
  repeat case_in Hv; done.
Qed.

Lemma pending_abs p id r :
  pv_records p !! id = Some r -> rd_TerminalReceipt (dr_record r) = None ->
  abs p !! id = Some (Entry (dr_sequence r) (dr_reserveRequest r) Pending).
Proof. intros Hl Ht. rewrite abs_lookup, Hl. cbn. unfold abs_record. by rewrite Ht. Qed.

(** ** Monotonicity: reservations and terminal receipts never change *)

Definition ledger_le p p' : Prop :=
  pv_epoch p' = pv_epoch p /\
  forall id r, pv_records p !! id = Some r ->
    exists r', pv_records p' !! id = Some r' /\
      dr_reserveRequest r' = dr_reserveRequest r /\
      rd_Reservation (dr_record r') = rd_Reservation (dr_record r) /\
      (rd_TerminalReceipt (dr_record r) <> None -> r' = r).

#[export] Instance ledger_le_preorder : PreOrder ledger_le.
Proof.
  split.
  - intros p. split; [done|]. intros id r Hl. exists r. done.
  - intros p q s [He1 H1] [He2 H2]. split; [congruence|]. intros id r Hl.
    destruct (H1 id r Hl) as (r1 & Hl1 & Hq1 & Hv1 & Ht1).
    destruct (H2 id r1 Hl1) as (r2 & Hl2 & Hq2 & Hv2 & Ht2).
    exists r2. repeat split; [done | congruence | congruence |].
    intros Ht. specialize (Ht1 Ht). subst r1. by apply Ht2.
Qed.

Lemma ledger_le_update p p' id r r' :
  pv_records p !! id = Some r -> rd_TerminalReceipt (dr_record r) = None ->
  dr_reserveRequest r' = dr_reserveRequest r ->
  rd_Reservation (dr_record r') = rd_Reservation (dr_record r) ->
  pv_epoch p' = pv_epoch p -> pv_records p' = <[id := r']> (pv_records p) -> ledger_le p p'.
Proof.
  intros Hl Ht Hq Hv He Hr. split; [done|]. intros i a Ha. rewrite Hr.
  destruct (decide (id = i)) as [<-|Hne].
  - rewrite lookup_insert_eq. rewrite Hl in Ha. simplify_eq. exists r'. done.
  - rewrite lookup_insert_ne by done. exists a. done.
Qed.

Lemma ledger_change_le p p' : ledger_change p p' -> ledger_le p p'.
Proof.
  intros [Hs | request rv Hfresh Hmax Hi Hk Hsk Hsd Hep Hseq Hv He Hn Hr
         | r n t Hl Hnone Hnn Ht Hv He Hn Hr | r q t Hl Hnone Ht Hv He Hn Hr].
  - destruct Hs as (He & _ & Hr). split; [done|]. rewrite Hr. intros id r Hl. exists r. done.
  - split; [done|]. rewrite Hr. intros id r Hl. exists r.
    rewrite lookup_insert_ne by congruence. done.
  - by apply (ledger_le_update p p' (fr_OperationID n) r (finalized r n t)).
  - by apply (ledger_le_update p p' (ar_OperationID q) r (aborted r q t)).
Qed.

(** The ledgers a sequence of calls leads to. *)
Inductive calls : DeterministicProvider -> DeterministicProvider -> Prop :=
| calls_none p : calls p p
| calls_next c p p' : calls (ledger_run c p) p' -> calls p p'.

Lemma calls_le p p' : calls p p' -> ledger_le p p'.
Proof.
  induction 1 as [p | c p p' _ IH]; [done|].
  etrans; [apply ledger_change_le, ledger_run_change | exact IH].
Qed.

Lemma calls_inv p p' : calls p p' -> ledger_inv p -> ledger_inv p'.
Proof.
  induction 1 as [p | c p p' _ IH]; [done|]. intros Hi. apply IH.
  eapply ledger_change_inv; [apply ledger_run_change | done].
Qed.

(** ** Retries *)

(** No failure is injected for an operation. *)
Definition quiet p (o : Operation) : Prop := pv_failures p !! o = None.

(** A call that took effect: it returned, or its response was lost. *)
Definition took_effect {A} (res : result auth_err A) : Prop :=
  (exists a, res = Ok a) \/ res = Err ErrResponseLost.

Lemma canonicalTranscriptDigest_err d j e :
  canonicalTranscriptDigest d j = Err e -> e = ErrInvalidArgument.
Proof. unfold canonicalTranscriptDigest. case_goal; congruence. Qed.

Lemma normalizeFinalizeRequest_err q e :
  normalizeFinalizeRequest q = Err e -> e = ErrInvalidArgument.
Proof. unfold normalizeFinalizeRequest. repeat case_goal; congruence. Qed.

(** Close a case in which the call returned an error before its mutation. *)
Ltac no_effect :=
  repeat match goal with
  | E : reservationDigest _ = Err _ |- _ => apply canonicalTranscriptDigest_err in E; subst
  | E : receiptDigest _ = Err _ |- _ => apply canonicalTranscriptDigest_err in E; subst
  | E : normalizeFinalizeRequest _ = Err _ |- _ => apply normalizeFinalizeRequest_err in E; subst
  | E : took_effect _ |- _ => destruct E as [[? ?]|?]
  end; done.

Lemma Reserve_stored c0 c1 q p res p' :
  Reserve c0 c1 q p = (res, p') -> took_effect res ->
  exists r, pv_records p' !! rr_OperationID q = Some r /\ dr_reserveRequest r = q /\
            forall rv, res = Ok rv -> rd_Reservation (dr_record r) = rv.
Proof.
  unfold Reserve. intros Hc Hres.
  destruct c0, c1; cbn [contextError] in Hc; try (simplify_eq; no_effect).
  split_consume Hc. destruct before; [simplify_eq; no_effect|].
  destruct (pv_records p0 !! _) as [existing|] eqn:Hl.
  { repeat case_in Hc; simplify_eq; bool_props; [no_effect|].
    exists existing. repeat split; [done | done |]. by intros rv [= <-]. }
  destruct (is_err (ReserveRequest_Validate q) || _); [simplify_eq; no_effect|].
  destruct (reservationDigest _) as [digest|] eqn:Hd; [|simplify_eq; no_effect].
  destruct (is_err (Reservation_Validate _)); [simplify_eq; no_effect|].
  split_consume Hc. case_in Hc; simplify_eq;
    match goal with Hr : pv_records p' = _ |- _ => rewrite Hr end; cbn [pv_records];
    rewrite lookup_insert_eq; eexists; (split; [reflexivity|]); (split; [reflexivity|]);
    by intros rv [= <-].
Qed.

Lemma Reserve_replay q p r :
  pv_records p !! rr_OperationID q = Some r -> quiet p OperationReserve ->
  Reserve CtxLive CtxLive q p =
  (if dr_reserveRequest r != q then Err ErrConflict else Ok (rd_Reservation (dr_record r)), p).
Proof.
  intros Hl Hq. unfold Reserve. cbn [contextError].
  unfold consumeBeforeMutationFailure. rewrite consumeFailure_none by done.
  rewrite Hl. by case_goal.
Qed.

Lemma Finalize_stored c0 c1 q p res p' :
  ledger_inv p -> Finalize c0 c1 q p = (res, p') -> took_effect res ->
  exists r n t, pv_records p' !! fr_OperationID q = Some r /\
    normalizeFinalizeRequest q = Ok n /\ dr_finalizeRequest r = Some n /\
    rd_TerminalReceipt (dr_record r) = Some t /\ rc_Status t = StatusCommitted /\
    forall t', res = Ok t' -> t = t'.
Proof.
  unfold Finalize. intros Hinv Hc Hres.
  destruct c0, c1; cbn [contextError] in Hc; try (simplify_eq; no_effect).
  split_consume Hc. destruct before; [simplify_eq; no_effect|].
  destruct (pv_records p0 !! _) as [stored|] eqn:Hl.
  2: { repeat case_in Hc; simplify_eq; no_effect. }
  destruct (rd_TerminalReceipt (dr_record stored)) as [t|] eqn:Ht.
  { repeat (case_in Hc; simplify_eq; try no_effect). bool_props.
    match goal with E : dr_finalizeRequest stored = Some ?n |- _ =>
      exists stored, n, t; repeat (split; [done|]) end.
    split; [|by intros t' [= <-]].
    match goal with Hr : pv_records p' = pv_records p |- _ => rewrite Hr in Hl end.
    apply (li_records _ Hinv) in Hl as []. unfold outcome_ok in *. rewrite Ht in *.
    destruct ro_outcome0 as [(? & _ & _ & _ & _ & -> & _)|(? & _ & _ & _ & Ha & _)]; [done|].
    match goal with E : rc_Status t <> StatusAborted |- _ => destruct E; by rewrite Ha end. }
  destruct (normalizeFinalizeRequest q) as [n|] eqn:Hn; [|simplify_eq; no_effect].
  destruct (receiptDigest _) as [digest|] eqn:Hd; [|simplify_eq; no_effect]. cbv zeta in Hc.
  destruct (is_err (Receipt_Validate _)); [simplify_eq; no_effect|].
  split_consume Hc. unfold set_records in *. cbn [pv_records] in *. case_in Hc; simplify_eq;
    match goal with Hr : pv_records p' = _ |- _ => rewrite Hr end;
    rewrite lookup_insert_eq; eexists _, _, _; repeat (split; [reflexivity|]);
    by intros t' [= <-].
Qed.

Lemma Finalize_replay q n p r t :
  pv_records p !! fr_OperationID q = Some r -> quiet p OperationFinalize ->
  rd_TerminalReceipt (dr_record r) = Some t -> rc_Status t = StatusCommitted ->
  normalizeFinalizeRequest q = Ok n ->
  Finalize CtxLive CtxLive q p =
  (if dr_finalizeRequest r == Some n then Ok t else Err ErrConflict, p).
Proof.
  intros Hl Hq Ht Hs Hn. unfold Finalize. cbn [contextError].
  unfold consumeBeforeMutationFailure. rewrite consumeFailure_none by done.
  rewrite Hl, Ht, Hs, Hn. rewrite bool_decide_eq_false_2 by done. by case_goal.
Qed.

Lemma Abort_committed a p r t :
  pv_records p !! ar_OperationID a = Some r -> quiet p OperationAbort ->
  rd_TerminalReceipt (dr_record r) = Some t -> rc_Status t = StatusCommitted ->
  Abort CtxLive CtxLive a p = (Err ErrTerminalConflict, p).
Proof.
  intros Hl Hq Ht Hs. unfold Abort. cbn [contextError].
  unfold consumeBeforeMutationFailure. rewrite consumeFailure_none by done.
  rewrite Hl, Ht, Hs. by rewrite bool_decide_eq_true_2.
Qed.

Lemma Abort_stored c0 c1 q p res p' :
  ledger_inv p -> Abort c0 c1 q p = (res, p') -> took_effect res ->
  exists r t, pv_records p' !! ar_OperationID q = Some r /\ dr_abortRequest r = Some q /\
    rd_TerminalReceipt (dr_record r) = Some t /\ rc_Status t = StatusAborted /\
    forall t', res = Ok t' -> t = t'.
Proof.
  unfold Abort. intros Hinv Hc Hres.
  destruct c0, c1; cbn [contextError] in Hc; try (simplify_eq; no_effect).
  split_consume Hc. destruct before; [simplify_eq; no_effect|].
  destruct (pv_records p0 !! _) as [stored|] eqn:Hl.
  2: { repeat case_in Hc; simplify_eq; no_effect. }
  destruct (rd_TerminalReceipt (dr_record stored)) as [t|] eqn:Ht.
  { repeat (case_in Hc; simplify_eq; try no_effect). bool_props.
    exists stored, t; repeat (split; [done|]). split; [|by intros t' [= <-]].
    match goal with Hr : pv_records p' = pv_records p |- _ => rewrite Hr in Hl end.
    apply (li_records _ Hinv) in Hl as []. unfold outcome_ok in *. rewrite Ht in *.
    destruct ro_outcome0 as [(? & _ & _ & _ & _ & Ha & _)|(? & _ & _ & _ & -> & _)]; [|done].
    match goal with E : rc_Status t <> StatusCommitted |- _ => destruct E; by rewrite Ha end. }
  destruct (is_err (AbortRequest_Validate q)); [simplify_eq; no_effect|].
  destruct (receiptDigest _) as [digest|] eqn:Hd; [|simplify_eq; no_effect]. cbv zeta in Hc.
  destruct (is_err (Receipt_Validate _)); [simplify_eq; no_effect|].
  split_consume Hc. unfold set_records in *. cbn [pv_records] in *. case_in Hc; simplify_eq;
    match goal with Hr : pv_records p' = _ |- _ => rewrite Hr end;
    rewrite lookup_insert_eq; eexists _, _; repeat (split; [reflexivity|]);
    by intros t' [= <-].
Qed.

Lemma Abort_replay q p r t :
  pv_records p !! ar_OperationID q = Some r -> quiet p OperationAbort ->
  rd_TerminalReceipt (dr_record r) = Some t -> rc_Status t = StatusAborted ->
  Abort CtxLive CtxLive q p = (if dr_abortRequest r == Some q then Ok t else Err ErrConflict, p).
Proof.
  intros Hl Hq Ht Hs. unfold Abort. cbn [contextError].
  unfold consumeBeforeMutationFailure. rewrite consumeFailure_none by done.
  rewrite Hl, Ht, Hs. rewrite bool_decide_eq_false_2 by done. by case_goal.
Qed.

Lemma Finalize_aborted q p r t :
  pv_records p !! fr_OperationID q = Some r -> quiet p OperationFinalize ->
  rd_TerminalReceipt (dr_record r) = Some t -> rc_Status t = StatusAborted ->
  Finalize CtxLive CtxLive q p = (Err ErrTerminalConflict, p).
Proof.
  intros Hl Hq Ht Hs. unfold Finalize. cbn [contextError].
  unfold consumeBeforeMutationFailure. rewrite consumeFailure_none by done.
  rewrite Hl, Ht, Hs. by rewrite bool_decide_eq_true_2.
Qed.
(** ** Every call is one the log allows *)

(** What a method returned, as an answer of the log. *)
Definition answer_of {A} (said : A -> answer) (r : result auth_err A) : answer :=
  match r with
  | Ok a => said a
  | Err ErrResponseLost => Lost
  | Err _ => Refused
  end.

Definition receipt_fate (t : Receipt) : answer := Fate (abs_fate (Some t)).

Definition ledger_answer (c : ledger_call) p : answer :=
  match c with
  | CallReserve c0 c1 q => answer_of (fun rv => Number (rv_Sequence rv)) (Reserve c0 c1 q p).1
  | CallFinalize c0 c1 q => answer_of receipt_fate (Finalize c0 c1 q p).1
  | CallAbort c0 c1 q => answer_of receipt_fate (Abort c0 c1 q p).1
  | CallInspect c0 c1 i => answer_of (fun found => Fate (abs_fate (rd_TerminalReceipt found))) (Inspect c0 c1 i p).1
  | CallHead order c0 c1 => answer_of (fun h => Number (hd_LatestReservedSequence h)) (ProviderHead order c0 c1 p).1
  | CallFailNext _ _ => Refused
  end.

Lemma abs_same p p' : pv_records p' = pv_records p -> abs p' = abs p.
Proof. intros Hr. unfold abs. by rewrite Hr. Qed.

(** The records did not change. *)
Ltac log_same :=
  match goal with |- log_call (abs ?a) _ _ (abs ?b) =>
    replace (abs b) with (abs a) by (first [done | symmetry; apply abs_same; congruence]) end.

(** A call that was refused. *)
Ltac log_nothing :=
  repeat match goal with
  | E : reservationDigest _ = Err _ |- _ => apply canonicalTranscriptDigest_err in E; subst
  | E : receiptDigest _ = Err _ |- _ => apply canonicalTranscriptDigest_err in E; subst
  | E : normalizeFinalizeRequest _ = Err _ |- _ => apply normalizeFinalizeRequest_err in E; subst
  end;
  simplify_eq; cbn [answer_of]; log_same; apply log_refused.

Lemma Reserve_log c0 c1 q p :
  ledger_inv p -> log_call (abs p) (CallReserve c0 c1 q) (ledger_answer (CallReserve c0 c1 q) p) (abs (Reserve c0 c1 q p).2).
Proof.
  intros Hinv. cbn [ledger_answer]. destruct (Reserve c0 c1 q p) as [res p'] eqn:Hc. cbn [fst snd].
  unfold Reserve in Hc.
  destruct c0, c1; cbn [contextError] in Hc; try log_nothing.
  split_consume Hc. destruct before; [log_nothing|].
  destruct (pv_records p0 !! _) as [existing|] eqn:Hl.
  { case_in Hc; [log_nothing|]. simplify_eq. bool_props. cbn [answer_of].
    log_same. eapply log_reserved. rewrite abs_lookup.
    match goal with Hr : pv_records p' = _ |- _ => rewrite Hr in Hl end. rewrite Hl. cbn. unfold abs_record.
    by match goal with Hq : dr_reserveRequest existing = _ |- _ => rewrite Hq end. }
  destruct (is_err (ReserveRequest_Validate q) || _) eqn:Hg; [log_nothing|].
  destruct (reservationDigest _) as [digest|] eqn:Hd; [|log_nothing].
  destruct (is_err (Reservation_Validate _)) eqn:Hv; [log_nothing|].
  split_consume Hc. bool_props. cbn [pv_epoch pv_nextSequence pv_records rv_Sequence] in *.
  pose proof (li_next _ Hinv). pose proof (li_size _ Hinv) as Hsize.
  assert (u64 (pv_nextSequence p0 + 1) = Z.of_nat (size (abs p)) + 1) as Hu.
  { rewrite abs_size, Hsize. rewrite u64_id; [congruence|]. unfold is_u64, MaxInt64 in *. lia. }
  assert (abs p' = <[rr_OperationID q := Entry (Z.of_nat (size (abs p)) + 1) q Pending]> (abs p)) as ->.
  { rewrite <- Hu. match goal with Hr : pv_records p1 = _ |- _ =>
      replace p' with p1 by (case_in Hc; congruence); rewrite (abs_insert p p1 _ _ ltac:(rewrite Hr; f_equal; congruence)) end.
    done. }
  apply log_reserve.
  - rewrite abs_lookup. by replace (pv_records p) with (pv_records p0) by congruence; rewrite Hl.
  - done.
  - rewrite abs_size, Hsize. lia.
  - rewrite <- Hu. case_in Hc; simplify_eq; [by right|by left].
Qed.

Lemma Finalize_log c0 c1 q p :
  ledger_inv p -> log_call (abs p) (CallFinalize c0 c1 q) (ledger_answer (CallFinalize c0 c1 q) p) (abs (Finalize c0 c1 q p).2).
Proof.
  intros Hinv. cbn [ledger_answer]. destruct (Finalize c0 c1 q p) as [res p'] eqn:Hc. cbn [fst snd].
  unfold Finalize in Hc.
  destruct c0, c1; cbn [contextError] in Hc; try log_nothing.
  split_consume Hc. destruct before; [log_nothing|].
  destruct (pv_records p0 !! _) as [stored|] eqn:Hl.
  2: { case_in Hc; log_nothing. }
  assert (pv_records p !! fr_OperationID q = Some stored) as Hl' by congruence.
  destruct (rd_TerminalReceipt (dr_record stored)) as [t|] eqn:Ht.
  { case_in Hc; [log_nothing|]. destruct (normalizeFinalizeRequest q) as [n|] eqn:Hn; [|log_nothing].
    case_in Hc; [|log_nothing]. simplify_eq. cbn [answer_of]. log_same. bool_props.
    pose proof (ro_outcome _ _ _ _ (li_records _ Hinv _ _ Hl')) as Ho. unfold outcome_ok in Ho. rewrite Ht in Ho.
    destruct Ho as [(n' & Hf & _ & _ & _ & Et & _)|(a & _ & Hf & _)]; [|congruence].
    assert (n' = n) as -> by congruence.
    assert (abs_fate (Some t) = Committed (fr_EffectDigest n) (bound_point n)) as Ef by (by rewrite Et).
    unfold receipt_fate. rewrite Ef. eapply log_committed; [done|]. rewrite abs_lookup, Hl'. cbn. unfold abs_record.
    by rewrite Ht, Ef. }
  destruct (normalizeFinalizeRequest q) as [n|] eqn:Hn; [|log_nothing].
  destruct (receiptDigest _) as [digest|] eqn:Hd; [|log_nothing]. cbv zeta in Hc.
  destruct (is_err (Receipt_Validate _)) eqn:Hv; [log_nothing|].
  split_consume Hc. unfold set_records in *. cbn [pv_epoch pv_nextSequence pv_records] in *. bool_props.
  assert (abs p' = <[fr_OperationID q := Entry (dr_sequence stored) (dr_reserveRequest stored)
                       (Committed (fr_EffectDigest n) (bound_point n))]> (abs p)) as ->.
  { match goal with Hr : pv_records p1 = _ |- _ =>
      replace p' with p1 by (case_in Hc; congruence); rewrite (abs_insert p p1 _ _ ltac:(rewrite Hr; f_equal; congruence)) end.
    done. }
  eapply log_commit.
  - done.
  - by apply pending_abs.
  - by eapply Receipt_Validate_effect.
  - by eapply Receipt_Validate_effect.
  - case_in Hc; simplify_eq; [by right|by left].
Qed.

Lemma Abort_log c0 c1 q p :
  ledger_inv p -> log_call (abs p) (CallAbort c0 c1 q) (ledger_answer (CallAbort c0 c1 q) p) (abs (Abort c0 c1 q p).2).
Proof.
  intros Hinv. cbn [ledger_answer]. destruct (Abort c0 c1 q p) as [res p'] eqn:Hc. cbn [fst snd].
  unfold Abort in Hc.
  destruct c0, c1; cbn [contextError] in Hc; try log_nothing.
  split_consume Hc. destruct before; [log_nothing|].
  destruct (pv_records p0 !! _) as [stored|] eqn:Hl.
  2: { case_in Hc; log_nothing. }
  assert (pv_records p !! ar_OperationID q = Some stored) as Hl' by congruence.
  destruct (rd_TerminalReceipt (dr_record stored)) as [t|] eqn:Ht.
  { case_in Hc; [log_nothing|]. case_in Hc; [|log_nothing]. simplify_eq. cbn [answer_of].
    log_same. bool_props.
    pose proof (ro_outcome _ _ _ _ (li_records _ Hinv _ _ Hl')) as Ho. unfold outcome_ok in Ho. rewrite Ht in Ho.
    destruct Ho as [(n' & _ & Hf & _)|(a & Hf & _ & _ & Et & _)]; [congruence|].
    assert (a = q) as -> by congruence.
    assert (abs_fate (Some t) = Aborted (ar_Reason q)) as Ef by (by rewrite Et).
    unfold receipt_fate. rewrite Ef. eapply log_aborted. rewrite abs_lookup, Hl'. cbn. unfold abs_record. by rewrite Ht, Ef. }
  destruct (is_err (AbortRequest_Validate q)); [log_nothing|].
  destruct (receiptDigest _) as [digest|] eqn:Hd; [|log_nothing]. cbv zeta in Hc.
  destruct (is_err (Receipt_Validate _)) eqn:Hv; [log_nothing|].
  split_consume Hc. unfold set_records in *. cbn [pv_epoch pv_nextSequence pv_records] in *. bool_props.
  assert (abs p' = <[ar_OperationID q := Entry (dr_sequence stored) (dr_reserveRequest stored) (Aborted (ar_Reason q))]> (abs p)) as ->.
  { match goal with Hr : pv_records p1 = _ |- _ =>
      replace p' with p1 by (case_in Hc; congruence); rewrite (abs_insert p p1 _ _ ltac:(rewrite Hr; f_equal; congruence)) end.
    done. }
  eapply log_abort.
  - by apply pending_abs.
  - by eapply Receipt_Validate_reason.
  - case_in Hc; simplify_eq; [by right|by left].
Qed.

Lemma Inspect_log c0 c1 id p :
  log_call (abs p) (CallInspect c0 c1 id) (ledger_answer (CallInspect c0 c1 id) p) (abs (Inspect c0 c1 id p).2).
Proof.
  cbn [ledger_answer]. destruct (Inspect c0 c1 id p) as [res p'] eqn:Hc. cbn [fst snd]. unfold Inspect in Hc.
  destruct c0, c1; cbn [contextError] in Hc; try log_nothing.
  split_consume Hc. destruct before; [log_nothing|]. case_in Hc; [log_nothing|].
  destruct (pv_records p0 !! id) as [stored|] eqn:Hl; [|log_nothing]. simplify_eq. cbn [answer_of].
  log_same. eapply log_inspect. rewrite abs_lookup.
  match goal with Hr : pv_records p' = _ |- _ => rewrite Hr in Hl end. by rewrite Hl.
Qed.

Lemma head_loop_latest p order : hd_LatestReservedSequence (head_loop p order) = pv_nextSequence p.
Proof.
  unfold head_loop. set (start := MkHead _ _ _ _ _ _ _).
  assert (hd_LatestReservedSequence start = pv_nextSequence p) as Hs by done. clearbody start.
  revert start Hs. induction order as [|r order IH]; intros start Hs; [done|]. cbn [fold_left]. apply IH.
  unfold head_step. repeat case_match; done.
Qed.

Lemma Head_log order c0 c1 p :
  ledger_inv p ->
  log_call (abs p) (CallHead order c0 c1) (ledger_answer (CallHead order c0 c1) p) (abs (ProviderHead order c0 c1 p).2).
Proof.
  intros Hinv. cbn [ledger_answer]. destruct (ProviderHead order c0 c1 p) as [res p'] eqn:Hc. cbn [fst snd]. unfold ProviderHead in Hc.
  destruct c0, c1; cbn [contextError] in Hc; try log_nothing.
  split_consume Hc. destruct before; [log_nothing|]. case_in Hc; [log_nothing|]. simplify_eq. cbn [answer_of].
  log_same. rewrite head_loop_latest.
  replace (pv_nextSequence p') with (Z.of_nat (size (abs p))); [apply log_head|].
  rewrite abs_size, (li_size _ Hinv). congruence.
Qed.

Lemma ledger_run_log c p : ledger_inv p -> log_call (abs p) c (ledger_answer c p) (abs (ledger_run c p)).
Proof.
  intros Hinv. destruct c as [c0 c1 q|c0 c1 q|c0 c1 q|c0 c1 i|order c0 c1|o f]; cbn [ledger_run].
  - by apply Reserve_log.
  - by apply Finalize_log.
  - by apply Abort_log.
  - apply Inspect_log.
  - by apply Head_log.
  - cbn [ledger_answer]. replace (abs (FailNext o f p).2) with (abs p) by (unfold FailNext; by case_goal). apply log_refused.
Qed.

(** *** Calm calls are answered *)

Definition has_digest (d : result auth_err Digest) : Prop := exists digest, d = Ok digest.

(** A call with live contexts and no injected failure, whose transcripts have a
    digest; that of a receipt is not the zero digest, which stands for none. *)
Definition calm_call (c : ledger_call) p : Prop :=
  pv_failures p = ∅ /\
  match c with
  | CallReserve c0 c1 _ => c0 = CtxLive /\ c1 = CtxLive /\ forall rv, has_digest (reservationDigest rv)
  | CallFinalize c0 c1 q => c0 = CtxLive /\ c1 = CtxLive /\
      forall r n, pv_records p !! fr_OperationID q = Some r -> normalizeFinalizeRequest q = Ok n ->
        has_digest (receiptDigest (committed_receipt r n zero_digest)) /\
        receiptDigest (committed_receipt r n zero_digest) <> Ok zero_digest
  | CallAbort c0 c1 q => c0 = CtxLive /\ c1 = CtxLive /\
      forall r, pv_records p !! ar_OperationID q = Some r ->
        has_digest (receiptDigest (aborted_receipt r (ar_Reason q) zero_digest)) /\
        receiptDigest (aborted_receipt r (ar_Reason q) zero_digest) <> Ok zero_digest
  | CallInspect c0 c1 _ => c0 = CtxLive /\ c1 = CtxLive
  | CallHead _ _ _ | CallFailNext _ _ => False
  end.

Lemma reservation_of_record epoch next id r :
  record_ok epoch next id r -> Reservation_Validate (rd_Reservation (dr_record r)) = None.
Proof. intros []. unfold Record_Validate in *. case_in ro_valid0; [done|]. by bool_props. Qed.

Lemma reserved_request rv :
  ReserveRequest_Validate (MkReserveRequest (rv_OperationID rv) (rv_Kind rv) (rv_ScopeKind rv) (rv_ScopeDigest rv)) = None ->
  validPositiveCoordinate (rv_Epoch rv) = true -> validPositiveCoordinate (rv_Sequence rv) = true ->
  reservationDigest rv = Ok (rv_ReservationDigest rv) -> Reservation_Validate rv = None.
Proof. intros Hq He Hs Hd. unfold Reservation_Validate. rewrite Hq, He, Hs, Hd. cbn. by rewrite bool_decide_eq_true_2. Qed.

Lemma committed_valid r n digest :
  Reservation_Validate (rd_Reservation (dr_record r)) = None -> fr_EffectDigest n <> zero_digest ->
  DatabasePoint_Validate (bound_point n) = None ->
  receiptDigest (committed_receipt r n zero_digest) = Ok digest -> digest <> zero_digest ->
  Receipt_Validate (committed_receipt r n digest) = None.
Proof.
  intros Hrv He Hp Hd Hz. unfold bound_point in Hp. unfold Receipt_Validate, committed_receipt.
  cbn [rc_Reservation rc_Status rc_ReceiptDigest rc_EffectDigest rc_DatabasePoint rc_AbortReason].
  rewrite Hrv, Hp. rewrite !bool_decide_eq_false_2 by done. rewrite bool_decide_eq_true_2 by done.
  cbn [is_err is_nil not_nil orb negb Bool.eqb ReceiptStatus_Validate].
  change (receiptDigest _) with (receiptDigest (committed_receipt r n zero_digest)). rewrite Hd.
  by rewrite bool_decide_eq_true_2.
Qed.

Lemma aborted_valid r reason digest :
  Reservation_Validate (rd_Reservation (dr_record r)) = None -> AbortReason_Validate reason = None ->
  rd_BoundEffectDigest (dr_record r) = None -> rd_BoundDatabasePoint (dr_record r) = None ->
  receiptDigest (aborted_receipt r reason zero_digest) = Ok digest -> digest <> zero_digest ->
  Receipt_Validate (aborted_receipt r reason digest) = None.
Proof.
  intros Hrv Ha He Hp Hd Hz. unfold Receipt_Validate, aborted_receipt.
  cbn [rc_Reservation rc_Status rc_ReceiptDigest rc_EffectDigest rc_DatabasePoint rc_AbortReason].
  rewrite Hrv, Ha, He, Hp. rewrite (bool_decide_eq_false_2 (digest = zero_digest)) by done.
  rewrite (bool_decide_eq_false_2 (StatusAborted = StatusCommitted)) by done. rewrite bool_decide_eq_true_2 by done.
  cbn [is_err is_nil not_nil orb negb Bool.eqb ReceiptStatus_Validate].
  assert (receiptDigest (aborted_receipt r reason digest) = Ok digest) as Hd' by (rewrite <- Hd; done).
  unfold aborted_receipt in Hd'. rewrite He, Hp in Hd'. rewrite Hd'. by rewrite bool_decide_eq_true_2.
Qed.

(** The ledger's record of an entry of the log. *)
Lemma abs_entry p id sequence request f :
  ledger_inv p -> abs p !! id = Some (Entry sequence request f) ->
  exists r, pv_records p !! id = Some r /\ record_ok (pv_epoch p) (pv_nextSequence p) id r /\
    dr_sequence r = sequence /\ dr_reserveRequest r = request /\ abs_fate (rd_TerminalReceipt (dr_record r)) = f.
Proof.
  intros Hinv Hl. rewrite abs_lookup in Hl. apply fmap_Some in Hl as (r & Hr & E). unfold abs_record in E. simplify_eq.
  exists r. split_and!; try done. by apply (li_records _ Hinv).
Qed.

(** A terminal receipt is a fate. *)
Lemma fate_of_outcome id r :
  outcome_ok id r ->
  match abs_fate (rd_TerminalReceipt (dr_record r)) with
  | Pending => rd_TerminalReceipt (dr_record r) = None /\ rd_BoundEffectDigest (dr_record r) = None /\
      rd_BoundDatabasePoint (dr_record r) = None
  | Committed effect point => exists t n, rd_TerminalReceipt (dr_record r) = Some t /\ rc_Status t = StatusCommitted /\
      dr_finalizeRequest r = Some n /\ fr_OperationID n = id /\ normalizeFinalizeRequest n = Ok n /\
      effect = fr_EffectDigest n /\ point = bound_point n
  | Aborted reason => exists t q, rd_TerminalReceipt (dr_record r) = Some t /\ rc_Status t = StatusAborted /\
      dr_abortRequest r = Some q /\ ar_OperationID q = id /\ reason = ar_Reason q
  end.
Proof.
  unfold outcome_ok. destruct (rd_TerminalReceipt (dr_record r)) as [t|]; [|by intros (_ & _ & ? & ?)].
  intros [(n & Hf & _ & Hid & Hn & -> & _)|(q & Ha & _ & Hid & -> & _)]; cbn; eauto 10.
Qed.

(** The ledger's record of the entry of the log that the goal is about. *)
Ltac log_entry :=
  match goal with Hinv : ledger_inv _, E : abs _ !! _ = Some _ |- _ =>
    let r := fresh "r" in let Hl := fresh "Hl" in let Hok := fresh "Hok" in
    let Hq := fresh "Hq" in let Hfate := fresh "Hfate" in
    apply (abs_entry _ _ _ _ _ Hinv) in E as (r & Hl & Hok & _ & Hq & Hfate) end.

(** What is known of the failures before and after a mutation of a quiet ledger. *)
Lemma quiet_before o (p : DeterministicProvider) : pv_failures p = ∅ -> consumeBeforeMutationFailure o p = (false, p).
Proof. intros Hf. apply consumeFailure_none. by rewrite Hf. Qed.

Lemma quiet_after o p : pv_failures p = ∅ -> consumeAfterMutationFailure o p = (false, p).
Proof. intros Hf. apply consumeFailure_none. by rewrite Hf. Qed.

(** A normalized request has its own identifier, and is determined by it with its
    effect and its point. *)
Lemma normalized_id q n : normalizeFinalizeRequest q = Ok n -> fr_OperationID n = fr_OperationID q.
Proof. unfold normalizeFinalizeRequest. intros Hn. repeat case_in Hn; by simplify_eq. Qed.

Lemma request_of_point m n :
  fr_OperationID m = fr_OperationID n -> fr_EffectDigest m = fr_EffectDigest n -> bound_point m = bound_point n -> m = n.
Proof. destruct m, n. unfold bound_point. cbn. congruence. Qed.

Lemma valid_id_of_record epoch next id r : record_ok epoch next id r -> validOperationID id = true.
Proof.
  intros Hok. pose proof (reservation_of_record _ _ _ _ Hok) as Hrv. rewrite <- (ro_id _ _ _ _ Hok).
  unfold Reservation_Validate, ReserveRequest_Validate in Hrv. cbn [rr_OperationID] in Hrv. by destruct (validOperationID _).
Qed.

Lemma Reserve_calm c0 c1 q p a m :
  ledger_inv p -> calm_call (CallReserve c0 c1 q) p -> log_call (abs p) (CallReserve c0 c1 q) a m -> a <> Refused ->
  exists rv, (Reserve c0 c1 q p).1 = Ok rv.
Proof.
  intros Hinv (Hf & -> & -> & Hd) Hlog Ha. unfold Reserve. cbn [contextError]. rewrite quiet_before by done. inversion Hlog; subst; [done| |].
  - match goal with E : abs p !! _ = None |- _ => rewrite abs_lookup in E; apply fmap_None in E as Hl end. rewrite Hl.
    match goal with E : ReserveRequest_Validate q = None, E' : _ < MaxInt64 |- _ => rename E into Hq; rename E' into Hmax end.
    rewrite abs_size, (li_size _ Hinv) in Hmax. pose proof (li_next _ Hinv).
    rewrite Hq. rewrite (proj2 (Z.leb_gt _ _)) by done. cbn [is_err orb].
    rewrite u64_id by (unfold is_u64, MaxInt64 in *; lia).
    destruct (Hd (MkReservation (rr_OperationID q) (rr_Kind q) (rr_ScopeKind q) (rr_ScopeDigest q) (pv_epoch p)
      (pv_nextSequence p + 1) zero_digest)) as [digest Hdig]. rewrite Hdig.
    rewrite reserved_request; [|by destruct q|apply (li_epoch _ Hinv)|apply validPositiveCoordinate_bounds; cbn; lia|exact Hdig].
    cbn [is_err]. rewrite quiet_after by done. eauto.
  - log_entry. rewrite Hl, Hq. rewrite bool_decide_eq_true_2 by done. cbn. eauto.
Qed.

Lemma Finalize_calm c0 c1 q p a m :
  ledger_inv p -> calm_call (CallFinalize c0 c1 q) p -> log_call (abs p) (CallFinalize c0 c1 q) a m -> a <> Refused ->
  exists t, (Finalize c0 c1 q p).1 = Ok t.
Proof.
  intros Hinv (Hf & -> & -> & Hd) Hlog Ha. unfold Finalize. cbn [contextError]. rewrite quiet_before by done. inversion Hlog; subst; [done| |].
  all: log_entry.
  all: match goal with E : normalizeFinalizeRequest _ = Ok _ |- _ => rename E into Hn end.
  all: pose proof (fate_of_outcome _ _ (ro_outcome _ _ _ _ Hok)) as Ho; rewrite Hfate in Ho; rewrite Hl, Hn.
  - destruct Ho as (-> & _). destruct (Hd _ _ Hl Hn) as [[digest Hdig] Hz]. rewrite Hdig.
    rewrite committed_valid; [|by eapply reservation_of_record|done..|congruence]. cbn [is_err].
    rewrite quiet_after by done. eauto.
  - destruct Ho as (t & n' & -> & -> & Hreq & Hid & _ & He & Hp). rewrite Hreq.
    rewrite (request_of_point n' n); [|by rewrite Hid, (normalized_id _ _ Hn)|done..].
    rewrite bool_decide_eq_false_2 by done. rewrite bool_decide_eq_true_2 by done. cbn. eauto.
Qed.

Lemma Abort_calm c0 c1 q p a m :
  ledger_inv p -> calm_call (CallAbort c0 c1 q) p -> log_call (abs p) (CallAbort c0 c1 q) a m -> a <> Refused ->
  exists t, (Abort c0 c1 q p).1 = Ok t.
Proof.
  intros Hinv (Hf & -> & -> & Hd) Hlog Ha. unfold Abort. cbn [contextError]. rewrite quiet_before by done. inversion Hlog; subst; [done| |].
  all: log_entry.
  all: pose proof (fate_of_outcome _ _ (ro_outcome _ _ _ _ Hok)) as Ho; rewrite Hfate in Ho; rewrite Hl.
  - destruct Ho as (-> & He & Hp). destruct (Hd _ Hl) as [[digest Hdig] Hz].
    pose proof (reservation_of_record _ _ _ _ Hok) as Hrv. match goal with E : AbortReason_Validate _ = None |- _ => rename E into Hr end.
    assert (AbortRequest_Validate q = None) as ->.
    { unfold AbortRequest_Validate. rewrite Hr. replace (validOperationID (ar_OperationID q)) with true; [done|].
      symmetry. by eapply valid_id_of_record. }
    cbn [is_err]. rewrite Hdig. rewrite aborted_valid; [|done..|congruence]. cbn [is_err]. rewrite quiet_after by done. eauto.
  - destruct Ho as (t & q' & -> & -> & Hreq & Hid & Hr). rewrite Hreq.
    replace q' with q by (destruct q, q'; cbn in *; congruence).
    rewrite bool_decide_eq_false_2 by done. rewrite bool_decide_eq_true_2 by done. cbn. eauto.
Qed.

Lemma Inspect_calm c0 c1 id p a m :
  ledger_inv p -> calm_call (CallInspect c0 c1 id) p -> log_call (abs p) (CallInspect c0 c1 id) a m -> a <> Refused ->
  exists found, (Inspect c0 c1 id p).1 = Ok found.
Proof.
  intros Hinv (Hf & -> & ->) Hlog Ha. unfold Inspect. cbn [contextError]. rewrite quiet_before by done. inversion Hlog; subst; [done|].
  log_entry.
  rewrite (valid_id_of_record _ _ _ _ Hok), Hl. cbn. eauto.
Qed.

Lemma ledger_calm c p a m :
  ledger_inv p -> calm_call c p -> log_call (abs p) c a m -> a <> Refused ->
  ledger_answer c p <> Refused /\ ledger_answer c p <> Lost.
Proof.
  intros Hinv Hc Hlog Ha. destruct c as [c0 c1 q|c0 c1 q|c0 c1 q|c0 c1 i|order c0 c1|o f]; cbn [ledger_answer].
  - by destruct (Reserve_calm _ _ _ _ _ _ Hinv Hc Hlog Ha) as [? ->].
  - by destruct (Finalize_calm _ _ _ _ _ _ Hinv Hc Hlog Ha) as [? ->].
  - by destruct (Abort_calm _ _ _ _ _ _ Hinv Hc Hlog Ha) as [? ->].
  - by destruct (Inspect_calm _ _ _ _ _ _ Hinv Hc Hlog Ha) as [? ->].
  - by destruct Hc.
  - by destruct Hc.
Qed.
End LedgerSafety.

Section LedgerReads.
Context `{Primitives}.

Implicit Types (p : DeterministicProvider) (r : deterministicRecord)
  (l : list deterministicRecord).

(** An order in which the iteration may visit the records. *)
Definition visits p l : Prop := l ≡ₚ (map_to_list (pv_records p)).*2.

Lemma visits_elem p l r : visits p l -> r ∈ l <-> exists id, pv_records p !! id = Some r.
Proof.
  intros Hv. unfold visits in Hv. rewrite Hv, list_elem_of_fmap. split.
  - intros [[id r'] [-> Hin]]. exists id. by apply elem_of_map_to_list.
  - intros [id Hl]. exists (id, r). split; [done|]. by apply elem_of_map_to_list.
Qed.

Lemma visits_unique p l a b :
  ledger_inv p -> visits p l -> a ∈ l -> b ∈ l -> dr_sequence a = dr_sequence b -> a = b.
Proof.
  intros Hi Hv Ha Hb Hs. apply (visits_elem p l) in Ha as [i Ha], Hb as [j Hb]; [|done..].
  assert (i = j) as -> by (by eapply (li_unique _ Hi)). congruence.
Qed.

Lemma visits_range p l r : ledger_inv p -> visits p l -> r ∈ l -> 1 <= dr_sequence r <= pv_nextSequence p.
Proof.
  intros Hi Hv Hr. apply (visits_elem p l) in Hr as [i Hr]; [|done].
  by apply (li_records _ Hi) in Hr as [].
Qed.

(** ** The head *)

(** The digest of the newest reservation among [l]. *)
Definition newest_spec (next : Z) l (digest : Digest) : Prop :=
  (exists r, r ∈ l /\ dr_sequence r = next /\
     digest = rv_ReservationDigest (rd_Reservation (dr_record r)))
  \/ ((forall r, r ∈ l -> dr_sequence r <> next) /\ digest = zero_digest).

(** The newest committed record among [l]. *)
Definition newest_committed l (h : Head) : Prop :=
  (exists r t, r ∈ l /\ dr_committed r = Some t /\
     hd_LatestCommittedSequence h = dr_sequence r /\
     hd_LatestCommittedOperationID h = rv_OperationID (rd_Reservation (dr_record r)) /\
     hd_LatestCommittedReceiptDigest h = rc_ReceiptDigest t /\
     hd_LatestCommittedDatabasePoint h = rc_DatabasePoint t /\
     (forall r', r' ∈ l -> dr_committed r' <> None -> dr_sequence r' <= dr_sequence r))
  \/ ((forall r, r ∈ l -> dr_committed r = None) /\
      hd_LatestCommittedSequence h = 0 /\ hd_LatestCommittedOperationID h = uuid_Nil /\
      hd_LatestCommittedReceiptDigest h = zero_digest /\ hd_LatestCommittedDatabasePoint h = None).

Definition head_spec p l (h : Head) : Prop :=
  hd_Epoch h = pv_epoch p /\ hd_LatestReservedSequence h = pv_nextSequence p /\
  newest_spec (pv_nextSequence p) l (hd_LatestReservationDigest h) /\ newest_committed l h.

Lemma head_step_epoch n h r :
  hd_Epoch (head_step n h r) = hd_Epoch h /\
  hd_LatestReservedSequence (head_step n h r) = hd_LatestReservedSequence h.
Proof. unfold head_step. repeat case_goal; done. Qed.

Lemma head_step_digest n h r :
  hd_LatestReservationDigest (head_step n h r) =
  if dr_sequence r =? n then rv_ReservationDigest (rd_Reservation (dr_record r))
  else hd_LatestReservationDigest h.
Proof. unfold head_step, dr_sequence. repeat case_goal; done. Qed.

(** The four fields that describe the newest committed record. *)
Definition committed_part (h : Head) :=
  (hd_LatestCommittedSequence h, hd_LatestCommittedOperationID h,
   hd_LatestCommittedReceiptDigest h, hd_LatestCommittedDatabasePoint h).

Lemma head_step_committed n h r :
  committed_part (head_step n h r) =
  match dr_committed r with
  | None => committed_part h
  | Some t => if dr_sequence r <=? hd_LatestCommittedSequence h then committed_part h
              else (dr_sequence r, rv_OperationID (rd_Reservation (dr_record r)),
                    rc_ReceiptDigest t, rc_DatabasePoint t)
  end.
Proof.
  unfold head_step, dr_committed, dr_sequence, committed_part.
  destruct (rd_TerminalReceipt (dr_record r)) as [t|].
  2: { by destruct (rv_Sequence _ =? n). }
  destruct (rv_Sequence _ =? n); cbn; case_bool_decide; cbn; try done; by case_goal.
Qed.

Lemma newest_committed_step l r h h' :
  1 <= dr_sequence r -> newest_committed l h ->
  committed_part h' = match dr_committed r with
    | None => committed_part h
    | Some t => if dr_sequence r <=? hd_LatestCommittedSequence h then committed_part h
                else (dr_sequence r, rv_OperationID (rd_Reservation (dr_record r)),
                      rc_ReceiptDigest t, rc_DatabasePoint t)
    end -> newest_committed (l ++ [r]) h'.
Proof.
  intros Hpos Hl Hh. unfold committed_part in Hh.
  destruct (dr_committed r) as [t|] eqn:Ht.
  2: { simplify_eq. destruct Hl as [(a & ta & Ha & Hta & K1 & K2 & K3 & K4 & Hmax)|(Hn & ?&?&?&?)].
    - left. exists a, ta. repeat split; try congruence; [set_solver|].
      intros r' Hr' Hc. apply elem_of_app in Hr' as [?| ->%list_elem_of_singleton]; [auto | congruence].
    - right. repeat split; try congruence.
      intros r' Hr'. apply elem_of_app in Hr' as [?| ->%list_elem_of_singleton]; auto. }
  destruct (dr_sequence r <=? _) eqn:E; bool_props; simplify_eq.
  - destruct Hl as [(a & ta & Ha & Hta & K1 & K2 & K3 & K4 & Hmax)|(Hn & ?&?&?&?)]; [|lia].
    left. exists a, ta. repeat split; try congruence; [set_solver|].
    intros r' Hr' Hc. apply elem_of_app in Hr' as [?| ->%list_elem_of_singleton]; [auto | lia].
  - left. exists r, t. repeat split; try congruence; [set_solver|].
    intros r' Hr' Hc. apply elem_of_app in Hr' as [Hr'| ->%list_elem_of_singleton]; [|lia].
    destruct Hl as [(a & ta & Ha & Hta & K1 & K2 & K3 & K4 & Hmax)|(Hn & ?&?&?&?)].
    + specialize (Hmax r' Hr' Hc). lia.
    + by rewrite (Hn r' Hr') in Hc.
Qed.

Lemma head_loop_spec p l :
  (forall r, r ∈ l -> 1 <= dr_sequence r) -> head_spec p l (head_loop p l).
Proof.
  unfold head_loop. induction l as [|r l IH] using rev_ind; intros Hpos.
  - cbn. repeat split; right; (split; [set_solver | done]).
  - rewrite fold_left_app. cbn [fold_left].
    destruct IH as (He & Hr & Hd & Hc); [set_solver|].
    match goal with |- context [head_step _ ?h r] => set (h0 := h) in * end.
    destruct (head_step_epoch (pv_nextSequence p) h0 r) as [He' Hr'].
    repeat split; [congruence | congruence | |].
    + rewrite head_step_digest. destruct (dr_sequence r =? _) eqn:E; bool_props.
      * left. exists r. set_solver.
      * destruct Hd as [(a & Ha & Hs & Hdig)|[Hn Hz]].
        -- left. exists a. set_solver.
        -- right. split; [|done]. intros a Ha.
           apply elem_of_app in Ha as [?| ->%list_elem_of_singleton]; auto.
    + eapply newest_committed_step; [set_solver | exact Hc | apply head_step_committed].
Qed.

Lemma newest_spec_unique p l d d' :
  ledger_inv p -> visits p l -> newest_spec (pv_nextSequence p) l d ->
  newest_spec (pv_nextSequence p) l d' -> d = d'.
Proof.
  intros Hi Hv [(a & Ha & Has & ->)|[Hn ->]] [(b & Hb & Hbs & ->)|[Hn' ->]]; try done.
  - assert (a = b) as -> by (eapply visits_unique; eauto; congruence). done.
  - by apply Hn' in Ha.
  - by apply Hn in Hb.
Qed.

Lemma newest_committed_unique p l h h' :
  ledger_inv p -> visits p l -> newest_committed l h -> newest_committed l h' ->
  committed_part h = committed_part h'.
Proof.
  unfold committed_part. intros Hi Hv
    [(a & t & Ha & Ht & K1 & K2 & K3 & K4 & Hm)|(Hn & K1 & K2 & K3 & K4)]
    [(b & u & Hb & Hu & G1 & G2 & G3 & G4 & Gm)|(Gn & G1 & G2 & G3 & G4)].
  - assert (a = b) as ->.
    { eapply visits_unique; eauto.
      pose proof (Hm b Hb ltac:(congruence)). pose proof (Gm a Ha ltac:(congruence)). lia. }
    congruence.
  - apply Gn in Ha. congruence.
  - apply Hn in Hb. congruence.
  - congruence.
Qed.

Lemma newest_committed_perm l k h : l ≡ₚ k -> newest_committed l h -> newest_committed k h.
Proof.
  intros Hp [(a & t & Ha & Ht & K1 & K2 & K3 & K4 & Hm)|(Hn & Hrest)].
  - left. exists a, t. rewrite <- Hp. repeat split; try done.
    intros r'. rewrite <- Hp. apply Hm.
  - right. split; [|done]. intros r. rewrite <- Hp. apply Hn.
Qed.

Lemma newest_spec_perm n l k d : l ≡ₚ k -> newest_spec n l d -> newest_spec n k d.
Proof.
  intros Hp [(a & Ha & Hs & Hd)|[Hn Hz]].
  - left. exists a. rewrite <- Hp. eauto.
  - right. split; [|done]. intros r. rewrite <- Hp. apply Hn.
Qed.

(** Whatever order the iteration takes, the head is the same. *)
Lemma head_loop_order p l k :
  ledger_inv p -> visits p l -> visits p k -> head_loop p l = head_loop p k.
Proof.
  intros Hi Hl Hk.
  assert (l ≡ₚ k) as Hp by (unfold visits in *; by rewrite Hl, Hk).
  destruct (head_loop_spec p l) as (E1 & R1 & D1 & C1).
  { intros r Hr. pose proof (visits_range p l r Hi Hl Hr). lia. }
  destruct (head_loop_spec p k) as (E2 & R2 & D2 & C2).
  { intros r Hr. pose proof (visits_range p k r Hi Hk Hr). lia. }
  apply (newest_spec_perm _ _ k) in D1; [|done]. apply (newest_committed_perm _ k) in C1; [|done].
  pose proof (newest_spec_unique _ _ _ _ Hi Hk D1 D2) as HD.
  pose proof (newest_committed_unique _ _ _ _ Hi Hk C1 C2) as HC.
  destruct (head_loop p l), (head_loop p k). unfold committed_part in HC. cbn in *. congruence.
Qed.

(** ** The snapshot *)

#[export] Instance seq_le_total : Total seq_le.
Proof. intros a b. unfold seq_le. lia. Qed.

#[export] Instance seq_le_trans : Transitive seq_le.
Proof. intros a b c. unfold seq_le. lia. Qed.

Definition rec_sequence (r : FenceRecord) : Z := rv_Sequence (rd_Reservation r).

Lemma seqZ_sorted m n : StronglySorted Z.le (seqZ m n).
Proof.
  unfold seqZ. induction (Z.to_nat n) as [|k IH].
  - constructor.
  - rewrite seq_S, fmap_app. apply StronglySorted_app_2; [|done|repeat constructor].
    intros x y (i & -> & Hi%elem_of_seq)%list_elem_of_fmap Hy.
    apply list_elem_of_singleton in Hy. subst. lia.
Qed.

(** The sequence numbers in use are exactly [1 .. next]. *)
Lemma sequences_dense p l :
  ledger_inv p -> visits p l -> map dr_sequence l ≡ₚ seqZ 1 (pv_nextSequence p).
Proof.
  intros Hi Hv. pose proof (li_next _ Hi) as Hn.
  assert (Z.of_nat (length l) = pv_nextSequence p) as Hlen.
  { rewrite <- (li_size _ Hi). unfold visits in Hv. rewrite (Permutation_length Hv).
    rewrite length_fmap, length_map_to_list. done. }
  assert (NoDup l) as Hnd.
  { unfold visits in Hv. rewrite Hv. apply NoDup_fmap_2_strong; [|apply NoDup_map_to_list].
    intros [i a] [j b] Ha Hb Hab. cbn in Hab. subst b.
    apply elem_of_map_to_list in Ha, Hb.
    assert (i = j) as -> by (by eapply (li_unique _ Hi)). done. }
  apply NoDup_Permutation_bis.
  - apply NoDup_ListNoDup. change (map dr_sequence l) with (dr_sequence <$> l).
    apply NoDup_fmap_2_strong; [|done]. intros a b Ha Hb Hs. by eapply visits_unique.
  - change (map dr_sequence l) with (dr_sequence <$> l). rewrite length_fmap, length_seqZ. lia.
  - intros s Hs. apply list_elem_of_In. apply in_map_iff in Hs as (r & <- & Hr).
    apply list_elem_of_In in Hr. apply elem_of_seqZ.
    pose proof (visits_range p l r Hi Hv Hr). lia.
Qed.

Lemma Snapshot_perm l : Snapshot l ≡ₚ map dr_record l.
Proof. unfold Snapshot. apply merge_sort_Permutation. Qed.

Lemma Snapshot_sequences p l :
  ledger_inv p -> visits p l -> map rec_sequence (Snapshot l) = seqZ 1 (pv_nextSequence p).
Proof.
  intros Hi Hv. apply (StronglySorted_unique Z.le).
  - apply (StronglySorted_fmap _ seq_le); [done|].
    apply (StronglySorted_merge_sort seq_le).
  - apply seqZ_sorted.
  - rewrite <- (sequences_dense p l Hi Hv), (Snapshot_perm l). by rewrite map_map.
Qed.
End LedgerReads.
