(* ===== verification/Samples.v ===== *)
(** Concrete values the witnesses of the authority theorems evaluate: one
    instance of the primitives and a few requests. *)
From Stdlib Require Import ZArith Lia Strings.Byte.
From stdpp Require Import base gmap list strings numbers option.
From S2P Require Import Prelude GoStd AuthorityTypes Ledger LedgerSafety.

(** RFC 4122 variant bits and textual form of a UUID; the authority payloads are
    already canonical JSON, on which JCS is the identity. *)
(** A cheap stand-in for the digest: 32 bytes, never zero. *)
Definition sample_sum (m : bytes) : bytes := x01 :: take 31 (rev m ++ repeat x00 31).

Definition sample_lib : Primitives := {|
  Sum256 := sample_sum;
  uuid_variant_rfc4122 u :=
    match u !! 8%nat with Some b => Z.land (byte_to_Z b) 0xc0 =? 0x80 | None => false end;
  uuid_String u :=
    hex_encode (take 4 u) ++ sbytes "-" ++ hex_encode (take 2 (drop 4 u)) ++ sbytes "-" ++
    hex_encode (take 2 (drop 6 u)) ++ sbytes "-" ++ hex_encode (take 2 (drop 8 u)) ++ sbytes "-" ++
    hex_encode (drop 10 u);
  jcs_Transform b := Some b |}.

#[export] Existing Instance sample_lib.

Definition sample_id (n : Z) : UUID := repeat x01 8 ++ [x80] ++ be_bytes 7 n.
Definition sample_digest (n : Z) : Digest := be_bytes 32 (2 ^ 250 + n).

Definition sample_reserve (n : Z) : ReserveRequest :=
  MkReserveRequest (sample_id n) EffectGrantCreate ScopeNode (sample_digest 1).

Definition sample_finalize (n : Z) : FinalizeRequest :=
  MkFinalizeRequest (sample_id n) (sample_digest 2) 7 1 "0/16B3748".

Definition sample_abort (n : Z) : AbortRequest := MkAbortRequest (sample_id n) AbortSuperseded.

Definition sample_ledger0 : DeterministicProvider := MkProvider 1 0 ∅ ∅.
Definition sample_ledger1 : DeterministicProvider :=
  ledger_run (CallReserve CtxLive CtxLive (sample_reserve 1)) sample_ledger0.
Definition sample_ledger2 : DeterministicProvider :=
  ledger_run (CallReserve CtxLive CtxLive (sample_reserve 2)) sample_ledger1.
Definition sample_ledger3 : DeterministicProvider :=
  ledger_run (CallFinalize CtxLive CtxLive (sample_finalize 1)) sample_ledger2.
Definition sample_ledger4 : DeterministicProvider :=
  ledger_run (CallAbort CtxLive CtxLive (sample_abort 2)) sample_ledger3.

Lemma sample_new : NewDeterministicProvider 1 = Ok sample_ledger0.
Proof. reflexivity. Defined.

(** With the program's digest, the two global scopes have the digests the
    repository's tests record. *)
Example global_scope_digests :
  let talenro_lib := Build_Primitives sha256 (@uuid_variant_rfc4122 sample_lib)
                       (@uuid_String sample_lib) (@jcs_Transform sample_lib) in
  bstring (hex_encode (@globalNodeScopeDigest talenro_lib)) =
    "f9911591db5e19d9c4eff72a30b4fd0325416e63d8fb00f8fbd81f0860f6b0a1" /\
  bstring (hex_encode (@globalOperatorScopeDigest talenro_lib)) =
    "128f2a7c781f323050ad3ef1541bfad20b7eb32fb2dfae1ca03d59cf671547c8".
Proof. vm_compute. auto. Qed.
