(* ===== verification/LedgerTheorems.v ===== *)
(** Properties of the authority value types: WAL positions, scopes and versioned
    digests.

    Properties of the authority ledger and of its value types, with witnesses. *)
From Stdlib Require Import ZArith Lia Strings.Byte Sorting.Permutation.
From stdpp Require Import base gmap list strings numbers option sorting relations.
From S2P Require Import Prelude GoStd AuthorityTypes Ledger LedgerSafety Samples.

#[local] Open Scope go_scope.

(** [wal_position_order]: [walPositionLess] orders canonical WAL positions by
    the 64-bit log offset they denote, and answers true (behind) whenever either
    side is not canonical. *)
Theorem wal_position_order a b :
  match walPositionParts a, walPositionParts b with
  | Some (ha, la), Some (hb, lb) =>
      walPositionLess a b = true <-> wal_offset ha la < wal_offset hb lb
  | _, _ => walPositionLess a b = true
  end.
Proof.
  unfold walPositionLess.
  destruct (walPositionParts a) as [[ha la]|] eqn:Ea; [|done].
  destruct (walPositionParts b) as [[hb lb]|] eqn:Eb; [|done].
  apply walPositionParts_Some in Ea as (? & [? ?] & _), Eb as (? & [? ?] & _).
  unfold wal_offset. rewrite orb_true_iff, andb_true_iff, !Z.ltb_lt, Z.eqb_eq. lia.
Qed.

(** [wal_position_canonical]: a position that [canonicalWALPosition] accepts
    denotes two 32-bit halves; its canonical text is a fixed point, parses back to
    exactly those halves, and no other pair has the same text. *)
Theorem wal_position_canonical value c :
  canonicalWALPosition value = Ok c ->
  canonicalWALPosition c = Ok c /\
  exists h l, half h /\ half l /\ walPositionParts c = Some (h, l) /\
    forall h' l', half h' -> half l' -> wal_text h' l' = c -> h' = h /\ l' = l.
Proof.
  intros Hc. split; [by eapply canonicalWALPosition_idem|].
  apply canonicalWALPosition_ok in Hc as (h & l & Hh & Hl & ->).
  exists h, l. rewrite walPositionParts_wal_text by done. repeat split; try apply Hh; try apply Hl.
  all: apply (f_equal walPositionParts) in H1; rewrite !walPositionParts_wal_text in H1 by done;
    congruence.
Qed.

Lemma wal_position_canonical_witness : canonicalWALPosition "0/16B3748" = Ok "0/16B3748".
Proof.
  destruct (wal_position_canonical "00/016B3748" "0/16B3748") as [H _].
  - vm_compute. reflexivity.
  - exact H.
Defined.

(** [scope_digest_partition]: when the two global scope digests differ from
    each other and from zero, a scope digest belongs to exactly one scope kind:
    two valid requests with the same digest have the same scope kind, and a
    request's effect kind is allowed in that scope only. *)
Theorem scope_digest_partition `{Primitives} a b :
  globalNodeScopeDigest <> globalOperatorScopeDigest ->
  ReserveRequest_Validate a = None -> ReserveRequest_Validate b = None ->
  rr_ScopeDigest a = rr_ScopeDigest b ->
  rr_ScopeKind a = rr_ScopeKind b /\ validEffectScope (rr_Kind a) (rr_ScopeKind b) = true.
Proof.
  intros Hne Ha Hb Heq. unfold ReserveRequest_Validate in *.
  case_in Ha; [done|]. case_in Hb; [done|]. bool_props.
  enough (rr_ScopeKind a = rr_ScopeKind b) as Hk by (split; [done | by rewrite <- Hk]).
  unfold validScopeDigest in *. rewrite Heq in *.
  repeat (case_bool_decide; simplify_eq; bool_props; try congruence).
Qed.

Lemma scope_digest_partition_witness :
  validEffectScope EffectGrantCreate ScopeNode = true.
Proof.
  destruct (scope_digest_partition (sample_reserve 1) (sample_reserve 2)) as [_ H].
  - vm_compute. congruence.
  - vm_compute. reflexivity.
  - vm_compute. reflexivity.
  - reflexivity.
  - exact H.
Defined.

(** [versioned_digest_order]: [CompareVersionedDigest] answers Same exactly on
    equal values; Advance is transitive, and its converse is always Rollback, so a
    digest that advanced is never accepted as an advance in reverse. *)
Theorem versioned_digest_order a b c :
  Contracts.comparable a -> Contracts.comparable b -> Contracts.comparable c ->
  (Contracts.CompareVersionedDigest a b = Ok Contracts.ComparisonSame <-> a = b) /\
  (Contracts.CompareVersionedDigest a b = Ok Contracts.ComparisonAdvance ->
   Contracts.CompareVersionedDigest b a = Ok Contracts.ComparisonRollback /\
   (Contracts.CompareVersionedDigest b c = Ok Contracts.ComparisonAdvance ->
    Contracts.CompareVersionedDigest a c = Ok Contracts.ComparisonAdvance)).
Proof.
  intros Ha Hb Hc. split; [split|].
  - intros Hs. unfold Contracts.CompareVersionedDigest in Hs.
    repeat case_in Hs; simplify_eq; bool_props. destruct a, b. cbn in *. congruence.
  - intros <-. destruct (Contracts.CompareVersionedDigest_total a a Ha Ha) as [k Hk].
    rewrite Hk. f_equal. unfold Contracts.CompareVersionedDigest in Hk.
    rewrite !Z.ltb_irrefl, !Z.eqb_refl in Hk.
    rewrite (bool_decide_eq_true_2 (Contracts.vd_Digest a = Contracts.vd_Digest a)) in Hk by done.
    cbn [orb andb] in Hk. repeat case_in Hk; simplify_eq; done.
  - rewrite !Contracts.Compare_advance_iff. intros (_ & _ & Hv & Hq). split.
    + destruct (Contracts.CompareVersionedDigest_total b a Hb Ha) as [k Hk].
      rewrite Hk. f_equal. unfold Contracts.CompareVersionedDigest in Hk.
      rewrite (proj2 (Z.ltb_lt (Contracts.vd_Version a) _)) in Hk by done.
      repeat case_in Hk; simplify_eq; done.
    + intros (_ & _ & Hv' & Hq'). repeat split; try done; try apply Ha; try apply Hc; lia.
Qed.

Lemma versioned_digest_order_witness :
  let v n := Contracts.MkVersionedDigest n n (repeat x01 32) in
  Contracts.CompareVersionedDigest (v 2) (v 1) = Ok Contracts.ComparisonRollback.
Proof.
  intros v. destruct (versioned_digest_order (v 1) (v 2) (v 3)) as [_ H].
  - repeat split; vm_compute; congruence.
  - repeat split; vm_compute; congruence.
  - repeat split; vm_compute; congruence.
  - apply H. vm_compute. reflexivity.
Defined.

Section Theorems.
Context {lib : Primitives}.

(** C32 (ledger_invariant): in every ledger reachable from a new provider by any
    sequence of calls, with any injected failures and cancellations, each record
    is valid and keyed by its operation, its terminal receipt agrees with the
    bound effect and the remembered request, sequence numbers are distinct,
    lie in 1..next, and the number of records equals the last sequence. *)
Theorem ledger_invariant p : reachable p -> ledger_inv p.
Proof. apply reachable_inv. Qed.

(** C1 (ledger_refines_log): the ledger refines the abstract log of fences, call by
    call. A new provider is the empty log; and on every reachable ledger each call,
    with its context, failures and arguments, makes exactly the change of the log
    that it is allowed ([log_call]) and says what the log says: a reservation
    allocates the next sequence number to its own new valid request or repeats the
    number of the same request; a finalization or an abort gives its own pending
    operation the fate it asked for or repeats that same fate, so no fate is ever
    replaced; an inspection tells the fate and the head the last number; a refused
    call changes nothing, and a lost response is that of a change. And nothing is
    refused without a cause: a calm call (live contexts, no failure injected,
    digests that exist) of a method other than [Head] is answered whenever the log
    allows an answer. *)
Theorem ledger_refines_log epoch p0 c p :
  NewDeterministicProvider epoch = Ok p0 -> reachable p ->
  abs p0 = ∅ /\ log_call (abs p) c (ledger_answer c p) (abs (ledger_run c p)) /\
  (calm_call c p -> forall a m, log_call (abs p) c a m -> a <> Refused ->
   ledger_answer c p <> Refused /\ ledger_answer c p <> Lost).
Proof.
  intros Hnew Hr%reachable_inv. split; [|split; [by apply ledger_run_log|intros Hc a m; by apply ledger_calm]].
  unfold NewDeterministicProvider in Hnew. case_in Hnew; simplify_eq. apply fmap_empty.
Qed.

(** [reserve_allocates_next]: reserving a fresh, valid request on a reachable
    ledger with room left succeeds and returns a valid reservation of the
    ledger's epoch with the next sequence number. *)
Theorem reserve_allocates_next q p :
  (forall body, jcs_Transform body <> None) ->
  reachable p -> pv_records p !! rr_OperationID q = None -> pv_failures p = ∅ ->
  ReserveRequest_Validate q = None -> pv_nextSequence p < MaxInt64 ->
  exists rv, (Reserve CtxLive CtxLive q p).1 = Ok rv /\ Reservation_Validate rv = None /\
    rv_Epoch rv = pv_epoch p /\ rv_Sequence rv = pv_nextSequence p + 1 /\
    rv_OperationID rv = rr_OperationID q /\
    pv_nextSequence (Reserve CtxLive CtxLive q p).2 = pv_nextSequence p + 1.
Proof.
  intros Hjcs Hr Hl Hf Hq Hmax. apply reachable_inv in Hr as [Hep Hnx _ _ _].
  unfold Reserve. cbn [contextError].
  unfold consumeBeforeMutationFailure. rewrite consumeFailure_none by (by rewrite Hf).
  rewrite Hl, Hq. rewrite (proj2 (Z.leb_gt MaxInt64 _)) by done. cbn [is_err orb].
  rewrite u64_id by (unfold is_u64, MaxInt64 in *; lia).
  destruct (reservationDigest _) as [digest|e] eqn:Hd.
  2: { unfold reservationDigest, canonicalTranscriptDigest in Hd.
       destruct (jcs_Transform _) eqn:E; [done | by apply Hjcs in E]. }
  assert (Reservation_Validate (MkReservation (rr_OperationID q) (rr_Kind q) (rr_ScopeKind q)
    (rr_ScopeDigest q) (pv_epoch p) (pv_nextSequence p + 1) digest) = None) as Hv.
  { unfold Reservation_Validate. cbn [rv_OperationID rv_Kind rv_ScopeKind rv_ScopeDigest rv_Epoch
      rv_Sequence rv_ReservationDigest].
    replace (MkReserveRequest (rr_OperationID q) (rr_Kind q) (rr_ScopeKind q) (rr_ScopeDigest q))
      with q by (by destruct q).
    rewrite Hq, Hep.
    rewrite (proj2 (validPositiveCoordinate_bounds (pv_nextSequence p + 1))) by lia. cbn [is_err negb orb].
    change (reservationDigest (MkReservation ?a ?b ?c ?d ?e ?f digest))
      with (reservationDigest (MkReservation a b c d e f zero_digest)).
    rewrite Hd. by rewrite bool_decide_eq_true_2. }
  rewrite Hv. cbn [is_err]. unfold consumeAfterMutationFailure.
  rewrite consumeFailure_none by (cbn; by rewrite Hf).
  eexists. repeat split; try done.
Qed.

(** [reserve_exactly_once]: a reservation that took effect, even when its
    response was lost, is returned unchanged by every later retry of the same
    request, whatever calls come in between, without changing the ledger; the
    same operation with a different request is a conflict. *)
Theorem reserve_exactly_once c0 c1 q p res p' p'' :
  Reserve c0 c1 q p = (res, p') -> took_effect res -> calls p' p'' ->
  quiet p'' OperationReserve ->
  exists rv, Reserve CtxLive CtxLive q p'' = (Ok rv, p'') /\
    (forall rv0, res = Ok rv0 -> rv = rv0) /\
    (forall q', rr_OperationID q' = rr_OperationID q -> q' <> q ->
       Reserve CtxLive CtxLive q' p'' = (Err ErrConflict, p'')).
Proof.
  intros Hc Hres Hcalls Hq.
  destruct (Reserve_stored _ _ _ _ _ _ Hc Hres) as (r & Hl & Hreq & Hrv).
  destruct (calls_le _ _ Hcalls) as [_ Hle].
  destruct (Hle _ _ Hl) as (r' & Hl' & Hreq' & Hv' & _).
  exists (rd_Reservation (dr_record r')). split; [|split].
  - rewrite (Reserve_replay q p'' r') by done.
    by rewrite bool_decide_eq_true_2 by congruence.
  - intros rv0 Hok. rewrite Hv'. by apply Hrv.
  - intros q' Hid Hne. rewrite (Reserve_replay q' p'' r') by congruence.
    by rewrite bool_decide_eq_false_2 by congruence.
Qed.

(** C7 (finalize_exactly_once): once a finalization took effect, every retry of
    it returns the same committed receipt, a finalization with other content is a
    conflict and an abort of the operation is a terminal conflict, after any
    further calls and without changing the ledger. *)
Theorem finalize_exactly_once c0 c1 q p res p' p'' :
  reachable p -> Finalize c0 c1 q p = (res, p') -> took_effect res -> calls p' p'' ->
  quiet p'' OperationFinalize -> quiet p'' OperationAbort ->
  exists t, Finalize CtxLive CtxLive q p'' = (Ok t, p'') /\ rc_Status t = StatusCommitted /\
    (forall t0, res = Ok t0 -> t = t0) /\
    (forall q' n', fr_OperationID q' = fr_OperationID q -> normalizeFinalizeRequest q' = Ok n' ->
       normalizeFinalizeRequest q <> Ok n' ->
       Finalize CtxLive CtxLive q' p'' = (Err ErrConflict, p'')) /\
    (forall a, ar_OperationID a = fr_OperationID q ->
       Abort CtxLive CtxLive a p'' = (Err ErrTerminalConflict, p'')).
Proof.
  intros Hr%reachable_inv Hc Hres Hcalls Hqf Hqa.
  destruct (Finalize_stored _ _ _ _ _ _ Hr Hc Hres) as (r & n & t & Hl & Hn & Hf & Ht & Hs & Hok).
  destruct (calls_le _ _ Hcalls) as [_ Hle].
  destruct (Hle _ _ Hl) as (r' & Hl' & _ & _ & Hsame).
  rewrite Hsame in Hl' by congruence.
  exists t. split; [|split; [done|split; [done|split]]].
  - rewrite (Finalize_replay q n p'' r t) by done. by rewrite bool_decide_eq_true_2.
  - intros q' n' Hid Hn' Hne. rewrite (Finalize_replay q' n' p'' r t) by congruence.
    rewrite bool_decide_eq_false_2; [done|]. congruence.
  - intros a Hid. apply (Abort_committed a p'' r t); congruence.
Qed.

(** C8 (abort_exactly_once): once an abort took effect, every retry of it returns
    the same aborted receipt, another abort request is a conflict and a
    finalization of the operation is a terminal conflict, after any further calls
    and without changing the ledger. *)
Theorem abort_exactly_once c0 c1 q p res p' p'' :
  reachable p -> Abort c0 c1 q p = (res, p') -> took_effect res -> calls p' p'' ->
  quiet p'' OperationFinalize -> quiet p'' OperationAbort ->
  exists t, Abort CtxLive CtxLive q p'' = (Ok t, p'') /\ rc_Status t = StatusAborted /\
    (forall t0, res = Ok t0 -> t = t0) /\
    (forall q', ar_OperationID q' = ar_OperationID q -> q' <> q ->
       Abort CtxLive CtxLive q' p'' = (Err ErrConflict, p'')) /\
    (forall f, fr_OperationID f = ar_OperationID q ->
       Finalize CtxLive CtxLive f p'' = (Err ErrTerminalConflict, p'')).
Proof.
  intros Hr%reachable_inv Hc Hres Hcalls Hqf Hqa.
  destruct (Abort_stored _ _ _ _ _ _ Hr Hc Hres) as (r & t & Hl & Hf & Ht & Hs & Hok).
  destruct (calls_le _ _ Hcalls) as [_ Hle].
  destruct (Hle _ _ Hl) as (r' & Hl' & _ & _ & Hsame).
  rewrite Hsame in Hl' by congruence.
  exists t. split; [|split; [done|split; [done|split]]].
  - rewrite (Abort_replay q p'' r t) by done. by rewrite bool_decide_eq_true_2.
  - intros q' Hid Hne. rewrite (Abort_replay q' p'' r t) by congruence.
    rewrite bool_decide_eq_false_2; [done|]. congruence.
  - intros f Hid. apply (Finalize_aborted f p'' r t); congruence.
Qed.

(** [head_order_independent]: on a reachable ledger, [Head] does not depend on
    the order in which the map of records is visited, and describes the newest
    reservation and the committed record with the largest sequence. *)
Theorem head_order_independent p order order' :
  reachable p -> visits p order -> visits p order' ->
  ProviderHead order CtxLive CtxLive p = ProviderHead order' CtxLive CtxLive p /\
  head_spec p order (head_loop p order).
Proof.
  intros Hr%reachable_inv Hv Hv'. split.
  - unfold ProviderHead. cbn [contextError].
    destruct (consumeBeforeMutationFailure OperationHead p) as [b p1] eqn:E.
    pose proof (consumeFailure_same _ _ _ _ _ E) as (He & Hn & Hs).
    destruct b; [done|].
    assert (head_loop p1 order = head_loop p1 order') as ->; [|done].
    assert (forall l, head_loop p1 l = head_loop p l) as Heq
      by (intros l; unfold head_loop; by rewrite He, Hn).
    rewrite !Heq. by apply head_loop_order.
  - apply head_loop_spec. intros r Hin. pose proof (visits_range p order r Hr Hv Hin). lia.
Qed.

(** [snapshot_dense]: the snapshot of a reachable ledger is a permutation of
    its records listed by sequence number, and those numbers are exactly
    1, 2, ..., next. *)
Theorem snapshot_dense p order :
  reachable p -> visits p order ->
  Snapshot order ≡ₚ map dr_record order /\
  map rec_sequence (Snapshot order) = seqZ 1 (pv_nextSequence p).
Proof.
  intros Hr%reachable_inv Hv. split; [apply Snapshot_perm | by apply Snapshot_sequences].
Qed.
End Theorems.

(** ** Witnesses *)

Lemma sample_reachable0 : reachable sample_ledger0.
Proof. apply (reach_new 1). exact sample_new. Defined.
Lemma sample_reachable1 : reachable sample_ledger1.
Proof. exact (reach_call (CallReserve CtxLive CtxLive (sample_reserve 1)) sample_ledger0 sample_reachable0). Defined.
Lemma sample_reachable2 : reachable sample_ledger2.
Proof. exact (reach_call (CallReserve CtxLive CtxLive (sample_reserve 2)) sample_ledger1 sample_reachable1). Defined.
Lemma sample_reachable3 : reachable sample_ledger3.
Proof. exact (reach_call (CallFinalize CtxLive CtxLive (sample_finalize 1)) sample_ledger2 sample_reachable2). Defined.
Lemma sample_reachable4 : reachable sample_ledger4.
Proof. exact (reach_call (CallAbort CtxLive CtxLive (sample_abort 2)) sample_ledger3 sample_reachable3). Defined.

Lemma ledger_invariant_witness :
  ledger_inv sample_ledger4 /\ pv_nextSequence sample_ledger4 = 2.
Proof. split; [apply (ledger_invariant sample_ledger4), sample_reachable4 | vm_compute; reflexivity]. Defined.

Lemma sample_digest t : has_digest (receiptDigest t) /\ receiptDigest t <> Ok zero_digest.
Proof.
  unfold receiptDigest, canonicalTranscriptDigest. cbn [jcs_Transform Sum256 sample_lib]. split; [by eexists|].
  unfold sample_sum, zero_digest. cbn [repeat]. congruence.
Qed.

Lemma sample_abort_calm : calm_call (CallAbort CtxLive CtxLive (sample_abort 2)) sample_ledger3.
Proof. split; [vm_compute; reflexivity|]. split; [done|]. split; [done|]. intros r _. apply sample_digest. Qed.

Lemma ledger_refines_log_witness :
  abs sample_ledger0 = ∅ /\
  log_call (abs sample_ledger3) (CallAbort CtxLive CtxLive (sample_abort 2)) (Fate (Aborted AbortSuperseded)) (abs sample_ledger4) /\
  calm_call (CallAbort CtxLive CtxLive (sample_abort 2)) sample_ledger3 /\
  ledger_answer (CallAbort CtxLive CtxLive (sample_abort 2)) sample_ledger3 <> Refused.
Proof.
  destruct (ledger_refines_log 1 sample_ledger0 (CallAbort CtxLive CtxLive (sample_abort 2)) sample_ledger3 sample_new sample_reachable3)
    as (Hnew & Hcall & Hcalm).
  split; [exact Hnew|]. split; [exact Hcall|]. split; [exact sample_abort_calm|].
  apply (Hcalm sample_abort_calm (Fate (Aborted AbortSuperseded)) (abs sample_ledger4)); [exact Hcall|discriminate].
Defined.

Lemma reserve_allocates_next_witness :
  exists rv, (Reserve CtxLive CtxLive (sample_reserve 2) sample_ledger1).1 = Ok rv /\
    rv_Sequence rv = 2.
Proof.
  destruct (reserve_allocates_next (sample_reserve 2) sample_ledger1) as (rv & H1 & _ & _ & H2 & _).
  - intros body. discriminate.
  - exact sample_reachable1.
  - vm_compute. reflexivity.
  - vm_compute. reflexivity.
  - vm_compute. reflexivity.
  - vm_compute. reflexivity.
  - exists rv. split; [exact H1|]. rewrite H2. vm_compute. reflexivity.
Defined.

Lemma reserve_exactly_once_witness :
  exists rv, Reserve CtxLive CtxLive (sample_reserve 1) sample_ledger4 = (Ok rv, sample_ledger4).
Proof.
  destruct (reserve_exactly_once CtxLive CtxLive (sample_reserve 1) sample_ledger0
    (Reserve CtxLive CtxLive (sample_reserve 1) sample_ledger0).1 sample_ledger1 sample_ledger4)
    as (rv & H & _).
  - apply surjective_pairing.
  - left. eexists. vm_compute. reflexivity.
  - apply (calls_next (CallReserve CtxLive CtxLive (sample_reserve 2))).
    apply (calls_next (CallFinalize CtxLive CtxLive (sample_finalize 1))).
    apply (calls_next (CallAbort CtxLive CtxLive (sample_abort 2))). constructor.
  - vm_compute. reflexivity.
  - exists rv. exact H.
Defined.

Lemma finalize_exactly_once_witness :
  Abort CtxLive CtxLive (sample_abort 1) sample_ledger4 = (Err ErrTerminalConflict, sample_ledger4).
Proof.
  destruct (finalize_exactly_once CtxLive CtxLive (sample_finalize 1) sample_ledger2
    (Finalize CtxLive CtxLive (sample_finalize 1) sample_ledger2).1 sample_ledger3 sample_ledger4)
    as (t & _ & _ & _ & _ & H).
  - exact sample_reachable2.
  - apply surjective_pairing.
  - left. eexists. vm_compute. reflexivity.
  - apply (calls_next (CallAbort CtxLive CtxLive (sample_abort 2))). constructor.
  - vm_compute. reflexivity.
  - vm_compute. reflexivity.
  - apply H. reflexivity.
Defined.

Lemma abort_exactly_once_witness :
  Finalize CtxLive CtxLive (sample_finalize 2) sample_ledger4 =
  (Err ErrTerminalConflict, sample_ledger4).
Proof.
  destruct (abort_exactly_once CtxLive CtxLive (sample_abort 2) sample_ledger3
    (Abort CtxLive CtxLive (sample_abort 2) sample_ledger3).1 sample_ledger4 sample_ledger4)
    as (t & _ & _ & _ & _ & H).
  - exact sample_reachable3.
  - apply surjective_pairing.
  - left. eexists. vm_compute. reflexivity.
  - constructor.
  - vm_compute. reflexivity.
  - vm_compute. reflexivity.
  - apply H. reflexivity.
Defined.

Definition sample_order : list deterministicRecord := (map_to_list (pv_records sample_ledger4)).*2.

Lemma head_order_independent_witness :
  ProviderHead sample_order CtxLive CtxLive sample_ledger4 =
  ProviderHead (rev sample_order) CtxLive CtxLive sample_ledger4.
Proof.
  destruct (head_order_independent sample_ledger4 sample_order (rev sample_order)) as [H _].
  - exact sample_reachable4.
  - unfold visits. reflexivity.
  - unfold visits. symmetry. apply Permutation_rev.
  - exact H.
Defined.

Lemma snapshot_dense_witness : map rec_sequence (Snapshot sample_order) = [1; 2].
Proof.
  destruct (snapshot_dense sample_ledger4 sample_order) as [_ H].
  - exact sample_reachable4.
  - unfold visits. reflexivity.
  - rewrite H. vm_compute. reflexivity.
Defined.
