(* ===== verification/FenceRows.v ===== *)
(** The database mirror of the authority ledger, part one: the table
    [nodecontrol.control_plane_authority_fences] and the conversions of its rows
    in [internal/nodecontrol/authority/postgres_repository.go] and
    [repository.go]. *)
From Stdlib Require Import ZArith Lia Strings.Byte.
From stdpp Require Import base gmap list strings numbers option.
From S2P Require Import Prelude GoStd GoTime AuthorityTypes.

#[local] Open Scope go_scope.

(** ** Values the driver hands to the repository *)

(** [pgtype.Numeric]: [Int * 10^Exp] when valid and finite. *)
Inductive InfinityModifier := Infinity | Finite | NegativeInfinity.

Record Numeric := MkNumeric {
  nu_Int : option Z;
  nu_Exp : Z;
  nu_NaN : bool;
  nu_InfinityModifier : InfinityModifier;
  nu_Valid : bool }.

#[export] Instance InfinityModifier_eq_dec : EqDecision InfinityModifier.
Proof. solve_decision. Defined.

Definition null_numeric : Numeric := MkNumeric None 0 false Finite false.

(** The dynamic type of a column scanned into [any]. *)
Inductive dbvalue :=
| AnyNil
| AnyString (s : string)
| AnyBytes (b : bytes)
| AnyText (t : option string)
| AnyWALPosition (p : WALPosition)
| AnyOther.

(** [requiredLSN != nil] on an interface value. *)
Definition any_set (v : dbvalue) : bool :=
  match v with AnyNil => false | _ => true end.

Record authorityFenceDatabaseRow := MkDatabaseRow {
  fd_OperationID : UUID;
  fd_EffectKind : string;
  fd_ScopeKind : string;
  fd_AuthorityEpoch : Z;
  fd_AuthoritySequence : Z;
  fd_ScopeDigest : bytes;
  fd_ProviderReservationDigest : bytes;
  fd_EffectDigest : option bytes;
  fd_ProviderStatus : string;
  fd_ProviderReceiptDigest : option bytes;
  fd_DbSystemID : Numeric;
  fd_DbTimeline : option Z;
  fd_RequiredLsn : dbvalue;
  fd_AbortReason : option string;
  fd_VisibilityState : string;
  fd_ReservedAt : option time;
  fd_EffectBoundAt : option time;
  fd_TerminalAt : option time }.

(** [current.AbortReason = pgtype.Text{}] *)
Definition clear_abort_reason (row : authorityFenceDatabaseRow) : authorityFenceDatabaseRow :=
  MkDatabaseRow (fd_OperationID row) (fd_EffectKind row) (fd_ScopeKind row)
    (fd_AuthorityEpoch row) (fd_AuthoritySequence row) (fd_ScopeDigest row)
    (fd_ProviderReservationDigest row) (fd_EffectDigest row) (fd_ProviderStatus row)
    (fd_ProviderReceiptDigest row) (fd_DbSystemID row) (fd_DbTimeline row) (fd_RequiredLsn row)
    None (fd_VisibilityState row) (fd_ReservedAt row) (fd_EffectBoundAt row) (fd_TerminalAt row).

(** ** The repository's own types *)

Record DatabaseHead := MkDatabaseHead {
  dh_Epoch : Z;
  dh_RecordCount : Z;
  dh_LatestReservedSequence : Z;
  dh_LatestCommittedSequence : Z;
  dh_PendingCount : Z;
  dh_HasSequenceGap : bool;
  dh_LatestReservationDigest : Digest;
  dh_LatestCommittedOperationID : UUID;
  dh_LatestCommittedReceiptDigest : Digest;
  dh_LatestCommittedDatabasePoint : option DatabasePoint }.

Definition zero_DatabaseHead : DatabaseHead :=
  MkDatabaseHead 0 0 0 0 0 false zero_digest uuid_Nil zero_digest None.

Record AbortClaim := MkAbortClaim { ac_Reason : AbortReason; ac_ClaimedAt : time }.

Record PendingFence := MkPendingFence {
  pf_OperationID : UUID;
  pf_Kind : EffectKind;
  pf_ScopeKind : ScopeKind;
  pf_ScopeDigest : Digest;
  pf_Epoch : Z;
  pf_Sequence : Z;
  pf_ReservationDigest : Digest;
  pf_BoundEffectDigest : option Digest;
  pf_BoundDatabasePoint : option DatabasePoint;
  pf_ReservedAt : time;
  pf_EffectBoundAt : option time;
  pf_AbortClaim : option AbortClaim }.

#[export] Instance DatabaseHead_eq_dec : EqDecision DatabaseHead.
Proof. solve_decision. Defined.
#[export] Instance AbortClaim_eq_dec : EqDecision AbortClaim.
Proof. solve_decision. Defined.

(** [StoredFence] without its persisted outcome, which is read from other tables. *)
Record StoredFence := MkStoredFence {
  sf_Record : FenceRecord;
  sf_AbortClaim : option AbortClaim }.

Record ClaimV1Reservation := MkClaimV1Reservation {
  cl_Reservation : Reservation;
  cl_ProtocolActivationID : UUID }.

(** ** The table *)

Definition ProfileLegacyV6 : string := "legacy_v6".
Definition ProfileClaimV1 : string := "claim_v1".

(** A row of [control_plane_authority_fences] with the columns migration 7 adds;
    a [pg_lsn] is represented by its text. *)
Record FenceRow := MkFenceRow {
  fe_operation_id : UUID;
  fe_effect_kind : string;
  fe_scope_kind : string;
  fe_authority_epoch : Z;
  fe_authority_sequence : Z;
  fe_scope_digest : bytes;
  fe_provider_reservation_digest : bytes;
  fe_effect_digest : option bytes;
  fe_provider_status : string;
  fe_provider_receipt_digest : option bytes;
  fe_db_system_id : option Z;
  fe_db_timeline : option Z;
  fe_required_lsn : option WALPosition;
  fe_abort_reason : option string;
  fe_visibility_state : string;
  fe_reserved_at : time;
  fe_effect_bound_at : option time;
  fe_terminal_at : option time;
  fe_authority_protocol_profile : string;
  fe_abort_claimed_at : option time;
  fe_protocol_activation_id : option UUID }.

#[export] Instance FenceRow_eq_dec : EqDecision FenceRow.
Proof. solve_decision. Defined.

Abbreviation fences := (gmap UUID FenceRow).

(** ** The driver

    [pgx] scans a row into Go values; the library is not part of the repository.
    The repository relies on the scanned number denoting the stored one, the
    scanned position having the stored text, and timestamps denoting the stored
    instant. *)
Class Driver := {
  scan_numeric : Z -> Numeric;
  scan_lsn : WALPosition -> dbvalue;
  scan_time : time -> time }.

Definition numeric_denotes (n : Numeric) (v : Z) : Prop :=
  nu_Valid n = true /\ nu_NaN n = false /\ nu_InfinityModifier n = Finite /\
  -20 <= nu_Exp n <= 20 /\
  exists i, nu_Int n = Some i /\
    (if 0 <=? nu_Exp n then v = i * 10 ^ nu_Exp n else i = v * 10 ^ (- nu_Exp n)).

Class DriverLaws `{Driver} : Prop := {
  scan_numeric_denotes v : 0 < v < 2 ^ 64 -> numeric_denotes (scan_numeric v) v;
  scan_lsn_text p : scan_lsn p = AnyString p \/ scan_lsn p = AnyBytes (sbytes p) \/
                    scan_lsn p = AnyText (Some p) \/ scan_lsn p = AnyWALPosition p;
  scan_time_instant t : t_nanos (scan_time t) = t_nanos t }.

Section Scan.
Context `{Driver}.

Definition scan_optional_numeric (v : option Z) : Numeric :=
  match v with Some v => scan_numeric v | None => null_numeric end.

Definition scan_optional_lsn (v : option WALPosition) : dbvalue :=
  match v with Some v => scan_lsn v | None => AnyNil end.

(** The columns the repository's queries select, as [authorityFenceRowFromGet],
    [authorityFenceRowFromForUpdate] and [authorityFenceRowFromV7] copy them. *)
Definition scan_row (row : FenceRow) : authorityFenceDatabaseRow :=
  MkDatabaseRow (fe_operation_id row) (fe_effect_kind row) (fe_scope_kind row)
    (fe_authority_epoch row) (fe_authority_sequence row) (fe_scope_digest row)
    (fe_provider_reservation_digest row) (fe_effect_digest row) (fe_provider_status row)
    (fe_provider_receipt_digest row) (scan_optional_numeric (fe_db_system_id row))
    (fe_db_timeline row) (scan_optional_lsn (fe_required_lsn row)) (fe_abort_reason row)
    (fe_visibility_state row) (Some (scan_time (fe_reserved_at row)))
    (scan_time <$> fe_effect_bound_at row) (scan_time <$> fe_terminal_at row).
End Scan.

(** ** Conversions of single columns *)

Definition canonicalDatabaseTimestamp (value : time) : time := Truncate (UTC value) Microsecond.

Definition requiredTimestamp (value : time) : time := canonicalDatabaseTimestamp value.

Definition digestBytes (value : Digest) : bytes := value.

Definition exactDigest (value : option bytes) : result auth_err Digest :=
  match value with
  | None => Err ErrInjectedFailure
  | Some value =>
      if negb (len value =? 32) then Err ErrInjectedFailure
      else if value == zero_digest then Err ErrInjectedFailure
      else Ok value
  end.

#[global] Arguments exactDigest : simpl never.

Definition numericFromUint64 (value : Z) : Z := value.

(** [integer.BitLen()] of a non-negative integer. *)
Definition bit_len (z : Z) : Z := if z =? 0 then 0 else Z.log2 z + 1.

Definition uint64FromNumeric (value : Numeric) : option Z :=
  match nu_Int value with
  | None => None
  | Some integer =>
      if negb (nu_Valid value) || nu_NaN value || (nu_InfinityModifier value != Finite) ||
         (nu_Exp value <? -20) || (20 <? nu_Exp value) then None
      else
        let integer := if 0 <? nu_Exp value then integer * 10 ^ nu_Exp value else integer in
        let divisor := 10 ^ (- nu_Exp value) in
        if (nu_Exp value <? 0) && negb (Z.rem integer divisor =? 0) then None
        else
          let integer := if nu_Exp value <? 0 then Z.quot integer divisor else integer in
          if (integer <=? 0) || (64 <? bit_len integer) then None
          else Some (u64 integer)
  end.

Definition walPositionFromDatabase (value : dbvalue) : option WALPosition :=
  let checked position :=
    match canonicalWALPosition position with
    | Err _ => None
    | Ok canonical => if canonical == position then Some canonical else None
    end in
  match value with
  | AnyString typed => checked typed
  | AnyBytes typed => checked (bstring typed)
  | AnyText None => None
  | AnyText (Some typed) => checked typed
  | AnyWALPosition typed => checked typed
  | AnyNil | AnyOther => None
  end.

Definition databasePoint (systemID : Numeric) (timeline : option Z) (requiredLSN : dbvalue) :
  result auth_err DatabasePoint :=
  match uint64FromNumeric systemID, timeline with
  | Some convertedSystemID, Some timeline =>
      if (convertedSystemID =? 0) || (timeline <=? 0) || (2 ^ 32 - 1 <? timeline)
      then Err ErrInjectedFailure
      else match walPositionFromDatabase requiredLSN with
           | None => Err ErrInjectedFailure
           | Some lsn =>
               let point := MkDatabasePoint convertedSystemID (u32 timeline) lsn in
               if is_err (DatabasePoint_Validate point) then Err ErrInjectedFailure else Ok point
           end
  | _, _ => Err ErrInjectedFailure
  end.

Definition bytesEqualDigest (value : bytes) (digest : Digest) : bool :=
  if negb (len value =? len digest) then false
  else forallb (fun p => fst p == snd p) (combine value digest).

Definition equalOptionalAbortReason (left right : option AbortReason) : bool :=
  match left, right with
  | Some l, Some r => l == r
  | _, _ => is_nil left && is_nil right
  end.

Definition receiptsEqual (left right : Receipt) : bool :=
  (rc_Reservation left == rc_Reservation right) && (rc_Status left == rc_Status right) &&
  (rc_ReceiptDigest left == rc_ReceiptDigest right) &&
  equalOptionalDigest (rc_EffectDigest left) (rc_EffectDigest right) &&
  equalOptionalDatabasePoint (rc_DatabasePoint left) (rc_DatabasePoint right) &&
  equalOptionalAbortReason (rc_AbortReason left) (rc_AbortReason right).

(** The effect, database point and binding time of a row, all or none. *)
Definition optionalBinding (effectBytes : option bytes) (systemID : Numeric) (timeline : option Z)
  (requiredLSN : dbvalue) (effectBoundAt : option time) :
  result auth_err (option Digest * option DatabasePoint * option time) :=
  let present := [not_nil effectBytes; nu_Valid systemID; not_nil timeline;
                  any_set requiredLSN; not_nil effectBoundAt] in
  let count := len (List.filter id present) in
  if count =? 0 then Ok (None, None, None)
  else match effectBoundAt with
       | None => Err ErrInjectedFailure
       | Some boundAt =>
           if negb (count =? len present) || IsZero boundAt then Err ErrInjectedFailure
           else match exactDigest effectBytes with
                | Err e => Err e
                | Ok effectDigest =>
                    match databasePoint systemID timeline requiredLSN with
                    | Err e => Err e
                    | Ok point => Ok (Some effectDigest, Some point, Some (UTC boundAt))
                    end
                end
       end.

(** ** Conversions of rows *)
Section Rows.
Context `{Primitives}.

Definition reservationFromRow (operationID : UUID) (effectKind scopeKind : string)
  (epoch sequence : Z) (scopeBytes reservationBytes : bytes) : result auth_err Reservation :=
  if (epoch <=? 0) || (sequence <=? 0) then Err ErrInjectedFailure
  else match exactDigest (Some scopeBytes) with
       | Err e => Err e
       | Ok scopeDigest =>
           match exactDigest (Some reservationBytes) with
           | Err e => Err e
           | Ok reservationDigest =>
               let reservation := MkReservation operationID effectKind scopeKind scopeDigest
                                    (u64 epoch) (u64 sequence) reservationDigest in
               if is_err (Reservation_Validate reservation) then Err ErrInjectedFailure
               else Ok reservation
           end
       end.

Definition abortedReceiptFromRow (reservation : Reservation) (effectDigest : option Digest)
  (point : option DatabasePoint) (reason : AbortReason) (receiptDigest : Digest) :
  result auth_err Receipt :=
  let receipt := MkReceipt reservation None None StatusAborted (Some reason) receiptDigest in
  if ok_err (Receipt_Validate receipt) then Ok receipt
  else if is_nil effectDigest || is_nil point then Err ErrInjectedFailure
  else
    let receipt := MkReceipt reservation effectDigest point StatusAborted (Some reason)
                     receiptDigest in
    if is_err (Receipt_Validate receipt) then Err ErrInjectedFailure else Ok receipt.

(** [value != nil && value.Before(limit)] on an optional time. *)
Definition optional_before (value : option time) (limit : time) : bool :=
  match value with Some t => Before t limit | None => false end.

Definition authorityRecordFromRow (row : authorityFenceDatabaseRow) :
  result auth_err FenceRecord :=
  match reservationFromRow (fd_OperationID row) (fd_EffectKind row) (fd_ScopeKind row)
          (fd_AuthorityEpoch row) (fd_AuthoritySequence row) (fd_ScopeDigest row)
          (fd_ProviderReservationDigest row), fd_ReservedAt row with
  | Ok reservation, Some reservedAt =>
    if IsZero reservedAt then Err ErrInjectedFailure else
    match optionalBinding (fd_EffectDigest row) (fd_DbSystemID row) (fd_DbTimeline row)
            (fd_RequiredLsn row) (fd_EffectBoundAt row) with
    | Err _ => Err ErrInjectedFailure
    | Ok (effectDigest, point, effectBoundAt) =>
      if optional_before effectBoundAt reservedAt then Err ErrInjectedFailure else
      if fd_ProviderStatus row == "reserved"%string then
        if (fd_VisibilityState row != "fence_pending"%string) ||
           not_nil (fd_ProviderReceiptDigest row) || not_nil (fd_AbortReason row) ||
           not_nil (fd_TerminalAt row)
        then Err ErrInjectedFailure
        else Ok (MkRecord reservation effectDigest point None)
      else if fd_ProviderStatus row == "committed"%string then
        match fd_TerminalAt row with
        | None => Err ErrInjectedFailure
        | Some terminalAt =>
          if (fd_VisibilityState row != "active"%string) || is_nil effectDigest ||
             IsZero terminalAt || not_nil (fd_AbortReason row) || Before terminalAt reservedAt
          then Err ErrInjectedFailure
          else match exactDigest (fd_ProviderReceiptDigest row) with
               | Err e => Err e
               | Ok receiptDigest =>
                   let receipt := MkReceipt reservation effectDigest point StatusCommitted None
                                    receiptDigest in
                   if is_err (Receipt_Validate receipt) then Err ErrInjectedFailure
                   else Ok (MkRecord reservation effectDigest point (Some receipt))
               end
        end
      else if fd_ProviderStatus row == "aborted"%string then
        match fd_TerminalAt row, fd_AbortReason row with
        | Some terminalAt, Some reason =>
          if (fd_VisibilityState row != "aborted"%string) || IsZero terminalAt ||
             Before terminalAt reservedAt
          then Err ErrInjectedFailure
          else if is_err (AbortReason_Validate reason) then Err ErrInjectedFailure
          else match exactDigest (fd_ProviderReceiptDigest row) with
               | Err e => Err e
               | Ok receiptDigest =>
                   match abortedReceiptFromRow reservation effectDigest point reason
                           receiptDigest with
                   | Err e => Err e
                   | Ok receipt => Ok (MkRecord reservation effectDigest point (Some receipt))
                   end
               end
        | _, _ => Err ErrInjectedFailure
        end
      else Err ErrInjectedFailure
    end
  | _, _ => Err ErrInjectedFailure
  end.

(** The columns [ListPendingAuthorityFences] selects; it never selects a claim. *)
Definition pendingFenceFromRow (row : authorityFenceDatabaseRow) : result auth_err PendingFence :=
  match reservationFromRow (fd_OperationID row) (fd_EffectKind row) (fd_ScopeKind row)
          (fd_AuthorityEpoch row) (fd_AuthoritySequence row) (fd_ScopeDigest row)
          (fd_ProviderReservationDigest row), fd_ReservedAt row with
  | Ok reservation, Some reservedAt =>
    if IsZero reservedAt then Err ErrInjectedFailure else
    match optionalBinding (fd_EffectDigest row) (fd_DbSystemID row) (fd_DbTimeline row)
            (fd_RequiredLsn row) (fd_EffectBoundAt row) with
    | Err _ => Err ErrInjectedFailure
    | Ok (effectDigest, point, effectBoundAt) =>
      if optional_before effectBoundAt reservedAt then Err ErrInjectedFailure
      else Ok (MkPendingFence (rv_OperationID reservation) (rv_Kind reservation)
                 (rv_ScopeKind reservation) (rv_ScopeDigest reservation) (rv_Epoch reservation)
                 (rv_Sequence reservation) (rv_ReservationDigest reservation) effectDigest point
                 (UTC reservedAt) effectBoundAt None)
    end
  | _, _ => Err ErrInjectedFailure
  end.

Definition reservationMatchesRow (reservation : Reservation) (row : authorityFenceDatabaseRow) :
  bool :=
  (rv_OperationID reservation == fd_OperationID row) &&
  (rv_Kind reservation == fd_EffectKind row) &&
  (rv_ScopeKind reservation == fd_ScopeKind row) &&
  (i64 (rv_Epoch reservation) =? fd_AuthorityEpoch row) &&
  (i64 (rv_Sequence reservation) =? fd_AuthoritySequence row) &&
  bytesEqualDigest (fd_ScopeDigest row) (rv_ScopeDigest reservation) &&
  bytesEqualDigest (fd_ProviderReservationDigest row) (rv_ReservationDigest reservation).

(** The decoding of a whole row with the migration 7 columns. *)
Definition storedFenceFromV7Row `{Driver} (row : FenceRow) : result auth_err StoredFence :=
  let base := scan_row row in
  let decoded claim base :=
    match authorityRecordFromRow base with
    | Err e => Err e
    | Ok record => Ok (MkStoredFence record claim)
    end in
  if fe_authority_protocol_profile row == ProfileLegacyV6 then
    if not_nil (fe_abort_claimed_at row) || not_nil (fe_protocol_activation_id row)
    then Err ErrInjectedFailure else decoded None base
  else if fe_authority_protocol_profile row == ProfileClaimV1 then
    match fe_protocol_activation_id row with
    | None => Err ErrInjectedFailure
    | Some activationID =>
      if negb (validOperationID activationID) ||
         negb (Bool.eqb (not_nil (fe_abort_claimed_at row)) (not_nil (fe_abort_reason row)))
      then Err ErrInjectedFailure
      else match fe_abort_claimed_at row, fe_abort_reason row with
           | Some claimedAt, Some reason =>
               let claimedAt := scan_time claimedAt in
               if is_err (AbortReason_Validate reason) || IsZero claimedAt ||
                  not_nil (fe_effect_digest row)
               then Err ErrInjectedFailure
               else decoded (Some (MkAbortClaim reason (UTC claimedAt)))
                      (if fe_provider_status row == "reserved"%string
                       then clear_abort_reason base else base)
           | _, _ => decoded None base
           end
    end
  else Err ErrInjectedFailure.
End Rows.
