(* ===== verification/FenceStore.v ===== *)
(** The database mirror, part two: the statements of
    [db/queries/nodecontrol_authority.sql] on the fence table and the methods of
    [PostgresRepository] in [internal/nodecontrol/authority/postgres_repository.go]
    that read and change it. *)
From Stdlib Require Import ZArith Lia Strings.Byte Sorting.Permutation.
From stdpp Require Import base gmap list strings numbers option sorting.
From S2P Require Import Prelude GoStd GoTime AuthorityTypes Ledger FenceRows.

#[local] Open Scope go_scope.

(** ** Errors of the database *)

(** What a statement can fail with: [pgx.ErrNoRows], the cancellation errors of
    [context], a unique violation (code 23505), or anything else (a lost
    connection, another constraint, a trigger, a serialization failure). *)
Inductive pg_error := PgNoRows | PgCanceled | PgDeadlineExceeded | PgUniqueViolation | PgOther.

#[export] Instance pg_error_eq_dec : EqDecision pg_error.
Proof. solve_decision. Defined.

(** The environment of one call: what its [n]-th poll of the context observes,
    and the failure its [n]-th statement meets, if any.  The indices follow the
    order of the code. *)
Record env := MkEnv { poll : nat -> ctx_poll; fault : nat -> option pg_error }.

(** Nothing goes wrong. *)
Definition calm : env := MkEnv (fun _ => CtxLive) (fun _ => None).

Definition ctx_done (ctx : ctx_poll) : bool := ctx == CtxDone.

Definition repositoryCancellationError (ctx : ctx_poll) (err : option pg_error) :
  option auth_err :=
  if (err == Some PgCanceled) || (err == Some PgDeadlineExceeded) || ctx_done ctx
  then Some ErrCanceled else None.

(** The repository and its database handle are not nil. *)
Definition repositoryCallError (ctx : ctx_poll) : option auth_err := contextError ctx.

Definition repositoryInputError (ctx : ctx_poll) : auth_err :=
  match repositoryCancellationError ctx None with
  | Some cancellationErr => cancellationErr
  | None => ErrInvalidArgument
  end.

Definition repositoryLookupError (ctx : ctx_poll) (err : pg_error) : auth_err :=
  match repositoryCancellationError ctx (Some err) with
  | Some cancellationErr => cancellationErr
  | None => if err == PgNoRows then ErrNotFound else ErrInjectedFailure
  end.

Definition repositoryDependencyError (ctx : ctx_poll) (err : pg_error) : auth_err :=
  match repositoryCancellationError ctx (Some err) with
  | Some cancellationErr => cancellationErr
  | None => ErrInjectedFailure
  end.

(** ** Constraints of the table *)

Definition octets (n : Z) (v : option bytes) : bool :=
  match v with Some v => len v =? n | None => true end.

Definition null_or {A} (p : A -> bool) (v : option A) : bool :=
  match v with Some v => p v | None => true end.

(** [later IS NULL OR later >= earlier] *)
Definition not_before (later : option time) (earlier : time) : bool :=
  null_or (fun t => negb (Before t earlier)) later.

(** The claim protocol's constraint [ncv7_fence_claim_ck]. *)
Definition claim_check (r : FenceRow) : bool :=
  let status := fe_provider_status r in
  ((fe_authority_protocol_profile r == ProfileLegacyV6) && is_nil (fe_abort_claimed_at r) &&
   is_nil (fe_protocol_activation_id r) &&
   Bool.eqb (status == "aborted"%string) (not_nil (fe_abort_reason r)))
  ||
  ((fe_authority_protocol_profile r == ProfileClaimV1) && not_nil (fe_protocol_activation_id r) &&
   Bool.eqb (is_nil (fe_abort_claimed_at r)) (is_nil (fe_abort_reason r)) &&
   ((status != "aborted"%string) || not_nil (fe_abort_claimed_at r)) &&
   (is_nil (fe_abort_claimed_at r) || is_nil (fe_effect_digest r)) &&
   not_before (fe_abort_claimed_at r) (fe_reserved_at r) &&
   match fe_terminal_at r, fe_abort_claimed_at r with
   | Some terminal, Some claimed => negb (Before terminal claimed)
   | _, _ => true
   end).

(** The CHECK constraints of migration 6 as migration 7 leaves them. *)
Definition row_checks (r : FenceRow) : bool :=
  let status := fe_provider_status r in
  let visibility := fe_visibility_state r in
  ok_err (EffectKind_Validate (fe_effect_kind r)) &&
  ok_err (ScopeKind_Validate (fe_scope_kind r)) &&
  (0 <? fe_authority_epoch r) && (0 <? fe_authority_sequence r) &&
  (len (fe_scope_digest r) =? 32) && (len (fe_provider_reservation_digest r) =? 32) &&
  octets 32 (fe_effect_digest r) && octets 32 (fe_provider_receipt_digest r) &&
  bool_decide (status ∈ ["reserved"%string; "committed"%string; "aborted"%string]) &&
  null_or (fun v => (1 <=? v) && (v <=? 2 ^ 64 - 1)) (fe_db_system_id r) &&
  null_or (fun v => (1 <=? v) && (v <=? 2 ^ 32 - 1)) (fe_db_timeline r) &&
  null_or (fun v => ok_err (AbortReason_Validate v)) (fe_abort_reason r) &&
  bool_decide (visibility ∈ ["fence_pending"%string; "active"%string; "aborted"%string]) &&
  Bool.eqb (is_nil (fe_effect_digest r)) (is_nil (fe_db_system_id r)) &&
  Bool.eqb (is_nil (fe_effect_digest r)) (is_nil (fe_db_timeline r)) &&
  Bool.eqb (is_nil (fe_effect_digest r)) (is_nil (fe_required_lsn r)) &&
  Bool.eqb (is_nil (fe_effect_digest r)) (is_nil (fe_effect_bound_at r)) &&
  ((status != "committed"%string) || not_nil (fe_effect_digest r)) &&
  Bool.eqb (status == "reserved"%string) (is_nil (fe_provider_receipt_digest r)) &&
  Bool.eqb (status == "reserved"%string) (is_nil (fe_terminal_at r)) &&
  Bool.eqb (visibility == "active"%string) (status == "committed"%string) &&
  Bool.eqb (visibility == "aborted"%string) (status == "aborted"%string) &&
  not_before (fe_terminal_at r) (fe_reserved_at r) &&
  not_before (fe_effect_bound_at r) (fe_reserved_at r) &&
  validEffectScope (fe_effect_kind r) (fe_scope_kind r) &&
  claim_check r.

(** The key [(authority_epoch, authority_sequence)] is taken by another row. *)
Definition epoch_sequence_taken (r : FenceRow) (db : fences) : bool :=
  bool_decide (map_Exists (fun _ other =>
    fe_authority_epoch other = fe_authority_epoch r /\
    fe_authority_sequence other = fe_authority_sequence r) db).

(** ** Statements

    Each takes the failure it meets, if any; a failing statement changes nothing. *)

(** [INSERT ... ON CONFLICT (operation_id) DO NOTHING]: the number of rows inserted. *)
Definition insert_fence (failure : option pg_error) (r : FenceRow) (db : fences) :
  result pg_error Z * fences :=
  match failure with
  | Some e => (Err e, db)
  | None =>
      if negb (row_checks r) then (Err PgOther, db)
      else match db !! fe_operation_id r with
           | Some _ => (Ok 0, db)
           | None =>
               if epoch_sequence_taken r db then (Err PgUniqueViolation, db)
               else (Ok 1, <[fe_operation_id r := r]> db)
           end
  end.

(** [UPDATE ... SET ... WHERE operation_id = $1 AND guard]. *)
Definition update_fence (failure : option pg_error) (operationID : UUID)
  (guard : FenceRow -> bool) (change : FenceRow -> FenceRow) (db : fences) :
  result pg_error Z * fences :=
  match failure with
  | Some e => (Err e, db)
  | None =>
      match db !! operationID with
      | Some r =>
          if negb (guard r) then (Ok 0, db)
          else if negb (row_checks (change r)) then (Err PgOther, db)
          else (Ok 1, <[operationID := change r]> db)
      | None => (Ok 0, db)
      end
  end.

(** [SELECT ... WHERE operation_id = $1], with or without [FOR UPDATE]. *)
Definition select_fence (failure : option pg_error) (operationID : UUID) (db : fences) :
  result pg_error FenceRow :=
  match failure with
  | Some e => Err e
  | None => match db !! operationID with Some r => Ok r | None => Err PgNoRows end
  end.

Definition pending_row (reservation : Reservation) (reservedAt : time) (profile : string)
  (activation : option UUID) : FenceRow :=
  MkFenceRow (rv_OperationID reservation) (rv_Kind reservation) (rv_ScopeKind reservation)
    (i64 (rv_Epoch reservation)) (i64 (rv_Sequence reservation))
    (digestBytes (rv_ScopeDigest reservation)) (digestBytes (rv_ReservationDigest reservation))
    None "reserved"%string None None None None None "fence_pending"%string
    (requiredTimestamp reservedAt) None None profile None activation.

Definition InsertAuthorityFencePending failure reservation reservedAt db :=
  insert_fence failure (pending_row reservation reservedAt ProfileLegacyV6 None) db.

Definition InsertClaimV1AuthorityFencePending failure claim reservedAt db :=
  insert_fence failure
    (pending_row (cl_Reservation claim) reservedAt ProfileClaimV1
       (Some (cl_ProtocolActivationID claim))) db.

Definition is_pending (r : FenceRow) : bool :=
  (fe_provider_status r == "reserved"%string) && (fe_visibility_state r == "fence_pending"%string).

Definition bind_row (effectDigest : Digest) (point : DatabasePoint) (boundAt : time)
  (r : FenceRow) : FenceRow :=
  MkFenceRow (fe_operation_id r) (fe_effect_kind r) (fe_scope_kind r) (fe_authority_epoch r)
    (fe_authority_sequence r) (fe_scope_digest r) (fe_provider_reservation_digest r)
    (Some (digestBytes effectDigest)) (fe_provider_status r) (fe_provider_receipt_digest r)
    (Some (numericFromUint64 (dp_SystemID point))) (Some (dp_Timeline point))
    (Some (dp_RequiredLSN point)) (fe_abort_reason r) (fe_visibility_state r) (fe_reserved_at r)
    (Some (requiredTimestamp boundAt)) (fe_terminal_at r) (fe_authority_protocol_profile r)
    (fe_abort_claimed_at r) (fe_protocol_activation_id r).

Definition BindAuthorityFenceEffect failure operationID effectDigest point boundAt db :=
  update_fence failure operationID
    (fun r => is_pending r && is_nil (fe_effect_digest r))
    (bind_row effectDigest point boundAt) db.

(** Set the terminal columns of a row. *)
Definition terminal_row (status : string) (visibility : string) (receiptDigest : Digest)
  (reason : option AbortReason) (terminalAt : time) (r : FenceRow) : FenceRow :=
  MkFenceRow (fe_operation_id r) (fe_effect_kind r) (fe_scope_kind r) (fe_authority_epoch r)
    (fe_authority_sequence r) (fe_scope_digest r) (fe_provider_reservation_digest r)
    (fe_effect_digest r) status (Some (digestBytes receiptDigest)) (fe_db_system_id r)
    (fe_db_timeline r) (fe_required_lsn r) reason visibility (fe_reserved_at r)
    (fe_effect_bound_at r) (Some (requiredTimestamp terminalAt))
    (fe_authority_protocol_profile r) (fe_abort_claimed_at r) (fe_protocol_activation_id r).

Definition ActivateCommittedAuthorityFence failure operationID receiptDigest terminalAt
  (effectDigest : Digest) (point : DatabasePoint) db :=
  update_fence failure operationID
    (fun r => is_pending r &&
              (fe_effect_digest r == Some (digestBytes effectDigest)) &&
              (fe_db_system_id r == Some (numericFromUint64 (dp_SystemID point))) &&
              (fe_db_timeline r == Some (dp_Timeline point)) &&
              (fe_required_lsn r == Some (dp_RequiredLSN point)))
    (fun r => terminal_row "committed" "active" receiptDigest (fe_abort_reason r) terminalAt r) db.

Definition AbortAuthorityFence failure operationID receiptDigest (reason : AbortReason)
  terminalAt db :=
  update_fence failure operationID is_pending
    (terminal_row "aborted" "aborted" receiptDigest (Some reason) terminalAt) db.

Definition claim_row (reason : AbortReason) (claimedAt : time) (r : FenceRow) : FenceRow :=
  MkFenceRow (fe_operation_id r) (fe_effect_kind r) (fe_scope_kind r) (fe_authority_epoch r)
    (fe_authority_sequence r) (fe_scope_digest r) (fe_provider_reservation_digest r)
    (fe_effect_digest r) (fe_provider_status r) (fe_provider_receipt_digest r)
    (fe_db_system_id r) (fe_db_timeline r) (fe_required_lsn r) (Some reason)
    (fe_visibility_state r) (fe_reserved_at r) (fe_effect_bound_at r) (fe_terminal_at r)
    (fe_authority_protocol_profile r) (Some (requiredTimestamp claimedAt))
    (fe_protocol_activation_id r).

Definition ClaimAuthorityAbort failure operationID reason claimedAt db :=
  update_fence failure operationID
    (fun r => (fe_authority_protocol_profile r == ProfileClaimV1) && is_pending r &&
              is_nil (fe_effect_digest r) && is_nil (fe_abort_reason r) &&
              is_nil (fe_abort_claimed_at r))
    (claim_row reason claimedAt) db.

(** ** Transactional methods *)
Section Methods.
Context `{Primitives} `{Driver}.

(** [current.X.Valid && current.X.Time.Equal(t)] *)
Definition scanned_at (column : option time) (t : time) : bool :=
  match column with Some c => time_Equal c t | None => false end.

(** [rows != 1] after an update. *)
Definition updated_one (ctx : ctx_poll) (answer : result pg_error Z * fences) :
  option auth_err * fences :=
  match answer with
  | (Err updateErr, db) => (Some (repositoryDependencyError ctx updateErr), db)
  | (Ok rows, db) => (if negb (rows =? 1) then Some ErrConflict else None, db)
  end.

Definition RecordPending (e : env) (reservation : Reservation) (reservedAt : time) (db : fences) :
  option auth_err * fences :=
  let reservedAt := canonicalDatabaseTimestamp reservedAt in
  if is_err (repositoryCallError (poll e 0)) || is_err (Reservation_Validate reservation) ||
     IsZero reservedAt
  then (Some (repositoryInputError (poll e 1)), db)
  else match InsertAuthorityFencePending (fault e 0) reservation reservedAt db with
  | (Err err, db) =>
      (Some match repositoryCancellationError (poll e 2) (Some err) with
            | Some cancellationErr => cancellationErr
            | None => if err == PgUniqueViolation then ErrConflict else ErrInjectedFailure
            end, db)
  | (Ok rows, db) =>
      if rows =? 1 then (None, db)
      else if rows =? 0 then
        match repositoryCancellationError (poll e 3) None with
        | Some cancellationErr => (Some cancellationErr, db)
        | None =>
          match select_fence (fault e 1) (rv_OperationID reservation) db with
          | Err getErr =>
              (Some match repositoryCancellationError (poll e 4) (Some getErr) with
                    | Some cancellationErr => cancellationErr
                    | None => if getErr == PgNoRows then ErrConflict else ErrInjectedFailure
                    end, db)
          | Ok currentRow =>
              let current := scan_row currentRow in
              match authorityRecordFromRow current with
              | Err conversionErr => (Some conversionErr, db)
              | Ok _ =>
                  if scanned_at (fd_ReservedAt current) reservedAt &&
                     reservationMatchesRow reservation current
                  then (None, db) else (Some ErrConflict, db)
              end
          end
        end
      else (Some ErrInjectedFailure, db)
  end.

Definition RecordPendingClaimV1 (e : env) (claim : ClaimV1Reservation) (reservedAt : time)
  (db : fences) : option auth_err * fences :=
  let reservedAt := canonicalDatabaseTimestamp reservedAt in
  if is_err (repositoryCallError (poll e 0)) ||
     is_err (Reservation_Validate (cl_Reservation claim)) ||
     negb (validOperationID (cl_ProtocolActivationID claim)) || IsZero reservedAt
  then (Some (repositoryInputError (poll e 1)), db)
  else match InsertClaimV1AuthorityFencePending (fault e 0) claim reservedAt db with
  | (Err err, db) =>
      (Some match repositoryCancellationError (poll e 2) (Some err) with
            | Some cancellationErr => cancellationErr
            | None => if err == PgUniqueViolation then ErrConflict else ErrInjectedFailure
            end, db)
  | (Ok rows, db) =>
      if rows =? 1 then (None, db)
      else if negb (rows =? 0) then (Some ErrInjectedFailure, db)
      else match select_fence (fault e 1) (rv_OperationID (cl_Reservation claim)) db with
           | Err getErr => (Some (repositoryLookupError (poll e 3) getErr), db)
           | Ok current =>
               match storedFenceFromV7Row current with
               | Err conversionErr => (Some conversionErr, db)
               | Ok stored =>
                   if is_nil (sf_AbortClaim stored) &&
                      scanned_at (Some (scan_time (fe_reserved_at current))) reservedAt &&
                      (fe_authority_protocol_profile current == ProfileClaimV1) &&
                      (fe_protocol_activation_id current == Some (cl_ProtocolActivationID claim)) &&
                      (rd_Reservation (sf_Record stored) == cl_Reservation claim)
                   then (None, db) else (Some ErrConflict, db)
               end
           end
  end.

Definition ClaimAbort (e : env) (operationID : UUID) (reason : AbortReason) (claimedAt : time)
  (db : fences) : option auth_err * fences :=
  let claimedAt := canonicalDatabaseTimestamp claimedAt in
  if is_err (repositoryCallError (poll e 0)) || negb (validOperationID operationID) ||
     is_err (AbortReason_Validate reason) || IsZero claimedAt
  then (Some (repositoryInputError (poll e 1)), db)
  else match select_fence (fault e 0) operationID db with
  | Err err => (Some (repositoryLookupError (poll e 2) err), db)
  | Ok current =>
    match storedFenceFromV7Row current with
    | Err conversionErr => (Some conversionErr, db)
    | Ok stored =>
      if (fe_authority_protocol_profile current != ProfileClaimV1) ||
         is_nil (fe_protocol_activation_id current)
      then (Some ErrConflict, db)
      else if not_nil (rd_TerminalReceipt (sf_Record stored)) ||
              not_nil (rd_BoundEffectDigest (sf_Record stored))
      then (Some ErrTerminalConflict, db)
      else match sf_AbortClaim stored with
           | Some claim =>
               if (ac_Reason claim == reason) && time_Equal (ac_ClaimedAt claim) claimedAt
               then (None, db) else (Some ErrConflict, db)
           | None =>
               updated_one (poll e 3)
                 (ClaimAuthorityAbort (fault e 1) operationID reason claimedAt db)
           end
    end
  end.

(** [current.ProviderStatus == "reserved" && current.AbortReason.Valid] *)
Definition abort_claimed (current : authorityFenceDatabaseRow) : bool :=
  (fd_ProviderStatus current == "reserved"%string) && not_nil (fd_AbortReason current).

Definition BindEffect (e : env) (operationID : UUID) (effectDigest : Digest)
  (point : DatabasePoint) (effectBoundAt : time) (db : fences) : option auth_err * fences :=
  let effectBoundAt := canonicalDatabaseTimestamp effectBoundAt in
  if is_err (repositoryCallError (poll e 0)) || negb (validOperationID operationID) ||
     (effectDigest == zero_digest) || is_err (DatabasePoint_Validate point) ||
     IsZero effectBoundAt
  then (Some (repositoryInputError (poll e 1)), db)
  else match select_fence (fault e 0) operationID db with
  | Err err => (Some (repositoryLookupError (poll e 2) err), db)
  | Ok currentRow =>
    let current := scan_row currentRow in
    if abort_claimed current then (Some ErrTerminalConflict, db) else
    match authorityRecordFromRow current with
    | Err conversionErr => (Some conversionErr, db)
    | Ok record =>
      if match rd_TerminalReceipt record with
         | Some t => rc_Status t == StatusAborted | None => false end
      then (Some ErrTerminalConflict, db)
      else match rd_BoundEffectDigest record with
           | Some bound =>
               if (bound == effectDigest) && (rd_BoundDatabasePoint record == Some point) &&
                  scanned_at (fd_EffectBoundAt current) effectBoundAt
               then (None, db) else (Some ErrConflict, db)
           | None =>
               if not_nil (rd_TerminalReceipt record) ||
                  (fd_ProviderStatus current != "reserved"%string) ||
                  (fd_VisibilityState current != "fence_pending"%string)
               then (Some ErrTerminalConflict, db)
               else updated_one (poll e 3)
                      (BindAuthorityFenceEffect (fault e 1) operationID effectDigest point
                         effectBoundAt db)
           end
    end
  end.

Definition ActivateCommitted (e : env) (receipt : Receipt) (terminalAt : time) (db : fences) :
  option auth_err * fences :=
  let terminalAt := canonicalDatabaseTimestamp terminalAt in
  let operationID := rv_OperationID (rc_Reservation receipt) in
  if is_err (repositoryCallError (poll e 0)) || is_err (Receipt_Validate receipt) ||
     (rc_Status receipt != StatusCommitted) || IsZero terminalAt
  then (Some (repositoryInputError (poll e 1)), db)
  else match select_fence (fault e 0) operationID db with
  | Err err => (Some (repositoryLookupError (poll e 2) err), db)
  | Ok currentRow =>
    let current := scan_row currentRow in
    if abort_claimed current then (Some ErrTerminalConflict, db) else
    match authorityRecordFromRow current with
    | Err conversionErr => (Some conversionErr, db)
    | Ok record =>
      if rd_Reservation record != rc_Reservation receipt then (Some ErrConflict, db)
      else match rd_TerminalReceipt record with
      | Some terminal =>
          if rc_Status terminal == StatusAborted then (Some ErrTerminalConflict, db)
          else if receiptsEqual terminal receipt && scanned_at (fd_TerminalAt current) terminalAt
          then (None, db) else (Some ErrConflict, db)
      | None =>
          match rd_BoundEffectDigest record, rc_EffectDigest receipt, rc_DatabasePoint receipt with
          | Some bound, Some effect, Some point =>
              if (bound != effect) || (rd_BoundDatabasePoint record != Some point)
              then (Some ErrConflict, db)
              else updated_one (poll e 3)
                     (ActivateCommittedAuthorityFence (fault e 1) operationID
                        (rc_ReceiptDigest receipt) terminalAt effect point db)
          | _, _, _ => (Some ErrConflict, db)
          end
      end
    end
  end.

Definition RecordAborted (e : env) (receipt : Receipt) (terminalAt : time) (db : fences) :
  option auth_err * fences :=
  let terminalAt := canonicalDatabaseTimestamp terminalAt in
  let operationID := rv_OperationID (rc_Reservation receipt) in
  match rc_AbortReason receipt with
  | None => (Some (repositoryInputError (poll e 1)), db)
  | Some reason =>
  if is_err (repositoryCallError (poll e 0)) || is_err (Receipt_Validate receipt) ||
     (rc_Status receipt != StatusAborted) || IsZero terminalAt
  then (Some (repositoryInputError (poll e 1)), db)
  else match select_fence (fault e 0) operationID db with
  | Err err => (Some (repositoryLookupError (poll e 2) err), db)
  | Ok currentRow =>
    let current := scan_row currentRow in
    if abort_claimed current &&
       match fd_AbortReason current with
       | Some claimedReason =>
           is_err (AbortReason_Validate claimedReason) || (reason != claimedReason)
       | None => false
       end
    then (Some ErrConflict, db) else
    let current := if abort_claimed current then clear_abort_reason current else current in
    match authorityRecordFromRow current with
    | Err conversionErr => (Some conversionErr, db)
    | Ok record =>
      if rd_Reservation record != rc_Reservation receipt then (Some ErrConflict, db)
      else match rd_TerminalReceipt record with
      | Some terminal =>
          if rc_Status terminal == StatusCommitted then (Some ErrTerminalConflict, db)
          else if receiptsEqual terminal receipt && scanned_at (fd_TerminalAt current) terminalAt
          then (None, db) else (Some ErrConflict, db)
      | None =>
          if not_nil (rc_EffectDigest receipt) &&
             ((rd_BoundEffectDigest record != rc_EffectDigest receipt) ||
              (rd_BoundDatabasePoint record != rc_DatabasePoint receipt))
          then (Some ErrConflict, db)
          else updated_one (poll e 3)
                 (AbortAuthorityFence (fault e 1) operationID (rc_ReceiptDigest receipt) reason
                    terminalAt db)
      end
    end
  end
  end.

(** ** Reads *)

(** The database's own identity as [GetNodeControlDatabaseIdentity] scans it. *)
Record IdentityRow := MkIdentityRow {
  id_SystemID : Numeric; id_Timeline : Z; id_RequiredLsn : dbvalue }.

Definition CaptureDatabasePoint (e : env) (identity : IdentityRow) :
  result auth_err DatabasePoint :=
  if is_err (repositoryCallError (poll e 0)) then Err (repositoryInputError (poll e 1))
  else match fault e 0 with
       | Some err => Err (repositoryDependencyError (poll e 2) err)
       | None => databasePoint (id_SystemID identity) (Some (id_Timeline identity))
                   (id_RequiredLsn identity)
       end.

Definition Get (e : env) (operationID : UUID) (db : fences) : result auth_err FenceRecord :=
  if is_err (repositoryCallError (poll e 0)) || negb (validOperationID operationID)
  then Err (repositoryInputError (poll e 1))
  else match select_fence (fault e 0) operationID db with
       | Err err => Err (repositoryLookupError (poll e 2) err)
       | Ok row => authorityRecordFromRow (scan_row row)
       end.

(** [ORDER BY authority_sequence]. *)
Definition row_seq_le (a b : FenceRow) : Prop :=
  fe_authority_sequence a <= fe_authority_sequence b.

#[export] Instance row_seq_le_dec a b : Decision (row_seq_le a b) := Z_le_dec _ _.

Definition fence_rows (db : fences) : list FenceRow := map snd (map_to_list db).

Definition epoch_rows (epoch : Z) (db : fences) : list FenceRow :=
  List.filter (fun r => fe_authority_epoch r =? epoch) (fence_rows db).

(** [COALESCE(MAX(column), 0)] of positive columns. *)
Definition max_of (column : FenceRow -> Z) (rows : list FenceRow) : Z :=
  fold_right (fun r m => Z.max (column r) m) 0 rows.

Definition is_active (r : FenceRow) : bool :=
  (fe_provider_status r == "committed"%string) && (fe_visibility_state r == "active"%string).

(** [ORDER BY authority_sequence DESC LIMIT 1]. *)
Definition newest (rows : list FenceRow) : option FenceRow :=
  last (merge_sort row_seq_le rows).

Record HeadRow := MkHeadRow {
  hr_AuthorityEpoch : Z;
  hr_RecordCount : Z;
  hr_LatestReservedSequence : Z;
  hr_LatestCommittedSequence : Z;
  hr_PendingCount : Z;
  hr_ProviderReservationDigest : option bytes;
  hr_LatestCommittedOperationID : option UUID;
  hr_ProviderReceiptDigest : option bytes;
  hr_DbSystemID : Numeric;
  hr_DbTimeline : option Z;
  hr_RequiredLsn : dbvalue;
  hr_HasSequenceGap : bool }.

Definition GetAuthorityFenceHead (db : fences) : HeadRow :=
  let epoch := max_of fe_authority_epoch (fence_rows db) in
  let rows := epoch_rows epoch db in
  let active := List.filter is_active rows in
  let record_count := len rows in
  let latest_reserved := max_of fe_authority_sequence rows in
  let committed := newest active in
  MkHeadRow epoch record_count latest_reserved (max_of fe_authority_sequence active)
    (len (List.filter (fun r => fe_provider_status r == "reserved"%string) rows))
    (fe_provider_reservation_digest <$> newest rows)
    (fe_operation_id <$> committed)
    (committed ≫= fe_provider_receipt_digest)
    (scan_optional_numeric (committed ≫= fe_db_system_id))
    (committed ≫= fe_db_timeline)
    (scan_optional_lsn (committed ≫= fe_required_lsn))
    (negb (record_count =? latest_reserved)).

Definition databaseHeadFromRow (row : HeadRow) : result auth_err DatabaseHead :=
  let uncommitted :=
    is_nil (hr_LatestCommittedOperationID row) && is_nil (hr_ProviderReceiptDigest row) &&
    negb (nu_Valid (hr_DbSystemID row)) && is_nil (hr_DbTimeline row) &&
    negb (any_set (hr_RequiredLsn row)) in
  if (hr_AuthorityEpoch row =? 0) && (hr_RecordCount row =? 0) &&
     (hr_LatestReservedSequence row =? 0) && (hr_LatestCommittedSequence row =? 0) &&
     (hr_PendingCount row =? 0)
  then if not_nil (hr_ProviderReservationDigest row) || negb uncommitted || hr_HasSequenceGap row
       then Err ErrInjectedFailure else Ok zero_DatabaseHead
  else if (hr_AuthorityEpoch row <=? 0) || (hr_RecordCount row <=? 0) ||
          (hr_LatestReservedSequence row <=? 0) || (hr_LatestCommittedSequence row <? 0) ||
          (hr_PendingCount row <? 0) || (hr_RecordCount row <? hr_PendingCount row) ||
          (hr_LatestReservedSequence row <? hr_LatestCommittedSequence row) ||
          negb (Bool.eqb (hr_HasSequenceGap row)
                  (negb (hr_RecordCount row =? hr_LatestReservedSequence row)))
  then Err ErrInjectedFailure
  else match exactDigest (hr_ProviderReservationDigest row) with
  | Err e => Err e
  | Ok reservationDigest =>
    let head committedID receiptDigest point :=
      MkDatabaseHead (u64 (hr_AuthorityEpoch row)) (u64 (hr_RecordCount row))
        (u64 (hr_LatestReservedSequence row)) (u64 (hr_LatestCommittedSequence row))
        (u64 (hr_PendingCount row)) (hr_HasSequenceGap row) reservationDigest committedID
        receiptDigest point in
    if hr_LatestCommittedSequence row =? 0 then
      if negb uncommitted then Err ErrInjectedFailure
      else Ok (head uuid_Nil zero_digest None)
    else match hr_LatestCommittedOperationID row with
    | None => Err ErrInjectedFailure
    | Some committedID =>
        if negb (validOperationID committedID) then Err ErrInjectedFailure
        else match exactDigest (hr_ProviderReceiptDigest row) with
        | Err e => Err e
        | Ok receiptDigest =>
            match databasePoint (hr_DbSystemID row) (hr_DbTimeline row) (hr_RequiredLsn row) with
            | Err e => Err e
            | Ok point => Ok (head committedID receiptDigest (Some point))
            end
        end
    end
  end.

(** The method [Head] of the repository. *)
Definition RepositoryHead (e : env) (db : fences) : result auth_err DatabaseHead :=
  if is_err (repositoryCallError (poll e 0)) then Err (repositoryInputError (poll e 1))
  else match fault e 0 with
       | Some err => Err (repositoryDependencyError (poll e 2) err)
       | None => databaseHeadFromRow (GetAuthorityFenceHead db)
       end.

Definition ListPendingAuthorityFences (epoch : Z) (db : fences) : list FenceRow :=
  merge_sort row_seq_le (List.filter is_pending (epoch_rows epoch db)).

(** The loop of [ListPending] over the selected rows. *)
Fixpoint list_pending_loop (epoch previousSequence : Z) (rows : list authorityFenceDatabaseRow) :
  result auth_err (list PendingFence) :=
  match rows with
  | [] => Ok []
  | row :: rows =>
      match pendingFenceFromRow row with
      | Err _ => Err ErrInjectedFailure
      | Ok pending =>
          if negb (pf_Epoch pending =? epoch) || (pf_Sequence pending <=? previousSequence)
          then Err ErrInjectedFailure
          else match list_pending_loop epoch (pf_Sequence pending) rows with
               | Err e => Err e
               | Ok result => Ok (pending :: result)
               end
      end
  end.

Definition ListPending (e : env) (epoch : Z) (db : fences) : result auth_err (list PendingFence) :=
  if is_err (repositoryCallError (poll e 0)) || negb (validPositiveCoordinate epoch)
  then Err (repositoryInputError (poll e 1))
  else match fault e 0 with
       | Some err => Err (repositoryDependencyError (poll e 2) err)
       | None => list_pending_loop epoch 0
                   (map scan_row (ListPendingAuthorityFences (i64 epoch) db))
       end.

Definition GetCommittedNodeCheckpoint (epoch : Z) (nodeScopeDigest : bytes) (db : fences) :
  option FenceRow :=
  newest (List.filter
    (fun r => is_active r &&
       ((fe_scope_kind r == "global_node_trust"%string) ||
        ((fe_scope_kind r == "node"%string) && (fe_scope_digest r == nodeScopeDigest))))
    (epoch_rows epoch db)).

(** The method [CommittedNodeCheckpoint] of the repository. *)
Definition RepositoryCommittedNodeCheckpoint (e : env) (epoch : Z) (nodeScopeDigest : Digest)
  (db : fences) : result auth_err NodeCheckpoint :=
  if is_err (repositoryCallError (poll e 0)) || negb (validPositiveCoordinate epoch) ||
     negb (validScopeDigest ScopeNode nodeScopeDigest)
  then Err (repositoryInputError (poll e 1))
  else match fault e 0 with
  | Some err =>
      match repositoryCancellationError (poll e 2) (Some err) with
      | Some cancellationErr => Err cancellationErr
      | None => if err == PgNoRows then Ok (MkNodeCheckpoint epoch 0 zero_digest)
                else Err ErrInjectedFailure
      end
  | None =>
      match GetCommittedNodeCheckpoint (i64 epoch) (digestBytes nodeScopeDigest) db with
      | None =>
          match repositoryCancellationError (poll e 2) (Some PgNoRows) with
          | Some cancellationErr => Err cancellationErr
          | None => Ok (MkNodeCheckpoint epoch 0 zero_digest)
          end
      | Some row =>
          if negb (fe_authority_epoch row =? i64 epoch) || (fe_authority_sequence row <=? 0)
          then Err ErrInjectedFailure
          else match exactDigest (fe_provider_receipt_digest row) with
          | Err e => Err e
          | Ok receiptDigest =>
              let checkpoint := MkNodeCheckpoint (u64 (fe_authority_epoch row))
                                  (u64 (fe_authority_sequence row)) receiptDigest in
              if is_err (NodeCheckpoint_Validate checkpoint) then Err ErrInjectedFailure
              else Ok checkpoint
          end
      end
  end.
End Methods.
