(* ===== verification/FenceSafety.v ===== *)
(** The fence table refines an abstract mirror: a map from operations to
    authority records that changes only by recording a reservation, binding an
    effect, and giving a pending operation one terminal receipt. *)
From Stdlib Require Import ZArith Lia Strings.Byte Sorting.Permutation.
From stdpp Require Import base gmap list strings numbers option sorting.
From S2P Require Import Prelude GoStd GoTime AuthorityTypes Ledger LedgerSafety FenceRows FenceStore.

#[local] Open Scope go_scope.

(** ** Decoding columns *)

Lemma exactDigest_ok d : len d = 32 -> d <> zero_digest -> exactDigest (Some d) = Ok d.
Proof.
  intros Hl Hz. unfold exactDigest. rewrite Hl. by rewrite bool_decide_eq_false_2.
Qed.

Lemma exactDigest_inv v d : exactDigest v = Ok d -> v = Some d /\ len d = 32 /\ d <> zero_digest.
Proof.
  unfold exactDigest. intros Hd. repeat case_in Hd; simplify_eq; bool_props. done.
Qed.

Lemma bit_len_64 v : 0 < v < 2 ^ 64 -> bit_len v <= 64.
Proof.
  intros Hv. unfold bit_len. destruct (v =? 0) eqn:E; [lia|].
  assert (Z.log2 v < 64) by (apply Z.log2_lt_pow2; lia). lia.
Qed.

(** Any number the driver may scan for a stored value converts back to it. *)
Lemma uint64FromNumeric_denotes n v :
  numeric_denotes n v -> 0 < v < 2 ^ 64 -> uint64FromNumeric n = Some v.
Proof.
  intros (Hvalid & Hnan & Hfin & [He1 He2] & i & Hi & Hval) Hv.
  unfold uint64FromNumeric. rewrite Hi, Hvalid, Hnan.
  rewrite (bool_decide_eq_true_2 _ Hfin), (proj2 (Z.ltb_ge (nu_Exp n) _)) by done.
  rewrite (proj2 (Z.ltb_ge 20 _)) by done. cbn [orb negb].
  pose proof (bit_len_64 v Hv) as Hb.
  assert (forall w, w = v ->
    (if (w <=? 0) || (64 <? bit_len w) then None else Some (u64 w)) = Some v) as Hout.
  { intros w ->. rewrite (proj2 (Z.leb_gt v 0)), (proj2 (Z.ltb_ge 64 _)) by lia. cbn [orb].
    f_equal. apply u64_id. unfold is_u64. lia. }
  destruct (nu_Exp n <? 0) eqn:Eneg; bool_props.
  - rewrite (proj2 (Z.leb_gt 0 _)) in Hval by lia.
    rewrite (proj2 (Z.ltb_ge 0 _)) by lia.
    assert (0 < 10 ^ (- nu_Exp n)) by (apply Z.pow_pos_nonneg; lia).
    subst i. rewrite Z.rem_mul by lia. cbn [Z.eqb negb andb].
    apply Hout, Z.quot_mul. lia.
  - rewrite (proj2 (Z.leb_le 0 _)) in Hval by lia. cbn [andb]. apply Hout.
    destruct (0 <? nu_Exp n) eqn:Epos; bool_props; [done|].
    replace (nu_Exp n) with 0 in Hval by lia. lia.
Qed.

(** The columns of a bound row and the point they denote. *)
Definition point_in_range (p : DatabasePoint) : Prop :=
  0 < dp_SystemID p < 2 ^ 64 /\ 0 < dp_Timeline p < 2 ^ 32.

Lemma DatabasePoint_Validate_canonical p :
  DatabasePoint_Validate p = None -> canonicalWALPosition (dp_RequiredLSN p) = Ok (dp_RequiredLSN p).
Proof.
  unfold DatabasePoint_Validate. intros Hv. repeat case_in Hv; simplify_eq; bool_props. congruence.
Qed.

Section Decode.
Context `{DL : DriverLaws}.

Lemma walPositionFromDatabase_scan p :
  canonicalWALPosition p = Ok p -> walPositionFromDatabase (scan_lsn p) = Some p.
Proof.
  intros Hc. unfold walPositionFromDatabase.
  destruct (scan_lsn_text p) as [-> | [-> | [-> | ->]]]; rewrite ?bstring_sbytes, Hc;
    by rewrite bool_decide_eq_true_2.
Qed.

Lemma databasePoint_scan p :
  DatabasePoint_Validate p = None -> point_in_range p ->
  databasePoint (scan_numeric (dp_SystemID p)) (Some (dp_Timeline p)) (scan_lsn (dp_RequiredLSN p))
  = Ok p.
Proof.
  intros Hv [Hs Ht]. unfold databasePoint.
  rewrite (uint64FromNumeric_denotes _ (dp_SystemID p)) by (try apply scan_numeric_denotes; done).
  rewrite (proj2 (Z.eqb_neq (dp_SystemID p) 0)), (proj2 (Z.leb_gt (dp_Timeline p) 0)),
    (proj2 (Z.ltb_ge (2 ^ 32 - 1) _)) by lia.
  cbn [orb]. rewrite walPositionFromDatabase_scan by by apply DatabasePoint_Validate_canonical.
  rewrite u32_id by lia. destruct p as [s t l]. cbn in *. by rewrite Hv.
Qed.

Lemma scan_numeric_valid v : 0 < v < 2 ^ 64 -> nu_Valid (scan_numeric v) = true.
Proof. intros Hv. by apply scan_numeric_denotes. Qed.

Lemma scan_lsn_set p : any_set (scan_lsn p) = true.
Proof. by destruct (scan_lsn_text p) as [-> | [-> | [-> | ->]]]. Qed.

Lemma optionalBinding_none : optionalBinding None null_numeric None AnyNil None = Ok (None, None, None).
Proof. done. Qed.

Lemma optionalBinding_scan d p t :
  len d = 32 -> d <> zero_digest -> DatabasePoint_Validate p = None -> point_in_range p ->
  IsZero t = false ->
  optionalBinding (Some d) (scan_numeric (dp_SystemID p)) (Some (dp_Timeline p))
    (scan_lsn (dp_RequiredLSN p)) (Some (scan_time t)) = Ok (Some d, Some p, Some (UTC (scan_time t))).
Proof.
  intros Hl Hz Hp Hr Ht. unfold optionalBinding. cbn [not_nil is_nil].
  rewrite scan_numeric_valid by apply Hr. rewrite scan_lsn_set. cbn [id negb List.filter].
  assert (IsZero (scan_time t) = false) as ->
    by (unfold IsZero in *; by rewrite scan_time_instant).
  cbn [len length Z.of_nat Z.eqb]. rewrite exactDigest_ok, databasePoint_scan by done. done.
Qed.
End Decode.

(** ** Valid receipts *)

Section Receipts.
Context `{Primitives}.

Lemma Receipt_Validate_basic t :
  Receipt_Validate t = None ->
  Reservation_Validate (rc_Reservation t) = None /\ rc_ReceiptDigest t <> zero_digest /\
  (rc_Status t = StatusCommitted \/ rc_Status t = StatusAborted) /\
  is_nil (rc_EffectDigest t) = is_nil (rc_DatabasePoint t).
Proof.
  unfold Receipt_Validate. intros Hv. case_in Hv; [done|]. case_in Hv; [done|]. bool_props.
  match goal with E : Bool.eqb _ _ = true |- _ => apply Bool.eqb_prop in E end.
  clear Hv. repeat split; try done.
  match goal with E : ReceiptStatus_Validate _ = None |- _ =>
    unfold ReceiptStatus_Validate, one_of in E; case_bool_decide as Hin; [|done] end.
  rewrite !elem_of_cons, elem_of_nil in Hin. tauto.
Qed.

Lemma Reservation_Validate_coords rv :
  Reservation_Validate rv = None -> is_i64 (rv_Epoch rv) /\ is_i64 (rv_Sequence rv).
Proof.
  unfold Reservation_Validate. intros Hv. case_in Hv; [done|]. bool_props.
  repeat match goal with H : validPositiveCoordinate _ = true |- _ =>
    apply validPositiveCoordinate_bounds in H end. unfold is_i64, MaxInt64 in *. lia.
Qed.

Lemma Reservation_Validate_id rv :
  Reservation_Validate rv = None -> validOperationID (rv_OperationID rv) = true.
Proof.
  unfold Reservation_Validate. intros Hv. case_in Hv; [done|]. bool_props.
  match goal with E : ReserveRequest_Validate _ = None |- _ =>
    unfold ReserveRequest_Validate in E; case_in E; [done|] end. by bool_props.
Qed.

Lemma Receipt_Validate_committed t :
  Receipt_Validate t = None -> rc_Status t = StatusCommitted ->
  rc_AbortReason t = None /\ exists e p, rc_EffectDigest t = Some e /\ rc_DatabasePoint t = Some p /\
    e <> zero_digest /\ DatabasePoint_Validate p = None.
Proof.
  intros Hv Hs. assert (Hv' := Hv). unfold Receipt_Validate in Hv'. rewrite Hs in Hv'.
  change (bool_decide (StatusCommitted = StatusCommitted)) with true in Hv'. cbv iota in Hv'.
  destruct (rc_EffectDigest t) as [e|] eqn:He, (rc_DatabasePoint t) as [p|] eqn:Hp;
    try (exfalso; repeat case_in Hv'; simplify_eq; done).
  split.
  - destruct (rc_AbortReason t); [|done]. cbn [is_nil not_nil negb orb] in Hv'.
    exfalso. repeat case_in Hv'; simplify_eq; done.
  - destruct (Receipt_Validate_effect t e p Hv He Hp). eauto 7.
Qed.

Lemma Receipt_Validate_aborted t :
  Receipt_Validate t = None -> rc_Status t = StatusAborted ->
  exists reason, rc_AbortReason t = Some reason /\ AbortReason_Validate reason = None.
Proof.
  intros Hv Hs. destruct (rc_AbortReason t) as [reason|] eqn:Hr.
  - exists reason. split; [done|]. by eapply Receipt_Validate_reason.
  - exfalso. unfold Receipt_Validate in Hv. rewrite Hs, Hr in Hv. text_eval. cbv iota in Hv.
    repeat case_in Hv; simplify_eq; done.
Qed.
End Receipts.

(** ** Rows that represent a record *)
(** What the table stands for: the record of each operation. *)
Abbreviation mirror := (gmap UUID FenceRecord).

Section Represent.
Context `{Primitives} `{DL : DriverLaws}.

Record reservation_cols (rv : Reservation) (r : FenceRow) : Prop := {
  rcol_id : fe_operation_id r = rv_OperationID rv;
  rcol_kind : fe_effect_kind r = rv_Kind rv;
  rcol_scope : fe_scope_kind r = rv_ScopeKind rv;
  rcol_epoch : fe_authority_epoch r = rv_Epoch rv;
  rcol_sequence : fe_authority_sequence r = rv_Sequence rv;
  rcol_scope_digest : fe_scope_digest r = rv_ScopeDigest rv;
  rcol_digest : fe_provider_reservation_digest r = rv_ReservationDigest rv;
  rcol_valid : Reservation_Validate rv = None }.

Definition binding_cols (effect : option Digest) (point : option DatabasePoint) (r : FenceRow) : Prop :=
  fe_effect_digest r = effect /\
  fe_db_system_id r = dp_SystemID <$> point /\ fe_db_timeline r = dp_Timeline <$> point /\
  fe_required_lsn r = dp_RequiredLSN <$> point /\
  match effect, point with
  | Some d, Some p => d <> zero_digest /\ DatabasePoint_Validate p = None
  | None, None => True
  | _, _ => False
  end.

(** A receipt whose unbound reading does not validate as well: the row keeps the
    digest of the receipt, not the receipt. *)
Definition unbound (t : Receipt) : Receipt :=
  MkReceipt (rc_Reservation t) None None StatusAborted (rc_AbortReason t) (rc_ReceiptDigest t).

Definition unambiguous (t : Receipt) : Prop :=
  rc_EffectDigest t = None \/ is_err (Receipt_Validate (unbound t)) = true.

(** What the terminal columns say of a record. *)
Definition terminal_cols (rd : FenceRecord) (r : FenceRow) : Prop :=
  match rd_TerminalReceipt rd with
  | None => fe_provider_status r = "reserved"%string /\ fe_visibility_state r = "fence_pending"%string
  | Some t =>
      Receipt_Validate t = None /\ rc_Reservation t = rd_Reservation rd /\
      fe_provider_status r = rc_Status t /\
      fe_provider_receipt_digest r = Some (rc_ReceiptDigest t) /\
      fe_abort_reason r = rc_AbortReason t /\
      null_or (fun t => negb (IsZero t)) (fe_terminal_at r) = true /\
      (rc_Status t = StatusCommitted /\ rc_EffectDigest t = rd_BoundEffectDigest rd /\
         rc_DatabasePoint t = rd_BoundDatabasePoint rd \/
       rc_Status t = StatusAborted /\ unambiguous t /\
         (rc_EffectDigest t = None /\ rc_DatabasePoint t = None \/
          rc_EffectDigest t = rd_BoundEffectDigest rd /\
          rc_DatabasePoint t = rd_BoundDatabasePoint rd))
  end.

Record row_of (rd : FenceRecord) (r : FenceRow) : Prop := {
  row_reservation : reservation_cols (rd_Reservation rd) r;
  row_binding : binding_cols (rd_BoundEffectDigest rd) (rd_BoundDatabasePoint rd) r;
  row_terminal : terminal_cols rd r;
  row_check : row_checks r = true;
  row_reserved_at : IsZero (fe_reserved_at r) = false;
  row_bound_at : null_or (fun t => negb (IsZero t)) (fe_effect_bound_at r) = true;
  row_claimed_at : null_or (fun t => negb (IsZero t)) (fe_abort_claimed_at r) = true;
  row_activation : null_or validOperationID (fe_protocol_activation_id r) = true }.

(** A pending row whose abort is claimed. *)
Definition claimed (r : FenceRow) : bool :=
  (fe_provider_status r == "reserved"%string) && not_nil (fe_abort_reason r).

(** What the constraints of the table give, one by one. *)
Ltac row_facts Hc :=
  unfold row_checks in Hc; cbv zeta in Hc; bool_props;
  repeat match goal with H : Bool.eqb _ _ = true |- _ => apply Bool.eqb_prop in H end.

Lemma row_checks_lengths r :
  row_checks r = true ->
  len (fe_scope_digest r) = 32 /\ len (fe_provider_reservation_digest r) = 32 /\
  octets 32 (fe_effect_digest r) = true /\ octets 32 (fe_provider_receipt_digest r) = true.
Proof. intros Hc. row_facts Hc. done. Qed.

Lemma row_checks_point r s t :
  row_checks r = true -> fe_db_system_id r = Some s -> fe_db_timeline r = Some t ->
  0 < s < 2 ^ 64 /\ 0 < t < 2 ^ 32.
Proof.
  intros Hc Hs Ht. row_facts Hc.
  match goal with H : null_or _ (fe_db_system_id r) = true |- _ => rewrite Hs in H; cbn [null_or] in H end.
  match goal with H : null_or _ (fe_db_timeline r) = true |- _ => rewrite Ht in H; cbn [null_or] in H end.
  bool_props. lia.
Qed.

Lemma row_checks_bound_at r :
  row_checks r = true ->
  is_nil (fe_effect_bound_at r) = is_nil (fe_effect_digest r) /\
  not_before (fe_effect_bound_at r) (fe_reserved_at r) = true.
Proof. intros Hc. row_facts Hc. done. Qed.

Lemma row_checks_terminal r :
  row_checks r = true ->
  is_nil (fe_provider_receipt_digest r) = bool_decide (fe_provider_status r = "reserved"%string) /\
  is_nil (fe_terminal_at r) = bool_decide (fe_provider_status r = "reserved"%string) /\
  bool_decide (fe_visibility_state r = "active"%string) =
    bool_decide (fe_provider_status r = "committed"%string) /\
  bool_decide (fe_visibility_state r = "aborted"%string) =
    bool_decide (fe_provider_status r = "aborted"%string) /\
  not_before (fe_terminal_at r) (fe_reserved_at r) = true.
Proof. intros Hc. row_facts Hc. repeat split; done || congruence. Qed.

Lemma row_checks_claim r : row_checks r = true -> claim_check r = true.
Proof. intros Hc. row_facts Hc. done. Qed.

(** ** Decoding rows *)

Lemma reservationFromRow_cols rv r :
  reservation_cols rv r -> row_checks r = true ->
  reservationFromRow (fe_operation_id r) (fe_effect_kind r) (fe_scope_kind r)
    (fe_authority_epoch r) (fe_authority_sequence r) (fe_scope_digest r)
    (fe_provider_reservation_digest r) =
  if rv_ReservationDigest rv == zero_digest then Err ErrInjectedFailure else Ok rv.
Proof.
  intros [-> -> -> He Hs Hsd Hd Hv] Hc.
  apply row_checks_lengths in Hc as (Hl1 & Hl2 & _).
  rewrite He, Hs, Hsd, Hd in *. unfold reservationFromRow.
  assert (Hv' := Hv). unfold Reservation_Validate in Hv'. case_in Hv'; [done|]. bool_props.
  match goal with H : ReserveRequest_Validate _ = None |- _ =>
    unfold ReserveRequest_Validate in H; case_in H; [done|] end. bool_props.
  repeat match goal with H : validPositiveCoordinate _ = true |- _ =>
    apply validPositiveCoordinate_bounds in H end.
  rewrite (proj2 (Z.leb_gt (rv_Epoch rv) 0)), (proj2 (Z.leb_gt (rv_Sequence rv) 0)) by lia.
  cbn [orb]. rewrite (exactDigest_ok (rv_ScopeDigest rv)) by done.
  case_bool_decide as Hz; [by rewrite Hz|]. rewrite exactDigest_ok by done.
  rewrite !u64_id by (unfold is_u64, MaxInt64 in *; lia).
  destruct rv. cbn in *. by rewrite Hv.
Qed.

Lemma optionalBinding_cols effect point r :
  binding_cols effect point r -> row_checks r = true ->
  null_or (fun t => negb (IsZero t)) (fe_effect_bound_at r) = true ->
  optionalBinding (fe_effect_digest r) (scan_optional_numeric (fe_db_system_id r))
    (fe_db_timeline r) (scan_optional_lsn (fe_required_lsn r)) (scan_time <$> fe_effect_bound_at r)
  = Ok (effect, point, UTC ∘ scan_time <$> fe_effect_bound_at r).
Proof.
  intros (He & Hs & Ht & Hl & Hep) Hc Hz.
  pose proof (row_checks_lengths _ Hc) as (_ & _ & Hlen & _).
  pose proof (row_checks_bound_at _ Hc) as [Hat _].
  destruct effect as [d|], point as [p|]; try done.
  - destruct Hep as [Hd Hp]. cbn in Hs, Ht, Hl.
    pose proof (row_checks_point _ _ _ Hc Hs Ht) as Hr.
    rewrite He in Hat, Hlen. rewrite He, Hs, Ht, Hl. cbn in Hlen. bool_props.
    destruct (fe_effect_bound_at r) as [t|]; [|done]. cbn in Hz. bool_props.
    cbn [scan_optional_numeric scan_optional_lsn fmap option_fmap option_map].
    by rewrite optionalBinding_scan.
  - rewrite He in Hat. rewrite He, Hs, Ht, Hl. destruct (fe_effect_bound_at r); [done|]. done.
Qed.

Lemma scan_before a b : Before (scan_time a) (scan_time b) = Before a b.
Proof. unfold Before. by rewrite !scan_time_instant. Qed.

Lemma scan_iszero a : IsZero (scan_time a) = IsZero a.
Proof. unfold IsZero. by rewrite scan_time_instant. Qed.

Lemma optional_before_scan o a :
  not_before o a = true -> optional_before (UTC ∘ scan_time <$> o) (scan_time a) = false.
Proof.
  destruct o as [t|]; [|done]. cbn. intros Hn. bool_props.
  unfold Before in *. cbn. by rewrite !scan_time_instant.
Qed.

(** The receipt an aborted row stands for. *)
Lemma abortedReceiptFromRow_cols t reason effect point :
  Receipt_Validate t = None -> rc_Status t = StatusAborted -> rc_AbortReason t = Some reason ->
  unambiguous t ->
  (rc_EffectDigest t = None /\ rc_DatabasePoint t = None \/
   rc_EffectDigest t = effect /\ rc_DatabasePoint t = point) ->
  abortedReceiptFromRow (rc_Reservation t) effect point reason (rc_ReceiptDigest t) = Ok t.
Proof.
  intros Hv Hs Hr Hu Hb. destruct t as [rv e p s a d]. cbn in *. subst s a.
  unfold abortedReceiptFromRow, unambiguous, unbound in *. cbn in *.
  pose proof (Receipt_Validate_basic _ Hv) as (_ & _ & _ & Hep). cbn in Hep.
  destruct e as [e|].
  - destruct Hu as [|Hu]; [done|]. destruct Hb as [[? _]|[<- <-]]; [done|].
    destruct (Receipt_Validate (MkReceipt rv None None _ _ _)); [|done]. cbn [ok_err is_nil orb].
    destruct p; [|done]. cbn [is_nil]. by rewrite Hv.
  - destruct p; [done|]. by rewrite Hv.
Qed.

(** The decoders refuse a reservation digest of zero. *)
Definition readable (rd : FenceRecord) : bool :=
  rv_ReservationDigest (rd_Reservation rd) != zero_digest.

Definition decoded (rd : FenceRecord) : result auth_err FenceRecord :=
  if readable rd then Ok rd else Err ErrInjectedFailure.

(** An unclaimed row decodes to the record it represents. *)
Lemma authorityRecordFromRow_row rd r :
  row_of rd r -> claimed r = false -> authorityRecordFromRow (scan_row r) = decoded rd.
Proof.
  intros [Hrv Hb Ht Hc Hra Hba Hca] Hcl.
  unfold authorityRecordFromRow, scan_row.
  cbn [fd_OperationID fd_EffectKind fd_ScopeKind fd_AuthorityEpoch fd_AuthoritySequence
       fd_ScopeDigest fd_ProviderReservationDigest fd_EffectDigest fd_DbSystemID fd_DbTimeline
       fd_RequiredLsn fd_EffectBoundAt fd_ReservedAt fd_ProviderStatus fd_VisibilityState
       fd_ProviderReceiptDigest fd_AbortReason fd_TerminalAt].
  rewrite (reservationFromRow_cols _ _ Hrv Hc), scan_iszero, Hra. unfold decoded, readable.
  destruct (rv_ReservationDigest (rd_Reservation rd) == zero_digest); [done|]. cbn [negb].
  rewrite (optionalBinding_cols _ _ _ Hb Hc Hba).
  rewrite optional_before_scan by by apply row_checks_bound_at.
  pose proof (row_checks_terminal _ Hc) as (Hpr & Hta & Hva & Hvb & Hord).
  pose proof (row_checks_lengths _ Hc) as (_ & _ & _ & Hlen).
  unfold terminal_cols, claimed in *. destruct rd as [rv e p [t|]]; cbn in *.
  - destruct Ht as (Hv & Hrt & Hs & Hd & Har & Hz & Hcase). subst rv.
    rewrite Hs in *. rewrite Hd in *. cbn in Hlen. bool_props.
    pose proof (Receipt_Validate_basic _ Hv) as (_ & Hnz & _).
    destruct Hcase as [(Hst & <- & <-)|(Hst & Hu & Heff)]; rewrite Hst in *; text_eval; bool_props;
      (destruct (fe_terminal_at r) as [ta|]; [|done]); cbn in Hz, Hord |- *; bool_props; simplify_eq;
      rewrite scan_iszero, scan_before, Hz, Hord, exactDigest_ok by done.
    + rewrite (bool_decide_eq_true_2 (fe_visibility_state r = "active"%string)) by done.
      destruct (Receipt_Validate_committed _ Hv Hst) as (Ha & d & q & He & _).
      rewrite Har, Ha, He. cbn [negb orb not_nil is_nil].
      assert (MkReceipt (rc_Reservation t) (Some d) (rc_DatabasePoint t)
                StatusCommitted None (rc_ReceiptDigest t) = t) as ->
        by (destruct t; cbn in *; congruence).
      by rewrite Hv.
    + rewrite (bool_decide_eq_true_2 (fe_visibility_state r = "aborted"%string)) by done.
      destruct (Receipt_Validate_aborted _ Hv Hst) as (reason & Ha & Hrv').
      rewrite Har, Ha, Hrv'. cbn [negb orb is_err].
      by rewrite (abortedReceiptFromRow_cols t reason e p).
  - destruct Ht as [Hs Hvs]. rewrite Hs, Hvs in *. cbn in *. text_eval.
    destruct (fe_provider_receipt_digest r); [done|]. destruct (fe_terminal_at r); [done|]. cbn.
    by destruct (fe_abort_reason r).
Qed.

(** The claim of a pending row, withdrawn: what the decoder of an abort reads. *)
Definition unclaim (r : FenceRow) : FenceRow :=
  MkFenceRow (fe_operation_id r) (fe_effect_kind r) (fe_scope_kind r) (fe_authority_epoch r)
    (fe_authority_sequence r) (fe_scope_digest r) (fe_provider_reservation_digest r)
    (fe_effect_digest r) (fe_provider_status r) (fe_provider_receipt_digest r)
    (fe_db_system_id r) (fe_db_timeline r) (fe_required_lsn r) None
    (fe_visibility_state r) (fe_reserved_at r) (fe_effect_bound_at r) (fe_terminal_at r)
    (fe_authority_protocol_profile r) None (fe_protocol_activation_id r).

Lemma claimed_status r :
  claimed r = true -> fe_provider_status r = "reserved"%string /\ exists a, fe_abort_reason r = Some a.
Proof. unfold claimed. intros Hc. bool_props. eauto. Qed.

(** A claimed row follows the claim protocol and is not bound. *)
Lemma claimed_profile r :
  row_checks r = true -> claimed r = true ->
  fe_authority_protocol_profile r = ProfileClaimV1 /\ not_nil (fe_abort_claimed_at r) = true /\
  not_nil (fe_protocol_activation_id r) = true /\ fe_effect_digest r = None.
Proof.
  intros Hc (Hs & a & Ha)%claimed_status. apply row_checks_claim in Hc.
  unfold claim_check in Hc. rewrite Hs, Ha in Hc. text_eval. cbn [not_nil is_nil negb Bool.eqb] in Hc.
  rewrite !andb_false_r in Hc. cbn [orb] in Hc. bool_props.
  destruct (fe_abort_claimed_at r); [|done]. cbn in *. bool_props. done.
Qed.

Lemma unclaim_checks r : row_checks r = true -> claimed r = true -> row_checks (unclaim r) = true.
Proof.
  intros Hc Hcl. destruct (claimed_profile _ Hc Hcl) as (Hp & _ & Ha & _).
  apply claimed_status in Hcl as (Hs & _).
  assert (claim_check (unclaim r) = true) as Hck.
  { unfold claim_check. cbn. rewrite Hs, Hp, Ha. text_eval. cbn. by destruct (fe_terminal_at r). }
  unfold row_checks in *. cbn [fe_effect_kind fe_scope_kind fe_authority_epoch
    fe_authority_sequence fe_scope_digest fe_provider_reservation_digest fe_effect_digest
    fe_provider_status fe_provider_receipt_digest fe_db_system_id fe_db_timeline fe_required_lsn
    fe_abort_reason fe_visibility_state fe_reserved_at fe_effect_bound_at fe_terminal_at unclaim] in *.
  cbv zeta in *. rewrite Hck. 
  repeat match goal with H : (_ && _) = true |- _ => apply andb_true_iff in H as [H ?] end.
  cbn [null_or]. repeat (apply andb_true_iff; split); assumption || done.
Qed.

Lemma row_of_unclaim rd r : row_of rd r -> claimed r = true -> row_of rd (unclaim r).
Proof.
  intros [Hrv Hb Ht Hc Hra Hba Hca Hac] Hcl. pose proof (unclaim_checks _ Hc Hcl).
  apply claimed_status in Hcl as (Hs & _).
  constructor; try done.
  - destruct Hrv. by constructor.
  - unfold terminal_cols in *. destruct (rd_TerminalReceipt rd) as [t|]; [|done].
    destruct Ht as (_ & _ & Hst & _ & _ & _ & Hcase). rewrite Hs in Hst.
    destruct Hcase as [[Hst' _]|[Hst' _]]; rewrite Hst' in Hst; by vm_compute in Hst.
Qed.

Lemma authorityRecordFromRow_claimed rd r :
  row_of rd r -> claimed r = true ->
  authorityRecordFromRow (clear_abort_reason (scan_row r)) = decoded rd.
Proof.
  intros Hr Hcl. pose proof (row_of_unclaim _ _ Hr Hcl) as Hu.
  change (clear_abort_reason (scan_row r)) with (scan_row (unclaim r)).
  apply authorityRecordFromRow_row; [done|].
  unfold claimed. cbn [unclaim fe_provider_status fe_abort_reason not_nil is_nil negb].
  apply andb_false_r.
Qed.

(** ** The abstract mirror *)

Definition same_slot (a b : Reservation) : Prop :=
  rv_Epoch a = rv_Epoch b /\ rv_Sequence a = rv_Sequence b.

(** What a step does. *)
Inductive label :=
| LRecord (rv : Reservation)
| LBind (id : UUID) (d : Digest) (p : DatabasePoint)
| LCommit (t : Receipt)
| LAbort (t : Receipt).

Inductive mirror_step (m : mirror) : label -> mirror -> Prop :=
| step_record rv :
    m !! rv_OperationID rv = None -> Reservation_Validate rv = None ->
    (forall id rd, m !! id = Some rd -> ~ same_slot (rd_Reservation rd) rv) ->
    mirror_step m (LRecord rv) (<[rv_OperationID rv := MkRecord rv None None None]> m)
| step_bind id rv d p :
    m !! id = Some (MkRecord rv None None None) ->
    d <> zero_digest -> DatabasePoint_Validate p = None ->
    mirror_step m (LBind id d p) (<[id := MkRecord rv (Some d) (Some p) None]> m)
| step_commit rv e p t :
    m !! rv_OperationID rv = Some (MkRecord rv e p None) ->
    Receipt_Validate t = None -> rc_Status t = StatusCommitted -> rc_Reservation t = rv ->
    rc_EffectDigest t = e -> rc_DatabasePoint t = p ->
    mirror_step m (LCommit t) (<[rv_OperationID rv := MkRecord rv e p (Some t)]> m)
| step_abort rv e p t :
    m !! rv_OperationID rv = Some (MkRecord rv e p None) ->
    Receipt_Validate t = None -> rc_Status t = StatusAborted -> rc_Reservation t = rv ->
    (rc_EffectDigest t = None /\ rc_DatabasePoint t = None \/
     rc_EffectDigest t = e /\ rc_DatabasePoint t = p) ->
    mirror_step m (LAbort t) (<[rv_OperationID rv := MkRecord rv e p (Some t)]> m).

(** Some step. *)
Definition mirror_moves (m m' : mirror) : Prop := exists l, mirror_step m l m'.

(** The table represents a mirror. *)
Definition represents (db : fences) (m : mirror) : Prop :=
  forall id, match db !! id, m !! id with
             | Some r, Some rd => row_of rd r /\ rv_OperationID (rd_Reservation rd) = id
             | None, None => True
             | _, _ => False
             end.

Lemma represents_row db m id r :
  represents db m -> db !! id = Some r -> exists rd, m !! id = Some rd /\ row_of rd r /\
    rv_OperationID (rd_Reservation rd) = id.
Proof.
  intros Hr Hl. specialize (Hr id). rewrite Hl in Hr. destruct (m !! id); [|done]. naive_solver.
Qed.

Lemma represents_record db m id rd :
  represents db m -> m !! id = Some rd -> exists r, db !! id = Some r /\ row_of rd r.
Proof.
  intros Hr Hl. specialize (Hr id). rewrite Hl in Hr. destruct (db !! id); [|done]. naive_solver.
Qed.

Lemma represents_none db m id : represents db m -> db !! id = None -> m !! id = None.
Proof. intros Hr Hl. specialize (Hr id). rewrite Hl in Hr. by destruct (m !! id). Qed.

Lemma represents_insert db m id r rd :
  represents db m -> row_of rd r -> rv_OperationID (rd_Reservation rd) = id ->
  represents (<[id := r]> db) (<[id := rd]> m).
Proof.
  intros Hr Hrow Hid i. destruct (decide (i = id)) as [->|Hne].
  - by rewrite !lookup_insert_eq.
  - rewrite !lookup_insert_ne by done. apply Hr.
Qed.

(** The same mirror, when a row changes but not what it says. *)
Lemma represents_update db m id r rd :
  represents db m -> m !! id = Some rd -> row_of rd r -> represents (<[id := r]> db) m.
Proof.
  intros Hr Hl Hrow. rewrite <- (insert_id m id rd) by done. apply represents_insert; [done..|].
  specialize (Hr id). rewrite Hl in Hr. destruct (db !! id); [|done]. by destruct Hr.
Qed.

(** ** Statements against the mirror *)

Lemma insert_fence_spec failure r db res db' :
  insert_fence failure r db = (res, db') ->
  (db' = db /\ res <> Ok 1 /\ (res = Ok 0 -> is_Some (db !! fe_operation_id r))) \/
  (res = Ok 1 /\ row_checks r = true /\ db !! fe_operation_id r = None /\
   epoch_sequence_taken r db = false /\ db' = <[fe_operation_id r := r]> db).
Proof.
  unfold insert_fence. intros Hi. repeat case_in Hi; simplify_eq; bool_props; auto 10;
    left; repeat split; done.
Qed.

Lemma update_fence_spec failure id guard change db res db' :
  update_fence failure id guard change db = (res, db') ->
  (db' = db /\ res <> Ok 1) \/
  (res = Ok 1 /\ exists r, db !! id = Some r /\ guard r = true /\ row_checks (change r) = true /\
   db' = <[id := change r]> db).
Proof.
  unfold update_fence. intros Hu. repeat case_in Hu; simplify_eq; bool_props; auto. right. eauto 7.
Qed.

Lemma updated_one_spec ctx failure id guard change db err db' :
  updated_one ctx (update_fence failure id guard change db) = (err, db') ->
  (db' = db /\ err <> None) \/
  (err = None /\ exists r, db !! id = Some r /\ guard r = true /\ row_checks (change r) = true /\
   db' = <[id := change r]> db).
Proof.
  intros Hu. destruct (update_fence failure id guard change db) as [res db1] eqn:E.
  apply update_fence_spec in E as [[-> Hne]|(-> & r & Hr)].
  - left. unfold updated_one in Hu. repeat case_in Hu; simplify_eq; bool_props; split; congruence.
  - right. cbn in Hu. destruct Hr as (? & ? & ? & ->). simplify_eq. eauto 7.
Qed.

Lemma IsZero_canonical t : IsZero (requiredTimestamp (canonicalDatabaseTimestamp t)) =
  IsZero (canonicalDatabaseTimestamp t).
Proof.
  unfold requiredTimestamp, canonicalDatabaseTimestamp, IsZero. f_equal. f_equal.
  change (UTC (Truncate (UTC t) Microsecond)) with (Truncate (UTC t) Microsecond).
  apply Truncate_idem.
Qed.

Lemma pending_row_of rv at_ profile activation :
  Reservation_Validate rv = None ->
  IsZero (canonicalDatabaseTimestamp at_) = false ->
  null_or validOperationID activation = true ->
  row_checks (pending_row rv (canonicalDatabaseTimestamp at_) profile activation) = true ->
  row_of (MkRecord rv None None None)
    (pending_row rv (canonicalDatabaseTimestamp at_) profile activation).
Proof.
  intros Hv Hz Ha Hc.
  destruct (Reservation_Validate_coords _ Hv) as [He Hs].
  constructor; try done.
  - constructor; cbn; try done; by apply i64_id.
  - cbn [fe_reserved_at pending_row]. by rewrite IsZero_canonical.
Qed.

(** A pending record as the decoders see it. *)
Lemma row_of_pending rd r :
  row_of rd r -> is_pending r = true -> rd_TerminalReceipt rd = None.
Proof.
  intros [_ _ Ht _ _ _ _ _] Hp. unfold is_pending in Hp. bool_props.
  unfold terminal_cols in Ht. destruct (rd_TerminalReceipt rd) as [t|]; [|done].
  destruct Ht as (_ & _ & Hs & _ & _ & _ & [[Hst _]|[Hst _]]); rewrite Hst in Hs;
    match goal with H : fe_provider_status r = _ |- _ => rewrite H in Hs end; by vm_compute in Hs.
Qed.

Lemma bind_row_of rv d p at_ r :
  row_of (MkRecord rv None None None) r ->
  d <> zero_digest -> DatabasePoint_Validate p = None ->
  IsZero (canonicalDatabaseTimestamp at_) = false ->
  row_checks (bind_row d p (canonicalDatabaseTimestamp at_) r) = true ->
  row_of (MkRecord rv (Some d) (Some p) None) (bind_row d p (canonicalDatabaseTimestamp at_) r).
Proof.
  intros [Hrv Hb Ht _ Hra Hba Hca Hac] Hd Hp Hz Hc. constructor; try done.
  - destruct Hrv. by constructor.
  - cbn [fe_effect_bound_at bind_row null_or]. by rewrite IsZero_canonical, Hz.
Qed.

Lemma terminal_row_of rd r t visibility reason at_ :
  row_of rd r -> rd_TerminalReceipt rd = None ->
  Receipt_Validate t = None -> rc_Reservation t = rd_Reservation rd -> reason = rc_AbortReason t ->
  (rc_Status t = StatusCommitted /\ rc_EffectDigest t = rd_BoundEffectDigest rd /\
     rc_DatabasePoint t = rd_BoundDatabasePoint rd \/
   rc_Status t = StatusAborted /\ unambiguous t /\
     (rc_EffectDigest t = None /\ rc_DatabasePoint t = None \/
      rc_EffectDigest t = rd_BoundEffectDigest rd /\ rc_DatabasePoint t = rd_BoundDatabasePoint rd)) ->
  IsZero (canonicalDatabaseTimestamp at_) = false ->
  row_checks (terminal_row (rc_Status t) visibility (rc_ReceiptDigest t) reason
                (canonicalDatabaseTimestamp at_) r) = true ->
  row_of (MkRecord (rd_Reservation rd) (rd_BoundEffectDigest rd) (rd_BoundDatabasePoint rd) (Some t))
    (terminal_row (rc_Status t) visibility (rc_ReceiptDigest t) reason
       (canonicalDatabaseTimestamp at_) r).
Proof.
  intros [Hrv Hb Ht _ Hra Hba Hca Hac] Hn Hv Hr -> Hcase Hz Hc. constructor; try done.
  - destruct Hrv. by constructor.
  - unfold terminal_cols.
    cbn [rd_TerminalReceipt rd_Reservation rd_BoundEffectDigest rd_BoundDatabasePoint
         fe_provider_status fe_provider_receipt_digest fe_abort_reason fe_terminal_at
         terminal_row null_or].
    rewrite IsZero_canonical, Hz. done.
Qed.

Lemma claim_row_of rd r reason at_ :
  row_of rd r -> is_pending r = true -> IsZero (canonicalDatabaseTimestamp at_) = false ->
  row_checks (claim_row reason (canonicalDatabaseTimestamp at_) r) = true ->
  row_of rd (claim_row reason (canonicalDatabaseTimestamp at_) r).
Proof.
  intros Hr Hp Hz Hc. pose proof (row_of_pending _ _ Hr Hp) as Hn.
  destruct Hr as [Hrv Hb Ht _ Hra Hba Hca Hac]. constructor; try done.
  - destruct Hrv. by constructor.
  - unfold terminal_cols in *. by rewrite Hn in *.
  - cbn [fe_abort_claimed_at claim_row null_or]. by rewrite IsZero_canonical, Hz.
Qed.

(** ** Methods against the mirror *)

(** A method that answers [err]: an error leaves the table alone; success takes
    at most one step of the mirror, the labelled one, and establishes [post]. *)
Definition outcome (l : option label) (post : fences -> mirror -> Prop) (m : mirror) (db : fences)
  (err : option auth_err) (db' : fences) : Prop :=
  match err with
  | Some _ => db' = db
  | None => exists m', represents db' m' /\
      (m' = m \/ exists a, l = Some a /\ mirror_step m a m') /\ post db' m'
  end.

Lemma receiptsEqual_eq a b : receiptsEqual a b = true -> a = b.
Proof.
  unfold receiptsEqual, equalOptionalDigest, equalOptionalDatabasePoint, equalOptionalAbortReason.
  destruct a as [? [?|] [?|] ? [?|] ?], b as [? [?|] [?|] ? [?|] ?]; cbn; intros He;
    bool_props; simplify_eq; try done; congruence.
Qed.

Lemma bytesEqualDigest_eq a b : bytesEqualDigest a b = true -> a = b.
Proof.
  unfold bytesEqualDigest, len. intros He. case_in He; [done|]. bool_props.
  match goal with E : Z.of_nat _ = _ |- _ => apply Nat2Z.inj in E; revert b E He end.
  induction a as [|x a IH]; intros [|y b] Hl He; cbn in *; try done.
  bool_props. f_equal; [done|]. apply IH; [lia|done].
Qed.

Lemma slot_free rv at_ profile activation db m :
  represents db m ->
  epoch_sequence_taken (pending_row rv at_ profile activation) db = false ->
  Reservation_Validate rv = None ->
  forall id rd, m !! id = Some rd -> ~ same_slot (rd_Reservation rd) rv.
Proof.
  intros Hr Ht Hv id rd Hl [He Hs].
  destruct (represents_record _ _ _ _ Hr Hl) as (r & Hlr & [[] _ _ _ _ _ _ _]).
  unfold epoch_sequence_taken in Ht. bool_props. apply Ht. exists id, r. split; [done|].
  cbn. rewrite !i64_id by by apply Reservation_Validate_coords. split; congruence.
Qed.

(** The row an insertion meets or makes, and the record it stands for. *)
Lemma insert_pending_outcome failure rv at_ profile activation db m res db' :
  represents db m -> Reservation_Validate rv = None ->
  IsZero (canonicalDatabaseTimestamp at_) = false -> null_or validOperationID activation = true ->
  insert_fence failure (pending_row rv (canonicalDatabaseTimestamp at_) profile activation) db
    = (res, db') ->
  (db' = db /\ res <> Ok 1) \/
  (res = Ok 1 /\ mirror_step m (LRecord rv) (<[rv_OperationID rv := MkRecord rv None None None]> m) /\
   represents db' (<[rv_OperationID rv := MkRecord rv None None None]> m)).
Proof.
  intros Hr Hv Hz Ha Hi. apply insert_fence_spec in Hi as [(-> & Hne & _)|Hi]; [auto|].
  destruct Hi as (-> & Hc & Hl & Ht & ->). cbn in Hl. right. split; [done|]. split.
  - apply step_record; [by eapply represents_none | done | by eapply slot_free].
  - apply represents_insert; [done | by apply pending_row_of | done].
Qed.

Lemma select_fence_ok failure id db r : select_fence failure id db = Ok r -> db !! id = Some r.
Proof. unfold select_fence. intros Hs. repeat case_in Hs; simplify_eq; done. Qed.

Ltac done_outcome := unfold outcome; simplify_eq; done.

Lemma RecordPending_refines e rv at_ db m err db' :
  represents db m -> RecordPending e rv at_ db = (err, db') ->
  outcome (Some (LRecord rv))
    (fun _ m' => exists rd, m' !! rv_OperationID rv = Some rd /\ rd_Reservation rd = rv)
    m db err db'.
Proof.
  intros Hr. unfold RecordPending. intros Hc. case_in Hc; [done_outcome|]. bool_props.
  unfold InsertAuthorityFencePending in Hc.
  destruct (insert_fence _ _ db) as [res db1] eqn:Hi.
  eapply insert_pending_outcome in Hi as [[-> Hne]|(-> & Hstep & Hr')]; [..|done|done|done|done].
  - destruct res as [n|]; [|done_outcome]. case_in Hc; [by bool_props; subst|].
    case_in Hc; [|done_outcome]. case_in Hc; [done_outcome|]. case_in Hc; [|done_outcome].
    case_in Hc; [|done_outcome]. case_in Hc; [|done_outcome]. simplify_eq. bool_props.
    match goal with E : select_fence _ _ _ = Ok _ |- _ => apply select_fence_ok in E end.
    match goal with E : db' !! _ = Some _ |- _ =>
      destruct (represents_row _ _ _ _ Hr E) as (rd & Hm & [[] _ _ _ _ _ _ _] & Hid) end.
    exists m. split; [done|]. split; [by left|]. exists rd. split; [done|].
    match goal with E : reservationMatchesRow _ _ = true |- _ => rename E into Hmatch end.
    unfold reservationMatchesRow in Hmatch. cbn in Hmatch. bool_props.
    repeat match goal with E : bytesEqualDigest _ _ = true |- _ => apply bytesEqualDigest_eq in E end.
    rewrite i64_id in * by by apply Reservation_Validate_coords. destruct rv, (rd_Reservation rd). cbn in *. congruence.
  - simplify_eq. cbn in Hc. simplify_eq. eexists. split; [done|]. split; [right; eauto|].
    eexists. rewrite lookup_insert_eq. done.
Qed.

(** The whole row decodes to its record and its claim. *)
Lemma storedFenceFromV7Row_row rd r :
  row_of rd r ->
  exists claim, storedFenceFromV7Row r =
      (if readable rd then Ok (MkStoredFence rd claim) else Err ErrInjectedFailure) /\
    (claim = None -> claimed r = false) /\
    (forall c, claim = Some c -> fe_abort_reason r = Some (ac_Reason c) /\
       fe_effect_digest r = None).
Proof.
  intros Hr. assert (Hr' := Hr). destruct Hr as [_ _ Ht Hc _ _ Hca Hac].
  pose proof (row_checks_claim _ Hc) as Hck. unfold storedFenceFromV7Row.
  destruct (fe_authority_protocol_profile r == ProfileLegacyV6) eqn:Hp.
  - bool_props. unfold claim_check in Hck. rewrite Hp in Hck. text_eval.
    cbn [andb orb] in Hck. rewrite orb_false_r in Hck. bool_props.
    match goal with H : Bool.eqb _ _ = true |- _ => apply Bool.eqb_prop in H; rename H into Hab end.
    assert (claimed r = false) as Hcl.
    { unfold claimed. rewrite <- Hab.
      destruct (decide (fe_provider_status r = "reserved"%string)) as [E1|E1];
        [by rewrite E1 | by rewrite bool_decide_eq_false_2]. }
    cbn [not_nil is_nil negb orb]. rewrite (authorityRecordFromRow_row rd r) by done.
    exists None. split; [by unfold decoded; destruct (readable rd)|done].
  - unfold claim_check in Hck. rewrite Hp in Hck. cbn [andb orb] in Hck.
    apply andb_true_iff in Hck as [Hck _]. bool_props.
    match goal with H : fe_authority_protocol_profile r = _ |- _ => rewrite H end. text_eval. cbv iota.
    cbn in Hac. rewrite Hac.
    match goal with H : Bool.eqb _ _ = true |- _ => apply Bool.eqb_prop in H; rename H into Hcr end.
    unfold not_nil. rewrite <- Hcr, Bool.eqb_reflx. cbn [negb orb].
    destruct (fe_abort_claimed_at r) as [at_|] eqn:Hat, (fe_abort_reason r) as [reason|] eqn:Hre;
      try done.
    + assert (AbortReason_Validate reason = None) as ->.
      { clear - Hc Hre. row_facts Hc.
        match goal with H : null_or _ (fe_abort_reason r) = true |- _ => rewrite Hre in H; cbn in H end.
        by bool_props. }
      cbn in Hca. bool_props. rewrite scan_iszero, Hca.
      match goal with H : (is_nil (Some at_) || is_nil _) = true |- _ => cbn in H; bool_props end.
      cbn [is_err orb is_nil negb].
      destruct (fe_provider_status r == "reserved"%string) eqn:Hst.
      * rewrite (authorityRecordFromRow_claimed rd r) by (try done; unfold claimed; by rewrite Hst, Hre).
        eexists. split; [by unfold decoded; destruct (readable rd)|]. split; [done|].
        intros c ?. by simplify_eq.
      * rewrite (authorityRecordFromRow_row rd r) by (try done; unfold claimed; by rewrite Hst).
        eexists. split; [by unfold decoded; destruct (readable rd)|]. split; [done|].
        intros c ?. by simplify_eq.
    + assert (claimed r = false) by (unfold claimed; rewrite Hre; apply andb_false_r).
      rewrite (authorityRecordFromRow_row rd r) by done. exists None.
      split; [by unfold decoded; destruct (readable rd)|done].
Qed.

Lemma RecordPendingClaimV1_refines e cl at_ db m err db' :
  represents db m -> RecordPendingClaimV1 e cl at_ db = (err, db') ->
  outcome (Some (LRecord (cl_Reservation cl)))
    (fun _ m' => exists rd, m' !! rv_OperationID (cl_Reservation cl) = Some rd /\
             rd_Reservation rd = cl_Reservation cl) m db err db'.
Proof.
  intros Hr. unfold RecordPendingClaimV1. intros Hc. case_in Hc; [done_outcome|]. bool_props.
  unfold InsertClaimV1AuthorityFencePending in Hc.
  destruct (insert_fence _ _ db) as [res db1] eqn:Hi.
  eapply insert_pending_outcome in Hi as [[-> Hne]|(-> & Hstep & Hr')]; [..|done|done|done|done].
  - destruct res as [n|]; [|done_outcome]. case_in Hc; [by bool_props; subst|].
    case_in Hc; [done_outcome|]. case_in Hc; [|done_outcome].
    match goal with E : select_fence _ _ _ = Ok _ |- _ => apply select_fence_ok in E as Hl end.
    destruct (represents_row _ _ _ _ Hr Hl) as (rd & Hm & Hrow & Hid).
    destruct (storedFenceFromV7Row_row _ _ Hrow) as (claim & Hst & _). rewrite Hst in Hc.
    destruct (readable rd); [|done_outcome].
    case_in Hc; [|done_outcome]. simplify_eq. bool_props. cbn in *.
    exists m. split; [done|]. split; [by left|]. eauto.
  - simplify_eq. cbn in Hc. simplify_eq. eexists. split; [done|]. split; [right; eauto|].
    eexists. rewrite lookup_insert_eq. done.
Qed.

Lemma ClaimAbort_refines e id reason at_ db m err db' :
  represents db m -> ClaimAbort e id reason at_ db = (err, db') ->
  outcome None (fun db' m' => exists r, db' !! id = Some r /\ claimed r = true /\
             fe_abort_reason r = Some reason) m db err db'.
Proof.
  intros Hr. unfold ClaimAbort. intros Hc. case_in Hc; [done_outcome|]. bool_props.
  case_in Hc; [|done_outcome].
  match goal with E : select_fence _ _ _ = Ok _ |- _ => apply select_fence_ok in E as Hl end.
  destruct (represents_row _ _ _ _ Hr Hl) as (rd & Hm & Hrow & Hid).
  destruct (storedFenceFromV7Row_row _ _ Hrow) as (claim & Hst & _ & Hclaim). rewrite Hst in Hc.
  destruct (readable rd); [|done_outcome].
  cbn [sf_Record sf_AbortClaim] in Hc. case_in Hc; [done_outcome|]. case_in Hc; [done_outcome|].
  destruct claim as [c|].
  - case_in Hc; [|done_outcome]. simplify_eq. bool_props. destruct (Hclaim c eq_refl) as [Ha He].
    exists m. split; [done|]. split; [by left|]. eexists. split; [done|].
    unfold claimed. rewrite Ha. cbn [not_nil is_nil negb]. rewrite andb_true_r.
    split; [|congruence]. destruct Hrow as [_ _ Ht _ _ _ _ _]. unfold terminal_cols in Ht.
    match goal with E : rd_TerminalReceipt rd = None |- _ => rewrite E in Ht end.
    apply bool_decide_eq_true_2, Ht.
  - unfold ClaimAuthorityAbort in Hc.
    apply updated_one_spec in Hc as [[-> Hne]|(-> & r & Hlr & Hg & Hck & ->)];
      [by destruct err|]. bool_props. simplify_eq.
    assert (fe_provider_status r = "reserved"%string) as Hs
      by (unfold is_pending in *; by bool_props).
    exists m. split; [eapply represents_update; [done|done|by apply claim_row_of]|].
    split; [by left|]. eexists. rewrite lookup_insert_eq. split; [done|].
    split; [|done]. unfold claimed. cbn. by rewrite Hs.
Qed.

Lemma abort_claimed_scan r : abort_claimed (scan_row r) = claimed r.
Proof. done. Qed.

(** Read the row of an operation and the record it stands for. *)
Ltac read_row Hr Hc rd Hl Hm Hrow Hid :=
  match goal with E : select_fence _ _ _ = Ok _ |- _ => apply select_fence_ok in E as Hl end;
  destruct (represents_row _ _ _ _ Hr Hl) as (rd & Hm & Hrow & Hid);
  rewrite abort_claimed_scan in Hc.

Lemma BindEffect_refines e id d p at_ db m err db' :
  represents db m -> BindEffect e id d p at_ db = (err, db') ->
  outcome (Some (LBind id d p))
    (fun _ m' => exists rv t, m' !! id = Some (MkRecord rv (Some d) (Some p) t)) m db err db'.
Proof.
  intros Hr. unfold BindEffect. intros Hc. case_in Hc; [done_outcome|]. bool_props.
  case_in Hc; [|done_outcome]. read_row Hr Hc rd Hl Hm Hrow Hid.
  case_in Hc; [done_outcome|]. rewrite (authorityRecordFromRow_row rd) in Hc by done.
  unfold decoded in Hc. destruct (readable rd); [|done_outcome].
  case_top Hc; [done_outcome|]. destruct rd as [rv eff pt term]. cbn in *.
  destruct eff as [d0|].
  - case_in Hc; [|done_outcome]. simplify_eq. bool_props. subst.
    exists m. split; [done|]. split; [by left|]. eauto.
  - case_in Hc; [done_outcome|]. bool_props.
    unfold BindAuthorityFenceEffect in Hc.
    apply updated_one_spec in Hc as [[-> Hne]|(-> & r & Hlr & Hg & Hck & ->)];
      [by destruct err|]. simplify_eq.
    assert (pt = None) as -> by (destruct (row_binding _ _ Hrow) as (_ & _ & _ & _ & Hpt);
      cbn in Hpt; by destruct pt).
    exists (<[rv_OperationID rv := MkRecord rv (Some d) (Some p) None]> m).
    simplify_eq. split; [apply represents_insert; [done| by apply bind_row_of|done]|].
    split; [right; eexists; split; [done|]; by eapply step_bind|]. eexists _, _. by rewrite lookup_insert_eq.
Qed.

Lemma ActivateCommitted_refines e t at_ db m err db' :
  represents db m -> ActivateCommitted e t at_ db = (err, db') ->
  outcome (Some (LCommit t)) (fun _ m' => exists rd, m' !! rv_OperationID (rc_Reservation t) = Some rd /\
             rd_TerminalReceipt rd = Some t) m db err db'.
Proof.
  intros Hr. unfold ActivateCommitted. intros Hc. case_in Hc; [done_outcome|]. bool_props.
  case_in Hc; [|done_outcome]. read_row Hr Hc rd Hl Hm Hrow Hid.
  case_in Hc; [done_outcome|]. rewrite (authorityRecordFromRow_row rd) in Hc by done.
  unfold decoded in Hc. destruct (readable rd); [|done_outcome].
  case_in Hc; [done_outcome|]. bool_props. destruct (rd_TerminalReceipt rd) as [t0|] eqn:Ht.
  - case_in Hc; [done_outcome|]. case_in Hc; [|done_outcome]. simplify_eq. bool_props.
    match goal with E : receiptsEqual _ _ = true |- _ => apply receiptsEqual_eq in E; subst end.
    exists m. split; [done|]. split; [by left|]. eauto.
  - destruct (rd_BoundEffectDigest rd) as [b|] eqn:Hb; [|done_outcome].
    destruct (rc_EffectDigest t) as [eff|] eqn:He; [|done_outcome].
    destruct (rc_DatabasePoint t) as [pt|] eqn:Hp; [|done_outcome].
    case_in Hc; [done_outcome|]. bool_props. subst b.
    unfold ActivateCommittedAuthorityFence in Hc.
    apply updated_one_spec in Hc as [[-> Hne]|(-> & r & Hlr & Hg & Hck & ->)];
      [by destruct err|]. simplify_eq.
    assert (rc_AbortReason t = None) as Har by (by apply Receipt_Validate_committed).
    assert (fe_abort_reason r = None) as Hre.
    { unfold claimed in *. destruct Hrow as [_ _ Htc _ _ _ _ _]. unfold terminal_cols in Htc.
      rewrite Ht in Htc. destruct Htc as [Hs _]. rewrite Hs in *. text_eval. cbn [andb] in *.
      by bool_props. }
    exists (<[rv_OperationID (rc_Reservation t) :=
           MkRecord (rd_Reservation rd) (rd_BoundEffectDigest rd) (rd_BoundDatabasePoint rd) (Some t)]> m).
    split; [apply represents_insert; [done| |by cbn]|].
    + match goal with E : rc_Status t = StatusCommitted |- _ => rename E into Hst end.
      change ("committed"%string) with StatusCommitted in Hck |- *. rewrite <- Hst in Hck |- *.
      apply terminal_row_of; try done; try congruence. left. split_and!; congruence.
    + split; [|by eexists; rewrite lookup_insert_eq]. right. eexists. split; [done|].
      replace (rc_Reservation t) with (rd_Reservation rd) by done.
      eapply step_commit; [|done..| |]; [destruct rd; cbn in *; congruence|congruence..].
Qed.

Lemma RecordAborted_refines e t at_ db m err db' :
  represents db m -> unambiguous t -> RecordAborted e t at_ db = (err, db') ->
  outcome (Some (LAbort t)) (fun _ m' => exists rd, m' !! rv_OperationID (rc_Reservation t) = Some rd /\
             rd_TerminalReceipt rd = Some t) m db err db'.
Proof.
  intros Hr Hu. unfold RecordAborted. intros Hc.
  destruct (rc_AbortReason t) as [reason|] eqn:Har; [|done_outcome].
  case_in Hc; [done_outcome|]. bool_props. case_in Hc; [|done_outcome].
  read_row Hr Hc rd Hl Hm Hrow Hid. case_top Hc; [done_outcome|].
  match type of Hc with context [authorityRecordFromRow ?row] =>
    assert (authorityRecordFromRow row = decoded rd) as Hdec
      by (destruct (claimed _) eqn:?; [by apply authorityRecordFromRow_claimed
                                      |by apply authorityRecordFromRow_row]);
    rewrite Hdec in Hc; clear Hdec end.
  unfold decoded in Hc. destruct (readable rd); [|done_outcome].
  case_in Hc; [done_outcome|]. bool_props. destruct (rd_TerminalReceipt rd) as [t0|] eqn:Ht.
  - case_top Hc; [done_outcome|]. case_top Hc; [|done_outcome]. simplify_eq. bool_props.
    match goal with E : receiptsEqual _ _ = true |- _ => apply receiptsEqual_eq in E; subst end.
    exists m. split; [done|]. split; [by left|]. eauto.
  - case_top Hc; [done_outcome|].
    match goal with E : (not_nil _ && _) = false |- _ => rename E into Hg0 end.
    unfold AbortAuthorityFence in Hc.
    apply updated_one_spec in Hc as [[-> Hne]|(-> & r & Hlr & Hg & Hck & ->)];
      [by destruct err|]. simplify_eq.
    match goal with E : Receipt_Validate t = None |- _ => rename E into Hv end.
    pose proof (Receipt_Validate_basic _ Hv) as (_ & _ & _ & Hep).
    assert (rc_EffectDigest t = None /\ rc_DatabasePoint t = None \/
            rc_EffectDigest t = rd_BoundEffectDigest rd /\
            rc_DatabasePoint t = rd_BoundDatabasePoint rd) as Heff.
    { destruct (rc_EffectDigest t), (rc_DatabasePoint t); try done; [right|by left].
      cbn in Hg0. bool_props. done. }
    exists (<[rv_OperationID (rc_Reservation t) :=
           MkRecord (rd_Reservation rd) (rd_BoundEffectDigest rd) (rd_BoundDatabasePoint rd) (Some t)]> m).
    split; [apply represents_insert; [done| |by cbn]|].
    + match goal with E : rc_Status t = StatusAborted |- _ => rename E into Hst end.
      assert (terminal_row "aborted" = terminal_row (rc_Status t)) as Hterm by by rewrite Hst.
      rewrite Hterm in Hck |- *.
      apply terminal_row_of; try done; try congruence. right. done.
    + split; [|by eexists; rewrite lookup_insert_eq]. right. eexists. split; [done|].
      replace (rc_Reservation t) with (rd_Reservation rd) by done.
      eapply step_abort; [|done..]. destruct rd. cbn in *. congruence.
Qed.

(** ** Runs *)

(** The calls that can change the table, with the environment of each. *)
Inductive store_call :=
| StoreRecordPending (e : env) (reservation : Reservation) (reservedAt : time)
| StoreRecordPendingClaimV1 (e : env) (claim : ClaimV1Reservation) (reservedAt : time)
| StoreClaimAbort (e : env) (operationID : UUID) (reason : AbortReason) (claimedAt : time)
| StoreBindEffect (e : env) (operationID : UUID) (effectDigest : Digest) (point : DatabasePoint)
    (effectBoundAt : time)
| StoreActivateCommitted (e : env) (receipt : Receipt) (terminalAt : time)
| StoreRecordAborted (e : env) (receipt : Receipt) (terminalAt : time).

Definition store_run (c : store_call) (db : fences) : option auth_err * fences :=
  match c with
  | StoreRecordPending e rv t => RecordPending e rv t db
  | StoreRecordPendingClaimV1 e cl t => RecordPendingClaimV1 e cl t db
  | StoreClaimAbort e id reason t => ClaimAbort e id reason t db
  | StoreBindEffect e id d p t => BindEffect e id d p t db
  | StoreActivateCommitted e rc t => ActivateCommitted e rc t db
  | StoreRecordAborted e rc t => RecordAborted e rc t db
  end.

(** An abort receipt that names an effect does not also validate without it:
    that would be a collision of the receipt digest. *)
Definition store_call_ok (c : store_call) : Prop :=
  match c with
  | StoreRecordAborted _ rc _ => unambiguous rc
  | _ => True
  end.

(** The step a call may take. *)
Definition store_label (c : store_call) : option label :=
  match c with
  | StoreRecordPending _ rv _ => Some (LRecord rv)
  | StoreRecordPendingClaimV1 _ cl _ => Some (LRecord (cl_Reservation cl))
  | StoreClaimAbort _ _ _ _ => None
  | StoreBindEffect _ id d p _ => Some (LBind id d p)
  | StoreActivateCommitted _ rc _ => Some (LCommit rc)
  | StoreRecordAborted _ rc _ => Some (LAbort rc)
  end.

(** What a successful call establishes. *)
Definition store_post (c : store_call) (db : fences) (m : mirror) : Prop :=
  match c with
  | StoreRecordPending _ rv _ =>
      exists rd, m !! rv_OperationID rv = Some rd /\ rd_Reservation rd = rv
  | StoreRecordPendingClaimV1 _ cl _ =>
      exists rd, m !! rv_OperationID (cl_Reservation cl) = Some rd /\
        rd_Reservation rd = cl_Reservation cl
  | StoreClaimAbort _ id reason _ =>
      exists r, db !! id = Some r /\ claimed r = true /\ fe_abort_reason r = Some reason
  | StoreBindEffect _ id d p _ => exists rv t, m !! id = Some (MkRecord rv (Some d) (Some p) t)
  | StoreActivateCommitted _ rc _ | StoreRecordAborted _ rc _ =>
      exists rd, m !! rv_OperationID (rc_Reservation rc) = Some rd /\ rd_TerminalReceipt rd = Some rc
  end.

Lemma store_run_refines c db m err db' :
  represents db m -> store_call_ok c -> store_run c db = (err, db') ->
  outcome (store_label c) (store_post c) m db err db'.
Proof.
  intros Hr Hok Hrun. destruct c; cbn in *.
  - by eapply RecordPending_refines.
  - by eapply RecordPendingClaimV1_refines.
  - by eapply ClaimAbort_refines.
  - by eapply BindEffect_refines.
  - by eapply ActivateCommitted_refines.
  - by eapply RecordAborted_refines.
Qed.

(** Tables reached by calls from one table. *)
Inductive store_calls (db : fences) : fences -> Prop :=
| store_calls_refl : store_calls db db
| store_calls_step c db1 : store_calls db db1 -> store_call_ok c ->
    store_calls db (store_run c db1).2.

Lemma represents_empty : represents ∅ ∅.
Proof. intros id. by rewrite !lookup_empty. Qed.

(** What a mirror keeps: reservations, bindings and receipts. *)
Definition keeps {A} (a b : option A) : Prop := a = None \/ a = b.

Record record_le (a b : FenceRecord) : Prop := {
  rle_reservation : rd_Reservation a = rd_Reservation b;
  rle_effect : keeps (rd_BoundEffectDigest a) (rd_BoundEffectDigest b);
  rle_point : keeps (rd_BoundDatabasePoint a) (rd_BoundDatabasePoint b);
  rle_terminal : keeps (rd_TerminalReceipt a) (rd_TerminalReceipt b);
  rle_final : rd_TerminalReceipt a <> None -> b = a }.

Definition mirror_le (m m' : mirror) : Prop :=
  forall id a, m !! id = Some a -> exists b, m' !! id = Some b /\ record_le a b.

Lemma keeps_refl {A} (a : option A) : keeps a a.
Proof. by right. Qed.

Lemma keeps_trans {A} (a b c : option A) : keeps a b -> keeps b c -> keeps a c.
Proof. unfold keeps. naive_solver. Qed.

Lemma record_le_refl a : record_le a a.
Proof. constructor; try apply keeps_refl; done. Qed.

Lemma record_le_trans a b c : record_le a b -> record_le b c -> record_le a c.
Proof.
  intros [] []. constructor; [congruence | eapply keeps_trans; eassumption.. |].
  intros Ht. rewrite rle_final0 in * by done. auto.
Qed.

Lemma mirror_le_refl m : mirror_le m m.
Proof. intros id a Ha. exists a. split; [done|apply record_le_refl]. Qed.

Lemma mirror_le_trans m1 m2 m3 : mirror_le m1 m2 -> mirror_le m2 m3 -> mirror_le m1 m3.
Proof.
  intros H12 H23 id a Ha. destruct (H12 _ _ Ha) as (b & Hb & Hab).
  destruct (H23 _ _ Hb) as (c & Hc & Hbc). exists c. split; [done|]. by eapply record_le_trans.
Qed.

Lemma mirror_le_insert m id a b :
  m !! id = Some a -> record_le a b -> mirror_le m (<[id := b]> m).
Proof.
  intros Ha Hab i x Hx. destruct (decide (i = id)) as [->|Hne].
  - rewrite lookup_insert_eq. simplify_eq. eauto.
  - rewrite lookup_insert_ne by done. exists x. split; [done|apply record_le_refl].
Qed.

Lemma mirror_step_le m l m' : mirror_step m l m' -> mirror_le m m'.
Proof.
  intros [rv Hn Hv Hfree|id rv d p Hl Hd Hp|rv e p t Hl|rv e p t Hl].
  - intros i x Hx. exists x. split; [|apply record_le_refl].
    by rewrite lookup_insert_ne by congruence.
  - eapply mirror_le_insert; [done|]. constructor; cbn; try done; by left.
  - eapply mirror_le_insert; [done|]. constructor; cbn; try done; by (left + right).
  - eapply mirror_le_insert; [done|]. constructor; cbn; try done; by (left + right).
Qed.

(** Every table calls reach represents a mirror that only grew. *)
Lemma store_calls_mirror db db' m :
  represents db m -> store_calls db db' ->
  exists m', represents db' m' /\ rtc mirror_moves m m' /\ mirror_le m m'.
Proof.
  intros Hr Hs. induction Hs as [|c db1 Hs (m1 & Hr1 & Hst & Hle) Hok].
  - exists m. split; [done|]. split; [done|apply mirror_le_refl].
  - destruct (store_run c db1) as [err db2] eqn:Hrun. cbn.
    pose proof (store_run_refines _ _ _ _ _ Hr1 Hok Hrun) as Ho. unfold outcome in Ho.
    destruct err; [subst; eauto|]. destruct Ho as (m2 & Hr2 & [->|(l & _ & Hstep)] & _); [eauto|].
    exists m2. split; [done|]. split; [eapply rtc_r; [done|by exists l]|].
    eapply mirror_le_trans; [done|by eapply mirror_step_le].
Qed.

(** ** Reads *)

Lemma Get_calm id db m r rd :
  represents db m -> validOperationID id = true -> db !! id = Some r -> m !! id = Some rd ->
  claimed r = false -> Get calm id db = decoded rd.
Proof.
  intros Hr Hv Hl Hm Hc. unfold Get. rewrite Hv. cbn -[authorityRecordFromRow]. rewrite Hl.
  apply authorityRecordFromRow_row; [|done].
  destruct (represents_row _ _ _ _ Hr Hl) as (rd' & Hm' & Hrow & _). by simplify_eq.
Qed.

Lemma Get_ok e id db m rd :
  represents db m -> Get e id db = Ok rd ->
  m !! id = Some rd /\ rv_OperationID (rd_Reservation rd) = id.
Proof.
  intros Hr Hg. unfold Get in Hg. case_top Hg; [done|]. case_top Hg; [|done].
  match goal with E : select_fence _ _ _ = Ok _ |- _ => apply select_fence_ok in E as Hl end.
  destruct (represents_row _ _ _ _ Hr Hl) as (rd' & Hm' & Hrow & Hid).
  destruct (claimed a) eqn:Hcl.
  - exfalso. unfold authorityRecordFromRow in Hg. cbn in Hg.
    destruct (claimed_status _ Hcl) as (Hs & reason & Ha). rewrite Hs, Ha in Hg. text_eval.
    cbn [not_nil is_nil negb] in Hg. rewrite !orb_true_r in Hg.
    destruct Hrow as [Hrv Hb Ht Hc Hra Hba Hca Hac].
    rewrite (reservationFromRow_cols _ _ Hrv Hc), scan_iszero, Hra in Hg.
    destruct (_ == zero_digest); [done|].
    rewrite (optionalBinding_cols _ _ _ Hb Hc Hba) in Hg.
    by rewrite optional_before_scan in Hg by by apply row_checks_bound_at.
  - rewrite (authorityRecordFromRow_row rd') in Hg by done. unfold decoded in Hg.
    destruct (readable rd'); by simplify_eq.
Qed.

(** ** Claims *)

(** A claim survives: the claim's time and the protocol of its row stay. *)
Definition claims_kept (db db' : fences) : Prop :=
  forall id r at_, db !! id = Some r -> fe_abort_claimed_at r = Some at_ ->
  exists r', db' !! id = Some r' /\ fe_abort_claimed_at r' = Some at_ /\
    fe_authority_protocol_profile r' = fe_authority_protocol_profile r.

Lemma claims_kept_refl db : claims_kept db db.
Proof. intros id r at_ Hl Hc. eauto. Qed.

Lemma claims_kept_trans a b c : claims_kept a b -> claims_kept b c -> claims_kept a c.
Proof.
  intros Hab Hbc id r at_ Hl Hc. destruct (Hab _ _ _ Hl Hc) as (r1 & Hl1 & Hc1 & Hp1).
  destruct (Hbc _ _ _ Hl1 Hc1) as (r2 & ? & ? & ?). exists r2. split_and!; congruence.
Qed.

Lemma claims_kept_update ctx failure id guard change db err db' :
  (forall r, guard r = true -> fe_authority_protocol_profile (change r) = fe_authority_protocol_profile r /\
     (fe_abort_claimed_at r = None \/ fe_abort_claimed_at (change r) = fe_abort_claimed_at r)) ->
  updated_one ctx (update_fence failure id guard change db) = (err, db') -> claims_kept db db'.
Proof.
  intros Hch [[-> _]|(_ & r & Hl & Hg & _ & ->)]%updated_one_spec; [apply claims_kept_refl|].
  intros i x at_ Hx Hc. destruct (decide (i = id)) as [->|Hne].
  - simplify_eq. destruct (Hch _ Hg) as [Hp Hk]. exists (change r). rewrite lookup_insert_eq.
    split; [done|]. split; [|done]. destruct Hk; congruence.
  - exists x. by rewrite lookup_insert_ne.
Qed.

Lemma claims_kept_insert failure r db res db' :
  insert_fence failure r db = (res, db') -> claims_kept db db'.
Proof.
  intros [(-> & _)|(_ & _ & Hn & _ & ->)]%insert_fence_spec; [apply claims_kept_refl|].
  intros i x at_ Hx Hc. exists x. rewrite lookup_insert_ne by congruence. done.
Qed.

Lemma store_run_claims c db err db' : store_run c db = (err, db') -> claims_kept db db'.
Proof.
  intros Hc. destruct c; cbn in Hc;
  [ unfold RecordPending, InsertAuthorityFencePending in Hc
  | unfold RecordPendingClaimV1, InsertClaimV1AuthorityFencePending in Hc
  | unfold ClaimAbort in Hc | unfold BindEffect in Hc | unfold ActivateCommitted in Hc
  | unfold RecordAborted in Hc ];
  repeat case_top Hc; simplify_eq; try apply claims_kept_refl;
  try (by eapply claims_kept_insert).
  all: (eapply claims_kept_update; [|exact Hc]); intros r Hg; split; [done|]; cbn in *; bool_props;
    auto.
Qed.

Lemma store_calls_claims db db' : store_calls db db' -> claims_kept db db'.
Proof.
  induction 1 as [|c db1 _ IH _]; [apply claims_kept_refl|].
  eapply claims_kept_trans; [exact IH|]. by destruct (store_run c db1) eqn:E;
    eapply store_run_claims.
Qed.

(** A claimed row of the claim protocol is never bound nor committed. *)
Lemma claim_not_effective rd r at_ :
  row_of rd r -> fe_authority_protocol_profile r = ProfileClaimV1 ->
  fe_abort_claimed_at r = Some at_ ->
  rd_BoundEffectDigest rd = None /\
  (forall t, rd_TerminalReceipt rd = Some t -> rc_Status t = StatusAborted).
Proof.
  intros [_ Hb Ht Hc _ _ _ _] Hp Hca.
  assert (fe_effect_digest r = None) as He.
  { apply row_checks_claim in Hc. unfold claim_check in Hc. rewrite Hp, Hca in Hc. text_eval.
    cbn in Hc. rewrite ?andb_false_r in Hc. cbn [orb] in Hc. bool_props. done. }
  destruct Hb as (Hb & _). split; [congruence|]. intros t Htr. unfold terminal_cols in Ht.
  rewrite Htr in Ht. destruct Ht as (Hv & _ & _ & _ & _ & _ & [(Hst & Heff & _)|(Hst & _)]); [|done].
  exfalso. destruct (Receipt_Validate_committed _ Hv Hst) as (_ & e & p & He' & _). congruence.
Qed.

Lemma claimed_never_bound db db' id r at_ m (d : Digest) (p : DatabasePoint) :
  db !! id = Some r -> fe_abort_claimed_at r = Some at_ ->
  fe_authority_protocol_profile r = ProfileClaimV1 -> claims_kept db db' ->
  ~ outcome (Some (LBind id d p)) (fun _ m' => exists rv t, m' !! id = Some (MkRecord rv (Some d) (Some p) t)) m db None db'.
Proof.
  intros Hl Hc Hp Hk (m' & Hr & _ & rv & t & Hm).
  destruct (Hk _ _ _ Hl Hc) as (r' & Hl' & Hc' & Hp').
  destruct (represents_row _ _ _ _ Hr Hl') as (rd & Hm' & Hrow & _). simplify_eq.
  destruct (claim_not_effective _ _ _ Hrow ltac:(congruence) Hc') as [Hb _]. done.
Qed.

Lemma claimed_never_committed db db' id r at_ m t :
  db !! id = Some r -> fe_abort_claimed_at r = Some at_ ->
  fe_authority_protocol_profile r = ProfileClaimV1 -> claims_kept db db' ->
  rc_Status t = StatusCommitted ->
  ~ outcome (Some (LCommit t)) (fun _ m' => exists rd, m' !! id = Some rd /\ rd_TerminalReceipt rd = Some t) m db None db'.
Proof.
  intros Hl Hc Hp Hk Hst (m' & Hr & _ & rd & Hm & Ht).
  destruct (Hk _ _ _ Hl Hc) as (r' & Hl' & Hc' & Hp').
  destruct (represents_row _ _ _ _ Hr Hl') as (rd' & Hm' & Hrow & _). simplify_eq.
  destruct (claim_not_effective _ _ _ Hrow ltac:(congruence) Hc') as [_ Ha].
  rewrite (Ha _ Ht) in Hst. by vm_compute in Hst.
Qed.

Lemma ActivateCommitted_status e t at_ db db' :
  ActivateCommitted e t at_ db = (None, db') -> rc_Status t = StatusCommitted.
Proof. unfold ActivateCommitted. intros Hc. case_top Hc; [done|]. by bool_props. Qed.

(** A terminal row is not claimed. *)
Lemma row_of_terminal_unclaimed rd r t :
  row_of rd r -> rd_TerminalReceipt rd = Some t -> claimed r = false.
Proof.
  intros [_ _ Ht _ _ _ _ _] Hrd. unfold terminal_cols in Ht. rewrite Hrd in Ht.
  destruct Ht as (_ & _ & Hs & _ & _ & _ & Hcase). unfold claimed. rewrite Hs.
  destruct Hcase as [[-> _]|[-> _]]; by text_eval.
Qed.

Lemma row_of_receipt rd r t :
  row_of rd r -> rd_TerminalReceipt rd = Some t ->
  Receipt_Validate t = None /\ rc_Reservation t = rd_Reservation rd.
Proof.
  intros [_ _ Ht _ _ _ _ _] Hrd. unfold terminal_cols in Ht. rewrite Hrd in Ht. naive_solver.
Qed.

Lemma mirror_receipt_unique m m' l' id rd rd' t t' :
  m' = m \/ (exists l, Some l' = Some l /\ mirror_step m l m') -> m !! id = Some rd -> rd_TerminalReceipt rd = Some t ->
  m' !! id = Some rd' -> rd_TerminalReceipt rd' = Some t' -> t' = t.
Proof.
  intros Hs Hm Ht Hm' Ht'.
  assert (mirror_le m m') as Hle 
    by (destruct Hs as [->|(l & _ & Hs)]; [apply mirror_le_refl|by eapply mirror_step_le]).
  destruct (Hle _ _ Hm) as (b & Hb & Hab). simplify_eq.
  assert (rd' = rd) as -> by (apply Hab; congruence). congruence.
Qed.

(** Distinct operations hold distinct slots. *)
Definition slots_unique (m : mirror) : Prop :=
  forall i j a b, m !! i = Some a -> m !! j = Some b ->
  same_slot (rd_Reservation a) (rd_Reservation b) -> i = j.

Lemma slots_unique_insert m id a b :
  slots_unique m -> m !! id = Some a -> rd_Reservation b = rd_Reservation a ->
  slots_unique (<[id := b]> m).
Proof.
  intros Hu Ha Hb i j x y Hx Hy Hs.
  destruct (decide (i = id)) as [->|], (decide (j = id)) as [->|]; try done;
    rewrite ?lookup_insert_eq, ?lookup_insert_ne in * by done; simplify_eq;
    eapply Hu; try done; congruence.
Qed.

Lemma mirror_slots_unique m i j a b :
  rtc mirror_moves ∅ m -> m !! i = Some a -> m !! j = Some b ->
  same_slot (rd_Reservation a) (rd_Reservation b) -> i = j.
Proof.
  intros Hs. revert i j a b. change (slots_unique m). revert Hs.
  apply rtc_ind_r; [intros i j a b Ha; by rewrite lookup_empty in Ha|].
  intros m1 m2 _ [l Hstep] Hu.
  destruct Hstep as [rv Hn Hv Hfree| | |]; try (by eapply slots_unique_insert).
  intros i j a b Ha Hb [He Hq].
  destruct (decide (i = rv_OperationID rv)) as [->|], (decide (j = rv_OperationID rv)) as [->|]; try done;
    rewrite ?lookup_insert_eq, ?lookup_insert_ne in * by done; simplify_eq; cbn in *.
  - exfalso. eapply Hfree; [exact Hb|]. by split.
  - exfalso. eapply Hfree; [exact Ha|]. by split.
  - by eapply Hu; [..|split].
Qed.

(** ** A table represents one mirror *)

Lemma reservation_cols_functional a b r :
  reservation_cols a r -> reservation_cols b r -> a = b.
Proof. intros [] []. destruct a, b. cbn in *. congruence. Qed.

Lemma binding_cols_functional e p e' p' r :
  binding_cols e p r -> binding_cols e' p' r -> e = e' /\ p = p'.
Proof.
  intros (<- & Hs & Ht & Hl & Hp) (<- & Hs' & Ht' & Hl' & Hp'). split; [done|].
  destruct p as [[]|], p' as [[]|]; try done; cbn in *; congruence.
Qed.

Lemma aborted_receipt_functional t t' (effect : option Digest) (point : option DatabasePoint) :
  Receipt_Validate t = None -> Receipt_Validate t' = None ->
  rc_Reservation t = rc_Reservation t' -> rc_Status t = StatusAborted -> rc_Status t' = StatusAborted ->
  rc_ReceiptDigest t = rc_ReceiptDigest t' -> rc_AbortReason t = rc_AbortReason t' ->
  unambiguous t -> unambiguous t' ->
  (rc_EffectDigest t = None /\ rc_DatabasePoint t = None \/
   rc_EffectDigest t = effect /\ rc_DatabasePoint t = point) ->
  (rc_EffectDigest t' = None /\ rc_DatabasePoint t' = None \/
   rc_EffectDigest t' = effect /\ rc_DatabasePoint t' = point) -> t = t'.
Proof.
  destruct t as [rv e p s a d], t' as [rv' e' p' s' a' d']. unfold unambiguous, unbound. cbn.
  intros Hv Hv' <- -> -> <- <- Hu Hu' He He'.
  pose proof (Receipt_Validate_basic _ Hv) as (_ & _ & _ & Hep).
  pose proof (Receipt_Validate_basic _ Hv') as (_ & _ & _ & Hep'). cbn in *.
  destruct e as [e|], p as [p|], e' as [e'|], p' as [p'|]; try done.
  - destruct He as [[? _]|[<- <-]]; [done|]. destruct He' as [[? _]|[-> ->]]; done.
  - destruct Hu as [?|Hu]; [done|]. by rewrite Hv' in Hu.
  - destruct Hu' as [?|Hu']; [done|]. by rewrite Hv in Hu'.
Qed.

Lemma row_of_functional a b r : row_of a r -> row_of b r -> a = b.
Proof.
  intros [Hra Hba Hta _ _ _ _ _] [Hrb Hbb Htb _ _ _ _ _].
  destruct a as [rv e p t], b as [rv' e' p' t']. cbn in *.
  assert (rv = rv') as <- by by eapply reservation_cols_functional.
  destruct (binding_cols_functional _ _ _ _ _ Hba Hbb) as [<- <-]. f_equal.
  unfold terminal_cols in *. cbn in *. destruct t as [t|], t' as [t'|]; try done.
  - f_equal. destruct Hta as (Hv & Hrv & Hs & Hd & Ha & _ & Hc), Htb as (Hv' & Hrv' & Hs' & Hd' & Ha' & _ & Hc').
    rewrite Hs in Hs'. rewrite Hd in Hd'. rewrite Ha in Ha'. simplify_eq.
    destruct Hc as [(Hst & He & Hp)|(Hst & Hu & Hep)], Hc' as [(Hst' & He' & Hp')|(Hst' & Hu' & Hep')];
      try (rewrite Hst, Hst' in Hs'; by vm_compute in Hs').
    + destruct t, t'. cbn in *. congruence.
    + by eapply aborted_receipt_functional; try (exact Hep || exact Hep'); congruence.
  - destruct Hta as (_ & _ & Hs & _ & _ & _ & Hc), Htb as [Hs' _]. rewrite Hs in Hs'.
    destruct Hc as [[Hst _]|[Hst _]]; rewrite Hst in Hs'; by vm_compute in Hs'.
  - destruct Htb as (_ & _ & Hs & _ & _ & _ & Hc), Hta as [Hs' _]. rewrite Hs in Hs'.
    destruct Hc as [[Hst _]|[Hst _]]; rewrite Hst in Hs'; by vm_compute in Hs'.
Qed.

Lemma represents_functional db m m' : represents db m -> represents db m' -> m = m'.
Proof.
  intros Hm Hm'. apply map_eq. intros id. specialize (Hm id). specialize (Hm' id).
  destruct (db !! id), (m !! id), (m' !! id); try done.
  destruct Hm as [Hm _], Hm' as [Hm' _]. f_equal. by eapply row_of_functional.
Qed.
End Represent.
