(* ===== verification/FenceTheorems.v ===== *)
(** Concrete rows, receipts and a concrete driver for the witnesses of the
    fence-store and coordinator theorems.

    Properties of the database mirror of the authority ledger. *)
From Stdlib Require Import ZArith Lia Strings.Byte Sorting.Permutation.
From stdpp Require Import base gmap list strings numbers option sorting relations.
From S2P Require Import Prelude GoStd GoTime AuthorityTypes Ledger LedgerSafety Samples FenceRows FenceStore FenceSafety.

(** A driver that scans integers with exponent zero, positions as text and
    timestamps in the local zone. *)
Definition sample_driver : Driver := {|
  scan_numeric v := MkNumeric (Some v) 0 false Finite true;
  scan_lsn p := AnyString p;
  scan_time t := Time (t_nanos t) false |}.

#[export] Existing Instance sample_driver.

#[export] Instance sample_driver_laws : DriverLaws.
Proof.
  constructor; cbn.
  - intros v Hv. repeat split; cbn; try lia. exists v. split; [done|]. cbn. lia.
  - auto.
  - done.
Qed.

Definition sample_time (n : Z) : time := Date 2024 1 1 0 0 n 0.

(** The reservation, receipts and point of the sample ledger's operation [n]. *)
Definition stored_record (n : Z) (p : DeterministicProvider) : FenceRecord :=
  match pv_records p !! sample_id n with
  | Some r => dr_record r
  | None => MkRecord (MkReservation [] "" "" [] 0 0 []) None None None
  end.

Definition sample_point : DatabasePoint := MkDatabasePoint 7 1 "0/16B3748".

Definition sample_reservation (n : Z) : Reservation := rd_Reservation (stored_record n sample_ledger2).

Definition sample_receipt (n : Z) (p : DeterministicProvider) : Receipt :=
  match rd_TerminalReceipt (stored_record n p) with
  | Some t => t
  | None => MkReceipt (sample_reservation n) None None "" None []
  end.

(** Operation 1 of the sample ledger commits, operation 2 aborts. *)
Definition sample_committed : Receipt := sample_receipt 1 sample_ledger4.
Definition sample_aborted : Receipt := sample_receipt 2 sample_ledger4.

Definition sample_store1 : fences :=
  (store_run (StoreRecordPending calm (sample_reservation 1) (sample_time 1)) ∅).2.
Definition sample_store2 : fences :=
  (store_run (StoreBindEffect calm (sample_id 1) (sample_digest 2) sample_point (sample_time 2))
     sample_store1).2.
Definition sample_store3 : fences :=
  (store_run (StoreActivateCommitted calm sample_committed (sample_time 3)) sample_store2).2.

Example sample_store_runs :
  (store_run (StoreRecordPending calm (sample_reservation 1) (sample_time 1)) ∅).1 = None /\
  (store_run (StoreBindEffect calm (sample_id 1) (sample_digest 2) sample_point (sample_time 2))
     sample_store1).1 = None /\
  (store_run (StoreActivateCommitted calm sample_committed (sample_time 3)) sample_store2).1 = None.
Proof. vm_compute. auto. Qed.

Definition sample_claim : ClaimV1Reservation := MkClaimV1Reservation (sample_reservation 2) (sample_id 9).

Definition sample_claims1 : fences :=
  (store_run (StoreRecordPendingClaimV1 calm sample_claim (sample_time 1)) ∅).2.

Lemma sample_store_represents c db :
  (exists m, represents db m) -> store_call_ok c -> exists m, represents (store_run c db).2 m.
Proof.
  intros [m Hr] Hok. destruct (store_run c db) as [err db'] eqn:E.
  pose proof (store_run_refines _ _ _ _ _ Hr Hok E) as Ho. destruct err; cbn in *.
  - subst. eauto.
  - destruct Ho as (m' & ? & _). eauto.
Qed.

#[local] Open Scope go_scope.

(** [numeric_decoding]: [uint64FromNumeric] accepts exactly the numerics that
    denote a positive 64-bit integer in any admissible scaling, and returns that
    integer. *)
Theorem numeric_decoding n v :
  uint64FromNumeric n = Some v <-> numeric_denotes n v /\ 0 < v < 2 ^ 64.
Proof.
  split; [|by intros []; apply uint64FromNumeric_denotes].
  unfold uint64FromNumeric, numeric_denotes. intros Hu.
  destruct (nu_Int n) as [i|] eqn:Hi; [|done]. case_top Hu; [done|]. bool_props. cbv zeta in Hu.
  case_top Hu; [done|]. case_top Hu; [done|]. bool_props.
  set (w := if nu_Exp n <? 0 then _ else _) in *.
  assert (0 < w < 2 ^ 64) as Hw.
  { split; [lia|]. unfold bit_len in *. destruct (w =? 0) eqn:?; bool_props; [lia|].
    apply Z.log2_lt_pow2; lia. }
  simplify_eq. rewrite u64_id by (unfold is_u64; lia).
  split; [|done]. split_and!; try done; try lia. exists i. split; [done|]. subst w.
  destruct (nu_Exp n <? 0) eqn:Eneg; bool_props.
  - rewrite (proj2 (Z.leb_gt 0 _)) by lia. cbn [andb] in *. bool_props.
    rewrite (proj2 (Z.ltb_ge 0 _)) in * by lia.
    pose proof (Z.quot_rem' i (10 ^ (- nu_Exp n))). lia.
  - rewrite (proj2 (Z.leb_le 0 _)) by lia. destruct (0 <? nu_Exp n) eqn:?; bool_props; [done|].
    replace (nu_Exp n) with 0 by lia. lia.
Qed.

Section Theorems.
Context `{Primitives} `{DL : DriverLaws}.

(** C3 (fence_refines_mirror): whatever failures and cancellations a repository
    call meets, if it returns an error the table is unchanged, and if it succeeds
    the table takes at most one step of the abstract mirror (record a
    reservation in a free slot, bind an effect to an unbound pending operation,
    give a pending operation its terminal receipt) and says what the call was
    asked to record. *)
Theorem fence_refines_mirror c db m :
  represents db m -> store_call_ok c ->
  outcome (store_label c) (store_post c) m db (store_run c db).1 (store_run c db).2.
Proof. intros Hr Hok. by eapply store_run_refines; [| |apply surjective_pairing]. Qed.

(** [fence_slots_unique]: in every table reached from the empty one by calls,
    each row is stored under its operation, no two operations share an epoch and
    sequence, and what the table says evolved from nothing by steps of the
    mirror. *)
Theorem fence_slots_unique db :
  store_calls ∅ db ->
  exists m, represents db m /\ rtc mirror_moves ∅ m /\
    forall i j a b, db !! i = Some a -> db !! j = Some b ->
      fe_authority_epoch a = fe_authority_epoch b ->
      fe_authority_sequence a = fe_authority_sequence b -> i = j.
Proof.
  intros Hs. destruct (store_calls_mirror _ _ _ represents_empty Hs) as (m & Hr & Hst & _).
  exists m. split; [done|]. split; [done|]. intros i j a b Ha Hb He Hq.
  destruct (represents_row _ _ _ _ Hr Ha) as (ra & Hma & [[] _ _ _ _ _ _ _] & _).
  destruct (represents_row _ _ _ _ Hr Hb) as (rb & Hmb & [[] _ _ _ _ _ _ _] & _).
  eapply mirror_slots_unique; [exact Hst|exact Hma|exact Hmb|]. split; congruence.
Qed.

(** [terminal_receipt_durable]: once an operation's terminal receipt is
    recorded, after any further calls [Get] returns a record with exactly that
    receipt, and recording any other receipt for the operation is refused. *)
Theorem terminal_receipt_durable c t db m db1 db2 :
  (exists e at_, c = StoreActivateCommitted e t at_ \/ c = StoreRecordAborted e t at_) ->
  represents db m -> store_call_ok c -> store_run c db = (None, db1) -> store_calls db1 db2 ->
  rv_ReservationDigest (rc_Reservation t) <> zero_digest ->
  (exists rd, Get calm (rv_OperationID (rc_Reservation t)) db2 = Ok rd /\
     rd_TerminalReceipt rd = Some t) /\
  forall e t' at_, rv_OperationID (rc_Reservation t') = rv_OperationID (rc_Reservation t) ->
    t' <> t -> (ActivateCommitted e t' at_ db2).1 <> None /\
    (unambiguous t' -> (RecordAborted e t' at_ db2).1 <> None).
Proof.
  intros Hc Hr Hok Hrun Hs Hid.
  pose proof (store_run_refines _ _ _ _ _ Hr Hok Hrun) as (m1 & Hr1 & _ & Hpost).
  assert (exists rd, m1 !! rv_OperationID (rc_Reservation t) = Some rd /\
            rd_TerminalReceipt rd = Some t) as (rd & Hm1 & Ht)
    by (destruct Hc as (e & at_ & [->| ->]); exact Hpost).
  destruct (store_calls_mirror _ _ _ Hr1 Hs) as (m2 & Hr2 & _ & Hle).
  destruct (Hle _ _ Hm1) as (rd2 & Hm2 & Hrd). assert (rd2 = rd) as -> by (apply Hrd; congruence).
  split.
  - destruct (represents_record _ _ _ _ Hr2 Hm2) as (r & Hl & Hrow). exists rd. split; [|done].
    destruct (row_of_receipt _ _ _ Hrow Ht) as [Hv Hrv].
    rewrite (Get_calm _ _ m2 r rd); try done.
    + unfold decoded, readable. rewrite <- Hrv. by rewrite bool_decide_eq_false_2.
    + by apply Reservation_Validate_id, Receipt_Validate_basic.
    + by eapply row_of_terminal_unclaimed.
  - intros e t' at_ Hsame Hne. split; [|intros Hu]; intros Hnone.
    + destruct (ActivateCommitted e t' at_ db2) as [err db3] eqn:E. cbn in Hnone. subst err.
      destruct (ActivateCommitted_refines _ _ _ _ _ _ _ Hr2 E) as (m3 & _ & Hstep & rd3 & Hm3 & Ht3).
      eapply Hne, mirror_receipt_unique; [exact Hstep|exact Hm2|exact Ht| |exact Ht3].
      by rewrite <- Hsame.
    + destruct (RecordAborted e t' at_ db2) as [err db3] eqn:E. cbn in Hnone. subst err.
      destruct (RecordAborted_refines _ _ _ _ _ _ _ Hr2 Hu E) as (m3 & _ & Hstep & rd3 & Hm3 & Ht3).
      eapply Hne, mirror_receipt_unique; [exact Hstep|exact Hm2|exact Ht| |exact Ht3].
      by rewrite <- Hsame.
Qed.

(** C30 (abort_claim_excludes_effects): once an abort is claimed for an operation,
    then after any further calls no effect can be bound to it and no committed
    receipt activated, and the record stays unbound with at most an aborted
    receipt. *)
Theorem abort_claim_excludes_effects e id reason at_ db m db1 db2 :
  represents db m -> store_run (StoreClaimAbort e id reason at_) db = (None, db1) ->
  store_calls db1 db2 ->
  (forall e d p at_, (BindEffect e id d p at_ db2).1 <> None) /\
  (forall e t at_, rv_OperationID (rc_Reservation t) = id ->
     (ActivateCommitted e t at_ db2).1 <> None) /\
  (forall e rd, Get e id db2 = Ok rd -> rd_BoundEffectDigest rd = None /\
     forall t, rd_TerminalReceipt rd = Some t -> rc_Status t = StatusAborted).
Proof.
  intros Hr Hrun Hs.
  destruct (ClaimAbort_refines _ _ _ _ _ _ _ _ Hr Hrun) as (m1 & Hr1 & _ & r & Hl & Hcl & _).
  destruct (represents_row _ _ _ _ Hr1 Hl) as (rd1 & _ & Hrow1 & _).
  destruct (claimed_profile _ (row_check _ _ Hrow1) Hcl) as (Hp & Hc & _).
  destruct (fe_abort_claimed_at r) as [c|] eqn:Hca; [|done].
  destruct (store_calls_claims _ _ Hs _ _ _ Hl Hca) as (r2 & Hl2 & Hca2 & Hp2). rewrite Hp in Hp2.
  destruct (store_calls_mirror _ _ _ Hr1 Hs) as (m2 & Hr2 & _).
  split_and!.
  - intros e' d p at' Hnone. destruct (BindEffect e' id d p at' db2) as [err db3] eqn:E.
    cbn in Hnone. subst err. eapply (claimed_never_bound db2 db3 id r2); try done.
    { by eapply (store_run_claims (StoreBindEffect e' id d p at')). }
    by eapply BindEffect_refines.
  - intros e' t at' Hid Hnone. destruct (ActivateCommitted e' t at' db2) as [err db3] eqn:E.
    cbn in Hnone. subst err id.
    assert (rc_Status t = StatusCommitted) as Hst by by eapply ActivateCommitted_status.
    eapply (claimed_never_committed db2 db3 _ r2); try done.
    { by eapply (store_run_claims (StoreActivateCommitted e' t at')). }
    by eapply ActivateCommitted_refines.
  - intros e' rd Hg. destruct (Get_ok _ _ _ _ _ Hr2 Hg) as [Hm _].
    destruct (represents_row _ _ _ _ Hr2 Hl2) as (rd2 & Hm2 & Hrow2 & _). simplify_eq.
    by eapply claim_not_effective.
Qed.
End Theorems.

(** ** Witnesses *)

(** Success of a concrete call, without naming the table it leaves. *)
Lemma run_pair c db : (store_run c db).1 = None -> store_run c db = (None, (store_run c db).2).
Proof. destruct (store_run c db). cbn. by intros ->. Qed.

Lemma sample_store2_represented : exists m, represents sample_store2 m.
Proof.
  apply sample_store_represents; [|done]. apply sample_store_represents; [|done].
  exists ∅. apply represents_empty.
Qed.

Lemma sample_claims1_represented : exists m, represents sample_claims1 m.
Proof.
  apply sample_store_represents; [|done]. exists ∅. apply represents_empty.
Qed.

Lemma fence_refines_mirror_witness :
  let c := StoreRecordPending calm (sample_reservation 1) (sample_time 1) in
  outcome (store_label c) (store_post c) ∅ ∅ (store_run c ∅).1 (store_run c ∅).2.
Proof.
  exact (fence_refines_mirror (StoreRecordPending calm (sample_reservation 1) (sample_time 1))
    ∅ ∅ represents_empty I).
Defined.

Lemma fence_slots_unique_witness :
  exists m, represents sample_store1 m.
Proof.
  destruct (fence_slots_unique sample_store1) as (m & Hm & _).
  - apply (store_calls_step ∅ (StoreRecordPending calm (sample_reservation 1) (sample_time 1)) ∅);
      [constructor|]. exact I.
  - exists m. exact Hm.
Defined.

Lemma terminal_receipt_durable_witness :
  exists rd, Get calm (rv_OperationID (rc_Reservation sample_committed)) sample_store3 = Ok rd /\
    rd_TerminalReceipt rd = Some sample_committed.
Proof.
  destruct sample_store2_represented as [m Hm].
  destruct (terminal_receipt_durable (StoreActivateCommitted calm sample_committed (sample_time 3))
              sample_committed sample_store2 m sample_store3 sample_store3) as [Hg _].
  - eexists _, _. left. reflexivity.
  - exact Hm.
  - exact I.
  - apply run_pair. vm_compute. reflexivity.
  - apply store_calls_refl.
  - vm_compute. congruence.
  - exact Hg.
Defined.

Lemma abort_claim_excludes_effects_witness :
  (BindEffect calm (sample_id 2) (sample_digest 2) sample_point (sample_time 3)
     (store_run (StoreClaimAbort calm (sample_id 2) AbortSuperseded (sample_time 2))
        sample_claims1).2).1 <> None.
Proof.
  destruct sample_claims1_represented as [m Hm].
  destruct (abort_claim_excludes_effects calm (sample_id 2) AbortSuperseded (sample_time 2)
              sample_claims1 m
              (store_run (StoreClaimAbort calm (sample_id 2) AbortSuperseded (sample_time 2))
                 sample_claims1).2
              (store_run (StoreClaimAbort calm (sample_id 2) AbortSuperseded (sample_time 2))
                 sample_claims1).2) as [Hb _].
  - exact Hm.
  - apply (run_pair (StoreClaimAbort calm (sample_id 2) AbortSuperseded (sample_time 2))).
    vm_compute. reflexivity.
  - apply store_calls_refl.
  - exact (Hb calm (sample_digest 2) sample_point (sample_time 3)).
Defined.
