(* ===== verification/Interfaces.v ===== *)
(** What the coordinator relies on, as type classes, and the components that
    provide it.

    [ProviderOps]/[ProviderLaws]: the [Provider] interface of
    [internal/nodecontrol/authority/provider.go]; instance: the deterministic
    provider of [Ledger.v].  [StoreOps]/[StoreLaws]: the [Repository] interface of
    [repository.go]; instance: the Postgres repository of [FenceStore.v]. *)
From Stdlib Require Import ZArith Lia Strings.Byte.
From stdpp Require Import base gmap list strings numbers option relations.
From S2P Require Import Prelude GoStd GoTime AuthorityTypes Ledger LedgerSafety FenceRows FenceStore FenceSafety.

#[local] Open Scope go_scope.

(** ** The authority provider *)

(** Each method takes what its polls of the context observe. *)
Class ProviderOps := {
  pstate : Type;
  provider_Reserve : ctx_poll -> ctx_poll -> ReserveRequest -> pstate ->
    result auth_err Reservation * pstate;
  provider_Finalize : ctx_poll -> ctx_poll -> FinalizeRequest -> pstate ->
    result auth_err Receipt * pstate;
  provider_Abort : ctx_poll -> ctx_poll -> AbortRequest -> pstate ->
    result auth_err Receipt * pstate;
  provider_Inspect : ctx_poll -> ctx_poll -> UUID -> pstate ->
    result auth_err FenceRecord * pstate;
  provider_Head : ctx_poll -> ctx_poll -> pstate -> result auth_err Head * pstate }.

(** What a record of the ledger looks like to a client. *)
Record ledger_record_ok `{Primitives} (id : UUID) (rd : FenceRecord) : Prop := {
  lr_valid : Record_Validate rd = None;
  lr_id : rv_OperationID (rd_Reservation rd) = id;
  lr_pending : rd_TerminalReceipt rd = None ->
    rd_BoundEffectDigest rd = None /\ rd_BoundDatabasePoint rd = None }.

(** A method leaves a good state, and the ledger only grows. *)
Definition provider_step {S : Type} (inv : S -> Prop) (ledger : S -> mirror) (p p' : S) : Prop :=
  inv p' /\ mirror_le (ledger p) (ledger p').

Class ProviderLaws `{Primitives} `{ProviderOps} := {
  ledger_of : pstate -> mirror;
  provider_inv : pstate -> Prop;
  provider_record p id rd :
    provider_inv p -> ledger_of p !! id = Some rd -> ledger_record_ok id rd;
  provider_Reserve_law c0 c1 q p res p' :
    provider_inv p -> provider_Reserve c0 c1 q p = (res, p') ->
    provider_step provider_inv ledger_of p p' /\
    forall rv, res = Ok rv ->
      exists rd, ledger_of p' !! rr_OperationID q = Some rd /\ rd_Reservation rd = rv;
  provider_Finalize_law c0 c1 q p res p' :
    provider_inv p -> provider_Finalize c0 c1 q p = (res, p') ->
    provider_step provider_inv ledger_of p p' /\
    forall t, res = Ok t ->
      exists rd, ledger_of p' !! fr_OperationID q = Some rd /\ rd_TerminalReceipt rd = Some t;
  provider_Abort_law c0 c1 q p res p' :
    provider_inv p -> provider_Abort c0 c1 q p = (res, p') ->
    provider_step provider_inv ledger_of p p' /\
    forall t, res = Ok t ->
      exists rd, ledger_of p' !! ar_OperationID q = Some rd /\ rd_TerminalReceipt rd = Some t;
  provider_Inspect_law c0 c1 id p res p' :
    provider_inv p -> provider_Inspect c0 c1 id p = (res, p') ->
    provider_step provider_inv ledger_of p p' /\
    forall rd, res = Ok rd -> ledger_of p' !! id = Some rd;
  provider_Head_law c0 c1 p res p' :
    provider_inv p -> provider_Head c0 c1 p = (res, p') ->
    provider_step provider_inv ledger_of p p' }.

(** ** The repository *)

(** The repository's transactional methods, as values. *)
Inductive tx :=
| TxRecordPending (reservation : Reservation) (reservedAt : time)
| TxBindEffect (operationID : UUID) (effectDigest : Digest) (point : DatabasePoint)
    (effectBoundAt : time)
| TxActivateCommitted (receipt : Receipt) (terminalAt : time)
| TxRecordAborted (receipt : Receipt) (terminalAt : time).

Class StoreOps := {
  dstate : Type;
  store_Get : env -> UUID -> dstate -> result auth_err FenceRecord;
  store_CaptureDatabasePoint : env -> IdentityRow -> result auth_err DatabasePoint;
  store_Head : env -> dstate -> result auth_err DatabaseHead;
  store_ListPending : env -> Z -> dstate -> result auth_err (list PendingFence);
  store_tx : env -> tx -> dstate -> option auth_err * dstate }.

(** The step of the mirror a transaction may take. *)
Definition tx_label (x : tx) : label :=
  match x with
  | TxRecordPending rv _ => LRecord rv
  | TxBindEffect id d p _ => LBind id d p
  | TxActivateCommitted t _ => LCommit t
  | TxRecordAborted t _ => LAbort t
  end.

(** What a successful transaction has recorded. *)
Definition tx_recorded (x : tx) (m : mirror) : Prop :=
  match x with
  | TxRecordPending rv _ => exists rd, m !! rv_OperationID rv = Some rd /\ rd_Reservation rd = rv
  | TxBindEffect id d p _ => exists rv t, m !! id = Some (MkRecord rv (Some d) (Some p) t)
  | TxActivateCommitted rc _ | TxRecordAborted rc _ =>
      exists rd, m !! rv_OperationID (rc_Reservation rc) = Some rd /\ rd_TerminalReceipt rd = Some rc
  end.

Definition tx_ok `{Primitives} (x : tx) : Prop :=
  match x with TxRecordAborted t _ => unambiguous t | _ => True end.

Class StoreLaws `{Primitives} `{StoreOps} := {
  shows : dstate -> mirror -> Prop;
  shows_functional s m m' : shows s m -> shows s m' -> m = m';
  store_Get_law e id s m rd :
    shows s m -> store_Get e id s = Ok rd ->
    m !! id = Some rd /\ rv_OperationID (rd_Reservation rd) = id;
  store_tx_law e x s m err s' :
    shows s m -> tx_ok x -> store_tx e x s = (err, s') ->
    match err with
    | Some _ => s' = s
    | None => exists m', shows s' m' /\ (m' = m \/ mirror_step m (tx_label x) m') /\ tx_recorded x m'
    end }.

(** ** The deterministic provider is an authority provider *)
Section ProviderInstance.
Context `{Primitives}.

#[export] Instance deterministic_ops : ProviderOps := {|
  pstate := DeterministicProvider;
  provider_Reserve := Reserve;
  provider_Finalize := Finalize;
  provider_Abort := Abort;
  provider_Inspect := Inspect;
  (* the iteration order of the map does not matter: see head_loop_order *)
  provider_Head c0 c1 p := ProviderHead (map_to_list (pv_records p)).*2 c0 c1 p |}.

Definition ledger_records (p : DeterministicProvider) : mirror := dr_record <$> pv_records p.

Lemma ledger_records_lookup p id rd :
  ledger_records p !! id = Some rd <-> exists r, pv_records p !! id = Some r /\ dr_record r = rd.
Proof.
  unfold ledger_records. rewrite lookup_fmap_Some. naive_solver.
Qed.

(** A pending record of the ledger is unbound. *)
Lemma ledger_pending p id r :
  ledger_inv p -> pv_records p !! id = Some r -> rd_TerminalReceipt (dr_record r) = None ->
  rd_BoundEffectDigest (dr_record r) = None /\ rd_BoundDatabasePoint (dr_record r) = None.
Proof.
  intros Hi Hl Ht. apply (li_records _ Hi) in Hl as [].
  unfold outcome_ok in *. rewrite Ht in *. naive_solver.
Qed.

Lemma ledger_change_records p p' :
  ledger_inv p -> ledger_change p p' -> mirror_le (ledger_records p) (ledger_records p').
Proof.
  intros Hi Hc id rd (r & Hl & <-)%ledger_records_lookup.
  destruct (ledger_change_le _ _ Hc) as [_ Hle].
  destruct (Hle _ _ Hl) as (r' & Hl' & _ & Hrv & Hfinal).
  exists (dr_record r'). split; [by apply ledger_records_lookup; eauto|].
  destruct (rd_TerminalReceipt (dr_record r)) as [t|] eqn:Ht.
  - rewrite Hfinal by done. apply record_le_refl.
  - destruct (ledger_pending _ _ _ Hi Hl Ht) as [He Hp].
    constructor; [done| | | |by rewrite Ht]; left; congruence.
Qed.

Lemma ledger_run_step c p :
  ledger_inv p -> provider_step ledger_inv ledger_records p (ledger_run c p).
Proof.
  intros Hi. split; [by eapply ledger_change_inv; [apply ledger_run_change|]|].
  apply ledger_change_records; [done|apply ledger_run_change].
Qed.

Lemma Inspect_ok c0 c1 id p rd p' :
  Inspect c0 c1 id p = (Ok rd, p') -> exists r, pv_records p' !! id = Some r /\ dr_record r = rd.
Proof. unfold Inspect. intros Hc. repeat case_in Hc; simplify_eq. eauto. Qed.

#[export] Instance deterministic_laws : ProviderLaws.
Proof.
  refine {| ledger_of := ledger_records; provider_inv := ledger_inv |}.
  - intros p id rd Hi (r & Hl & <-)%ledger_records_lookup.
    pose proof (ledger_pending _ _ _ Hi Hl) as Hp. apply (li_records _ Hi) in Hl as []. by constructor.
  - intros c0 c1 q p res p' Hi Hc. pose proof (ledger_run_step (CallReserve c0 c1 q) p Hi) as Hs.
    cbn in Hs, Hc. rewrite Hc in Hs. split; [exact Hs|]. intros rv ->.
    destruct (Reserve_stored _ _ _ _ _ _ Hc ltac:(left; eauto)) as (r & Hl & _ & Hrv).
    exists (dr_record r). split; [apply ledger_records_lookup; eauto|by apply Hrv].
  - intros c0 c1 q p res p' Hi Hc. pose proof (ledger_run_step (CallFinalize c0 c1 q) p Hi) as Hs.
    cbn in Hs, Hc. rewrite Hc in Hs. split; [exact Hs|]. intros t ->.
    destruct (Finalize_stored _ _ _ _ _ _ Hi Hc ltac:(left; eauto)) as (r & n & t' & Hl & _ & _ & Ht & _ & Hr).
    exists (dr_record r). split; [apply ledger_records_lookup; eauto|]. by rewrite <- (Hr t eq_refl).
  - intros c0 c1 q p res p' Hi Hc. pose proof (ledger_run_step (CallAbort c0 c1 q) p Hi) as Hs.
    cbn in Hs, Hc. rewrite Hc in Hs. split; [exact Hs|]. intros t ->.
    destruct (Abort_stored _ _ _ _ _ _ Hi Hc ltac:(left; eauto)) as (r & t' & Hl & _ & Ht & _ & Hr).
    exists (dr_record r). split; [apply ledger_records_lookup; eauto|]. by rewrite <- (Hr t eq_refl).
  - intros c0 c1 id p res p' Hi Hc. pose proof (ledger_run_step (CallInspect c0 c1 id) p Hi) as Hs.
    cbn in Hs, Hc. rewrite Hc in Hs. split; [exact Hs|]. intros rd ->.
    apply Inspect_ok in Hc. by apply ledger_records_lookup.
  - intros c0 c1 p res p' Hi Hc.
    pose proof (ledger_run_step (CallHead (map_to_list (pv_records p)).*2 c0 c1) p Hi) as Hs.
    cbn in Hs, Hc. by rewrite Hc in Hs.
Defined.
End ProviderInstance.

(** ** The Postgres repository is a store *)
Section StoreInstance.
Context `{Primitives} `{DL : DriverLaws}.

Definition tx_call (e : env) (x : tx) : store_call :=
  match x with
  | TxRecordPending rv t => StoreRecordPending e rv t
  | TxBindEffect id d p t => StoreBindEffect e id d p t
  | TxActivateCommitted rc t => StoreActivateCommitted e rc t
  | TxRecordAborted rc t => StoreRecordAborted e rc t
  end.

#[export] Instance postgres_ops : StoreOps := {|
  dstate := fences;
  store_Get := Get;
  store_CaptureDatabasePoint := CaptureDatabasePoint;
  store_Head := RepositoryHead;
  store_ListPending := ListPending;
  store_tx e x := store_run (tx_call e x) |}.

#[export] Instance postgres_laws : StoreLaws.
Proof.
  refine {| shows := represents |}.
  - intros s m m'. apply represents_functional.
  - intros e id s m rd. apply Get_ok.
  - intros e x s m err s' Hs Hok Hrun.
    assert (store_call_ok (tx_call e x)) as Hok' by by destruct x.
    pose proof (store_run_refines _ _ _ _ _ Hs Hok' Hrun) as Ho. unfold outcome in Ho.
    destruct err; [done|]. destruct Ho as (m' & Hm' & Hstep & Hpost). exists m'. split; [done|].
    split; [|by destruct x]. destruct Hstep as [->|(l & Hl & Hstep)]; [by left|right].
    destruct x; cbn in Hl; simplify_eq; done.
Defined.
End StoreInstance.
