(* ===== verification/Programs.v ===== *)
(** Programs over calls, shared by the components whose methods call other parts
    of the system several times.

    A program fixes the order of the calls of a method and what is done with
    their answers.  Each call is one atomic step on a shared world; between two
    calls of a program any other program may run.  [wp] is the weakest
    precondition under that interference, [pool_step] the interleaving of any
    number of programs. *)
From Stdlib Require Import ZArith Lia.
From stdpp Require Import base list relations.
From S2P Require Import Prelude.

(** What every step keeps, every sequence of steps keeps. *)
Lemma rtc_keeps {A} (R : relation A) (P : A -> Prop) :
  (forall x y, R x y -> P x -> P y) -> forall x y, rtc R x y -> P x -> P y.
Proof. intros HR x y. induction 1 as [|x y z Hxy _ IH]; eauto. Qed.

(** ** Programs *)

Inductive prog (E : Type -> Type) (A : Type) : Type :=
| Ret (a : A)
| Vis {X : Type} (c : E X) (k : X -> prog E A).
Arguments Ret {E A} a.
Arguments Vis {E A X} c k.

Fixpoint bind {E A B} (p : prog E A) (k : A -> prog E B) : prog E B :=
  match p with
  | Ret a => k a
  | Vis c k' => Vis c (fun x => bind (k' x) k)
  end.

Definition trigger {E X} (c : E X) : prog E X := Vis c Ret.

(** [calls_within n p]: [p] makes at most [n] calls, whatever they answer. *)
Fixpoint calls_within {E A} (n : nat) (p : prog E A) : Prop :=
  match p, n with
  | Ret _, _ => True
  | Vis _ _, O => False
  | Vis _ k, S n => forall x, calls_within n (k x)
  end.

(** [may_return may p a]: [p] can return [a] when its calls answer as [may] allows. *)
Fixpoint may_return {E A} (may : forall X, E X -> X -> Prop) (p : prog E A) (a : A) : Prop :=
  match p with
  | Ret b => b = a
  | Vis c k => exists x, may _ c x /\ may_return may (k x) a
  end.

Lemma calls_within_le {E A} (p : prog E A) n m : (n <= m)%nat -> calls_within n p -> calls_within m p.
Proof.
  revert n m. induction p as [a|X c k IH]; intros [|n] [|m] Hle Hp; cbn in *; try done; [lia|].
  intros x. apply (IH x n); [lia|done].
Qed.

Lemma calls_within_bind {E A B} (p : prog E A) (k : A -> prog E B) n m :
  calls_within n p -> (forall a, calls_within m (k a)) -> calls_within (n + m) (bind p k).
Proof.
  revert n. induction p as [a|X c k' IH]; intros n Hp Hk; cbn.
  - by apply (calls_within_le _ m); [lia|].
  - destruct n as [|n]; [done|]. cbn in *. intros x. by apply IH.
Qed.

Declare Scope prog_scope.
Delimit Scope prog_scope with prog.
Notation "'let!' x := p 'in' q" := (bind p (fun x => q))
  (at level 200, x name, p at level 100, q at level 200) : prog_scope.

(** ** Semantics *)

Section Semantics.
Context {E : Type -> Type} {W C : Type}.

(** One call, with what the environment decides at it. *)
Variable exec : forall X, E X -> C -> W -> X * W.

(** A program run alone, with the choices of its calls in order; [None] when the
    choices run out. *)
Fixpoint run {A} (p : prog E A) (chs : list C) (w : W) : option (A * W) :=
  match p with
  | Ret a => Some (a, w)
  | Vis c k =>
      match chs with
      | [] => None
      | ch :: chs => let '(x, w') := exec _ c ch w in run (k x) chs w'
      end
  end.

Lemma run_within {A} n (p : prog E A) chs w :
  calls_within n p -> (n <= length chs)%nat -> is_Some (run p chs w).
Proof.
  revert n chs w. induction p as [a|X c k IH]; intros n chs w Hp Hl; cbn; [by eexists|].
  destruct n as [|n]; [done|]. destruct chs as [|ch chs]; cbn in Hl; [lia|].
  destruct (exec X c ch w) as [x w']. apply (IH x n); [apply Hp|lia].
Qed.

(** A pool of programs of the requests [Q], one of which makes one call. *)
Inductive pool_step {Q A} : list (Q * prog E A) * W -> list (Q * prog E A) * W -> Prop :=
| pool_call i q X (c : E X) k ch x pool w w' :
    pool !! i = Some (q, Vis c k) -> exec X c ch w = (x, w') ->
    pool_step (pool, w) (<[i := (q, k x)]> pool, w').

(** ** Program logic *)

(** Worlds in order, and how a world may evolve. *)
Variables (ok : W -> Prop) (le : relation W).
Context `{!PreOrder le}.

(** [wp p Q w]: from [w], whatever happens between the calls of [p], every call
    keeps the world in order, and [Q] holds of the result when [p] returns. *)
Fixpoint wp {A} (p : prog E A) (Q : A -> W -> Prop) (w : W) : Prop :=
  forall w1, le w w1 -> ok w1 ->
  match p with
  | Ret a => Q a w1
  | Vis c k => forall ch x w2, exec _ c ch w1 = (x, w2) -> ok w2 /\ le w1 w2 /\ wp (k x) Q w2
  end.

Lemma wp_up {A} (p : prog E A) Q w w' : wp p Q w -> le w w' -> wp p Q w'.
Proof. destruct p; cbn; intros Hwp Hle w1 Hle1; apply Hwp; by etrans. Qed.

Lemma wp_intro {A} (p : prog E A) Q w :
  (forall w1, le w w1 -> ok w1 -> wp p Q w1) -> wp p Q w.
Proof. destruct p; cbn; intros Hwp w1 Hle Hok; by apply (Hwp w1 Hle Hok w1). Qed.

Lemma wp_ret {A} (a : A) (Q : A -> W -> Prop) w :
  (forall w1, le w w1 -> ok w1 -> Q a w1) -> wp (Ret a) Q w.
Proof. done. Qed.

(** Sequencing; the continuation knows that the world only grew. *)
Lemma wp_bind {A B} (p : prog E A) (k : A -> prog E B) P Q w :
  wp p P w ->
  (forall a w', le w w' -> ok w' -> P a w' -> wp (k a) Q w') ->
  wp (bind p k) Q w.
Proof.
  revert w. induction p as [a|X c k' IH]; intros w Hp Hk.
  - apply wp_intro. intros w1 Hle Hok. apply Hk; [done..|]. by apply Hp.
  - cbn. intros w1 Hle Hok ch x w2 He. destruct (Hp w1 Hle Hok ch x w2 He) as (Hok2 & Hle2 & Hp2).
    split; [done|]. split; [done|]. apply IH; [done|]. intros a w' Hle' Hok' HP.
    apply Hk; [|done..]. etrans; [exact Hle|]. by etrans.
Qed.

Lemma wp_trigger {X} (c : E X) (P : X -> W -> Prop) w :
  (forall w1 ch x w2, le w w1 -> ok w1 -> exec X c ch w1 = (x, w2) ->
     ok w2 /\ le w1 w2 /\ forall w3, le w2 w3 -> ok w3 -> P x w3) ->
  wp (trigger c) P w.
Proof.
  intros Hc. cbn. intros w1 Hle Hok ch x w2 He.
  destruct (Hc _ _ _ _ Hle Hok He) as (? & ? & ?). done.
Qed.

Lemma wp_mono {A} (p : prog E A) (P Q : A -> W -> Prop) w :
  (forall a w', P a w' -> Q a w') -> wp p P w -> wp p Q w.
Proof.
  intros HPQ. revert w. induction p as [a|X c k IH]; cbn; intros w Hp w1 Hle Hok; [auto|].
  intros ch x w2 He. destruct (Hp w1 Hle Hok ch x w2 He) as (? & ? & ?). auto.
Qed.

(** A pool all of whose programs keep their promise. *)
Definition pool_ok {Q A} (post : Q -> A -> W -> Prop) (s : list (Q * prog E A) * W) : Prop :=
  ok s.2 /\ Forall (fun t => wp t.2 (post t.1) s.2) s.1.

Lemma pool_up {Q A} (post : Q -> A -> W -> Prop) pool w w' :
  le w w' ->
  Forall (fun t => wp t.2 (post t.1) w) pool -> Forall (fun t => wp t.2 (post t.1) w') pool.
Proof.
  intros Hle Hp. eapply Forall_impl; [exact Hp|]. intros t Ht. cbn beta in *.
  eapply wp_up; [exact Ht|exact Hle].
Qed.

Lemma pool_step_ok {Q A} (post : Q -> A -> W -> Prop) s s' :
  pool_step s s' -> pool_ok post s -> pool_ok post s' /\ le s.2 s'.2.
Proof.
  intros [i q X c k ch x pool w w' Hi He] [Hok Hpool]; cbn [fst snd] in *.
  pose proof (Forall_lookup_1 _ _ _ _ Hpool Hi) as Hwp. cbn [fst snd] in Hwp.
  destruct (Hwp w ltac:(done) Hok ch x w' He) as (Hok' & Hle & Hk).
  split; [|done]. split; [done|]. apply Forall_insert; [by eapply pool_up|done].
Qed.

(** One program of a pool that runs while the others wait. *)
Lemma run_steps_at {Q A} i (q : Q) (p : prog E A) chs pool w r w' :
  pool !! i = Some (q, p) -> run p chs w = Some (r, w') ->
  rtc pool_step (pool, w) (<[i := (q, Ret r)]> pool, w').
Proof.
  revert chs pool w. induction p as [a|X c k IH]; intros chs pool w Hi Hr; cbn in Hr.
  - simplify_eq. by rewrite list_insert_id.
  - destruct chs as [|ch chs]; [done|]. destruct (exec X c ch w) as [x w1] eqn:He.
    eapply rtc_l; [by apply (pool_call i q X c k ch x pool w w1)|].
    rewrite <- (list_insert_insert_eq pool i (q, Ret r) (q, k x)). eapply IH; [|done].
    apply list_lookup_insert_eq. by eapply lookup_lt_Some.
Qed.

Lemma run_steps {Q A} (q : Q) (p : prog E A) chs w r w' :
  run p chs w = Some (r, w') -> rtc pool_step ([(q, p)], w) ([(q, Ret r)], w').
Proof. intros Hr. by apply (run_steps_at 0 q p chs [(q, p)]). Qed.
End Semantics.
