(* ===== verification/Transactions.v ===== *)
(** Database transactions as computations: a state, an error that ends the
    computation, and what the environment decides at each statement.

    [WithinTransaction] of the repositories ([internal/deviceauth] and
    [internal/identity]) keeps the changes of a computation only when it commits;
    a commit that reports a failure may still have taken effect. *)
From Stdlib Require Import ZArith Lia.
From stdpp Require Import base list option.
From S2P Require Import Prelude Programs.

(** [C] is what the environment decides at a statement, [S] the database, [E] the
    errors.  The number counts the statements made so far. *)
Definition txn (C S E A : Type) : Type := (nat -> C) -> nat -> S -> result E A * nat * S.

Section Txn.
Context {C S E : Type}.

Definition tx_ret {A} (a : A) : txn C S E A := fun _ n s => (Ok a, n, s).

Definition tx_fail {A} (e : E) : txn C S E A := fun _ n s => (Err e, n, s).

Definition tx_bind {A B} (m : txn C S E A) (k : A -> txn C S E B) : txn C S E B :=
  fun o n s =>
    match m o n s with
    | (Ok a, n', s') => k a o n' s'
    | (Err e, n', s') => (Err e, n', s')
    end.

(** One statement. *)
Definition tx_step {A} (f : C -> S -> result E A * S) : txn C S E A :=
  fun o n s => let '(r, s') := f (o n) s in (r, Datatypes.S n, s').

(** An error of [m] is replaced by [e]: [if err != nil { return e }]. *)
Definition tx_or {A} (m : txn C S E A) (e : E) : txn C S E A :=
  fun o n s =>
    match m o n s with
    | (Ok a, n', s') => (Ok a, n', s')
    | (Err _, n', s') => (Err e, n', s')
    end.

(** [if cond { return e }] *)
Definition tx_guard (cond : bool) (e : E) : txn C S E unit := if cond then tx_fail e else tx_ret tt.

(** A computation on a part of a larger database, with a part of what the
    environment decides, and its errors translated. *)
Definition tx_zoom {C' S' E' A} (view : C' -> C) (get : S' -> S) (put : S -> S' -> S') (translate : E -> E')
  (m : txn C S E A) : txn C' S' E' A :=
  fun o n s =>
    match m (fun i => view (o i)) n (get s) with
    | (Ok a, n', part) => (Ok a, n', put part s)
    | (Err e, n', part) => (Err (translate e), n', put part s)
    end.

(** A program of calls that leave the database alone: each call takes one
    decision of the environment. *)
Fixpoint tx_prog {F A} (answer : forall X, F X -> C -> X) (p : prog F A) : txn C S E A :=
  match p with
  | Ret a => tx_ret a
  | Vis c k => fun o n s => tx_prog answer (k (answer _ c (o n))) o (Datatypes.S n) s
  end.
End Txn.

Declare Scope txn_scope.
Delimit Scope txn_scope with txn.
Notation "'do' x <- m ; k" := (tx_bind m (fun x => k))
  (at level 200, x name, m at level 100, k at level 200) : txn_scope.
Notation "'do' ' p <- m ; k" := (tx_bind m (fun x => let p := x in k))
  (at level 200, p pattern, m at level 100, k at level 200) : txn_scope.
Notation "'also' m ; k" := (tx_bind m (fun _ => k))
  (at level 200, m at level 100, k at level 200) : txn_scope.
Notation "'fail_if' b 'with' e ; k" := (tx_bind (tx_guard b e) (fun _ => k))
  (at level 200, b at level 100, e at level 100, k at level 200) : txn_scope.

(** ** Transactions *)

(** What becomes of a transaction: it does not begin, it runs and its commit
    succeeds, fails, or fails after it took effect. *)
Inductive tx_fate := BeginFails | CommitOk | CommitFails | CommitLost.

(** [repository.WithinTransaction]; [repositoryErr] is [ErrRepository]. *)
Definition WithinTransaction {C S E A} (repositoryErr : E) (fate : tx_fate) (oracle : nat -> C)
  (operation : txn C S E A) (s : S) : result E A * S :=
  match fate with
  | BeginFails => (Err repositoryErr, s)
  | _ =>
      match operation oracle 0%nat s with
      | (Err e, _, _) => (Err e, s)
      | (Ok a, _, s') =>
          match fate with
          | CommitOk => (Ok a, s')
          | CommitLost => (Err repositoryErr, s')
          | _ => (Err repositoryErr, s)
          end
      end
  end.

(** ** Reasoning *)

(** [runs_under P m s a s']: [m] can take [s] to [s'] and return [a] in an
    environment whose decisions satisfy [P]; [runs] is that of any environment. *)
Definition runs_under {C S E A} (P : C -> Prop) (m : txn C S E A) (s : S) (a : A) (s' : S) : Prop :=
  exists o n n', (forall i, P (o i)) /\ m o n s = (Ok a, n', s').

Abbreviation runs := (runs_under (fun _ => True)).

(** [fails m s e]: [m] can end with the error [e]. *)
Definition fails {C S E A} (m : txn C S E A) (s : S) (e : E) : Prop :=
  exists o n n' s', m o n s = (Err e, n', s').

Section Rules.
Context {C S E : Type}.
Implicit Types (s : S).

Section Under.
Context {P : C -> Prop}.

Lemma runs_ret {A} (a b : A) s s' : runs_under (E:=E) P (tx_ret a) s b s' -> b = a /\ s' = s.
Proof. intros (o & n & n' & _ & Hr). unfold tx_ret in Hr. by simplify_eq. Qed.

Lemma runs_fail {A} (e : E) (b : A) s s' : ~ runs_under P (tx_fail e) s b s'.
Proof. by intros (o & n & n' & _ & Hr). Qed.

Lemma runs_bind {A B} (m : txn C S E A) (k : A -> txn C S E B) s b s' :
  runs_under P (tx_bind m k) s b s' -> exists a s1, runs_under P m s a s1 /\ runs_under P (k a) s1 b s'.
Proof.
  intros (o & n & n' & Ho & Hr). unfold tx_bind in Hr.
  destruct (m o n s) as [[[a|e] n1] s1] eqn:Em; [|done]. exists a, s1. split; repeat eexists; eauto.
Qed.

Lemma runs_step_under {A} (f : C -> S -> result E A * S) s a s' :
  runs_under P (tx_step f) s a s' -> exists c, P c /\ f c s = (Ok a, s').
Proof.
  intros (o & n & n' & Ho & Hr). unfold tx_step in Hr. destruct (f (o n) s) as [r s1] eqn:Ef.
  simplify_eq. eauto.
Qed.

Lemma runs_or {A} (m : txn C S E A) e s a s' : runs_under P (tx_or m e) s a s' -> runs_under P m s a s'.
Proof.
  intros (o & n & n' & Ho & Hr). unfold tx_or in Hr. exists o, n, n'. split; [done|].
  by destruct (m o n s) as [[[b|e'] n1] s1].
Qed.

Lemma runs_guard b (e : E) s u s' : runs_under P (tx_guard b e) s u s' -> b = false /\ s' = s.
Proof. destruct b; cbn; intros Hr; [by apply runs_fail in Hr|]. by apply runs_ret in Hr as [_ ->]. Qed.

Lemma runs_zoom_under {C' S' E' A} (view : C -> C') (get : S -> S') put (translate : E' -> E) (m : txn C' S' E' A) s a s' :
  runs_under P (tx_zoom view get put translate m) s a s' ->
  exists part, runs_under (fun c => exists c0, P c0 /\ c = view c0) m (get s) a part /\ s' = put part s.
Proof.
  intros (o & n & n' & Ho & Hr). unfold tx_zoom in Hr. destruct (m _ n (get s)) as [[[b|e] n1] part] eqn:Em; [|done].
  injection Hr as -> -> <-. exists part. split; [|done]. exists (fun i => view (o i)), n, n'. eauto.
Qed.

Lemma runs_zoom {C' S' E' A} (view : C -> C') (get : S -> S') put (translate : E' -> E) (m : txn C' S' E' A) s a s' :
  runs_under P (tx_zoom view get put translate m) s a s' -> exists part, runs m (get s) a part /\ s' = put part s.
Proof.
  intros (part & (o & n & n' & _ & Hr) & ->)%runs_zoom_under. exists part. split; [by exists o, n, n'|done].
Qed.

(** A program of calls returns what its calls let it return. *)
Lemma runs_prog {F A} (answer : forall X, F X -> C -> X) (p : prog F A) s a s' :
  runs_under (E:=E) P (tx_prog answer p) s a s' ->
  s' = s /\ may_return (fun X c x => exists ch, P ch /\ x = answer X c ch) p a.
Proof.
  revert a s'. induction p as [b|X c k IH]; intros a s' (o & n & n' & Ho & Hr); cbn in Hr.
  - by injection Hr as -> _ ->.
  - destruct (IH (answer X c (o n)) a s') as [-> Hm]; [by exists o, (Datatypes.S n), n'|].
    split; [done|]. exists (answer X c (o n)). eauto.
Qed.

Lemma runs_any {A} (m : txn C S E A) s a s' : runs_under P m s a s' -> runs m s a s'.
Proof. intros (o & n & n' & _ & Hr). by exists o, n, n'. Qed.
End Under.

Lemma runs_step {A} (f : C -> S -> result E A * S) s a s' :
  runs (tx_step f) s a s' -> exists c, f c s = (Ok a, s').
Proof. intros (c & _ & Hf)%runs_step_under. by exists c. Qed.

Lemma fails_bind {A B} (m : txn C S E A) (k : A -> txn C S E B) s e :
  fails (tx_bind m k) s e -> fails m s e \/ exists a s1, runs m s a s1 /\ fails (k a) s1 e.
Proof.
  intros (o & n & n' & s' & Hr). unfold tx_bind in Hr.
  destruct (m o n s) as [[[a|e'] n1] s1] eqn:Em; simplify_eq; [right|left]; repeat eexists; eauto.
Qed.

Lemma fails_or {A} (m : txn C S E A) e e' s : fails (tx_or m e) s e' -> e' = e.
Proof.
  intros (o & n & n' & s' & Hr). unfold tx_or in Hr.
  by destruct (m o n s) as [[[b|e''] n1] s1]; simplify_eq.
Qed.

Lemma fails_guard b (e e' : E) s : fails (C:=C) (tx_guard b e) s e' -> b = true /\ e' = e.
Proof. intros (o & n & n' & s' & Hr). unfold tx_guard, tx_fail, tx_ret in Hr.
  destruct b; by simplify_eq.
Qed.

Lemma fails_ret {A} (a : A) s (e : E) : ~ fails (C:=C) (tx_ret a) s e.
Proof. by intros (o & n & n' & s' & Hr). Qed.

Lemma fails_zoom {C' S' E' A} (view : C' -> C) (get : S' -> S) put (translate : E -> E') (m : txn C S E A) (w : S') e :
  fails (tx_zoom view get put translate m) w e -> exists e', fails m (get w) e' /\ e = translate e'.
Proof.
  intros (o & n & n' & w' & Hr). unfold tx_zoom in Hr. destruct (m _ n (get w)) as [[[b|e'] n1] s] eqn:Em; [done|].
  injection Hr as <- <- <-. exists e'. split; [|done]. by exists (fun i => view (o i)), n, n1, s.
Qed.

(** What a transaction did to the database is what its computation did. *)
Lemma WithinTransaction_cases {A} re fate o (m : txn C S E A) s r s' :
  WithinTransaction re fate o m s = (r, s') ->
  match r with
  | Ok a => runs m s a s'
  | Err e => (s' = s /\ (e = re \/ fails m s e)) \/ (e = re /\ exists a, runs m s a s')
  end.
Proof.
  unfold WithinTransaction. destruct fate; intros Hw; [simplify_eq; auto|..];
    destruct (m o 0%nat s) as [[[a|e] n1] s1] eqn:Em; simplify_eq;
    (left; split; [done|right]; repeat eexists; done) || (right; split; [done|]; repeat eexists; done) ||
    (repeat eexists; done) || auto.
Qed.

(** The same of a transaction that returned, with what its environment satisfies. *)
Lemma WithinTransaction_under {A} (P : C -> Prop) re fate o (m : txn C S E A) s a s' :
  (forall i, P (o i)) -> WithinTransaction re fate o m s = (Ok a, s') -> runs_under P m s a s'.
Proof.
  intros Ho. unfold WithinTransaction. destruct fate; intros Hw; [simplify_eq|..];
    destruct (m o 0%nat s) as [[[b|e] n1] s1] eqn:Em; simplify_eq. by exists o, 0%nat, n1.
Qed.
End Rules.

(** Decomposes the successful run of a computation. *)
Ltac inv_run :=
  repeat match goal with
  | H : runs_under _ (tx_bind _ _) _ _ _ |- _ =>
      let a := fresh "a" in let s := fresh "s" in
      apply runs_bind in H as (a & s & ? & H); cbn beta in H
  | H : runs_under _ (tx_ret _) _ _ _ |- _ => apply runs_ret in H as [? ?]; simplify_eq
  | H : runs_under _ (tx_fail _) _ _ _ |- _ => by apply runs_fail in H
  | H : runs_under _ (tx_or _ _) _ _ _ |- _ => apply runs_or in H
  | H : runs_under _ (tx_guard _ _) _ _ _ |- _ => apply runs_guard in H as [? ?]; simplify_eq
  end.

(** Splits on what decides how the computation goes on. *)
Ltac case_run H :=
  match type of H with
  | runs_under _ (match ?t with _ => _ end) _ _ _ => destruct t eqn:?
  end.
