(* ===== verification/Coordinator.v ===== *)
(** The authority coordinator of [internal/nodecontrol/authority/coordinator.go].

    Each method is a program over calls to its dependencies: the provider, the
    repository, the effect resolver, the clock and polls of the context.  A
    program fixes the order of the calls and what is done with their answers;
    what the dependencies answer, and what other programs do in between, is left
    to the semantics of [CoordinatorLogic.v]. *)
From Stdlib Require Import ZArith Lia Strings.Byte.
From stdpp Require Import base gmap list strings numbers option.
From S2P Require Import Prelude GoStd GoTime AuthorityTypes Ledger FenceRows FenceStore FenceSafety Interfaces Programs.

#[local] Open Scope go_scope.

(** ** Data *)

Abbreviation EffectState := string (only parsing).
Definition EffectAbsent : EffectState := "absent".
Definition EffectPrepared : EffectState := "prepared".
Definition EffectCommitted : EffectState := "committed".
Definition EffectTerminal : EffectState := "terminal".

Record ResolvedEffect := MkResolvedEffect {
  re_Kind : EffectKind;
  re_ScopeKind : ScopeKind;
  re_ScopeDigest : Digest;
  re_EffectDigest : Digest;
  re_State : EffectState }.

Record CoordinatorFinalizeRequest := MkCoordinatorFinalizeRequest {
  cf_OperationID : UUID;
  cf_EffectDigest : Digest }.

Abbreviation ReadinessReason := string (only parsing).
Definition ReadinessReady : ReadinessReason := "ready".
Definition ReadinessProviderUnavailable : ReadinessReason := "provider_unavailable".
Definition ReadinessDatabaseUnavailable : ReadinessReason := "database_unavailable".
Definition ReadinessEffectUnavailable : ReadinessReason := "effect_unavailable".
Definition ReadinessDatabaseIdentityMismatch : ReadinessReason := "database_identity_mismatch".
Definition ReadinessDatabaseTimelineBehind : ReadinessReason := "database_timeline_behind".
Definition ReadinessDatabaseWALBehind : ReadinessReason := "database_wal_behind".
Definition ReadinessDatabaseBehindProvider : ReadinessReason := "database_behind_provider".
Definition ReadinessDatabaseAheadProvider : ReadinessReason := "database_ahead_provider".
Definition ReadinessDatabaseSequenceGap : ReadinessReason := "database_sequence_gap".
Definition ReadinessReservationMismatch : ReadinessReason := "reservation_mismatch".
Definition ReadinessCommittedMismatch : ReadinessReason := "committed_mismatch".
Definition ReadinessPendingCountMismatch : ReadinessReason := "pending_count_mismatch".
Definition ReadinessPendingMismatch : ReadinessReason := "pending_mismatch".
Definition ReadinessPendingUnresolved : ReadinessReason := "pending_unresolved".

Record Readiness := MkReadiness {
  ry_ProviderHead : Head;
  ry_DatabaseHead : DatabaseHead;
  ry_Ready : bool;
  ry_Reason : ReadinessReason }.

Definition zero_Head : Head := MkHead 0 0 0 zero_digest uuid_Nil zero_digest None.

(** ** Programs *)

Inductive call : Type -> Type :=
| CallPoll : call ctx_poll
| CallNow : call time
| CallReserve (q : ReserveRequest) : call (result auth_err Reservation)
| CallFinalize (q : FinalizeRequest) : call (result auth_err Receipt)
| CallAbort (q : AbortRequest) : call (result auth_err Receipt)
| CallInspect (id : UUID) : call (result auth_err FenceRecord)
| CallProviderHead : call (result auth_err Head)
| CallResolve (id : UUID) : call (result auth_err ResolvedEffect)
| CallGet (id : UUID) : call (result auth_err FenceRecord)
| CallCapture : call (result auth_err DatabasePoint)
| CallDatabaseHead : call (result auth_err DatabaseHead)
| CallListPending (epoch : Z) : call (result auth_err (list PendingFence))
| CallTransaction (x : tx) : call (option auth_err).

Abbreviation prog := (Programs.prog call).
#[local] Open Scope prog_scope.

(** ** Errors *)

Definition coordinatorCallError (ctx : ctx_poll) : option auth_err := contextError ctx.

Definition coordinatorInputError (ctx : ctx_poll) : auth_err :=
  if ctx == CtxDone then ErrCanceled else ErrInvalidArgument.

(** [coordinatorDependencyError] of a non-nil error. *)
Definition coordinatorDependencyError (ctx : ctx_poll) (err : auth_err) : auth_err :=
  if (err == CtxCanceled) || (err == CtxDeadlineExceeded) || (ctx == CtxDone) ||
     (err == ErrCanceled)
  then ErrCanceled
  else if bool_decide (err ∈ [ErrInvalidArgument; ErrConflict; ErrTerminalConflict; ErrNotFound;
                              ErrInjectedFailure; ErrResponseLost])
  then err else ErrInjectedFailure.

(** [return zero, coordinatorInputError(ctx)] *)
Definition input_error {A} : prog (result auth_err A) :=
  let! ctx := trigger CallPoll in Ret (Err (coordinatorInputError ctx)).

(** [return zero, coordinatorDependencyError(ctx, err)] *)
Definition dependency_error {A} (err : auth_err) : prog (result auth_err A) :=
  let! ctx := trigger CallPoll in Ret (Err (coordinatorDependencyError ctx err)).

(** [x, err := p; if err != nil { return zero, err }] *)
Definition check {A B} (p : prog (result auth_err A)) (k : A -> prog (result auth_err B)) :
  prog (result auth_err B) :=
  let! r := p in match r with Ok a => k a | Err e => Ret (Err e) end.

Notation "'let?' x := p 'in' q" := (check p (fun x => q))
  (at level 200, x name, p at level 100, q at level 200) : prog_scope.

(** [x, err := dependency(...); if err != nil { return zero, coordinatorDependencyError(ctx, err) }] *)
Definition depend {A} (c : call (result auth_err A)) : prog (result auth_err A) :=
  let! r := trigger c in match r with Ok a => Ret (Ok a) | Err e => dependency_error e end.

(** [if err := p; err != nil { return zero, err }] *)
Definition proceed {B} (p : prog (option auth_err)) (k : prog (result auth_err B)) :
  prog (result auth_err B) :=
  let! r := p in match r with None => k | Some e => Ret (Err e) end.

Definition fail {A} (e : auth_err) : prog (result auth_err A) := Ret (Err e).

(** ** Validation *)
Section Validation.
Context `{Primitives}.

Definition ResolvedEffect_Validate (resolved : ResolvedEffect) : option auth_err :=
  if re_State resolved == EffectAbsent then
    if (re_Kind resolved != ""%string) || (re_ScopeKind resolved != ""%string) ||
       (re_ScopeDigest resolved != zero_digest) || (re_EffectDigest resolved != zero_digest)
    then Some ErrInvalidArgument else None
  else if bool_decide (re_State resolved ∈ [EffectPrepared; EffectCommitted; EffectTerminal]) then
    if is_err (EffectKind_Validate (re_Kind resolved)) ||
       is_err (ScopeKind_Validate (re_ScopeKind resolved)) ||
       negb (validEffectScope (re_Kind resolved) (re_ScopeKind resolved)) ||
       negb (validScopeDigest (re_ScopeKind resolved) (re_ScopeDigest resolved)) ||
       (re_EffectDigest resolved == zero_digest)
    then Some ErrInvalidArgument else None
  else Some ErrInvalidArgument.

Definition resolvedMatchesReservation (resolved : ResolvedEffect) (reservation : Reservation) : bool :=
  (re_Kind resolved == rv_Kind reservation) && (re_ScopeKind resolved == rv_ScopeKind reservation) &&
  (re_ScopeDigest resolved == rv_ScopeDigest reservation).

Definition validCommittedReceiptFor (receipt : Receipt) (reservation : Reservation)
  (effectDigest : Digest) (point : DatabasePoint) : bool :=
  ok_err (Receipt_Validate receipt) && (rc_Status receipt == StatusCommitted) &&
  (rc_Reservation receipt == reservation) && (rc_EffectDigest receipt == Some effectDigest) &&
  (rc_DatabasePoint receipt == Some point).

Definition validAbortedReceiptFor (receipt : Receipt) (record : FenceRecord) (reason : AbortReason) :
  bool :=
  ok_err (Receipt_Validate receipt) && (rc_Status receipt == StatusAborted) &&
  (rc_Reservation receipt == rd_Reservation record) && (rc_AbortReason receipt == Some reason) &&
  equalOptionalDigest (rc_EffectDigest receipt) (rd_BoundEffectDigest record) &&
  equalOptionalDatabasePoint (rc_DatabasePoint receipt) (rd_BoundDatabasePoint record).

Definition validDatabaseHead (value : DatabaseHead) : bool :=
  if dh_Epoch value =? 0 then
    (dh_RecordCount value =? 0) && (dh_LatestReservedSequence value =? 0) &&
    (dh_LatestCommittedSequence value =? 0) && (dh_PendingCount value =? 0) &&
    negb (dh_HasSequenceGap value) && (dh_LatestReservationDigest value == zero_digest) &&
    (dh_LatestCommittedOperationID value == uuid_Nil) &&
    (dh_LatestCommittedReceiptDigest value == zero_digest) &&
    is_nil (dh_LatestCommittedDatabasePoint value)
  else if negb (validPositiveCoordinate (dh_Epoch value)) || (dh_RecordCount value =? 0) ||
          (MaxInt64 <? dh_RecordCount value) || (dh_LatestReservedSequence value =? 0) ||
          (MaxInt64 <? dh_LatestReservedSequence value) ||
          (dh_LatestReservedSequence value <? dh_LatestCommittedSequence value) ||
          (dh_RecordCount value <? dh_PendingCount value) ||
          negb (Bool.eqb (dh_HasSequenceGap value)
                  (negb (dh_RecordCount value =? dh_LatestReservedSequence value))) ||
          (dh_LatestReservationDigest value == zero_digest)
  then false
  else if dh_LatestCommittedSequence value =? 0 then
    (dh_LatestCommittedOperationID value == uuid_Nil) &&
    (dh_LatestCommittedReceiptDigest value == zero_digest) &&
    is_nil (dh_LatestCommittedDatabasePoint value)
  else validOperationID (dh_LatestCommittedOperationID value) &&
       (dh_LatestCommittedReceiptDigest value != zero_digest) &&
       match dh_LatestCommittedDatabasePoint value with
       | Some point => ok_err (DatabasePoint_Validate point)
       | None => false
       end.

Definition fence_reservation (value : PendingFence) : Reservation :=
  MkReservation (pf_OperationID value) (pf_Kind value) (pf_ScopeKind value) (pf_ScopeDigest value)
    (pf_Epoch value) (pf_Sequence value) (pf_ReservationDigest value).

Definition validPendingFence (value : PendingFence) (epoch : Z) : bool :=
  if negb (pf_Epoch value =? epoch) || is_err (Reservation_Validate (fence_reservation value)) ||
     IsZero (pf_ReservedAt value) || negb (t_utc (pf_ReservedAt value)) ||
     negb (Bool.eqb (is_nil (pf_BoundEffectDigest value)) (is_nil (pf_BoundDatabasePoint value))) ||
     negb (Bool.eqb (is_nil (pf_BoundEffectDigest value)) (is_nil (pf_EffectBoundAt value)))
  then false
  else match pf_BoundEffectDigest value, pf_BoundDatabasePoint value, pf_EffectBoundAt value with
       | Some effect, Some point, Some boundAt =>
           (effect != zero_digest) && ok_err (DatabasePoint_Validate point) &&
           negb (IsZero boundAt) && t_utc boundAt && negb (Before boundAt (pf_ReservedAt value))
       | _, _, _ => true
       end.

Definition pendingStateMatches (fence : PendingFence) (providerRecord : FenceRecord)
  (resolved : ResolvedEffect) : bool :=
  let reservation := fence_reservation fence in
  if is_err (Record_Validate providerRecord) || (rd_Reservation providerRecord != reservation)
  then false
  else if (if is_nil (rd_TerminalReceipt providerRecord) then
             not_nil (rd_BoundEffectDigest providerRecord) ||
             not_nil (rd_BoundDatabasePoint providerRecord)
           else
             negb (equalOptionalDigest (rd_BoundEffectDigest providerRecord)
                     (pf_BoundEffectDigest fence)) ||
             negb (equalOptionalDatabasePoint (rd_BoundDatabasePoint providerRecord)
                     (pf_BoundDatabasePoint fence)))
  then false
  else if re_State resolved == EffectAbsent then
    is_nil (pf_BoundEffectDigest fence) && is_nil (rd_TerminalReceipt providerRecord)
  else if re_State resolved == EffectPrepared then
    resolvedMatchesReservation resolved reservation && is_nil (pf_BoundEffectDigest fence) &&
    is_nil (rd_TerminalReceipt providerRecord)
  else if re_State resolved == EffectCommitted then
    if negb (resolvedMatchesReservation resolved reservation) then false
    else if match pf_BoundEffectDigest fence with
            | Some bound => bound != re_EffectDigest resolved | None => false end
    then false
    else match rd_TerminalReceipt providerRecord with
         | None => true
         | Some t => (rc_Status t == StatusCommitted) &&
                     (rc_EffectDigest t == Some (re_EffectDigest resolved))
         end
  else false.

Definition readiness_priority (reason : ReadinessReason) : Z :=
  if reason == ReadinessProviderUnavailable then 4
  else if reason == ReadinessEffectUnavailable then 3
  else if reason == ReadinessPendingMismatch then 2
  else if reason == ReadinessPendingUnresolved then 1
  else 0.

Definition readinessReasonWithPriority (current candidate : ReadinessReason) : ReadinessReason :=
  if readiness_priority current <? readiness_priority candidate then candidate else current.

Definition unavailableReadiness (provider : Head) (database : DatabaseHead)
  (reason : ReadinessReason) : Readiness := MkReadiness provider database false reason.

(** ** Methods *)

Definition now : prog (result auth_err time) :=
  let! ctx := trigger CallPoll in
  if (ctx == CtxNil) || (ctx == CtxDone) then fail ErrCanceled
  else
    let! now := trigger CallNow in
    if IsZero now || negb (t_utc now) || (Year now <? 2020) || (2100 <? Year now)
    then fail ErrInvalidArgument else Ret (Ok now).

(** [err = withAuthorityTransaction(...); return coordinatorDependencyError(ctx, err)] *)
Definition transact (x : tx) : prog (option auth_err) :=
  let! err := trigger (CallTransaction x) in
  match err with
  | None => Ret None
  | Some e => let! ctx := trigger CallPoll in Ret (Some (coordinatorDependencyError ctx e))
  end.

(** [now, err := coordinator.now(ctx); if err != nil { return err }] *)
Definition timed_transact (x : time -> tx) : prog (option auth_err) :=
  let! r := now in match r with Err e => Ret (Some e) | Ok now => transact (x now) end.

Definition recordPending (reservation : Reservation) : prog (option auth_err) :=
  timed_transact (TxRecordPending reservation).

Definition activateCommitted (receipt : Receipt) : prog (option auth_err) :=
  timed_transact (TxActivateCommitted receipt).

Definition recordAborted (receipt : Receipt) : prog (option auth_err) :=
  timed_transact (TxRecordAborted receipt).

Definition resolve (operationID : UUID) : prog (result auth_err ResolvedEffect) :=
  let? resolved := depend (CallResolve operationID) in
  if is_err (ResolvedEffect_Validate resolved) then fail ErrInjectedFailure else Ret (Ok resolved).

Definition ensureBound (record : FenceRecord) (effectDigest : Digest) :
  prog (result auth_err DatabasePoint) :=
  match rd_BoundEffectDigest record, rd_BoundDatabasePoint record with
  | Some bound, None => fail ErrConflict
  | Some bound, Some point =>
      if (bound != effectDigest) || is_err (DatabasePoint_Validate point) then fail ErrConflict
      else Ret (Ok point)
  | None, Some _ => fail ErrConflict
  | None, None =>
      let operationID := rv_OperationID (rd_Reservation record) in
      let? point := depend CallCapture in
      if is_err (DatabasePoint_Validate point) then fail ErrInjectedFailure else
      let? now := now in
      proceed (transact (TxBindEffect operationID effectDigest point now)) (
      let? bound := depend (CallGet operationID) in
      if (rd_BoundEffectDigest bound != Some effectDigest) ||
         (rd_BoundDatabasePoint bound != Some point)
      then fail ErrConflict else Ret (Ok point))
  end.

(** [if err := coordinatorCallError(ctx, coordinator); err != nil || bad { return zero, coordinatorInputError(ctx) }] *)
Definition entering {A} (bad : bool) (body : prog (result auth_err A)) : prog (result auth_err A) :=
  let! ctx := trigger CallPoll in
  if is_err (coordinatorCallError ctx) || bad then input_error else body.

(** The coordinator's [Reserve]. *)
Definition CoordinatorReserve (request : ReserveRequest) : prog (result auth_err Reservation) :=
  entering (is_err (ReserveRequest_Validate request)) (
  let? reservation := depend (CallReserve request) in
  if is_err (Reservation_Validate reservation) ||
     (rv_OperationID reservation != rr_OperationID request) ||
     (rv_Kind reservation != rr_Kind request) ||
     (rv_ScopeKind reservation != rr_ScopeKind request) ||
     (rv_ScopeDigest reservation != rr_ScopeDigest request)
  then fail ErrInjectedFailure else Ret (Ok reservation)).

(** The coordinator's [Finalize]. *)
Definition CoordinatorFinalize (request : CoordinatorFinalizeRequest) :
  prog (result auth_err Receipt) :=
  entering (negb (validOperationID (cf_OperationID request)) ||
            (cf_EffectDigest request == zero_digest)) (
  let? record := depend (CallGet (cf_OperationID request)) in
  let? resolved := resolve (cf_OperationID request) in
  if (re_State resolved != EffectCommitted) ||
     negb (resolvedMatchesReservation resolved (rd_Reservation record)) ||
     (re_EffectDigest resolved != cf_EffectDigest request)
  then fail ErrConflict
  else match rd_TerminalReceipt record with
  | Some terminal =>
      if rc_Status terminal != StatusCommitted then fail ErrTerminalConflict
      else if rc_EffectDigest terminal != Some (cf_EffectDigest request) then fail ErrConflict
      else Ret (Ok terminal)
  | None =>
      let? point := ensureBound record (cf_EffectDigest request) in
      let? receipt := depend (CallFinalize
        (MkFinalizeRequest (cf_OperationID request) (cf_EffectDigest request)
           (dp_SystemID point) (dp_Timeline point) (dp_RequiredLSN point))) in
      if negb (validCommittedReceiptFor receipt (rd_Reservation record)
                 (cf_EffectDigest request) point)
      then fail ErrInjectedFailure
      else proceed (activateCommitted receipt) (Ret (Ok receipt))
  end).

(** A record or its provider counterpart is bound to an effect. *)
Definition either_bound (record providerRecord : FenceRecord) : bool :=
  not_nil (rd_BoundEffectDigest record) || not_nil (rd_BoundDatabasePoint record) ||
  not_nil (rd_BoundEffectDigest providerRecord) || not_nil (rd_BoundDatabasePoint providerRecord).

(** The coordinator's [Abort]. *)
Definition CoordinatorAbort (request : AbortRequest) : prog (result auth_err Receipt) :=
  entering (is_err (AbortRequest_Validate request)) (
  let? record := depend (CallGet (ar_OperationID request)) in
  let? providerRecord := depend (CallInspect (ar_OperationID request)) in
  if is_err (Record_Validate record) || is_err (Record_Validate providerRecord) ||
     (rd_Reservation providerRecord != rd_Reservation record) ||
     negb (equalOptionalDigest (rd_BoundEffectDigest providerRecord) (rd_BoundEffectDigest record)) ||
     negb (equalOptionalDatabasePoint (rd_BoundDatabasePoint providerRecord)
             (rd_BoundDatabasePoint record))
  then fail ErrConflict
  else match rd_TerminalReceipt record, rd_TerminalReceipt providerRecord with
  | Some terminal, providerTerminal =>
      match providerTerminal with
      | None => fail ErrConflict
      | Some providerTerminal =>
          if rc_ReceiptDigest providerTerminal != rc_ReceiptDigest terminal then fail ErrConflict
          else if (rc_Status terminal != StatusAborted) || (rc_Status providerTerminal != StatusAborted)
          then fail ErrTerminalConflict
          else if (rc_AbortReason terminal != Some (ar_Reason request)) ||
                  (rc_AbortReason providerTerminal != Some (ar_Reason request))
          then fail ErrConflict
          else Ret (Ok terminal)
      end
  | None, Some providerTerminal =>
      if rc_Status providerTerminal != StatusAborted then fail ErrTerminalConflict
      else if rc_AbortReason providerTerminal != Some (ar_Reason request) then fail ErrConflict
      else
        let? resolved := resolve (ar_OperationID request) in
        if (re_State resolved != EffectAbsent) || either_bound record providerRecord
        then fail ErrConflict
        else proceed (recordAborted providerTerminal) (Ret (Ok providerTerminal))
  | None, None =>
      let? resolved := resolve (ar_OperationID request) in
      if (re_State resolved != EffectAbsent) || either_bound record providerRecord
      then fail ErrConflict
      else
        let? receipt := depend (CallAbort request) in
        if negb (validAbortedReceiptFor receipt providerRecord (ar_Reason request))
        then fail ErrInjectedFailure
        else proceed (recordAborted receipt) (Ret (Ok receipt))
  end).

Definition completeProviderTerminal (databaseRecord : FenceRecord) (receipt : Receipt)
  (providerReservation : Reservation) (resolved : ResolvedEffect) : prog (result auth_err Receipt) :=
  if rc_Status receipt == StatusCommitted then
    if (re_State resolved != EffectCommitted) ||
       negb (resolvedMatchesReservation resolved providerReservation) ||
       (rc_EffectDigest receipt != Some (re_EffectDigest resolved)) ||
       is_nil (rd_BoundEffectDigest databaseRecord) ||
       negb (equalOptionalDigest (rd_BoundEffectDigest databaseRecord) (rc_EffectDigest receipt)) ||
       negb (equalOptionalDatabasePoint (rd_BoundDatabasePoint databaseRecord)
               (rc_DatabasePoint receipt))
    then fail ErrConflict
    else proceed (activateCommitted receipt) (Ret (Ok receipt))
  else if rc_Status receipt == StatusAborted then
    if (re_State resolved != EffectAbsent) || not_nil (rd_BoundEffectDigest databaseRecord) ||
       not_nil (rd_BoundDatabasePoint databaseRecord) || not_nil (rc_EffectDigest receipt) ||
       not_nil (rc_DatabasePoint receipt) ||
       negb (equalOptionalDigest (rd_BoundEffectDigest databaseRecord) (rc_EffectDigest receipt)) ||
       negb (equalOptionalDatabasePoint (rd_BoundDatabasePoint databaseRecord)
               (rc_DatabasePoint receipt))
    then fail ErrConflict
    else proceed (recordAborted receipt) (Ret (Ok receipt))
  else fail ErrInjectedFailure.

Definition abortKnownRecord (databaseRecord providerRecord : FenceRecord) (reason : AbortReason) :
  prog (result auth_err Receipt) :=
  if rd_Reservation databaseRecord != rd_Reservation providerRecord then fail ErrConflict
  else
    let? receipt := depend (CallAbort
      (MkAbortRequest (rv_OperationID (rd_Reservation providerRecord)) reason)) in
    if negb (validAbortedReceiptFor receipt providerRecord reason) then fail ErrInjectedFailure
    else proceed (recordAborted receipt) (Ret (Ok receipt)).

(** The part of [Recover] after the database record is known. *)
Definition recover_record (operationID : UUID) (databaseRecord providerRecord : FenceRecord)
  (resolved : ResolvedEffect) : prog (result auth_err Receipt) :=
  if is_err (Record_Validate databaseRecord) ||
     (rd_Reservation databaseRecord != rd_Reservation providerRecord)
  then fail ErrConflict
  else if (if is_nil (rd_TerminalReceipt providerRecord) then
             not_nil (rd_BoundEffectDigest providerRecord) ||
             not_nil (rd_BoundDatabasePoint providerRecord)
           else
             negb (equalOptionalDigest (rd_BoundEffectDigest databaseRecord)
                     (rd_BoundEffectDigest providerRecord)) ||
             negb (equalOptionalDatabasePoint (rd_BoundDatabasePoint databaseRecord)
                     (rd_BoundDatabasePoint providerRecord)))
  then fail ErrConflict
  else match rd_TerminalReceipt databaseRecord, rd_TerminalReceipt providerRecord with
  | Some _, None => fail ErrConflict
  | Some databaseTerminal, Some providerTerminal =>
      if rc_ReceiptDigest databaseTerminal != rc_ReceiptDigest providerTerminal
      then fail ErrConflict else Ret (Ok providerTerminal)
  | None, Some providerTerminal =>
      completeProviderTerminal databaseRecord providerTerminal (rd_Reservation providerRecord) resolved
  | None, None =>
      if re_State resolved == EffectAbsent then
        if not_nil (rd_BoundEffectDigest databaseRecord) then fail ErrConflict
        else abortKnownRecord databaseRecord providerRecord AbortValidationFailed
      else if re_State resolved == EffectCommitted then
        if negb (resolvedMatchesReservation resolved (rd_Reservation databaseRecord))
        then fail ErrConflict
        else CoordinatorFinalize (MkCoordinatorFinalizeRequest operationID (re_EffectDigest resolved))
      else if bool_decide (re_State resolved ∈ [EffectPrepared; EffectTerminal])
      then fail ErrConflict else fail ErrInjectedFailure
  end.

(** The coordinator's [Recover]. *)
Definition CoordinatorRecover (operationID : UUID) : prog (result auth_err Receipt) :=
  entering (negb (validOperationID operationID)) (
  let? providerRecord := depend (CallInspect operationID) in
  if is_err (Record_Validate providerRecord) ||
     (rv_OperationID (rd_Reservation providerRecord) != operationID)
  then fail ErrInjectedFailure
  else
    let? resolved := resolve operationID in
    let! found := trigger (CallGet operationID) in
    match found with
    | Ok databaseRecord => recover_record operationID databaseRecord providerRecord resolved
    | Err ErrNotFound =>
        if not_nil (rd_TerminalReceipt providerRecord) || (re_State resolved != EffectAbsent) ||
           not_nil (rd_BoundEffectDigest providerRecord) ||
           not_nil (rd_BoundDatabasePoint providerRecord)
        then fail ErrConflict
        else proceed (recordPending (rd_Reservation providerRecord)) (
          let? databaseRecord := depend (CallGet operationID) in
          recover_record operationID databaseRecord providerRecord resolved)
    | Err e => dependency_error e
    end).
End Validation.
