(* ===== verification/CoordinatorLogic.v ===== *)
(** The readiness check of the authority coordinator: [CheckReady] and
    [inspectPending] of [internal/nodecontrol/authority/coordinator.go].

    The semantics of coordinator programs over a provider and a store, and a
    program logic for them.

    Each call is one atomic step on the shared world; between two calls of a
    program any other program, and any other client of the provider and the
    database, may run.  [wp] is the weakest precondition under that
    interference. *)
From Stdlib Require Import ZArith Lia Strings.Byte.
From stdpp Require Import base gmap list strings numbers option relations.
From S2P Require Import Prelude GoStd GoTime AuthorityTypes Ledger FenceRows FenceStore FenceSafety Interfaces Programs Coordinator.

#[local] Open Scope go_scope.
#[local] Open Scope prog_scope.

Section Ready.
Context `{Primitives}.

(** [x, err := dependency(...)]: a cancellation is returned, any other error
    makes the report [fallback]. *)
Definition or_unavailable {A} (c : call (result auth_err A)) (fallback : Readiness)
  (k : A -> prog (result auth_err Readiness)) : prog (result auth_err Readiness) :=
  let! r := trigger c in
  match r with
  | Ok a => k a
  | Err e =>
      let! ctx := trigger CallPoll in
      if coordinatorDependencyError ctx e == ErrCanceled then fail ErrCanceled
      else Ret (Ok fallback)
  end.

(** The answers that count as a cancellation in [inspectPending]. *)
Definition canceled_answer {A} (r : result auth_err A) : bool :=
  match r with
  | Err e => bool_decide (e ∈ [CtxCanceled; CtxDeadlineExceeded; ErrCanceled])
  | Ok _ => false
  end.

Fixpoint inspectPending (epoch : Z) (reason : ReadinessReason) (pending : list PendingFence) :
  prog (result auth_err ReadinessReason) :=
  match pending with
  | [] => Ret (Ok reason)
  | fence :: pending =>
      let! provider := trigger (CallInspect (pf_OperationID fence)) in
      let! effect := trigger (CallResolve (pf_OperationID fence)) in
      let! ctx := trigger CallPoll in
      if (ctx == CtxNil) || (ctx == CtxDone) || canceled_answer provider || canceled_answer effect
      then fail ErrCanceled
      else
        let reason :=
          match provider with
          | Ok _ => reason
          | Err e =>
              readinessReasonWithPriority reason
                (if bool_decide (e ∈ [ErrNotFound; ErrConflict; ErrTerminalConflict])
                 then ReadinessPendingMismatch else ReadinessProviderUnavailable)
          end in
        let reason :=
          match effect with
          | Ok _ => reason
          | Err _ => readinessReasonWithPriority reason ReadinessEffectUnavailable
          end in
        let reason :=
          match provider, effect with
          | Ok providerRecord, Ok resolved =>
              if negb (validPendingFence fence epoch) then reason
              else if is_err (ResolvedEffect_Validate resolved) ||
                      negb (pendingStateMatches fence providerRecord resolved)
              then readinessReasonWithPriority reason ReadinessPendingMismatch
              else reason
          | _, _ => reason
          end in
        inspectPending epoch reason pending
  end.

(** The comparison of the two heads: the reason they disagree, or the database
    head to report. *)
Definition compare_heads (providerHead : Head) (databaseHead : DatabaseHead) :
  result ReadinessReason DatabaseHead :=
  let databaseEmpty := dh_Epoch databaseHead =? 0 in
  if hd_LatestReservedSequence providerHead =? 0 then
    if negb databaseEmpty then Err ReadinessDatabaseAheadProvider
    else Ok (MkDatabaseHead (hd_Epoch providerHead) (dh_RecordCount databaseHead)
               (dh_LatestReservedSequence databaseHead) (dh_LatestCommittedSequence databaseHead)
               (dh_PendingCount databaseHead) (dh_HasSequenceGap databaseHead)
               (dh_LatestReservationDigest databaseHead) (dh_LatestCommittedOperationID databaseHead)
               (dh_LatestCommittedReceiptDigest databaseHead)
               (dh_LatestCommittedDatabasePoint databaseHead))
  else if databaseEmpty || (dh_Epoch databaseHead <? hd_Epoch providerHead)
  then Err ReadinessDatabaseBehindProvider
  else if hd_Epoch providerHead <? dh_Epoch databaseHead then Err ReadinessDatabaseAheadProvider
  else if negb (dh_RecordCount databaseHead =? dh_LatestReservedSequence databaseHead) ||
          dh_HasSequenceGap databaseHead
  then Err ReadinessDatabaseSequenceGap
  else if dh_LatestReservedSequence databaseHead <? hd_LatestReservedSequence providerHead
  then Err ReadinessDatabaseBehindProvider
  else if hd_LatestReservedSequence providerHead <? dh_LatestReservedSequence databaseHead
  then Err ReadinessDatabaseAheadProvider
  else if dh_LatestReservationDigest databaseHead != hd_LatestReservationDigest providerHead
  then Err ReadinessReservationMismatch
  else if dh_LatestCommittedSequence databaseHead <? hd_LatestCommittedSequence providerHead
  then Err ReadinessDatabaseBehindProvider
  else if hd_LatestCommittedSequence providerHead <? dh_LatestCommittedSequence databaseHead
  then Err ReadinessDatabaseAheadProvider
  else if (dh_LatestCommittedOperationID databaseHead != hd_LatestCommittedOperationID providerHead) ||
          (dh_LatestCommittedReceiptDigest databaseHead !=
             hd_LatestCommittedReceiptDigest providerHead) ||
          negb (equalOptionalDatabasePoint (dh_LatestCommittedDatabasePoint databaseHead)
                  (hd_LatestCommittedDatabasePoint providerHead))
  then Err ReadinessCommittedMismatch
  else Ok databaseHead.

(** The database is at least as far as the point of the last committed receipt. *)
Definition compare_points (currentPoint : DatabasePoint) (committed : option DatabasePoint) :
  option ReadinessReason :=
  match committed with
  | None => None
  | Some point =>
      if dp_Timeline currentPoint <? dp_Timeline point then Some ReadinessDatabaseTimelineBehind
      else if walPositionLess (dp_RequiredLSN currentPoint) (dp_RequiredLSN point)
      then Some ReadinessDatabaseWALBehind
      else None
  end.

(** The coordinator's [CheckReady]. *)
Definition CheckReady : prog (result auth_err Readiness) :=
  entering false (
  or_unavailable CallProviderHead
    (unavailableReadiness zero_Head zero_DatabaseHead ReadinessProviderUnavailable) (fun providerHead =>
  if is_err (Head_Validate providerHead)
  then Ret (Ok (unavailableReadiness zero_Head zero_DatabaseHead ReadinessProviderUnavailable))
  else
  let unavailable := unavailableReadiness providerHead zero_DatabaseHead ReadinessDatabaseUnavailable in
  or_unavailable CallCapture unavailable (fun currentPoint =>
  if is_err (DatabasePoint_Validate currentPoint) then Ret (Ok unavailable) else
  or_unavailable CallDatabaseHead unavailable (fun databaseHead =>
  if negb (validDatabaseHead databaseHead) then Ret (Ok unavailable)
  else if match hd_LatestCommittedDatabasePoint providerHead with
          | Some point => negb (dp_SystemID currentPoint =? dp_SystemID point)
          | None => false
          end
  then Ret (Ok (unavailableReadiness providerHead databaseHead ReadinessDatabaseIdentityMismatch))
  else match compare_heads providerHead databaseHead with
  | Err reason => Ret (Ok (unavailableReadiness providerHead databaseHead reason))
  | Ok databaseHead =>
    match compare_points currentPoint (hd_LatestCommittedDatabasePoint providerHead) with
    | Some reason => Ret (Ok (unavailableReadiness providerHead databaseHead reason))
    | None =>
        or_unavailable (CallListPending (hd_Epoch providerHead))
          (unavailableReadiness providerHead databaseHead ReadinessDatabaseUnavailable) (fun pending =>
        if negb (len pending =? dh_PendingCount databaseHead)
        then Ret (Ok (unavailableReadiness providerHead databaseHead ReadinessPendingCountMismatch))
        else match pending with
        | [] => Ret (Ok (MkReadiness providerHead databaseHead true ReadinessReady))
        | _ :: _ =>
            let? reason := inspectPending (hd_Epoch providerHead) ReadinessPendingUnresolved pending in
            Ret (Ok (unavailableReadiness providerHead databaseHead reason))
        end)
    end
  end)))).
End Ready.

(** ** Transactions *)

(** The environment of one transaction: its own polls and failures (0: begin,
    1: commit), those of the method it runs, and whether a commit that reports a
    failure took effect all the same. *)
Record tx_env := MkTxEnv {
  te_env : env;
  te_body : env;
  te_committed : bool }.

Definition calm_tx : tx_env := MkTxEnv calm calm false.

(** A database error as the coordinator sees it. *)
Definition pg_auth_err (e : pg_error) : auth_err :=
  match e with
  | PgCanceled => CtxCanceled
  | PgDeadlineExceeded => CtxDeadlineExceeded
  | PgNoRows | PgUniqueViolation | PgOther => ErrOther
  end.

(** [PostgresRepository.withAuthorityTransaction]; the body's changes are kept
    only by a commit. *)
Definition withAuthorityTransaction {S} (t : tx_env) (operation : S -> option auth_err * S) (s : S) :
  option auth_err * S :=
  let e := te_env t in
  if is_err (repositoryCallError (poll e 0)) then (Some (coordinatorInputError (poll e 1)), s)
  else match fault e 0 with
  | Some err => (Some (coordinatorDependencyError (poll e 2) (pg_auth_err err)), s)
  | None =>
      match operation s with
      | (Some err, _) => (Some (coordinatorDependencyError (poll e 3) err), s)
      | (None, s') =>
          match fault e 1 with
          | Some err => (Some (coordinatorDependencyError (poll e 4) (pg_auth_err err)),
                         if te_committed t then s' else s)
          | None => (None, s')
          end
      end
  end.

(** ** The world *)

(** What the environment decides at one call: polls, clock, failures, the
    resolver's answer and the database's identity. *)
Record choice := MkChoice {
  ch_poll : ctx_poll;
  ch_poll2 : ctx_poll;
  ch_now : time;
  ch_env : env;
  ch_tx : tx_env;
  ch_resolved : result auth_err ResolvedEffect;
  ch_identity : IdentityRow }.

Section World.
Context `{Primitives} `{ProviderOps} `{StoreOps}.

Record world := MkWorld { w_provider : pstate; w_store : dstate }.

Definition on_provider {A} (f : pstate -> A * pstate) (w : world) : A * world :=
  let '(a, p) := f (w_provider w) in (a, MkWorld p (w_store w)).

(** One call. *)
Definition exec {X} (c : call X) (ch : choice) : world -> X * world :=
  match c in call X return world -> X * world with
  | CallPoll => fun w => (ch_poll ch, w)
  | CallNow => fun w => (ch_now ch, w)
  | CallReserve q => on_provider (provider_Reserve (ch_poll ch) (ch_poll2 ch) q)
  | CallFinalize q => on_provider (provider_Finalize (ch_poll ch) (ch_poll2 ch) q)
  | CallAbort q => on_provider (provider_Abort (ch_poll ch) (ch_poll2 ch) q)
  | CallInspect id => on_provider (provider_Inspect (ch_poll ch) (ch_poll2 ch) id)
  | CallProviderHead => on_provider (provider_Head (ch_poll ch) (ch_poll2 ch))
  | CallResolve id => fun w => (ch_resolved ch, w)
  | CallGet id => fun w => (store_Get (ch_env ch) id (w_store w), w)
  | CallCapture => fun w => (store_CaptureDatabasePoint (ch_env ch) (ch_identity ch), w)
  | CallDatabaseHead => fun w => (store_Head (ch_env ch) (w_store w), w)
  | CallListPending epoch => fun w => (store_ListPending (ch_env ch) epoch (w_store w), w)
  | CallTransaction x => fun w =>
      let '(err, s) := withAuthorityTransaction (ch_tx ch)
                         (store_tx (te_body (ch_tx ch)) x) (w_store w) in
      (err, MkWorld (w_provider w) s)
  end.

End World.

(** A program run alone. *)
Abbreviation run := (Programs.run (@exec _ _)).

(** ** Agreement of the mirror with the ledger *)

(** Whatever the mirror says of an operation the ledger issued: the reservation
    is the ledger's, and so is a terminal receipt. *)
Definition mirrored (ledger m : mirror) : Prop :=
  forall id rd, m !! id = Some rd ->
  exists pr, ledger !! id = Some pr /\ rd_Reservation rd = rd_Reservation pr /\
    forall t, rd_TerminalReceipt rd = Some t -> rd_TerminalReceipt pr = Some t.

Lemma mirrored_grow ledger ledger' m :
  mirrored ledger m -> mirror_le ledger ledger' -> mirrored ledger' m.
Proof.
  intros Hm Hle id rd Hl. destruct (Hm _ _ Hl) as (pr & Hp & Hr & Ht).
  destruct (Hle _ _ Hp) as (pr' & Hp' & Hpr). exists pr'. split; [done|].
  split; [rewrite Hr; apply Hpr|]. intros t Htt. specialize (Ht _ Htt).
  destruct (rle_terminal _ _ Hpr) as [?|]; congruence.
Qed.

(** Which steps of the mirror keep the agreement. *)
Definition justified (ledger : mirror) (l : label) : Prop :=
  match l with
  | LRecord rv => exists pr, ledger !! rv_OperationID rv = Some pr /\ rd_Reservation pr = rv
  | LBind _ _ _ => True
  | LCommit t | LAbort t =>
      exists pr, ledger !! rv_OperationID (rc_Reservation t) = Some pr /\
        rd_TerminalReceipt pr = Some t
  end.

Lemma mirrored_step `{Primitives} ledger m l m' :
  mirrored ledger m -> justified ledger l -> mirror_step m l m' -> mirrored ledger m'.
Proof.
  intros Hm Hj Hstep id rd Hl.
  destruct Hstep as [rv Hn Hv Hfree|i rv d p Hli|rv e p t Hli _ _ Hrv|rv e p t Hli _ _ Hrv].
  - destruct (decide (id = rv_OperationID rv)) as [->|Hne];
      [|rewrite lookup_insert_ne in Hl by done; by apply Hm].
    rewrite lookup_insert_eq in Hl. simplify_eq. destruct Hj as (pr & Hp & Hr).
    exists pr. by split_and!.
  - destruct (decide (id = i)) as [->|Hne]; [|rewrite lookup_insert_ne in Hl by done; by apply Hm].
    rewrite lookup_insert_eq in Hl. simplify_eq. destruct (Hm _ _ Hli) as (pr & ? & ? & _).
    exists pr. by split_and!.
  - destruct (decide (id = rv_OperationID rv)) as [->|Hne];
      [|rewrite lookup_insert_ne in Hl by done; by apply Hm].
    rewrite lookup_insert_eq in Hl. simplify_eq. destruct (Hm _ _ Hli) as (pr & Hp & Hr & _).
    destruct Hj as (pr' & Hp' & Ht). simplify_eq. exists pr'. split_and!; [done|done|].
    intros t' [= <-]. done.
  - destruct (decide (id = rv_OperationID rv)) as [->|Hne];
      [|rewrite lookup_insert_ne in Hl by done; by apply Hm].
    rewrite lookup_insert_eq in Hl. simplify_eq. destruct (Hm _ _ Hli) as (pr & Hp & Hr & _).
    destruct Hj as (pr' & Hp' & Ht). simplify_eq. exists pr'. split_and!; [done|done|].
    intros t' [= <-]. done.
Qed.

Lemma justified_grow ledger ledger' l :
  justified ledger l -> mirror_le ledger ledger' -> justified ledger' l.
Proof.
  intros Hj Hle. destruct l as [rv|id d p|t|t]; cbn in *; [|done|..];
    destruct Hj as (pr & Hp & Hr); destruct (Hle _ _ Hp) as (pr' & Hp' & Hpr); exists pr';
    (split; [done|]).
  - rewrite <- (rle_reservation _ _ Hpr). done.
  - destruct (rle_terminal _ _ Hpr); congruence.
  - destruct (rle_terminal _ _ Hpr); congruence.
Qed.

(** ** Program logic *)
Section Growth.
Context `{Primitives} {PO : ProviderOps} {PL : ProviderLaws} {SO : StoreOps} {SL : StoreLaws}.

Implicit Types (w : world).

Definition ledger w : mirror := ledger_of (w_provider w).

Definition world_ok w : Prop :=
  provider_inv (w_provider w) /\ exists m, shows (w_store w) m /\ mirrored (ledger w) m.

(** The ledger and the mirror only grow. *)
Definition world_le w w' : Prop :=
  mirror_le (ledger w) (ledger w') /\
  forall m, shows (w_store w) m -> exists m', shows (w_store w') m' /\ mirror_le m m'.

#[export] Instance world_le_preorder : PreOrder world_le.
Proof.
  split.
  - intros w. split; [apply mirror_le_refl|]. intros m Hm. exists m. split; [done|apply mirror_le_refl].
  - intros a b c [Hl1 Hs1] [Hl2 Hs2]. split; [by eapply mirror_le_trans|].
    intros m Hm. destruct (Hs1 _ Hm) as (m1 & Hm1 & Hle1). destruct (Hs2 _ Hm1) as (m2 & Hm2 & Hle2).
    exists m2. split; [done|]. by eapply mirror_le_trans.
Qed.

End Growth.

(** Weakest preconditions of coordinator programs. *)
Abbreviation wp := (Programs.wp (@exec _ _) world_ok world_le).
Abbreviation wp_up := (Programs.wp_up (@exec _ _) world_ok world_le).
Abbreviation wp_intro := (Programs.wp_intro (@exec _ _) world_ok world_le).
Abbreviation wp_ret := (Programs.wp_ret (@exec _ _) world_ok world_le).
Abbreviation wp_bind := (Programs.wp_bind (@exec _ _) world_ok world_le).
Abbreviation wp_trigger := (Programs.wp_trigger (@exec _ _) world_ok world_le).
Abbreviation wp_mono := (Programs.wp_mono (@exec _ _) world_ok world_le).
Abbreviation pool_up := (Programs.pool_up (@exec _ _) world_ok world_le).

Section Logic.
Context `{Primitives} {PO : ProviderOps} {PL : ProviderLaws} {SO : StoreOps} {SL : StoreLaws}.

Implicit Types (w : world).

(** *** Calls *)

Lemma shows_unique w m m' : shows (w_store w) m -> shows (w_store w) m' -> m = m'.
Proof. apply shows_functional. Qed.

Lemma provider_call_ok {A} (f : pstate -> A * pstate) w a w' :
  world_ok w -> on_provider f w = (a, w') ->
  (forall p', f (w_provider w) = (a, p') -> provider_step provider_inv ledger_of (w_provider w) p') ->
  world_ok w' /\ world_le w w'.
Proof.
  intros [Hi (m & Hm & Hmir)] He Hstep. unfold on_provider in He.
  destruct (f (w_provider w)) as [a' p'] eqn:Hf. simplify_eq.
  destruct (Hstep _ eq_refl) as [Hi' Hle]. split.
  - split; [done|]. exists m. split; [done|]. by eapply mirrored_grow.
  - split; [done|]. intros m0 Hm0. exists m0. split; [done|apply mirror_le_refl].
Qed.

(** Transactions. *)
Lemma transaction_cases {S} t (f : S -> option auth_err * S) s err s' :
  withAuthorityTransaction t f s = (err, s') ->
  (s' = s /\ err <> None) \/ f s = (None, s').
Proof.
  unfold withAuthorityTransaction. intros Ht. case_top Ht; [simplify_eq; by left|].
  case_top Ht; [simplify_eq; by left|]. destruct (f s) as [[e|] s1]; [simplify_eq; by left|].
  case_top Ht; [|simplify_eq; by right]. destruct (te_committed t); simplify_eq; auto.
Qed.

Lemma transaction_done {S} t (f : S -> option auth_err * S) s s' :
  withAuthorityTransaction t f s = (None, s') -> f s = (None, s').
Proof.
  unfold withAuthorityTransaction. intros Ht. case_top Ht; [done|]. case_top Ht; [done|].
  destruct (f s) as [[e|] s1]; [done|]. by case_top Ht.
Qed.

Lemma transaction_call_ok x ch w err w' :
  world_ok w -> justified (ledger w) (tx_label x) -> tx_ok x ->
  exec (CallTransaction x) ch w = (err, w') ->
  world_ok w' /\ world_le w w' /\
  (err = None -> exists m, shows (w_store w') m /\ tx_recorded x m).
Proof.
  intros [Hi (m & Hm & Hmir)] Hj Hx He. cbn in He.
  destruct (withAuthorityTransaction _ _ _) as [err' s'] eqn:Ht. simplify_eq.
  pose proof (transaction_cases _ _ _ _ _ Ht) as [[-> Hne]|Hf].
  - split; [by split; [|exists m]|]. split; [|done].
    split; [apply mirror_le_refl|]. intros m0 Hm0. exists m0. split; [done|apply mirror_le_refl].
  - pose proof (store_tx_law _ _ _ _ _ _ Hm Hx Hf) as (m' & Hm' & Hstep & Hrec).
    assert (mirror_le m m') as Hle
      by (destruct Hstep as [->|Hstep]; [apply mirror_le_refl|by eapply mirror_step_le]).
    split; [|split].
    + split; [done|]. exists m'. split; [done|].
      destruct Hstep as [->|Hstep]; [done|]. by eapply mirrored_step.
    + split; [apply mirror_le_refl|]. intros m0 Hm0. exists m'. split; [done|].
      by rewrite (shows_unique _ _ _ Hm0 Hm).
    + intros _. eauto.
Qed.

(** *** What a program can know *)

(** The provider holds a record at least as far along as [rd]. *)
Definition issued (rd : FenceRecord) w : Prop :=
  exists pr, ledger w !! rv_OperationID (rd_Reservation rd) = Some pr /\ record_le rd pr.

Definition stored (rd : FenceRecord) w : Prop :=
  exists m md, shows (w_store w) m /\ m !! rv_OperationID (rd_Reservation rd) = Some md /\
    record_le rd md.

Definition receipt_issued (t : Receipt) w : Prop :=
  exists pr, ledger w !! rv_OperationID (rc_Reservation t) = Some pr /\
    rd_TerminalReceipt pr = Some t.

Definition receipt_stored (t : Receipt) w : Prop :=
  exists m rd, shows (w_store w) m /\ m !! rv_OperationID (rc_Reservation t) = Some rd /\
    rd_TerminalReceipt rd = Some t.

Lemma issued_up rd w w' : issued rd w -> world_le w w' -> issued rd w'.
Proof.
  intros (pr & Hp & Hr) [Hle _]. destruct (Hle _ _ Hp) as (pr' & Hp' & Hpr).
  exists pr'. split; [done|]. by eapply record_le_trans.
Qed.

Lemma stored_up rd w w' : stored rd w -> world_le w w' -> stored rd w'.
Proof.
  intros (m & md & Hm & Hl & Hr) [_ Hle]. destruct (Hle _ Hm) as (m' & Hm' & Hle').
  destruct (Hle' _ _ Hl) as (md' & Hl' & Hr'). exists m', md'. split_and!; [done|done|].
  by eapply record_le_trans.
Qed.

Lemma receipt_issued_up t w w' : receipt_issued t w -> world_le w w' -> receipt_issued t w'.
Proof.
  intros (pr & Hp & Ht) [Hle _]. destruct (Hle _ _ Hp) as (pr' & Hp' & Hpr).
  exists pr'. split; [done|]. destruct (rle_terminal _ _ Hpr); congruence.
Qed.

Lemma receipt_stored_up t w w' : receipt_stored t w -> world_le w w' -> receipt_stored t w'.
Proof.
  intros (m & rd & Hm & Hl & Ht) [_ Hle]. destruct (Hle _ Hm) as (m' & Hm' & Hle').
  destruct (Hle' _ _ Hl) as (rd' & Hl' & Hr). exists m', rd'. split_and!; [done|done|].
  destruct (rle_terminal _ _ Hr); congruence.
Qed.

(** A stored terminal receipt was issued by the provider. *)
Lemma receipt_stored_issued t w : world_ok w -> receipt_stored t w -> receipt_issued t w.
Proof.
  intros [_ (m & Hm & Hmir)] (m' & rd & Hm' & Hl & Ht).
  rewrite <- (shows_unique _ _ _ Hm Hm') in Hl. destruct (Hmir _ _ Hl) as (pr & Hp & _ & Hpt).
  exists pr. auto.
Qed.

Lemma stored_receipt rd t w :
  world_ok w -> stored rd w -> rd_TerminalReceipt rd = Some t ->
  rv_OperationID (rd_Reservation rd) = rv_OperationID (rc_Reservation t) -> receipt_stored t w.
Proof.
  intros _ (m & md & Hm & Hl & Hr) Ht Hid. exists m, md. rewrite <- Hid. split_and!; [done|done|].
  by rewrite (rle_final _ _ Hr) by congruence.
Qed.

Lemma issued_receipt rd t w :
  issued rd w -> rd_TerminalReceipt rd = Some t ->
  rv_OperationID (rd_Reservation rd) = rv_OperationID (rc_Reservation t) -> receipt_issued t w.
Proof.
  intros (pr & Hp & Hr) Ht Hid. exists pr. rewrite <- Hid. split; [done|].
  by rewrite (rle_final _ _ Hr) by congruence.
Qed.

(** *** Rules for the coordinator's combinators *)

(** The result is good, or an error. *)
Definition ok_post {A} (P : A -> world -> Prop) (r : result auth_err A) w : Prop :=
  match r with Ok a => P a w | Err _ => True end.

Lemma wp_fail {A} (P : A -> world -> Prop) e w : wp (fail e) (ok_post P) w.
Proof. done. Qed.

Lemma wp_poll P w : (forall ctx w', world_le w w' -> world_ok w' -> P ctx w') -> wp (trigger CallPoll) P w.
Proof.
  intros HP. apply wp_trigger. intros w1 ch x w2 Hle Hok He. cbn in He. simplify_eq.
  split; [done|]. split; [done|]. intros w3 Hle3 Hok3. apply HP; [by etrans|done].
Qed.

Lemma wp_any {X} (c : call X) w :
  (forall ch w1 x w2, world_ok w1 -> exec c ch w1 = (x, w2) -> w2 = w1) ->
  wp (trigger c) (fun _ _ => True) w.
Proof.
  intros Hc. apply wp_trigger. intros w1 ch x w2 Hle Hok He. by rewrite (Hc _ _ _ _ Hok He).
Qed.

Lemma wp_dependency_error {A} (P : A -> world -> Prop) e w : wp (dependency_error e) (ok_post P) w.
Proof. eapply wp_bind; [by apply wp_poll with (P := fun _ _ => True)|]. done. Qed.

Lemma wp_input_error {A} (P : A -> world -> Prop) w : wp input_error (ok_post P) w.
Proof. eapply wp_bind; [by apply wp_poll with (P := fun _ _ => True)|]. done. Qed.

Lemma wp_check {A B} (p : prog (result auth_err A)) (k : A -> prog (result auth_err B)) P Q w :
  wp p (ok_post P) w ->
  (forall a w', world_le w w' -> world_ok w' -> P a w' -> wp (k a) (ok_post Q) w') ->
  wp (check p k) (ok_post Q) w.
Proof.
  intros Hp Hk. eapply wp_bind; [exact Hp|]. intros [a|e] w' Hle Hok HP; [by apply Hk|done].
Qed.

Lemma wp_depend {A} (c : call (result auth_err A)) P w :
  wp (trigger c) (ok_post P) w ->
  (forall a w1 w2, P a w1 -> world_le w1 w2 -> P a w2) ->
  wp (depend c) (ok_post P) w.
Proof.
  intros Hc Hup. eapply wp_bind; [exact Hc|]. intros [a|e] w' Hle Hok HP.
  - apply wp_ret. intros w1 Hle1 _. cbn in *. by eapply Hup.
  - apply wp_dependency_error.
Qed.

Lemma wp_proceed {B} (p : prog (option auth_err)) (k : prog (result auth_err B)) (P : world -> Prop) Q w :
  wp p (fun r w' => r = None -> P w') w ->
  (forall w', world_le w w' -> world_ok w' -> P w' -> wp k (ok_post Q) w') ->
  wp (proceed p k) (ok_post Q) w.
Proof.
  intros Hp Hk. eapply wp_bind; [exact Hp|]. intros [e|] w' Hle Hok HP; [done|]. by apply Hk, HP.
Qed.

Lemma wp_entering {A} bad (body : prog (result auth_err A)) P w :
  (bad = false -> forall w', world_le w w' -> world_ok w' -> wp body (ok_post P) w') ->
  wp (entering bad body) (ok_post P) w.
Proof.
  intros Hb. eapply wp_bind; [by apply wp_poll with (P := fun _ _ => True)|].
  intros ctx w' Hle Hok _. destruct (is_err _ || bad) eqn:E; [apply wp_input_error|].
  apply orb_false_iff in E as [_ E]. by apply Hb.
Qed.
End Logic.
