(* ===== verification/CoordinatorSafety.v ===== *)
(** The coordinator's methods verified against the interfaces of its
    dependencies, under interference.

    The system: any number of coordinator requests running at once, interleaved
    call by call with each other and with other clients of the provider and of
    the database. *)
From Stdlib Require Import ZArith Lia Strings.Byte.
From stdpp Require Import base gmap list strings numbers option relations.
From S2P Require Import Prelude GoStd GoTime AuthorityTypes Ledger LedgerSafety FenceRows FenceStore FenceSafety Interfaces Programs Coordinator CoordinatorLogic.

#[local] Open Scope go_scope.

Section Safety.
Context `{Primitives} {PO : ProviderOps} {PL : ProviderLaws} {SO : StoreOps} {SL : StoreLaws}.

Implicit Types (w : world).

(** ** Receipts of the ledger *)

Lemma equalOptionalDigest_eq a b : equalOptionalDigest a b = true -> a = b.
Proof. destruct a, b; cbn; intros; bool_props; congruence. Qed.

Lemma equalOptionalDatabasePoint_eq a b : equalOptionalDatabasePoint a b = true -> a = b.
Proof. destruct a, b; cbn; intros; bool_props; congruence. Qed.

Lemma Record_Validate_terminal rd t :
  Record_Validate rd = None -> rd_TerminalReceipt rd = Some t ->
  Receipt_Validate t = None /\ rc_Reservation t = rd_Reservation rd /\
  rc_EffectDigest t = rd_BoundEffectDigest rd /\ rc_DatabasePoint t = rd_BoundDatabasePoint rd.
Proof.
  intros Hv Ht. unfold Record_Validate in Hv. rewrite Ht in Hv.
  case_top Hv; [done|]. case_top Hv; [done|]. case_top Hv; [done|]. clear Hv. bool_props.
  repeat match goal with
  | E : equalOptionalDigest _ _ = true |- _ => apply equalOptionalDigest_eq in E
  | E : equalOptionalDatabasePoint _ _ = true |- _ => apply equalOptionalDatabasePoint_eq in E
  end. done.
Qed.

Lemma ledger_receipt w id pr t :
  world_ok w -> ledger w !! id = Some pr -> rd_TerminalReceipt pr = Some t ->
  Receipt_Validate t = None /\ rc_Reservation t = rd_Reservation pr /\
  rv_OperationID (rc_Reservation t) = id.
Proof.
  intros [Hi _] Hl Ht. destruct (provider_record _ _ _ Hi Hl) as [Hv Hid _].
  destruct (Record_Validate_terminal _ _ Hv Ht) as (? & Hr & _). rewrite Hr. done.
Qed.

(** What a record read from the database says of its receipt. *)
Lemma stored_terminal rd t w :
  world_ok w -> stored rd w -> rd_TerminalReceipt rd = Some t ->
  rc_Reservation t = rd_Reservation rd /\ Receipt_Validate t = None /\
  receipt_stored t w /\ receipt_issued t w.
Proof.
  intros Hok Hs Ht. assert (Hs' := Hs). destruct Hs as (m & md & Hm & Hl & Hr).
  assert (Hok' := Hok). destruct Hok as [Hi (m' & Hm' & Hmir)].
  rewrite (shows_unique _ _ _ Hm' Hm) in Hmir. destruct (Hmir _ _ Hl) as (pr & Hp & Hrv & Hpt).
  assert (md = rd) as -> by (apply (rle_final _ _ Hr); congruence).
  destruct (ledger_receipt _ _ _ _ Hok' Hp (Hpt _ Ht)) as (Hv & Hres & Hid).
  assert (rc_Reservation t = rd_Reservation rd) as Heq by congruence.
  split; [done|]. split; [done|].
  assert (receipt_stored t w) as Hst by (eapply stored_receipt; [done|done|done|congruence]).
  split; [done|]. by apply receipt_stored_issued.
Qed.

Lemma issued_terminal rd t w :
  world_ok w -> issued rd w -> ledger_record_ok (rv_OperationID (rd_Reservation rd)) rd ->
  rd_TerminalReceipt rd = Some t ->
  rc_Reservation t = rd_Reservation rd /\ Receipt_Validate t = None /\ receipt_issued t w /\
  rc_EffectDigest t = rd_BoundEffectDigest rd.
Proof.
  intros Hok Hs [Hv _ _] Ht. destruct (Record_Validate_terminal _ _ Hv Ht) as (? & Hr & ? & _).
  split_and!; [done|done| |done]. eapply issued_receipt; [done|done|]. by rewrite Hr.
Qed.

Lemma receipt_issued_unique t t' w :
  receipt_issued t w -> receipt_issued t' w ->
  rv_OperationID (rc_Reservation t) = rv_OperationID (rc_Reservation t') -> t = t'.
Proof. intros (pr & Hp & Ht) (pr' & Hp' & Ht') He. rewrite He in Hp. simplify_eq. congruence. Qed.

(** ** Calls *)

Lemma wp_Get id w :
  wp (trigger (CallGet id))
    (ok_post (fun rd w => stored rd w /\ rv_OperationID (rd_Reservation rd) = id)) w.
Proof.
  apply wp_trigger. intros w1 ch x w2 Hle Hok He. cbn in He. simplify_eq.
  split; [done|]. split; [done|]. intros w3 Hle3 _.
  destruct (store_Get _ _ _) as [rd|] eqn:Hg; [|done]. cbn.
  destruct Hok as [_ (m & Hm & _)]. destruct (store_Get_law _ _ _ _ _ Hm Hg) as [Hl Hid].
  split; [|done]. eapply stored_up; [|exact Hle3]. exists m, rd. rewrite Hid.
  split_and!; [done|done|apply record_le_refl].
Qed.

Lemma wp_depend_Get id w :
  wp (depend (CallGet id))
    (ok_post (fun rd w => stored rd w /\ rv_OperationID (rd_Reservation rd) = id)) w.
Proof.
  apply wp_depend; [apply wp_Get|]. intros rd w1 w2 [Hs Hid] Hle. split; [by eapply stored_up|done].
Qed.

Lemma wp_Inspect id w :
  wp (depend (CallInspect id))
    (ok_post (fun rd w => issued rd w /\ rv_OperationID (rd_Reservation rd) = id /\
                ledger_record_ok id rd)) w.
Proof.
  apply wp_depend.
  - apply wp_trigger. intros w1 ch x w2 Hle Hok He. cbn in He.
    destruct (provider_call_ok _ _ _ _ Hok He) as [Hok2 Hle2].
    { intros p' Hp. eapply provider_Inspect_law; [apply Hok|done]. }
    split; [done|]. split; [done|]. intros w3 Hle3 Hok3. destruct x as [rd|]; [|done]. cbn.
    unfold on_provider in He. destruct (provider_Inspect _ _ _ _) as [r p'] eqn:Hi. simplify_eq.
    destruct (provider_Inspect_law _ _ _ _ _ _ (proj1 Hok) Hi) as [[Hinv _] Hl].
    specialize (Hl _ eq_refl). destruct (provider_record _ _ _ Hinv Hl) as [Hv Hid Hp].
    split; [|split; [done|by constructor]]. eapply issued_up; [|exact Hle3].
    exists rd. rewrite Hid. split; [done|apply record_le_refl].
  - intros rd w1 w2 (Hs & Hid & Hr) Hle. split; [by eapply issued_up|done].
Qed.

(** A receipt the provider just returned. *)
Lemma wp_Finalize q w :
  wp (depend (CallFinalize q))
    (ok_post (fun t w => receipt_issued t w /\ rv_OperationID (rc_Reservation t) = fr_OperationID q)) w.
Proof.
  apply wp_depend.
  - apply wp_trigger. intros w1 ch x w2 Hle Hok He. cbn in He.
    destruct (provider_call_ok _ _ _ _ Hok He) as [Hok2 Hle2].
    { intros p' Hp. eapply provider_Finalize_law; [apply Hok|done]. }
    split; [done|]. split; [done|]. intros w3 Hle3 Hok3. destruct x as [t|]; [|done]. cbn.
    unfold on_provider in He. destruct (provider_Finalize _ _ _ _) as [r p'] eqn:Hi. simplify_eq.
    destruct (provider_Finalize_law _ _ _ _ _ _ (proj1 Hok) Hi) as [_ Hl].
    destruct (Hl _ eq_refl) as (pr & Hp & Ht).
    destruct (ledger_receipt _ _ _ _ Hok2 Hp Ht) as (_ & _ & Hid).
    split; [|done]. eapply receipt_issued_up; [|exact Hle3]. exists pr. by rewrite Hid.
  - intros t w1 w2 [Hs Hid] Hle. split; [by eapply receipt_issued_up|done].
Qed.

Lemma wp_Abort q w :
  wp (depend (CallAbort q))
    (ok_post (fun t w => receipt_issued t w /\ rv_OperationID (rc_Reservation t) = ar_OperationID q)) w.
Proof.
  apply wp_depend.
  - apply wp_trigger. intros w1 ch x w2 Hle Hok He. cbn in He.
    destruct (provider_call_ok _ _ _ _ Hok He) as [Hok2 Hle2].
    { intros p' Hp. eapply provider_Abort_law; [apply Hok|done]. }
    split; [done|]. split; [done|]. intros w3 Hle3 Hok3. destruct x as [t|]; [|done]. cbn.
    unfold on_provider in He. destruct (provider_Abort _ _ _ _) as [r p'] eqn:Hi. simplify_eq.
    destruct (provider_Abort_law _ _ _ _ _ _ (proj1 Hok) Hi) as [_ Hl].
    destruct (Hl _ eq_refl) as (pr & Hp & Ht).
    destruct (ledger_receipt _ _ _ _ Hok2 Hp Ht) as (_ & _ & Hid).
    split; [|done]. eapply receipt_issued_up; [|exact Hle3]. exists pr. by rewrite Hid.
  - intros t w1 w2 [Hs Hid] Hle. split; [by eapply receipt_issued_up|done].
Qed.

Lemma wp_resolve id w :
  wp (resolve id) (ok_post (fun r _ => ResolvedEffect_Validate r = None)) w.
Proof.
  eapply wp_check with (P := fun _ _ => True).
  - apply wp_depend; [|done]. apply wp_trigger. intros w1 ch x w2 Hle Hok He. cbn in He. simplify_eq.
    split; [done|]. split; [done|]. by destruct (ch_resolved ch).
  - intros r w' _ _ _. destruct (is_err _) eqn:E; [done|]. bool_props. by apply wp_ret.
Qed.

Lemma wp_Capture w : wp (depend CallCapture) (ok_post (fun _ _ => True)) w.
Proof.
  apply wp_depend; [|done]. apply wp_trigger. intros w1 ch x w2 Hle Hok He. cbn in He. simplify_eq.
  split; [done|]. split; [done|]. by destruct (store_CaptureDatabasePoint _ _).
Qed.

Lemma wp_now w : wp now (ok_post (fun _ _ => True)) w.
Proof.
  eapply wp_bind; [by apply wp_poll with (P := fun _ _ => True)|]. intros ctx w1 _ _ _.
  destruct (_ || _); [done|]. eapply wp_bind.
  - apply wp_any. intros ch w2 x w3 _ He. cbn in He. by simplify_eq.
  - intros t w2 _ _ _. by destruct (_ || _).
Qed.

(** ** Transactions *)

(** The ledger justifies what is to be recorded. *)
Definition grounds (l : label) w : Prop := justified (ledger w) l.

Lemma grounds_up l w w' : grounds l w -> world_le w w' -> grounds l w'.
Proof. intros Hg [Hle _]. by eapply justified_grow. Qed.

Lemma wp_transact x P w :
  tx_ok x -> grounds (tx_label x) w ->
  (forall w', (exists m, shows (w_store w') m /\ tx_recorded x m) -> P w') ->
  (forall w1 w2, P w1 -> world_le w1 w2 -> P w2) ->
  wp (transact x) (fun r w' => r = None -> P w') w.
Proof.
  intros Hx Hg HP Hup. eapply wp_bind.
  - apply wp_trigger with (P := fun r w' => r = None -> P w').
    intros w1 ch r w2 Hle Hok He.
    destruct (transaction_call_ok _ _ _ _ _ Hok (grounds_up _ _ _ Hg Hle) Hx He) as (Hok2 & Hle2 & Hrec).
    split; [done|]. split; [done|]. intros w3 Hle3 _ Hr. eapply Hup; [|exact Hle3]. by apply HP, Hrec.
  - intros [e|] w' Hle Hok HPw.
    + eapply wp_bind; [by apply wp_poll with (P := fun _ _ => True)|].
      intros ctx w1 _ _ _. by apply wp_ret.
    + apply wp_ret. intros w1 Hle1 _ _. eapply Hup; [|exact Hle1]. by apply HPw.
Qed.

Lemma wp_timed_transact (x : time -> tx) P w :
  (forall t, tx_ok (x t)) -> (forall t, grounds (tx_label (x t)) w) ->
  (forall t w', (exists m, shows (w_store w') m /\ tx_recorded (x t) m) -> P w') ->
  (forall w1 w2, P w1 -> world_le w1 w2 -> P w2) ->
  wp (timed_transact x) (fun r w' => r = None -> P w') w.
Proof.
  intros Hx Hg HP Hup. eapply wp_bind; [apply wp_now|]. intros [t|e] w' Hle Hok _.
  - apply wp_transact; [done| |apply HP|done]. eapply grounds_up; [apply Hg|exact Hle].
  - by apply wp_ret.
Qed.

Lemma receipt_recorded t at_ w :
  (exists m, shows (w_store w) m /\ tx_recorded (TxActivateCommitted t at_) m) -> receipt_stored t w.
Proof. intros (m & Hm & rd & Hl & Ht). by exists m, rd. Qed.

Lemma wp_activateCommitted t w :
  receipt_issued t w ->
  wp (activateCommitted t) (fun r w' => r = None -> receipt_stored t w') w.
Proof.
  intros Hi. apply wp_timed_transact; [done|by intros|..].
  - intros at_ w'. by apply receipt_recorded.
  - apply receipt_stored_up.
Qed.

Lemma wp_recordAborted t w :
  receipt_issued t w -> rc_EffectDigest t = None ->
  wp (recordAborted t) (fun r w' => r = None -> receipt_stored t w') w.
Proof.
  intros Hi He. apply wp_timed_transact; [by left|by intros|..].
  - intros at_ w' (m & Hm & rd & Hl & Ht). by exists m, rd.
  - apply receipt_stored_up.
Qed.

Lemma wp_recordPending rd w :
  issued rd w -> wp (recordPending (rd_Reservation rd)) (fun r _ => r = None -> True) w.
Proof.
  intros (pr & Hp & Hr). apply wp_timed_transact with (P := fun _ => True); [done| |done|done].
  intros t. exists pr. split; [done|]. symmetry. apply Hr.
Qed.

(** ** Methods *)

(** Case analysis on the condition a program branches on. *)
Ltac wp_if :=
  match goal with
  | |- wp (if ?b then _ else _) _ _ => let E := fresh "Eif" in destruct b eqn:E
  end.

(** Both sides hold the receipt. *)
Definition settled (t : Receipt) w : Prop := receipt_issued t w /\ receipt_stored t w.

Lemma settled_up t w w' : settled t w -> world_le w w' -> settled t w'.
Proof. intros [Hi Hs] Hle. split; [by eapply receipt_issued_up|by eapply receipt_stored_up]. Qed.

Lemma wp_ensureBound record d w :
  wp (ensureBound record d) (ok_post (fun _ _ => True)) w.
Proof.
  unfold ensureBound. destruct (rd_BoundEffectDigest record), (rd_BoundDatabasePoint record); try done.
  { by wp_if. }
  eapply wp_check; [apply wp_Capture|]. intros point w1 _ _ _. wp_if; [done|].
  eapply wp_check; [apply wp_now|]. intros t w2 _ _ _.
  eapply wp_proceed with (P := fun _ => True); [by apply wp_transact|].
  intros w3 _ _ _. eapply wp_check; [apply wp_depend_Get|]. intros bound w4 _ _ _.
  by wp_if.
Qed.

Lemma validCommittedReceiptFor_facts t rv d p :
  validCommittedReceiptFor t rv d p = true ->
  rc_Status t = StatusCommitted /\ rc_EffectDigest t = Some d /\ rc_Reservation t = rv.
Proof. unfold validCommittedReceiptFor. intros Hv. bool_props. done. Qed.

Lemma validAbortedReceiptFor_facts t rd reason :
  validAbortedReceiptFor t rd reason = true ->
  rc_Status t = StatusAborted /\ rc_AbortReason t = Some reason /\
  rc_Reservation t = rd_Reservation rd /\ rc_EffectDigest t = rd_BoundEffectDigest rd.
Proof.
  unfold validAbortedReceiptFor. intros Hv. bool_props.
  match goal with E : equalOptionalDigest _ _ = true |- _ => apply equalOptionalDigest_eq in E end. done.
Qed.

(** [Finalize] returns a committed receipt for the requested effect that both
    sides hold. *)
Definition finalized_post (q : CoordinatorFinalizeRequest) (t : Receipt) w : Prop :=
  settled t w /\ rc_Status t = StatusCommitted /\ rc_EffectDigest t = Some (cf_EffectDigest q) /\
  rv_OperationID (rc_Reservation t) = cf_OperationID q.

Lemma wp_CoordinatorFinalize q w : wp (CoordinatorFinalize q) (ok_post (finalized_post q)) w.
Proof.
  apply wp_entering. intros _ w0 _ _.
  eapply wp_check; [apply wp_depend_Get|]. intros record w1 _ Hok1 [Hs Hid].
  eapply wp_check; [apply wp_resolve|]. intros resolved w2 Hle2 Hok2 _.
  wp_if; [done|]. apply (stored_up _ _ _ Hs) in Hle2 as Hs2.
  destruct (rd_TerminalReceipt record) as [t|] eqn:Ht.
  - wp_if; [done|]. wp_if; [done|]. bool_props.
    destruct (stored_terminal _ _ _ Hok2 Hs2 Ht) as (Hrv & _ & Hst & His).
    apply wp_ret. intros w3 Hle3 _. split; [by eapply settled_up|]. split_and!; [done|done|congruence].
  - eapply wp_check; [apply wp_ensureBound|]. intros point w3 Hle3 Hok3 _.
    eapply wp_check; [apply wp_Finalize|]. intros t w4 Hle4 Hok4 [Hi Hop].
    wp_if; [done|]. bool_props. 
    match goal with E : validCommittedReceiptFor _ _ _ _ = true |- _ =>
      apply validCommittedReceiptFor_facts in E as (Hst & He & Hrv) end.
    eapply wp_proceed; [by apply wp_activateCommitted|]. intros w5 Hle5 _ Hstored.
    apply wp_ret. intros w6 Hle6 _. split_and!; [|done..].
    eapply settled_up; [|exact Hle6]. split; [by eapply receipt_issued_up|done].
Qed.

(** [Abort] returns an aborted receipt with the requested reason that both sides
    hold. *)
Definition aborted_post (q : AbortRequest) (t : Receipt) w : Prop :=
  settled t w /\ rc_Status t = StatusAborted /\ rc_AbortReason t = Some (ar_Reason q) /\
  rv_OperationID (rc_Reservation t) = ar_OperationID q.

Lemma either_bound_false rd pr :
  either_bound rd pr = false ->
  rd_BoundEffectDigest rd = None /\ rd_BoundDatabasePoint rd = None /\
  rd_BoundEffectDigest pr = None /\ rd_BoundDatabasePoint pr = None.
Proof. unfold either_bound. intros Hb. bool_props. done. Qed.

Lemma wp_CoordinatorAbort q w : wp (CoordinatorAbort q) (ok_post (aborted_post q)) w.
Proof.
  apply wp_entering. intros _ w0 _ _.
  eapply wp_check; [apply wp_depend_Get|]. intros record w1 _ Hok1 [Hs Hid].
  eapply wp_check; [apply wp_Inspect|]. intros pr w2 Hle2 Hok2 (Hpr & Hpid & Hrec).
  wp_if; [done|]. apply (stored_up _ _ _ Hs) in Hle2 as Hs2.
  destruct (rd_TerminalReceipt record) as [t|] eqn:Ht, (rd_TerminalReceipt pr) as [pt|] eqn:Hpt.
  - wp_if; [done|]. wp_if; [done|].
    wp_if; [done|]. bool_props.
    destruct (stored_terminal _ _ _ Hok2 Hs2 Ht) as (Hrv & _ & Hst & His).
    apply wp_ret. intros w3 Hle3 _. split; [by eapply settled_up|]. split_and!; [done|done|congruence].
  - done.
  - wp_if; [done|]. wp_if; [done|]. bool_props.
    eapply wp_check; [apply wp_resolve|]. intros resolved w3 Hle3 Hok3 _.
    wp_if; [done|]. bool_props.
    match goal with E : either_bound _ _ = false |- _ => apply either_bound_false in E as (_ & _ & Heff & _) end.
    destruct (issued_terminal pr pt w2) as (Hrv & _ & His & Hpe); [done|done|by rewrite Hpid|done|].
    eapply wp_proceed; [apply wp_recordAborted; [by eapply receipt_issued_up|congruence]|].
    intros w4 Hle4 _ Hst. apply wp_ret. intros w5 Hle5 _. split_and!; [|done|done|congruence].
    eapply settled_up; [|exact Hle5]. split; [|done]. eapply receipt_issued_up; [exact His|]. by etrans.
  - eapply wp_check; [apply wp_resolve|]. intros resolved w3 Hle3 Hok3 _.
    wp_if; [done|]. bool_props.
    match goal with E : either_bound _ _ = false |- _ => apply either_bound_false in E as (_ & _ & Heff & _) end.
    eapply wp_check; [apply wp_Abort|]. intros t w4 Hle4 Hok4 [Hi Hop].
    wp_if; [done|]. bool_props. 
    match goal with E : validAbortedReceiptFor _ _ _ = true |- _ =>
      apply validAbortedReceiptFor_facts in E as (Hst & Hr & _ & He) end.
    eapply wp_proceed; [apply wp_recordAborted; [done|congruence]|]. intros w5 Hle5 _ Hstored.
    apply wp_ret. intros w6 Hle6 _. split_and!; [|done..].
    eapply settled_up; [|exact Hle6]. split; [by eapply receipt_issued_up|done].
Qed.

(** [Recover] returns a receipt of the operation that both sides hold. *)
Definition recovered_post (id : UUID) (t : Receipt) w : Prop :=
  settled t w /\ rv_OperationID (rc_Reservation t) = id.

Lemma settle_committed t w :
  receipt_issued t w ->
  wp (proceed (activateCommitted t) (Ret (Ok t))) (ok_post (recovered_post (rv_OperationID (rc_Reservation t)))) w.
Proof.
  intros Hi. eapply wp_proceed; [by apply wp_activateCommitted|]. intros w1 Hle1 _ Hs.
  apply wp_ret. intros w2 Hle2 _. split; [|done]. eapply settled_up; [|exact Hle2].
  split; [by eapply receipt_issued_up|done].
Qed.

Lemma settle_aborted t w :
  receipt_issued t w -> rc_EffectDigest t = None ->
  wp (proceed (recordAborted t) (Ret (Ok t))) (ok_post (recovered_post (rv_OperationID (rc_Reservation t)))) w.
Proof.
  intros Hi He. eapply wp_proceed; [by apply wp_recordAborted|]. intros w1 Hle1 _ Hs.
  apply wp_ret. intros w2 Hle2 _. split; [|done]. eapply settled_up; [|exact Hle2].
  split; [by eapply receipt_issued_up|done].
Qed.

Lemma wp_completeProviderTerminal db t rv resolved w :
  receipt_issued t w ->
  wp (completeProviderTerminal db t rv resolved)
    (ok_post (recovered_post (rv_OperationID (rc_Reservation t)))) w.
Proof.
  intros Hi. unfold completeProviderTerminal. wp_if.
  - wp_if; [done|]. by apply settle_committed.
  - wp_if; [|done].
    wp_if; [done|]. bool_props. by apply settle_aborted.
Qed.

Lemma wp_abortKnownRecord db pr reason w :
  rd_BoundEffectDigest pr = None ->
  wp (abortKnownRecord db pr reason)
    (ok_post (recovered_post (rv_OperationID (rd_Reservation pr)))) w.
Proof.
  intros Hb. unfold abortKnownRecord. wp_if; [done|].
  eapply wp_check; [apply wp_Abort|]. intros t w1 _ _ [Hi Hop].
  wp_if; [done|]. bool_props. 
  match goal with E : validAbortedReceiptFor _ _ _ = true |- _ =>
    apply validAbortedReceiptFor_facts in E as (_ & _ & Hrv & He) end. cbn in Hop. rewrite <- Hop.
  apply settle_aborted; [done|congruence].
Qed.

Lemma wp_recover_record id db pr resolved w :
  world_ok w -> stored db w -> rv_OperationID (rd_Reservation db) = id ->
  issued pr w -> rv_OperationID (rd_Reservation pr) = id -> ledger_record_ok id pr ->
  wp (recover_record id db pr resolved) (ok_post (recovered_post id)) w.
Proof.
  intros Hok Hs Hid Hpr Hpid Hrec. unfold recover_record.
  wp_if; [done|]. wp_if; [done|].
  destruct (rd_TerminalReceipt db) as [t|] eqn:Ht, (rd_TerminalReceipt pr) as [pt|] eqn:Hpt.
  - wp_if; [done|].
    destruct (stored_terminal _ _ _ Hok Hs Ht) as (Hrv & _ & Hst & His).
    destruct (issued_terminal pr pt w) as (Hprv & _ & Hpis & _); [done|done|by rewrite Hpid|done|].
    assert (t = pt) as -> by (eapply receipt_issued_unique; [done|done|congruence]).
    apply wp_ret. intros w1 Hle1 _. split; [by eapply settled_up|congruence].
  - done.
  - destruct (issued_terminal pr pt w) as (Hprv & _ & Hpis & _); [done|done|by rewrite Hpid|done|].
    replace id with (rv_OperationID (rc_Reservation pt)) by congruence.
    by apply wp_completeProviderTerminal.
  - wp_if.
    + wp_if; [done|]. rewrite <- Hpid. apply wp_abortKnownRecord.
      by apply (lr_pending _ _ Hrec).
    + wp_if.
      * wp_if; [done|]. apply wp_intro. intros w1 _ _.
        eapply wp_mono; [|apply wp_CoordinatorFinalize]. intros [t|] w2; [|done].
        intros (Hset & _ & _ & Hop). by split.
      * by wp_if.
Qed.

Lemma wp_CoordinatorRecover id w : wp (CoordinatorRecover id) (ok_post (recovered_post id)) w.
Proof.
  apply wp_entering. intros _ w0 _ _.
  eapply wp_check; [apply wp_Inspect|]. intros pr w1 _ _ (Hpr & Hpid & Hrec).
  wp_if; [done|].
  eapply wp_check; [apply wp_resolve|]. intros resolved w2 Hle2 _ _.
  eapply wp_bind; [apply wp_Get|]. intros [db|e] w3 Hle3 Hok3 Hdb.
  - destruct Hdb as [Hs Hid]. apply wp_recover_record; try done.
    eapply issued_up; [exact Hpr|by etrans].
  - destruct e; try apply wp_dependency_error. wp_if; [done|].
    eapply wp_proceed with (P := fun _ => True).
    + apply wp_recordPending. eapply issued_up; [exact Hpr|by etrans].
    + intros w4 Hle4 _ _. eapply wp_check; [apply wp_depend_Get|].
      intros db w5 Hle5 Hok5 [Hs Hid]. apply wp_recover_record; try done.
      eapply issued_up; [exact Hpr|]. etrans; [exact Hle2|]. etrans; [exact Hle3|]. by etrans.
Qed.

(** [Reserve] returns the provider's reservation for the request. *)
Definition reserved_post (q : ReserveRequest) (rv : Reservation) w : Prop :=
  issued (MkRecord rv None None None) w /\ rv_OperationID rv = rr_OperationID q /\
  rv_Kind rv = rr_Kind q /\ rv_ScopeKind rv = rr_ScopeKind q /\
  rv_ScopeDigest rv = rr_ScopeDigest q /\ Reservation_Validate rv = None.

Lemma wp_CoordinatorReserve q w : wp (CoordinatorReserve q) (ok_post (reserved_post q)) w.
Proof.
  apply wp_entering. intros _ w0 _ _.
  eapply wp_check with (P := fun rv w => rv_OperationID rv = rr_OperationID q ->
                                issued (MkRecord rv None None None) w).
  - apply wp_depend; [|intros rv w1 w2 Hi Hle Hop; eapply issued_up; [by apply Hi|done]].
    apply wp_trigger. intros w1 ch x w2 Hle Hok He. cbn in He.
    destruct (provider_call_ok _ _ _ _ Hok He) as [Hok2 Hle2].
    { intros p' Hp. eapply provider_Reserve_law; [apply Hok|done]. }
    split; [done|]. split; [done|]. intros w3 Hle3 Hok3. destruct x as [rv|]; [|done]. cbn. intros Hop.
    unfold on_provider in He. destruct (provider_Reserve _ _ _ _) as [r p'] eqn:Hi. simplify_eq.
    destruct (provider_Reserve_law _ _ _ _ _ _ (proj1 Hok) Hi) as [_ Hl].
    destruct (Hl _ eq_refl) as (pr & Hp & Hrv). eapply issued_up; [|exact Hle3].
    exists pr. cbn. rewrite Hop. split; [done|]. constructor; cbn; try (by left); done.
  - intros rv w1 _ _ Hi. wp_if; [done|]. bool_props.
    apply wp_ret. intros w2 Hle2 _. split_and!; try done. eapply issued_up; [|exact Hle2]. by apply Hi.
Qed.

(** ** Programs that only read *)

Fixpoint reads_only {A} (p : prog A) : Prop :=
  match p with
  | Ret _ => True
  | Vis c k => match c with CallTransaction _ => False | _ => True end /\ forall x, reads_only (k x)
  end.

Ltac reads_if := match goal with |- reads_only (if ?b then _ else _) => destruct b end.

Lemma reads_only_bind {A B} (p : prog A) (k : A -> prog B) :
  reads_only p -> (forall a, reads_only (k a)) -> reads_only (bind p k).
Proof. induction p as [a|X c k' IH]; cbn; [auto|]. intros [Hc Hk] H2. split; [done|]. auto. Qed.

Lemma wp_reads_only {A} (p : prog A) w : reads_only p -> wp p (fun _ _ => True) w.
Proof.
  revert w. induction p as [a|X c k IH]; intros w Hr; cbn in *; [done|].
  intros w1 Hle Hok ch x w2 He. destruct Hr as [Hc Hk].
  assert (world_ok w2 /\ world_le w1 w2) as [Hok2 Hle2]; [|by split_and!; [..|apply IH, Hk]].
  destruct c; try done; cbn in He; simplify_eq; try done;
    (eapply provider_call_ok; [done|exact He|]; intros p' Hp).
  - eapply provider_Reserve_law; [apply Hok|done].
  - eapply provider_Finalize_law; [apply Hok|done].
  - eapply provider_Abort_law; [apply Hok|done].
  - eapply provider_Inspect_law; [apply Hok|done].
  - eapply provider_Head_law; [apply Hok|done].
Qed.

Lemma inspectPending_reads epoch reason pending : reads_only (inspectPending epoch reason pending).
Proof.
  revert reason. induction pending as [|f l IH]; intros reason; [done|]. cbn.
  split; [done|]. intros x. split; [done|]. intros y. split; [done|]. intros ctx.
  reads_if; [done|]. apply IH.
Qed.

Lemma or_unavailable_reads {A} (c : call (result auth_err A)) r k :
  match c with CallTransaction _ => False | _ => True end ->
  (forall a, reads_only (k a)) -> reads_only (or_unavailable c r k).
Proof.
  intros Hc Hk. split; [done|]. intros [a|e]; [apply Hk|]. split; [done|]. intros ctx. cbn [bind].
  by reads_if.
Qed.

Lemma CheckReady_reads : reads_only CheckReady.
Proof.
  split; [done|]. intros ctx. cbn [bind]. reads_if; [done|].
  apply or_unavailable_reads; [done|]. intros ph. reads_if; [done|].
  apply or_unavailable_reads; [done|]. intros point. reads_if; [done|].
  apply or_unavailable_reads; [done|]. intros dh. reads_if; [done|].
  reads_if; [done|].
  destruct (compare_heads _ _); [|done]. destruct (compare_points _ _); [done|].
  apply or_unavailable_reads; [done|]. intros pending. reads_if; [done|].
  destruct pending; [done|]. apply reads_only_bind; [apply inspectPending_reads|]. by intros [].
Qed.
End Safety.

(** ** Requests *)

Inductive request :=
| RequestReserve (q : ReserveRequest)
| RequestFinalize (q : CoordinatorFinalizeRequest)
| RequestAbort (q : AbortRequest)
| RequestRecover (operationID : UUID)
| RequestCheckReady.

Inductive response :=
| ResponseReservation (r : result auth_err Reservation)
| ResponseReceipt (r : result auth_err Receipt)
| ResponseReadiness (r : result auth_err Readiness).

Section System.
Context `{Primitives} {PO : ProviderOps} {PL : ProviderLaws} {SO : StoreOps} {SL : StoreLaws}.

Definition handler (q : request) : prog response :=
  match q with
  | RequestReserve q => bind (CoordinatorReserve q) (fun r => Ret (ResponseReservation r))
  | RequestFinalize q => bind (CoordinatorFinalize q) (fun r => Ret (ResponseReceipt r))
  | RequestAbort q => bind (CoordinatorAbort q) (fun r => Ret (ResponseReceipt r))
  | RequestRecover id => bind (CoordinatorRecover id) (fun r => Ret (ResponseReceipt r))
  | RequestCheckReady => bind CheckReady (fun r => Ret (ResponseReadiness r))
  end.

(** The pool of requests in progress: what each was asked and what it has left
    to do. *)
Record system := MkSystem { sy_pool : list (request * prog response); sy_world : world }.

Inductive sys_step : system -> system -> Prop :=
(** a new request arrives *)
| sys_request q pool w : sys_step (MkSystem pool w) (MkSystem (pool ++ [(q, handler q)]) w)
(** one request makes one call *)
| sys_call i q X (c : call X) k ch x pool w w' :
    pool !! i = Some (q, Vis c k) -> exec c ch w = (x, w') ->
    sys_step (MkSystem pool w) (MkSystem (<[i := (q, k x)]> pool) w')
(** another client calls the provider or reads the database *)
| sys_read X (c : call X) ch x pool w w' :
    match c with CallTransaction _ => False | _ => True end -> exec c ch w = (x, w') ->
    sys_step (MkSystem pool w) (MkSystem pool w')
(** another client runs a transaction that records a reservation or a receipt
    the provider issued, or binds an effect *)
| sys_transaction x ch err pool w w' :
    justified (ledger w) (tx_label x) -> tx_ok x ->
    exec (CallTransaction x) ch w = (err, w') ->
    sys_step (MkSystem pool w) (MkSystem pool w').

(** What a response promises. *)
Definition response_ok (q : request) (r : response) (w : world) : Prop :=
  match q, r with
  | RequestReserve q, ResponseReservation (Ok rv) => reserved_post q rv w
  | RequestFinalize q, ResponseReceipt (Ok t) => finalized_post q t w
  | RequestAbort q, ResponseReceipt (Ok t) => aborted_post q t w
  | RequestRecover id, ResponseReceipt (Ok t) => recovered_post id t w
  | _, _ => True
  end.

Lemma handler_wp q w : wp (handler q) (response_ok q) w.
Proof.
  destruct q as [q|q|q|id|].
  - eapply wp_bind; [apply wp_CoordinatorReserve|]. intros [rv|] w' _ _ HP; [|done].
    apply wp_ret. intros w1 Hle _. destruct HP as (Hi & ? & ? & ? & ? & ?).
    split; [by eapply issued_up|done].
  - eapply wp_bind; [apply wp_CoordinatorFinalize|]. intros [t|] w' _ _ HP; [|done].
    apply wp_ret. intros w1 Hle _. destruct HP as (Hs & ?). split; [by eapply settled_up|done].
  - eapply wp_bind; [apply wp_CoordinatorAbort|]. intros [t|] w' _ _ HP; [|done].
    apply wp_ret. intros w1 Hle _. destruct HP as (Hs & ?). split; [by eapply settled_up|done].
  - eapply wp_bind; [apply wp_CoordinatorRecover|]. intros [t|] w' _ _ HP; [|done].
    apply wp_ret. intros w1 Hle _. destruct HP as (Hs & ?). split; [by eapply settled_up|done].
  - apply wp_mono with (P := fun _ _ => True); [done|]. apply wp_reads_only, reads_only_bind; [|done].
    apply CheckReady_reads.
Qed.

(** The system invariant: the world is in order and every request in progress
    will keep its promise. *)
Definition system_ok (s : system) : Prop :=
  world_ok (sy_world s) /\ Forall (fun t => wp t.2 (response_ok t.1) (sy_world s)) (sy_pool s).

Lemma sys_step_ok s s' : sys_step s s' -> system_ok s -> system_ok s'.
Proof.
  intros Hstep [Hok Hpool].
  destruct Hstep as [q pool w|i q X c k ch x pool w w' Hi He|X c ch x pool w w' Hc He
                    |x ch err pool w w' Hj Hx He]; cbn in *.
  - split; [done|]. apply Forall_app. split; [done|]. apply Forall_singleton, handler_wp.
  - pose proof (Forall_lookup_1 _ _ _ _ Hpool Hi) as Hwp. cbn [fst snd] in Hwp.
    destruct (Hwp w ltac:(done) Hok ch x w' He) as (Hok' & Hle & Hk).
    split; [done|]. apply Forall_insert; [by eapply (pool_up response_ok)|done].
  - pose proof (wp_reads_only (trigger c) w) as Hwp.
    destruct (Hwp (conj Hc (fun _ => I)) w ltac:(done) Hok ch x w' He) as (Hok' & Hle & _).
    split; [done|by eapply (pool_up response_ok)].
  - destruct (transaction_call_ok _ _ _ _ _ Hok Hj Hx He) as (Hok' & Hle & _).
    split; [done|by eapply (pool_up response_ok)].
Qed.

Lemma sys_steps_ok s s' : rtc sys_step s s' -> system_ok s -> system_ok s'.
Proof. apply rtc_keeps, sys_step_ok. Qed.

(** A request that runs alone is one way the system can go. *)
Lemma sys_run_steps q p chs w r w' :
  run p chs w = Some (r, w') ->
  rtc sys_step (MkSystem [(q, p)] w) (MkSystem [(q, Ret r)] w').
Proof.
  revert chs w. induction p as [a|X c k IH]; intros chs w Hr; cbn in Hr; [by simplify_eq|].
  destruct chs as [|ch chs]; [done|]. destruct (exec c ch w) as [x w1] eqn:He.
  eapply rtc_l; [|by eapply IH].
  by apply (sys_call 0 q X c k ch x [(q, Vis c k)] w w1).
Qed.
End System.
