(* ===== verification/CoordinatorTheorems.v ===== *)
(** Properties of the authority coordinator over the deterministic provider and
    the Postgres repository. *)
From Stdlib Require Import ZArith Lia Strings.Byte Sorting.Permutation.
From stdpp Require Import base gmap list strings numbers option sorting relations.
From S2P Require Import Prelude GoStd GoTime AuthorityTypes Ledger LedgerSafety FenceRows FenceStore FenceSafety Interfaces Programs Coordinator CoordinatorLogic CoordinatorSafety.

#[local] Open Scope go_scope.

(** ** What a positive readiness report rests on *)
Section Ready.
Context `{Primitives} {PO : ProviderOps} {PL : ProviderLaws} {SO : StoreOps} {SL : StoreLaws}.

Lemma run_or_unavailable {A} (c : call (result auth_err A)) fallback k chs w rd w' :
  run (or_unavailable c fallback k) chs w = Some (Ok rd, w') ->
  ry_Ready rd = true -> ry_Ready fallback = false ->
  exists ch chs' a w1, exec c ch w = (Ok a, w1) /\ run (k a) chs' w1 = Some (Ok rd, w').
Proof.
  cbn. intros Hr Hready Hfb. destruct chs as [|ch chs]; [done|].
  destruct (exec c ch w) as [[a|e] w1] eqn:He; [by exists ch, chs, a, w1|].
  cbn in Hr. destruct chs as [|ch' chs]; [done|]. cbn in Hr.
  destruct (_ == ErrCanceled); cbn in Hr; simplify_eq. congruence.
Qed.

Lemma CheckReady_ready chs w rd w' :
  run CheckReady chs w = Some (Ok rd, w') -> ry_Ready rd = true ->
  exists ch1 ch2 ch3 ph dh dh',
    exec CallProviderHead ch1 w = (Ok ph, w') /\
    store_Head (ch_env ch2) (w_store w') = Ok dh /\
    compare_heads ph dh = Ok dh' /\
    store_ListPending (ch_env ch3) (hd_Epoch ph) (w_store w') = Ok [] /\
    rd = MkReadiness ph dh' true ReadinessReady.
Proof.
  intros Hr Hready. unfold CheckReady, entering in Hr. cbn [bind trigger run] in Hr.
  destruct chs as [|ch chs]; [done|]. cbn [exec] in Hr.
  destruct (is_err _ || false); [cbn in Hr; destruct chs; simplify_eq; done|].
  destruct (run_or_unavailable _ _ _ _ _ _ _ Hr Hready eq_refl) as (ch1 & chs1 & ph & w1 & He1 & Hr1).
  clear Hr. destruct (is_err (Head_Validate ph)); [by cbn in Hr1; simplify_eq|].
  destruct (run_or_unavailable _ _ _ _ _ _ _ Hr1 Hready eq_refl) as (ch2 & chs2 & pt & w2 & He2 & Hr2).
  cbn in He2. injection He2 as _ <-. destruct (is_err _); [by cbn in Hr2; simplify_eq|]. clear Hr1.
  destruct (run_or_unavailable _ _ _ _ _ _ _ Hr2 Hready eq_refl) as (ch3 & chs3 & dh & w3 & He3 & Hr3).
  cbn in He3. injection He3 as He3 <-. destruct (negb _); [by cbn in Hr3; simplify_eq|]. clear Hr2.
  match type of Hr3 with run (if ?b then _ else _) _ _ = _ => destruct b end;
    [by cbn in Hr3; simplify_eq|].
  destruct (compare_heads ph dh) as [dh'|] eqn:Hc; [|by cbn in Hr3; simplify_eq].
  destruct (compare_points _ _); [by cbn in Hr3; simplify_eq|].
  destruct (run_or_unavailable _ _ _ _ _ _ _ Hr3 Hready eq_refl) as (ch4 & chs4 & l & w4 & He4 & Hr4).
  cbn in He4. injection He4 as He4 <-. destruct (negb _); [by cbn in Hr4; simplify_eq|]. clear Hr3.
  destruct l as [|f l].
  - cbn in Hr4. injection Hr4 as <- <-. by exists ch1, ch3, ch4, ph, dh, dh'.
  - exfalso. unfold check in Hr4. clear -Hr4 Hready.
    set (p := inspectPending _ _ _) in Hr4. clearbody p. revert chs4 Hr4. revert w1.
    induction p as [a|X c k IH]; intros w1 chs Hr; cbn in Hr.
    + destruct a; cbn in Hr; by simplify_eq.
    + destruct chs as [|ch chs]; [done|]. destruct (exec c ch w1) as [x w2]. by eapply IH.
Qed.
End Ready.

(** ** Readiness and the two ledgers *)
Section Synchronised.
Context `{Primitives} `{DL : DriverLaws}.

Lemma ProviderHead_exec ch w h w' :
  world_ok w -> exec CallProviderHead ch w = (Ok h, w') ->
  hd_Epoch h = pv_epoch (w_provider w') /\ hd_LatestReservedSequence h = pv_nextSequence (w_provider w').
Proof.
  intros [Hi _] He. cbn in He. unfold on_provider in He. cbn in He. unfold ProviderHead in He.
  destruct (contextError (ch_poll ch)); [done|]. destruct (contextError (ch_poll2 ch)); [done|].
  destruct (consumeBeforeMutationFailure OperationHead (w_provider w)) as [b p1] eqn:E.
  pose proof (consumeFailure_same _ _ _ _ _ E) as (Hep & Hn & Hs).
  destruct b; [done|]. destruct (is_err _); [done|]. simplify_eq. cbn.
  set (order := (map_to_list (pv_records (w_provider w))).*2).
  assert (head_loop p1 order = head_loop (w_provider w) order) as ->
    by (unfold head_loop; by rewrite Hep, Hn).
  rewrite Hep, Hn. destruct (head_loop_spec (w_provider w) order) as (? & ? & _); [|by split_and!].
  intros r Hin. assert (visits (w_provider w) order) as Hv by (unfold visits; done).
  pose proof (visits_range _ _ _ Hi Hv Hin). lia.
Qed.

(** The operations with a row in an epoch. *)
Definition epoch_ids (epoch : Z) (db : fences) : list UUID :=
  fe_operation_id <$> epoch_rows epoch db.

Lemma fence_rows_elem r db : r ∈ fence_rows db <-> exists id, db !! id = Some r.
Proof.
  unfold fence_rows. change (map snd (map_to_list db)) with (snd <$> map_to_list db).
  rewrite list_elem_of_fmap. split.
  - intros ([id r'] & -> & Hin). exists id. by apply elem_of_map_to_list.
  - intros [id Hl]. exists (id, r). split; [done|]. by apply elem_of_map_to_list.
Qed.

Lemma epoch_rows_elem r epoch db :
  r ∈ epoch_rows epoch db <-> (exists id, db !! id = Some r) /\ fe_authority_epoch r = epoch.
Proof.
  unfold epoch_rows. rewrite list_elem_of_In, filter_In, <- list_elem_of_In, fence_rows_elem.
  by rewrite Z.eqb_eq.
Qed.

Lemma epoch_ids_elem db m id epoch :
  represents db m -> id ∈ epoch_ids epoch db -> exists rd, m !! id = Some rd /\ rv_Epoch (rd_Reservation rd) = epoch.
Proof.
  intros Hr (r & -> & [[i Hl] He]%epoch_rows_elem)%list_elem_of_fmap.
  destruct (represents_row _ _ _ _ Hr Hl) as (rd & Hm & [[] _ _ _ _ _ _ _] & Hid).
  exists rd. split; congruence.
Qed.

Lemma epoch_ids_nodup db m epoch : represents db m -> NoDup (epoch_ids epoch db).
Proof.
  intros Hr. unfold epoch_ids, epoch_rows, fence_rows.
  assert (forall l, NoDup l.*1 -> (forall id r, (id, r) ∈ l -> fe_operation_id r = id) ->
    NoDup (fe_operation_id <$> List.filter (fun r => fe_authority_epoch r =? epoch) (map snd l))) as Hgen.
  { induction l as [|[id r] l IH]; cbn; [constructor|]. intros [Hn Hnd]%NoDup_cons Hk.
    assert (NoDup (fe_operation_id <$> List.filter (fun r => fe_authority_epoch r =? epoch) (map snd l)))
      as IH' by (apply IH; [done|]; intros; apply Hk; by right).
    destruct (_ =? epoch); [|done]. cbn. constructor; [|done].
    intros (r' & Heq & Hin)%list_elem_of_fmap. rewrite list_elem_of_In, filter_In, in_map_iff in Hin.
    destruct Hin as [([i r''] & Hr'' & Hin) _]. cbn in Hr''. subst r''.
    apply list_elem_of_In in Hin. apply Hn. apply list_elem_of_fmap. exists (i, r'). split; [|done].
    cbn. rewrite <- (Hk id r) by by left. rewrite <- (Hk i r') by by right. done. }
  apply Hgen; [apply NoDup_fst_map_to_list|]. intros id r Hl%elem_of_map_to_list.
  destruct (represents_row _ _ _ _ Hr Hl) as (rd & Hm & [[] _ _ _ _ _ _ _] & Hid). congruence.
Qed.

Lemma max_of_attained column rows :
  0 < max_of column rows -> exists r, r ∈ rows /\ column r = max_of column rows.
Proof.
  induction rows as [|r rows IH]; [cbn; lia|].
  change (max_of column (r :: rows)) with (Z.max (column r) (max_of column rows)). intros Hm.
  destruct (Z_lt_le_dec (max_of column rows) (column r)).
  - exists r. split; [by left|]. lia.
  - destruct IH as (r' & Hin & Hr'); [lia|]. exists r'. split; [by right|]. lia.
Qed.

(** A row of the table is a record of the ledger, in the ledger's epoch. *)
Lemma row_in_ledger p db m id r :
  ledger_inv p -> represents db m -> mirrored (ledger_records p) m -> db !! id = Some r ->
  fe_operation_id r = id /\ fe_authority_epoch r = pv_epoch p /\ is_Some (pv_records p !! id).
Proof.
  intros Hi Hr Hm Hl. destruct (represents_row _ _ _ _ Hr Hl) as (rd & Hmr & [[] _ _ _ _ _ _ _] & Hid).
  destruct (Hm _ _ Hmr) as (pr & (d & Hp & <-)%ledger_records_lookup & Hrv & _).
  pose proof (ro_epoch _ _ _ _ (li_records _ Hi _ _ Hp)). split_and!; [congruence|congruence|eauto].
Qed.

(** The head the database reports, when it reports a record. *)
Lemma head_row_counts p db m dh :
  ledger_inv p -> represents db m -> mirrored (ledger_records p) m ->
  databaseHeadFromRow (GetAuthorityFenceHead db) = Ok dh -> dh_Epoch dh <> 0 ->
  dh_RecordCount dh = len (epoch_rows (pv_epoch p) db).
Proof.
  intros Hi Hr Hm Hh Hne. unfold databaseHeadFromRow in Hh.
  case_top Hh; [case_top Hh; simplify_eq; done|]. case_top Hh; [done|].
  unfold GetAuthorityFenceHead in *. cbv zeta in *. cbn -[exactDigest] in *. bool_props.
  destruct (max_of_attained fe_authority_epoch (fence_rows db)) as (r & [id Hl]%fence_rows_elem & He);
    [done|].
  destruct (row_in_ledger _ _ _ _ _ Hi Hr Hm Hl) as (_ & Hep & _). rewrite <- He, Hep in *.
  assert (u64 (len (epoch_rows (pv_epoch p) db)) = len (epoch_rows (pv_epoch p) db)) as Hu.
  { apply u64_id. unfold is_u64, len. split; [lia|].
    assert (length (epoch_rows (pv_epoch p) db) <= length (map_to_list db))%nat.
    { unfold epoch_rows, fence_rows. etrans; [apply List.filter_length_le|].
      by rewrite length_map. }
    assert (Z.of_nat (size db) <= pv_nextSequence p); [|pose proof (li_next _ Hi);
      rewrite <- length_map_to_list in *; unfold MaxInt64 in *; lia].
    rewrite <- (li_size _ Hi). apply inj_le. rewrite <- !size_dom. apply subseteq_size.
    intros i [r' Hl']%elem_of_dom. apply elem_of_dom. by eapply row_in_ledger. }
  rewrite Hu in Hh. destruct (exactDigest _); [|done]. case_top Hh.
  - by case_top Hh; simplify_eq.
  - case_top Hh; [|done]. case_top Hh; [done|]. case_top Hh; [|done]. by case_top Hh; simplify_eq.
Qed.

Lemma ListPending_none e epoch db :
  is_i64 epoch -> ListPending e epoch db = Ok [] ->
  forall id r, db !! id = Some r -> fe_authority_epoch r = epoch -> is_pending r = false.
Proof.
  intros He Hl id r Hr Hep. unfold ListPending in Hl. case_top Hl; [done|]. case_top Hl; [done|].
  rewrite i64_id in Hl by done. destruct (is_pending r) eqn:Hp; [exfalso|done].
  assert (r ∈ ListPendingAuthorityFences epoch db) as Hin.
  { unfold ListPendingAuthorityFences. rewrite merge_sort_Permutation.
    rewrite list_elem_of_In, filter_In, <- list_elem_of_In, epoch_rows_elem. eauto. }
  destruct (ListPendingAuthorityFences epoch db) as [|r0 l]; [by apply elem_of_nil in Hin|].
  cbn [map list_pending_loop] in Hl. case_top Hl; [|done]. case_top Hl; [done|]. by case_top Hl.
Qed.

(** Every operation of the ledger is in the table, and settled alike. *)
Definition synchronised (p : DeterministicProvider) (db : fences) : Prop :=
  exists m, represents db m /\
  forall id r, pv_records p !! id = Some r ->
  exists rd t, m !! id = Some rd /\ rd_Reservation rd = rd_Reservation (dr_record r) /\
    rd_TerminalReceipt rd = Some t /\ rd_TerminalReceipt (dr_record r) = Some t.

Lemma heads_agree p db m dh ph dh' e :
  ledger_inv p -> represents db m -> mirrored (ledger_records p) m ->
  hd_Epoch ph = pv_epoch p -> hd_LatestReservedSequence ph = pv_nextSequence p ->
  databaseHeadFromRow (GetAuthorityFenceHead db) = Ok dh -> compare_heads ph dh = Ok dh' ->
  ListPending e (hd_Epoch ph) db = Ok [] -> synchronised p db.
Proof.
  intros Hi Hr Hm He Hn Hh Hc Hp. exists m. split; [done|]. intros id r Hl.
  assert (id ∈ epoch_ids (pv_epoch p) db) as Hin.
  { unfold compare_heads in Hc. cbv zeta in Hc. rewrite Hn, He in Hc. pose proof (li_size _ Hi) as Hsz.
    case_top Hc; bool_props.
    { exfalso. assert (pv_records p = ∅) as Hemp by (apply map_size_empty_inv; lia).
      rewrite Hemp in Hl. by apply lookup_empty_Some in Hl. }
    case_top Hc; [done|]. case_top Hc; [done|]. case_top Hc; [done|]. case_top Hc; [done|].
    case_top Hc; [done|]. bool_props.
    pose proof (head_row_counts _ _ _ _ Hi Hr Hm Hh) as Hcount.
    assert ((map_to_list (pv_records p)).*1 ≡ₚ epoch_ids (pv_epoch p) db) as <-.
    { symmetry. apply NoDup_Permutation_bis.
      - apply NoDup_ListNoDup. by eapply epoch_ids_nodup.
      - unfold epoch_ids. rewrite !length_fmap, length_map_to_list. unfold len in *. lia.
      - intros i Hini. apply list_elem_of_In. apply list_elem_of_In in Hini.
        apply list_elem_of_fmap in Hini as (r' & -> & [[i Hli] _]%epoch_rows_elem).
        destruct (row_in_ledger _ _ _ _ _ Hi Hr Hm Hli) as (-> & _ & d & Hd).
        apply list_elem_of_fmap. exists (i, d). split; [done|]. by apply elem_of_map_to_list. }
    apply list_elem_of_fmap. exists (id, r). split; [done|]. by apply elem_of_map_to_list. }
  apply list_elem_of_fmap in Hin as (row & Hid & [[i Hli] Hep]%epoch_rows_elem).
  destruct (row_in_ledger _ _ _ _ _ Hi Hr Hm Hli) as (Hi' & _ & _). rewrite Hi' in Hid. subst i.
  destruct (represents_row _ _ _ _ Hr Hli) as (rd & Hmr & [_ _ Hterm _ _ _ _ _] & _).
  assert (is_pending row = false) as Hnp.
  { eapply (ListPending_none e); [|exact Hp|exact Hli|congruence]. rewrite He.
    pose proof (proj1 (validPositiveCoordinate_bounds _) (li_epoch _ Hi)). unfold is_i64, MaxInt64 in *. lia. }
  destruct (Hm _ _ Hmr) as (pr & (d & Hpd & <-)%ledger_records_lookup & Hrv & Ht). simplify_eq.
  unfold terminal_cols in Hterm. destruct (rd_TerminalReceipt rd) as [t|] eqn:Hrt.
  - exists rd, t. by split_and!; [..|apply Ht].
  - exfalso. destruct Hterm as [Hs Hv]. unfold is_pending in Hnp. by rewrite Hs, Hv in Hnp.
Qed.
End Synchronised.

(** ** Theorems *)
Section Theorems.
Context `{Primitives} `{DL : DriverLaws}.

(** The empty system with a new provider. *)
Definition init (p : DeterministicProvider) : system := MkSystem [] (MkWorld p ∅).

Lemma init_ok epoch p : NewDeterministicProvider epoch = Ok p -> system_ok (init p).
Proof.
  intros Hp. split; [|constructor]. split; [by eapply reachable_inv, reach_new|].
  exists ∅. split; [apply represents_empty|]. intros id rd Hl. by apply lookup_empty_Some in Hl.
Qed.

(** C5 (mirror_agrees_under_interleaving): however coordinator requests are
    interleaved, call by call, with each other and with other clients, and
    whatever fails on the way, every record the database returns belongs to an
    operation of the provider's ledger, has its reservation, and carries no
    terminal receipt but the one the provider issued. *)
Theorem mirror_agrees_under_interleaving epoch p s e id rd :
  NewDeterministicProvider epoch = Ok p -> rtc sys_step (init p) s ->
  Get e id (w_store (sy_world s)) = Ok rd ->
  exists r, pv_records (w_provider (sy_world s)) !! id = Some r /\
    rd_Reservation rd = rd_Reservation (dr_record r) /\
    forall t, rd_TerminalReceipt rd = Some t -> rd_TerminalReceipt (dr_record r) = Some t.
Proof.
  intros Hp Hs Hg. destruct (sys_steps_ok _ _ Hs (init_ok _ _ Hp)) as [[_ (m & Hr & Hm)] _].
  destruct (Get_ok _ _ _ _ _ Hr Hg) as [Hl _].
  destruct (Hm _ _ Hl) as (pr & (r & Hpr & <-)%ledger_records_lookup & Hrv & Ht). eauto.
Qed.

(** C2 (responses_settled): in every such execution, when a [Finalize], [Abort]
    or [Recover] request returns a receipt, the provider and the database both
    hold exactly that receipt for the requested operation, with the status,
    effect and reason asked for, and a [Reserve] returns the provider's
    reservation for the request; this stays true from then on. *)
Theorem responses_settled epoch p s i q r :
  NewDeterministicProvider epoch = Ok p -> rtc sys_step (init p) s ->
  sy_pool s !! i = Some (q, Ret r) -> response_ok q r (sy_world s).
Proof.
  intros Hp Hs Hi. destruct (sys_steps_ok _ _ Hs (init_ok _ _ Hp)) as [Hok Hpool].
  apply (Forall_lookup_1 _ _ _ _ Hpool Hi); done.
Qed.

(** C6 (ready_means_synchronised): when [CheckReady] runs undisturbed in any
    reachable world and reports ready, every operation of the provider's ledger
    is in the database with the same reservation, is settled, and both sides
    hold the same terminal receipt. *)
Theorem ready_means_synchronised epoch p s chs rd w :
  NewDeterministicProvider epoch = Ok p -> rtc sys_step (init p) s ->
  run CheckReady chs (sy_world s) = Some (Ok rd, w) -> ry_Ready rd = true ->
  synchronised (w_provider w) (w_store w).
Proof.
  intros Hp Hs Hrun Hready. destruct (sys_steps_ok _ _ Hs (init_ok _ _ Hp)) as [Hok _].
  destruct (CheckReady_ready _ _ _ _ Hrun Hready) as (ch1 & ch2 & ch3 & ph & dh & dh' & He & Hh & Hc & Hl & _).
  destruct (ProviderHead_exec _ _ _ _ Hok He) as (Hep & Hn).
  destruct (wp_reads_only (trigger CallProviderHead) (sy_world s) (conj I (fun _ => I)) _
    (reflexivity _) Hok _ _ _ He) as ([Hi (m & Hr & Hm)] & _).
  eapply heads_agree; [exact Hi|exact Hr|exact Hm|exact Hep|exact Hn| |exact Hc|exact Hl].
  cbn in Hh. unfold RepositoryHead in Hh. case_top Hh; [done|]. by case_top Hh.
Qed.

Lemma priority_grows a b :
  readiness_priority a <= readiness_priority (readinessReasonWithPriority a b) /\
  readiness_priority b <= readiness_priority (readinessReasonWithPriority a b).
Proof. unfold readinessReasonWithPriority. destruct (_ <? _) eqn:E; bool_props; lia. Qed.

(** The reason after one pending fence. *)
Definition fence_reason (epoch : Z) (reason : ReadinessReason) (fence : PendingFence)
  (provider : result auth_err FenceRecord) (effect : result auth_err ResolvedEffect) : ReadinessReason :=
  let reason :=
    match provider with
    | Ok _ => reason
    | Err e => readinessReasonWithPriority reason
                 (if bool_decide (e ∈ [ErrNotFound; ErrConflict; ErrTerminalConflict])
                  then ReadinessPendingMismatch else ReadinessProviderUnavailable)
    end in
  let reason :=
    match effect with
    | Ok _ => reason
    | Err _ => readinessReasonWithPriority reason ReadinessEffectUnavailable
    end in
  match provider, effect with
  | Ok providerRecord, Ok resolved =>
      if negb (validPendingFence fence epoch) then reason
      else if is_err (ResolvedEffect_Validate resolved) ||
              negb (pendingStateMatches fence providerRecord resolved)
      then readinessReasonWithPriority reason ReadinessPendingMismatch
      else reason
  | _, _ => reason
  end.

Lemma Inspect_records c0 c1 id p res p' :
  Inspect c0 c1 id p = (res, p') -> pv_records p' = pv_records p.
Proof.
  unfold Inspect. intros Hi. case_top Hi; [by simplify_eq|]. case_top Hi; [by simplify_eq|].
  destruct (consumeBeforeMutationFailure OperationInspect p) as [b p1] eqn:E.
  pose proof (consumeFailure_same _ _ _ _ _ E) as (_ & _ & <-).
  repeat case_in Hi; by simplify_eq.
Qed.

Lemma inspect_one epoch reason fence pending chs (w : world) r w' :
  run (inspectPending epoch reason (fence :: pending)) chs w = Some (Ok r, w') ->
  exists chs' provider effect (w1 : world),
    pv_records (w_provider w1) = pv_records (w_provider w) /\
    (forall rd, provider = Ok rd ->
       exists d, pv_records (w_provider w1) !! pf_OperationID fence = Some d /\ dr_record d = rd) /\
    run (inspectPending epoch (fence_reason epoch reason fence provider effect) pending) chs' w1 =
      Some (Ok r, w').
Proof.
  cbn [inspectPending bind trigger run]. intros Hr. destruct chs as [|ch1 chs]; [done|].
  destruct (exec (CallInspect _) ch1 w) as [provider w1] eqn:He.
  destruct chs as [|ch2 chs]; [done|]. cbn [exec] in Hr.
  destruct chs as [|ch3 chs]; [done|].
  match type of Hr with run (if ?b then _ else _) _ _ = _ => destruct b; [done|] end.
  exists chs, provider, (ch_resolved ch2), w1. cbn in He. unfold on_provider in He. cbn in He.
  destruct (Inspect _ _ _ _) as [res p] eqn:Hi. injection He as <- <-. split_and!; [|by intros; eapply Inspect_ok; simplify_eq|exact Hr].
  by eapply Inspect_records.
Qed.

Lemma fence_reason_mono epoch reason fence provider effect :
  readiness_priority reason <= readiness_priority (fence_reason epoch reason fence provider effect).
Proof.
  unfold fence_reason.
  pose proof (fun a b => proj1 (priority_grows a b)) as Hg.
  destruct provider, effect; cbv zeta; repeat case_goal; try done; try apply Hg.
  all: etrans; [apply Hg|apply Hg].
Qed.

Lemma inspectPending_mono epoch reason pending chs (w : world) r w' :
  run (inspectPending epoch reason pending) chs w = Some (Ok r, w') ->
  readiness_priority reason <= readiness_priority r /\
  pv_records (w_provider w') = pv_records (w_provider w).
Proof.
  revert reason chs w. induction pending as [|fence pending IH]; intros reason chs w Hr.
  - cbn in Hr. by simplify_eq.
  - destruct (inspect_one _ _ _ _ _ _ _ _ Hr) as (chs' & provider & effect & w1 & Hrec & _ & Hrest).
    destruct (IH _ _ _ Hrest) as [Hp Hr1]. split; [|congruence].
    etrans; [apply fence_reason_mono|exact Hp].
Qed.

(** A fence that leaves the reason at most [pending_unresolved]. *)
Lemma fence_reason_low epoch reason fence provider effect :
  readiness_priority (fence_reason epoch reason fence provider effect) <= 1 ->
  exists rd resolved, provider = Ok rd /\ effect = Ok resolved /\
    (validPendingFence fence epoch = true ->
     ResolvedEffect_Validate resolved = None /\ pendingStateMatches fence rd resolved = true).
Proof.
  unfold fence_reason. cbv zeta. intros Hp.
  pose proof (fun a b => proj1 (priority_grows a b)) as Hg.
  pose proof (fun a b => proj2 (priority_grows a b)) as Hg2.
  assert (readiness_priority ReadinessPendingMismatch = 2) as H1 by done.
  assert (readiness_priority ReadinessProviderUnavailable = 4) as H2 by done.
  assert (readiness_priority ReadinessEffectUnavailable = 3) as H3 by done.
  destruct effect as [resolved|e'];
    [|pose proof (Hg2 (match provider with Ok _ => reason | Err e => readinessReasonWithPriority reason
        (if bool_decide (e ∈ [ErrNotFound; ErrConflict; ErrTerminalConflict])
         then ReadinessPendingMismatch else ReadinessProviderUnavailable) end) ReadinessEffectUnavailable);
      destruct provider; lia].
  destruct provider as [rd|e].
  - exists rd, resolved. split_and!; [done|done|]. intros Hv. rewrite Hv in Hp. cbn [negb] in Hp.
    destruct (is_err _ || _) eqn:E; [|bool_props; done].
    pose proof (Hg2 reason ReadinessPendingMismatch). lia.
  - exfalso. destruct (bool_decide _); [pose proof (Hg2 reason ReadinessPendingMismatch)|
      pose proof (Hg2 reason ReadinessProviderUnavailable)]; lia.
Qed.

(** [pending_unresolved_sound]: when [inspectPending] reports no more than
    [pending_unresolved], the provider's ledger has a record for every pending
    fence, and for every well-formed fence that record and the resolver's answer
    agree with it. *)
Theorem pending_unresolved_sound epoch pending chs w w' reason :
  run (inspectPending epoch reason pending) chs w = Some (Ok ReadinessPendingUnresolved, w') ->
  forall fence, fence ∈ pending ->
  exists r, pv_records (w_provider w') !! pf_OperationID fence = Some r /\
    (validPendingFence fence epoch = true ->
     exists resolved, ResolvedEffect_Validate resolved = None /\
       pendingStateMatches fence (dr_record r) resolved = true).
Proof.
  revert reason chs w. induction pending as [|fence pending IH]; intros reason chs w Hrun f Hin;
    [by apply elem_of_nil in Hin|].
  destruct (inspect_one _ _ _ _ _ _ _ _ Hrun) as (chs' & provider & effect & w1 & Hrec & Hp & Hrest).
  apply elem_of_cons in Hin as [->|Hin]; [|by eapply IH].
  destruct (inspectPending_mono _ _ _ _ _ _ _ Hrest) as [Hpri Hrec'].
  destruct (fence_reason_low _ _ _ _ _ Hpri) as (rd & resolved & -> & -> & Hv).
  destruct (Hp _ eq_refl) as (d & Hd & <-). exists d. rewrite Hrec'. split; [done|]. eauto.
Qed.
(** C34 (invalid_fence_unreported): when the provider and the resolver answer for a
    pending fence and the context is live, whatever their answers are: a fence that
    is not well formed leaves the report as it was, so that on its own it is
    reported as [pending_unresolved] even when it contradicts both answers, while a
    well-formed fence that they contradict raises it to [pending_mismatch]. *)
Theorem invalid_fence_unreported epoch reason fence pending ch1 ch2 ch3 chs (w w1 : world) record resolved :
  exec (CallInspect (pf_OperationID fence)) ch1 w = (Ok record, w1) ->
  exec (CallResolve (pf_OperationID fence)) ch2 w1 = (Ok resolved, w1) ->
  (exec CallPoll ch3 w1).1 = CtxLive ->
  (validPendingFence fence epoch = false ->
   run (inspectPending epoch reason (fence :: pending)) (ch1 :: ch2 :: ch3 :: chs) w =
   run (inspectPending epoch reason pending) chs w1) /\
  (validPendingFence fence epoch = true ->
   ResolvedEffect_Validate resolved <> None \/ pendingStateMatches fence record resolved = false ->
   run (inspectPending epoch reason (fence :: pending)) (ch1 :: ch2 :: ch3 :: chs) w =
   run (inspectPending epoch (readinessReasonWithPriority reason ReadinessPendingMismatch) pending) chs w1).
Proof.
  intros H1 H2 H3. cbn [inspectPending bind trigger run]. rewrite H1, H2.
  destruct (exec CallPoll ch3 w1) as [poll w2] eqn:H4. assert (w2 = w1) as -> by (cbn in H4; congruence).
  cbn [fst] in H3. subst poll. split; intros Hv; [by rewrite Hv|]. intros Hbad. rewrite Hv. cbn [negb].
  replace (is_err (ResolvedEffect_Validate resolved) || negb (pendingStateMatches fence record resolved)) with true; [done|].
  destruct Hbad as [Hbad| ->]; [by destruct (ResolvedEffect_Validate resolved)|by rewrite orb_true_r].
Qed.
End Theorems.

(** ** Witnesses *)
From S2P Require Import Samples FenceTheorems.

Definition sample_absent : ResolvedEffect :=
  MkResolvedEffect "" "" zero_digest zero_digest EffectAbsent.

Definition sample_identity : IdentityRow :=
  MkIdentityRow (MkNumeric (Some 7) 0 false Finite true) 1 (AnyString "0/16B3748").

(** Nothing fails, the effect is absent. *)
Definition sample_choice : choice :=
  MkChoice CtxLive CtxLive (sample_time 5) calm calm_tx (Ok sample_absent) sample_identity.

(** Operation 1 is reserved at the provider and then recovered by the
    coordinator, which records it and aborts it on both sides. *)
Definition sample_world0 : world := sy_world (init sample_ledger0).
Definition sample_world1 : world := (exec (CallReserve (sample_reserve 1)) sample_choice sample_world0).2.

Definition sample_recovery : option (response * world) :=
  run (handler (RequestRecover (sample_id 1))) (repeat sample_choice 16) sample_world1.

Definition sample_response : response :=
  match sample_recovery with Some (r, _) => r | None => ResponseReceipt (Err ErrOther) end.
Definition sample_world2 : world :=
  match sample_recovery with Some (_, w) => w | None => sample_world1 end.

Example sample_recovery_ok :
  match sample_response with
  | ResponseReceipt (Ok t) =>
      (rc_Status t == StatusAborted) && not_nil (w_store sample_world2 !! sample_id 1)
  | _ => false
  end = true.
Proof. vm_compute. reflexivity. Qed.

Lemma sample_recovery_done : exists r w, sample_recovery = Some (r, w).
Proof.
  assert (not_nil sample_recovery = true) as Hs by (vm_compute; reflexivity).
  destruct sample_recovery as [[r w]|]; [eauto|done].
Qed.

Lemma sample_steps :
  rtc sys_step (init sample_ledger0)
    (MkSystem [(RequestRecover (sample_id 1), Ret sample_response)] sample_world2).
Proof.
  eapply rtc_l.
  { apply (sys_read _ (CallReserve (sample_reserve 1)) sample_choice
      (exec (CallReserve (sample_reserve 1)) sample_choice sample_world0).1
      [] sample_world0 sample_world1); [done|]. apply surjective_pairing. }
  eapply rtc_l; [apply (sys_request (RequestRecover (sample_id 1)))|]. cbn [app].
  apply (sys_run_steps _ _ (repeat sample_choice 16)). destruct sample_recovery_done as (r & w & Hr).
  unfold sample_response, sample_world2. rewrite Hr. exact Hr.
Qed.

Lemma mirror_agrees_under_interleaving_witness :
  exists rd r, Get calm (sample_id 1) (w_store sample_world2) = Ok rd /\
    pv_records (w_provider sample_world2) !! sample_id 1 = Some r /\
    rd_Reservation rd = rd_Reservation (dr_record r).
Proof.
  destruct (Get calm (sample_id 1) (w_store sample_world2)) as [rd|e] eqn:Hg.
  - destruct (mirror_agrees_under_interleaving 1 sample_ledger0 _ calm (sample_id 1) rd sample_new
                sample_steps Hg) as (r & Hr & Hrv & _).
    exists rd, r. split; [reflexivity|]. split; [exact Hr|exact Hrv].
  - exfalso. revert Hg. vm_compute. discriminate.
Defined.

Lemma responses_settled_witness :
  response_ok (RequestRecover (sample_id 1)) sample_response sample_world2.
Proof.
  exact (responses_settled 1 sample_ledger0 _ 0 _ _ sample_new sample_steps eq_refl).
Defined.

Lemma ready_means_synchronised_witness :
  exists w, synchronised (w_provider w) (w_store w) /\ size (pv_records (w_provider w)) = 1%nat.
Proof.
  assert (match run CheckReady (repeat sample_choice 8) sample_world2 with
          | Some (Ok rd, w) => ry_Ready rd && (len (map_to_list (pv_records (w_provider w))) =? 1)
          | _ => false
          end = true) as Hready by (vm_compute; reflexivity).
  destruct (run CheckReady (repeat sample_choice 8) sample_world2) as [[[rd|e] w]|] eqn:Hc;
    [|discriminate Hready|discriminate Hready].
  apply andb_true_iff in Hready. destruct Hready as [Hready Hsize].
  exists w. split.
  - exact (ready_means_synchronised 1 sample_ledger0 _ (repeat sample_choice 8) rd w sample_new
             sample_steps Hc Hready).
  - apply Z.eqb_eq in Hsize. unfold len in Hsize. rewrite length_map_to_list in Hsize. lia.
Defined.

(** A pending fence for operation 1, reserved at the given time. *)
Definition sample_fence (reservedAt : time) : PendingFence :=
  let rv := sample_reservation 1 in
  MkPendingFence (rv_OperationID rv) (rv_Kind rv) (rv_ScopeKind rv) (rv_ScopeDigest rv)
    (rv_Epoch rv) (rv_Sequence rv) (rv_ReservationDigest rv) None None reservedAt None None.

(** The reason [inspectPending] finds for one fence in the sample world. *)
Definition sample_inspection (fence : PendingFence) : option (result auth_err ReadinessReason * world) :=
  run (inspectPending 1 ReadinessPendingUnresolved [fence]) (repeat sample_choice 3) sample_world1.

Definition sample_reason (fence : PendingFence) : option ReadinessReason :=
  match sample_inspection fence with Some (Ok reason, _) => Some reason | _ => None end.

Lemma pending_unresolved_sound_witness :
  exists w' r, pv_records (w_provider w') !! sample_id 1 = Some r /\
    exists resolved, pendingStateMatches (sample_fence (sample_time 1)) (dr_record r) resolved = true.
Proof.
  assert (sample_reason (sample_fence (sample_time 1)) = Some ReadinessPendingUnresolved) as Hs
    by (vm_compute; reflexivity).
  unfold sample_reason in Hs.
  destruct (sample_inspection (sample_fence (sample_time 1))) as [[[reason|e] w']|] eqn:Hrun; try discriminate Hs.
  injection Hs as ->.
  destruct (pending_unresolved_sound 1 [sample_fence (sample_time 1)] (repeat sample_choice 3) sample_world1
              w' ReadinessPendingUnresolved Hrun (sample_fence (sample_time 1))) as (r & Hr & Hv).
  - apply list_elem_of_here.
  - exists w', r. split; [exact Hr|]. destruct Hv as (resolved & _ & Hm); [vm_compute; reflexivity|].
    exists resolved. exact Hm.
Defined.

(** The choices and the answers for the malformed fence of operation 1. *)
Definition sample_malformed : PendingFence := sample_fence (Time 0 true).
Definition sample_inspected : result auth_err FenceRecord * world :=
  exec (CallInspect (pf_OperationID sample_malformed)) sample_choice sample_world1.
Definition sample_found : FenceRecord :=
  match sample_inspected.1 with Ok record => record | Err _ => MkRecord (sample_reservation 1) None None None end.

Lemma sample_inspects :
  exec (CallInspect (pf_OperationID sample_malformed)) sample_choice sample_world1 = (Ok sample_found, sample_inspected.2).
Proof.
  assert (sample_inspected.1 = Ok sample_found) as <- by (vm_compute; reflexivity). apply surjective_pairing.
Qed.

Lemma sample_resolves (w : world) : exec (CallResolve (pf_OperationID sample_malformed)) sample_choice w = (Ok sample_absent, w).
Proof. reflexivity. Qed.

Lemma sample_polls (w : world) : (exec CallPoll sample_choice w).1 = CtxLive.
Proof. reflexivity. Qed.

Lemma sample_malformed_invalid : validPendingFence sample_malformed 1 = false.
Proof. vm_compute. reflexivity. Qed.

Lemma invalid_fence_unreported_witness :
  run (inspectPending 1 ReadinessPendingUnresolved [sample_malformed]) [sample_choice; sample_choice; sample_choice] sample_world1 =
    run (inspectPending 1 ReadinessPendingUnresolved []) [] sample_inspected.2.
Proof.
  exact (proj1 (invalid_fence_unreported 1 ReadinessPendingUnresolved sample_malformed [] sample_choice sample_choice sample_choice []
                  sample_world1 sample_inspected.2 sample_found sample_absent sample_inspects (sample_resolves _) (sample_polls _))
           sample_malformed_invalid).
Defined.
