(* ===== verification/GoCrypto.v ===== *)
(** [crypto/aes] and [crypto/cipher] as [internal/sensitive] uses them: AES-256
    and the Galois/Counter mode with 12-byte nonces and 16-byte tags; the
    interface of [crypto/ed25519]. *)
From Stdlib Require Import ZArith Lia Strings.Byte.
From stdpp Require Import base list strings numbers option.
From S2P Require Import Prelude GoStd.

(** ** AES-256 *)

(** Multiplication by [x] and multiplication in GF(2^8). *)
Definition xtime (a : Z) : Z :=
  if a <? 128 then 2 * a else Z.lxor (2 * a) 0x11b.

Fixpoint gf_mul_fuel (fuel : nat) (a b : Z) : Z :=
  match fuel with
  | O => 0
  | S n => Z.lxor (if Z.odd b then a else 0) (gf_mul_fuel n (xtime a) (b / 2))
  end.

Definition gf_mul (a b : Z) : Z := gf_mul_fuel 8 a b.

(** The inverse is the 254th power; zero stays zero. *)
Definition gf_inv (a : Z) : Z :=
  let sq x := gf_mul x x in
  let a2 := sq a in let a4 := sq a2 in let a8 := sq a4 in let a16 := sq a8 in
  let a32 := sq a16 in let a64 := sq a32 in let a128 := sq a64 in
  gf_mul a128 (gf_mul a64 (gf_mul a32 (gf_mul a16 (gf_mul a8 (gf_mul a4 a2))))).

Definition rotl8 (n a : Z) : Z := Z.lor (Z.land (Z.shiftl a n) 255) (Z.shiftr a (8 - n)).

Definition sub_byte (a : Z) : Z :=
  let b := gf_inv a in
  Z.lxor b (Z.lxor (rotl8 1 b) (Z.lxor (rotl8 2 b) (Z.lxor (rotl8 3 b) (Z.lxor (rotl8 4 b) 0x63)))).

Definition xor_lists (a b : list Z) : list Z := zip_with Z.lxor a b.

(** The key schedule: words of four bytes, newest first. *)
Fixpoint aes_schedule (n : nat) (i rcon : Z) (ws : list (list Z)) : list (list Z) :=
  match n with
  | O => ws
  | S n =>
      let prev := nth 0 ws [] in
      let back := nth 7 ws [] in
      if i mod 8 =? 0 then
        let t := match map sub_byte prev with
                 | a :: r => xor_lists (r ++ [a]) [rcon; 0; 0; 0]
                 | [] => []
                 end in
        aes_schedule n (i + 1) (xtime rcon) (xor_lists back t :: ws)
      else if i mod 8 =? 4 then
        aes_schedule n (i + 1) rcon (xor_lists back (map sub_byte prev) :: ws)
      else aes_schedule n (i + 1) rcon (xor_lists back prev :: ws)
  end.

Definition round_keys (key : bytes) : list (list Z) :=
  let ws := chunks 4 8 (map byte_to_Z key) in
  map (@concat Z) (chunks 4 15 (rev (aes_schedule 52 8 1 (rev ws)))).

Definition shift_rows (s : list Z) : list Z :=
  map (fun i => nth ((i + 4 * (i mod 4)) mod 16) s 0) (seq 0 16).

Definition mix_column (c : list Z) : list Z :=
  match c with
  | [a; b; c; d] =>
      let m2 := gf_mul 2 in let m3 := gf_mul 3 in
      [Z.lxor (m2 a) (Z.lxor (m3 b) (Z.lxor c d)); Z.lxor a (Z.lxor (m2 b) (Z.lxor (m3 c) d));
       Z.lxor a (Z.lxor b (Z.lxor (m2 c) (m3 d))); Z.lxor (m3 a) (Z.lxor b (Z.lxor c (m2 d)))]
  | _ => c
  end.

Definition mix_columns (s : list Z) : list Z := concat (map mix_column (chunks 4 4 s)).

Definition aes_round (s k : list Z) : list Z :=
  xor_lists (mix_columns (shift_rows (map sub_byte s))) k.

(** [block.Encrypt] with a 32-byte key, on 128-bit blocks as numbers. *)
Definition aes_encrypt (key : bytes) (block : Z) : Z :=
  match round_keys key with
  | [] => 0
  | k0 :: ks =>
      let s := xor_lists (map byte_to_Z (be_bytes 16 block)) k0 in
      let s := fold_left aes_round (take 13 ks) s in
      be_value (map byte_of_Z (xor_lists (shift_rows (map sub_byte s)) (nth 13 ks [])))
  end.

(** The vector of the standard (appendix C.3). *)
Example aes_encrypt_fips197 :
  bstring (hex_encode (be_bytes 16
    (aes_encrypt (map byte_of_Z (seqZ 0 32)) (be_value (map (fun i => byte_of_Z (17 * i)) (seqZ 0 16)))))) =
  "8ea2b7ca516745bfeafc49904b496089".
Proof. vm_compute. reflexivity. Qed.

(** ** Galois/Counter mode *)
Section GCM.
Variable encrypt : Z -> Z.

Fixpoint ghash_mul_fuel (fuel : nat) (x v z : Z) : Z :=
  match fuel with
  | O => z
  | S n =>
      ghash_mul_fuel n x
        (if Z.odd v then Z.lxor (Z.shiftr v 1) (Z.shiftl 0xe1 120) else Z.shiftr v 1)
        (if Z.testbit x (Z.of_nat n) then Z.lxor z v else z)
  end.

Definition ghash_mul (x y : Z) : Z := ghash_mul_fuel 128 x y 0.

(** The 16-byte blocks of a message, the last one padded with zeros. *)
Definition blocks (m : bytes) : list Z :=
  map (fun c => be_value (c ++ repeat x00 (16 - length c))) (chunks 16 (Nat.div (length m + 15) 16) m).

Definition ghash (h : Z) (aad ciphertext : bytes) : Z :=
  fold_left (fun y x => ghash_mul (Z.lxor y x) h)
    (blocks aad ++ blocks ciphertext ++ [Z.lor (Z.shiftl (8 * len aad) 64) (8 * len ciphertext)]) 0.

(** The counter block of index [i]. *)
Definition counter (nonce : bytes) (i : Z) : Z := be_value nonce * 2 ^ 32 + u32 i.

Definition keystream (nonce : bytes) (n : nat) : bytes :=
  concat (map (fun i => be_bytes 16 (encrypt (counter nonce (i + 2)))) (seqZ 0 (Z.of_nat n))).

Definition xor_bytes (a b : bytes) : bytes :=
  zip_with (fun x y => byte_of_Z (Z.lxor (byte_to_Z x) (byte_to_Z y))) a b.

Definition gcm_stream (nonce m : bytes) : bytes :=
  xor_bytes m (keystream nonce (Nat.div (length m + 15) 16)).

Definition gcm_tag (nonce ciphertext aad : bytes) : bytes :=
  be_bytes 16 (Z.lxor (ghash (encrypt 0) aad ciphertext) (encrypt (counter nonce 1))).

(** [aead.Seal(nil, nonce, plaintext, aad)] *)
Definition gcm_Seal (nonce plaintext aad : bytes) : bytes :=
  let ciphertext := gcm_stream nonce plaintext in
  ciphertext ++ gcm_tag nonce ciphertext aad.

(** [aead.Open(nil, nonce, sealed, aad)] *)
Definition gcm_Open (nonce sealed aad : bytes) : option bytes :=
  if len sealed <? 16 then None
  else
    let n := (length sealed - 16)%nat in
    let ciphertext := take n sealed in
    if bool_decide (drop n sealed = gcm_tag nonce ciphertext aad)
    then Some (gcm_stream nonce ciphertext) else None.
End GCM.

(** A vector of the mode's specification: one zero block under the zero key. *)
Example gcm_zero_block :
  bstring (hex_encode (gcm_Seal (aes_encrypt (repeat x00 32)) (repeat x00 12) (repeat x00 16) [])) =
  "cea7403d4d606b6e074ec5d3baf39d18d0d1c8a799996bf0265b98b5d48ab919".
Proof. vm_compute. reflexivity. Qed.

(** ** What is sealed opens *)
Section Laws.
Variable encrypt : Z -> Z.

Lemma keystream_length nonce n : length (keystream encrypt nonce n) = (16 * n)%nat.
Proof.
  unfold keystream.
  assert (forall l, length (concat (map (fun i => be_bytes 16 (encrypt (counter nonce (i + 2)))) l)) =
    (16 * length l)%nat) as Hl.
  { induction l as [|i l IH]; [done|]. cbn [map concat length]. rewrite length_app, be_bytes_length, IH. lia. }
  rewrite Hl, length_seqZ. lia.
Qed.

Lemma xor_byte_twice x y :
  byte_of_Z (Z.lxor (byte_to_Z (byte_of_Z (Z.lxor (byte_to_Z x) (byte_to_Z y)))) (byte_to_Z y)) = x.
Proof.
  rewrite byte_to_of_Z.
  assert (0 <= Z.lxor (byte_to_Z x) (byte_to_Z y) < 256) as Hr.
  { pose proof (byte_to_Z_range x). pose proof (byte_to_Z_range y). split.
    - apply Z.lxor_nonneg. lia.
    - destruct (Z.eq_dec (Z.lxor (byte_to_Z x) (byte_to_Z y)) 0) as [->|Hne]; [lia|].
      assert (0 <= Z.lxor (byte_to_Z x) (byte_to_Z y)) by (apply Z.lxor_nonneg; lia).
      apply (Z.log2_lt_pow2 _ 8); [lia|]. eapply Z.le_lt_trans; [apply Z.log2_lxor; lia|].
      assert (forall b, Z.log2 (byte_to_Z b) < 8) as Hb.
      { intros b. pose proof (byte_to_Z_range b). destruct (Z.eq_dec (byte_to_Z b) 0) as [->|];
          [done|]. apply Z.log2_lt_pow2; lia. }
      pose proof (Hb x). pose proof (Hb y). lia. }
  rewrite Z.mod_small by done. rewrite Z.lxor_assoc, Z.lxor_nilpotent, Z.lxor_0_r.
  apply byte_of_to_Z.
Qed.

Lemma xor_bytes_twice m ks : (length m <= length ks)%nat -> xor_bytes (xor_bytes m ks) ks = m.
Proof.
  revert ks. induction m as [|x m IH]; intros [|y ks] Hl; cbn in *; try done; [lia|].
  unfold xor_bytes in *. cbn [zip_with]. rewrite IH by lia. by rewrite xor_byte_twice.
Qed.

Lemma gcm_stream_length nonce m : length (gcm_stream encrypt nonce m) = length m.
Proof.
  unfold gcm_stream, xor_bytes. rewrite length_zip_with, keystream_length.
  pose proof (Nat.div_mod_eq (length m + 15) 16). pose proof (Nat.mod_upper_bound (length m + 15) 16).
  lia.
Qed.

Lemma gcm_stream_twice nonce m : gcm_stream encrypt nonce (gcm_stream encrypt nonce m) = m.
Proof.
  unfold gcm_stream at 1. rewrite gcm_stream_length. unfold gcm_stream. apply xor_bytes_twice.
  rewrite keystream_length.
  pose proof (Nat.div_mod_eq (length m + 15) 16). pose proof (Nat.mod_upper_bound (length m + 15) 16).
  lia.
Qed.

Lemma gcm_Seal_length nonce p aad : length (gcm_Seal encrypt nonce p aad) = (length p + 16)%nat.
Proof.
  unfold gcm_Seal, gcm_tag. by rewrite length_app, be_bytes_length, gcm_stream_length.
Qed.

Lemma gcm_Open_Seal nonce p aad :
  gcm_Open encrypt nonce (gcm_Seal encrypt nonce p aad) aad = Some p.
Proof.
  unfold gcm_Open, len. rewrite gcm_Seal_length.
  rewrite (proj2 (Z.ltb_ge _ 16)) by lia.
  replace (length p + 16 - 16)%nat with (length (gcm_stream encrypt nonce p))
    by (rewrite gcm_stream_length; lia).
  unfold gcm_Seal. rewrite take_app_length, drop_app_length.
  rewrite bool_decide_eq_true_2 by done. by rewrite gcm_stream_twice.
Qed.
End Laws.

(** ** [crypto/ed25519]

    A parameter: [Verify(publicKey, message, signature)]. *)
Class Ed25519 := { ed25519_Verify : bytes -> bytes -> bytes -> bool }.
