(* ===== verification/Text.v ===== *)
(** Text handling shared by the packages: [strings.Split], framing by a separator,
    and the textual form of UUIDs. *)
From Stdlib Require Import ZArith Lia Strings.Byte.
From stdpp Require Import base list strings numbers option.
From S2P Require Import Prelude GoStd AuthorityTypes.

#[local] Open Scope go_scope.

(** ** Separators *)

(** [strings.Split(s, sep)] for a one-byte separator. *)
Fixpoint Split (c : byte) (l : bytes) : list bytes :=
  match l with
  | [] => [[]]
  | b :: l' =>
      if bool_decide (b = c) then [] :: Split c l'
      else match Split c l' with
           | part :: parts => (b :: part) :: parts
           | [] => [[b]]
           end
  end.

Lemma Split_app c a rest : c ∉ a -> Split c (a ++ [c] ++ rest) = a :: Split c rest.
Proof.
  induction a as [|b a IH]; intros Hn; [cbn; by rewrite bool_decide_eq_true_2|].
  rewrite <- app_comm_cons. cbn [Split].
  rewrite bool_decide_eq_false_2 by (intros ->; apply Hn; by left).
  rewrite IH; [done|]. intros Hin. apply Hn. by right.
Qed.

Lemma Split_none c a : c ∉ a -> Split c a = [a].
Proof.
  induction a as [|b a IH]; intros Hn; cbn; [done|].
  rewrite bool_decide_eq_false_2 by (intros ->; apply Hn; by left).
  rewrite IH; [done|]. intros Hin. apply Hn. by right.
Qed.

(** A string without the separator is determined by what the separator ends. *)
Lemma framed_inj {A} (c : A) a b r t :
  c ∉ a -> c ∉ b -> a ++ [c] ++ r = b ++ [c] ++ t -> a = b /\ r = t.
Proof.
  revert b. induction a as [|x a IH]; intros [|y b] Ha Hb He; cbn in *; simplify_eq; [done|..].
  - exfalso. apply Hb. by left.
  - exfalso. apply Ha. by left.
  - destruct (IH b) as [-> ->]; [..|done|done].
    + intros Hin. apply Ha. by right.
    + intros Hin. apply Hb. by right.
Qed.

(** ** [google/uuid] *)

(** [uuid.Parse], and what its callers rely on: it gives 16 bytes and inverts
    [String], whose result has 36 characters, hexadecimal digits and dashes. *)
Class UUIDText := { uuid_Parse : bytes -> option UUID }.
Definition uuid_byte (c : byte) : bool := in_range "0" "9" c || in_range "a" "f" c || (c == "-"%byte).
Class UUIDTextLaws `{Primitives} `{UUIDText} := {
  uuid_Parse_length v u : uuid_Parse v = Some u -> len u = 16;
  uuid_Parse_String u : len u = 16 -> uuid_Parse (uuid_String u) = Some u;
  uuid_String_length u : len u = 16 -> len (uuid_String u) = 36;
  uuid_String_chars u : len u = 16 -> Forall (fun c => uuid_byte c = true) (uuid_String u) }.

Lemma uuid_String_colon `{UUIDTextLaws} u : len u = 16 -> ":"%byte ∉ uuid_String u.
Proof. intros Hu Hin. pose proof (uuid_String_chars u Hu) as Hall. rewrite Forall_forall in Hall. by apply list_elem_of_In, Hall in Hin. Qed.

Section UUIDs.
Context `{Primitives} `{UUIDText}.

(** The canonical text of an identifier that is not nil. *)
Definition canonicalUUID (value : bytes) : bool :=
  match uuid_Parse value with
  | Some parsed => (parsed != uuid_Nil) && (uuid_String parsed == value)
  | None => false
  end.
End UUIDs.
