(* ===== verification/Sensitive.v ===== *)
(** The local sensitive-field protector of [internal/sensitive/local.go]:
    HMAC-SHA256 lookup digests and AES-256-GCM field encryption under versioned
    associated data, and the [Protector] interface its clients rely on. *)
From Stdlib Require Import ZArith Lia Strings.Byte.
From stdpp Require Import base list strings numbers option.
From S2P Require Import Prelude GoStd GoCrypto AuthorityTypes Text.

#[local] Open Scope go_scope.

(** ** The interface *)

(** [EncryptedField] *)
Record EncryptedField := MkEncryptedField {
  ef_KeyVersion : Z;
  ef_Ciphertext : bytes }.

(** The errors of the package. *)
Inductive sensitive_err := SensitiveInvalidArgument | SensitiveProtectionFailed | SensitiveClosed.

(** The [Protector] interface.  What an encryption draws from the random source
    is an argument. *)
Class Protector := {
  entropy : Type;
  protector_LookupDigest : bytes -> bytes -> Digest;
  protector_Encrypt : entropy -> bytes -> bytes -> result sensitive_err EncryptedField;
  protector_Decrypt : bytes -> EncryptedField -> result sensitive_err bytes }.

(** What its clients rely on: an encrypted field decrypts in its domain, has a
    positive 31-bit key version and is longer than 28 bytes. *)
Class ProtectorLaws `{Protector} := {
  protector_roundtrip n domain plaintext field :
    protector_Encrypt n domain plaintext = Ok field ->
    protector_Decrypt domain field = Ok plaintext;
  protector_version n domain plaintext field :
    protector_Encrypt n domain plaintext = Ok field -> 0 < ef_KeyVersion field < 2 ^ 31;
  protector_length n domain plaintext field :
    protector_Encrypt n domain plaintext = Ok field -> 28 < len (ef_Ciphertext field) }.

(** ** The local protector *)

Definition keyBytes : Z := 32.
Definition maximumDomainBytes : Z := 128.
Definition maximumLookupBytes : Z := 2 ^ 20.
Definition maximumProtectedBytes : Z := 2 ^ 20 + 1.
Definition lookupPrefix : bytes := sbytes "TALENRO-LOOKUP-V1" ++ [x00].
Definition fieldPrefix : bytes := sbytes "TALENRO-FIELD-V1" ++ [x00].
Definition aesGCMNonceBytes : Z := 12.
Definition aesGCMOverheadBytes : Z := 16.

(** The state every copy of a [Local] shares; its mutex makes the methods
    atomic. *)
Record localState := MkLocalState {
  ls_lookupKey : bytes;
  ls_encryptionKey : bytes;
  ls_keyVersion : Z;
  ls_closed : bool }.

Definition NewLocal (lookupKey encryptionKey : bytes) (keyVersion : Z) : result sensitive_err localState :=
  if negb (len lookupKey =? keyBytes) || negb (len encryptionKey =? keyBytes) || (keyVersion =? 0) ||
     (2 ^ 31 - 1 <? keyVersion)
  then Err SensitiveInvalidArgument
  else Ok (MkLocalState lookupKey encryptionKey keyVersion false).

Definition domainByte (character : byte) : bool :=
  in_range "a" "z" character || in_range "0" "9" character ||
  bool_decide (character ∈ ["/"; "."; ":"; "_"; "-"]%byte).

Definition validDomain (domain : bytes) : bool :=
  negb ((len domain =? 0) || (maximumDomainBytes <? len domain)) && forallb domainByte domain.

Definition fieldAAD (domain : bytes) (keyVersion : Z) : bytes :=
  fieldPrefix ++ domain ++ [x00] ++ be_bytes 4 keyVersion.

(** What [LookupDigest] authenticates. *)
Definition lookup_material (domain canonical : bytes) : bytes :=
  lookupPrefix ++ domain ++ [x00] ++ canonical.

Section Local.
Context `{Primitives}.

(** Invalid input and use after [Close] give the zero digest. *)
Definition LookupDigest (local : localState) (domain canonical : bytes) : Digest :=
  if negb (validDomain domain) || (len canonical =? 0) || (maximumLookupBytes <? len canonical)
  then zero_digest
  else if ls_closed local then zero_digest
  else hmac Sum256 (ls_lookupKey local) (lookup_material domain canonical).
End Local.

(** [newGCM] fails only on a key that is not 16, 24 or 32 bytes long; the random
    source gives a nonce or fails. *)
Definition Encrypt (local : localState) (nonce : option bytes) (domain plaintext : bytes) :
  result sensitive_err EncryptedField :=
  if negb (validDomain domain) || (len plaintext =? 0) || (maximumProtectedBytes <? len plaintext)
  then Err SensitiveInvalidArgument
  else if ls_closed local then Err SensitiveClosed
  else if negb (len (ls_encryptionKey local) =? keyBytes) then Err SensitiveProtectionFailed
  else match nonce with
  | None => Err SensitiveProtectionFailed
  | Some nonce =>
      if negb (len nonce =? aesGCMNonceBytes) then Err SensitiveProtectionFailed
      else Ok (MkEncryptedField (ls_keyVersion local)
                 (nonce ++ gcm_Seal (aes_encrypt (ls_encryptionKey local)) nonce plaintext
                             (fieldAAD domain (ls_keyVersion local))))
  end.

Definition Decrypt (local : localState) (domain : bytes) (value : EncryptedField) :
  result sensitive_err bytes :=
  if negb (validDomain domain) || (ef_KeyVersion value =? 0) ||
     (len (ef_Ciphertext value) <=? aesGCMNonceBytes + aesGCMOverheadBytes) ||
     (aesGCMNonceBytes + aesGCMOverheadBytes + maximumProtectedBytes <? len (ef_Ciphertext value))
  then Err SensitiveInvalidArgument
  else if ls_closed local then Err SensitiveClosed
  else if negb (ef_KeyVersion value =? ls_keyVersion local) then Err SensitiveProtectionFailed
  else if negb (len (ls_encryptionKey local) =? keyBytes) then Err SensitiveProtectionFailed
  else match gcm_Open (aes_encrypt (ls_encryptionKey local)) (take 12 (ef_Ciphertext value))
               (drop 12 (ef_Ciphertext value)) (fieldAAD domain (ef_KeyVersion value)) with
       | None => Err SensitiveProtectionFailed
       | Some opened => Ok opened
       end.

Definition Close (local : localState) : localState :=
  if ls_closed local then local else MkLocalState [] [] 0 true.

(** ** Lemmas *)

Lemma NewLocal_ok lookup encryption version local :
  NewLocal lookup encryption version = Ok local ->
  local = MkLocalState lookup encryption version false /\ len lookup = 32 /\ len encryption = 32 /\
  version <> 0 /\ version < 2 ^ 31.
Proof.
  unfold NewLocal, keyBytes. intros Hn. case_top Hn; [done|]. bool_props. simplify_eq.
  split_and!; try done; lia.
Qed.

Lemma validDomain_no_nul domain : validDomain domain = true -> x00 ∉ domain.
Proof.
  unfold validDomain. intros Hv Hin. bool_props.
  match goal with E : forallb _ _ = true |- _ => apply forallb_Forall in E as Hall end.
  pose proof (proj1 (Forall_forall _ _) Hall x00) as Hb. cbv beta in Hb.
  apply list_elem_of_In in Hin. specialize (Hb Hin). vm_compute in Hb. done.
Qed.

Lemma Encrypt_facts local nonce domain plaintext field :
  Encrypt local nonce domain plaintext = Ok field ->
  exists n, nonce = Some n /\ len n = 12 /\ validDomain domain = true /\ ls_closed local = false /\
    0 < len plaintext <= maximumProtectedBytes /\ len (ls_encryptionKey local) = 32 /\
    field = MkEncryptedField (ls_keyVersion local)
      (n ++ gcm_Seal (aes_encrypt (ls_encryptionKey local)) n plaintext
              (fieldAAD domain (ls_keyVersion local))).
Proof.
  unfold Encrypt, aesGCMNonceBytes, keyBytes. intros He. case_top He; [done|]. case_top He; [done|]. case_top He; [done|].
  destruct nonce as [n|]; [|done]. case_top He; [done|]. bool_props. injection He as <-.
  pose proof (len_nonneg plaintext). exists n. split_and!; try done; lia.
Qed.

Lemma sealed_length key n plaintext aad :
  len n = 12 -> len (n ++ gcm_Seal (aes_encrypt key) n plaintext aad) = len plaintext + 28.
Proof. intros Hn. rewrite len_app, Hn. unfold len. rewrite gcm_Seal_length. lia. Qed.

Lemma Decrypt_Encrypt local nonce domain plaintext field :
  ls_keyVersion local <> 0 -> Encrypt local nonce domain plaintext = Ok field ->
  Decrypt local domain field = Ok plaintext.
Proof.
  intros Hv He. apply Encrypt_facts in He as (n & -> & Hn & Hd & Hc & Hp & Hk & ->).
  unfold Decrypt, keyBytes, aesGCMNonceBytes, aesGCMOverheadBytes. cbn [ef_KeyVersion ef_Ciphertext].
  rewrite sealed_length by done. rewrite Hd, Hc, Hk, Z.eqb_refl.
  rewrite (proj2 (Z.eqb_neq (ls_keyVersion local) 0)) by done.
  rewrite (proj2 (Z.leb_gt (len plaintext + 28) _)) by lia.
  rewrite (proj2 (Z.ltb_ge _ (len plaintext + 28))) by lia. cbn [orb negb].
  assert (length n = 12%nat) as Hl by (unfold len in Hn; lia).
  rewrite <- Hl, take_app_length, drop_app_length. by rewrite gcm_Open_Seal.
Qed.

(** ** An open local protector is a [Protector] *)

Definition usable (local : localState) : Prop := 0 < ls_keyVersion local < 2 ^ 31.

Section Instance_.
Context `{Primitives}.
Variable local : localState.
Hypothesis Hlocal : usable local.

#[local] Instance local_protector : Protector := {|
  entropy := option bytes;
  protector_LookupDigest := LookupDigest local;
  protector_Encrypt := Encrypt local;
  protector_Decrypt := Decrypt local |}.

#[local] Instance local_protector_laws : ProtectorLaws.
Proof using Hlocal.
  split.
  - intros n d p f. apply Decrypt_Encrypt. unfold usable in Hlocal. lia.
  - intros n d p f (n' & -> & _ & _ & _ & _ & _ & ->)%Encrypt_facts. exact Hlocal.
  - intros n d p f (n' & -> & Hn & _ & _ & Hp & _ & ->)%Encrypt_facts. cbn [ef_Ciphertext].
    rewrite sealed_length by done. lia.
Qed.
End Instance_.

(** ** Theorems *)

(** C33 (field_encryption_roundtrip): what a new local protector encrypts it
    decrypts to the same plaintext in the same domain, for every domain, nonce
    and plaintext it accepts, and the field carries its key version and 28 bytes
    more than the plaintext. *)
Theorem field_encryption_roundtrip lookup encryption version local nonce domain plaintext field :
  NewLocal lookup encryption version = Ok local ->
  Encrypt local nonce domain plaintext = Ok field ->
  Decrypt local domain field = Ok plaintext /\ ef_KeyVersion field = version /\
  len (ef_Ciphertext field) = len plaintext + 28.
Proof.
  intros (-> & _ & Hk & Hv & _)%NewLocal_ok He. split; [by eapply Decrypt_Encrypt|].
  apply Encrypt_facts in He as (n & -> & Hn & _ & _ & _ & _ & ->).
  split; [done|]. by apply sealed_length.
Qed.

(** [field_domains_unambiguous]: the associated data of a field determines its
    domain and key version, and the material of a lookup digest determines its
    domain and value: no two uses authenticate the same bytes. *)
Theorem field_domains_unambiguous d d' :
  validDomain d = true -> validDomain d' = true ->
  (forall v v', 0 <= v < 2 ^ 32 -> 0 <= v' < 2 ^ 32 ->
     fieldAAD d v = fieldAAD d' v' -> d = d' /\ v = v') /\
  (forall c c', lookup_material d c = lookup_material d' c' -> d = d' /\ c = c').
Proof.
  intros Hd%validDomain_no_nul Hd'%validDomain_no_nul. split.
  - intros v v' Hv Hv' He. unfold fieldAAD in He. apply app_inv_head in He.
    apply framed_inj in He as [-> He]; [|done|done]. split; [done|].
    apply (f_equal be_value) in He. rewrite !be_value_be_bytes in He.
    rewrite !Z.mod_small in He by (cbn; lia). done.
  - intros c c' He. unfold lookup_material in He. apply app_inv_head in He. by apply framed_inj in He.
Qed.

(** [closed_protector_unusable]: after [Close] no key material is left, every
    encryption and decryption fails, every lookup digest is zero, and closing
    again changes nothing. *)
Theorem closed_protector_unusable `{Primitives} local :
  ls_closed local = false ->
  Close local = MkLocalState [] [] 0 true /\ Close (Close local) = Close local /\
  (forall n d p, exists e, Encrypt (Close local) n d p = Err e) /\
  (forall d f, exists e, Decrypt (Close local) d f = Err e) /\
  (forall d c, LookupDigest (Close local) d c = zero_digest).
Proof.
  intros Hc. assert (Close local = MkLocalState [] [] 0 true) as Hcl by (unfold Close; by rewrite Hc).
  rewrite Hcl. split_and!; [done|done|..].
  - intros n d p. unfold Encrypt. cbn. case_goal; eauto.
  - intros d f. unfold Decrypt. cbn. case_goal; eauto.
  - intros d c. unfold LookupDigest. cbn. by case_goal.
Qed.

(** ** Witnesses *)

Definition sample_key : bytes := repeat x07 32.
Definition sample_local : localState := MkLocalState sample_key sample_key 3 false.

Lemma field_encryption_roundtrip_witness :
  exists field, Encrypt sample_local (Some (repeat x01 12)) (sbytes "a") [x2a] = Ok field /\
    Decrypt sample_local (sbytes "a") field = Ok [x2a].
Proof.
  eexists. split; [reflexivity|].
  destruct (field_encryption_roundtrip sample_key sample_key 3 sample_local (Some (repeat x01 12))
              (sbytes "a") [x2a] _ eq_refl eq_refl) as [Hd _].
  exact Hd.
Defined.

Lemma field_domains_unambiguous_witness :
  fieldAAD (sbytes "a") (2 - 1) = fieldAAD (sbytes "a") 1 /\ sbytes "a" = sbytes "a" /\ 2 - 1 = 1.
Proof.
  destruct (field_domains_unambiguous (sbytes "a") (sbytes "a") eq_refl eq_refl) as [Hf _].
  split; [reflexivity|]. apply Hf; [lia|lia|reflexivity].
Defined.

Lemma closed_protector_unusable_witness : Close sample_local = MkLocalState [] [] 0 true.
Proof.
  pose (lib := Build_Primitives (fun m => m) (fun _ => true) (fun u => u) (fun b => Some b)).
  destruct (@closed_protector_unusable lib sample_local eq_refl) as [Hc _]. exact Hc.
Defined.
