(* ===== verification/Idempotency.v ===== *)
(** Request replay protection: [internal/idempotency/service.go] and the
    statements of [db/queries/idempotency.sql] on [idempotency_records].

    A repository is bound to one caller-owned transaction; [Begin] and [Complete]
    are atomic on the table because the first statement of each takes the lock on
    the row it reads and changes. *)
From Stdlib Require Import ZArith Lia Strings.Byte.
From stdpp Require Import base gmap list strings numbers option.
From S2P Require Import Prelude GoStd GoTime AuthorityTypes Ledger FenceStore Sensitive Text.

#[local] Open Scope go_scope.

(** ** Data *)

Inductive idem_err :=
| IdemInvalidArgument | IdemStore | IdemProtection | IdemConflict | IdemRecordUnavailable
| IdemCanceled.

Inductive Outcome := Started | Replay | Conflict | InProgress.

#[export] Instance Outcome_eq_dec : EqDecision Outcome.
Proof. solve_decision. Defined.

Record Scope := MkScope { sc_Principal : bytes; sc_Operation : bytes }.

#[export] Instance Scope_eq_dec : EqDecision Scope.
Proof. solve_decision. Defined.

Definition requestDigestDomain : bytes := sbytes "TALENRO-IDEMPOTENCY-REQUEST-V1" ++ [x00].
Definition keyDigestDomain : bytes := sbytes "TALENRO-IDEMPOTENCY-KEY-V1" ++ [x00].
Definition responseProtectionDomain : bytes := sbytes "idempotency/response/v1".
Definition maximumCanonicalRequestBytes : Z := 64 * 1024.
Definition maximumResponseBytes : Z := 2 ^ 20.
Definition maximumStoredResponseBytes : Z := 1048608.
Definition responseFrameVersion : byte := x01.

Definition AnonymousRegistrationScope : Scope :=
  MkScope (sbytes "anonymous_registration") (sbytes "register_account").
Definition AnonymousEmailVerificationDeliveryScope : Scope :=
  MkScope (sbytes "anonymous_email_verification_delivery") (sbytes "create_email_verification_delivery").
Definition AnonymousPasswordResetDeliveryScope : Scope :=
  MkScope (sbytes "anonymous_password_reset_delivery") (sbytes "create_password_reset_delivery").
Definition AnonymousDeviceRegistrationScope : Scope :=
  MkScope (sbytes "anonymous_device_registration") (sbytes "register_device").
Definition AnonymousPasskeyAuthenticationScope : Scope :=
  MkScope (sbytes "anonymous_passkey_authentication") (sbytes "begin_passkey_authentication").

(** A handle.  Its copies share the ownership of the response, a cell of the
    heap. *)
Record IdempotencyRecord := MkIdempotencyRecord {
  ir_principalScope : bytes;
  ir_operation : bytes;
  ir_keyDigest : Digest;
  ir_requestDigest : Digest;
  ir_state : string;
  ir_responseStatus : Z;
  ir_response : option nat;
  ir_createdAt : time;
  ir_expiresAt : time;
  ir_canComplete : bool }.

Record responseOwnership := MkResponseOwnership { ro_body : bytes; ro_available : bool }.

(** A row of the table. *)
Record IdempotencyRow := MkIdempotencyRow {
  iw_principal_scope : bytes;
  iw_operation : bytes;
  iw_idempotency_key_hash : bytes;
  iw_request_digest : bytes;
  iw_state : string;
  iw_response_status : option Z;
  iw_response_ciphertext : option bytes;
  iw_response_key_version : option Z;
  iw_created_at : time;
  iw_expires_at : time }.

Abbreviation record_key := (bytes * bytes * bytes)%type.
Abbreviation records := (gmap record_key IdempotencyRow).

Definition row_key (r : IdempotencyRow) : record_key :=
  (iw_principal_scope r, iw_operation r, iw_idempotency_key_hash r).

Record istate := MkIState { is_table : records; is_cells : list responseOwnership }.

(** ** Validation *)

Definition wordByte (character : byte) : bool :=
  in_range "a" "z" character || in_range "0" "9" character || bool_decide (character = "_"%byte).

Definition validCredentialDomain (value : bytes) : bool :=
  match value with
  | [] => false
  | first :: rest => (len value <=? 32) && in_range "a" "z" first && forallb wordByte rest
  end.

Definition validOperation (value : bytes) : bool :=
  match value with
  | [] => false
  | first :: rest => (len value <=? 64) && in_range "a" "z" first && forallb wordByte rest
  end.

Definition keyByte (character : byte) : bool :=
  in_range "a" "z" character || in_range "A" "Z" character || in_range "0" "9" character ||
  bool_decide (character = "-"%byte) || bool_decide (character = "_"%byte).

Definition validIdempotencyKey (value : bytes) : bool :=
  negb ((len value <? 22) || (86 <? len value)) && forallb keyByte value.

Section Scopes.
Context `{Primitives} `{UUIDText}.

Definition AuthenticatedScope (principalID : UUID) (credentialDomain operation : bytes) :
  result idem_err Scope :=
  if (principalID == uuid_Nil) || negb (validCredentialDomain credentialDomain) ||
     negb (validOperation operation)
  then Err IdemInvalidArgument
  else Ok (MkScope (sbytes "principal:" ++ uuid_String principalID ++ [":"%byte] ++ credentialDomain)
             operation).

Definition validScope (scope : Scope) : bool :=
  if negb (validOperation (sc_Operation scope)) || (len (sc_Principal scope) =? 0) ||
     (128 <? len (sc_Principal scope)) then false
  else if sc_Principal scope == sc_Principal AnonymousRegistrationScope then
    sc_Operation scope == sc_Operation AnonymousRegistrationScope
  else if sc_Principal scope == sc_Principal AnonymousEmailVerificationDeliveryScope then
    sc_Operation scope == sc_Operation AnonymousEmailVerificationDeliveryScope
  else if sc_Principal scope == sc_Principal AnonymousPasswordResetDeliveryScope then
    sc_Operation scope == sc_Operation AnonymousPasswordResetDeliveryScope
  else if sc_Principal scope == sc_Principal AnonymousDeviceRegistrationScope then
    sc_Operation scope == sc_Operation AnonymousDeviceRegistrationScope
  else if sc_Principal scope == sc_Principal AnonymousPasskeyAuthenticationScope then
    sc_Operation scope == sc_Operation AnonymousPasskeyAuthenticationScope
  else match Split ":"%byte (sc_Principal scope) with
       | [p0; p1; p2] =>
           if (p0 != sbytes "principal") || negb (validCredentialDomain p2) then false
           else match uuid_Parse p1 with
                | Some parsed => (parsed != uuid_Nil) && (uuid_String parsed == p1)
                | None => false
                end
       | _ => false
       end.

(** ** Digests *)

Definition request_material (operation canonical : bytes) : bytes :=
  requestDigestDomain ++ operation ++ [x00] ++ canonical.

Definition key_material (key : bytes) : bytes := keyDigestDomain ++ be_bytes 2 (len key) ++ key.

Definition RequestDigest (operation canonical : bytes) : result idem_err Digest :=
  if negb (validOperation operation) || (len canonical =? 0) ||
     (maximumCanonicalRequestBytes <? len canonical)
  then Err IdemInvalidArgument
  else Ok (Sum256 (request_material operation canonical)).

Definition KeyDigest (key : bytes) : result idem_err Digest :=
  if negb (validIdempotencyKey key) then Err IdemInvalidArgument else Ok (Sum256 (key_material key)).

(** ** Handles *)

Definition ownResponse (body : bytes) (cells : list responseOwnership) :
  nat * list responseOwnership :=
  (length cells, cells ++ [MkResponseOwnership body true]).

(** [TakeResponseBody] transfers the response once across all copies of the
    handle. *)
Definition TakeResponseBody (record : IdempotencyRecord) (s : istate) : option bytes * istate :=
  match ir_response record with
  | None => (None, s)
  | Some l =>
      match is_cells s !! l with
      | None => (None, s)
      | Some c =>
          if negb (ro_available c) then (None, s)
          else (Some (ro_body c),
                MkIState (is_table s) (<[l := MkResponseOwnership [] false]> (is_cells s)))
      end
  end.

Definition recordFromStore (stored : IdempotencyRow) (scope : Scope) (keyDigest : Digest) :
  option IdempotencyRecord :=
  if (iw_principal_scope stored != sc_Principal scope) || (iw_operation stored != sc_Operation scope) ||
     negb (len (iw_idempotency_key_hash stored) =? 32) || negb (len (iw_request_digest stored) =? 32) ||
     (iw_idempotency_key_hash stored != keyDigest) || IsZero (iw_created_at stored) ||
     negb (After (iw_expires_at stored) (iw_created_at stored))
  then None
  else Some (MkIdempotencyRecord (iw_principal_scope stored) (iw_operation stored)
               (iw_idempotency_key_hash stored) (iw_request_digest stored) (iw_state stored) 0 None
               (iw_created_at stored) (iw_expires_at stored) false).

Definition validInternalRecord (record : IdempotencyRecord) : bool :=
  validScope (MkScope (ir_principalScope record) (ir_operation record)) &&
  ((ir_state record == "in_progress"%string) || (ir_state record == "completed"%string)) &&
  negb (IsZero (ir_createdAt record)) && After (ir_expiresAt record) (ir_createdAt record) &&
  (ir_keyDigest record != zero_digest) && (ir_requestDigest record != zero_digest).

Definition mapContextOrStore (ctx : ctx_poll) : idem_err :=
  if ctx_done ctx then IdemCanceled else IdemStore.

(** ** Statements *)

(** The constraints of the table. *)
Definition scope_char (c : byte) : bool :=
  in_range "A" "Z" c || in_range "a" "z" c || in_range "0" "9" c ||
  bool_decide (c ∈ [":"; "_"; "-"]%byte).

Definition record_checks (r : IdempotencyRow) : bool :=
  (1 <=? len (iw_principal_scope r)) && (len (iw_principal_scope r) <=? 128) &&
  forallb scope_char (iw_principal_scope r) && validOperation (iw_operation r) &&
  (len (iw_idempotency_key_hash r) =? 32) && (len (iw_request_digest r) =? 32) &&
  bool_decide (iw_state r ∈ ["in_progress"; "completed"; "failed"]%string) &&
  null_or (fun c => len c <=? 1048608) (iw_response_ciphertext r) &&
  null_or (fun v => 0 <? v) (iw_response_key_version r) &&
  Bool.eqb (is_nil (iw_response_ciphertext r)) (is_nil (iw_response_key_version r)).

Context `{TimestampColumn}.

Definition begin_row (scope : Scope) (keyDigest requestDigest : Digest) (createdAt expiresAt : time) :
  IdempotencyRow :=
  MkIdempotencyRow (sc_Principal scope) (sc_Operation scope) keyDigest requestDigest "in_progress"
    None None None (column_time createdAt) (column_time expiresAt).

(** The number of inserted rows. *)
Definition TryBeginIdempotency (failure : option pg_error) (r : IdempotencyRow) (t : records) :
  result pg_error Z * records :=
  match failure with
  | Some err => (Err err, t)
  | None => if negb (record_checks r) then (Err PgOther, t)
            else match t !! row_key r with
                 | Some _ => (Ok 0, t)
                 | None => (Ok 1, <[row_key r := r]> t)
                 end
  end.

Definition GetIdempotencyForUpdate (failure : option pg_error) (k : record_key) (t : records) :
  result pg_error IdempotencyRow :=
  match failure with
  | Some err => Err err
  | None => match t !! k with Some r => Ok r | None => Err PgNoRows end
  end.

Definition complete_row (status : Z) (ciphertext : bytes) (keyVersion : Z) (r : IdempotencyRow) :
  IdempotencyRow :=
  MkIdempotencyRow (iw_principal_scope r) (iw_operation r) (iw_idempotency_key_hash r)
    (iw_request_digest r) "completed" (Some status) (Some ciphertext) (Some keyVersion)
    (iw_created_at r) (iw_expires_at r).

Definition CompleteIdempotency (failure : option pg_error) (k : record_key) (requestDigest : bytes)
  (status : Z) (ciphertext : bytes) (keyVersion : Z) (t : records) :
  result pg_error IdempotencyRow * records :=
  match failure with
  | Some err => (Err err, t)
  | None =>
      match t !! k with
      | None => (Err PgNoRows, t)
      | Some r =>
          if (iw_request_digest r == requestDigest) && (iw_state r == "in_progress"%string) then
            let r' := complete_row status ciphertext keyVersion r in
            if negb (record_checks r') then (Err PgOther, t) else (Ok r', <[k := r']> t)
          else (Err PgNoRows, t)
      end
  end.

Definition PruneIdempotencyRecords (now : time) (t : records) : records :=
  filter (fun kr => negb (Before (iw_expires_at kr.2) now &&
                          bool_decide (iw_state kr.2 ∈ ["completed"; "failed"]%string)) = true) t.

(** ** Operations *)
Context `{Protector}.

Definition started_record (scope : Scope) (keyDigest requestDigest : Digest) (createdAt expiresAt : time) :
  IdempotencyRecord :=
  MkIdempotencyRecord (sc_Principal scope) (sc_Operation scope) keyDigest requestDigest "in_progress"
    0 None createdAt expiresAt true.

(** The stored response of a completed record, decrypted. *)
Definition stored_response (stored : IdempotencyRow) : result idem_err (Z * bytes) :=
  match iw_response_status stored, iw_response_key_version stored, iw_response_ciphertext stored with
  | Some status, Some keyVersion, ciphertext =>
      let ciphertext := match ciphertext with Some c => c | None => [] end in
      if (status <? 100) || (599 <? status) || (keyVersion <=? 0) || (len ciphertext <=? 28) ||
         (maximumStoredResponseBytes <? len ciphertext)
      then Err IdemRecordUnavailable
      else match protector_Decrypt responseProtectionDomain
                   (MkEncryptedField (u32 keyVersion) ciphertext) with
           | Err _ => Err IdemProtection
           | Ok [] => Err IdemProtection
           | Ok (version :: body) =>
               if (maximumResponseBytes + 1 <? len (version :: body)) || (version != responseFrameVersion)
               then Err IdemProtection else Ok (status, body)
           end
  | _, _, _ => Err IdemRecordUnavailable
  end.

Definition set_response (record : IdempotencyRecord) (state : string) (status : Z) (l : nat) :
  IdempotencyRecord :=
  MkIdempotencyRecord (ir_principalScope record) (ir_operation record) (ir_keyDigest record)
    (ir_requestDigest record) state status (Some l) (ir_createdAt record) (ir_expiresAt record)
    (ir_canComplete record).

Definition Begin (e : env) (scope : Scope) (key canonical : bytes) (createdAt expiresAt : time)
  (s : istate) : result idem_err (IdempotencyRecord * Outcome) * istate :=
  if (poll e 0 == CtxNil) || negb (validScope scope) || IsZero createdAt ||
     negb (After expiresAt createdAt)
  then (Err IdemInvalidArgument, s)
  else if ctx_done (poll e 1) then (Err IdemCanceled, s)
  else match RequestDigest (sc_Operation scope) canonical with
  | Err err => (Err err, s)
  | Ok requestDigest =>
    match KeyDigest key with
    | Err err => (Err err, s)
    | Ok keyDigest =>
      match TryBeginIdempotency (fault e 0)
              (begin_row scope keyDigest requestDigest createdAt expiresAt) (is_table s) with
      | (Err _, _) => (Err (mapContextOrStore (poll e 2)), s)
      | (Ok rows, table) =>
        let s := MkIState table (is_cells s) in
        if rows =? 1
        then (Ok (started_record scope keyDigest requestDigest createdAt expiresAt, Started), s)
        else if negb (rows =? 0) then (Err IdemStore, s)
        else match GetIdempotencyForUpdate (fault e 1)
                     (sc_Principal scope, sc_Operation scope, keyDigest) table with
        | Err _ => (Err (mapContextOrStore (poll e 3)), s)
        | Ok stored =>
          match recordFromStore stored scope keyDigest with
          | None => (Err IdemRecordUnavailable, s)
          | Some record =>
            if negb (After (ir_expiresAt record) createdAt) then (Err IdemRecordUnavailable, s)
            else if ir_requestDigest record != requestDigest then (Ok (record, Conflict), s)
            else if ir_state record == "in_progress"%string then (Ok (record, InProgress), s)
            else if ir_state record == "completed"%string then
              match stored_response stored with
              | Err err => (Err err, s)
              | Ok (status, body) =>
                  let '(l, cells) := ownResponse body (is_cells s) in
                  (Ok (set_response record (ir_state record) status l, Replay),
                   MkIState table cells)
              end
            else (Err IdemRecordUnavailable, s)
          end
        end
      end
    end
  end.

Definition Complete (e : env) (n : entropy) (record : IdempotencyRecord) (status : Z) (body : bytes)
  (s : istate) : result idem_err IdempotencyRecord * istate :=
  if (poll e 0 == CtxNil) || negb (validInternalRecord record) || (status <? 100) || (599 <? status) ||
     (maximumResponseBytes <? len body)
  then (Err IdemInvalidArgument, s)
  else if negb (ir_canComplete record) || (ir_state record != "in_progress"%string)
  then (Err IdemConflict, s)
  else if ctx_done (poll e 1) then (Err IdemCanceled, s)
  else match protector_Encrypt n responseProtectionDomain (responseFrameVersion :: body) with
  | Err _ => (Err IdemProtection, s)
  | Ok protected =>
    if (ef_KeyVersion protected =? 0) || (2 ^ 31 - 1 <? ef_KeyVersion protected) ||
       (len (ef_Ciphertext protected) =? 0) ||
       (maximumStoredResponseBytes <? len (ef_Ciphertext protected))
    then (Err IdemProtection, s)
    else if ctx_done (poll e 2) then (Err IdemCanceled, s)
    else match CompleteIdempotency (fault e 0)
                 (ir_principalScope record, ir_operation record, ir_keyDigest record)
                 (ir_requestDigest record) status (ef_Ciphertext protected) (ef_KeyVersion protected)
                 (is_table s) with
    | (Err PgNoRows, _) => (Err IdemConflict, s)
    | (Err _, _) => (Err (mapContextOrStore (poll e 3)), s)
    | (Ok stored, table) =>
        let s := MkIState table (is_cells s) in
        match recordFromStore stored (MkScope (ir_principalScope record) (ir_operation record))
                (ir_keyDigest record) with
        | None => (Err IdemConflict, s)
        | Some completed =>
            if (ir_state completed != "completed"%string) ||
               (ir_requestDigest completed != ir_requestDigest record)
            then (Err IdemConflict, s)
            else
              let '(l, cells) := ownResponse body (is_cells s) in
              (Ok (set_response completed (ir_state completed) status l), MkIState table cells)
        end
    end
  end.
End Scopes.
