(* ===== verification/IdempotencyTheorems.v ===== *)
(** Properties of request replay protection. *)
From Stdlib Require Import ZArith Lia Strings.Byte.
From stdpp Require Import base gmap list strings numbers option relations.
From S2P Require Import Prelude GoStd GoTime AuthorityTypes Ledger FenceStore Sensitive Text Idempotency.

#[local] Open Scope go_scope.

Section Theorems.
Context `{Primitives} `{UUIDText} `{TimestampColumn} `{PL : ProtectorLaws}.

Implicit Types (s : istate) (t : records) (k : record_key) (r : IdempotencyRow).

(** ** Calls *)

Inductive idem_call :=
| ICBegin (e : env) (scope : Scope) (key canonical : bytes) (createdAt expiresAt : time)
| ICComplete (e : env) (n : entropy) (record : IdempotencyRecord) (status : Z) (body : bytes)
| ICTake (record : IdempotencyRecord)
| ICPrune (now : time).

Definition idem_run (c : idem_call) s : istate :=
  match c with
  | ICBegin e scope key canonical createdAt expiresAt =>
      (Begin e scope key canonical createdAt expiresAt s).2
  | ICComplete e n record status body => (Complete e n record status body s).2
  | ICTake record => (TakeResponseBody record s).2
  | ICPrune now => MkIState (PruneIdempotencyRecords now (is_table s)) (is_cells s)
  end.

(** Any calls, none of which prunes records that expire at [deadline]. *)
Inductive idem_calls (deadline : time) s : istate -> Prop :=
| idem_calls_refl : idem_calls deadline s s
| idem_calls_step s1 c :
    idem_calls deadline s s1 ->
    match c with ICPrune now => Before deadline now = false | _ => True end ->
    idem_calls deadline s (idem_run c s1).

(** ** How a row evolves *)

(** A row changes only by its completion. *)
Definition row_moves r r' : Prop :=
  r' = r \/ iw_state r = "in_progress"%string /\ exists status c v, r' = complete_row status c v r.

Lemma row_moves_times r r' :
  row_moves r r' -> iw_request_digest r' = iw_request_digest r /\ iw_expires_at r' = iw_expires_at r.
Proof. intros [->|(_ & st & c & v & ->)]; done. Qed.

(** What a call does to the table: nothing, an insertion at a free key, or a
    completion. *)
Inductive table_step t : records -> Prop :=
| table_same : table_step t t
| table_insert k r : t !! k = None -> table_step t (<[k := r]> t)
| table_complete k r status c v :
    t !! k = Some r -> iw_state r = "in_progress"%string ->
    record_checks (complete_row status c v r) = true ->
    table_step t (<[k := complete_row status c v r]> t).

Lemma TryBegin_cases failure r t res t' :
  TryBeginIdempotency failure r t = (res, t') ->
  (t' = t /\ res <> Ok 1) \/
  (res = Ok 1 /\ t !! row_key r = None /\ t' = <[row_key r := r]> t /\ record_checks r = true).
Proof.
  unfold TryBeginIdempotency. intros Ht. case_top Ht; [simplify_eq; by left|].
  case_top Ht; [simplify_eq; by left|]. bool_props. case_top Ht; simplify_eq; [by left|by right].
Qed.

Lemma Begin_table e scope key canonical c x s res s' :
  Begin e scope key canonical c x s = (res, s') ->
  table_step (is_table s) (is_table s') /\
  (forall h, res = Ok (h, Started) ->
     exists kd rd, KeyDigest key = Ok kd /\ RequestDigest (sc_Operation scope) canonical = Ok rd /\
       is_table s !! (sc_Principal scope, sc_Operation scope, kd) = None /\
       is_table s' !! (sc_Principal scope, sc_Operation scope, kd) =
         Some (begin_row scope kd rd c x)).
Proof.
  unfold Begin. intros Hb.
  case_top Hb; [simplify_eq; split; [constructor|done]|].
  case_top Hb; [simplify_eq; split; [constructor|done]|].
  destruct (RequestDigest _ _) as [rd|] eqn:Hrd; [|simplify_eq; split; [constructor|done]].
  destruct (KeyDigest key) as [kd|] eqn:Hkd; [|simplify_eq; split; [constructor|done]].
  destruct (TryBeginIdempotency _ _ _) as [[rows|err] t1] eqn:Ht;
    [|simplify_eq; split; [constructor|done]].
  apply TryBegin_cases in Ht as [[-> Hne]|(Hrows & Hfree & -> & Hchk)].
  - assert (rows <> 1) as Hr1 by congruence. apply Z.eqb_neq in Hr1. rewrite Hr1 in Hb.
    assert (is_table s' = is_table s /\ forall h, res <> Ok (h, Started)) as [-> Hns].
    { repeat case_in Hb; simplify_eq; cbn; split; try done; intros; congruence. }
    split; [constructor|]. intros h Hh. by apply Hns in Hh.
  - injection Hrows as ->. cbn in Hb. simplify_eq. cbn. split; [by constructor|].
    intros h _. exists kd, rd. split_and!; try done. apply lookup_insert_eq.
Qed.

(** A completed row that replays a response. *)
Record holds k (digest : Digest) (expires : time) (status : Z) (body : bytes) r : Prop := {
  h_key : row_key r = k;
  h_checks : record_checks r = true;
  h_state : iw_state r = "completed"%string;
  h_digest : iw_request_digest r = digest;
  h_expires : iw_expires_at r = expires;
  h_created : IsZero (iw_created_at r) = false;
  h_order : After expires (iw_created_at r) = true;
  h_response : stored_response r = Ok (status, body) }.

Definition handle_key (record : IdempotencyRecord) : record_key :=
  (ir_principalScope record, ir_operation record, ir_keyDigest record).

Lemma CompleteIdempotency_cases failure k digest status c v t res t' :
  CompleteIdempotency failure k digest status c v t = (res, t') ->
  (t' = t /\ forall r, res <> Ok r) \/
  exists r, t !! k = Some r /\ iw_state r = "in_progress"%string /\ iw_request_digest r = digest /\
    record_checks (complete_row status c v r) = true /\
    res = Ok (complete_row status c v r) /\ t' = <[k := complete_row status c v r]> t.
Proof.
  unfold CompleteIdempotency. intros Hc. case_top Hc; [simplify_eq; by left|].
  case_top Hc; [|simplify_eq; by left]. case_top Hc; [|simplify_eq; by left].
  cbv zeta in Hc. case_top Hc; [simplify_eq; by left|]. bool_props. simplify_eq. right. eauto 10.
Qed.

Lemma recordFromStore_facts stored scope kd record :
  recordFromStore stored scope kd = Some record ->
  row_key stored = (sc_Principal scope, sc_Operation scope, kd) /\
  IsZero (iw_created_at stored) = false /\
  After (iw_expires_at stored) (iw_created_at stored) = true /\
  record = MkIdempotencyRecord (iw_principal_scope stored) (iw_operation stored)
             (iw_idempotency_key_hash stored) (iw_request_digest stored) (iw_state stored) 0 None
             (iw_created_at stored) (iw_expires_at stored) false.
Proof.
  unfold recordFromStore. intros Hr. case_top Hr; [done|]. bool_props. simplify_eq.
  split_and!; try done. unfold row_key. congruence.
Qed.

Lemma complete_response n status body protected r :
  protector_Encrypt n responseProtectionDomain (responseFrameVersion :: body) = Ok protected ->
  100 <= status <= 599 -> len body <= maximumResponseBytes ->
  len (ef_Ciphertext protected) <= maximumStoredResponseBytes ->
  stored_response (complete_row status (ef_Ciphertext protected) (ef_KeyVersion protected) r) =
    Ok (status, body).
Proof using PL.
  intros He Hs Hb Hc. pose proof (protector_version _ _ _ _ He) as Hv.
  pose proof (protector_length _ _ _ _ He) as Hl. pose proof (protector_roundtrip _ _ _ _ He) as Hd.
  unfold stored_response. cbn [complete_row iw_response_status iw_response_key_version iw_response_ciphertext].
  rewrite (proj2 (Z.ltb_ge status 100)), (proj2 (Z.ltb_ge 599 status)),
    (proj2 (Z.leb_gt (ef_KeyVersion protected) 0)), (proj2 (Z.leb_gt (len _) 28)),
    (proj2 (Z.ltb_ge maximumStoredResponseBytes _)) by lia. cbn [orb].
  rewrite u32_id by lia. destruct protected as [v c]. cbn in *. rewrite Hd.
  rewrite (proj2 (Z.ltb_ge _ (len (responseFrameVersion :: body)))).
  - by rewrite bool_decide_eq_true_2.
  - unfold len in *. cbn [length]. lia.
Qed.

Lemma Complete_table e n record status body s res s' :
  Complete e n record status body s = (res, s') ->
  table_step (is_table s) (is_table s') /\
  forall d, res = Ok d ->
    (exists r0, is_table s !! handle_key record = Some r0 /\ iw_state r0 = "in_progress"%string) /\
    (exists r, is_table s' !! handle_key record = Some r /\
       holds (handle_key record) (ir_requestDigest record) (ir_expiresAt d) status body r) /\
    validScope (MkScope (ir_principalScope record) (ir_operation record)) = true /\
    ir_responseStatus d = status /\
    exists l, ir_response d = Some l /\ is_cells s' !! l = Some (MkResponseOwnership body true).
Proof using PL.
  unfold Complete. intros Hc.
  case_top Hc; [simplify_eq; split; [constructor|done]|].
  case_top Hc; [simplify_eq; split; [constructor|done]|].
  case_top Hc; [simplify_eq; split; [constructor|done]|].
  destruct (protector_Encrypt _ _ _) as [protected|] eqn:Henc; [|simplify_eq; split; [constructor|done]].
  case_top Hc; [simplify_eq; split; [constructor|done]|].
  case_top Hc; [simplify_eq; split; [constructor|done]|].
  fold (handle_key record) in Hc.
  destruct (CompleteIdempotency _ _ _ _ _ _ _) as [cr t1] eqn:Hci.
  apply CompleteIdempotency_cases in Hci as [[-> Hno]|(r & Hl & Hst & Hdig & Hchk & -> & ->)].
  - destruct cr as [stored|err]; [by destruct (Hno stored)|].
    destruct err; simplify_eq; (split; [constructor|done]).
  - assert (table_step (is_table s) (<[handle_key record := complete_row status (ef_Ciphertext protected)
      (ef_KeyVersion protected) r]> (is_table s))) as Hstep by by constructor.
    destruct (recordFromStore _ _ _) as [completed|] eqn:Hrs; [|simplify_eq; by split].
    apply recordFromStore_facts in Hrs as (Hkey & Hcr & Hord & ->).
    case_top Hc; [simplify_eq; by split|]. cbn [ownResponse] in Hc. simplify_eq. split; [done|].
    intros d [= <-]. bool_props. split; [eauto|]. split.
    + eexists. split; [apply lookup_insert_eq|]. constructor; try done.
      eapply complete_response; [exact Henc|lia..].
    + split_and!; [by unfold validInternalRecord in *; bool_props|done|].
      eexists. split; [done|]. cbn [is_cells]. by rewrite lookup_app_r, Nat.sub_diag.
Qed.

Lemma table_step_row t t' k r :
  table_step t t' -> t !! k = Some r -> exists r', t' !! k = Some r' /\ row_moves r r'.
Proof.
  intros Hs Hl. destruct Hs as [|k' r' Hn|k' r' status c v Hl' Hst _].
  - exists r. split; [done|by left].
  - exists r. rewrite lookup_insert_ne by congruence. split; [done|by left].
  - destruct (decide (k = k')) as [->|Hne].
    + simplify_eq. eexists. rewrite lookup_insert_eq. split; [done|]. right. eauto.
    + exists r. rewrite lookup_insert_ne by congruence. split; [done|by left].
Qed.

Lemma Take_table record s : is_table (TakeResponseBody record s).2 = is_table s.
Proof. unfold TakeResponseBody. by repeat case_goal. Qed.

Lemma idem_run_row c s k r :
  match c with ICPrune now => Before (iw_expires_at r) now = false | _ => True end ->
  is_table s !! k = Some r ->
  exists r', is_table (idem_run c s) !! k = Some r' /\ row_moves r r'.
Proof using PL.
  intros Hc Hl. destruct c as [e scope key canonical c x|e n record status body|record|now]; cbn.
  - destruct (Begin _ _ _ _ _ _ _) as [res s'] eqn:E. eapply table_step_row; [|exact Hl].
    by eapply Begin_table.
  - destruct (Complete _ _ _ _ _ _) as [res s'] eqn:E. eapply table_step_row; [|exact Hl].
    by eapply Complete_table.
  - rewrite Take_table. exists r. split; [done|by left].
  - exists r. split; [|by left]. unfold PruneIdempotencyRecords. apply map_lookup_filter_Some.
    split; [done|]. cbn. by rewrite Hc.
Qed.

Lemma row_moves_trans a b c : row_moves a b -> row_moves b c -> row_moves a c.
Proof.
  intros [->|(Ha & st & ct & v & ->)] Hb; [done|]. destruct Hb as [->|(Hb & _)]; [right; eauto 10|done].
Qed.

Lemma idem_calls_row deadline s s' k r :
  idem_calls deadline s s' -> is_table s !! k = Some r -> iw_expires_at r = deadline ->
  exists r', is_table s' !! k = Some r' /\ row_moves r r'.
Proof using PL.
  intros Hs Hl Hd. induction Hs as [|s1 c Hs IH Hc]; [exists r; split; [done|by left]|].
  destruct IH as (r1 & Hl1 & Hm1). destruct (row_moves_times _ _ Hm1) as [_ He].
  destruct (idem_run_row c s1 k r1) as (r2 & Hl2 & Hm2); [by destruct c; [..|rewrite He, Hd]|done|].
  exists r2. split; [done|]. by eapply row_moves_trans.
Qed.

Lemma completed_row deadline s s' k digest status body r :
  idem_calls deadline s s' -> is_table s !! k = Some r -> holds k digest deadline status body r ->
  is_table s' !! k = Some r.
Proof using PL.
  intros Hs Hl Hh. destruct (idem_calls_row _ _ _ _ _ Hs Hl (h_expires _ _ _ _ _ _ Hh)) as (r' & Hl' & Hm).
  destruct Hm as [->|(Hst & _)]; [done|]. by rewrite (h_state _ _ _ _ _ _ Hh) in Hst.
Qed.

(** The checks of the table pass for a new row at the key of an existing one. *)
Lemma begin_row_checks scope kd rd c x r :
  record_checks r = true -> row_key r = (sc_Principal scope, sc_Operation scope, kd) -> len rd = 32 ->
  record_checks (begin_row scope kd rd c x) = true.
Proof.
  intros Hc Hk Hl. unfold row_key in Hk. injection Hk as Hp Ho Hkd. unfold record_checks in *.
  cbn [begin_row iw_principal_scope iw_operation iw_idempotency_key_hash iw_request_digest iw_state
    iw_response_ciphertext iw_response_key_version null_or is_nil].
  rewrite <- Hp, <- Ho, <- Hkd, Hl. bool_props.
  repeat match goal with E : _ = true |- _ => rewrite E; clear E end.
  repeat match goal with
  | E : 1 <= len _ |- _ => rewrite (proj2 (Z.leb_le 1 _) E); clear E
  | E : len _ <= 128 |- _ => rewrite (proj2 (Z.leb_le _ 128) E); clear E
  | E : len _ = 32 |- _ => rewrite E; clear E end.
  done.
Qed.

(** The handle of a stored row. *)
Definition row_handle r : IdempotencyRecord :=
  MkIdempotencyRecord (iw_principal_scope r) (iw_operation r) (iw_idempotency_key_hash r)
    (iw_request_digest r) (iw_state r) 0 None (iw_created_at r) (iw_expires_at r) false.

Lemma recordFromStore_row scope kd r :
  row_key r = (sc_Principal scope, sc_Operation scope, kd) -> record_checks r = true ->
  IsZero (iw_created_at r) = false -> After (iw_expires_at r) (iw_created_at r) = true ->
  recordFromStore r scope kd = Some (row_handle r).
Proof.
  intros Hk Hc Hz Ha. unfold row_key in Hk. injection Hk as Hp Ho Hkd. unfold recordFromStore.
  rewrite Hz, Ha. unfold record_checks in Hc. bool_props.
  repeat match goal with E : len _ = 32 |- _ => rewrite E; clear E end.
  rewrite !bool_decide_eq_true_2 by done. done.
Qed.

Lemma Begin_existing scope key canonical c x s kd rd r digest status body expires :
  validScope scope = true -> IsZero c = false -> After x c = true ->
  RequestDigest (sc_Operation scope) canonical = Ok rd -> KeyDigest key = Ok kd -> len rd = 32 ->
  is_table s !! (sc_Principal scope, sc_Operation scope, kd) = Some r ->
  holds (sc_Principal scope, sc_Operation scope, kd) digest expires status body r ->
  After expires c = true ->
  Begin calm scope key canonical c x s =
    if rd == digest then
      (Ok (set_response (row_handle r) "completed" status (length (is_cells s)), Replay),
       MkIState (is_table s) (is_cells s ++ [MkResponseOwnership body true]))
    else (Ok (row_handle r, Conflict), s).
Proof.
  intros Hsc Hz Hx Hrd Hkd Hlen Hl [Hk Hchk Hst Hdg Hex Hcz Hcx Hresp] Hlive. unfold Begin.
  cbn [calm poll fault]. change (CtxLive == CtxNil) with false. change (ctx_done CtxLive) with false.
  rewrite Hsc, Hz, Hx, Hrd, Hkd. cbn [orb negb].
  unfold TryBeginIdempotency. rewrite (begin_row_checks _ _ _ _ _ _ Hchk Hk Hlen). cbn [negb].
  assert (row_key (begin_row scope kd rd c x) = (sc_Principal scope, sc_Operation scope, kd)) as -> by done.
  rewrite Hl. cbn [Z.eqb negb GetIdempotencyForUpdate]. rewrite Hl.
  rewrite recordFromStore_row by (try done; by rewrite Hex). cbn [row_handle ir_expiresAt ir_requestDigest ir_state].
  rewrite Hex, Hlive, Hdg, Hst. cbn [negb]. destruct s as [t cells]. cbn [is_table is_cells].
  case_bool_decide as Hd; cbn [negb].
  - subst rd. rewrite (bool_decide_eq_true_2 (digest = digest)) by done. cbn [negb]. text_eval.
    by rewrite Hresp.
  - by rewrite (bool_decide_eq_false_2 (rd = digest)) by congruence.
Qed.

Lemma record_checks_digest r : record_checks r = true -> len (iw_request_digest r) = 32.
Proof. intros Hc. unfold record_checks in Hc. bool_props. done. Qed.

(** ** Theorems *)

(** C4 (completed_response_replayed): once [Complete] succeeded, until the
    record expires and is pruned, every repetition of the request with its key
    gets exactly the recorded status and body back, the body once across all
    copies of the handle, whatever other calls are made; the same key with any
    other request is a conflict that discloses no response. *)
Theorem completed_response_replayed e n record status body s done_ s1 s2 key canonical c x :
  Complete e n record status body s = (Ok done_, s1) -> idem_calls (ir_expiresAt done_) s1 s2 ->
  KeyDigest key = Ok (ir_keyDigest record) ->
  IsZero c = false -> After x c = true -> After (ir_expiresAt done_) c = true ->
  let scope := MkScope (ir_principalScope record) (ir_operation record) in
  (RequestDigest (ir_operation record) canonical = Ok (ir_requestDigest record) ->
   exists h s3, Begin calm scope key canonical c x s2 = (Ok (h, Replay), s3) /\
     is_table s3 = is_table s2 /\ ir_responseStatus h = status /\
     (TakeResponseBody h s3).1 = Some body /\
     (TakeResponseBody h (TakeResponseBody h s3).2).1 = None) /\
  (forall rd, RequestDigest (ir_operation record) canonical = Ok rd -> len rd = 32 ->
   rd <> ir_requestDigest record ->
   exists h, Begin calm scope key canonical c x s2 = (Ok (h, Conflict), s2) /\
     ir_response h = None /\ ir_responseStatus h = 0).
Proof using PL.
  intros Hc Hs Hk Hz Hx Hlive. cbv zeta.
  destruct (Complete_table _ _ _ _ _ _ _ _ Hc) as [_ Hok].
  destruct (Hok _ eq_refl) as (_ & (r & Hl & Hh) & Hsc & _). clear Hok.
  pose proof (completed_row _ _ _ _ _ _ _ _ Hs Hl Hh) as Hl2. split.
  - intros Hrd.
    assert (len (ir_requestDigest record) = 32) as Hlen
      by (rewrite <- (h_digest _ _ _ _ _ _ Hh); apply record_checks_digest, Hh).
    rewrite (Begin_existing (MkScope _ _) key canonical c x s2 _ _ r _ status body _ Hsc Hz Hx Hrd Hk
      Hlen Hl2 Hh Hlive).
    rewrite bool_decide_eq_true_2 by done. eexists _, _. split; [done|]. split; [done|]. split; [done|].
    unfold TakeResponseBody. cbn [set_response ir_response is_cells].
    rewrite lookup_app_r, Nat.sub_diag by done. cbn. split; [done|].
    by rewrite list_lookup_insert_eq by (rewrite length_app; cbn; lia).
  - intros rd Hrd Hlen Hne.
    rewrite (Begin_existing (MkScope _ _) key canonical c x s2 _ rd r _ status body _ Hsc Hz Hx Hrd Hk
      Hlen Hl2 Hh Hlive).
    rewrite bool_decide_eq_false_2 by done. eexists. split; [done|]. done.
Qed.

(** [request_started_once]: a key starts at most one request: after [Begin]
    answered [Started], no later [Begin] with the same scope and key does, until
    the record is completed, expired and pruned. *)
Theorem request_started_once e scope key canonical c x s h s1 s2 e' canonical' c' x' h' o s3 :
  Begin e scope key canonical c x s = (Ok (h, Started), s1) -> idem_calls (column_time x) s1 s2 ->
  Begin e' scope key canonical' c' x' s2 = (Ok (h', o), s3) -> o <> Started.
Proof using PL.
  intros Hb Hs Hb' ->. destruct (Begin_table _ _ _ _ _ _ _ _ _ Hb) as [_ Hst].
  destruct (Hst _ eq_refl) as (kd & rd & Hk & _ & _ & Hl).
  destruct (idem_calls_row _ _ _ _ _ Hs Hl eq_refl) as (r & Hl2 & _).
  destruct (Begin_table _ _ _ _ _ _ _ _ _ Hb') as [_ Hst'].
  destruct (Hst' _ eq_refl) as (kd' & rd' & Hk' & _ & Hn & _). congruence.
Qed.

(** [request_completed_once]: a request is completed at most once: after a
    [Complete] succeeded, no [Complete] for the same scope and key succeeds,
    until the record expires and is pruned. *)
Theorem request_completed_once e n record status body s d s1 s2 e' n' record' status' body' s3 d' :
  Complete e n record status body s = (Ok d, s1) -> idem_calls (ir_expiresAt d) s1 s2 ->
  handle_key record' = handle_key record ->
  Complete e' n' record' status' body' s2 <> (Ok d', s3).
Proof using PL.
  intros Hc Hs Hk Hc'. destruct (Complete_table _ _ _ _ _ _ _ _ Hc) as [_ Hok].
  destruct (Hok _ eq_refl) as (_ & (r & Hl & Hh) & _).
  pose proof (completed_row _ _ _ _ _ _ _ _ Hs Hl Hh) as Hl2.
  destruct (Complete_table _ _ _ _ _ _ _ _ Hc') as [_ Hok'].
  destruct (Hok' _ eq_refl) as ((r0 & Hl0 & Hst0) & _). rewrite Hk in Hl0. simplify_eq.
  by rewrite (h_state _ _ _ _ _ _ Hh) in Hst0.
Qed.
End Theorems.

(** ** Digests and scopes *)

Lemma word_byte_not c value :
  wordByte c = false -> in_range "a" "z" c = false ->
  validOperation value = true \/ validCredentialDomain value = true -> c ∉ value.
Proof.
  intros Hw Ha Hv Hin.
  assert (exists first rest, value = first :: rest /\ in_range "a" "z" first = true /\
    forallb wordByte rest = true) as (first & rest & -> & Hf & Hr).
  { unfold validOperation, validCredentialDomain in Hv.
    destruct value as [|first rest]; [by destruct Hv|]. exists first, rest.
    by destruct Hv as [Hv|Hv]; bool_props. }
  apply elem_of_cons in Hin as [->|Hin]; [congruence|].
  apply forallb_Forall in Hr. rewrite List.Forall_forall in Hr. apply list_elem_of_In in Hin.
  rewrite (Hr _ Hin) in Hw. done.
Qed.

(** [digest_material_unambiguous]: the bytes hashed for a request determine
    its operation and canonical form, the bytes hashed for a key determine the
    key, and no request is hashed like a key. *)
Theorem digest_material_unambiguous :
  (forall op op' c c', validOperation op = true -> validOperation op' = true ->
     request_material op c = request_material op' c' -> op = op' /\ c = c') /\
  (forall key key', validIdempotencyKey key = true -> validIdempotencyKey key' = true ->
     key_material key = key_material key' -> key = key') /\
  (forall op c key, request_material op c <> key_material key).
Proof.
  split_and!.
  - intros op op' c c' Hop Hop' He. unfold request_material in He. apply app_inv_head in He.
    apply framed_inj in He; [done|..]; apply word_byte_not; try done; by left.
  - intros key key' _ _ He. unfold key_material in He. apply app_inv_head in He.
    apply app_inj_1 in He; [by destruct He|]. by rewrite !be_bytes_length.
  - intros op c key He. apply (f_equal (take 21)) in He. vm_compute in He. done.
Qed.

Section Scopes.
Context `{Primitives} `{UL : UUIDTextLaws}.

Lemma AuthenticatedScope_ok id domain op scope :
  AuthenticatedScope id domain op = Ok scope ->
  id <> uuid_Nil /\ validCredentialDomain domain = true /\ validOperation op = true /\
  scope = MkScope (sbytes "principal" ++ [":"%byte] ++ uuid_String id ++ [":"%byte] ++ domain) op.
Proof.
  unfold AuthenticatedScope. intros Ha. case_top Ha; [done|]. bool_props. by simplify_eq.
Qed.

(** [authenticated_scopes_valid]: every scope [AuthenticatedScope] builds is
    accepted by [validScope], is none of the anonymous scopes, and identifies its
    principal, credential domain and operation. *)
Theorem authenticated_scopes_valid id domain op scope :
  len id = 16 -> AuthenticatedScope id domain op = Ok scope ->
  validScope scope = true /\
  scope ∉ [AnonymousRegistrationScope; AnonymousEmailVerificationDeliveryScope;
           AnonymousPasswordResetDeliveryScope; AnonymousDeviceRegistrationScope;
           AnonymousPasskeyAuthenticationScope] /\
  forall id' domain' op', len id' = 16 -> AuthenticatedScope id' domain' op' = Ok scope ->
    id' = id /\ domain' = domain /\ op' = op.
Proof using UL.
  intros Hid (Hn & Hd & Ho & ->)%AuthenticatedScope_ok.
  assert (":"%byte ∉ domain) as Hcd by (apply word_byte_not; try done; by right).
  pose proof (uuid_String_colon id Hid) as Hci.
  split_and!.
  - unfold validScope. cbn [sc_Principal sc_Operation]. rewrite Ho.
    set (p := sbytes "principal" ++ _).
    assert (len p <= 79 /\ len p <> 0) as [Hl Hl0].
    { subst p. rewrite !len_app, uuid_String_length by done.
      assert (len domain <= 32) by (unfold validCredentialDomain in Hd; destruct domain; [done|]; by bool_props).
      pose proof (len_nonneg domain). change (len (sbytes "principal")) with 9. change (len [":"%byte]) with 1.
      lia. }
    rewrite (proj2 (Z.eqb_neq _ _) Hl0), (proj2 (Z.ltb_ge 128 (len p))) by lia. cbn [negb orb].
    rewrite !(bool_decide_eq_false_2 (p = _)) by (subst p; intros Hp; discriminate Hp).
    subst p. rewrite Split_app by (vm_compute; set_solver). rewrite Split_app, Split_none by done.
    rewrite bool_decide_eq_true_2 by done. rewrite Hd. cbn [negb orb].
    rewrite uuid_Parse_String by done.
    rewrite (bool_decide_eq_false_2 (id = uuid_Nil)), bool_decide_eq_true_2 by done. done.
  - rewrite !elem_of_cons, elem_of_nil. intros Hin.
    repeat destruct Hin as [Hin|Hin]; try done; apply (f_equal sc_Principal) in Hin; discriminate Hin.
  - intros id' domain' op' Hid' (_ & Hd' & _ & Heq)%AuthenticatedScope_ok.
    injection Heq as Heq <-. 
    assert (uuid_String id = uuid_String id' /\ domain = domain') as [Hs ->].
    { apply (framed_inj ":"%byte); [done|by apply uuid_String_colon|]. exact Heq. }
    split_and!; [|done|done]. apply (f_equal uuid_Parse) in Hs.
    rewrite !uuid_Parse_String in Hs by done. congruence.
Qed.
End Scopes.

(** ** Witnesses *)
From S2P Require Import Samples.

(** A protector that stores the plaintext after 28 bytes, a column that keeps
    microseconds, and a parser of the sample text form. *)
Definition sample_protector : Protector := {|
  entropy := unit;
  protector_LookupDigest _ _ := zero_digest;
  protector_Encrypt _ _ p :=
    match p with [] => Err SensitiveInvalidArgument | _ => Ok (MkEncryptedField 1 (repeat x00 28 ++ p)) end;
  protector_Decrypt _ f := Ok (drop 28 (ef_Ciphertext f)) |}.
#[local] Existing Instance sample_protector.

Lemma sample_protector_laws : @ProtectorLaws sample_protector.
Proof.
  split; intros n d [|b p] f He; cbn in He; try done; injection He as <-.
  - cbn. done.
  - cbn. lia.
  - unfold len. cbn. lia.
Qed.
#[local] Existing Instance sample_protector_laws.

#[local] Instance sample_column : TimestampColumn := {| column_time t := Truncate t Microsecond |}.

(** The hexadecimal text of an identifier, padded to 36 characters. *)
Definition hex_digit (c : byte) : Z := match digit_val c with Some v => v | None => 0 end.
Fixpoint hex_decode (l : bytes) : bytes :=
  match l with
  | a :: b :: l => byte_of_Z (16 * hex_digit a + hex_digit b) :: hex_decode l
  | _ => []
  end.
#[local] Instance sample_uuid_text : UUIDText := {|
  uuid_Parse t := let u := hex_decode (take 32 t) in if len u =? 16 then Some u else None |}.

Definition sample_scope : Scope := AnonymousRegistrationScope.
Definition sample_text_key : bytes := repeat "k"%byte 22.
Definition sample_canonical : bytes := sbytes "{}".
Definition sample_at (n : Z) : time := Date 2024 1 1 0 0 n 0.
Definition sample_empty : istate := MkIState ∅ [].

Definition sample_begin := Begin calm sample_scope sample_text_key sample_canonical (sample_at 1) (sample_at 9) sample_empty.
Definition sample_handle : IdempotencyRecord :=
  match sample_begin.1 with
  | Ok (h, _) => h
  | Err _ => started_record sample_scope [] [] (sample_at 0) (sample_at 0)
  end.
Abbreviation sample_complete :=
  (Complete calm (tt : @entropy sample_protector) sample_handle 201 [x2a] sample_begin.2).

Lemma sample_begin_eq : sample_begin = (Ok (sample_handle, Started), sample_begin.2).
Proof.
  assert (match sample_begin.1 with Ok (_, Started) => true | _ => false end = true) as Hb
    by (vm_compute; reflexivity).
  unfold sample_handle. destruct sample_begin as [[[h []]|e] s]; cbn in *; done.
Qed.

Lemma sample_complete_ok :
  exists d, sample_complete = (Ok d, sample_complete.2) /\ After (ir_expiresAt d) (sample_at 3) = true.
Proof.
  assert (match sample_complete.1 with Ok d => After (ir_expiresAt d) (sample_at 3) | _ => false end = true)
    as Hc by (vm_compute; reflexivity).
  destruct sample_complete as [[d|e] s]; cbn in *; [|done]. eauto.
Qed.

Lemma completed_response_replayed_witness :
  exists h s3,
    Begin calm sample_scope sample_text_key sample_canonical (sample_at 3) (sample_at 9) sample_complete.2 =
      (Ok (h, Replay), s3) /\ ir_responseStatus h = 201 /\ (TakeResponseBody h s3).1 = Some [x2a].
Proof.
  destruct sample_complete_ok as (d & Hd & Hx).
  destruct (completed_response_replayed calm (tt : @entropy sample_protector) sample_handle 201 [x2a] sample_begin.2 d
              sample_complete.2 sample_complete.2 sample_text_key sample_canonical (sample_at 3) (sample_at 9)
              Hd (idem_calls_refl _ _)) as [Hr _].
  - vm_compute. reflexivity.
  - vm_compute. reflexivity.
  - vm_compute. reflexivity.
  - exact Hx.
  - destruct Hr as (h & s3 & Hb & _ & Hs & Ht & _); [vm_compute; reflexivity|].
    assert (MkScope (ir_principalScope sample_handle) (ir_operation sample_handle) = sample_scope) as Hscope
      by (vm_compute; reflexivity).
    rewrite Hscope in Hb. exists h, s3. split; [exact Hb|]. split; [exact Hs|exact Ht].
Defined.

Lemma request_started_once_witness :
  match (Begin calm sample_scope sample_text_key sample_canonical (sample_at 2) (sample_at 9) sample_begin.2).1 with
  | Ok (_, o) => o <> Started
  | Err _ => True
  end.
Proof.
  destruct (Begin calm sample_scope sample_text_key sample_canonical (sample_at 2) (sample_at 9) sample_begin.2)
    as [[[h o]|e] s3] eqn:Hb; [|exact I].
  exact (request_started_once calm sample_scope sample_text_key sample_canonical (sample_at 1) (sample_at 9)
           sample_empty sample_handle sample_begin.2 sample_begin.2 calm sample_canonical (sample_at 2)
           (sample_at 9) h o s3 sample_begin_eq (idem_calls_refl _ _) Hb).
Defined.

Lemma request_completed_once_witness :
  match (Complete calm (tt : @entropy sample_protector) sample_handle 200 [] sample_complete.2).1 with Ok _ => False | Err _ => True end.
Proof.
  destruct (Complete calm (tt : @entropy sample_protector) sample_handle 200 [] sample_complete.2) as [[d'|e] s3] eqn:Hc; [|exact I].
  destruct sample_complete_ok as (d & Hd & _).
  exact (request_completed_once calm (tt : @entropy sample_protector) sample_handle 201 [x2a] sample_begin.2 d sample_complete.2
           sample_complete.2 calm (tt : @entropy sample_protector) sample_handle 200 [] s3 d' Hd (idem_calls_refl _ _) eq_refl Hc).
Defined.

Definition sample_text_lib : Primitives :=
  Build_Primitives sample_sum (fun _ => true) (fun u => hex_encode u ++ repeat "-"%byte 4) (fun b => Some b).

Lemma hex_decode_encode u : hex_decode (hex_encode u) = u.
Proof.
  induction u as [|b u IH]; [done|]. unfold hex_encode in *. cbn [flat_map].
  assert (forall l, hex_decode (hex_byte b ++ l) = b :: hex_decode l) as Hb by (intros l; by destruct b).
  by rewrite Hb, IH.
Qed.

Lemma hex_encode_text u :
  length (hex_encode u) = (2 * length u)%nat /\ Forall (fun c => uuid_byte c = true) (hex_encode u).
Proof.
  induction u as [|b u [IHl IHn]]; [by split|]. unfold hex_encode in *. cbn [flat_map].
  rewrite length_app, IHl. split; [by destruct b; cbn; lia|].
  apply Forall_app. split; [|done]. destruct b; repeat constructor; done.
Qed.

Lemma sample_text_laws : @UUIDTextLaws sample_text_lib sample_uuid_text.
Proof.
  split; [intros v u Hu; cbn in Hu; case_match; [|done]; injection Hu as <-; by apply Z.eqb_eq|..].
  all: intros u Hu; assert (length u = 16%nat) as Hl by (unfold len in Hu; lia);
    destruct (hex_encode_text u) as [Hh Hn]; cbn [uuid_Parse uuid_String sample_text_lib sample_uuid_text].
  - rewrite take_app_le, take_ge by lia. by rewrite hex_decode_encode, Hu.
  - unfold len. rewrite length_app, Hh, Hl. done.
  - apply Forall_app. split; [done|]. repeat constructor; done.
Qed.

Lemma authenticated_scopes_valid_witness :
  exists scope,
    @AuthenticatedScope sample_text_lib (repeat x01 16) (sbytes "password") (sbytes "register_device") = Ok scope /\
    @validScope sample_text_lib sample_uuid_text scope = true.
Proof.
  eexists. split; [reflexivity|].
  destruct (@authenticated_scopes_valid sample_text_lib sample_uuid_text sample_text_laws
              (repeat x01 16) (sbytes "password")
              (sbytes "register_device") _ eq_refl eq_refl) as [Hv _].
  exact Hv.
Defined.
