(* ===== verification/RateLimit.v ===== *)
(** Rate limiting: [internal/ratelimit/limiter.go] and the Redis adapter of
    [internal/ratelimit/redis.go].  What the Redis server answers is a parameter
    of the model. *)
From Stdlib Require Import ZArith Lia Strings.Byte Sorting.Sorted.
From stdpp Require Import base list strings numbers option.
From S2P Require Import Prelude GoStd GoTime AuthorityTypes Ledger Sensitive.

#[local] Open Scope go_scope.

(** ** Data *)

Abbreviation Operation := bytes (only parsing).
Definition Login : Operation := sbytes "login".
Definition Delivery : Operation := sbytes "delivery".
Definition Challenge : Operation := sbytes "challenge".

Definition validOperation (operation : Operation) : bool :=
  bool_decide (operation ∈ [Login; Delivery; Challenge]).

Inductive limit_err := LimitInvalidInput | LimitBackendUnavailable | LimitCanceled.

(** [config.RateLimitPolicy] *)
Record RateLimitPolicy := MkRateLimitPolicy { rl_Limit : Z; rl_Window : Z }.

(** ** Window-scoped subjects *)

Definition subjectDigestPrefix : bytes := sbytes "TALENRO-RATE-LIMIT-V1" ++ [x00].

(** Integer division of [int64] truncates towards zero. *)
Definition floorWindowStart (unixNanos windowNanos : Z) : option Z :=
  if windowNanos <=? 0 then None
  else
    let quotient := Z.quot unixNanos windowNanos in
    let quotient := if Z.rem unixNanos windowNanos <? 0 then i64 (quotient - 1) else quotient in
    if (quotient <? Z.quot MinInt64 windowNanos) || (Z.quot MaxInt64 windowNanos <? quotient)
    then None
    else Some (i64 (quotient * windowNanos)).

(** [t.UnixNano()] wraps outside the years 1678 to 2262. *)
Definition UnixNano (t : time) : Z := i64 (t_nanos t - unix_epoch_nanos).

(** [time.Unix(0, nanos)] *)
Definition Unix0 (nanos : Z) : time := Time (unix_epoch_nanos + nanos) false.

Definition subject_material (operation : Operation) (windowStart : Z) (subject : bytes) : bytes :=
  subjectDigestPrefix ++ operation ++ be_bytes 8 (u64 windowStart) ++ subject.

Section Digest.
Context `{Primitives}.

Definition SubjectDigest (key : bytes) (operation : Operation) (at_ : time) (policy : RateLimitPolicy)
  (canonicalSubject : bytes) : result limit_err Digest :=
  if negb (len key =? 32) || negb (validOperation operation) || (rl_Limit policy =? 0) ||
     (rl_Window policy <=? 0) || (len canonicalSubject =? 0)
  then Err LimitInvalidInput
  else
    let utc := UTC at_ in
    let unixNanos := UnixNano utc in
    if negb (time_Equal (Unix0 unixNanos) utc) then Err LimitInvalidInput
    else match floorWindowStart unixNanos (rl_Window policy) with
         | None => Err LimitInvalidInput
         | Some windowStart =>
             Ok (hmac Sum256 key (subject_material operation windowStart canonicalSubject))
         end.
End Digest.

(** ** The Redis adapter *)

Definition minimumRedisTimeout : Z := 100 * Millisecond.
Definition maximumRedisTimeout : Z := Second.
Definition redisKeyPrefix : bytes := sbytes "talenro:ratelimit:".

(** What the script's result can be in Go: [[]any] with [int64] or other
    elements, or something else. *)
Inductive any_value := AnyInt (z : Z) | AnyList (l : list any_value) | AnyOther.

Definition newRedisWithExecutor (timeout : Z) : result limit_err Z :=
  if (timeout <? minimumRedisTimeout) || (maximumRedisTimeout <? timeout)
  then Err LimitInvalidInput else Ok timeout.

Definition validRedisPolicy (operation : Operation) (policy : RateLimitPolicy) : bool :=
  if operation == Login then
    (1 <=? rl_Limit policy) && (rl_Limit policy <=? 100) && (Minute <=? rl_Window policy) &&
    (rl_Window policy <=? 24 * Hour)
  else if operation == Delivery then
    (1 <=? rl_Limit policy) && (rl_Limit policy <=? 20) && (10 * Minute <=? rl_Window policy) &&
    (rl_Window policy <=? 24 * Hour)
  else if operation == Challenge then
    (5 <=? rl_Limit policy) && (rl_Limit policy <=? 100) && (Minute <=? rl_Window policy) &&
    (rl_Window policy <=? 30 * Minute)
  else false.

(** The key and the argument the script is called with. *)
Definition redis_key (digest : Digest) : bytes := redisKeyPrefix ++ hex_encode digest.
Definition window_units (policy : RateLimitPolicy) : Z := Z.quot (rl_Window policy) Millisecond.

(** What the script's result means. *)
Definition decide_result (result_ : any_value) (windowUnits limit : Z) : result limit_err bool :=
  match result_ with
  | AnyList [AnyInt count; AnyInt ttl] =>
      if (count <? 1) || (ttl <? 1) || (windowUnits <? ttl) then Err LimitBackendUnavailable
      else Ok (count <=? limit)
  | _ => Err LimitBackendUnavailable
  end.

(** [Allow]: the context polls in order, and what the executor returns for the
    script, its key and its argument. *)
Definition Allow (poll : nat -> ctx_poll) (run : bytes -> Z -> option any_value)
  (operation : Operation) (digest : Digest) (policy : RateLimitPolicy) : result limit_err bool :=
  if (poll 0%nat == CtxNil) || negb (validRedisPolicy operation policy) || (digest == zero_digest)
  then Err LimitInvalidInput
  else if poll 1%nat == CtxDone then Err LimitCanceled
  else
    let windowUnits := window_units policy in
    if (windowUnits <=? 0) || negb (i64 (windowUnits * Millisecond) =? rl_Window policy)
    then Err LimitInvalidInput
    else match run (redis_key digest) windowUnits with
         | None => Err (if poll 2%nat == CtxDone then LimitCanceled else LimitBackendUnavailable)
         | Some result_ =>
             if poll 3%nat == CtxDone then Err LimitCanceled
             else decide_result result_ windowUnits (rl_Limit policy)
         end.

(** ** Lemmas *)

Lemma quot_floor a b :
  0 < b -> (if Z.rem a b <? 0 then Z.quot a b - 1 else Z.quot a b) = a / b.
Proof.
  intros Hb. pose proof (Z.quot_rem' a b) as He. pose proof (Z.div_mod a b ltac:(lia)) as Hd.
  pose proof (Z.mod_pos_bound a b Hb) as Hm.
  assert (- b < Z.rem a b < b) as Hr.
  { pose proof (Z.rem_bound_abs a b ltac:(lia)). lia. }
  destruct (_ <? 0) eqn:E; bool_props; nia.
Qed.

Lemma above_quot q m b : 0 < b -> 0 <= m -> (m / b < q <-> m < q * b).
Proof.
  intros Hb Hm. pose proof (Z.div_mod m b ltac:(lia)). pose proof (Z.mod_pos_bound m b Hb). nia.
Qed.

(** The window start as the code computes it. *)
Definition window_start (unixNanos windowNanos : Z) : Z := unixNanos / windowNanos * windowNanos.

Lemma window_start_bounds u w : 0 < w -> window_start u w <= u < window_start u w + w.
Proof.
  intros Hw. unfold window_start. pose proof (Z.div_mod u w ltac:(lia)). pose proof (Z.mod_pos_bound u w Hw). lia.
Qed.

(** The finite names are not prefixes of one another. *)
Lemma operation_frame op op' r t :
  validOperation op = true -> validOperation op' = true -> op ++ r = op' ++ t -> op = op' /\ r = t.
Proof.
  unfold validOperation. intros Hop Hop' He. apply bool_decide_eq_true in Hop, Hop'.
  rewrite !elem_of_cons, elem_of_nil in Hop, Hop'.
  destruct Hop as [->|[->|[->|[]]]], Hop' as [->|[->|[->|[]]]]; try (by apply app_inv_head in He);
    discriminate He.
Qed.

Lemma SubjectDigest_ok `{Primitives} key op at_ policy subject d :
  SubjectDigest key op at_ policy subject = Ok d ->
  exists start, floorWindowStart (UnixNano (UTC at_)) (rl_Window policy) = Some start /\
    validOperation op = true /\ d = hmac Sum256 key (subject_material op start subject).
Proof.
  unfold SubjectDigest. intros Hd. case_top Hd; [done|]. cbv zeta in Hd. case_top Hd; [done|].
  case_top Hd; [|done]. bool_props. simplify_eq. eauto.
Qed.

(** ** Theorems *)

(** C35 (window_start_floor): for all 64-bit times and positive windows,
    [floorWindowStart] is the start of the window that contains the time, or
    nothing exactly when that start is below the smallest 64-bit integer; no
    intermediate result overflows. *)
Theorem window_start_floor unixNanos windowNanos :
  is_i64 unixNanos -> 0 < windowNanos < 2 ^ 63 ->
  floorWindowStart unixNanos windowNanos =
    (if window_start unixNanos windowNanos <? MinInt64 then None
     else Some (window_start unixNanos windowNanos)) /\
  window_start unixNanos windowNanos <= unixNanos < window_start unixNanos windowNanos + windowNanos.
Proof.
  intros Hu Hw. pose proof (window_start_bounds unixNanos windowNanos ltac:(lia)) as Hb.
  split; [|done]. unfold floorWindowStart. rewrite (proj2 (Z.leb_gt windowNanos 0)) by lia. cbv zeta.
  assert ((if Z.rem unixNanos windowNanos <? 0 then i64 (Z.quot unixNanos windowNanos - 1)
           else Z.quot unixNanos windowNanos) = unixNanos / windowNanos) as ->.
  { rewrite <- quot_floor by lia. destruct (_ <? 0) eqn:E; [|done]. bool_props.
    apply i64_id. pose proof (quot_floor unixNanos windowNanos ltac:(lia)) as Hq.
    rewrite (proj2 (Z.ltb_lt _ 0)) in Hq by done. rewrite Hq. unfold is_i64 in *.
    assert (windowNanos <> 1) by (intros ->; rewrite Z.rem_1_r in *; lia).
    split; [|apply Z.div_lt_upper_bound; nia]. apply Z.div_le_lower_bound; nia. }
  unfold window_start in *. set (q := unixNanos / windowNanos) in *.
  unfold MinInt64, MaxInt64, is_i64 in *. rewrite Z.quot_opp_l by lia. rewrite !Z.quot_div_nonneg by lia.
  pose proof (above_quot (- q) (2 ^ 63) windowNanos ltac:(lia) ltac:(lia)) as Hlow.
  pose proof (above_quot q (2 ^ 63 - 1) windowNanos ltac:(lia) ltac:(lia)) as Hhigh.
  rewrite (proj2 (Z.ltb_ge ((2 ^ 63 - 1) / windowNanos) q)) by lia. rewrite orb_false_r.
  destruct (q <? - (2 ^ 63 / windowNanos)) eqn:E1, (q * windowNanos <? - 2 ^ 63) eqn:E2; bool_props;
    try done; try lia.
  rewrite i64_id by (unfold is_i64; lia). done.
Qed.

(** [subject_material_unambiguous]: two rate-limit identities hash the same
    bytes only if they have the same operation, the same window and the same
    subject. *)
Theorem subject_material_unambiguous op op' start start' subject subject' :
  validOperation op = true -> validOperation op' = true -> is_i64 start -> is_i64 start' ->
  subject_material op start subject = subject_material op' start' subject' ->
  op = op' /\ start = start' /\ subject = subject'.
Proof.
  intros Hop Hop' Hs Hs' He. unfold subject_material in He. apply app_inv_head in He.
  apply operation_frame in He as [-> He]; [|done|done].
  apply app_inj_1 in He as [Hw ->]; [|by rewrite !be_bytes_length]. split; [done|]. split; [|done].
  apply (f_equal be_value) in Hw. rewrite !be_value_be_bytes in Hw.
  change (256 ^ Z.of_nat 8) with (2 ^ 64) in Hw. unfold u64 in Hw. rewrite !Z.mod_mod in Hw by lia.
  unfold is_i64 in *. destruct (Z.le_gt_cases 0 start), (Z.le_gt_cases 0 start').
  - by rewrite !Z.mod_small in Hw by lia.
  - rewrite Z.mod_small in Hw by lia. rewrite <- (Z.mod_add start' 1), Z.mod_small in Hw by lia. lia.
  - rewrite (Z.mod_small start') in Hw by lia. rewrite <- (Z.mod_add start 1), Z.mod_small in Hw by lia. lia.
  - rewrite <- (Z.mod_add start 1), <- (Z.mod_add start' 1), !Z.mod_small in Hw by lia. lia.
Qed.

(** [Allow] answers only on a well-formed reply within the window. *)
Lemma Allow_ok poll run op digest policy b :
  Allow poll run op digest policy = Ok b ->
  validRedisPolicy op policy = true /\ digest <> zero_digest /\
  exists count ttl, run (redis_key digest) (window_units policy) = Some (AnyList [AnyInt count; AnyInt ttl]) /\
    1 <= count /\ 1 <= ttl <= window_units policy /\ b = (count <=? rl_Limit policy).
Proof.
  unfold Allow. intros Ha. case_top Ha; [done|]. case_top Ha; [done|]. cbv zeta in Ha.
  case_top Ha; [done|]. destruct (run _ _) as [v|]; [|done]. case_top Ha; [done|]. bool_props.
  split; [done|]. split; [done|]. unfold decide_result in Ha.
  destruct v as [|[|[count| |] [|[ttl| |] []]]|]; try done. case_top Ha; [done|]. bool_props. simplify_eq.
  eexists _, _. split; [done|]. done.
Qed.

Definition allowed (r : result limit_err bool) : bool := match r with Ok b => b | Err _ => false end.

(** [allow_fails_closed]: a subject is allowed only if the policy is one the
    operation admits, the digest is not zero, and the backend answered a pair of
    integers whose first is between one and the limit and whose second is a
    remaining lifetime within the window; every other answer, and every failure
    and cancellation, denies. *)
Theorem allow_fails_closed poll run op digest policy :
  allowed (Allow poll run op digest policy) = true ->
  validRedisPolicy op policy = true /\ digest <> zero_digest /\
  exists count ttl, run (redis_key digest) (window_units policy) = Some (AnyList [AnyInt count; AnyInt ttl]) /\
    1 <= count <= rl_Limit policy /\ 1 <= ttl <= window_units policy.
Proof.
  intros Ha. destruct (Allow poll run op digest policy) as [b|] eqn:E; [|done]. cbn in Ha. subst b.
  apply Allow_ok in E as (Hp & Hd & count & ttl & Hr & Hc & Ht & Hb). symmetry in Hb. bool_props.
  split; [done|]. split; [done|]. exists count, ttl. done.
Qed.

(** The counter of one key: the replies of a live key increase from one call to
    the next. *)
Definition counts_increase (run : nat -> bytes -> Z -> option any_value) (key : bytes) (units : Z) : Prop :=
  forall i j c c' t t', (i < j)%nat -> run i key units = Some (AnyList [AnyInt c; AnyInt t]) ->
  run j key units = Some (AnyList [AnyInt c'; AnyInt t']) -> c < c'.

(** [allow_at_most_limit]: of any number of calls for one subject and window,
    whose counter increases with every call, at most the policy's limit are
    allowed. *)
Theorem allow_at_most_limit poll run op digest policy n :
  counts_increase run (redis_key digest) (window_units policy) -> 0 <= rl_Limit policy ->
  len (List.filter (fun i => allowed (Allow (poll i) (run i) op digest policy)) (seq 0 n)) <=
  rl_Limit policy.
Proof.
  intros Hinc Hlim. set (ok := fun i => allowed (Allow (poll i) (run i) op digest policy)).
  set (count := fun i => match run i (redis_key digest) (window_units policy) with
                         | Some (AnyList [AnyInt c; AnyInt _]) => c | _ => 0 end).
  assert (forall i, ok i = true -> 1 <= count i <= rl_Limit policy /\
    exists t, run i (redis_key digest) (window_units policy) = Some (AnyList [AnyInt (count i); AnyInt t])) as Hok.
  { intros i Hi. destruct (Allow (poll i) (run i) op digest policy) as [b|] eqn:E; subst ok; cbn in Hi;
      rewrite E in Hi; [|done]. cbn in Hi. subst b.
    apply Allow_ok in E as (_ & _ & c & t & Hr & Hc & _ & Hb). symmetry in Hb. bool_props.
    assert (count i = c) as -> by (unfold count; by rewrite Hr). split; [lia|eauto]. }
  assert (NoDup (count <$> List.filter ok (seq 0 n))) as Hnd.
  { apply NoDup_fmap_2_strong; [|apply NoDup_ListNoDup, List.NoDup_filter, List.seq_NoDup].
    intros i j Hi Hj He. rewrite list_elem_of_In, filter_In in Hi, Hj.
    destruct (Hok i) as [_ [t Hi']]; [apply Hi|]. destruct (Hok j) as [_ [t' Hj']]; [apply Hj|].
    destruct (Nat.lt_trichotomy i j) as [Hlt|[->|Hlt]]; [|done|].
    - pose proof (Hinc _ _ _ _ _ _ Hlt Hi' Hj'). lia.
    - pose proof (Hinc _ _ _ _ _ _ Hlt Hj' Hi'). lia. }
  assert (length (List.filter ok (seq 0 n)) <= length (seqZ 1 (rl_Limit policy)))%nat as Hl.
  { rewrite <- (length_fmap count). apply NoDup_incl_length; [by apply NoDup_ListNoDup|].
    intros c Hc. apply list_elem_of_In in Hc. apply list_elem_of_fmap in Hc as (i & -> & Hi).
    rewrite list_elem_of_In, filter_In in Hi. apply list_elem_of_In, elem_of_seqZ.
    destruct (Hok i) as [Hr _]; [apply Hi|]. lia. }
  rewrite length_seqZ in Hl. unfold len. lia.
Qed.

(** ** Witnesses *)

Lemma window_start_floor_witness : floorWindowStart (-5) 10 = Some (-10).
Proof.
  destruct (window_start_floor (-5) 10) as [Hf _]; [unfold is_i64; lia|lia|]. exact Hf.
Defined.

Lemma subject_material_unambiguous_witness : Login = Login /\ 0 = 0 /\ sbytes "a" = sbytes "a".
Proof.
  apply (subject_material_unambiguous Login Login 0 0 (sbytes "a") (sbytes "a")); try reflexivity;
    unfold is_i64; lia.
Defined.

Definition sample_policy : RateLimitPolicy := MkRateLimitPolicy 2 Minute.
Definition sample_run (i : nat) (key : bytes) (units : Z) : option any_value :=
  Some (AnyList [AnyInt (Z.of_nat i + 1); AnyInt 50]).
Definition sample_subject : Digest := repeat x01 32.

Lemma allow_fails_closed_witness :
  sample_subject <> zero_digest /\
  allowed (Allow (fun _ => CtxLive) (sample_run 1) Login sample_subject sample_policy) = true.
Proof.
  assert (allowed (Allow (fun _ => CtxLive) (sample_run 1) Login sample_subject sample_policy) = true) as Ha
    by (vm_compute; reflexivity).
  destruct (allow_fails_closed (fun _ => CtxLive) (sample_run 1) Login sample_subject sample_policy Ha)
    as (_ & Hd & _).
  split; [exact Hd|exact Ha].
Defined.

Lemma allow_at_most_limit_witness :
  len (List.filter (fun i => allowed (Allow (fun _ => CtxLive) (sample_run i) Login sample_subject
         sample_policy)) (seq 0 5)) <= 2.
Proof.
  apply (allow_at_most_limit (fun _ _ => CtxLive) sample_run Login sample_subject sample_policy 5).
  - intros i j c c' t t' Hlt Hi Hj. injection Hi as <- _. injection Hj as <- _. lia.
  - cbn. lia.
Defined.

(** Exactly the first two of five calls are allowed. *)
Example sample_allowed :
  map (fun i => Allow (fun _ => CtxLive) (sample_run i) Login sample_subject sample_policy) (seq 0 3) =
  [Ok true; Ok true; Ok false].
Proof. vm_compute. reflexivity. Qed.
