(* ===== verification/Tokens.v ===== *)
(** Opaque tokens: [internal/securitykit/token.go], with the unpadded base64url
    encoding of [encoding/base64] and [io.ReadFull]. *)
From Stdlib Require Import ZArith Zbitwise Lia Strings.Byte.
From stdpp Require Import base list strings numbers option.
From S2P Require Import Prelude GoStd AuthorityTypes Text.

#[local] Open Scope go_scope.

(** ** base64.RawURLEncoding *)

Definition b64_char (v : Z) : byte :=
  if v <? 26 then byte_of_Z (65 + v)
  else if v <? 52 then byte_of_Z (97 + (v - 26))
  else if v <? 62 then byte_of_Z (48 + (v - 52))
  else if v =? 62 then "-"%byte else "_"%byte.

Definition b64_val (c : byte) : option Z :=
  let z := byte_to_Z c in
  if in_range "A" "Z" c then Some (z - 65)
  else if in_range "a" "z" c then Some (z - 97 + 26)
  else if in_range "0" "9" c then Some (z - 48 + 52)
  else if bool_decide (c = "-"%byte) then Some 62
  else if bool_decide (c = "_"%byte) then Some 63
  else None.

(** The sextets of three, two or one bytes. *)
Fixpoint sextets (l : bytes) : list Z :=
  match l with
  | a :: b :: c :: l =>
      let a := byte_to_Z a in let b := byte_to_Z b in let c := byte_to_Z c in
      [Z.shiftr a 2; Z.lor (Z.shiftl (Z.land a 3) 4) (Z.shiftr b 4);
       Z.lor (Z.shiftl (Z.land b 15) 2) (Z.shiftr c 6); Z.land c 63] ++ sextets l
  | [a; b] =>
      let a := byte_to_Z a in let b := byte_to_Z b in
      [Z.shiftr a 2; Z.lor (Z.shiftl (Z.land a 3) 4) (Z.shiftr b 4); Z.shiftl (Z.land b 15) 2]
  | [a] => let a := byte_to_Z a in [Z.shiftr a 2; Z.shiftl (Z.land a 3) 4]
  | [] => []
  end.

Definition b64_EncodeToString (l : bytes) : bytes := map b64_char (sextets l).

(** The bytes of four, three or two sextets; in strict mode the bits left over
    must be zero. *)
Fixpoint unsextets (l : list Z) : option bytes :=
  match l with
  | a :: b :: c :: d :: l =>
      match unsextets l with
      | Some rest =>
          Some (byte_of_Z (Z.lor (Z.shiftl a 2) (Z.shiftr b 4)) ::
                byte_of_Z (Z.lor (Z.land (Z.shiftl b 4) 255) (Z.shiftr c 2)) ::
                byte_of_Z (Z.lor (Z.land (Z.shiftl c 6) 255) d) :: rest)
      | None => None
      end
  | [a; b; c] =>
      if negb (Z.land c 3 =? 0) then None
      else Some [byte_of_Z (Z.lor (Z.shiftl a 2) (Z.shiftr b 4));
                 byte_of_Z (Z.lor (Z.land (Z.shiftl b 4) 255) (Z.shiftr c 2))]
  | [a; b] =>
      if negb (Z.land b 15 =? 0) then None else Some [byte_of_Z (Z.lor (Z.shiftl a 2) (Z.shiftr b 4))]
  | [_] => None
  | [] => Some []
  end.

(** [RawURLEncoding.Strict().DecodeString], which skips line ends. *)
Definition b64_DecodeString (s : bytes) : option bytes :=
  match mapM b64_val (List.filter (fun c => negb (bool_decide (c ∈ [x0a; x0d]))) s) with
  | Some values => unsextets values
  | None => None
  end.

(** ** Tokens *)

Definition opaqueTokenBytes : Z := 32.
Definition opaqueTokenCharacters : Z := 43.
Definition maximumEmptyReads : Z := 8.
Definition tokenDigestPrefix : bytes := sbytes "TALENRO-TOKEN-DIGEST-V1" ++ [x00].

Inductive token_err := TokenInvalidArgument | TokenRandomSource | TokenInvalid.

Definition AccountAccessToken : bytes := sbytes "talenro/account-access/v1".
Definition AccountRefreshToken : bytes := sbytes "talenro/account-refresh/v1".
Definition DeviceAccessToken : bytes := sbytes "talenro/device-access/v1".
Definition DeviceRefreshToken : bytes := sbytes "talenro/device-refresh/v1".
Definition EnrollmentGrantToken : bytes := sbytes "talenro/enrollment-grant/v1".
Definition EmailVerificationToken : bytes := sbytes "talenro/email-verification/v1".
Definition RecoveryCodeToken : bytes := sbytes "talenro/recovery-code/v1".

Definition validTokenDomain (domain : bytes) : bool :=
  bool_decide (domain ∈ [AccountAccessToken; AccountRefreshToken; DeviceAccessToken; DeviceRefreshToken;
                         EnrollmentGrantToken; EmailVerificationToken; RecoveryCodeToken]).

Definition EncodeOpaqueToken (raw : bytes) : bytes :=
  if negb (len raw =? opaqueTokenBytes) then [] else b64_EncodeToString raw.

Definition DecodeOpaqueToken (value : bytes) : result token_err bytes :=
  if negb (len value =? opaqueTokenCharacters) then Err TokenInvalid
  else match b64_DecodeString value with
       | None => Err TokenInvalid
       | Some decoded =>
           if negb (len decoded =? opaqueTokenBytes) then Err TokenInvalid
           else if b64_EncodeToString decoded != value then Err TokenInvalid else Ok decoded
       end.

(** What [DigestToken] hashes. *)
Definition token_material (domain raw : bytes) : bytes := tokenDigestPrefix ++ domain ++ [x00] ++ raw.

Definition DigestToken `{Primitives} (domain raw : bytes) : Digest :=
  if negb (validTokenDomain domain) then zero_digest
  else if negb (len raw =? opaqueTokenBytes) then zero_digest
  else Sum256 (token_material domain raw).

(** ** Drawing a token *)

(** A random source: what its [i]-th read leaves in the buffer it was given, the
    count it reports, and whether it returns an error. *)
Abbreviation random_source := (nat -> bytes -> bytes * Z * bool).

(** [boundedRandomSource.Read]: content, count, error and empty reads so far. *)
Definition bounded_Read (source : random_source) (i : nat) (target : bytes) (emptyReads : Z) :
  bytes * Z * bool * Z :=
  let '(content, count, err) := source i target in
  let content := resize (length target) x00 content in
  if (count <? 0) || (len target <? count) then (content, 0, true, emptyReads)
  else if (count =? 0) && negb err then
    let emptyReads := emptyReads + 1 in (content, 0, maximumEmptyReads <=? emptyReads, emptyReads)
  else (content, count, err, 0).

(** [io.ReadFull] into a buffer of which [n] bytes are read: the number of bytes
    read, whether an error is returned, the buffer and the number of calls made;
    [None] when the fuel runs out. *)
Fixpoint ReadFull (fuel : nat) (source : random_source) (i : nat) (buffer : bytes) (n emptyReads : Z) :
  option (Z * bool * bytes * nat) :=
  match fuel with
  | O => None
  | S fuel =>
      if len buffer <=? n then Some (n, false, buffer, i)
      else
        let '(content, count, err, emptyReads) :=
          bounded_Read source i (drop (Z.to_nat n) buffer) emptyReads in
        let buffer := take (Z.to_nat n) buffer ++ content in
        let n := n + count in
        if err then Some (n, negb (len buffer <=? n), buffer, S i)
        else ReadFull fuel source (S i) buffer n emptyReads
  end.

(** Eight reads for each byte, and the test that ends the loop. *)
Definition draw_fuel : nat := 257.

Definition NewOpaqueToken (source : random_source) : result token_err bytes :=
  match ReadFull draw_fuel source 0 (repeat x00 32) 0 0 with
  | Some (count, err, buffer, _) =>
      if err || negb (count =? opaqueTokenBytes) then Err TokenRandomSource else Ok buffer
  | None => Err TokenRandomSource
  end.

(** ** Lemmas *)

Lemma b64_char_val v : 0 <= v < 64 -> b64_val (b64_char v) = Some v.
Proof.
  intros Hv. assert (forallb (fun v => b64_val (b64_char v) == Some v) (seqZ 0 64) = true) as Hall
    by (vm_compute; reflexivity).
  rewrite List.forallb_forall in Hall. specialize (Hall v). rewrite bool_decide_eq_true in Hall. apply Hall.
  apply list_elem_of_In, elem_of_seqZ. lia.
Qed.

Lemma b64_char_visible v : 0 <= v < 64 -> b64_char v ∉ [x0a; x0d].
Proof.
  intros Hv Hin. pose proof (b64_char_val v Hv) as Hd.
  apply elem_of_cons in Hin as [E|Hin]; [rewrite E in Hd; vm_compute in Hd; done|].
  apply list_elem_of_singleton in Hin. rewrite Hin in Hd. vm_compute in Hd. done.
Qed.

(** Joining bits above and below position [n] is addition. *)
Lemma lor_add x y n : 0 <= n -> x mod 2 ^ n = 0 -> 0 <= y < 2 ^ n -> Z.lor x y = x + y.
Proof.
  intros Hn Hx Hy. rewrite <- Z.add_lor_land. enough (Z.land x y = 0) as -> by lia.
  rewrite <- (Z.mod_small y (2 ^ n)) by done. rewrite <- Z.land_ones, Z.land_comm, <- Z.land_assoc by done.
  rewrite (Z.land_comm (Z.ones n)), Z.land_ones, Hx by done. apply Z.land_0_r.
Qed.

(** Sextets as numbers. *)
Lemma sextet_high a : Z.shiftr a 2 = a / 4.
Proof. by rewrite Z.shiftr_div_pow2. Qed.

Lemma sextet_middle a b k m :
  0 <= k -> 0 <= m <= 8 -> 0 <= b < 256 ->
  Z.lor (Z.shiftl (Z.land a (Z.ones k)) (8 - m)) (Z.shiftr b m) = a mod 2 ^ k * 2 ^ (8 - m) + b / 2 ^ m.
Proof.
  intros Hk Hm Hb. rewrite Z.land_ones, Z.shiftl_mul_pow2, Z.shiftr_div_pow2 by lia.
  apply lor_add with (n := 8 - m); [lia|apply Z.mod_mul; lia|].
  split; [apply Z.div_pos; lia|]. apply Z.div_lt_upper_bound; [lia|]. rewrite <- Z.pow_add_r by lia.
  replace (m + (8 - m)) with 8 by lia. lia.
Qed.

(** Every sextet is below 64, and three bytes come back from their four. *)
Ltac sextet_facts :=
  repeat match goal with |- context [byte_to_Z ?b] =>
    let z := fresh "z" in let H := fresh "H" in
    pose proof (byte_to_Z_range b) as H; set (z := byte_to_Z b) in *; clearbody z end.

Ltac euclid := Z.to_euclidean_division_equations; lia.

Lemma byte_range b : 0 <= byte_to_Z b < 256.
Proof. apply byte_to_Z_range. Qed.

Lemma sextets_block a b c : 0 <= a < 256 -> 0 <= b < 256 -> 0 <= c < 256 ->
  Z.shiftr a 2 = a / 4 /\
  Z.lor (Z.shiftl (Z.land a 3) 4) (Z.shiftr b 4) = a mod 4 * 16 + b / 16 /\
  Z.lor (Z.shiftl (Z.land b 15) 2) (Z.shiftr c 6) = b mod 16 * 4 + c / 64 /\
  Z.land c 63 = c mod 64 /\ Z.shiftl (Z.land a 3) 4 = a mod 4 * 16 /\ Z.shiftl (Z.land b 15) 2 = b mod 16 * 4.
Proof.
  intros Ha Hb Hc. change 3 with (Z.ones 2). change 15 with (Z.ones 4). change 63 with (Z.ones 6).
  split_and!.
  - apply sextet_high.
  - by apply (sextet_middle a b 2 4).
  - by apply (sextet_middle b c 4 6).
  - by rewrite Z.land_ones.
  - by rewrite Z.land_ones, Z.shiftl_mul_pow2.
  - by rewrite Z.land_ones, Z.shiftl_mul_pow2.
Qed.

(** The bytes of four sextets as numbers. *)
Lemma unsextets_block s1 s2 s3 s4 :
  0 <= s1 < 64 -> 0 <= s2 < 64 -> 0 <= s3 < 64 -> 0 <= s4 < 64 ->
  Z.lor (Z.shiftl s1 2) (Z.shiftr s2 4) = s1 * 4 + s2 / 16 /\
  Z.lor (Z.land (Z.shiftl s2 4) 255) (Z.shiftr s3 2) = s2 * 16 mod 256 + s3 / 4 /\
  Z.lor (Z.land (Z.shiftl s3 6) 255) s4 = s3 * 64 mod 256 + s4 /\
  Z.land s3 3 = s3 mod 4 /\ Z.land s2 15 = s2 mod 16.
Proof.
  intros H1 H2 H3 H4. change 255 with (Z.ones 8). change 3 with (Z.ones 2). change 15 with (Z.ones 4).
  rewrite !Z.land_ones, !Z.shiftl_mul_pow2, !Z.shiftr_div_pow2 by lia.
  change (2 ^ 2) with 4. change (2 ^ 4) with 16. change (2 ^ 6) with 64. change (2 ^ 8) with 256.
  split_and!; try done; [apply lor_add with (n := 2)|apply lor_add with (n := 4)|apply lor_add with (n := 6)]; euclid.
Qed.

Lemma byte_of_Z_back b z : z = byte_to_Z b -> byte_of_Z z = b.
Proof. intros ->. apply byte_of_to_Z. Qed.

(** Induction in blocks of three. *)
Lemma block_ind {A} (P : list A -> Prop) :
  P [] -> (forall a, P [a]) -> (forall a b, P [a; b]) -> (forall a b c l, P l -> P (a :: b :: c :: l)) ->
  forall l, P l.
Proof.
  intros H0 H1 H2 H3. fix IH 1. intros [|a [|b [|c l]]]; [done|apply H1|apply H2|apply H3, IH].
Qed.

Lemma sextets_range l : Forall (fun v => 0 <= v < 64) (sextets l).
Proof.
  induction l as [|a|a b|a b c l IH] using block_ind; cbn [sextets app]; cbv zeta; [done|..];
    [pose proof (sextets_block _ _ _ (byte_range a) (byte_range a) (byte_range a)) as Hs
    |pose proof (sextets_block _ _ _ (byte_range a) (byte_range b) (byte_range b)) as Hs
    |pose proof (sextets_block _ _ _ (byte_range a) (byte_range b) (byte_range c)) as Hs];
    destruct Hs as (Hs1 & Hs2 & Hs3 & Hs4 & Hs5 & Hs6); rewrite ?Hs1, ?Hs2, ?Hs3, ?Hs4, ?Hs5, ?Hs6;
    repeat apply Forall_cons; repeat split; try done; sextet_facts; euclid.
Qed.

Lemma unsextets_sextets l : unsextets (sextets l) = Some l.
Proof.
  induction l as [|a|a b|a b c l IH] using block_ind; cbn [sextets app]; cbv zeta; [done|..].
  - pose proof (byte_range a) as Ha.
    destruct (sextets_block _ _ _ Ha Ha Ha) as (Hs1 & _ & _ & _ & Hs5 & _). rewrite Hs1, Hs5. cbn [unsextets].
    destruct (unsextets_block (byte_to_Z a / 4) (byte_to_Z a mod 4 * 16) 0 0) as (Hu1 & _ & _ & _ & Hu5); [euclid..|].
    rewrite Hu5, Hu1. rewrite (proj2 (Z.eqb_eq (_ mod 16) 0)) by euclid. cbn [negb]. do 2 f_equal.
    apply byte_of_Z_back. euclid.
  - pose proof (byte_range a) as Ha. pose proof (byte_range b) as Hb.
    destruct (sextets_block _ _ _ Ha Hb Hb) as (Hs1 & Hs2 & _ & _ & _ & Hs6). rewrite Hs1, Hs2, Hs6. cbn [unsextets].
    destruct (unsextets_block (byte_to_Z a / 4) (byte_to_Z a mod 4 * 16 + byte_to_Z b / 16) (byte_to_Z b mod 16 * 4) 0)
      as (Hu1 & Hu2 & _ & Hu4 & _); [euclid..|].
    rewrite Hu4, Hu1, Hu2. rewrite (proj2 (Z.eqb_eq (_ mod 4) 0)) by euclid. cbn [negb].
    do 2 f_equal; [|f_equal]; apply byte_of_Z_back; euclid.
  - pose proof (byte_range a) as Ha. pose proof (byte_range b) as Hb. pose proof (byte_range c) as Hc.
    destruct (sextets_block _ _ _ Ha Hb Hc) as (Hs1 & Hs2 & Hs3 & Hs4 & _). rewrite Hs1, Hs2, Hs3, Hs4.
    cbn [unsextets]. rewrite IH.
    destruct (unsextets_block (byte_to_Z a / 4) (byte_to_Z a mod 4 * 16 + byte_to_Z b / 16)
      (byte_to_Z b mod 16 * 4 + byte_to_Z c / 64) (byte_to_Z c mod 64)) as (Hu1 & Hu2 & Hu3 & _); [euclid..|].
    rewrite Hu1, Hu2, Hu3. do 2 f_equal; [|f_equal; [|f_equal]]; apply byte_of_Z_back; euclid.
Qed.

Lemma sextets_length l : len (sextets l) = (8 * len l + 5) / 6.
Proof.
  induction l as [|a|a b|a b c l IH] using block_ind; [done..|]. cbn [sextets app]. cbv zeta.
  unfold len in *. cbn [length]. rewrite !Nat2Z.inj_succ. euclid.
Qed.

Lemma b64_roundtrip l : b64_DecodeString (b64_EncodeToString l) = Some l.
Proof.
  unfold b64_DecodeString, b64_EncodeToString. pose proof (sextets_range l) as Hr.
  assert (List.filter (fun c => negb (bool_decide (c ∈ [x0a; x0d]))) (map b64_char (sextets l)) =
          map b64_char (sextets l)) as ->.
  { induction Hr as [|v vs Hv _ IH]; [done|]. cbn [map List.filter].
    rewrite bool_decide_eq_false_2 by (by apply b64_char_visible). cbn [negb]. by rewrite IH. }
  assert (mapM b64_val (map b64_char (sextets l)) = Some (sextets l)) as ->; [|apply unsextets_sextets].
  apply mapM_Some. induction Hr as [|v vs Hv _ IH]; constructor; [by apply b64_char_val|done].
Qed.

(** ** Theorems *)

(** [token_text_canonical]: a text is accepted as a token exactly when it is
    the encoding of the token, which has 32 bytes. *)
Theorem token_text_canonical value raw :
  DecodeOpaqueToken value = Ok raw <-> len raw = 32 /\ EncodeOpaqueToken raw = value.
Proof.
  unfold DecodeOpaqueToken, EncodeOpaqueToken, opaqueTokenBytes, opaqueTokenCharacters. split.
  - intros Hd. case_top Hd; [done|]. destruct (b64_DecodeString value) as [d|]; [|done]. case_top Hd; [done|].
    case_top Hd; [done|]. bool_props. simplify_eq. split; [done|]. rewrite (proj2 (Z.eqb_eq (len raw) 32)) by done. done.
  - intros [Hl He]. rewrite (proj2 (Z.eqb_eq (len raw) 32)) in He by done. cbn [negb] in He. subst value.
    assert (len (b64_EncodeToString raw) = 43) as Hlen.
    { unfold b64_EncodeToString, len. rewrite List.length_map. fold (len (sextets raw)). by rewrite sextets_length, Hl. }
    rewrite Hlen, b64_roundtrip. rewrite (proj2 (Z.eqb_eq (len raw) 32)) by done. cbn.
    by rewrite bool_decide_eq_true_2.
Qed.

Lemma resize_length_eq (l : bytes) n : length (resize n x00 l) = n.
Proof. apply length_resize. Qed.

(** What is left to read, in calls. *)
Definition draw_measure (n emptyReads : Z) : Z := 8 * (32 - n) - emptyReads.

Lemma bounded_Read_cases source i target e content count err e' :
  bounded_Read source i target e = (content, count, err, e') -> 0 <= e < 8 ->
  length content = length target /\ 0 <= count <= len target /\
  (err = false -> 0 <= e' < 8 /\ draw_measure count e' < draw_measure 0 e).
Proof.
  unfold bounded_Read. destruct (source i target) as [[c k] er]. intros Hb He.
  assert (0 <= len target) by apply len_nonneg. unfold draw_measure.
  case_top Hb; [simplify_eq; rewrite resize_length_eq; by repeat split|]. bool_props.
  destruct ((k =? 0) && negb er) eqn:E2; simplify_eq; rewrite resize_length_eq; (split_and!; [done|lia|lia|]).
  - intros Hm. unfold maximumEmptyReads in Hm. bool_props. lia.
  - intros ->. apply andb_false_iff in E2 as [E2|E2]; bool_props; lia.
Qed.

Lemma ReadFull_returns fuel source i buffer n e :
  length buffer = 32%nat -> 0 <= n <= 32 -> 0 <= e < 8 -> Z.max 0 (draw_measure n e) < Z.of_nat fuel ->
  exists count err buffer' calls, ReadFull fuel source i buffer n e = Some (count, err, buffer', calls) /\
    length buffer' = 32%nat /\ (err = false -> count = 32) /\ (i <= calls <= i + Z.to_nat (draw_measure n e))%nat.
Proof.
  revert i buffer n e. induction fuel as [|fuel IH]; intros i buffer n e Hl Hn He Hm; unfold draw_measure in *; [lia|].
  cbn [ReadFull]. assert (len buffer = 32) as Hlb by (unfold len; lia). rewrite Hlb.
  destruct (32 <=? n) eqn:E; bool_props.
  { eexists _, _, _, _. split; [done|]. split_and!; [done|lia|lia|lia]. }
  destruct (bounded_Read _ _ _ _) as [[[content count] err] e'] eqn:Hb.
  destruct (bounded_Read_cases _ _ _ _ _ _ _ _ Hb He) as (Hc & Hcount & Hnext).
  assert (len (drop (Z.to_nat n) buffer) = 32 - n) as Hd by (unfold len; rewrite length_drop; lia). rewrite Hd in Hcount.
  assert (length (take (Z.to_nat n) buffer ++ content) = 32%nat) as Hl'.
  { rewrite length_app, length_take, Hc. unfold len in Hd. lia. }
  destruct err.
  - eexists _, _, _, _. split; [done|]. split_and!; [done| |lia|lia].
    unfold len. rewrite Hl'. intros Hf. bool_props. lia.
  - destruct (Hnext eq_refl) as [He' Hdec]. unfold draw_measure in Hdec.
    destruct (IH (S i) (take (Z.to_nat n) buffer ++ content) (n + count) e' Hl') as (c & er & b & calls & Hr & Hlb' & Hk & Hcalls);
      [lia|lia|lia|].
    eexists c, er, b, calls. split; [done|]. split_and!; [done|done|lia|lia].
Qed.

(** [token_draw_terminates]: whatever a random source returns, drawing a
    token makes at most 256 reads; it returns 32 bytes that were all read, or an
    error. *)
Theorem token_draw_terminates source :
  exists count err buffer calls,
    ReadFull draw_fuel source 0 (repeat x00 32) 0 0 = Some (count, err, buffer, calls) /\ (calls <= 256)%nat /\
    NewOpaqueToken source = (if err then Err TokenRandomSource else Ok buffer) /\
    (err = false -> count = 32 /\ len buffer = 32).
Proof.
  destruct (ReadFull_returns draw_fuel source 0 (repeat x00 32) 0 0) as (count & err & buffer & calls & Hr & Hl & Hk & Hc);
    [done|lia|lia|done|].
  exists count, err, buffer, calls. split; [done|]. split; [unfold draw_measure in Hc; lia|].
  unfold NewOpaqueToken. rewrite Hr. split; [|intros He; split; [by apply Hk|unfold len; lia]].
  destruct err; [done|]. by rewrite (Hk eq_refl).
Qed.

(** A domain has no NUL. *)
Lemma domain_no_nul d : validTokenDomain d = true -> x00 ∉ d.
Proof.
  intros Hd%bool_decide_eq_true.
  assert (Forall (fun d => forallb (fun c => c != x00) d = true)
    [AccountAccessToken; AccountRefreshToken; DeviceAccessToken; DeviceRefreshToken; EnrollmentGrantToken;
     EmailVerificationToken; RecoveryCodeToken]) as Hall by (repeat constructor; vm_compute; reflexivity).
  rewrite Forall_forall in Hall. apply list_elem_of_In in Hd. specialize (Hall d Hd). rewrite List.forallb_forall in Hall.
  intros Hin%list_elem_of_In. specialize (Hall _ Hin). by bool_props.
Qed.

(** [token_material_unambiguous]: the hashed material determines the domain and
    the token, so digests of different token classes never coincide by
    construction. *)
Theorem token_material_unambiguous d d' raw raw' :
  validTokenDomain d = true -> validTokenDomain d' = true ->
  token_material d raw = token_material d' raw' -> d = d' /\ raw = raw'.
Proof.
  intros Hd Hd' He. unfold token_material in He. apply app_inv_head in He.
  by apply framed_inj in He; [|apply domain_no_nul..].
Qed.
