(* ===== verification/Readiness.v ===== *)
(** Readiness: the probe aggregation of [internal/readiness/checker.go] and the
    thresholds of [internal/readiness/policy.go].

    What each probe answers, and in which order the answers and the deadline
    arrive, is an argument of [Check]. *)
From Stdlib Require Import ZArith Lia Strings.Byte.
From stdpp Require Import base gmap list strings numbers option.
From S2P Require Import Prelude GoStd GoTime.

#[local] Open Scope go_scope.

(** ** Policy *)

Record Policy := MkPolicy {
  po_RedisDownAfterFailures : Z;
  po_RedisRecoverAfterSuccesses : Z;
  po_OutboxDegradedBacklog : Z;
  po_OutboxDownBacklog : Z;
  po_OutboxDegradedAge : Z;
  po_OutboxDownAge : Z }.

Definition DefaultPolicy : Policy := MkPolicy 3 2 1000 10000 (60 * Second) (300 * Second).

Definition validPolicy (policy : Policy) : bool :=
  (1 <=? po_RedisDownAfterFailures policy) && (po_RedisDownAfterFailures policy <=? 10) &&
  (1 <=? po_RedisRecoverAfterSuccesses policy) && (po_RedisRecoverAfterSuccesses policy <=? 10) &&
  (100 <=? po_OutboxDegradedBacklog policy) && (po_OutboxDegradedBacklog policy <=? 10000) &&
  (po_OutboxDegradedBacklog policy <? po_OutboxDownBacklog policy) &&
  (po_OutboxDownBacklog policy <=? 100000) &&
  (10 * Second <=? po_OutboxDegradedAge policy) && (po_OutboxDegradedAge policy <=? 10 * Minute) &&
  (i64 (po_OutboxDegradedAge policy + Second) <=? po_OutboxDownAge policy) &&
  (po_OutboxDownAge policy <=? Hour).

(** ** Probes *)

Definition statusUp : string := "up".
Definition statusDegraded : string := "degraded".
Definition statusDown : string := "down".

Inductive probeKind := probeNone | probePostgres | probeRedis | probeNATS | probeOutbox | probeAuthority.

#[export] Instance probeKind_eq_dec : EqDecision probeKind.
Proof. solve_decision. Defined.

Definition kindForName (name : string) : probeKind :=
  if name == "postgres"%string then probePostgres
  else if name == "redis"%string then probeRedis
  else if name == "nats"%string then probeNATS
  else if name == "authority"%string then probeAuthority
  else probeNone.

Definition isPublicProbeName (name : string) : bool :=
  bool_decide (name ∈ ["postgres"; "redis"; "nats"; "authority"]%string).

Definition initialStatus (kind : probeKind) : string :=
  if (kind == probeRedis) || (kind == probeNATS) then statusDegraded else statusDown.

Record checkedProbe := MkCheckedProbe { cb_name : string; cb_kind : probeKind }.

Record Checker := MkChecker { ck_policy : Policy; ck_probes : list checkedProbe }.

(** [New]; [None] is a panic. *)
Fixpoint New_probes (names : list string) (seen : gset string) : option (list checkedProbe) :=
  match names with
  | [] => Some []
  | name :: names =>
      if negb (isPublicProbeName name) || bool_decide (name ∈ seen) then None
      else match New_probes names ({[name]} ∪ seen) with
           | Some checked => Some (MkCheckedProbe name (kindForName name) :: checked)
           | None => None
           end
  end.

Definition New (names : list string) : option Checker :=
  match New_probes names ∅ with Some probes => Some (MkChecker DefaultPolicy probes) | None => None end.

Definition NewWithPolicy (timeout : Z) (policy : Policy) (postgres redis : string) : option Checker :=
  if (timeout <=? 0) || negb (validPolicy policy) then None
  else if negb (postgres == "postgres"%string) then None
  else if negb (redis == "redis"%string) then None
  else Some (MkChecker policy [MkCheckedProbe "postgres" probePostgres; MkCheckedProbe "redis" probeRedis;
                               MkCheckedProbe "outbox" probeOutbox]).

(** What a probe answers: whether [Ping] returned nil, or the backlog and age of
    [Snapshot], [None] for an error. *)
Inductive answer := Pinged (ok : bool) | Snapshotted (health : option (Z * Z)).

Record probeOutcome := MkProbeOutcome { oc_status : string; oc_success : bool }.

Definition evaluate (policy : Policy) (kind : probeKind) (a : answer) : probeOutcome :=
  let pinged := match a with Pinged ok => ok | Snapshotted _ => false end in
  match kind with
  | probePostgres | probeAuthority =>
      if negb pinged then MkProbeOutcome statusDown false else MkProbeOutcome statusUp false
  | probeRedis => MkProbeOutcome "" pinged
  | probeNATS => if negb pinged then MkProbeOutcome statusDegraded false else MkProbeOutcome statusUp false
  | probeOutbox =>
      match a with
      | Snapshotted (Some (backlog, oldest)) =>
          if (backlog <? 0) || (oldest <? 0) then MkProbeOutcome statusDown false
          else if (po_OutboxDownBacklog policy <=? backlog) || (po_OutboxDownAge policy <=? oldest)
          then MkProbeOutcome statusDown false
          else if (po_OutboxDegradedBacklog policy <=? backlog) || (po_OutboxDegradedAge policy <=? oldest)
          then MkProbeOutcome statusDegraded false
          else MkProbeOutcome statusUp false
      | _ => MkProbeOutcome statusDown false
      end
  | probeNone => MkProbeOutcome statusDown false
  end.

(** ** The Redis state *)

Record redisState := MkRedisState { rs_status : string; rs_failures : Z; rs_successes : Z }.

Definition redis_zero : redisState := MkRedisState "" 0 0.

Definition record_redis (success : bool) (policy : Policy) (state : redisState) : string * redisState :=
  let status := if rs_status state == ""%string then statusUp else rs_status state in
  if negb success then
    let failures := i64 (rs_failures state + 1) in
    let status := if po_RedisDownAfterFailures policy <=? failures then statusDown else statusDegraded in
    (status, MkRedisState status failures 0)
  else if status == statusUp then (statusUp, MkRedisState statusUp 0 0)
  else
    let successes := i64 (rs_successes state + 1) in
    if po_RedisRecoverAfterSuccesses policy <=? successes then (statusUp, MkRedisState statusUp 0 0)
    else (statusDegraded, MkRedisState statusDegraded 0 successes).

(** ** Checking *)

(** What one round of the loop sees: the deadline, or the answer of a probe and
    whether the deadline has passed by then. *)
Inductive arrival := Deadline | Arrived (probe : checkedProbe) (a : answer) (expired : bool).

Abbreviation checks := (gmap string string).

(** The status of an answer, through the Redis state for that probe. *)
Definition settle (policy : Policy) (probe : checkedProbe) (a : answer) (redis : redisState) :
  string * redisState :=
  let outcome := evaluate policy (cb_kind probe) a in
  if cb_kind probe == probeRedis then record_redis (oc_success outcome) policy redis
  else (oc_status outcome, redis).

(** The loop over the answers; when none is left the deadline ends the wait. *)
Fixpoint check_loop (policy : Policy) (rounds : nat) (arrivals : list arrival) (ready : bool) (m : checks)
  (redis : redisState) : bool * checks * redisState :=
  match rounds with
  | O => (ready, m, redis)
  | S rounds =>
      match arrivals with
      | [] | Deadline :: _ => (false, m, redis)
      | Arrived probe a expired :: arrivals =>
          if expired then (false, m, redis)
          else
            let '(status, redis) := settle policy probe a redis in
            check_loop policy rounds arrivals (ready && negb (status == statusDown))
              (<[cb_name probe := status]> m) redis
      end
  end.

Definition initial_checks (probes : list checkedProbe) : checks :=
  list_to_map (map (fun probe => (cb_name probe, initialStatus (cb_kind probe))) (reverse probes)).

Definition Check (c : Checker) (arrivals : list arrival) (redis : redisState) : bool * checks * redisState :=
  check_loop (ck_policy c) (length (ck_probes c)) arrivals true (initial_checks (ck_probes c)) redis.

(** ** Aggregation *)

(** Distinct names, and only the probe named redis is one. *)
Definition probes_ok (probes : list checkedProbe) : Prop :=
  NoDup (map cb_name probes) /\
  forall probe, probe ∈ probes -> cb_kind probe = probeRedis -> cb_name probe = "redis"%string.

Lemma kindForName_redis name : kindForName name = probeRedis -> name = "redis"%string.
Proof. unfold kindForName. intros H. repeat (case_top H; [bool_props; done|]). done. Qed.

Lemma New_probes_ok names seen probes :
  New_probes names seen = Some probes ->
  map cb_name probes = names /\ NoDup names /\ (forall name, name ∈ names -> name ∉ seen) /\
  forall probe, probe ∈ probes -> cb_kind probe = probeRedis -> cb_name probe = "redis"%string.
Proof.
  revert seen probes. induction names as [|name names IH]; intros seen probes Hn; cbn in Hn.
  - simplify_eq. split_and!; [done|by constructor|by intros ? ?%elem_of_nil|by intros ? ?%elem_of_nil].
  - case_top Hn; [done|]. destruct (New_probes names _) as [checked|] eqn:E; [|done]. simplify_eq. bool_props.
    destruct (IH _ _ E) as (Hm & Hnd & Hs & Hr). split_and!.
    + cbn. by rewrite Hm.
    + constructor; [|done]. intros Hin. specialize (Hs _ Hin). set_solver.
    + intros x [->|Hx]%elem_of_cons; [done|]. specialize (Hs _ Hx). set_solver.
    + intros p [->|Hp]%elem_of_cons; [apply kindForName_redis|by apply Hr].
Qed.

Lemma New_ok names c : New names = Some c -> probes_ok (ck_probes c).
Proof.
  unfold New. destruct (New_probes names ∅) as [probes|] eqn:E; [|done]. intros [= <-].
  destruct (New_probes_ok _ _ _ E) as (Hm & Hnd & _ & Hr). split; [cbn; by rewrite Hm|done].
Qed.

Lemma NewWithPolicy_ok timeout policy postgres redis c :
  NewWithPolicy timeout policy postgres redis = Some c -> probes_ok (ck_probes c).
Proof.
  unfold NewWithPolicy. intros H. case_top H; [done|]. case_top H; [done|]. case_top H; [done|]. simplify_eq. split.
  - cbn. apply (bool_decide_eq_true_1 _). vm_compute. reflexivity.
  - cbn. intros p Hp Hk. repeat (apply elem_of_cons in Hp as [->|Hp]; [done|]). by apply elem_of_nil in Hp.
Qed.

(** An answer in time. *)
Definition arrived (x : checkedProbe * answer) : arrival := Arrived x.1 x.2 false.

(** The status of a probe's answer. *)
Definition status_of (policy : Policy) (redis : redisState) (x : checkedProbe * answer) : string :=
  (settle policy x.1 x.2 redis).1.

Definition pair_name (x : checkedProbe * answer) : string := cb_name x.1.

Lemma settle_other policy probe a redis redis' :
  cb_kind probe <> probeRedis ->
  settle policy probe a redis = (status_of policy redis' (probe, a), redis).
Proof. intros Hk. unfold status_of, settle. cbn. by rewrite !bool_decide_eq_false_2. Qed.

(** The answers of probes as [probes_ok] has them. *)
Definition answers_ok (l : list (checkedProbe * answer)) : Prop :=
  NoDup (map pair_name l) /\ forall x, x ∈ l -> cb_kind x.1 = probeRedis -> pair_name x = "redis"%string.

Lemma foldl_ext_in {A B} (f g : A -> B -> A) l a :
  (forall a x, x ∈ l -> f a x = g a x) -> foldl f a l = foldl g a l.
Proof.
  revert a. induction l as [|x l IH]; intros a H; cbn; [done|]. rewrite (H a x) by (by left).
  apply IH. intros. apply H. by right.
Qed.

Lemma forallb_ext_elem {A} (f g : A -> bool) l : (forall x, x ∈ l -> f x = g x) -> forallb f l = forallb g l.
Proof.
  induction l as [|x l IH]; intros H; cbn; [done|]. rewrite (H x) by (by left). f_equal. apply IH. intros. apply H. by right.
Qed.

(** What the loop makes of answers that all arrive in time. *)
Lemma loop_exact policy l ready m redis rest :
  answers_ok l ->
  exists redis', check_loop policy (length l) (map arrived l ++ rest) ready m redis =
    (ready && forallb (fun x => negb (status_of policy redis x == statusDown)) l,
     foldl (fun m x => <[pair_name x := status_of policy redis x]> m) m l, redis') /\
    (forall x, x ∈ l -> cb_kind x.1 = probeRedis -> redis' = (settle policy x.1 x.2 redis).2) /\
    ((forall x, x ∈ l -> cb_kind x.1 <> probeRedis) -> redis' = redis).
Proof.
  revert ready m redis. induction l as [|[p a] l IH]; intros ready m redis [Hnd Hr].
  { exists redis. cbn. rewrite andb_true_r. split; [done|]. split; [by intros x ?%elem_of_nil|done]. }
  cbn [map] in Hnd. apply NoDup_ListNoDup, List.NoDup_cons_iff in Hnd as [Hni Hnd].
  rewrite <- list_elem_of_In in Hni. apply NoDup_ListNoDup in Hnd.
  assert (answers_ok l) as Hl by (split; [done|]; intros x Hx; apply Hr; by right).
  cbn [length map arrived app check_loop fst snd].
  destruct (decide (cb_kind p = probeRedis)) as [Hp|Hp].
  - destruct (settle policy p a redis) as [st r1] eqn:Hs.
    assert (forall x, x ∈ l -> cb_kind x.1 <> probeRedis) as Hno.
    { intros x Hx Hk. apply Hni. pose proof (Hr (p, a) ltac:(by left) Hp) as He.
      rewrite He, <- (Hr x ltac:(by right) Hk). apply list_elem_of_In, in_map, list_elem_of_In. done. }
    destruct (IH (ready && negb (st == statusDown)) (<[cb_name p := st]> m) r1 Hl) as (r2 & Hrun & _ & Hsame).
    assert (forall x, x ∈ l -> status_of policy r1 x = status_of policy redis x) as Hst.
    { intros [q b] Hx. unfold status_of at 1. cbn. by rewrite (settle_other _ _ _ _ redis) by (by apply (Hno (q, b))). }
    exists r1. rewrite Hrun, (Hsame Hno). split; [|split; [|intros Hc; by destruct (Hc (p, a)); [left|]]].
    + assert (status_of policy redis (p, a) = st) as Hpa by (unfold status_of; cbn; by rewrite Hs).
      f_equal. f_equal.
      * cbn [forallb]. rewrite Hpa, <- andb_assoc. do 2 f_equal. apply forallb_ext_elem.
        intros x Hx. by rewrite Hst.
      * cbn [foldl]. rewrite Hpa. apply foldl_ext_in. intros m0 x Hx. by rewrite Hst.
    + intros x [->|Hx]%elem_of_cons Hk; [cbn; by rewrite Hs|]. by destruct (Hno x Hx).
  - rewrite (settle_other _ _ _ _ redis) by done.
    destruct (IH (ready && negb (status_of policy redis (p, a) == statusDown))
                (<[cb_name p := status_of policy redis (p, a)]> m) redis Hl) as (r2 & Hrun & Hone & Hsame).
    exists r2. rewrite Hrun. split; [|split].
    + cbn [forallb foldl]. by rewrite <- andb_assoc.
    + intros x [->|Hx]%elem_of_cons Hk; [done|by apply Hone].
    + intros Hc. apply Hsame. intros x Hx. apply Hc. by right.
Qed.

Lemma report_lookup (f : checkedProbe * answer -> string) l (m : checks) x :
  NoDup (map pair_name l) -> x ∈ l ->
  foldl (fun m x => <[pair_name x := f x]> m) m l !! pair_name x = Some (f x).
Proof.
  revert m. induction l as [|y l IH]; intros m Hnd Hx; [by apply elem_of_nil in Hx|]. cbn.
  cbn [map] in Hnd. apply NoDup_ListNoDup, List.NoDup_cons_iff in Hnd as [Hni Hnd].
  apply NoDup_ListNoDup in Hnd. apply elem_of_cons in Hx as [->|Hx]; [|by apply IH].
  assert (forall m : checks, foldl (fun m x => <[pair_name x := f x]> m) m l !! pair_name y = m !! pair_name y) as Hkeep.
  { clear -Hni. induction l as [|z l IHl]; intros m; [done|]. cbn. rewrite IHl by (intros Hin; apply Hni; by right).
    rewrite lookup_insert_ne; [done|]. intros He. apply Hni. left. by rewrite He. }
  by rewrite Hkeep, lookup_insert_eq.
Qed.

Lemma report_dom (f : checkedProbe * answer -> string) l (m : checks) :
  dom (foldl (fun m x => <[pair_name x := f x]> m) m l) = dom m ∪ list_to_set (map pair_name l).
Proof.
  revert m. induction l as [|y l IH]; intros m; cbn; [set_solver|]. rewrite IH, dom_insert_L. set_solver.
Qed.

Lemma initial_dom probes : dom (initial_checks probes) = list_to_set (map cb_name probes).
Proof.
  unfold initial_checks. rewrite dom_list_to_map_L. 
  transitivity (list_to_set (map cb_name (reverse probes)) : gset string).
  - f_equal. induction (reverse probes) as [|p l IH]; [done|]. cbn. by rewrite IH.
  - apply list_to_set_perm_L. by rewrite reverse_Permutation.
Qed.

Lemma loop_in_time policy n arrivals ready m redis :
  (check_loop policy n arrivals ready m redis).1.1 = true ->
  exists l, length l = n /\ take n arrivals = map arrived l.
Proof.
  revert arrivals ready m redis. induction n as [|n IH]; intros arrivals ready m redis Hr; [by exists []|].
  cbn [check_loop] in Hr. destruct arrivals as [|[|p a []] arrivals]; try done.
  destruct (settle policy p a redis) as [st r1]. destruct (IH _ _ _ _ Hr) as (l & Hl & Ht).
  exists ((p, a) :: l). split; [cbn; by rewrite Hl|]. cbn. by rewrite Ht.
Qed.

(** C38 (readiness_exact): when every probe answers in time, the report is ready
    exactly when no status is down, it lists each probe with its status, and the
    Redis state advances by its answer alone, whatever the order in which the
    answers arrive; and a report is never ready when an answer is missing or late. *)
Theorem readiness_exact c l perm redis rest :
  probes_ok (ck_probes c) -> map fst l = ck_probes c -> perm ≡ₚ l ->
  (exists ready m redis', Check c (map arrived perm ++ rest) redis = (ready, m, redis') /\
    (ready = true <-> forall x, x ∈ l -> status_of (ck_policy c) redis x <> statusDown) /\
    dom m = list_to_set (map cb_name (ck_probes c)) /\
    (forall x, x ∈ l -> m !! cb_name x.1 = Some (status_of (ck_policy c) redis x)) /\
    (forall x, x ∈ l -> cb_kind x.1 = probeRedis -> redis' = (settle (ck_policy c) x.1 x.2 redis).2) /\
    ((forall x, x ∈ l -> cb_kind x.1 <> probeRedis) -> redis' = redis)) /\
  forall arrivals, (Check c arrivals redis).1.1 = true ->
    exists answers, length answers = length (ck_probes c) /\
      take (length (ck_probes c)) arrivals = map arrived answers.
Proof.
  intros [Hnd Hredis] Hl Hp. split; [|intros arrivals; apply loop_in_time].
  assert (map pair_name l = map cb_name (ck_probes c)) as Hnames by (by rewrite <- Hl, List.map_map).
  assert (answers_ok perm) as Hok.
  { split; [by rewrite Hp, Hnames|]. intros x Hx. rewrite Hp in Hx. apply Hredis.
    rewrite <- Hl. apply list_elem_of_In, in_map, list_elem_of_In. done. }
  unfold Check. replace (length (ck_probes c)) with (length perm) by (by rewrite Hp, <- Hl, List.length_map).
  destruct (loop_exact (ck_policy c) perm true (initial_checks (ck_probes c)) redis rest Hok) as (r & Hrun & Hone & Hnone).
  eexists _, _, r. split; [exact Hrun|]. split_and!.
  - cbn [andb]. rewrite List.forallb_forall. setoid_rewrite <- list_elem_of_In. setoid_rewrite Hp.
    setoid_rewrite negb_true_iff. by setoid_rewrite bool_decide_eq_false.
  - rewrite report_dom, initial_dom, <- Hnames. apply set_eq. intros x.
    rewrite elem_of_union, !elem_of_list_to_set. rewrite Hp. naive_solver.
  - intros x Hx. apply (report_lookup _ perm); [apply Hok|by rewrite Hp].
  - intros x Hx. apply Hone. by rewrite Hp.
  - intros Hx. apply Hnone. setoid_rewrite Hp. done.
Qed.

(** ** Redis hysteresis *)

(** The Redis state after a history of answers, oldest first. *)
Definition redis_run (policy : Policy) (history : list bool) : redisState :=
  foldl (fun state success => (record_redis success policy state).2) redis_zero history.

(** How many of the latest answers are [b] in a row. *)
Fixpoint leading (b : bool) (l : list bool) : Z :=
  match l with
  | x :: l => if eqb x b then 1 + leading b l else 0
  | [] => 0
  end.
Definition latest (b : bool) (history : list bool) : Z := leading b (reverse history).

Lemma latest_snoc b history x : latest b (history ++ [x]) = if eqb x b then 1 + latest b history else 0.
Proof. unfold latest. by rewrite reverse_snoc. Qed.

Lemma leading_bounds b l : 0 <= leading b l <= len l.
Proof. induction l as [|x l IH]; unfold len in *; cbn [leading length]; [lia|]. destruct (eqb x b); lia. Qed.

Lemma latest_bounds b history : 0 <= latest b history <= len history.
Proof. unfold latest. pose proof (leading_bounds b (reverse history)). unfold len in *. by rewrite length_reverse in *. Qed.

Lemma latest_one b history : 0 < latest b history -> latest (negb b) history = 0.
Proof. unfold latest. destruct (reverse history) as [|[] l]; cbn; [lia|..]; destruct b; cbn; lia. Qed.

(** The status the history calls for. *)
Definition expected (policy : Policy) (history : list bool) : string :=
  if 0 <? latest false history then
    if po_RedisDownAfterFailures policy <=? latest false history then statusDown else statusDegraded
  else if forallb (fun b => b) history || (po_RedisRecoverAfterSuccesses policy <=? latest true history)
  then statusUp else statusDegraded.

Definition redis_inv (policy : Policy) (history : list bool) (s : redisState) : Prop :=
  rs_failures s = latest false history /\
  (if rs_status s == ""%string then statusUp else rs_status s) = expected policy history /\
  (expected policy history <> statusUp -> rs_successes s = latest true history).

Lemma expected_failed policy history :
  expected policy (history ++ [false]) =
  if po_RedisDownAfterFailures policy <=? 1 + latest false history then statusDown else statusDegraded.
Proof.
  unfold expected. rewrite !latest_snoc. cbn [eqb]. pose proof (latest_bounds false history).
  by rewrite (proj2 (Z.ltb_lt 0 _)) by lia.
Qed.

Lemma expected_succeeded policy history :
  expected policy (history ++ [true]) =
  if forallb (fun b => b) history || (po_RedisRecoverAfterSuccesses policy <=? 1 + latest true history)
  then statusUp else statusDegraded.
Proof. unfold expected. rewrite !latest_snoc, forallb_app. cbn. by rewrite andb_true_r. Qed.

Lemma all_succeeded history : forallb (fun b => b) history = true -> latest false history = 0.
Proof.
  intros Ha. unfold latest. destruct (reverse history) as [|[] l] eqn:E; [done|done|].
  rewrite List.forallb_forall in Ha. specialize (Ha false). rewrite <- list_elem_of_In, <- elem_of_reverse, E in Ha.
  by discriminate Ha; left.
Qed.

Lemma expected_cases policy history :
  (expected policy history = statusUp /\ latest false history = 0 /\
   forallb (fun b => b) history || (po_RedisRecoverAfterSuccesses policy <=? latest true history) = true) \/
  (expected policy history <> statusUp /\ forallb (fun b => b) history = false /\
   expected policy history <> ""%string).
Proof.
  unfold expected. pose proof (latest_bounds false history). pose proof (all_succeeded history) as Ha.
  destruct (0 <? latest false history) eqn:E; bool_props.
  - right. destruct (forallb _ _); [specialize (Ha eq_refl); lia|]. by destruct (_ <=? _).
  - destruct (_ || _) eqn:E2; [left; split_and!; [done|lia|done]|]. right. bool_props. done.
Qed.

Lemma record_redis_inv policy history s success :
  len history + 1 < 2 ^ 63 -> redis_inv policy history s ->
  redis_inv policy (history ++ [success]) (record_redis success policy s).2 /\
  (record_redis success policy s).1 = expected policy (history ++ [success]).
Proof.
  intros Hlen (Hf & Hst & Hs). pose proof (latest_bounds false history) as Hbf. pose proof (latest_bounds true history) as Hbt.
  assert (forall z, 0 <= z < 2 ^ 63 -> i64 z = z) as Hi by (intros z Hz; unfold i64; rewrite Z.mod_small; lia).
  unfold record_redis, redis_inv. rewrite Hst. destruct success; cbn [negb].
  - rewrite expected_succeeded, !latest_snoc. cbn [eqb].
    destruct (expected_cases policy history) as [(He & Hl & Hup)|(He & Hall & _)].
    + rewrite He, bool_decide_eq_true_2 by done. cbn.
      assert (forallb (fun b => b) history || (po_RedisRecoverAfterSuccesses policy <=? 1 + latest true history) = true) as ->.
      { apply orb_true_iff in Hup as [->|Hup]; [done|]. bool_props. apply orb_true_iff. right. apply Z.leb_le. lia. }
      done.
    + rewrite bool_decide_eq_false_2 by done. rewrite Hall, (Hs He), Hi by lia.
      replace (latest true history + 1) with (1 + latest true history) by lia. cbn [orb].
      by destruct (_ <=? _).
  - rewrite expected_failed, !latest_snoc, Hf, Hi by lia. cbn [eqb].
    replace (latest false history + 1) with (1 + latest false history) by lia. by destruct (_ <=? _).
Qed.

Lemma redis_run_inv policy history :
  len history < 2 ^ 63 -> redis_inv policy history (redis_run policy history).
Proof.
  induction history as [|b history IH] using rev_ind; intros Hlen; [done|].
  unfold redis_run. rewrite foldl_app. cbn [foldl]. rewrite len_app in Hlen. unfold len in Hlen at 2. cbn in Hlen.
  apply record_redis_inv; [lia|]. apply IH. lia.
Qed.

(** [redis_hysteresis]: the status reported for Redis after any history of
    answers is the one its latest run calls for: down after as many failures in a
    row as the policy says, degraded after fewer and until as many successes in a
    row as the policy says, up otherwise. *)
Theorem redis_hysteresis policy history success :
  len history + 1 < 2 ^ 63 ->
  (record_redis success policy (redis_run policy history)).1 = expected policy (history ++ [success]).
Proof. intros Hlen. apply record_redis_inv; [done|]. apply redis_run_inv. lia. Qed.

(** ** Witnesses *)

Definition sample_checker : Checker :=
  MkChecker DefaultPolicy [MkCheckedProbe "postgres" probePostgres; MkCheckedProbe "redis" probeRedis].
Definition sample_answers : list (checkedProbe * answer) :=
  [(MkCheckedProbe "postgres" probePostgres, Pinged true); (MkCheckedProbe "redis" probeRedis, Pinged false)].

Lemma readiness_exact_witness :
  exists ready m redis', Check sample_checker (map arrived (reverse sample_answers) ++ []) redis_zero = (ready, m, redis') /\
    m !! "redis"%string = Some statusDegraded.
Proof.
  destruct (readiness_exact sample_checker sample_answers (reverse sample_answers) redis_zero [])
    as [(ready & m & redis' & Hc & _ & _ & Hm & _) _].
  - apply (New_ok ["postgres"; "redis"]%string). vm_compute. reflexivity.
  - reflexivity.
  - apply reverse_Permutation.
  - exists ready, m, redis'. split; [exact Hc|].
    exact (Hm (MkCheckedProbe "redis" probeRedis, Pinged false) (list_elem_of_further _ _ _ (list_elem_of_here _ _))).
Defined.

Lemma redis_hysteresis_witness :
  (record_redis true DefaultPolicy (redis_run DefaultPolicy [true; false; false; false])).1 = statusDegraded.
Proof. exact (redis_hysteresis DefaultPolicy [true; false; false; false] true eq_refl). Defined.
