(* ===== verification/GoJson.v ===== *)
(** [encoding/json]: the token stream of a [Decoder] ([Token], [More]), the value
    [Decode] reads, and how a value is stored in a target of a given Go type.

    Types are those the decoded structs of the packages are made of: strings,
    booleans, [int64], [json.RawMessage], pointers, slices, arrays, maps with
    string keys and structs.  The Unicode tables beyond ASCII are a parameter. *)
From Stdlib Require Import ZArith Lia Strings.Byte.
From stdpp Require Import base gmap list strings numbers option.
From S2P Require Import Prelude GoStd GoTime.

#[local] Open Scope go_scope.

(** ** Unicode *)

(** [unicode.IsLetter], [unicode.IsDigit] and [unicode.SimpleFold]'s orbits for
    runes beyond ASCII. *)
Class Unicode := {
  letter_table : Z -> bool;
  digit_table : Z -> bool;
  fold_table : Z -> Z -> bool }.

Definition rune_in (lo hi r : Z) : bool := (lo <=? r) && (r <=? hi).

Definition IsLetter `{Unicode} (r : Z) : bool :=
  if r <? 0x80 then rune_in 65 90 r || rune_in 97 122 r else letter_table r.

Definition IsDigit `{Unicode} (r : Z) : bool :=
  if r <? 0x80 then rune_in 48 57 r else digit_table r.

(** The runes of [range s]; a rune consumes at least one byte. *)
Fixpoint runes_fuel (fuel : nat) (l : bytes) : list Z :=
  match fuel, l with
  | S f, b :: l' => let '(r, w) := DecodeRune b l' in r :: runes_fuel f (drop (w - 1) l')
  | _, _ => []
  end.
Definition runes (l : bytes) : list Z := runes_fuel (length l) l.

Definition rune_fold `{Unicode} (a b : Z) : bool :=
  (a =? b) ||
  (let lo := Z.min a b in let hi := Z.max a b in
   if hi <? 0x80 then rune_in 65 90 lo && (hi =? lo + 32) else fold_table lo hi).

(** [strings.EqualFold] *)
Fixpoint fold_runes `{Unicode} (a b : list Z) : bool :=
  match a, b with
  | [], [] => true
  | x :: a, y :: b => rune_fold x y && fold_runes a b
  | _, _ => false
  end.
Definition EqualFold `{Unicode} (a b : bytes) : bool := fold_runes (runes a) (runes b).

(** ** Tokens *)

Definition is_space (c : byte) : bool :=
  bool_decide (c ∈ [x20; x09; x0d; x0a]).

Fixpoint skip_space (l : bytes) : bytes :=
  match l with
  | c :: r => if is_space c then skip_space r else l
  | [] => []
  end.

(** Four hexadecimal digits. *)
Definition hex_value (c : byte) : option Z :=
  match digit_val c with Some v => if v <? 16 then Some v else None | None => None end.
Definition hex4 (a b c d : byte) : option Z :=
  a ← hex_value a; b ← hex_value b; c ← hex_value c; d ← hex_value d;
  Some (((a * 16 + b) * 16 + c) * 16 + d).

(** [utf8.EncodeRune] *)
Definition EncodeRune (r : Z) : bytes :=
  if r <? 0x80 then [byte_of_Z r]
  else if r <? 0x800 then [byte_of_Z (0xC0 + r / 64); byte_of_Z (0x80 + r mod 64)]
  else if r <? 0x10000 then
    [byte_of_Z (0xE0 + r / 4096); byte_of_Z (0x80 + r / 64 mod 64); byte_of_Z (0x80 + r mod 64)]
  else [byte_of_Z (0xF0 + r / 262144); byte_of_Z (0x80 + r / 4096 mod 64);
        byte_of_Z (0x80 + r / 64 mod 64); byte_of_Z (0x80 + r mod 64)].

Definition is_surrogate (r : Z) : bool := rune_in 0xD800 0xDFFF r.

Definition simple_escape (c : byte) : option byte :=
  if bool_decide (c ∈ [x22; x5c; x2f]) then Some c
  else if c == "b"%byte then Some x08
  else if c == "f"%byte then Some x0c
  else if c == "n"%byte then Some x0a
  else if c == "r"%byte then Some x0d
  else if c == "t"%byte then Some x09
  else None.

(** A string after its opening quote: its value and what follows the closing
    quote.  A surrogate that is not half of a pair becomes U+FFFD. *)
Fixpoint scan_string (l : bytes) : option (bytes * bytes) :=
  match l with
  | [] => None
  | c :: r =>
      if c == x22 then Some ([], r)
      else if c == x5c then
        match r with
        | [] => None
        | e :: r =>
            if e == "u"%byte then
              match r with
              | h1 :: h2 :: h3 :: h4 :: r =>
                  match hex4 h1 h2 h3 h4 with
                  | None => None
                  | Some rune =>
                      if is_surrogate rune then
                        match r with
                        | b1 :: b2 :: k1 :: k2 :: k3 :: k4 :: r' =>
                            match (if (b1 == x5c) && (b2 == "u"%byte) then hex4 k1 k2 k3 k4 else None) with
                            | Some low =>
                                if (rune <? 0xDC00) && rune_in 0xDC00 0xDFFF low then
                                  '(s, rest) ← scan_string r';
                                  Some (EncodeRune (0x10000 + (rune - 0xD800) * 1024 + (low - 0xDC00)) ++ s, rest)
                                else '(s, rest) ← scan_string r; Some (EncodeRune RuneError ++ s, rest)
                            | None => '(s, rest) ← scan_string r; Some (EncodeRune RuneError ++ s, rest)
                            end
                        | _ => '(s, rest) ← scan_string r; Some (EncodeRune RuneError ++ s, rest)
                        end
                      else '(s, rest) ← scan_string r; Some (EncodeRune rune ++ s, rest)
                  end
              | _ => None
              end
            else match simple_escape e with
                 | Some b => '(s, rest) ← scan_string r; Some (b :: s, rest)
                 | None => None
                 end
        end
      else if byte_to_Z c <? 0x20 then None
      else '(s, rest) ← scan_string r; Some (c :: s, rest)
  end.

(** A number: the longest one the text starts with.  A sign, a point or an exponent
    that no digit follows is an error. *)
Definition scan_int (l : bytes) : option (bytes * bytes) :=
  match l with
  | c :: r => if c == "0"%byte then Some ([c], r)
              else match span_digits l with ([], _) => None | p => Some p end
  | [] => None
  end.

Definition scan_fraction (l : bytes) : option (bytes * bytes) :=
  match l with
  | c :: r =>
      if c == "."%byte then
        match span_digits r with ([], _) => None | (ds, rest) => Some (c :: ds, rest) end
      else Some ([], l)
  | [] => Some ([], l)
  end.

Definition scan_exponent (l : bytes) : option (bytes * bytes) :=
  match l with
  | c :: r =>
      if (c == "e"%byte) || (c == "E"%byte) then
        let '(sign, r) := match r with
                          | s :: r' => if (s == "+"%byte) || (s == "-"%byte) then ([s], r') else ([], r)
                          | [] => ([], r)
                          end in
        match span_digits r with ([], _) => None | (ds, rest) => Some (c :: sign ++ ds, rest) end
      else Some ([], l)
  | [] => Some ([], l)
  end.

Definition scan_number (l : bytes) : option (bytes * bytes) :=
  let '(sign, l) := match l with
                    | c :: r => if c == "-"%byte then ([c], r) else ([], l)
                    | [] => ([], l)
                    end in
  '(i, l) ← scan_int l;
  '(f, l) ← scan_fraction l;
  '(e, l) ← scan_exponent l;
  Some (sign ++ i ++ f ++ e, l).

Inductive token :=
| Delim (c : byte)
| TokString (s : bytes)
| TokNumber (text : bytes)
| TokBool (b : bool)
| TokNull.

(** A value that is not an object or an array. *)
Definition scan_scalar (l : bytes) : option (token * bytes) :=
  match l with
  | [] => None
  | c :: r =>
      if c == x22 then '(s, rest) ← scan_string r; Some (TokString s, rest)
      else if has_prefix (sbytes "true") l then Some (TokBool true, drop 4 l)
      else if has_prefix (sbytes "false") l then Some (TokBool false, drop 5 l)
      else if has_prefix (sbytes "null") l then Some (TokNull, drop 4 l)
      else '(n, rest) ← scan_number l; Some (TokNumber n, rest)
  end.

Inductive token_state :=
| TopValue | ArrayStart | ArrayValue | ArrayComma
| ObjectStart | ObjectKey | ObjectColon | ObjectValue | ObjectComma.

#[export] Instance token_state_eq_dec : EqDecision token_state.
Proof. solve_decision. Defined.

(** The decoder: what is left of the input, the state and the stack. *)
Record decoder := MkDecoder { dec_rest : bytes; dec_state : token_state; dec_stack : list token_state }.

Definition NewDecoder (body : bytes) : decoder := MkDecoder body TopValue [].

Definition tokenValueAllowed (s : token_state) : bool :=
  match s with TopValue | ArrayStart | ArrayValue | ObjectValue => true | _ => false end.

Definition tokenValueEnd (s : token_state) : token_state :=
  match s with
  | ArrayStart | ArrayValue => ArrayComma
  | ObjectValue => ObjectComma
  | s => s
  end.

Inductive token_result := TokEOF | TokError | Tok (t : token) (d : decoder).

Definition open_delim (c : byte) (start : token_state) (r : bytes) (d : decoder) : token_result :=
  if tokenValueAllowed (dec_state d) then Tok (Delim c) (MkDecoder r start (dec_state d :: dec_stack d))
  else TokError.

Definition close_delim (c : byte) (allowed : bool) (r : bytes) (d : decoder) : token_result :=
  match allowed, dec_stack d with
  | true, s :: stack => Tok (Delim c) (MkDecoder r (tokenValueEnd s) stack)
  | _, _ => TokError
  end.

(** One turn of the loop of [Token], and the turn after a colon or a comma: no two
    of them can follow each other. *)
Definition token_turn (again : decoder -> token_result) (d : decoder) : token_result :=
  let s := dec_state d in
  match skip_space (dec_rest d) with
  | [] => TokEOF
  | (c :: r) as l =>
      if c == "["%byte then open_delim c ArrayStart r d
      else if c == "]"%byte then close_delim c ((s == ArrayStart) || (s == ArrayComma)) r d
      else if c == "{"%byte then open_delim c ObjectStart r d
      else if c == "}"%byte then close_delim c ((s == ObjectStart) || (s == ObjectComma)) r d
      else if c == ":"%byte then
        if s == ObjectColon then again (MkDecoder r ObjectValue (dec_stack d)) else TokError
      else if c == ","%byte then
        if s == ArrayComma then again (MkDecoder r ArrayValue (dec_stack d))
        else if s == ObjectComma then again (MkDecoder r ObjectKey (dec_stack d))
        else TokError
      else if (c == x22) && ((s == ObjectStart) || (s == ObjectKey)) then
        match scan_string r with
        | Some (key, rest) => Tok (TokString key) (MkDecoder rest ObjectColon (dec_stack d))
        | None => TokError
        end
      else if negb (tokenValueAllowed s) then TokError
      else match scan_scalar l with
           | Some (t, rest) => Tok t (MkDecoder rest (tokenValueEnd s) (dec_stack d))
           | None => TokError
           end
  end.

Definition Token (d : decoder) : token_result := token_turn (token_turn (fun _ => TokError)) d.

Definition More (d : decoder) : bool :=
  match skip_space (dec_rest d) with
  | [] => false
  | c :: _ => (c != "]"%byte) && (c != "}"%byte)
  end.

(** ** Values *)

Inductive jtree :=
| TreeNull
| TreeBool (b : bool)
| TreeNumber (text : bytes)
| TreeString (s : bytes)
| TreeArray (items : list jtree)
| TreeObject (members : list (bytes * jtree)).

Definition scalar_tree (t : token) : option jtree :=
  match t with
  | Delim _ => None
  | TokString s => Some (TreeString s)
  | TokNumber n => Some (TreeNumber n)
  | TokBool b => Some (TreeBool b)
  | TokNull => Some TreeNull
  end.

Definition closes (c : byte) (d : decoder) : option decoder :=
  match Token d with
  | Tok (Delim c') d' => if c' == c then Some d' else None
  | _ => None
  end.

(** The value that starts with a token.  [None] is a syntax error; the fuel is
    enough when it exceeds twice the bytes left. *)
Fixpoint readValue (fuel : nat) (t : token) (d : decoder) : option (jtree * decoder) :=
  match fuel with
  | O => None
  | S fuel =>
      match t with
      | Delim c =>
          if c == "{"%byte then
            '(members, d) ← readMembers fuel d; d ← closes "}" d; Some (TreeObject members, d)
          else if c == "["%byte then
            '(items, d) ← readItems fuel d; d ← closes "]" d; Some (TreeArray items, d)
          else None
      | t => v ← scalar_tree t; Some (v, d)
      end
  end
with readMembers (fuel : nat) (d : decoder) : option (list (bytes * jtree) * decoder) :=
  match fuel with
  | O => None
  | S fuel =>
      if More d then
        match Token d with
        | Tok (TokString key) d =>
            match Token d with
            | Tok t d =>
                '(v, d) ← readValue fuel t d;
                '(rest, d) ← readMembers fuel d;
                Some ((key, v) :: rest, d)
            | _ => None
            end
        | _ => None
        end
      else Some ([], d)
  end
with readItems (fuel : nat) (d : decoder) : option (list jtree * decoder) :=
  match fuel with
  | O => None
  | S fuel =>
      if More d then
        match Token d with
        | Tok t d =>
            '(v, d) ← readValue fuel t d;
            '(rest, d) ← readItems fuel d;
            Some (v :: rest, d)
        | _ => None
        end
      else Some ([], d)
  end.

(** ** Types and values of Go *)

(** [reflect.Type].  The name of a struct stands for its identity. *)
Inductive gotype :=
| GoString | GoBool | GoInt64
| GoRaw
| GoPointer (elem : gotype)
| GoSlice (elem : gotype)
| GoArray (size : nat) (elem : gotype)
| GoMap (elem : gotype)
| GoStruct (name : bytes) (fields : list gofield)
with gofield :=
| GoField (name : bytes) (anonymous exported : bool) (tag : bytes) (typeOf : gotype).

Inductive goval :=
| VZero
| VString (s : bytes)
| VBool (b : bool)
| VInt (n : Z)
| VRaw (v : jtree)
| VPointer (v : goval)
| VList (items : list goval)
| VMap (members : list (bytes * goval))
| VStruct (members : list (bytes * goval)).
