(* ===== verification/StrictJson.v ===== *)
(** [internal/strictjson]: bounded JSON without duplicate members, unknown members,
    case-folded aliases, deep nesting or trailing data. *)
From Stdlib Require Import ZArith Lia Strings.Byte.
From stdpp Require Import base gmap list strings numbers option.
From S2P Require Import Prelude GoStd GoTime GoJson.

#[local] Open Scope go_scope.

Definition maximumBodyBytes : Z := Z.shiftl 64 10.
Definition maximumDepth : Z := 16.

Inductive strict_err :=
| ErrInvalidArgument | ErrTooLarge | ErrInvalidUTF8 | ErrInvalidJSON | ErrDuplicateMember
| ErrTooDeep | ErrUnknownMember | ErrTrailingData.

(** ** Schemas *)

Record fieldCandidate := MkCandidate { fc_typeOf : gotype; fc_depth : Z; fc_tagged : bool }.

(** The fields of a [structSchema]. *)
Abbreviation schema := (list (bytes * gotype)).

Fixpoint assoc {A} (name : bytes) (l : list (bytes * A)) : option A :=
  match l with
  | [] => None
  | (k, v) :: l => if k == name then Some v else assoc name l
  end.

(** [strings.Cut(tag, ",")] *)
Fixpoint before_comma (tag : bytes) : bytes :=
  match tag with
  | [] => []
  | c :: tag => if c == ","%byte then [] else c :: before_comma tag
  end.

(** The runes [validJSONTag] allows besides letters and digits. *)
Definition tag_runes : list Z :=
  map byte_to_Z (sbytes "!#$%&()*+-./:;<=>?@[]^_{|}~ ").

Definition validJSONTag `{Unicode} (name : bytes) : bool :=
  (name != []) && forallb (fun r => IsLetter r || IsDigit r || bool_decide (r ∈ tag_runes)) (runes name).

Definition is_struct (t : gotype) : bool := match t with GoStruct _ _ => true | _ => false end.

(** [candidates[name] = append(candidates[name], c)] *)
Fixpoint add_candidate (name : bytes) (c : fieldCandidate) (l : list (bytes * list fieldCandidate)) :
  list (bytes * list fieldCandidate) :=
  match l with
  | [] => [(name, [c])]
  | (k, cs) :: l => if k == name then (k, cs ++ [c]) :: l else (k, cs) :: add_candidate name c l
  end.

Definition dominantCandidate (candidates : list fieldCandidate) : option fieldCandidate :=
  match candidates with
  | [c] => Some c
  | _ => match List.filter fc_tagged candidates with [c] => Some c | _ => None end
  end.

(** The field of a name, when its candidates of least depth have a dominant one. *)
Definition select_candidate (cs : list fieldCandidate) : option gotype :=
  match cs with
  | [] => None
  | first :: rest =>
      let minimumDepth := foldl (fun m c => if fc_depth c <? m then fc_depth c else m) (fc_depth first) rest in
      fc_typeOf <$> dominantCandidate (List.filter (fun c => fc_depth c =? minimumDepth) cs)
  end.

Definition select_fields (candidates : list (bytes * list fieldCandidate)) : schema :=
  omap (fun p => t ← select_candidate p.2; Some (p.1, t)) candidates.

Section Schema.
Context `{Unicode}.

(** What one field adds: a candidate, or an embedded type to visit. *)
Definition visit_field (depth : Z) (f : gofield) (st : list (bytes * list fieldCandidate) * list (gotype * Z)) :
  list (bytes * list fieldCandidate) * list (gotype * Z) :=
  let '(GoField fieldName anonymous exported tag fieldType) := f in
  let '(candidates, queue) := st in
  let embeddedBase := match fieldType with GoPointer t => t | t => t end in
  if (if anonymous then negb exported && negb (is_struct embeddedBase) else negb exported) then st
  else if tag == sbytes "-" then st
  else
    let name := before_comma tag in
    let name := if (name != []) && negb (validJSONTag name) then [] else name in
    let tagged := name != [] in
    let name := if name == [] then fieldName else name in
    if tagged || negb anonymous || negb (is_struct embeddedBase)
    then (add_candidate name (MkCandidate fieldType depth tagged) candidates, queue)
    else (candidates, queue ++ [(embeddedBase, depth + 1)]).

(** The loop over the queue; [visited] is [visitedDepth]. *)
Fixpoint visit_types (fuel : nat) (queue : list (gotype * Z)) (visited : list (bytes * Z))
  (candidates : list (bytes * list fieldCandidate)) : list (bytes * list fieldCandidate) :=
  match fuel, queue with
  | S fuel, (GoStruct name fields, depth) :: queue =>
      let previous := assoc name visited in
      if match previous with Some p => p <? depth | None => false end
      then visit_types fuel queue visited candidates
      else
        let visited := if match previous with Some p => depth <? p | None => true end
                       then (name, depth) :: visited else visited in
        let '(candidates, queue) := foldl (fun st f => visit_field depth f st) (candidates, queue) fields in
        visit_types fuel queue visited candidates
  | _, _ => candidates
  end.

(** The structs a type is made of: no more than this many types are visited. *)
Fixpoint type_size (t : gotype) : nat :=
  match t with
  | GoPointer t | GoSlice t | GoArray _ t | GoMap t => S (type_size t)
  | GoStruct _ fields =>
      S ((fix go (fs : list gofield) : nat :=
            match fs with
            | [] => O
            | GoField _ _ _ _ t :: fs => (type_size t + go fs)%nat
            end) fields)
  | _ => 1%nat
  end.

Definition buildStructSchema (root : gotype) : schema :=
  select_fields (visit_types (type_size root) [(root, 0)] [] []).

(** [foldedMatch]: the only field that equals the member up to case. *)
Definition foldedMatch (fields : schema) (member : bytes) : option bytes :=
  match List.filter (fun p => EqualFold p.1 member) fields with
  | [(name, _)] => Some name
  | _ => None
  end.

(** [concreteJSONType]: the type behind pointers, or [None] for a type that
    decodes itself. *)
Fixpoint concreteJSONType (t : gotype) : option gotype :=
  match t with
  | GoRaw => None
  | GoPointer t => concreteJSONType t
  | t => Some t
  end.

(** The schema when the members are validated, and the type of a map's elements. *)
Definition objectExpectation (expected : option gotype) : option schema * option gotype :=
  match expected ≫= concreteJSONType with
  | Some (GoStruct name fields) => (Some (buildStructSchema (GoStruct name fields)), None)
  | Some (GoMap elem) => (None, Some elem)
  | _ => (None, None)
  end.

Definition arrayElementType (expected : option gotype) : option gotype :=
  match expected ≫= concreteJSONType with
  | Some (GoArray _ elem) | Some (GoSlice elem) => Some elem
  | _ => None
  end.

(** ** The walk *)

(** [Some] is a member that is accepted, with the type of its value. *)
Definition member_type (fields : option schema) (elem : option gotype) (seen : list bytes) (member : bytes) :
  result strict_err (option gotype) :=
  match fields with
  | None => Ok elem
  | Some fields =>
      match assoc member fields with
      | Some t => Ok (Some t)
      | None =>
          match foldedMatch fields member with
          | Some canonical => if bool_decide (canonical ∈ seen) then Err ErrDuplicateMember
                              else Err ErrUnknownMember
          | None => Err ErrUnknownMember
          end
      end
  end.

Definition walkClose (delimiter : byte) (d : decoder) : result strict_err decoder :=
  match Token d with
  | Tok (Delim closing) d' =>
      if ((delimiter == "{"%byte) && (closing != "}"%byte)) || ((delimiter == "["%byte) && (closing != "]"%byte))
      then Err ErrInvalidJSON else Ok d'
  | _ => Err ErrInvalidJSON
  end.

(** [walkValue] and its two loops.  [None] is a walk that ran out of fuel. *)
Fixpoint walkValue (fuel : nat) (t : token) (depth : Z) (expected : option gotype) (d : decoder) :
  option (result strict_err decoder) :=
  match fuel with
  | O => None
  | S fuel =>
      match t with
      | Delim c =>
          if (c != "{"%byte) && (c != "["%byte) then Some (Err ErrInvalidJSON)
          else if maximumDepth <=? depth then Some (Err ErrTooDeep)
          else
            r ← (if c == "{"%byte then
                   let '(fields, elem) := objectExpectation expected in walkMembers fuel depth fields elem [] d
                 else walkItems fuel depth (arrayElementType expected) d);
            match r with
            | Err e => Some (Err e)
            | Ok d => Some (walkClose c d)
            end
      | _ => Some (Ok d)
      end
  end
with walkMembers (fuel : nat) (depth : Z) (fields : option schema) (elem : option gotype) (members : list bytes)
  (d : decoder) : option (result strict_err decoder) :=
  match fuel with
  | O => None
  | S fuel =>
      if More d then
        match Token d with
        | Tok (TokString member) d =>
            if bool_decide (member ∈ members) then Some (Err ErrDuplicateMember)
            else match member_type fields elem members member with
            | Err e => Some (Err e)
            | Ok memberType =>
                match Token d with
                | Tok t d =>
                    r ← walkValue fuel t (depth + 1) memberType d;
                    match r with
                    | Err e => Some (Err e)
                    | Ok d => walkMembers fuel depth fields elem (member :: members) d
                    end
                | _ => Some (Err ErrInvalidJSON)
                end
            end
        | _ => Some (Err ErrInvalidJSON)
        end
      else Some (Ok d)
  end
with walkItems (fuel : nat) (depth : Z) (elem : option gotype) (d : decoder) :
  option (result strict_err decoder) :=
  match fuel with
  | O => None
  | S fuel =>
      if More d then
        match Token d with
        | Tok t d =>
            r ← walkValue fuel t (depth + 1) elem d;
            match r with
            | Err e => Some (Err e)
            | Ok d => walkItems fuel depth elem d
            end
        | _ => Some (Err ErrInvalidJSON)
        end
      else Some (Ok d)
  end.

(** Fuel for a body. *)
Definition body_fuel (body : bytes) : nat := (2 * length body + 2)%nat.

(** [None] does not happen. *)
Definition validateStructure (body : bytes) (target : gotype) : option (result strict_err unit) :=
  match Token (NewDecoder body) with
  | Tok first d =>
      r ← walkValue (body_fuel body) first 0 (Some target) d;
      match r with
      | Err e => Some (Err e)
      | Ok d => match Token d with
                | TokEOF => Some (Ok tt)
                | TokError => Some (Err ErrInvalidJSON)
                | Tok _ _ => Some (Err ErrTrailingData)
                end
      end
  | _ => Some (Err ErrInvalidJSON)
  end.

(** ** Storing a value *)

Inductive assign_err := UnknownField | TypeMismatch.

(** The pointers of a type, and the type behind them. *)
Fixpoint strip_pointers (t : gotype) : nat * gotype :=
  match t with
  | GoPointer t => let '(n, base) := strip_pointers t in (S n, base)
  | t => (O, t)
  end.

Definition wrap_pointers (n : nat) (v : goval) : goval := Nat.iter n VPointer v.

(** [strconv.ParseInt(text, 10, 64)] of a JSON number. *)
Definition number_int64 (text : bytes) : option Z :=
  match text with
  | c :: digits =>
      if c == "-"%byte then n ← parse_digits 10 (2 ^ 63) 0 digits; Some (- n)
      else parse_digits 10 (2 ^ 63 - 1) 0 text
  | [] => None
  end.

(** The field of a member: the one of its name, or else the first that equals it up
    to case.  The fields [encoding/json] knows are those of the schema. *)
Definition json_field (fields : schema) (member : bytes) : option (bytes * gotype) :=
  match assoc member fields with
  | Some t => Some (member, t)
  | None => head (List.filter (fun p => EqualFold p.1 member) fields)
  end.

(** [Decode] of a value into a zero target of a type, unknown fields disallowed; the
    first error in the order of the text is the one reported.  [null] leaves what it
    is stored in as it was. *)
Fixpoint assign (t : gotype) (v : jtree) {struct v} : result assign_err goval :=
  let '(pointers, base) := strip_pointers t in
  let stored :=
    match base, v with
    | GoRaw, v => Ok (VRaw v)
    | GoString, TreeString s => Ok (VString s)
    | GoBool, TreeBool b => Ok (VBool b)
    | GoInt64, TreeNumber text => match number_int64 text with Some n => Ok (VInt n) | None => Err TypeMismatch end
    | GoSlice elem, TreeArray items =>
        match (fix go (items : list jtree) : result assign_err (list goval) :=
                 match items with
                 | [] => Ok []
                 | v :: items =>
                     match assign elem v with
                     | Err e => Err e
                     | Ok x => match go items with Ok xs => Ok (x :: xs) | Err e => Err e end
                     end
                 end) items with
        | Ok xs => Ok (VList xs)
        | Err e => Err e
        end
    | GoArray size elem, TreeArray items =>
        match (fix go (n : nat) (items : list jtree) {struct items} : result assign_err (list goval) :=
                 match items, n with
                 | [], _ | _, O => Ok (repeat VZero n)
                 | v :: items, S n =>
                     match assign elem v with
                     | Err e => Err e
                     | Ok x => match go n items with Ok xs => Ok (x :: xs) | Err e => Err e end
                     end
                 end) size items with
        | Ok xs => Ok (VList xs)
        | Err e => Err e
        end
    | GoMap elem, TreeObject members =>
        match (fix go (members : list (bytes * jtree)) : result assign_err (list (bytes * goval)) :=
                 match members with
                 | [] => Ok []
                 | (k, v) :: members =>
                     match assign elem v with
                     | Err e => Err e
                     | Ok x => match go members with Ok xs => Ok ((k, x) :: xs) | Err e => Err e end
                     end
                 end) members with
        | Ok xs => Ok (VMap xs)
        | Err e => Err e
        end
    | GoStruct name fields, TreeObject members =>
        let known := buildStructSchema (GoStruct name fields) in
        match (fix go (members : list (bytes * jtree)) : result assign_err (list (bytes * goval)) :=
                 match members with
                 | [] => Ok []
                 | (k, v) :: members =>
                     match json_field known k with
                     | None => Err UnknownField
                     | Some (field, t) =>
                         match assign t v with
                         | Err e => Err e
                         | Ok x => match go members with Ok xs => Ok ((field, x) :: xs) | Err e => Err e end
                         end
                     end
                 end) members with
        | Ok xs => Ok (VStruct xs)
        | Err e => Err e
        end
    | _, TreeNull => Ok VZero
    | _, _ => Err TypeMismatch
    end in
  match stored, v with
  | Ok x, TreeNull => Ok (if (0 <? Z.of_nat pointers) then VZero else x)
  | Ok x, _ => Ok (wrap_pointers pointers x)
  | Err e, _ => Err e
  end.

(** ** [Decode] *)

(** A reader: the bytes it gives before it ends, and whether it ends with an error
    instead of [io.EOF]. *)
Record reader := MkReader { rd_content : bytes; rd_fails : bool }.

(** [io.ReadAll(io.LimitReader(reader, limit))]: the reader is not asked for more
    once the limit is reached. *)
Definition ReadAllLimit (r : reader) (limit : Z) : option bytes :=
  if (len (rd_content r) <? limit) && rd_fails r then None else Some (take (Z.to_nat limit) (rd_content r)).

(** The typed decoding after the structure was validated. *)
Definition decodeTyped (body : bytes) (target : gotype) : result strict_err goval :=
  match Token (NewDecoder body) with
  | Tok first d =>
      match readValue (body_fuel body) first d with
      | None => Err ErrInvalidJSON
      | Some (tree, d) =>
          match assign target tree with
          | Err UnknownField => Err ErrUnknownMember
          | Err TypeMismatch => Err ErrInvalidJSON
          | Ok v =>
              match Token d with
              | TokEOF => Ok v
              | TokError => Err ErrInvalidJSON
              | Tok t d => match readValue (body_fuel body) t d with
                           | Some _ => Err ErrTrailingData
                           | None => Err ErrInvalidJSON
                           end
              end
          end
      end
  | _ => Err ErrInvalidJSON
  end.

(** [Decode]; a reader that is nil and a target that is not a pointer to a type are
    [None]. *)
Definition Decode (r : option reader) (maxBytes : Z) (target : option gotype) : option (result strict_err goval) :=
  match r, target with
  | Some r, Some target =>
      if (maxBytes <=? 0) || (maximumBodyBytes <? maxBytes) then Some (Err ErrInvalidArgument)
      else match ReadAllLimit r (maxBytes + 1) with
      | None => Some (Err ErrInvalidJSON)
      | Some body =>
          if maxBytes <? len body then Some (Err ErrTooLarge)
          else if negb (utf8_Valid body) then Some (Err ErrInvalidUTF8)
          else
            checked ← validateStructure body target;
            match checked with
            | Err e => Some (Err e)
            | Ok _ => Some (decodeTyped body target)
            end
      end
  | _, _ => Some (Err ErrInvalidArgument)
  end.
End Schema.

(** ** Structs of strings *)

(** What [json.Marshal] makes of a struct of strings. *)
Definition string_struct (names values : list bytes) : json := JObj (zip names (map JStr values)).

(** A struct whose exported string fields have the given tags. *)
Definition string_target (names : list bytes) : gotype :=
  GoStruct [] (map (fun n => GoField n false true n GoString) names).

(** The value of a string field of a decoded struct; a member that is absent or
    null leaves it empty. *)
Definition field_string (v : goval) (name : bytes) : bytes :=
  match v with
  | VStruct members => match assoc name members with Some (VString s) => s | _ => [] end
  | _ => []
  end.

(** [Decode] of a body into such a struct: the values of its fields. *)
Definition decode_strings `{Unicode} (names : list bytes) (maxBytes : Z) (body : bytes) : option (list bytes) :=
  match Decode (Some (MkReader body false)) maxBytes (Some (string_target names)) with
  | Some (Ok v) => Some (map (field_string v) names)
  | _ => None
  end.
