(* ===== verification/StrictJsonTheorems.v ===== *)
(** Properties of the strict decoder. *)
From Stdlib Require Import ZArith Lia Strings.Byte.
From stdpp Require Import base gmap list strings numbers option.
From S2P Require Import Prelude GoStd GoTime Text GoJson StrictJson.

#[local] Open Scope go_scope.

(** ** The cases of the repository's tests *)

(** A text with its quotes written as apostrophes. *)
Definition quoted (s : string) : bytes := map (fun c => if c == x27 then x22 else c) (sbytes s).

Section Examples.

#[local] Instance sample_unicode : Unicode :=
  {| letter_table _ := false; digit_table _ := false; fold_table _ _ := false |}.

Definition sample_field (name : string) (t : gotype) : gofield := GoField (sbytes name) false true (sbytes name) t.

Definition sample_request : gotype := GoStruct (sbytes "request")
  [sample_field "name" GoString;
   sample_field "nested" (GoStruct (sbytes "nested") [sample_field "enabled" GoBool])].

Definition sample_embedded : gotype := GoStruct (sbytes "ambiguous")
  [GoField (sbytes "left") true false [] (GoStruct (sbytes "left") [GoField (sbytes "Shared") false true [] GoString]);
   GoField (sbytes "right") true false [] (GoStruct (sbytes "right") [GoField (sbytes "Shared") false true [] GoString])].

Definition outcome (t : gotype) (s : string) : option (result strict_err goval) :=
  Decode (Some (MkReader (quoted s) false)) maximumBodyBytes (Some t).

Example decode_refuses :
  outcome sample_request "{'name':'ok','SECRET':true}" = Some (Err ErrUnknownMember) /\
  outcome sample_request "{'name':'first','name':'second'}" = Some (Err ErrDuplicateMember) /\
  outcome sample_request "{'name':'ok','nested':{'enabled':true,'enabled':false}}" = Some (Err ErrDuplicateMember) /\
  outcome sample_request "{'name':'first'}{'name':'second'}" = Some (Err ErrTrailingData) /\
  outcome sample_request "[[[[[[[[[[[[[[[[[0]]]]]]]]]]]]]]]]]" = Some (Err ErrTooDeep) /\
  outcome sample_request "{'Name':'value'}" = Some (Err ErrUnknownMember) /\
  outcome sample_request "{'name':'first','NAME':'second'}" = Some (Err ErrDuplicateMember) /\
  outcome sample_request "{'nested':{'enabled':true,'ENABLED':false}}" = Some (Err ErrDuplicateMember) /\
  outcome sample_request "{'name':'a',}" = Some (Err ErrInvalidJSON) /\
  outcome sample_request "{'name':01}" = Some (Err ErrInvalidJSON) /\
  outcome sample_request "{'name':1}" = Some (Err ErrInvalidJSON) /\
  outcome sample_embedded "{'Shared':'canary'}" = Some (Err ErrUnknownMember) /\
  outcome GoString "'value' true" = Some (Err ErrTrailingData).
Proof. vm_compute. repeat split. Qed.

Example decode_accepts :
  outcome sample_request " {'name' : 'a\u0041\ud83d\ude00\n', 'nested':{'enabled':true}} " =
    Some (Ok (VStruct [(sbytes "name", VString ([x61; x41; xf0; x9f; x98; x80; x0a]));
                       (sbytes "nested", VStruct [(sbytes "enabled", VBool true)])])) /\
  outcome GoRaw "[[[[[[[[[[[[[[[[0]]]]]]]]]]]]]]]]" <> Some (Err ErrTooDeep) /\
  outcome GoString "'value'" = Some (Ok (VString (sbytes "value"))) /\
  outcome (GoSlice GoInt64) "[1,-2, 9223372036854775807]" =
    Some (Ok (VList [VInt 1; VInt (-2); VInt 9223372036854775807])).
Proof. vm_compute. repeat split. discriminate. Qed.
End Examples.

(** ** Every token consumes input *)

Lemma skip_space_length l : (length (skip_space l) <= length l)%nat.
Proof. induction l as [|c l IH]; cbn; [lia|]. case_match; cbn; lia. Qed.

Lemma span_digits_length l ds rest : span_digits l = (ds, rest) -> length l = (length ds + length rest)%nat.
Proof.
  revert ds rest. induction l as [|c l IH]; intros ds rest Hs; cbn in Hs; [by simplify_eq|].
  case_match; [|by simplify_eq]. destruct (span_digits l) as [ds' rest']. simplify_eq. cbn.
  rewrite (IH _ _ eq_refl). lia.
Qed.

Lemma scan_string_length l s rest : scan_string l = Some (s, rest) -> (length rest < length l)%nat.
Proof.
  remember (length l) as n eqn:Hn. revert l Hn s rest.
  induction (lt_wf n) as [n _ IH]. intros [|c l] -> s rest Hs; [done|]. cbn [scan_string length] in *.
  assert (forall l' s rest, (length l' <= length l)%nat -> scan_string l' = Some (s, rest) ->
    (length rest < S (length l))%nat) as Hrec.
  { intros l' s' rest' Hl Hs'. pose proof (IH (length l') ltac:(lia) l' eq_refl s' rest' Hs'). lia. }
  clear IH.
  assert (forall l' f s rest, (length l' <= length l)%nat ->
    ('(s, rest) ← scan_string l'; Some (f s : bytes, rest : bytes)) = Some (s, rest) -> (length rest < S (length l))%nat) as Hbind.
  { intros l' f s' rest' Hl Hb. destruct (scan_string l') as [[s0 rest0]|] eqn:E; cbn in Hb; [|done]. simplify_eq.
    eapply Hrec; eauto. }
  case_match; [simplify_eq; lia|]. case_match.
  - repeat (case_match; try done; cbn [length] in * ); simplify_eq; (eapply (Hbind _ (fun s => _ ++ s)) in Hs || eapply (Hbind _ (cons _)) in Hs); cbn [length] in *; lia.
  - case_match; [done|]. eapply (Hbind _ (cons _)) in Hs; lia.
Qed.

Lemma scan_number_length l n rest : scan_number l = Some (n, rest) -> (length rest < length l)%nat.
Proof.
  assert (forall l i r, scan_int l = Some (i, r) -> (length r < length l)%nat) as Hint.
  { intros [|c l'] i r Hi; [done|]. unfold scan_int in Hi. case_match; [simplify_eq; cbn; lia|].
    destruct (span_digits (c :: l')) as [ds r'] eqn:E. apply span_digits_length in E.
    destruct ds; [done|]. simplify_eq. cbn [length] in *. lia. }
  assert (forall l i r, scan_fraction l = Some (i, r) -> (length r <= length l)%nat) as Hfrac.
  { intros [|c l'] i r Hi; unfold scan_fraction in Hi; [by simplify_eq|]. case_match; [|by simplify_eq].
    destruct (span_digits l') as [ds r'] eqn:E. apply span_digits_length in E.
    destruct ds; [done|]. simplify_eq. cbn [length] in *. lia. }
  assert (forall l i r, scan_exponent l = Some (i, r) -> (length r <= length l)%nat) as Hexp.
  { intros [|c l'] i r Hi; unfold scan_exponent in Hi; [by simplify_eq|]. case_match; [|by simplify_eq].
    destruct (match l' with [] => _ | _ => _ end) as [sign l2] eqn:Es.
    assert (length l2 <= length l')%nat by (repeat case_match; simplify_eq; cbn; lia).
    destruct (span_digits l2) as [ds r'] eqn:E. apply span_digits_length in E.
    destruct ds; [done|]. simplify_eq. cbn [length] in *. lia. }
  unfold scan_number. intros Hs.
  destruct (match l with [] => _ | _ => _ end) as [sign l0] eqn:Es.
  assert (length l0 <= length l)%nat by (repeat case_match; simplify_eq; cbn; lia).
  destruct (scan_int l0) as [[i l1]|] eqn:E1; cbn in Hs; [|done].
  destruct (scan_fraction l1) as [[f l2]|] eqn:E2; cbn in Hs; [|done].
  destruct (scan_exponent l2) as [[e l3]|] eqn:E3; cbn in Hs; [|done]. simplify_eq.
  apply Hint in E1. apply Hfrac in E2. apply Hexp in E3. lia.
Qed.

Lemma scan_scalar_length l t rest : scan_scalar l = Some (t, rest) -> (length rest < length l)%nat.
Proof.
  unfold scan_scalar. destruct l as [|c l]; [done|]. intros Hs.
  repeat (case_match; simplify_eq; try (cbn [drop length]; rewrite ?length_drop; lia)).
  - destruct (scan_string l) as [[s r]|] eqn:E; cbn in Hs; [|done]. simplify_eq. apply scan_string_length in E. cbn. lia.
  - destruct (scan_number (c :: l)) as [[s r]|] eqn:E; cbn in Hs; [|done]. simplify_eq. by apply scan_number_length in E.
Qed.

Lemma token_turn_consumes again d t d' :
  (forall d t d', again d = Tok t d' -> (length (dec_rest d') < length (dec_rest d))%nat) ->
  token_turn again d = Tok t d' -> (length (dec_rest d') < length (dec_rest d))%nat.
Proof.
  intros Hagain Ht. unfold token_turn, open_delim, close_delim in Ht. pose proof (skip_space_length (dec_rest d)) as Hs.
  destruct (skip_space (dec_rest d)) as [|c r] eqn:E; [done|]. cbn [length] in Hs.
  repeat (case_match; try done); simplify_eq; cbn [dec_rest] in *;
    repeat match goal with
    | A : again _ = Tok _ _ |- _ => apply Hagain in A; cbn [dec_rest] in A
    | A : scan_string _ = Some _ |- _ => apply scan_string_length in A
    | A : scan_scalar _ = Some _ |- _ => apply scan_scalar_length in A; cbn [length] in A
    end; lia.
Qed.

Lemma Token_consumes d t d' : Token d = Tok t d' -> (length (dec_rest d') < length (dec_rest d))%nat.
Proof. apply token_turn_consumes. intros ? ? ?. apply token_turn_consumes. done. Qed.

(** ** The walk ends *)
Section Walk.
Context `{Unicode}.

Lemma walk_shrinks fuel :
  (forall t depth ty d d1, walkValue fuel t depth ty d = Some (Ok d1) -> (length (dec_rest d1) <= length (dec_rest d))%nat) /\
  (forall depth fields elem seen d d1, walkMembers fuel depth fields elem seen d = Some (Ok d1) ->
     (length (dec_rest d1) <= length (dec_rest d))%nat) /\
  (forall depth elem d d1, walkItems fuel depth elem d = Some (Ok d1) -> (length (dec_rest d1) <= length (dec_rest d))%nat).
Proof.
  induction fuel as [|fuel (IHv & IHm & IHi)]; [by split_and!|]. split_and!.
  - intros t depth ty d d1 Hw. cbn [walkValue] in Hw. destruct t as [c| | | |]; try by simplify_eq.
    case_match; [done|]. case_match; [done|].
    destruct (if c == "{"%byte then _ else _) as [[d2|e]|] eqn:E; cbn in Hw; [|done..]. simplify_eq.
    assert (length (dec_rest d2) <= length (dec_rest d))%nat.
    { case_match; [|by eapply IHi]. destruct (objectExpectation ty). by eapply IHm. }
    unfold walkClose in Hw. destruct (Token d2) as [| |[] d3] eqn:Et; try done. case_match; [done|]. simplify_eq.
    apply Token_consumes in Et. lia.
  - intros depth fields elem seen d d1 Hw. cbn [walkMembers] in Hw. case_match; [|by simplify_eq].
    destruct (Token d) as [| |[|key| | |] d2] eqn:Et; try done. case_match; [done|]. case_match; [|done].
    destruct (Token d2) as [| |t d3] eqn:Et2; try done.
    destruct (walkValue _ _ _ _ _) as [[d4|e]|] eqn:Ev; cbn in Hw; try done.
    apply Token_consumes in Et, Et2. apply IHv in Ev. apply IHm in Hw. lia.
  - intros depth elem d d1 Hw. cbn [walkItems] in Hw. case_match; [|by simplify_eq].
    destruct (Token d) as [| |t d2] eqn:Et; try done.
    destruct (walkValue _ _ _ _ _) as [[d4|e]|] eqn:Ev; cbn in Hw; try done.
    apply Token_consumes in Et. apply IHv in Ev. apply IHi in Hw. lia.
Qed.

(** Twice the bytes left, and two, are enough. *)
Lemma walk_ends fuel :
  (forall t depth ty d, (2 * length (dec_rest d) + 2 <= fuel)%nat -> is_Some (walkValue fuel t depth ty d)) /\
  (forall depth fields elem seen d, (2 * length (dec_rest d) + 1 <= fuel)%nat ->
     is_Some (walkMembers fuel depth fields elem seen d)) /\
  (forall depth elem d, (2 * length (dec_rest d) + 1 <= fuel)%nat -> is_Some (walkItems fuel depth elem d)).
Proof.
  induction fuel as [|fuel (IHv & IHm & IHi)]; [split_and!; intros; lia|]. split_and!.
  - intros t depth ty d Hf. cbn [walkValue]. destruct t as [c| | | |]; eauto. case_match; eauto. case_match; eauto.
    assert (is_Some (if c == "{"%byte then
      let '(fields, elem) := objectExpectation ty in walkMembers fuel depth fields elem [] d
      else walkItems fuel depth (arrayElementType ty) d)) as [r ->].
    { case_match; [destruct (objectExpectation ty); apply IHm; lia|apply IHi; lia]. }
    cbn. case_match; eauto.
  - intros depth fields elem seen d Hf. cbn [walkMembers]. case_match; eauto.
    destruct (Token d) as [| |[|key| | |] d2] eqn:Et; eauto. case_match; eauto. case_match; eauto.
    destruct (Token d2) as [| |t d3] eqn:Et2; eauto. apply Token_consumes in Et, Et2.
    destruct (IHv t (depth + 1) a d3) as [[d4|e] Hv]; [lia|..]; rewrite Hv; cbn; eauto.
    apply (proj1 (walk_shrinks _)) in Hv. apply IHm. lia.
  - intros depth elem d Hf. cbn [walkItems]. case_match; eauto.
    destruct (Token d) as [| |t d2] eqn:Et; eauto. apply Token_consumes in Et.
    destruct (IHv t (depth + 1) elem d2) as [[d4|e] Hv]; [lia|..]; rewrite Hv; cbn; eauto.
    apply (proj1 (walk_shrinks _)) in Hv. apply IHi. lia.
Qed.

Lemma validate_ends body target : is_Some (validateStructure body target).
Proof.
  unfold validateStructure. destruct (Token (NewDecoder body)) as [| |t d] eqn:Et; eauto.
  apply Token_consumes in Et. cbn in Et.
  destruct (proj1 (walk_ends (body_fuel body)) t 0 (Some target) d) as [r ->]; [unfold body_fuel; lia|].
  cbn. destruct r; [|eauto]. destruct (Token _); eauto.
Qed.

(** [strict_decode_terminates]: decoding always returns: the walk over a body
    stops after at most two steps for each of its bytes. *)
Theorem strict_decode_terminates r maxBytes target : is_Some (Decode r maxBytes target).
Proof.
  unfold Decode. destruct r as [r|], target as [t|]; eauto. case_match; eauto.
  destruct (ReadAllLimit _ _) as [body|]; eauto. case_match; eauto. case_match; eauto.
  destruct (validate_ends body t) as [[]Hv]; rewrite Hv; cbn; eauto.
Qed.
End Walk.

(** ** What is accepted *)

(** The nesting of a value. *)
Fixpoint tree_depth (v : jtree) : Z :=
  match v with
  | TreeArray items =>
      1 + (fix go (l : list jtree) : Z := match l with [] => 0 | v :: l => Z.max (tree_depth v) (go l) end) items
  | TreeObject members =>
      1 + (fix go (l : list (bytes * jtree)) : Z :=
             match l with [] => 0 | (_, v) :: l => Z.max (tree_depth v) (go l) end) members
  | _ => 0
  end.

Lemma items_depth items bound : 0 <= bound -> Forall (fun v => tree_depth v <= bound) items ->
  tree_depth (TreeArray items) <= 1 + bound.
Proof. intros Hb Hall. cbn. induction Hall as [|v l Hv _ IH]; lia. Qed.

Lemma members_depth members bound : 0 <= bound -> Forall (fun m => tree_depth m.2 <= bound) members ->
  tree_depth (TreeObject members) <= 1 + bound.
Proof. intros Hb Hall. cbn. induction Hall as [|[k v] l Hv _ IH]; cbn in *; lia. Qed.

Section Accepted.
Context `{Unicode}.

(** A member of an object of a struct is the exact name of a field; its value has
    the field's type. *)
Definition accepts_member (fields : option schema) (elem : option gotype) (member : bytes) (t : option gotype) : Prop :=
  match fields with
  | None => t = elem
  | Some fields => exists field, assoc member fields = Some field /\ t = Some field
  end.

(** No object of the value repeats a member, and the members of objects that are
    decoded into structs are exactly names of fields. *)
Inductive exact_tree : option gotype -> jtree -> Prop :=
| exact_null ty : exact_tree ty TreeNull
| exact_bool ty b : exact_tree ty (TreeBool b)
| exact_number ty n : exact_tree ty (TreeNumber n)
| exact_string ty s : exact_tree ty (TreeString s)
| exact_array ty items : Forall (exact_tree (arrayElementType ty)) items -> exact_tree ty (TreeArray items)
| exact_object ty members :
    NoDup members.*1 ->
    Forall (fun m => exists t,
      accepts_member (objectExpectation ty).1 (objectExpectation ty).2 m.1 t /\ exact_tree t m.2) members ->
    exact_tree ty (TreeObject members).

Lemma member_type_accepts fields elem seen member t :
  member_type fields elem seen member = Ok t -> accepts_member fields elem member t.
Proof.
  unfold member_type, accepts_member. destruct fields as [fields|]; [|by intros [= ->]].
  destruct (assoc member fields) as [field|]; [|repeat case_match; done]. intros [= <-]. eauto.
Qed.

Lemma close_agrees c c' d d1 d2 : (c = "{"%byte /\ c' = "}"%byte) \/ (c = "["%byte /\ c' = "]"%byte) ->
  walkClose c d = Ok d1 -> closes c' d = Some d2 -> d2 = d1.
Proof.
  unfold walkClose, closes. intros Hc Hw Hr. destruct (Token d) as [| |[] d3]; try done.
  repeat (case_match; try done). congruence.
Qed.

(** The walk and the value the decoder reads go over the same tokens. *)
Lemma walk_exact fuel :
  (forall t depth ty d d1 g v d2, 0 <= depth <= maximumDepth ->
     walkValue fuel t depth ty d = Some (Ok d1) -> readValue g t d = Some (v, d2) ->
     d2 = d1 /\ exact_tree ty v /\ depth + tree_depth v <= maximumDepth) /\
  (forall depth fields elem seen d d1 g ms d2, 0 <= depth < maximumDepth ->
     walkMembers fuel depth fields elem seen d = Some (Ok d1) -> readMembers g d = Some (ms, d2) ->
     d2 = d1 /\ NoDup ms.*1 /\ Forall (fun m => m.1 ∉ seen) ms /\
     Forall (fun m => exists t, accepts_member fields elem m.1 t /\ exact_tree t m.2) ms /\
     Forall (fun m => tree_depth m.2 <= maximumDepth - (depth + 1)) ms) /\
  (forall depth elem d d1 g items d2, 0 <= depth < maximumDepth ->
     walkItems fuel depth elem d = Some (Ok d1) -> readItems g d = Some (items, d2) ->
     d2 = d1 /\ Forall (exact_tree elem) items /\
     Forall (fun v => tree_depth v <= maximumDepth - (depth + 1)) items).
Proof.
  induction fuel as [|fuel (IHv & IHm & IHi)]; [by split_and!|]. split_and!.
  - intros t depth ty d d1 [|g] v d2 Hd Hw Hr; [done|]. cbn [walkValue] in Hw. cbn [readValue] in Hr.
    destruct t as [c|s|n|b|]; cbn in Hr; simplify_eq; try (split_and!; [done|constructor|cbn; lia]).
    case_top Hw; [done|]. case_top Hw; [done|]. bool_props. assert (0 <= depth < maximumDepth) as Hd' by lia.
    destruct (decide (c = "{"%byte)) as [->|Hc].
    + rewrite bool_decide_eq_true_2 in Hw, Hr by done.
      destruct (objectExpectation ty) as [fields elem] eqn:Eo.
      destruct (walkMembers _ _ _ _ _ _) as [[d3|e]|] eqn:Em; cbn in Hw; try done.
      destruct (readMembers g d) as [[ms d4]|] eqn:Er; cbn in Hr; [|done].
      destruct (closes _ d4) as [d5|] eqn:Ec; cbn in Hr; [|done]. simplify_eq.
      destruct (IHm _ _ _ _ _ _ _ _ _ Hd' Em Er) as (-> & Hnd & _ & Hex & Hdep).
      split_and!; [by eapply (close_agrees _ _ d3); [by (left + right)|..]| |].
      * constructor; [done|]. by rewrite Eo.
      * pose proof (members_depth ms (maximumDepth - (depth + 1)) ltac:(lia) Hdep). lia.
    + rewrite (bool_decide_eq_false_2 (c = "{"%byte)) in Hw, Hr by done. case_top Hr; [|done]. bool_props. subst c.
      destruct (walkItems _ _ _ _) as [[d3|e]|] eqn:Em; cbn in Hw; try done.
      destruct (readItems g d) as [[ms d4]|] eqn:Er; cbn in Hr; [|done].
      destruct (closes _ d4) as [d5|] eqn:Ec; cbn in Hr; [|done]. simplify_eq.
      destruct (IHi _ _ _ _ _ _ _ Hd' Em Er) as (-> & Hex & Hdep).
      split_and!; [by eapply (close_agrees _ _ d3); [by (left + right)|..]|by constructor|].
      pose proof (items_depth ms (maximumDepth - (depth + 1)) ltac:(lia) Hdep). lia.
  - intros depth fields elem seen d d1 [|g] ms d2 Hd Hw Hr; [done|]. cbn [walkMembers] in Hw. cbn [readMembers] in Hr.
    destruct (More d); [|simplify_eq; split_and!; by constructor].
    destruct (Token d) as [| |[|key| | |] d3]; try done. case_top Hw; [done|]. bool_props.
    destruct (member_type fields elem seen key) as [ty|] eqn:Emt; [|done].
    destruct (Token d3) as [| |t d4]; try done.
    destruct (walkValue _ _ _ _ _) as [[d5|e]|] eqn:Ev; cbn in Hw; try done.
    destruct (readValue g t d4) as [[v d6]|] eqn:Erv; cbn in Hr; [|done].
    destruct (readMembers g d6) as [[rest d7]|] eqn:Erm; cbn in Hr; [|done]. simplify_eq.
    destruct (IHv _ (depth + 1) _ _ _ _ _ _ ltac:(lia) Ev Erv) as (-> & Hex & Hdep).
    destruct (IHm _ _ _ _ _ _ _ _ _ Hd Hw Erm) as (-> & Hnd & Hns & Hall & Hdeps).
    split_and!; [done|..].
    + cbn. constructor; [|done]. intros Hin. apply list_elem_of_fmap in Hin as (m & Hk & Hin).
      rewrite Forall_forall in Hns. apply list_elem_of_In in Hin. apply Hns in Hin.
      apply Hin. rewrite <- Hk. left.
    + constructor; [done|]. eapply List.Forall_impl; [|exact Hns]. intros m Hm Hin. apply Hm. by right.
    + constructor; [|done]. exists ty. split; [by eapply member_type_accepts|done].
    + constructor; [cbn; lia|done].
  - intros depth elem d d1 [|g] items d2 Hd Hw Hr; [done|]. cbn [walkItems] in Hw. cbn [readItems] in Hr.
    destruct (More d); [|simplify_eq; split_and!; by constructor].
    destruct (Token d) as [| |t d3]; try done.
    destruct (walkValue _ _ _ _ _) as [[d5|e]|] eqn:Ev; cbn in Hw; try done.
    destruct (readValue g t d3) as [[v d6]|] eqn:Erv; cbn in Hr; [|done].
    destruct (readItems g d6) as [[rest d7]|] eqn:Erm; cbn in Hr; [|done]. simplify_eq.
    destruct (IHv _ (depth + 1) _ _ _ _ _ _ ltac:(lia) Ev Erv) as (-> & Hex & Hdep).
    destruct (IHi _ _ _ _ _ _ _ Hd Hw Erm) as (-> & Hall & Hdeps).
    split_and!; [done|by constructor|constructor; [lia|done]].
Qed.

(** The body is one value and nothing else. *)
Definition reads_as (body : bytes) (v : jtree) : Prop :=
  exists first d d', Token (NewDecoder body) = Tok first d /\
    readValue (body_fuel body) first d = Some (v, d') /\ Token d' = TokEOF.

(** C28 (strict_decode_exact): a body that is accepted was read completely within the
    limit, is valid UTF-8, and is one JSON value with nothing after it, nested at
    most sixteen deep, in which no object repeats a member and every member of an
    object decoded into a struct is exactly the name of a field; the result is
    that value stored in the target's type. *)
Theorem strict_decode_exact r maxBytes target v :
  Decode r maxBytes target = Some (Ok v) ->
  exists rd ty tree, r = Some rd /\ target = Some ty /\ rd_fails rd = false /\
    len (rd_content rd) <= maxBytes <= maximumBodyBytes /\ utf8_Valid (rd_content rd) = true /\
    reads_as (rd_content rd) tree /\ tree_depth tree <= maximumDepth /\ exact_tree (Some ty) tree /\
    assign ty tree = Ok v.
Proof.
  unfold Decode. intros Hd. destruct r as [rd|], target as [ty|]; try done. case_top Hd; [done|]. bool_props.
  destruct (ReadAllLimit rd _) as [body|] eqn:Er; [|done]. case_top Hd; [done|]. case_top Hd; [done|]. bool_props.
  unfold ReadAllLimit in Er. case_top Er; [done|]. simplify_eq.
  assert (len (rd_content rd) <= maxBytes) as Hlen.
  { unfold len in *. rewrite length_take in *. lia. }
  rewrite take_ge in * by (unfold len in Hlen; lia).
  assert (rd_fails rd = false) as Hf.
  { destruct (rd_fails rd); [|done]. rewrite andb_true_r in *. bool_props. lia. }
  set (body := rd_content rd) in *.
  destruct (validateStructure body ty) as [[u|e]|] eqn:Ev; cbn in Hd; try done. injection Hd as Hd.
  unfold validateStructure in Ev. unfold decodeTyped in Hd.
  destruct (Token (NewDecoder body)) as [| |first d] eqn:Et; try done.
  destruct (walkValue _ _ _ _ _) as [[d1|e]|] eqn:Ew; cbn in Ev; try done.
  destruct (readValue _ _ _) as [[tree d2]|] eqn:Erv; [|done].
  destruct (assign ty tree) as [x|[]] eqn:Ea; try done.
  destruct (proj1 (walk_exact _) _ 0 _ _ _ _ _ _ ltac:(vm_compute; done) Ew Erv) as (-> & Hex & Hdep).
  destruct (Token d1) eqn:Et1; try done. simplify_eq.
  exists rd, ty, tree. split_and!; try done. by exists first, d, d1.
Qed.
End Accepted.

(** ** Plain texts: [json.Marshal] copies them *)

Definition plain_byte (c : byte) : bool :=
  in_range "a" "z" c || in_range "A" "Z" c || in_range "0" "9" c || bool_decide (c ∈ sbytes "-_:.").

Abbreviation plain_text := (Forall (fun c => plain_byte c = true)).

Lemma plain_byte_facts c : plain_byte c = true ->
  (byte_to_Z c <? 0x80) = true /\ json_escape_ascii c = [c] /\ (byte_to_Z c <? 0x20) = false /\
  c <> x22 /\ c <> x5c /\ c <> ","%byte /\
  (rune_in 65 90 (byte_to_Z c) || rune_in 97 122 (byte_to_Z c) || rune_in 48 57 (byte_to_Z c) ||
   bool_decide (byte_to_Z c ∈ tag_runes)) = true.
Proof. destruct c; vm_compute; intros [=]; repeat split; done. Qed.

Lemma ascii_utf8 l : Forall (fun c => (byte_to_Z c <? 0x80) = true) l -> utf8_Valid l = true.
Proof.
  unfold utf8_Valid. induction 1 as [|c l Hc _ IH]; [done|]. cbn [length utf8_valid_fuel]. unfold DecodeRune.
  rewrite Hc. bool_props. rewrite (proj2 (Z.eqb_neq _ _)) by (unfold RuneError; lia). done.
Qed.

Lemma plain_json l : plain_text l -> json_string l = [x22] ++ l ++ [x22].
Proof.
  intros Hl. unfold json_string. do 2 f_equal.
  induction Hl as [|c l Hc _ IH]; [done|]. destruct (plain_byte_facts c Hc) as (Ha & He & _).
  cbn [length json_escape_fuel]. by rewrite Ha, He, IH.
Qed.

Lemma plain_json_len l : plain_text l -> len (json_string l) = len l + 2.
Proof. intros Hl. rewrite plain_json by done. rewrite !len_app. change (len [x22]) with 1. lia. Qed.

Lemma scan_plain l rest : plain_text l -> scan_string (l ++ x22 :: rest) = Some (l, rest).
Proof.
  induction 1 as [|c l Hc _ IH]; [done|]. destruct (plain_byte_facts c Hc) as (_ & _ & Hs & Hq & Hb & _).
  cbn [app scan_string]. rewrite !bool_decide_eq_false_2, Hs by done. by rewrite IH.
Qed.

Lemma plain_runes l : plain_text l -> runes l = map byte_to_Z l.
Proof.
  unfold runes. induction 1 as [|c l Hc _ IH]; [done|]. destruct (plain_byte_facts c Hc) as (Ha & _).
  cbn [length runes_fuel map]. unfold DecodeRune. rewrite Ha. f_equal. exact IH.
Qed.

(** ** Structs of strings *)

(** A name that can be a tag. *)
Definition tag_name (n : bytes) : Prop := plain_text n /\ n <> [] /\ n <> sbytes "-".

Section Strings.
Context `{Unicode}.

Lemma plain_tag n : tag_name n -> validJSONTag n = true.
Proof.
  intros (Hp & Hne & _). unfold validJSONTag. rewrite bool_decide_eq_false_2, plain_runes by done. cbn [negb andb].
  clear Hne. induction Hp as [|c l Hc _ IH]; [done|]. destruct (plain_byte_facts c Hc) as (Ha & _ & _ & _ & _ & _ & Hr).
  cbn [map forallb]. rewrite IH, andb_true_r. unfold IsLetter, IsDigit. by rewrite Ha.
Qed.

Lemma plain_before_comma n : plain_text n -> before_comma n = n.
Proof.
  induction 1 as [|c l Hc _ IH]; [done|]. destruct (plain_byte_facts c Hc) as (_ & _ & _ & _ & _ & Hk & _).
  cbn. by rewrite bool_decide_eq_false_2, IH.
Qed.

Definition string_candidate : fieldCandidate := MkCandidate GoString 0 true.

Lemma visit_string_field n candidates queue : tag_name n ->
  visit_field 0 (GoField n false true n GoString) (candidates, queue) =
    (add_candidate n string_candidate candidates, queue).
Proof.
  intros Hn. pose proof Hn as (Hp & Hne & Hd). unfold visit_field. cbn [negb].
  rewrite plain_before_comma, (plain_tag n) by done. rewrite !(bool_decide_eq_false_2 (n = _)) by done. done.
Qed.

Lemma add_fresh n c l : n ∉ l.*1 -> add_candidate n c l = l ++ [(n, [c])].
Proof.
  induction l as [|[k cs] l IH]; intros Hn; [done|]. cbn in *. rewrite bool_decide_eq_false_2.
  - rewrite IH; [done|]. intros ?. apply Hn. by right.
  - intros ->. apply Hn. left.
Qed.

Lemma schema_strings names : NoDup names -> Forall tag_name names ->
  buildStructSchema (string_target names) = map (fun n => (n, GoString)) names.
Proof.
  intros Hnd Ht. unfold buildStructSchema, string_target. cbn [type_size visit_types assoc].
  set (f := fun st f => visit_field 0 f st).
  assert (forall l, (forall n, n ∈ names -> n ∉ l.*1) ->
    foldl f (l, []) (map (fun n => GoField n false true n GoString) names) =
      (l ++ map (fun n => (n, [string_candidate])) names, [])) as Hfold.
  { induction names as [|n names IH]; intros l Hl; cbn [map foldl]; [by rewrite app_nil_r|].
    inversion Hnd; inversion Ht; subst. unfold f at 2. rewrite visit_string_field, add_fresh by (done || (apply Hl; left)).
    rewrite IH by (done || (intros m Hm; rewrite fmap_app, elem_of_app; cbn; intros [Hin|Hin];
      [by eapply Hl; [right|]|apply list_elem_of_singleton in Hin; by subst])).
    by rewrite <- app_assoc. }
  rewrite Hfold by (intros n _; apply not_elem_of_nil).
  destruct (visit_types _ _ _ _) eqn:E; revert E;
    match goal with |- context [visit_types ?g [] ?v ?c] => replace (visit_types g [] v c) with c by (destruct g; done) end;
    intros <-; unfold select_fields; clear; induction names as [|n names IH]; try done; cbn; by rewrite <- IH.
Qed.

(** A plain string where a member or a value is expected, after the separator if
    there is one. *)
Definition string_token (s : bytes) (next : token_state) (r : bytes) (stack : list token_state) : token_result :=
  match scan_string (s ++ x22 :: r) with
  | Some (key, rest) => Tok (TokString key) (MkDecoder rest next stack)
  | None => TokError
  end.

Lemma string_token_plain s next r stack : plain_text s ->
  string_token s next r stack = Tok (TokString s) (MkDecoder r next stack).
Proof. intros Hs. unfold string_token. by rewrite scan_plain. Qed.

Lemma token_key n r stack : plain_text n ->
  Token (MkDecoder (json_string n ++ r) ObjectStart stack) = Tok (TokString n) (MkDecoder r ObjectColon stack).
Proof.
  intros Hn. rewrite plain_json, <- !app_assoc by done.
  transitivity (string_token n ObjectColon r stack); [reflexivity|by apply string_token_plain].
Qed.

Lemma token_next_key n r stack : plain_text n ->
  Token (MkDecoder ([x2c] ++ json_string n ++ r) ObjectComma stack) = Tok (TokString n) (MkDecoder r ObjectColon stack).
Proof.
  intros Hn. rewrite plain_json, <- !app_assoc by done.
  transitivity (string_token n ObjectColon r stack); [reflexivity|by apply string_token_plain].
Qed.

Lemma token_string v r stack : plain_text v ->
  Token (MkDecoder ([x3a] ++ json_string v ++ r) ObjectColon stack) = Tok (TokString v) (MkDecoder r ObjectComma stack).
Proof.
  intros Hv. rewrite plain_json, <- !app_assoc by done.
  transitivity (match (match scan_string (v ++ x22 :: r) with
                       | Some (s, rest) => Some (TokString s, rest) | None => None end) with
                | Some (t, rest) => Tok t (MkDecoder rest ObjectComma stack)
                | None => TokError
                end); [reflexivity|]. by rewrite scan_plain.
Qed.

(** The text of one member, and of the members after the first. *)
Definition pair_text (p : bytes * bytes) : bytes := json_string p.1 ++ [x3a] ++ json_string p.2.
Definition rest_text (ps : list (bytes * bytes)) : bytes := flat_map (fun p => [x2c] ++ pair_text p) ps.

Lemma struct_text names values :
  json_Marshal (string_struct names values) =
    [x7b] ++ match zip names values with [] => [] | p :: ps => pair_text p ++ rest_text ps end ++ [x7d].
Proof.
  unfold string_struct. cbn [json_Marshal]. do 2 f_equal.
  match goal with |- join_comma ?l = _ => assert (l = map pair_text (zip names values)) as -> end.
  { revert values. induction names as [|n names IH]; intros [|v values]; try done. cbn. f_equal. apply IH. }
  destruct (zip names values) as [|p ps]; [done|]. revert p.
  induction ps as [|p' ps IH]; intros p; [cbn; by rewrite app_nil_r|]. cbn [map rest_text flat_map] in *.
  change (join_comma (?a :: ?b :: ?l)) with (a ++ [x2c] ++ join_comma (b :: l)). rewrite IH, <- app_assoc. done.
Qed.

Abbreviation plain_pairs := (Forall (fun p : bytes * bytes => plain_text p.1 /\ plain_text p.2)).

(** The end of an object. *)
Definition at_end (tail : bytes) (stack : list token_state) (s : token_state) : decoder :=
  MkDecoder (x7d :: tail) s stack.

Lemma walk_scalar fuel s depth ty d : (0 < fuel)%nat -> walkValue fuel (TokString s) depth ty d = Some (Ok d).
Proof. destruct fuel; [lia|done]. Qed.

Lemma read_scalar fuel s d : (0 < fuel)%nat -> readValue fuel (TokString s) d = Some (TreeString s, d).
Proof. destruct fuel; [lia|done]. Qed.

Lemma walk_rest fields ps seen fuel depth tail stack :
  plain_pairs ps -> Forall (fun p => is_Some (assoc p.1 fields)) ps -> NoDup ps.*1 ->
  Forall (fun p => p.1 ∉ seen) ps -> (length ps + 1 < fuel)%nat ->
  walkMembers fuel depth (Some fields) None seen (MkDecoder (rest_text ps ++ x7d :: tail) ObjectComma stack) =
    Some (Ok (at_end tail stack ObjectComma)).
Proof.
  revert seen fuel. induction ps as [|[n v] ps IH]; intros seen fuel Hp Hf Hnd Hs Hfuel;
    (destruct fuel as [|fuel]; [cbn in *; lia|]); [done|].
  inversion Hp as [|? ? [Hn Hv] Hp']; inversion Hf as [|? ? [t Ht] Hf']; inversion Hnd as [|? ? Hni Hnd'];
    inversion Hs; subst. cbn [fst snd] in *.
  cbn [walkMembers rest_text flat_map]. unfold pair_text. cbn [fst snd]. rewrite <- !app_assoc.
  change (More _) with true. cbn iota. rewrite token_next_key by done. rewrite bool_decide_eq_false_2 by done.
  unfold member_type. rewrite Ht. rewrite token_string by done. rewrite walk_scalar by (cbn in *; lia). cbn [mbind option_bind].
  apply IH; try done; [|cbn in *; lia].
  rewrite Forall_forall in *. intros p Hin. rewrite not_elem_of_cons. split; [|by auto].
  intros E. apply Hni. rewrite <- E. apply list_elem_of_fmap. exists p. split; [done|]. by apply list_elem_of_In.
Qed.

Lemma read_rest ps fuel tail stack :
  plain_pairs ps -> (length ps + 1 < fuel)%nat ->
  readMembers fuel (MkDecoder (rest_text ps ++ x7d :: tail) ObjectComma stack) =
    Some (map (fun p => (p.1, TreeString p.2)) ps, at_end tail stack ObjectComma).
Proof.
  revert fuel. induction ps as [|[n v] ps IH]; intros fuel Hp Hfuel;
    (destruct fuel as [|fuel]; [cbn in *; lia|]); [done|].
  inversion Hp as [|? ? [Hn Hv] Hp']; subst. cbn [fst snd] in *.
  cbn [readMembers rest_text flat_map]. unfold pair_text. cbn [fst snd]. rewrite <- !app_assoc.
  change (More _) with true. cbn iota. rewrite token_next_key by done.
  rewrite token_string by done. rewrite read_scalar by (cbn in *; lia). cbn [mbind option_bind].
  rewrite IH; [done|done|cbn in *; lia].
Qed.

(** The members of an object that was just opened. *)
Definition members_text (ps : list (bytes * bytes)) : bytes :=
  match ps with [] => [] | p :: ps => pair_text p ++ rest_text ps end.
Definition end_state (ps : list (bytes * bytes)) : token_state :=
  match ps with [] => ObjectStart | _ => ObjectComma end.

Lemma walk_members fields ps fuel depth tail stack :
  plain_pairs ps -> Forall (fun p => is_Some (assoc p.1 fields)) ps -> NoDup ps.*1 -> (length ps + 1 < fuel)%nat ->
  walkMembers fuel depth (Some fields) None [] (MkDecoder (members_text ps ++ x7d :: tail) ObjectStart stack) =
    Some (Ok (at_end tail stack (end_state ps))).
Proof.
  intros Hp Hf Hnd Hfuel. destruct fuel as [|fuel]; [lia|]. destruct ps as [|[n v] ps]; [done|].
  inversion Hp as [|? ? [Hn Hv] Hp']; inversion Hf as [|? ? [t Ht] Hf']; inversion Hnd as [|? ? Hni Hnd']; subst.
  cbn [fst snd] in *. cbn [walkMembers members_text]. unfold pair_text. cbn [fst snd]. rewrite <- !app_assoc.
  assert (More (MkDecoder (json_string n ++ [x3a] ++ json_string v ++ rest_text ps ++ x7d :: tail) ObjectStart stack)
    = true) as -> by (rewrite plain_json by done; done).
  rewrite token_key by done. rewrite bool_decide_eq_false_2 by apply not_elem_of_nil.
  unfold member_type. rewrite Ht, token_string by done. rewrite walk_scalar by (cbn in *; lia). cbn [mbind option_bind].
  apply walk_rest; try done; [|cbn in *; lia].
  rewrite Forall_forall. intros p Hin Hs. apply list_elem_of_singleton in Hs. apply Hni. rewrite <- Hs.
  apply list_elem_of_fmap. exists p. split; [done|]. by apply list_elem_of_In.
Qed.

Lemma read_members ps fuel tail stack :
  plain_pairs ps -> (length ps + 1 < fuel)%nat ->
  readMembers fuel (MkDecoder (members_text ps ++ x7d :: tail) ObjectStart stack) =
    Some (map (fun p => (p.1, TreeString p.2)) ps, at_end tail stack (end_state ps)).
Proof.
  intros Hp Hfuel. destruct fuel as [|fuel]; [lia|]. destruct ps as [|[n v] ps]; [done|].
  inversion Hp as [|? ? [Hn Hv] Hp']; subst.
  cbn [fst snd] in *. cbn [readMembers members_text]. unfold pair_text. cbn [fst snd]. rewrite <- !app_assoc.
  assert (More (MkDecoder (json_string n ++ [x3a] ++ json_string v ++ rest_text ps ++ x7d :: tail) ObjectStart stack)
    = true) as -> by (rewrite plain_json by done; done).
  rewrite token_key, token_string by done. rewrite read_scalar by (cbn in *; lia). cbn [mbind option_bind].
  rewrite read_rest; [done|done|cbn in *; lia].
Qed.

Lemma close_object ps : Token (at_end [] [TopValue] (end_state ps)) = Tok (Delim "}") (NewDecoder []).
Proof. by destruct ps. Qed.

Lemma assoc_map {A} (f : bytes -> A) names n : n ∈ names -> assoc n (map (fun n => (n, f n)) names) = Some (f n).
Proof.
  induction names as [|m names IH]; [by intros ?%not_elem_of_nil|]. intros Hin. cbn. case_match; bool_props; [by subst|].
  apply IH. apply elem_of_cons in Hin as [E|?]; [congruence|done].
Qed.

Lemma assign_strings names ps : NoDup names -> Forall tag_name names -> Forall (fun p => p.1 ∈ names) ps ->
  assign (string_target names) (TreeObject (map (fun p => (p.1, TreeString p.2)) ps)) =
    Ok (VStruct (map (fun p => (p.1, VString p.2)) ps)).
Proof.
  intros Hnd Ht Hin. unfold string_target. cbn [assign strip_pointers]. fold (string_target names).
  rewrite schema_strings by done.
  match goal with |- match (match ?go with _ => _ end) with _ => _ end = _ =>
    assert (go = Ok (map (fun p => (p.1, VString p.2)) ps)) as -> end; [|done].
  induction Hin as [|[n v] ps Hn _ IH]; [done|]. cbn [map fst snd] in *.
  assert (json_field (map (fun n => (n, GoString)) names) n = Some (n, GoString)) as ->
    by (unfold json_field; by rewrite (assoc_map (fun _ => GoString))).
  change (assign GoString (TreeString v)) with (Ok (E := assign_err) (VString v)). by rewrite IH.
Qed.

Lemma rest_text_ascii ps : plain_pairs ps ->
  Forall (fun c => (byte_to_Z c <? 0x80) = true) (rest_text ps) /\ (length ps <= length (rest_text ps))%nat.
Proof.
  assert (forall l, plain_text l -> Forall (fun c => (byte_to_Z c <? 0x80) = true) (json_string l)) as Hj.
  { intros l Hl. rewrite plain_json by done. rewrite !Forall_app. split_and!; [by constructor| |by constructor].
    eapply List.Forall_impl; [|exact Hl]. intros c Hc. by apply plain_byte_facts in Hc as (? & _). }
  induction 1 as [|[n v] ps [Hn Hv] _ [IH IHl]]; [by split|]. cbn [fst snd] in *.
  assert (rest_text ((n, v) :: ps) = ([x2c] ++ json_string n ++ [x3a] ++ json_string v) ++ rest_text ps) as -> by done.
  split; [|rewrite !length_app; cbn [length]; lia]. rewrite !Forall_app. split_and!; auto; by repeat constructor.
Qed.

Lemma members_text_rest ps : [x2c] ++ members_text ps = rest_text ps \/ ps = [].
Proof. destruct ps as [|p ps]; [by right|left]. done. Qed.

Lemma members_text_ascii ps : plain_pairs ps ->
  Forall (fun c => (byte_to_Z c <? 0x80) = true) (members_text ps) /\ (length ps <= length (members_text ps) + 1)%nat.
Proof.
  intros Hp. destruct (rest_text_ascii ps Hp) as [Ha Hl].
  destruct (members_text_rest ps) as [E|E]; [|subst ps; split; [constructor|cbn; lia]]. rewrite <- E in *.
  cbn in Hl. apply Forall_app in Ha as [_ Ha]. split; [done|lia].
Qed.

Lemma walk_object fuel depth ty d : depth < maximumDepth ->
  walkValue (S fuel) (Delim "{") depth ty d =
    (r ← walkMembers fuel depth (objectExpectation ty).1 (objectExpectation ty).2 [] d;
     match r with Err e => Some (Err e) | Ok d => Some (walkClose "{" d) end).
Proof.
  intros Hd. cbn [walkValue]. rewrite (proj2 (Z.leb_gt _ _)) by done. by destruct (objectExpectation ty).
Qed.

Lemma read_object fuel d :
  readValue (S fuel) (Delim "{") d =
    ('(members, d) ← readMembers fuel d; d ← closes "}" d; Some (TreeObject members, d)).
Proof. done. Qed.

Lemma decode_pairs names ps maxBytes :
  let body := [x7b] ++ members_text ps ++ [x7d] in
  NoDup names -> Forall tag_name names -> Forall (fun p => p.1 ∈ names) ps -> plain_pairs ps -> NoDup ps.*1 ->
  len body <= maxBytes <= maximumBodyBytes ->
  Decode (Some (MkReader body false)) maxBytes (Some (string_target names)) =
    Some (Ok (VStruct (map (fun p => (p.1, VString p.2)) ps))).
Proof.
  intros body Hnd Ht Hin Hp Hk Hlen. destruct (members_text_ascii ps Hp) as [Ha Hl].
  assert (0 < len body) by (unfold body, len; rewrite !length_app; cbn [length]; lia).
  unfold Decode. rewrite (proj2 (Z.leb_gt _ _)), (proj2 (Z.ltb_ge _ _)) by lia. cbn [orb].
  unfold ReadAllLimit. cbn [rd_content rd_fails]. rewrite andb_false_r, take_ge by (unfold len in *; lia).
  rewrite (proj2 (Z.ltb_ge _ _)) by lia.
  rewrite ascii_utf8 by (unfold body; rewrite !Forall_app; split_and!; [by constructor|done|by constructor]).
  cbn [negb].
  assert (body_fuel body = S (S (2 * length (members_text ps) + 4))) as Hfuel
    by (unfold body_fuel, body; rewrite !length_app; cbn [length]; lia).
  set (fuel := (2 * length (members_text ps) + 4)%nat) in *.
  assert (length ps + 1 < S fuel)%nat as Hf by (unfold fuel; lia).
  assert (Token (NewDecoder body) = Tok (Delim "{") (MkDecoder (members_text ps ++ [x7d]) ObjectStart [TopValue])) as Hopen
    by reflexivity.
  assert (walkValue (S (S fuel)) (Delim "{") 0 (Some (string_target names))
    (MkDecoder (members_text ps ++ [x7d]) ObjectStart [TopValue]) = Some (Ok (NewDecoder []))) as Hwalk.
  { rewrite walk_object by done. cbn [objectExpectation mbind option_bind concreteJSONType string_target fst snd].
    fold (string_target names). rewrite schema_strings by done. rewrite walk_members; [|done| |done|lia].
    - cbn [mbind option_bind]. unfold walkClose. by rewrite close_object.
    - eapply List.Forall_impl; [|exact Hin]. intros p Hp'. cbn beta in Hp'.
      rewrite (assoc_map (fun _ => GoString)) by done. eauto. }
  unfold validateStructure, decodeTyped. rewrite Hopen, Hfuel, Hwalk. cbn [mbind option_bind].
  rewrite read_object, read_members by (done || lia). cbn [mbind option_bind]. unfold closes. rewrite close_object.
  cbn [bool_decide]. rewrite bool_decide_eq_true_2 by done. cbn [mbind option_bind].
  by rewrite assign_strings by done.
Qed.

Lemma zip_keys (names values : list bytes) : length names = length values -> (zip names values).*1 = names.
Proof. intros Hl. apply fst_zip. lia. Qed.

Lemma zip_plain names values : Forall tag_name names -> Forall (fun v => plain_text v) values -> plain_pairs (zip names values).
Proof.
  intros Hn. revert values. induction Hn as [|n names (Hn & _) _ IH]; intros values Hv; [constructor|].
  destruct Hv as [|v values Hv Hvs]; [constructor|]. constructor; [by split|by apply IH].
Qed.

Lemma strings_back names values : NoDup names -> length names = length values ->
  map (field_string (VStruct (map (fun p => (p.1, VString p.2)) (zip names values)))) names = values.
Proof.
  revert values. induction names as [|n names IH]; intros [|v values] Hnd Hl; try done. inversion Hnd; subst.
  cbn [zip zip_with map fst snd]. f_equal.
  - cbn. by rewrite bool_decide_eq_true_2.
  - transitivity (map (field_string (VStruct (map (fun p => (p.1, VString p.2)) (zip names values)))) names);
      [|apply IH; [done|by injection Hl]].
    apply map_ext_in. intros m Hm. cbn. rewrite bool_decide_eq_false_2; [done|]. intros <-. by apply list_elem_of_In in Hm.
Qed.

Lemma decode_struct names values maxBytes :
  NoDup names -> Forall tag_name names -> length names = length values -> Forall (fun v => plain_text v) values ->
  len (json_Marshal (string_struct names values)) <= maxBytes <= maximumBodyBytes ->
  Decode (Some (MkReader (json_Marshal (string_struct names values)) false)) maxBytes (Some (string_target names)) =
    Some (Ok (VStruct (map (fun p => (p.1, VString p.2)) (zip names values)))).
Proof.
  intros Hnd Ht Hl Hv Hlen. rewrite struct_text in *.
  change (match zip names values with [] => [] | p :: ps => pair_text p ++ rest_text ps end)
    with (members_text (zip names values)) in *.
  apply decode_pairs; try done; [|by apply zip_plain|by rewrite zip_keys].
  rewrite Forall_forall. intros p Hp. rewrite <- (zip_keys names values) by done.
  apply list_elem_of_fmap. exists p. split; [done|]. by apply list_elem_of_In.
Qed.

(** Structs of strings are read back. *)
Lemma decode_strings_back names values maxBytes :
  NoDup names -> Forall tag_name names -> length names = length values -> Forall (fun v => plain_text v) values ->
  len (json_Marshal (string_struct names values)) <= maxBytes <= maximumBodyBytes ->
  decode_strings names maxBytes (json_Marshal (string_struct names values)) = Some values.
Proof.
  intros Hnd Ht Hl Hv Hlen. unfold decode_strings. rewrite decode_struct by done. by rewrite strings_back.
Qed.

(** [strict_strings_roundtrip]: the JSON text [json.Marshal] writes for a struct
    of plain strings is accepted by the strict decoder into the struct of the same
    tags, up to the exact byte limit, and gives back every field; one byte less
    than the text allows is refused as too large. *)
Theorem strict_strings_roundtrip names values maxBytes :
  NoDup names -> Forall tag_name names -> length names = length values -> Forall (fun v => plain_text v) values ->
  0 < maxBytes <= maximumBodyBytes ->
  let body := json_Marshal (string_struct names values) in
  let decoded := Decode (Some (MkReader body false)) maxBytes (Some (string_target names)) in
  if len body <=? maxBytes
  then exists v, decoded = Some (Ok v) /\ map (field_string v) names = values
  else decoded = Some (Err ErrTooLarge).
Proof.
  intros Hnd Ht Hl Hv Hm body decoded. destruct (len body <=? maxBytes) eqn:E; bool_props.
  - eexists. split; [apply decode_struct; try done; split; [exact E|lia]|by apply strings_back].
  - unfold decoded, Decode. rewrite (proj2 (Z.leb_gt _ _)), (proj2 (Z.ltb_ge _ _)) by lia. cbn [orb].
    unfold ReadAllLimit. cbn [rd_content rd_fails]. rewrite andb_false_r.
    rewrite (proj2 (Z.ltb_lt _ _)); [done|]. unfold len in *. rewrite length_take. lia.
Qed.
End Strings.

(** ** Witnesses *)

#[local] Existing Instance sample_unicode.

Lemma strict_decode_exact_witness :
  exists tree, reads_as (quoted "{'name':'ok','nested':{'enabled':true}}") tree /\ tree_depth tree <= maximumDepth /\
    exact_tree (Some sample_request) tree.
Proof.
  assert (match outcome sample_request "{'name':'ok','nested':{'enabled':true}}" with
          | Some (Ok _) => true | _ => false end = true) as Ho by (vm_compute; reflexivity).
  destruct (outcome sample_request "{'name':'ok','nested':{'enabled':true}}") as [[v|e]|] eqn:E;
    [|discriminate Ho|discriminate Ho].
  destruct (strict_decode_exact _ _ _ _ E) as (rd & ty & tree & Hr & Ht & _ & _ & _ & Hreads & Hdepth & Hexact & _).
  injection Hr as <-. injection Ht as <-. exists tree. split; [exact Hreads|]. split; [exact Hdepth|exact Hexact].
Defined.

Definition sample_names : list bytes := [sbytes "family_id"; sbytes "token"].
Definition sample_values : list bytes := [sbytes "f-1"; sbytes "A_b-9"].

Lemma strict_strings_roundtrip_witness :
  exists v, Decode (Some (MkReader (json_Marshal (string_struct sample_names sample_values)) false)) 64
              (Some (string_target sample_names)) = Some (Ok v) /\
    map (field_string v) sample_names = sample_values.
Proof.
  apply (strict_strings_roundtrip sample_names sample_values 64).
  - apply (bool_decide_eq_true_1 (NoDup sample_names)). vm_compute. reflexivity.
  - repeat constructor; discriminate.
  - reflexivity.
  - repeat constructor.
  - vm_compute. split; [reflexivity|discriminate].
Defined.
