(* ===== verification/Descriptors.v ===== *)
(** Texts that JSON prints as they are: base64, decimal digits, instants of time
    and identifiers.

    The schema check of event payloads: [ValidatePayloadDescriptor] of
    [internal/contracts/events/validate.go], a depth-first walk over message
    descriptors that rejects field names able to carry secret material. *)
From Stdlib Require Import ZArith Lia Strings.Byte.
From stdpp Require Import base gmap list strings numbers option.
From S2P Require Import Prelude GoStd GoTime AuthorityTypes Text Tokens GoJson StrictJson StrictJsonTheorems.

#[local] Open Scope go_scope.

Lemma b64_plain raw : plain_text (b64_EncodeToString raw).
Proof.
  unfold b64_EncodeToString. apply Forall_map. eapply List.Forall_impl; [|apply sextets_range]. intros v Hv. cbn beta in Hv.
  apply (all_from_spec (fun v => plain_byte (b64_char v)) 0 64); [vm_compute; done|cbn; lia].
Qed.

Lemma digits_plain l : Forall (fun c => is_digit c = true) l -> plain_text l.
Proof.
  apply List.Forall_impl. intros c Hc. unfold plain_byte, is_digit in *. rewrite Hc, orb_true_r. done.
Qed.

Lemma time_plain t : plain_text (FormatRFC3339Nano t) /\ len (FormatRFC3339Nano t) <= 30.
Proof.
  unfold FormatRFC3339Nano. destruct (civil_of_days _) as [[y m] d].
  assert (forall w n, plain_text (fixed_digits w n)) as Hf by (intros; apply digits_plain, fixed_all_digits).
  assert (plain_text (fraction (t_nanos t mod Day mod Second)) /\
          len (fraction (t_nanos t mod Day mod Second)) <= 10) as [Hp Hl].
  { unfold fraction. case_match; [by split|]. generalize (fixed_length 9 (t_nanos t mod Day mod Second)), (Hf 9%nat (t_nanos t mod Day mod Second)).
    generalize (fixed_digits 9 (t_nanos t mod Day mod Second)) as l. intros l Hll Hpl.
    destruct (trim_zeros_spec l) as [k Hk]. rewrite Hk in Hpl, Hll. apply Forall_app in Hpl as [Hpl _]. rewrite length_app in Hll.
    split; [by constructor|]. unfold len. rewrite length_app. cbn [length]. lia. }
  split.
  - rewrite !Forall_app. split_and!; first [apply Hf|exact Hp|by repeat constructor].
  - rewrite !len_app. unfold len in *. rewrite !fixed_length. cbn [length]. lia.
Qed.

(** ** Names *)

Definition lower_byte (c : byte) : byte :=
  if in_range "A" "Z" c then byte_of_Z (byte_to_Z c + 32) else c.

(** [strings.ToLower] on the ASCII names of fields. *)
Definition ToLower (l : bytes) : bytes := map lower_byte l.

(** [strings.Contains] *)
Fixpoint contains (sub l : bytes) : bool :=
  has_prefix sub l || match l with [] => false | _ :: l' => contains sub l' end.

Definition forbidden_terms : list bytes :=
  map sbytes ["body"; "ciphertext"; "email"; "emails"; "error"; "errors"; "key"; "keys"; "locator";
              "nonce"; "provider"; "token"; "uri"; "url"].

Definition isForbiddenPayloadFieldTerm (term : bytes) : bool := bool_decide (term ∈ forbidden_terms).

Definition qualifiers : list (bytes * list bytes) :=
  map (fun p => (sbytes p.1, map sbytes p.2))
  [("body", ["provider"; "raw"; "request"; "response"]);
   ("ciphertext", ["encrypted"; "field"; "hpke"; "payload"; "value"]);
   ("email", ["account"; "address"; "contact"; "customer"; "destination"; "primary"; "recipient";
              "sender"; "user"; "verified"]);
   ("error", ["internal"; "provider"; "raw"; "upstream"]);
   ("key", ["api"; "auth"; "config"; "encryption"; "hpke"; "lookup"; "private"; "public"; "root";
            "secret"; "signing"]);
   ("locator", ["artifact"; "bundle"; "resource"]);
   ("nonce", ["challenge"; "client"; "csrf"; "request"; "response"]);
   ("provider", ["body"; "email"; "error"; "fieldprotector"; "material"; "payload"; "request";
                 "response"; "signer"]);
   ("token", ["access"; "account"; "auth"; "bearer"; "device"; "enrollment"; "opaque"; "refresh";
              "session"; "verification"]);
   ("uri", ["callback"; "download"; "provisioning"; "redirect"; "source"; "webhook"]);
   ("url", ["callback"; "download"; "redirect"; "source"; "webhook"])]%string.

(** Whether some compound is found; which one depends on the order of a map. *)
Definition forbiddenCompoundPayloadFieldTerm (name : bytes) : bool :=
  existsb (fun '(term, allowed) =>
    existsb (fun qualifier => contains (qualifier ++ term) name || contains (term ++ qualifier) name)
      allowed) qualifiers.

(** The name of a field carries a forbidden term. *)
Definition forbidden_field (name : bytes) : bool :=
  let fieldName := ToLower name in
  existsb isForbiddenPayloadFieldTerm (Split "_"%byte fieldName) ||
  forbiddenCompoundPayloadFieldTerm (List.filter (fun c => c != "_"%byte) fieldName).

(** ** Descriptors *)

(** A field: its name and, for a message field, the full name of its message. *)
Record FieldDescriptor := MkFieldDescriptor { fd_name : bytes; fd_message : option bytes }.

(** A message descriptor by full name. *)
Abbreviation schema := (gmap bytes (list FieldDescriptor)).

(** The walk, with the names seen so far; [None] is an error.  [fuel] bounds the
    depth. *)
Fixpoint validatePayloadDescriptor (fuel : nat) (sch : schema) (name : bytes) (seen : gset bytes) :
  option (gset bytes) :=
  match fuel with
  | O => None
  | S fuel =>
      if bool_decide (name ∈ seen) then Some seen
      else match sch !! name with
      | None => None
      | Some fields =>
          (fix walk (fields : list FieldDescriptor) (seen : gset bytes) : option (gset bytes) :=
             match fields with
             | [] => Some seen
             | field :: fields =>
                 if forbidden_field (fd_name field) then None
                 else match fd_message field with
                      | None => walk fields seen
                      | Some message =>
                          match validatePayloadDescriptor fuel sch message seen with
                          | None => None
                          | Some seen => walk fields seen
                          end
                      end
             end) fields ({[name]} ∪ seen)
      end
  end.

(** One level for every message of the schema, and one to find a name seen. *)
Definition ValidatePayloadDescriptor (sch : schema) (name : bytes) : bool :=
  not_nil (validatePayloadDescriptor (S (size sch)) sch name ∅).

(** The inner loop by name. *)
Fixpoint walk_fields (fuel : nat) (sch : schema) (fields : list FieldDescriptor) (seen : gset bytes) :
  option (gset bytes) :=
  match fields with
  | [] => Some seen
  | field :: fields =>
      if forbidden_field (fd_name field) then None
      else match fd_message field with
           | None => walk_fields fuel sch fields seen
           | Some message =>
               match validatePayloadDescriptor fuel sch message seen with
               | None => None
               | Some seen => walk_fields fuel sch fields seen
               end
           end
  end.

Lemma validate_step fuel sch name seen :
  validatePayloadDescriptor (S fuel) sch name seen =
  if bool_decide (name ∈ seen) then Some seen
  else match sch !! name with
       | None => None
       | Some fields => walk_fields fuel sch fields ({[name]} ∪ seen)
       end.
Proof.
  cbn. case_bool_decide; [done|]. destruct (sch !! name) as [fields|]; [|done].
  generalize ({[name]} ∪ seen : gset bytes) as s0. induction fields as [|f fields IH]; intros s0; [done|].
  cbn. destruct (forbidden_field _); [done|]. destruct (fd_message f); [|apply IH].
  destruct (validatePayloadDescriptor _ _ _ _); [apply IH|done].
Qed.

(** ** Soundness *)

(** The messages reachable from one. *)
Inductive reaches (sch : schema) (name : bytes) : bytes -> Prop :=
| reaches_refl : reaches sch name name
| reaches_step m fields field m' :
    reaches sch name m -> sch !! m = Some fields -> field ∈ fields -> fd_message field = Some m' ->
    reaches sch name m'.

(** A message is clean: no field is forbidden, and its message fields are in a
    set. *)
Definition clean (sch : schema) (inside : gset bytes) (fields : list FieldDescriptor) : Prop :=
  forall field, field ∈ fields -> forbidden_field (fd_name field) = false /\
    forall m, fd_message field = Some m -> m ∈ inside.

(** Every name of [seen'] that is not in [seen] is clean. *)
Definition explored (sch : schema) (seen seen' : gset bytes) : Prop :=
  seen ⊆ seen' /\ forall m, m ∈ seen' -> m ∉ seen -> exists fields, sch !! m = Some fields /\ clean sch seen' fields.

Lemma clean_mono sch a b fields : a ⊆ b -> clean sch a fields -> clean sch b fields.
Proof. intros Hs Hc f Hf. destruct (Hc f Hf) as [Hn Hm]. split; [done|]. intros m He. set_solver. Qed.

Lemma explored_trans sch a b c : explored sch a b -> explored sch b c -> explored sch a c.
Proof.
  intros [Hs1 H1] [Hs2 H2]. split; [set_solver|]. intros m Hm Hn.
  destruct (decide (m ∈ b)) as [Hb|Hb]; [|by apply H2].
  destruct (H1 m Hb Hn) as (fields & Hf & Hc). exists fields. split; [done|]. by eapply clean_mono.
Qed.

Lemma validate_explores fuel sch :
  (forall name seen seen', validatePayloadDescriptor fuel sch name seen = Some seen' ->
     explored sch seen seen' /\ name ∈ seen') /\
  (forall fields seen seen', walk_fields fuel sch fields seen = Some seen' ->
     explored sch seen seen' /\ clean sch seen' fields).
Proof.
  induction fuel as [|fuel [IHv IHw]].
  - split; [done|]. intros fields seen seen'. revert seen. induction fields as [|f fields IH]; intros seen Hw;
      cbn in Hw; [simplify_eq; split; [split; [done|set_solver]|by intros f Hf%elem_of_nil]|].
    destruct (forbidden_field _) eqn:Hf; [done|]. destruct (fd_message f) eqn:Hm; [done|].
    destruct (IH _ Hw) as [He Hc]. split; [done|]. intros f' [->|Hin]%elem_of_cons; [|by apply Hc].
    split; [done|]. congruence.
  - assert (forall name seen seen', validatePayloadDescriptor (S fuel) sch name seen = Some seen' ->
      explored sch seen seen' /\ name ∈ seen') as Hv.
    { intros name seen seen'. rewrite validate_step. case_bool_decide as Hin.
      - intros [= <-]. split; [split; [done|set_solver]|done].
      - destruct (sch !! name) as [fields|] eqn:Hl; [|done]. intros Hw.
        destruct (IHw _ _ _ Hw) as [[Hs He] Hc]. split; [|set_solver]. split; [set_solver|].
        intros m Hm Hn. destruct (decide (m = name)) as [->|Hne]; [eauto|]. apply He; set_solver. }
    split; [exact Hv|]. intros fields seen seen'. revert seen.
    induction fields as [|f fields IH]; intros seen Hw.
    { cbn in Hw. simplify_eq. split; [split; [done|set_solver]|by intros f Hf%elem_of_nil]. }
    cbn [walk_fields] in Hw. destruct (forbidden_field _) eqn:Hf; [done|]. destruct (fd_message f) as [m|] eqn:Hm.
    + destruct (validatePayloadDescriptor (S fuel) sch m seen) as [s1|] eqn:E; [|done].
      destruct (Hv _ _ _ E) as [He1 Hin1]. destruct (IH _ Hw) as [He2 Hc].
      split; [by eapply explored_trans|]. intros f' [->|Hin]%elem_of_cons; [|by apply Hc].
      split; [done|]. intros m' [= <-]%(eq_trans (eq_sym Hm)). destruct He2 as [Hs _]. set_solver.
    + destruct (IH _ Hw) as [He Hc]. split; [done|]. intros f' [->|Hin]%elem_of_cons; [|by apply Hc].
      split; [done|]. congruence.
Qed.

(** ** Completeness *)

Definition safe_from (sch : schema) (name : bytes) : Prop :=
  forall m, reaches sch name m -> exists fields, sch !! m = Some fields /\
    forall field, field ∈ fields -> forbidden_field (fd_name field) = false.

Lemma reaches_trans sch a b c : reaches sch a b -> reaches sch b c -> reaches sch a c.
Proof. intros Hab Hbc. induction Hbc; [done|]. by eapply reaches_step. Qed.

Lemma walk_complete fuel sch fields seen :
  (forall name seen, safe_from sch name -> (size (dom sch ∖ seen) < fuel)%nat ->
     is_Some (validatePayloadDescriptor fuel sch name seen)) ->
  (forall field, field ∈ fields -> forbidden_field (fd_name field) = false /\
     forall m, fd_message field = Some m -> safe_from sch m) ->
  (size (dom sch ∖ seen) < fuel)%nat -> is_Some (walk_fields fuel sch fields seen).
Proof.
  intros IH. revert seen. induction fields as [|f fields IHf]; intros seen Hs Hsz; cbn; [eauto|].
  destruct (Hs f) as [-> Hm]; [by left|].
  assert (forall field, field ∈ fields -> forbidden_field (fd_name field) = false /\
    forall m, fd_message field = Some m -> safe_from sch m) as Hs' by (intros; apply Hs; by right).
  destruct (fd_message f) as [m|]; [|by apply IHf].
  destruct (IH m seen (Hm _ eq_refl) Hsz) as [s1 Hv]. rewrite Hv. apply IHf; [done|].
  destruct (proj1 (validate_explores fuel sch) _ _ _ Hv) as [[Hsub _] _].
  eapply Nat.le_lt_trans; [|exact Hsz]. apply subseteq_size. set_solver.
Qed.

Lemma validate_complete fuel sch name seen :
  safe_from sch name -> (size (dom sch ∖ seen) < fuel)%nat ->
  is_Some (validatePayloadDescriptor fuel sch name seen).
Proof.
  revert name seen. induction fuel as [|fuel IH]; intros name seen Hs Hsz; [lia|].
  rewrite validate_step. case_bool_decide as Hin; [eauto|].
  destruct (Hs name (reaches_refl _ _)) as (fields & Hl & Hf). rewrite Hl.
  apply walk_complete; [done|..].
  - intros field Hfield. split; [by apply Hf|]. intros m Hm m' Hr. apply Hs.
    eapply reaches_trans; [|exact Hr]. eapply reaches_step; [apply reaches_refl|done..].
  - assert (dom sch ∖ ({[name]} ∪ seen) ⊂ dom sch ∖ seen) as Hsub.
    { assert (name ∈ dom sch) by (apply elem_of_dom; eauto). split; set_solver. }
    apply subset_size in Hsub. lia.
Qed.

(** [payload_descriptor_check]: a payload schema is accepted exactly when
    every message reachable from it is described and none of their fields has a
    forbidden name; recursive schemas included. *)
Theorem payload_descriptor_check sch name :
  ValidatePayloadDescriptor sch name = true <-> safe_from sch name.
Proof.
  unfold ValidatePayloadDescriptor. split.
  - destruct (validatePayloadDescriptor _ _ _ _) as [seen'|] eqn:Hv; [|done]. intros _.
    destruct (proj1 (validate_explores _ _) _ _ _ Hv) as [[_ He] Hin].
    assert (forall m, reaches sch name m -> m ∈ seen') as Hr.
    { induction 1 as [|m fields field m' _ IH Hl Hf Hm]; [done|].
      destruct (He m IH) as (fields' & Hl' & Hc); [set_solver|]. simplify_eq. by eapply Hc. }
    intros m Hm. destruct (He m (Hr m Hm)) as (fields & Hl & Hc); [set_solver|]. exists fields.
    split; [done|]. intros f Hf. by apply Hc.
  - intros Hs. destruct (validate_complete (S (size sch)) sch name ∅ Hs) as [s Hv].
    + rewrite difference_empty_L, size_dom. lia.
    + by rewrite Hv.
Qed.
