(* ===== verification/Events.v ===== *)
(** The event contract: [internal/contracts/events/marshal.go] and
    [ValidateEnvelope] of [validate.go].

    The protobuf runtime and the generated messages are not part of the
    repository's own code: encoding and decoding are parameters ([Protobuf]). *)
From Stdlib Require Import ZArith Lia Strings.Byte.
From stdpp Require Import base gmap list strings numbers option.
From S2P Require Import Prelude GoStd GoTime AuthorityTypes Text Descriptors.

#[local] Open Scope go_scope.

(** ** Data *)

Definition AccountStateChangedType : bytes := sbytes "talenro.identity.account_state_changed.v1".
Definition EmailDeliveryRequestedType : bytes := sbytes "talenro.identity.email_delivery_requested.v1".
Definition DeviceAuthorizationChangedType : bytes :=
  sbytes "talenro.deviceauth.authorization_changed.v1".
Definition DeviceTokenFamilyCompromisedType : bytes :=
  sbytes "talenro.deviceauth.token_family_compromised.v1".
Definition BundleIssuedType : bytes := sbytes "talenro.trust.bundle_issued.v1".
Definition BundleAcknowledgedType : bytes := sbytes "talenro.trust.bundle_acknowledged.v1".

Definition maxPayloadSize : Z := 256 * 1024.
Definition maximumEnvelopeBytes : Z := 264 * 1024.

Inductive event_err := EventInvalidEnvelope | EventInvalidPayload | EventUnsafePayload.

(** The registered messages of [api/proto]. *)
Inductive payload :=
| AccountStateChanged (principal_id state : bytes) (version : Z)
| EmailDeliveryRequested (delivery_id template_id locale : bytes)
| DeviceAuthorizationChanged (principal_id device_id authorization_id state : bytes) (version : Z)
| DeviceTokenFamilyCompromised (authorization_id family_id : bytes) (version : Z)
| BundleIssued (authorization_id bundle_id bundle_version envelope_sha256 : bytes)
| BundleAcknowledged (authorization_id bundle_id bundle_version : bytes).

Inductive payload_kind :=
| KindAccountStateChanged | KindEmailDeliveryRequested | KindDeviceAuthorizationChanged
| KindDeviceTokenFamilyCompromised | KindBundleIssued | KindBundleAcknowledged.

#[export] Instance payload_kind_eq_dec : EqDecision payload_kind.
Proof. solve_decision. Defined.

Definition kind_of (p : payload) : payload_kind :=
  match p with
  | AccountStateChanged _ _ _ => KindAccountStateChanged
  | EmailDeliveryRequested _ _ _ => KindEmailDeliveryRequested
  | DeviceAuthorizationChanged _ _ _ _ _ => KindDeviceAuthorizationChanged
  | DeviceTokenFamilyCompromised _ _ _ => KindDeviceTokenFamilyCompromised
  | BundleIssued _ _ _ _ => KindBundleIssued
  | BundleAcknowledged _ _ _ => KindBundleAcknowledged
  end.

(** A decoded message and whether it carries unknown fields. *)
Record message := MkMessage { ms_payload : payload; ms_unknown : bool }.

Record Timestamp := MkTimestamp { ts_seconds : Z; ts_nanos : Z; ts_unknown : bool }.

Record EventEnvelope := MkEventEnvelope {
  ev_EventId : bytes;
  ev_EventType : bytes;
  ev_OccurredAt : option Timestamp;
  ev_Producer : bytes;
  ev_AggregateType : bytes;
  ev_AggregateId : bytes;
  ev_AggregateVersion : Z;
  ev_IdempotencyKey : bytes;
  ev_TraceParent : bytes;
  ev_Payload : bytes;
  ev_unknown : bool }.

(** [google.golang.org/protobuf]: deterministic marshalling and strict
    unmarshalling of the two kinds of messages, and timestamps. *)
Class Protobuf := {
  proto_Marshal : EventEnvelope -> option bytes;
  proto_Unmarshal : bytes -> option EventEnvelope;
  proto_MarshalPayload : message -> option bytes;
  proto_UnmarshalPayload : payload_kind -> bytes -> option message;
  timestamp_IsValid : Timestamp -> bool;
  timestamp_AsTime : Timestamp -> time }.

(** What is marshalled unmarshals to the same message, and decoded versions are
    [uint64]. *)
Class ProtobufLaws `{Protobuf} := {
  proto_roundtrip e b : proto_Marshal e = Some b -> proto_Unmarshal b = Some e;
  proto_payload_roundtrip m b :
    proto_MarshalPayload m = Some b -> proto_UnmarshalPayload (kind_of (ms_payload m)) b = Some m;
  proto_payload_kind k b m : proto_UnmarshalPayload k b = Some m -> kind_of (ms_payload m) = k;
  proto_uint64 b e : proto_Unmarshal b = Some e -> is_u64 (ev_AggregateVersion e) }.

(** The messages' descriptors, from [api/proto]. *)
Definition message_name (k : payload_kind) : bytes :=
  match k with
  | KindAccountStateChanged => sbytes "talenro.identity.v1.AccountStateChanged"
  | KindEmailDeliveryRequested => sbytes "talenro.identity.v1.EmailDeliveryRequested"
  | KindDeviceAuthorizationChanged => sbytes "talenro.deviceauth.v1.DeviceAuthorizationChanged"
  | KindDeviceTokenFamilyCompromised => sbytes "talenro.deviceauth.v1.DeviceTokenFamilyCompromised"
  | KindBundleIssued => sbytes "talenro.trust.v1.BundleIssued"
  | KindBundleAcknowledged => sbytes "talenro.trust.v1.BundleAcknowledged"
  end.

Definition scalar_fields (names : list string) : list FieldDescriptor :=
  map (fun n => MkFieldDescriptor (sbytes n) None) names.

Definition message_fields (k : payload_kind) : list FieldDescriptor :=
  scalar_fields match k with
  | KindAccountStateChanged => ["principal_id"; "state"; "version"]
  | KindEmailDeliveryRequested => ["delivery_id"; "template_id"; "locale"]
  | KindDeviceAuthorizationChanged =>
      ["principal_id"; "device_id"; "authorization_id"; "state"; "version"]
  | KindDeviceTokenFamilyCompromised => ["authorization_id"; "family_id"; "version"]
  | KindBundleIssued => ["authorization_id"; "bundle_id"; "bundle_version"; "envelope_sha256"]
  | KindBundleAcknowledged => ["authorization_id"; "bundle_id"; "bundle_version"]
  end%string.

Definition payload_schema (k : payload_kind) : schema := {[ message_name k := message_fields k ]}.

(** ** Validation *)

(** The value is only used when the flag is set. *)
Definition positiveDecimal (value : bytes) : Z * bool :=
  match value with
  | [] => (0, false)
  | first :: _ =>
      if (19 <? len value) || bool_decide (first = "0"%byte) then (0, false)
      else match ParseUint value 10 63 with
           | Some parsed => (parsed, 0 <? parsed)
           | None => (0, false)
           end
  end.

Definition name_byte (allowDot : bool) (c : byte) : bool :=
  in_range "a" "z" c || in_range "0" "9" c || bool_decide (c = "_"%byte) || bool_decide (c = "-"%byte) ||
  (allowDot && bool_decide (c = "."%byte)).

Definition safeName (value : bytes) (maximum : Z) (allowDot : bool) : bool :=
  match value with
  | [] => false
  | first :: rest =>
      (len value <=? maximum) && in_range "a" "z" first && forallb (name_byte allowDot) rest
  end.

Definition letter (c : byte) : bool := in_range "a" "z" c || in_range "A" "Z" c.
Definition alphanumeric (c : byte) : bool := letter c || in_range "0" "9" c.

Definition safeIdempotencyKey (value : bytes) : bool :=
  negb ((len value =? 0) || (128 <? len value)) &&
  forallb (fun c => alphanumeric c || bool_decide (c ∈ [":"; "_"; "-"]%byte)) value.

Definition asciiLetters (value : bytes) : bool := forallb letter value.

Definition validLocale (value : bytes) : bool :=
  if (len value <? 2) || (35 <? len value) then false
  else match Split "-"%byte value with
       | [] => false
       | first :: parts =>
           negb ((len first <? 2) || (3 <? len first) || negb (asciiLetters first)) &&
           forallb (fun part => negb ((len part <? 2) || (8 <? len part)) && forallb alphanumeric part) parts
       end.

Definition hex_lower (c : byte) : bool := in_range "0" "9" c || in_range "a" "f" c.

(** [value[from:to]] *)
Definition slice (from to : nat) (l : bytes) : bytes := take (to - from) (drop from l).

Definition validTraceParent (value : bytes) : bool :=
  match value with
  | [] => true
  | _ =>
      if negb (len value =? 55) || negb (bool_decide (value !! 2%nat = Some "-"%byte)) ||
         negb (bool_decide (value !! 35%nat = Some "-"%byte)) ||
         negb (bool_decide (value !! 52%nat = Some "-"%byte))
      then false
      else forallb hex_lower (slice 0 2 value ++ slice 3 35 value ++ slice 36 52 value ++ slice 53 55 value) &&
           (slice 0 2 value != sbytes "ff") && (slice 3 35 value != repeat "0"%byte 32) &&
           (slice 36 52 value != repeat "0"%byte 16)
  end.

Definition lowerHex (value : bytes) (size : Z) : bool := (len value =? size) && forallb hex_lower value.

(** ** The registry *)

Definition registeredPayload (eventType : bytes) : option payload_kind :=
  if eventType == AccountStateChangedType then Some KindAccountStateChanged
  else if eventType == EmailDeliveryRequestedType then Some KindEmailDeliveryRequested
  else if eventType == DeviceAuthorizationChangedType then Some KindDeviceAuthorizationChanged
  else if eventType == DeviceTokenFamilyCompromisedType then Some KindDeviceTokenFamilyCompromised
  else if eventType == BundleIssuedType then Some KindBundleIssued
  else if eventType == BundleAcknowledgedType then Some KindBundleAcknowledged
  else None.

Definition spec_aggregateType (k : payload_kind) : bytes :=
  match k with
  | KindAccountStateChanged => sbytes "account"
  | KindEmailDeliveryRequested => sbytes "email_delivery"
  | KindDeviceAuthorizationChanged | KindDeviceTokenFamilyCompromised => sbytes "device_authorization"
  | KindBundleIssued | KindBundleAcknowledged => sbytes "bundle"
  end.

Definition spec_aggregateID (p : payload) : bytes :=
  match p with
  | AccountStateChanged principal_id _ _ => principal_id
  | EmailDeliveryRequested delivery_id _ _ => delivery_id
  | DeviceAuthorizationChanged _ _ authorization_id _ _ => authorization_id
  | DeviceTokenFamilyCompromised authorization_id _ _ => authorization_id
  | BundleIssued _ bundle_id _ _ => bundle_id
  | BundleAcknowledged _ bundle_id _ => bundle_id
  end.

(** The version of a payload and whether it is exact. *)
Definition spec_payloadVersion (p : payload) : Z * bool :=
  match p with
  | AccountStateChanged _ _ version => (version, true)
  | EmailDeliveryRequested _ _ _ => (0, false)
  | DeviceAuthorizationChanged _ _ _ _ version => (version, true)
  | DeviceTokenFamilyCompromised _ _ version => (version, true)
  | BundleIssued _ _ bundle_version _ => positiveDecimal bundle_version
  | BundleAcknowledged _ _ bundle_version => positiveDecimal bundle_version
  end.

Section Contract.
Context `{Primitives} `{UUIDText} `{Protobuf}.

Definition spec_validate (p : payload) : bool :=
  match p with
  | AccountStateChanged principal_id state version =>
      canonicalUUID principal_id && safeName state 32 false && (0 <? version)
  | EmailDeliveryRequested delivery_id template_id locale =>
      canonicalUUID delivery_id && safeName template_id 64 false && validLocale locale
  | DeviceAuthorizationChanged principal_id device_id authorization_id state version =>
      canonicalUUID principal_id && canonicalUUID device_id && canonicalUUID authorization_id &&
      safeName state 32 false && (0 <? version)
  | DeviceTokenFamilyCompromised authorization_id family_id version =>
      canonicalUUID authorization_id && canonicalUUID family_id && (0 <? version)
  | BundleIssued authorization_id bundle_id bundle_version envelope_sha256 =>
      canonicalUUID authorization_id && canonicalUUID bundle_id && (positiveDecimal bundle_version).2 &&
      lowerHex envelope_sha256 64
  | BundleAcknowledged authorization_id bundle_id bundle_version =>
      canonicalUUID authorization_id && canonicalUUID bundle_id && (positiveDecimal bundle_version).2
  end.

(** [hasUnknownFields] of an envelope: its own unknown fields and those of its
    timestamp. *)
Definition hasUnknownFields (e : EventEnvelope) : bool :=
  ev_unknown e || match ev_OccurredAt e with Some t => ts_unknown t | None => false end.

(** The payload of an event type, marshalled. *)
Definition MarshalPayload (eventType : bytes) (m : message) : result event_err bytes :=
  if ms_unknown m then Err EventInvalidPayload
  else if negb (ValidatePayloadDescriptor (payload_schema (kind_of (ms_payload m)))
                  (message_name (kind_of (ms_payload m))))
  then Err EventUnsafePayload
  else match registeredPayload eventType with
  | None => Err EventInvalidPayload
  | Some k =>
      if negb (bool_decide (kind_of (ms_payload m) = k)) || negb (spec_validate (ms_payload m))
      then Err EventInvalidPayload
      else match proto_MarshalPayload m with
           | None => Err EventInvalidPayload
           | Some encoded =>
               if (len encoded =? 0) || (maxPayloadSize <? len encoded) then Err EventInvalidPayload
               else Ok encoded
           end
  end.

Definition decodePayload (eventType encoded : bytes) : result event_err (payload_kind * message) :=
  match registeredPayload eventType with
  | None => Err EventInvalidPayload
  | Some k =>
      if (len encoded =? 0) || (maxPayloadSize <? len encoded) then Err EventInvalidPayload
      else match proto_UnmarshalPayload k encoded with
      | None => Err EventInvalidPayload
      | Some m =>
          if ms_unknown m || negb (ValidatePayloadDescriptor (payload_schema k) (message_name k)) ||
             negb (spec_validate (ms_payload m))
          then Err EventInvalidPayload
          else match proto_MarshalPayload m with
               | None => Err EventInvalidPayload
               | Some canonical => if canonical != encoded then Err EventInvalidPayload else Ok (k, m)
               end
      end
  end.

(** The generic metadata check, [ValidateEnvelope]. *)
Definition ValidateEnvelope (e : EventEnvelope) : bool :=
  (ev_EventId e != []) && has_prefix (sbytes "talenro.") (ev_EventType e) &&
  match ev_OccurredAt e with Some t => timestamp_IsValid t | None => false end &&
  (ev_Producer e != []) && (ev_AggregateType e != []) && (ev_AggregateId e != []) &&
  negb (ev_AggregateVersion e =? 0) && (ev_IdempotencyKey e != []) && negb (len (ev_Payload e) =? 0) &&
  (len (ev_Payload e) <=? maxPayloadSize).

(** [envelope.GetOccurredAt().AsTime()]; the zero timestamp when it is absent. *)
Definition occurred_at (e : EventEnvelope) : time :=
  timestamp_AsTime match ev_OccurredAt e with Some t => t | None => MkTimestamp 0 0 false end.

Definition validateEnvelope (e : EventEnvelope) : option event_err :=
  if negb (ValidateEnvelope e) || negb (canonicalUUID (ev_EventId e)) ||
     negb (safeName (ev_Producer e) 64 true) || negb (safeName (ev_AggregateType e) 64 false) ||
     negb (canonicalUUID (ev_AggregateId e)) || (ev_AggregateVersion e =? 0) ||
     (MaxInt64 <? ev_AggregateVersion e) || negb (safeIdempotencyKey (ev_IdempotencyKey e)) ||
     negb (validTraceParent (ev_TraceParent e))
  then Some EventInvalidEnvelope
  else if (Year (occurred_at e) <? 2020) || (2100 <? Year (occurred_at e))
  then Some EventInvalidEnvelope
  else match decodePayload (ev_EventType e) (ev_Payload e) with
  | Err _ => Some EventInvalidEnvelope
  | Ok (k, m) =>
      if (ev_AggregateType e != spec_aggregateType k) || (ev_AggregateId e != spec_aggregateID (ms_payload m))
      then Some EventInvalidEnvelope
      else let '(version, exact) := spec_payloadVersion (ms_payload m) in
           if exact && negb (version =? ev_AggregateVersion e) then Some EventInvalidEnvelope else None
  end.

Definition MarshalEnvelope (e : EventEnvelope) : result event_err bytes :=
  if hasUnknownFields e then Err EventInvalidEnvelope
  else match validateEnvelope e with
  | Some err => Err err
  | None =>
      match proto_Marshal e with
      | None => Err EventInvalidEnvelope
      | Some encoded =>
          if (len encoded =? 0) || (maximumEnvelopeBytes <? len encoded) then Err EventInvalidEnvelope
          else Ok encoded
      end
  end.

Definition UnmarshalEnvelope (encoded : bytes) : result event_err EventEnvelope :=
  if (len encoded =? 0) || (maximumEnvelopeBytes <? len encoded) then Err EventInvalidEnvelope
  else match proto_Unmarshal encoded with
  | None => Err EventInvalidEnvelope
  | Some e =>
      if ev_unknown e then Err EventInvalidEnvelope
      else match MarshalEnvelope e with
           | Err _ => Err EventInvalidEnvelope
           | Ok canonical => if canonical != encoded then Err EventInvalidEnvelope else Ok e
           end
  end.
End Contract.

(** ** Theorems *)

(** The registered messages pass the schema check. *)
Lemma registered_descriptors k : ValidatePayloadDescriptor (payload_schema k) (message_name k) = true.
Proof. destruct k; vm_compute; reflexivity. Qed.

Section Theorems.
Context `{Primitives} `{UUIDText} `{PL : ProtobufLaws}.

Lemma MarshalEnvelope_ok e b :
  MarshalEnvelope e = Ok b ->
  hasUnknownFields e = false /\ validateEnvelope e = None /\ proto_Marshal e = Some b /\
  0 < len b <= maximumEnvelopeBytes.
Proof.
  unfold MarshalEnvelope. intros Hm. case_top Hm; [done|]. case_top Hm; [done|]. case_top Hm; [|done].
  case_top Hm; [done|]. bool_props. simplify_eq. pose proof (len_nonneg b). split_and!; try done. lia.
Qed.

Lemma UnmarshalEnvelope_ok b e : UnmarshalEnvelope b = Ok e -> MarshalEnvelope e = Ok b.
Proof.
  unfold UnmarshalEnvelope. intros Hu. case_top Hu; [done|]. case_top Hu; [|done]. case_top Hu; [done|].
  case_top Hu; [|done]. case_top Hu; [done|]. bool_props. by simplify_eq.
Qed.

(** Envelopes and their wire forms. *)
Lemma envelope_wire e b : UnmarshalEnvelope b = Ok e <-> MarshalEnvelope e = Ok b.
Proof using PL.
  split; [apply UnmarshalEnvelope_ok|].
  - intros Hm. unfold UnmarshalEnvelope. destruct (MarshalEnvelope_ok _ _ Hm) as (Hn & Hv & Hp & Hl).
    rewrite (proj2 (Z.eqb_neq (len b) 0)), (proj2 (Z.ltb_ge maximumEnvelopeBytes (len b))) by lia. cbn [orb].
    rewrite (proto_roundtrip _ _ Hp). unfold hasUnknownFields in Hn. bool_props.
    match goal with E : ev_unknown e = false |- _ => rewrite E end.
    rewrite Hm. by rewrite bool_decide_eq_true_2.
Qed.

(** C36 (envelope_wire_bijection): an encoding is accepted as an envelope exactly
    when it is the envelope's own canonical encoding: envelopes and their wire
    forms determine each other. *)
Theorem envelope_wire_bijection e b : UnmarshalEnvelope b = Ok e <-> MarshalEnvelope e = Ok b.
Proof using PL. apply envelope_wire. Qed.

Lemma decodePayload_ok t b k m :
  decodePayload t b = Ok (k, m) ->
  registeredPayload t = Some k /\ proto_UnmarshalPayload k b = Some m /\ ms_unknown m = false /\
  spec_validate (ms_payload m) = true /\ proto_MarshalPayload m = Some b /\ 0 < len b <= maxPayloadSize.
Proof.
  unfold decodePayload. intros Hd. destruct (registeredPayload t); [|done]. case_top Hd; [done|].
  case_top Hd; [|done]. case_top Hd; [done|]. case_top Hd; [|done]. case_top Hd; [done|]. bool_props.
  simplify_eq. pose proof (len_nonneg b). split_and!; try done. lia.
Qed.

(** [payload_roundtrip]: a payload decodes for an event type exactly when it is
    what [MarshalPayload] produces for that type and message. *)
Theorem payload_roundtrip t b m :
  (exists k, decodePayload t b = Ok (k, m)) <-> MarshalPayload t m = Ok b.
Proof using PL.
  split.
  - intros [k Hd]. destruct (decodePayload_ok _ _ _ _ Hd) as (Hr & Hu & Hn & Hv & Hm & Hl).
    unfold MarshalPayload. rewrite Hn, registered_descriptors, Hr. cbn [negb].
    rewrite bool_decide_eq_true_2 by (by eapply proto_payload_kind). rewrite Hv, Hm. cbn [negb orb].
    by rewrite (proj2 (Z.eqb_neq (len b) 0)), (proj2 (Z.ltb_ge maxPayloadSize (len b))) by lia.
  - unfold MarshalPayload. intros Hm. case_top Hm; [done|]. case_top Hm; [done|].
    destruct (registeredPayload t) as [k|] eqn:Hr; [|done]. case_top Hm; [done|]. case_top Hm; [|done].
    case_top Hm; [done|]. bool_props. simplify_eq. eexists. unfold decodePayload. rewrite Hr.
    rewrite (proj2 (Z.eqb_neq (len b) 0)), (proj2 (Z.ltb_ge maxPayloadSize (len b))) by lia. cbn [orb].
    erewrite proto_payload_roundtrip by done. rewrite registered_descriptors.
    repeat match goal with E : ?x = _ |- context [?x] => rewrite E end. cbn [negb orb].
    by rewrite bool_decide_eq_true_2.
Qed.

(** C37 (accepted_envelope_consistent): an accepted envelope has a registered
    event type, its payload is a valid message of that type, and its aggregate
    type, identifier and version are the payload's. *)
Theorem accepted_envelope_consistent b e :
  UnmarshalEnvelope b = Ok e ->
  canonicalUUID (ev_EventId e) = true /\ canonicalUUID (ev_AggregateId e) = true /\
  0 < len (ev_Payload e) <= maxPayloadSize /\ ev_AggregateVersion e <= MaxInt64 /\
  exists k m, registeredPayload (ev_EventType e) = Some k /\ kind_of (ms_payload m) = k /\
    proto_MarshalPayload m = Some (ev_Payload e) /\ spec_validate (ms_payload m) = true /\
    ev_AggregateType e = spec_aggregateType k /\ ev_AggregateId e = spec_aggregateID (ms_payload m) /\
    ((spec_payloadVersion (ms_payload m)).2 = true ->
     ev_AggregateVersion e = (spec_payloadVersion (ms_payload m)).1).
Proof using PL.
  intros Hu%UnmarshalEnvelope_ok. destruct (MarshalEnvelope_ok _ _ Hu) as (_ & Hv & _).
  unfold validateEnvelope in Hv. case_top Hv; [done|]. case_top Hv; [done|].
  destruct (decodePayload _ _) as [[k m]|] eqn:Hdec; [|done]. case_top Hv; [done|]. destruct (spec_payloadVersion _) as [version exact_] eqn:Hver.
  case_top Hv; [done|]. bool_props.
  destruct (decodePayload_ok _ _ _ _ Hdec) as (Hr & Hu' & _ & Hval & Hpm & Hl).
  split_and!; try done; try lia. exists k, m. rewrite Hver.
  split_and!; try done; [by eapply proto_payload_kind|]. cbn. intros ->.
  match goal with E : (true && _) = false |- _ => cbn in E; bool_props end. done.
Qed.
End Theorems.

(** ** Witness *)

#[export] Instance payload_eq_dec : EqDecision payload.
Proof. solve_decision. Defined.
#[export] Instance message_eq_dec : EqDecision message.
Proof. solve_decision. Defined.
#[export] Instance Timestamp_eq_dec : EqDecision Timestamp.
Proof. solve_decision. Defined.
#[export] Instance EventEnvelope_eq_dec : EqDecision EventEnvelope.
Proof. solve_decision. Defined.

Definition sample_id_text : bytes := sbytes "01010101-0101-0101-0101-010101010101".
#[local] Instance sample_event_lib : Primitives :=
  {| Sum256 b := repeat x00 32; uuid_variant_rfc4122 _ := true; uuid_String _ := sample_id_text;
     jcs_Transform := Some |}.
#[local] Instance sample_event_uuid : UUIDText := {| uuid_Parse _ := Some (repeat x01 16) |}.

Definition sample_message : message :=
  MkMessage (AccountStateChanged sample_id_text (sbytes "active") 3) false.
Definition sample_payload : bytes := sbytes "payload".
Definition sample_wire : bytes := sbytes "envelope".
Definition sample_envelope : EventEnvelope :=
  MkEventEnvelope sample_id_text AccountStateChangedType (Some (MkTimestamp 1704067200 0 false))
    (sbytes "identity") (sbytes "account") sample_id_text 3 (sbytes "key-1") [] sample_payload false.

(** A codec that knows one envelope and one message. *)
#[local] Instance sample_protobuf : Protobuf :=
  {| proto_Marshal e := if decide (e = sample_envelope) then Some sample_wire else None;
     proto_Unmarshal b := if decide (b = sample_wire) then Some sample_envelope else None;
     proto_MarshalPayload m := if decide (m = sample_message) then Some sample_payload else None;
     proto_UnmarshalPayload k b :=
       if decide (k = KindAccountStateChanged /\ b = sample_payload) then Some sample_message else None;
     timestamp_IsValid _ := true;
     timestamp_AsTime t := Time (unix_epoch_nanos + ts_seconds t * Second + ts_nanos t) true |}.

Lemma sample_protobuf_laws : @ProtobufLaws sample_protobuf.
Proof.
  split; cbn.
  - intros e b. destruct (decide (e = _)) as [->|]; [|done]. intros [= <-]. by rewrite decide_True.
  - intros m b. destruct (decide (m = _)) as [->|]; [|done]. intros [= <-]. by rewrite decide_True.
  - intros k b m. destruct (decide _) as [[-> _]|]; [|done]. by intros [= <-].
  - intros b e. destruct (decide _); [|done]. intros [= <-]. unfold is_u64. cbn. lia.
Qed.

Lemma accepted_envelope_consistent_witness :
  UnmarshalEnvelope sample_wire = Ok sample_envelope /\
  canonicalUUID (ev_EventId sample_envelope) = true /\ ev_AggregateVersion sample_envelope <= MaxInt64.
Proof.
  assert (UnmarshalEnvelope sample_wire = Ok sample_envelope) as Hu by (vm_compute; reflexivity).
  destruct (@accepted_envelope_consistent _ _ _ sample_protobuf_laws _ _ Hu) as (Hi & _ & _ & Hv & _).
  split; [exact Hu|]. split; [exact Hi|exact Hv].
Defined.

Lemma envelope_wire_bijection_witness : MarshalEnvelope sample_envelope = Ok sample_wire.
Proof.
  apply (@envelope_wire_bijection _ _ _ sample_protobuf_laws sample_envelope sample_wire).
  vm_compute. reflexivity.
Defined.

Lemma payload_roundtrip_witness : MarshalPayload AccountStateChangedType sample_message = Ok sample_payload.
Proof.
  apply (@payload_roundtrip _ _ _ sample_protobuf_laws).
  exists KindAccountStateChanged. vm_compute. reflexivity.
Defined.
