(* ===== verification/Outbox.v ===== *)
(** The transactional outbox: [internal/outbox/repository.go] (appending),
    [internal/outbox/publisher.go] (leasing, publishing and retrying) and
    [internal/outbox/nats.go] (the broker adapter), over the table
    [transactional_outbox] and the statements of [db/queries/outbox.sql].

    JetStream is a parameter ([JetStream]). *)
From Stdlib Require Import ZArith Lia Strings.Byte.
From stdpp Require Import base gmap list sorting strings numbers option.
From S2P Require Import Prelude GoStd GoTime AuthorityTypes Ledger FenceRows FenceStore Text Descriptors Events Programs.

#[local] Open Scope go_scope.
#[local] Open Scope prog_scope.

(** ** The table *)

(** [store.TransactionalOutbox] *)
Record OutboxRow := MkOutboxRow {
  ob_EventID : UUID;
  ob_EventType : bytes;
  ob_AggregateType : bytes;
  ob_AggregateID : UUID;
  ob_AggregateVersion : Z;
  ob_IdempotencyKey : bytes;
  ob_Payload : bytes;
  ob_OccurredAt : time;
  ob_AvailableAt : time;
  ob_ClaimedUntil : option time;
  ob_Attempts : Z;
  ob_PublishedAt : option time }.

Abbreviation outbox_table := (gmap UUID OutboxRow).

Definition regex_tail (bound : Z) (p : byte -> bool) (l : bytes) : bool :=
  (1 <=? len l) && (len l <=? bound) && forallb p l.

(** The constraints of the table. *)
Definition outbox_checks (r : OutboxRow) : bool :=
  (has_prefix (sbytes "talenro.") (ob_EventType r) &&
   regex_tail 127 (name_byte true) (drop 8 (ob_EventType r))) &&
  match ob_AggregateType r with
  | [] => false
  | first :: rest =>
      in_range "a" "z" first && (len rest <=? 63) &&
      forallb (fun c => in_range "a" "z" c || in_range "0" "9" c || bool_decide (c = "_"%byte)) rest
  end &&
  (0 <? ob_AggregateVersion r) && safeIdempotencyKey (ob_IdempotencyKey r) &&
  (1 <=? len (ob_Payload r)) && (len (ob_Payload r) <=? 262144) && (0 <=? ob_Attempts r).

Definition set_lease (until : option time) (attempts : Z) (r : OutboxRow) : OutboxRow :=
  MkOutboxRow (ob_EventID r) (ob_EventType r) (ob_AggregateType r) (ob_AggregateID r)
    (ob_AggregateVersion r) (ob_IdempotencyKey r) (ob_Payload r) (ob_OccurredAt r) (ob_AvailableAt r)
    until attempts (ob_PublishedAt r).

Definition set_published (at_ : time) (r : OutboxRow) : OutboxRow :=
  MkOutboxRow (ob_EventID r) (ob_EventType r) (ob_AggregateType r) (ob_AggregateID r)
    (ob_AggregateVersion r) (ob_IdempotencyKey r) (ob_Payload r) (ob_OccurredAt r) (ob_AvailableAt r)
    None (ob_Attempts r) (Some at_).

Definition set_available (at_ : time) (r : OutboxRow) : OutboxRow :=
  MkOutboxRow (ob_EventID r) (ob_EventType r) (ob_AggregateType r) (ob_AggregateID r)
    (ob_AggregateVersion r) (ob_IdempotencyKey r) (ob_Payload r) (ob_OccurredAt r) at_
    None (ob_Attempts r) (ob_PublishedAt r).

(** ** Statements *)

Definition MaxInt32 : Z := 2 ^ 31 - 1.

(** What the database leaves open about a claim: which rows other transactions
    hold locked, how rows that occurred at the same time are ordered, and in
    which order the claimed rows are returned. *)
Record claim_plan := MkClaimPlan {
  cp_locked : UUID -> bool;
  cp_rank : UUID -> Z;
  cp_emit : UUID -> Z }.

Section Statements.
Context `{TimestampColumn}.

(** [WHERE published_at IS NULL AND available_at <= $1 AND (claimed_until IS NULL
    OR claimed_until < $1)] *)
Definition claimable (now : time) (r : OutboxRow) : bool :=
  is_nil (ob_PublishedAt r) && (t_nanos (ob_AvailableAt r) <=? t_nanos now) &&
  match ob_ClaimedUntil r with None => true | Some until => t_nanos until <? t_nanos now end.

Definition occurred_before (rank : UUID -> Z) (a b : OutboxRow) : Prop :=
  t_nanos (ob_OccurredAt a) < t_nanos (ob_OccurredAt b) \/
  (t_nanos (ob_OccurredAt a) = t_nanos (ob_OccurredAt b) /\ rank (ob_EventID a) <= rank (ob_EventID b)).

#[export] Instance occurred_before_dec rank : RelDecision (occurred_before rank).
Proof. intros a b. unfold occurred_before. apply _. Defined.

Definition emitted_before (rank : UUID -> Z) (a b : OutboxRow) : Prop :=
  rank (ob_EventID a) <= rank (ob_EventID b).

#[export] Instance emitted_before_dec rank : RelDecision (emitted_before rank).
Proof. intros a b. unfold emitted_before. apply _. Defined.

Definition claim_candidates (plan : claim_plan) (now : time) (limit : Z) (t : outbox_table) : list OutboxRow :=
  take (Z.to_nat limit)
    (merge_sort (occurred_before (cp_rank plan))
       (List.filter (fun r => claimable now r && negb (cp_locked plan (ob_EventID r))) (map_to_list t).*2)).

(** [None] is an error: an attempt counter that would leave the [integer] type. *)
Definition ClaimOutboxBatch (plan : claim_plan) (now : time) (limit : Z) (until : time) (t : outbox_table) :
  option (list OutboxRow * outbox_table) :=
  let candidates := claim_candidates plan (column_time now) limit t in
  let leased r := set_lease (Some (column_time until)) (ob_Attempts r + 1) r in
  if existsb (fun r => MaxInt32 <=? ob_Attempts r) candidates then None
  else Some (merge_sort (emitted_before (cp_emit plan)) (map leased candidates),
             (fun r => if bool_decide (ob_EventID r ∈ map ob_EventID candidates) then leased r else r) <$> t).

(** The number of rows changed. *)
Definition MarkOutboxPublished (eventID : UUID) (publishedAt : time) (t : outbox_table) : Z * outbox_table :=
  match t !! eventID with
  | Some r =>
      if is_nil (ob_PublishedAt r) then (1, <[eventID := set_published (column_time publishedAt) r]> t) else (0, t)
  | None => (0, t)
  end.

Definition ReleaseOutboxClaim (eventID : UUID) (availableAt : time) (t : outbox_table) : Z * outbox_table :=
  match t !! eventID with
  | Some r =>
      if is_nil (ob_PublishedAt r) then (1, <[eventID := set_available (column_time availableAt) r]> t) else (0, t)
  | None => (0, t)
  end.

(** [None] is a constraint violation. *)
Definition InsertOutboxEvent (eventID : UUID) (eventType aggregateType : bytes) (aggregateID : UUID)
  (aggregateVersion : Z) (idempotencyKey payload : bytes) (occurredAt availableAt : time)
  (t : outbox_table) : option outbox_table :=
  let r := MkOutboxRow eventID eventType aggregateType aggregateID aggregateVersion idempotencyKey payload
             (column_time occurredAt) (column_time availableAt) None 0 None in
  if not_nil (t !! eventID) || negb (outbox_checks r) then None else Some (<[eventID := r]> t).
End Statements.

(** ** Appending *)

Inductive outbox_err := OutboxInvalidEvent | OutboxStore | OutboxCanceled | OutboxHandler | OutboxCommit
| OutboxInvalidConfiguration.

#[export] Instance outbox_err_eq_dec : EqDecision outbox_err.
Proof. solve_decision. Defined.

Section Append.
Context `{Primitives} `{UUIDText} `{Protobuf} `{TimestampColumn}.

(** [uuid.Parse] of a canonical text that is not nil. *)
Definition parse_canonical (value : bytes) : option UUID :=
  match uuid_Parse value with
  | Some u => if (u == uuid_Nil) || (uuid_String u != value) then None else Some u
  | None => None
  end.

(** [Append] in a transaction of the caller's; [fault e 0] is a failure of the
    statement. *)
Definition Append (e : env) (envelope : EventEnvelope) (t : outbox_table) : option outbox_err * outbox_table :=
  if poll e 0 == CtxNil then (Some OutboxInvalidEvent, t)
  else if ctx_done (poll e 1) then (Some OutboxCanceled, t)
  else match MarshalEnvelope envelope with
  | Err _ => (Some OutboxInvalidEvent, t)
  | Ok encoded =>
      match parse_canonical (ev_EventId envelope) with
      | None => (Some OutboxInvalidEvent, t)
      | Some eventID =>
          match parse_canonical (ev_AggregateId envelope) with
          | None => (Some OutboxInvalidEvent, t)
          | Some aggregateID =>
              if MaxInt64 <? ev_AggregateVersion envelope then (Some OutboxInvalidEvent, t)
              else
                let occurredAt := occurred_at envelope in
                if ctx_done (poll e 2) then (Some OutboxCanceled, t)
                else match (if is_err (fault e 0) then None
                            else InsertOutboxEvent eventID (ev_EventType envelope) (ev_AggregateType envelope)
                                   aggregateID (i64 (ev_AggregateVersion envelope)) (ev_IdempotencyKey envelope)
                                   encoded occurredAt occurredAt t) with
                     | Some t' => (None, t')
                     | None => (Some (if ctx_done (poll e 3) then OutboxCanceled else OutboxStore), t)
                     end
          end
      end
  end.
End Append.

(** ** Retry delays *)

Definition publisherClaimLimit : Z := 100.
Definition publisherLease : Z := 30 * Second.
Definition maximumPublishBytes : Z := 264 * 1024.
Definition minimumRetryDelay : Z := Second.
Definition maximumRetryDelay : Z := 30 * Second.

(** The loop of [retryBase]; [None] when the fuel runs out. *)
Fixpoint retry_loop (fuel : nat) (step attempts delay : Z) : option Z :=
  match fuel with
  | O => None
  | S fuel =>
      if negb (step <? attempts) then
        Some (if maximumRetryDelay <? delay then maximumRetryDelay else delay)
      else if Z.quot maximumRetryDelay 2 <=? delay then Some maximumRetryDelay
      else retry_loop fuel (step + 1) attempts (i64 (delay * 2))
  end.

(** Six rounds are enough: see [retry_loop_terminates]. *)
Definition retryBase (attempts : Z) : Z :=
  let attempts := if attempts <? 1 then 1 else attempts in
  default 0 (retry_loop 6 1 attempts minimumRetryDelay).

(** [sample] is what [io.ReadFull] read, [None] for an error. *)
Definition retryDelay (attempts : Z) (sample : option bytes) : option Z :=
  let base := retryBase attempts in
  match sample with
  | None => None
  | Some sample =>
      let minimum := Z.quot (i64 (base * 8)) 10 in
      let span := i64 (Z.quot (i64 (base * 4)) 10 + 1) in
      let offset := i64 (u64 (be_value sample) mod u64 span) in
      Some (i64 (minimum + offset))
  end.

(** The delay [release] uses. *)
Definition release_delay (attempts : Z) (sample : option bytes) : Z :=
  match retryDelay attempts sample with Some delay => delay | None => retryBase attempts end.

(** ** The broker *)

(** Acknowledgements and messages of [nats.go]; the [Nats-Msg-Id] header is
    [nm_id]. *)
Record PubAck := MkPubAck { pa_Stream : bytes; pa_Sequence : Z }.
Record Msg := MkMsg { nm_Subject : bytes; nm_id : bytes; nm_Data : bytes }.

Definition EventStreamName : bytes := sbytes "TALENRO_EVENTS".

(** JetStream: what a publication answers ([None] for an error or a panic), and
    the messages the event stream holds. *)
Class JetStream := {
  js_state : Type;
  js_choice : Type;
  js_PublishMsg : js_choice -> Msg -> js_state -> option PubAck * js_state;
  js_stored : js_state -> Msg -> Prop }.

(** An acknowledgement by the stream means that it holds the message; it holds
    nothing that was not published, and drops nothing. *)
Class JetStreamLaws `{JetStream} := {
  js_ack_stored ch m s ack s' :
    js_PublishMsg ch m s = (Some ack, s') -> pa_Stream ack = EventStreamName -> pa_Sequence ack <> 0 ->
    js_stored s' m;
  js_keeps ch m s ack s' m' : js_PublishMsg ch m s = (ack, s') -> js_stored s m' -> js_stored s' m';
  js_only ch m s ack s' m' :
    js_PublishMsg ch m s = (ack, s') -> js_stored s' m' -> js_stored s m' \/ m' = m }.

Definition SubjectForEventType (eventType : bytes) : option bytes :=
  if bool_decide (eventType ∈ [AccountStateChangedType; EmailDeliveryRequestedType;
       DeviceAuthorizationChangedType; DeviceTokenFamilyCompromisedType; BundleIssuedType;
       BundleAcknowledgedType])
  then Some eventType else None.

(** [NATSBroker.Publish]; the flag says whether it returned nil. *)
Definition BrokerPublish `{JetStream} (ctx : ctx_poll) (ch : js_choice) (subject messageID payload : bytes)
  (s : js_state) : bool * js_state :=
  if (ctx != CtxLive) || (len messageID =? 0) || (len payload =? 0) then (false, s)
  else if SubjectForEventType subject != Some subject then (false, s)
  else match js_PublishMsg ch (MkMsg subject messageID payload) s with
       | (Some ack, s') => ((pa_Stream ack == EventStreamName) && negb (pa_Sequence ack =? 0), s')
       | (None, s') => (false, s')
       end.

(** ** The publisher *)

Inductive pub_err := PubConfiguration | PubStore | PubEvent | PubPublish | PubCanceled.

#[export] Instance pub_err_eq_dec : EqDecision pub_err.
Proof. solve_decision. Defined.

Definition validPublisherTime (value : time) : bool :=
  negb (IsZero value) && t_utc value && (2020 <=? Year value) && (Year value <=? 2100).

Definition publisherContextOr (ctx : ctx_poll) (fallback : pub_err) : pub_err :=
  if ctx_done ctx then PubCanceled else fallback.

(** The calls of [PublishAvailable] to its store, broker, clock, random source
    and context; errors of the store carry no detail. *)
Inductive pcall : Type -> Type :=
| PPoll : pcall ctx_poll
| PNow : pcall time
| PRandom : pcall (option bytes)
| PClaim (now : time) (limit : Z) (claimedUntil : time) : pcall (option (list OutboxRow))
| PPublish (subject messageID payload : bytes) : pcall bool
| PMark (eventID : UUID) (now : time) : pcall (option pub_err)
| PRelease (eventID : UUID) (availableAt : time) : pcall (option pub_err).

Section Publisher.
Context `{Primitives} `{UUIDText} `{Protobuf}.

Definition validatePublisherRow (row : OutboxRow) : option bytes :=
  if (ob_EventID row == uuid_Nil) || (ob_AggregateID row == uuid_Nil) || (ob_AggregateVersion row <? 1) ||
     (len (ob_Payload row) =? 0) || (maximumPublishBytes <? len (ob_Payload row))
  then None
  else match UnmarshalEnvelope (ob_Payload row) with
  | Err _ => None
  | Ok envelope =>
      if (ev_EventId envelope != uuid_String (ob_EventID row)) || (ev_EventType envelope != ob_EventType row) ||
         (ev_AggregateId envelope != uuid_String (ob_AggregateID row)) ||
         (ev_AggregateType envelope != ob_AggregateType row) ||
         negb (ev_AggregateVersion envelope =? u64 (ob_AggregateVersion row)) ||
         (ev_IdempotencyKey envelope != ob_IdempotencyKey row)
      then None
      else SubjectForEventType (ob_EventType row)
  end.

Definition release (row : OutboxRow) (now : time) : prog pcall unit :=
  let! sample := trigger PRandom in
  let! _ := trigger (PRelease (ob_EventID row) (time_Add now (release_delay (ob_Attempts row) sample))) in
  Ret tt.

(** [batchErr = publisherContextOr(ctx, fallback)] *)
Definition batch_error (fallback : pub_err) : prog pcall (option pub_err) :=
  let! ctx := trigger PPoll in Ret (Some (publisherContextOr ctx fallback)).

(** What one round of the loop makes of its row: whether it counts as processed,
    and the error it leaves. *)
Definition publish_row (now : time) (row : OutboxRow) : prog pcall (bool * option pub_err) :=
  match validatePublisherRow row with
  | None => let! _ := release row now in Ret (false, Some PubEvent)
  | Some subject =>
      let! published := trigger (PPublish subject (uuid_String (ob_EventID row)) (ob_Payload row)) in
      if negb published then
        let! _ := release row now in let! err := batch_error PubPublish in Ret (false, err)
      else
        let! marked := trigger (PMark (ob_EventID row) now) in
        if is_err marked then let! err := batch_error PubStore in Ret (false, err)
        else Ret (true, None)
  end.

Fixpoint publish_rows (now : time) (rows : list OutboxRow) (processed : Z) (batchErr : option pub_err) :
  prog pcall (Z * option pub_err) :=
  match rows with
  | [] => Ret (processed, batchErr)
  | row :: rows =>
      let! outcome := publish_row now row in
      if outcome.1 then publish_rows now rows (processed + 1) batchErr
      else publish_rows now rows processed outcome.2
  end.

Definition PublishAvailable : prog pcall (Z * option pub_err) :=
  let! ctx := trigger PPoll in
  if ctx != CtxLive then Ret (0, Some PubCanceled)
  else
    let! now := trigger PNow in
    if negb (validPublisherTime now) then Ret (0, Some PubStore)
    else
      let! claimed := trigger (PClaim now publisherClaimLimit (time_Add now publisherLease)) in
      match claimed with
      | Some rows =>
          if publisherClaimLimit <? len rows then let! err := batch_error PubStore in Ret (0, err)
          else publish_rows now rows 0 None
      | None => let! err := batch_error PubStore in Ret (0, err)
      end.
End Publisher.

(** ** The Postgres publisher store *)

(** How a statement that is its own transaction goes: it runs, it fails, or it
    runs and its answer is lost. *)
Inductive db_fate := DbRuns | DbFails | DbAnswerLost.

Definition autocommit {A S} (fate : db_fate) (statement : S -> option (A * S)) (s : S) : option A * S :=
  match fate, statement s with
  | DbRuns, Some (a, s') => (Some a, s')
  | DbAnswerLost, Some (_, s') => (None, s')
  | DbFails, _ | _, None => (None, s)
  end.

Section PublisherStore.
Context `{TimestampColumn}.

Definition Claim (fate : db_fate) (plan : claim_plan) (now : time) (limit : Z) (claimedUntil : time)
  (t : outbox_table) : option (list OutboxRow) * outbox_table :=
  autocommit fate (ClaimOutboxBatch plan now limit claimedUntil) t.

(** [rows, err := ...; if err != nil || rows < 0 || rows > 1 { return ErrPublisherStore }] *)
Definition at_most_one (answer : option Z * outbox_table) : option pub_err * outbox_table :=
  match answer with
  | (Some rows, t) => (if (rows <? 0) || (1 <? rows) then Some PubStore else None, t)
  | (None, t) => (Some PubStore, t)
  end.

Definition MarkPublished (fate : db_fate) (eventID : UUID) (now : time) (t : outbox_table) :
  option pub_err * outbox_table :=
  at_most_one (autocommit fate (fun t => Some (MarkOutboxPublished eventID now t)) t).

Definition Release (fate : db_fate) (eventID : UUID) (availableAt : time) (t : outbox_table) :
  option pub_err * outbox_table :=
  at_most_one (autocommit fate (fun t => Some (ReleaseOutboxClaim eventID availableAt t)) t).
End PublisherStore.

(** ** The worker *)

(** [Start], [Close] and the worker goroutine: the fields the mutex guards, how
    many goroutines were launched, whether the worker's context is canceled and
    whether its [done] channel is closed. *)
Record worker := MkWorker {
  wk_started : bool;
  wk_closed : bool;
  wk_launched : nat;
  wk_canceled : bool;
  wk_done : bool }.

Definition worker_init : worker := MkWorker false false 0 false false.

Definition Start (w : worker) : bool * worker :=
  if wk_started w || wk_closed w then (false, w)
  else (true, MkWorker true (wk_closed w) (S (wk_launched w)) false false).

(** [Close] up to its wait: whether it waits. *)
Definition Close (w : worker) : bool * worker :=
  if wk_started w then (true, MkWorker true true (wk_launched w) true (wk_done w))
  else (false, MkWorker (wk_started w) true (wk_launched w) (wk_canceled w) (wk_done w)).

(** What [Close] may return after its wait: nil once the worker is done, an error
    once the caller's context is, either of them when both are. *)
Inductive close_returns (ctx : ctx_poll) (w : worker) : option pub_err -> Prop :=
| close_done : wk_done w = true -> close_returns ctx w None
| close_canceled : ctx = CtxDone -> close_returns ctx w (Some PubCanceled).

(** [run] returns, closing [done], only when its context is done. *)
Inductive worker_step : worker -> worker -> Prop :=
| worker_Start w : worker_step w (Start w).2
| worker_Close w : worker_step w (Close w).2
| worker_exit w :
    wk_started w = true -> wk_canceled w = true ->
    worker_step w (MkWorker true (wk_closed w) (wk_launched w) true true).
