(* ===== verification/OutboxSafety.v ===== *)
(** What the outbox statements and the publisher keep: the content of an event
    never changes, a lease keeps other claims away, retry delays are bounded, and
    every appended row can be published. *)
From Stdlib Require Import ZArith Lia Strings.Byte.
From stdpp Require Import base gmap list sorting strings numbers option.
From S2P Require Import Prelude GoStd GoTime AuthorityTypes Ledger FenceRows FenceStore Text Descriptors Events Programs Outbox.

#[local] Open Scope go_scope.

(** ** Retry delays *)

Lemma retry_next fuel step attempts delay :
  step < attempts /\ delay < Z.quot maximumRetryDelay 2 ->
  retry_loop (S fuel) step attempts delay = retry_loop fuel (step + 1) attempts (i64 (delay * 2)).
Proof.
  intros [Hs Hd]. cbn [retry_loop]. rewrite (proj2 (Z.ltb_lt step attempts) Hs). cbn [negb].
  by rewrite (proj2 (Z.leb_gt _ _) Hd).
Qed.

Lemma retry_stop fuel step attempts delay :
  step < attempts -> Z.quot maximumRetryDelay 2 <= delay ->
  retry_loop (S fuel) step attempts delay = Some maximumRetryDelay.
Proof.
  intros Hs Hd. cbn [retry_loop]. rewrite (proj2 (Z.ltb_lt step attempts) Hs). cbn [negb].
  by rewrite (proj2 (Z.leb_le _ _) Hd).
Qed.

(** The loop returns within six rounds, whatever the number of attempts: the
    delay doubles from one second and the loop stops at fifteen. *)
Lemma retry_loop_terminates attempts :
  1 <= attempts ->
  retry_loop 6 1 attempts minimumRetryDelay = Some (Z.min maximumRetryDelay (2 ^ (attempts - 1) * Second)).
Proof.
  intros Ha. destruct (Z.le_gt_cases 6 attempts) as [Hb|Hb].
  - assert (2 ^ 5 <= 2 ^ (attempts - 1)) as Hp by (apply Z.pow_le_mono_r; lia).
    rewrite Z.min_l by (unfold maximumRetryDelay, Second, Millisecond, Microsecond; lia).
    do 4 (rewrite retry_next by (split; [lia|reflexivity])). apply retry_stop; [lia|by vm_compute].
  - assert (attempts = 1 \/ attempts = 2 \/ attempts = 3 \/ attempts = 4 \/ attempts = 5) as Hc by lia.
    destruct Hc as [->|[->|[->|[->| ->]]]]; reflexivity.
Qed.

Lemma retryBase_spec attempts :
  retryBase attempts = Z.min maximumRetryDelay (2 ^ (Z.max 1 attempts - 1) * Second).
Proof.
  unfold retryBase. destruct (attempts <? 1) eqn:E; bool_props.
  - rewrite Z.max_l by lia. reflexivity.
  - rewrite Z.max_r by lia. by rewrite retry_loop_terminates.
Qed.

(** A number of whole seconds between one and thirty. *)
Lemma retryBase_seconds attempts : exists k, retryBase attempts = k * Second /\ 1 <= k <= 30.
Proof.
  rewrite retryBase_spec. exists (Z.min 30 (2 ^ (Z.max 1 attempts - 1))).
  assert (1 <= 2 ^ (Z.max 1 attempts - 1)) by (pose proof (Z.pow_pos_nonneg 2 (Z.max 1 attempts - 1)); lia).
  unfold maximumRetryDelay, Second, Millisecond, Microsecond. lia.
Qed.

Lemma i64_small z : is_i64 z -> i64 z = z.
Proof. unfold i64, is_i64. intros H. rewrite Z.mod_small; lia. Qed.

Lemma release_delay_bounds attempts sample :
  8 * retryBase attempts <= 10 * release_delay attempts sample <= 12 * retryBase attempts.
Proof.
  destruct (retryBase_seconds attempts) as (k & Hk & Hr). unfold release_delay, retryDelay.
  rewrite Hk. unfold Second, Millisecond, Microsecond.
  destruct sample as [b|]; [|lia].
  replace (k * (1000 * (1000 * 1000)) * 8) with (k * 800000000 * 10) by lia.
  replace (k * (1000 * (1000 * 1000)) * 4) with (k * 400000000 * 10) by lia.
  rewrite (i64_small (_ * 10)), (i64_small (k * 400000000 * 10)), !Z.quot_mul by (unfold is_i64; lia).
  rewrite (i64_small (_ + 1)) by (unfold is_i64; lia).
  assert (u64 (k * 400000000 + 1) = k * 400000000 + 1) as -> by (unfold u64; rewrite Z.mod_small; lia).
  pose proof (Z.mod_pos_bound (u64 (be_value b)) (k * 400000000 + 1) ltac:(lia)) as Hm.
  rewrite (i64_small (_ mod _)), i64_small by (unfold is_i64; lia). lia.
Qed.

(** ** Content *)

(** The same event: everything but availability, lease, attempts and
    publication. *)
Definition same_event (a b : OutboxRow) : Prop :=
  ob_EventID a = ob_EventID b /\ ob_EventType a = ob_EventType b /\ ob_AggregateType a = ob_AggregateType b /\
  ob_AggregateID a = ob_AggregateID b /\ ob_AggregateVersion a = ob_AggregateVersion b /\
  ob_IdempotencyKey a = ob_IdempotencyKey b /\ ob_Payload a = ob_Payload b /\ ob_OccurredAt a = ob_OccurredAt b.

#[export] Instance same_event_equivalence : Equivalence same_event.
Proof. unfold same_event. split; red; intuition congruence. Qed.

#[export] Instance event_type_proper : Proper (same_event ==> eq) ob_EventType.
Proof. intros a b He. apply He. Qed.
#[export] Instance event_id_proper : Proper (same_event ==> eq) ob_EventID.
Proof. intros a b He. apply He. Qed.

(** The message a row is published as. *)
Definition row_msg `{Primitives} (r : OutboxRow) : Msg :=
  MkMsg (ob_EventType r) (uuid_String (ob_EventID r)) (ob_Payload r).

#[export] Instance row_msg_proper `{Primitives} : Proper (same_event ==> eq) row_msg.
Proof. intros a b (Hi & Ht & _ & _ & _ & _ & Hp & _). unfold row_msg. by rewrite Hi, Ht, Hp. Qed.

#[export] Instance validatePublisherRow_proper `{Primitives} `{UUIDText} `{Protobuf} :
  Proper (same_event ==> eq) validatePublisherRow.
Proof.
  intros a b (Hi & Ht & Hat & Hai & Hav & Hk & Hp & _). unfold validatePublisherRow.
  by rewrite Hi, Ht, Hat, Hai, Hav, Hk, Hp.
Qed.

(** A table of rows under their own keys. *)
Definition keyed (t : outbox_table) : Prop := forall id r, t !! id = Some r -> ob_EventID r = id.

(** The events of one table are in another, with the same content. *)
Definition table_le (t t' : outbox_table) : Prop :=
  forall id r, t !! id = Some r -> exists r', t' !! id = Some r' /\ same_event r r'.

#[export] Instance table_le_preorder : PreOrder table_le.
Proof.
  split; [intros t id r Hr; by exists r|]. intros a b c Hab Hbc id r Hr.
  destruct (Hab _ _ Hr) as (r1 & H1 & He1). destruct (Hbc _ _ H1) as (r2 & H2 & He2).
  exists r2. split; [done|by etrans].
Qed.

(** Every row of [t'] is one of [t] with the same content, published already in
    [t] or related to it by [pub]. *)
Definition only_updates (pub : OutboxRow -> Prop) (t t' : outbox_table) : Prop :=
  forall id r', t' !! id = Some r' -> exists r, t !! id = Some r /\ same_event r r' /\
    (ob_PublishedAt r' = ob_PublishedAt r \/ pub r).

Lemma insert_update pub t id r r' :
  t !! id = Some r -> same_event r r' -> (ob_PublishedAt r' = ob_PublishedAt r \/ pub r) ->
  table_le t (<[id := r']> t) /\ only_updates pub t (<[id := r']> t).
Proof.
  intros Hr He Hp. split.
  - intros i x Hx. destruct (decide (i = id)) as [->|Hne].
    + exists r'. rewrite lookup_insert_eq. by simplify_eq.
    + exists x. by rewrite lookup_insert_ne.
  - intros i x Hx. destruct (decide (i = id)) as [->|Hne].
    + rewrite lookup_insert_eq in Hx. simplify_eq. by exists r.
    + rewrite lookup_insert_ne in Hx by done. exists x. split_and!; [done|done|by left].
Qed.

Lemma no_update pub t : table_le t t /\ only_updates pub t t.
Proof. split; [done|]. intros id r Hr. exists r. split_and!; [done|done|by left]. Qed.

Section Statements.
Context `{TimestampColumn}.

Lemma MarkOutboxPublished_updates id at_ t :
  table_le t (MarkOutboxPublished id at_ t).2 /\
  only_updates (fun r => ob_EventID r = id \/ t !! id = Some r) t (MarkOutboxPublished id at_ t).2.
Proof.
  unfold MarkOutboxPublished. destruct (t !! id) as [r|] eqn:Hr; [|apply no_update].
  destruct (is_nil _); [|apply no_update]. apply insert_update with (r := r); [done|done|by right; right].
Qed.

Lemma ReleaseOutboxClaim_updates id at_ t :
  table_le t (ReleaseOutboxClaim id at_ t).2 /\ only_updates (fun _ => False) t (ReleaseOutboxClaim id at_ t).2.
Proof.
  unfold ReleaseOutboxClaim. destruct (t !! id) as [r|] eqn:Hr; [|apply no_update].
  destruct (is_nil _); [|apply no_update]. apply insert_update with (r := r); [done|done|by left].
Qed.

Lemma candidate_claimable plan now limit t r :
  r ∈ claim_candidates plan now limit t ->
  (exists id, t !! id = Some r) /\ claimable now r = true.
Proof.
  intros Hr. unfold claim_candidates in Hr. apply elem_of_take in Hr as (i & Hi & _).
  apply list_elem_of_lookup_2 in Hi. rewrite merge_sort_Permutation in Hi.
  apply list_elem_of_In, filter_In in Hi as [Hi Hc]. apply list_elem_of_In, list_elem_of_fmap in Hi as ([id x] & -> & Hx).
  apply elem_of_map_to_list in Hx. bool_props. split; [by exists id|done].
Qed.

Lemma ClaimOutboxBatch_updates plan now limit until t rows t' :
  ClaimOutboxBatch plan now limit until t = Some (rows, t') ->
  table_le t t' /\ only_updates (fun _ => False) t t'.
Proof.
  unfold ClaimOutboxBatch. intros Hc. case_top Hc; [done|]. simplify_eq. split.
  - intros id r Hr. rewrite lookup_fmap, Hr. eexists. split; [done|]. by case_bool_decide.
  - intros id r' Hr. rewrite lookup_fmap_Some in Hr. destruct Hr as (r & <- & Hr). exists r.
    case_bool_decide; (split_and!; [done|done|by left]).
Qed.

(** A claimed row is in the table, with the lease it was given. *)
Lemma ClaimOutboxBatch_rows plan now limit until t rows t' row :
  keyed t -> ClaimOutboxBatch plan now limit until t = Some (rows, t') -> row ∈ rows ->
  t' !! ob_EventID row = Some row /\ ob_ClaimedUntil row = Some (column_time until) /\
  exists r, t !! ob_EventID row = Some r /\ same_event r row /\ claimable (column_time now) r = true.
Proof.
  unfold ClaimOutboxBatch. intros Hk Hc Hin. case_top Hc; [done|]. simplify_eq.
  rewrite merge_sort_Permutation in Hin. apply list_elem_of_In, in_map_iff in Hin as (r & <- & Hin).
  apply list_elem_of_In in Hin. destruct (candidate_claimable _ _ _ _ _ Hin) as [[id Hid] Hcl].
  assert (ob_EventID r = id) as <- by (by eapply Hk). cbn [set_lease ob_EventID].
  split_and!; [|done|by exists r]. rewrite lookup_fmap, Hid. cbn. rewrite bool_decide_eq_true_2; [done|].
  apply list_elem_of_In, in_map, list_elem_of_In. done.
Qed.
End Statements.

(** ** Appending *)

Section Append.
Context `{Primitives} `{UUIDText} `{PL : ProtobufLaws} `{TimestampColumn}.

Lemma parse_canonical_spec v u : parse_canonical v = Some u <-> uuid_Parse v = Some u /\ u <> uuid_Nil /\ uuid_String u = v.
Proof.
  unfold parse_canonical. destruct (uuid_Parse v) as [x|]; [|naive_solver].
  destruct (_ || _) eqn:E; [|bool_props; naive_solver].
  split; [done|]. intros ([= ->] & Hn & Hs). exfalso.
  by rewrite bool_decide_eq_false_2, bool_decide_eq_true_2 in E.
Qed.

Lemma canonicalUUID_parse v : canonicalUUID v = true -> exists u, parse_canonical v = Some u.
Proof.
  unfold canonicalUUID. destruct (uuid_Parse v) as [u|] eqn:E; [|done]. intros Hc. bool_props.
  exists u. by apply parse_canonical_spec.
Qed.

(** What a marshalled envelope satisfies. *)
Lemma marshalled_envelope e b :
  MarshalEnvelope e = Ok b ->
  canonicalUUID (ev_EventId e) = true /\ canonicalUUID (ev_AggregateId e) = true /\
  0 < ev_AggregateVersion e <= MaxInt64 /\ safeIdempotencyKey (ev_IdempotencyKey e) = true /\
  0 < len b <= maximumEnvelopeBytes /\
  exists k, registeredPayload (ev_EventType e) = Some k /\ ev_AggregateType e = spec_aggregateType k.
Proof using PL.
  intros Hm. destruct (MarshalEnvelope_ok _ _ Hm) as (_ & Hv & Hp & Hl).
  pose proof (proto_uint64 _ _ (proto_roundtrip _ _ Hp)) as Hu. unfold is_u64 in Hu.
  unfold validateEnvelope in Hv. case_top Hv; [done|]. case_top Hv; [done|].
  destruct (decodePayload _ _) as [[k m]|] eqn:Hd; [|done]. case_top Hv; [done|]. bool_props.
  destruct (decodePayload_ok _ _ _ _ Hd) as (Hr & _). split_and!; try done; try lia. by exists k.
Qed.

Lemma registered_subject ty k : registeredPayload ty = Some k -> SubjectForEventType ty = Some ty.
Proof.
  unfold registeredPayload, SubjectForEventType. intros Hr. rewrite bool_decide_eq_true_2; [done|].
  repeat (case_bool_decide; [subst; set_solver|]). done.
Qed.

(** The row [Append] inserts. *)
Definition appended_row (envelope : EventEnvelope) (eventID aggregateID : UUID) (encoded : bytes) : OutboxRow :=
  MkOutboxRow eventID (ev_EventType envelope) (ev_AggregateType envelope) aggregateID
    (ev_AggregateVersion envelope) (ev_IdempotencyKey envelope) encoded
    (column_time (occurred_at envelope)) (column_time (occurred_at envelope)) None 0 None.

Lemma appended_row_valid envelope eventID aggregateID encoded :
  MarshalEnvelope envelope = Ok encoded ->
  parse_canonical (ev_EventId envelope) = Some eventID ->
  parse_canonical (ev_AggregateId envelope) = Some aggregateID ->
  validatePublisherRow (appended_row envelope eventID aggregateID encoded) = Some (ev_EventType envelope).
Proof using PL.
  intros Hm Hi Ha. destruct (marshalled_envelope _ _ Hm) as (_ & _ & Hv & _ & Hl & k & Hr & _).
  apply parse_canonical_spec in Hi as (_ & Hni & Hsi). apply parse_canonical_spec in Ha as (_ & Hna & Hsa).
  unfold validatePublisherRow, appended_row. cbn.
  rewrite !bool_decide_eq_false_2 by done. unfold maximumEnvelopeBytes in Hl. unfold maximumPublishBytes.
  rewrite (proj2 (Z.ltb_ge _ 1)), (proj2 (Z.eqb_neq (len encoded) 0)), (proj2 (Z.ltb_ge (264 * 1024) _)) by lia.
  cbn [orb]. rewrite (proj2 (envelope_wire envelope encoded) Hm), Hsi, Hsa.
  rewrite !bool_decide_eq_true_2 by done. unfold u64, MaxInt64 in *. rewrite Z.mod_small, Z.eqb_refl by lia.
  cbn. by eapply registered_subject.
Qed.

Lemma appended_row_checks envelope eventID aggregateID encoded :
  MarshalEnvelope envelope = Ok encoded ->
  outbox_checks (appended_row envelope eventID aggregateID encoded) = (len encoded <=? 262144).
Proof using PL.
  intros Hm. destruct (marshalled_envelope _ _ Hm) as (_ & _ & Hv & Hk & Hl & k & Hr & Ha).
  unfold outbox_checks, appended_row. cbn [ob_EventType ob_AggregateType ob_AggregateVersion
    ob_IdempotencyKey ob_Payload ob_Attempts]. rewrite Ha, Hk.
  rewrite (proj2 (Z.ltb_lt 0 _)), (proj2 (Z.leb_le 1 (len encoded))) by lia.
  assert (has_prefix (sbytes "talenro.") (ev_EventType envelope) &&
    regex_tail 127 (name_byte true) (drop 8 (ev_EventType envelope)) = true) as ->.
  { unfold registeredPayload in Hr. repeat (case_top Hr; [bool_props; match goal with E : ev_EventType _ = _ |- _ => rewrite E end; reflexivity|]).
    done. }
  destruct k; cbn -[Z.leb]; by rewrite andb_true_r.
Qed.

Lemma Append_cases e envelope t err t' :
  Append e envelope t = (err, t') ->
  match err with
  | Some _ => t' = t
  | None => exists eventID aggregateID encoded,
      MarshalEnvelope envelope = Ok encoded /\ parse_canonical (ev_EventId envelope) = Some eventID /\
      parse_canonical (ev_AggregateId envelope) = Some aggregateID /\ t !! eventID = None /\
      t' = <[eventID := appended_row envelope eventID aggregateID encoded]> t
  end.
Proof using PL.
  unfold Append. intros Ha. case_top Ha; [by simplify_eq|]. case_top Ha; [by simplify_eq|].
  destruct (MarshalEnvelope envelope) as [encoded|] eqn:Hm; [|by simplify_eq].
  destruct (parse_canonical (ev_EventId _)) as [eventID|] eqn:Hi; [|by simplify_eq].
  destruct (parse_canonical (ev_AggregateId _)) as [aggregateID|] eqn:Hg; [|by simplify_eq].
  case_top Ha; [by simplify_eq|]. cbv zeta in Ha. case_top Ha; [by simplify_eq|].
  case_top Ha; simplify_eq; [|done]. destruct (is_err _); [done|].
  destruct (marshalled_envelope _ _ Hm) as (_ & _ & Hv & _). rewrite i64_small in * by (unfold is_i64, MaxInt64 in *; lia).
  unfold InsertOutboxEvent in *. destruct (not_nil _ || _) eqn:E; [done|]. bool_props. simplify_eq.
  by exists eventID, aggregateID, encoded.
Qed.

Lemma Append_calm envelope encoded t :
  MarshalEnvelope envelope = Ok encoded -> len encoded <= 262144 ->
  (forall id, parse_canonical (ev_EventId envelope) = Some id -> t !! id = None) ->
  exists t', Append calm envelope t = (None, t').
Proof using PL.
  intros Hm Hl Hfree. destruct (marshalled_envelope _ _ Hm) as (Hci & Hca & Hv & _).
  destruct (canonicalUUID_parse _ Hci) as [eventID Hi]. destruct (canonicalUUID_parse _ Hca) as [aggregateID Ha].
  unfold Append. rewrite Hm, Hi, Ha. cbn. rewrite (proj2 (Z.ltb_ge _ _)) by lia.
  change (ctx_done CtxLive) with false. cbn [is_err].
  rewrite i64_small by (unfold is_i64, MaxInt64 in *; lia). unfold InsertOutboxEvent.
  rewrite (Hfree _ Hi). fold (appended_row envelope eventID aggregateID encoded).
  rewrite (appended_row_checks _ _ _ _ Hm), (proj2 (Z.leb_le _ _)) by lia. eexists. done.
Qed.
End Append.
