(* ===== verification/OutboxSystem.v ===== *)
(** The deduplicating event consumer of [internal/outbox/consumer.go], over the
    table [consumed_event_ids].

    The handler is a parameter: what it makes of the application's state in the
    transaction, [None] when it fails or panics.

    Event delivery as a whole: transactions that append events, any number of
    publishers whose calls interleave, the stream, and consumers that receive
    what the stream holds, in any order and any number of times. *)
From Stdlib Require Import ZArith Lia Strings.Byte.
From stdpp Require Import base gmap list strings numbers option relations.
From S2P Require Import Prelude GoStd GoTime AuthorityTypes Ledger FenceRows FenceStore Programs Text Descriptors Events Outbox OutboxSafety.

#[local] Open Scope go_scope.

Definition maximumConsumerRetention : Z := 365 * 24 * Hour.
Definition consumedEventRetention : Z := 30 * 24 * Hour.

Definition consumer_byte (c : byte) : bool :=
  in_range "a" "z" c || in_range "0" "9" c || bool_decide (c ∈ ["."; "-"]%byte).

Definition validConsumerName (value : bytes) : bool :=
  match value with
  | [] => false
  | first :: rest => (len value <=? 128) && in_range "a" "z" first && forallb consumer_byte rest
  end.

Record consumer := MkConsumer { cr_name : bytes; cr_retention : Z }.

Definition newConsumerForTest (name : bytes) (retention : Z) : result outbox_err consumer :=
  if negb (validConsumerName name) || (retention <=? 0) || (maximumConsumerRetention <? retention)
  then Err OutboxInvalidConfiguration else Ok (MkConsumer name retention).

(** [NewConsumer] with its fixed retention. *)
Definition NewConsumer (name : bytes) : result outbox_err consumer :=
  newConsumerForTest name consumedEventRetention.

(** ** The table *)

Record ConsumedRow := MkConsumedRow { cn_consumed_at : time; cn_expires_at : time }.
Abbreviation consumed_table := (gmap (bytes * UUID) ConsumedRow).

(** The constraint on the column [consumer]. *)
Definition consumer_check (name : bytes) : bool :=
  match name with
  | [] => false
  | first :: rest => in_range "a" "z" first && (len rest <=? 127) && forallb (name_byte true) rest
  end.

(** The state a transaction of the consumer works on. *)
Record cstate (App : Type) := MkCState { cs_consumed : consumed_table; cs_app : App }.
Arguments MkCState {App}.
Arguments cs_consumed {App}.
Arguments cs_app {App}.

(** What the environment decides about one delivery: polls and failures (0:
    begin, 1: record, 2: commit), whether the handler fails for a reason of its
    own, and whether a commit that reports a failure took effect. *)
Record consume_env := MkConsumeEnv {
  ce_env : env;
  ce_handler_fails : bool;
  ce_committed : bool }.

Definition calm_delivery : consume_env := MkConsumeEnv calm false false.

Section Consumer.
Context `{Primitives} `{UUIDText} `{Protobuf} `{TimestampColumn} {App : Type}.

(** [None] is a constraint violation, otherwise the number of rows inserted. *)
Definition RecordConsumedEvent (name : bytes) (eventID : UUID) (consumedAt expiresAt : time)
  (t : consumed_table) : option (Z * consumed_table) :=
  if negb (consumer_check name) then None
  else match t !! (name, eventID) with
       | Some _ => Some (0, t)
       | None => Some (1, <[(name, eventID) := MkConsumedRow (column_time consumedAt) (column_time expiresAt)]> t)
       end.

(** [DELETE FROM consumed_event_ids WHERE expires_at < $1] *)
Definition PruneConsumedEvents (at_ : time) (t : consumed_table) : consumed_table :=
  filter (fun kv => ~ t_nanos (cn_expires_at kv.2) < t_nanos (column_time at_)) t.

Definition mapConsumerContextOrStore (ctx : ctx_poll) : outbox_err :=
  if ctx_done ctx then OutboxCanceled else OutboxStore.

(** [handlerFailed]; the state the handler leaves in the transaction when it did
    not fail. *)
Definition handlerFailed (e : consume_env) (handler : EventEnvelope -> App -> option App)
  (envelope : EventEnvelope) (app : App) : option App :=
  if ce_handler_fails e then None else handler envelope app.

Definition Consume (c : consumer) (handler : EventEnvelope -> App -> option App) (ce : consume_env)
  (encoded : bytes) (consumedAt : time) (s : cstate App) : option outbox_err * cstate App :=
  let e := ce_env ce in
  if (poll e 0 == CtxNil) || IsZero consumedAt || (Year consumedAt <? 2020) || (2100 <? Year consumedAt)
  then (Some OutboxInvalidEvent, s)
  else if ctx_done (poll e 1) then (Some OutboxCanceled, s)
  else match UnmarshalEnvelope encoded with
  | Err _ => (Some OutboxInvalidEvent, s)
  | Ok envelope =>
      match parse_canonical (ev_EventId envelope) with
      | None => (Some OutboxInvalidEvent, s)
      | Some eventID =>
          let expiresAt := time_Add consumedAt (cr_retention c) in
          if negb (After expiresAt consumedAt) || (2101 <? Year expiresAt) then (Some OutboxInvalidEvent, s)
          else if is_err (fault e 0) then (Some (mapConsumerContextOrStore (poll e 2)), s)
          else match (if is_err (fault e 1) then None
                      else RecordConsumedEvent (cr_name c) eventID consumedAt expiresAt (cs_consumed s)) with
          | None => (Some (mapConsumerContextOrStore (poll e 3)), s)
          | Some (rows, consumed) =>
              if negb (rows =? 0) && negb (rows =? 1) then (Some OutboxStore, s)
              else match (if rows =? 1 then handlerFailed ce handler envelope (cs_app s) else Some (cs_app s)) with
              | None => (Some (if ctx_done (poll e 4) then OutboxCanceled else OutboxHandler), s)
              | Some app =>
                  let s' := MkCState consumed app in
                  if is_err (fault e 2) then
                    (Some (if ctx_done (poll e 5) then OutboxCanceled else OutboxCommit),
                     if ce_committed ce then s' else s)
                  else (None, s')
              end
          end
      end
  end.
End Consumer.

(** ** The publisher's world *)

(** What the environment decides at one call of a publisher. *)
Record pchoice `{JetStream} := MkPChoice {
  pc_poll : ctx_poll;
  pc_now : time;
  pc_random : option bytes;
  pc_fate : db_fate;
  pc_plan : claim_plan;
  pc_js : js_choice }.

Section World.
Context `{JetStream} `{TimestampColumn}.

Record pworld := MkPWorld { pw_table : outbox_table; pw_stream : js_state }.

Definition on_table {A} (f : outbox_table -> A * outbox_table) (w : pworld) : A * pworld :=
  let '(a, t) := f (pw_table w) in (a, MkPWorld t (pw_stream w)).

(** One call: the store is the Postgres store, the broker the JetStream one. *)
Definition pexec {X} (c : pcall X) (ch : pchoice) : pworld -> X * pworld :=
  match c in pcall X return pworld -> X * pworld with
  | PPoll => fun w => (pc_poll ch, w)
  | PNow => fun w => (pc_now ch, w)
  | PRandom => fun w => (pc_random ch, w)
  | PClaim now limit claimedUntil => on_table (Claim (pc_fate ch) (pc_plan ch) now limit claimedUntil)
  | PPublish subject messageID payload => fun w =>
      let '(ok, s) := BrokerPublish (pc_poll ch) (pc_js ch) subject messageID payload (pw_stream w) in
      (ok, MkPWorld (pw_table w) s)
  | PMark eventID now => on_table (MarkPublished (pc_fate ch) eventID now)
  | PRelease eventID availableAt => on_table (Release (pc_fate ch) eventID availableAt)
  end.
End World.

Section Growth.
Context `{Primitives} `{UUIDText} `{Protobuf} `{JetStream}.

(** A row under its own key that the publisher accepts, and that the stream
    holds when it is marked published. *)
Definition row_ok (s : js_state) (id : UUID) (r : OutboxRow) : Prop :=
  ob_EventID r = id /\ validatePublisherRow r = Some (ob_EventType r) /\
  (ob_PublishedAt r <> None -> js_stored s (row_msg r)) /\ parse_canonical (uuid_String id) = Some id.

(** The rows are in order, and the stream holds messages of rows only. *)
Definition pworld_ok (w : pworld) : Prop :=
  (forall id r, pw_table w !! id = Some r -> row_ok (pw_stream w) id r) /\
  (forall m, js_stored (pw_stream w) m -> exists id r, pw_table w !! id = Some r /\ m = row_msg r).

Definition stream_le (s s' : js_state) : Prop := forall m, js_stored s m -> js_stored s' m.

Definition pworld_le (w w' : pworld) : Prop :=
  table_le (pw_table w) (pw_table w') /\ stream_le (pw_stream w) (pw_stream w').

#[export] Instance pworld_le_preorder : PreOrder pworld_le.
Proof.
  split; [intros w; split; [done|by intros m]|]. intros a b c [Ht1 Hs1] [Ht2 Hs2].
  split; [by etrans|]. intros m Hm. by apply Hs2, Hs1.
Qed.
End Growth.

(** Weakest preconditions of publisher programs. *)
Abbreviation pwp := (Programs.wp (@pexec _ _) pworld_ok pworld_le).
Abbreviation pwp_ret := (Programs.wp_ret (@pexec _ _) pworld_ok pworld_le).
Abbreviation pwp_bind := (Programs.wp_bind (@pexec _ _) pworld_ok pworld_le).
Abbreviation pwp_trigger := (Programs.wp_trigger (@pexec _ _) pworld_ok pworld_le).
Abbreviation pwp_up := (Programs.wp_up (@pexec _ _) pworld_ok pworld_le).

Section Publisher.
Context `{Primitives} `{UUIDText} `{PL : ProtobufLaws} `{JL : JetStreamLaws} `{TimestampColumn}.

Implicit Types (w : pworld).

(** The world holds the event of a row. *)
Definition held (row : OutboxRow) w : Prop :=
  exists r, pw_table w !! ob_EventID row = Some r /\ same_event row r.

Lemma held_up row w w' : held row w -> pworld_le w w' -> held row w'.
Proof.
  intros (r & Hr & He) [Ht _]. destruct (Ht _ _ Hr) as (r' & Hr' & He'). exists r'. split; [done|by etrans].
Qed.

Lemma held_valid row w : pworld_ok w -> held row w -> validatePublisherRow row = Some (ob_EventType row).
Proof.
  intros [Hok _] (r & Hr & He). destruct (Hok _ _ Hr) as (_ & Hv & _). by rewrite He.
Qed.

(** An update of the table that marks published only what the stream holds. *)
Lemma update_ok pub w t' :
  pworld_ok w -> table_le (pw_table w) t' -> only_updates pub (pw_table w) t' ->
  (forall id r, pw_table w !! id = Some r -> pub r -> js_stored (pw_stream w) (row_msg r)) ->
  pworld_ok (MkPWorld t' (pw_stream w)) /\ pworld_le w (MkPWorld t' (pw_stream w)).
Proof.
  intros [Hrows Hms] Hle Hup Hpub. split; [split; cbn|split; [done|by intros m]].
  - intros id r' Hr'. destruct (Hup _ _ Hr') as (r & Hr & He & Hp). destruct (Hrows _ _ Hr) as (Hid & Hv & Hst & Hpc).
    split_and!.
    + by rewrite <- He.
    + by rewrite <- He.
    + intros Hne. rewrite <- He. destruct Hp as [Hp|Hp]; [apply Hst; congruence|by eapply Hpub].
    + done.
  - intros m Hm. destruct (Hms _ Hm) as (id & r & Hr & ->). destruct (Hle _ _ Hr) as (r' & Hr' & He).
    exists id, r'. split; [done|]. by rewrite He.
Qed.

Lemma autocommit_cases {A S} fate (f : S -> option (A * S)) s a s' :
  autocommit fate f s = (a, s') ->
  (s' = s /\ a = None) \/ exists x, f s = Some (x, s') /\ (a = None \/ a = Some x).
Proof.
  unfold autocommit. destruct fate, (f s) as [[x s1]|] eqn:Hf; intros [= <- <-]; eauto 6.
Qed.

(** *** Calls *)

Lemma read_call {X} (c : pcall X) P w :
  (forall ch w1, (pexec c ch w1).2 = w1) ->
  (forall x w', pworld_le w w' -> pworld_ok w' -> P x w') -> pwp (trigger c) P w.
Proof.
  intros Hc HP. apply pwp_trigger. intros w1 ch x w2 Hle Hok He.
  assert (w2 = w1) as -> by (rewrite <- (Hc ch w1), He; done). split_and!; [done|done|].
  intros w3 Hle3 Hok3. apply HP; [by etrans|done].
Qed.

Lemma claim_call now limit until w :
  pwp (trigger (PClaim now limit until))
    (fun res w' => forall rows, res = Some rows -> Forall (fun row => held row w') rows) w.
Proof.
  apply pwp_trigger. intros w1 ch res w2 Hle Hok He. cbn in He. unfold on_table in He.
  destruct (Claim _ _ _ _ _ _) as [a t'] eqn:Hc. simplify_eq. unfold Claim in Hc.
  apply autocommit_cases in Hc as [[-> ->]|(x & Hc & Ha)].
  - destruct w1. cbn. split_and!; [done|done|]. by intros.
  - destruct (ClaimOutboxBatch_updates _ _ _ _ _ _ _ Hc) as [Htl Hup].
    destruct (update_ok (fun _ => False) w1 t' Hok Htl Hup) as [Hok' Hle']; [done|]. split_and!; [done|done|].
    intros w3 Hle3 _ rows ->. destruct Ha as [Ha|[= ->]]; [done|]. apply Forall_forall. intros row Hin.
    destruct (ClaimOutboxBatch_rows _ _ _ _ _ _ _ row (fun id r Hr => proj1 (proj1 Hok id r Hr)) Hc)
      as (Hr & _); [done|].
    eapply held_up; [|exact Hle3]. by exists row.
Qed.

Lemma release_call id at_ w : pwp (trigger (PRelease id at_)) (fun _ _ => True) w.
Proof.
  apply pwp_trigger. intros w1 ch res w2 Hle Hok He. cbn in He. unfold on_table in He.
  destruct (Release _ _ _ _) as [a t'] eqn:Hc. simplify_eq. unfold Release, at_most_one in Hc.
  destruct (autocommit _ _ _) as [n t1] eqn:Ha. assert (t1 = t') as -> by (destruct n; congruence).
  apply autocommit_cases in Ha as [[-> ->]|(x & Hx & _)]; [by destruct w1|].
  injection Hx as Hx. destruct (ReleaseOutboxClaim_updates id at_ (pw_table w1)) as [Htl Hup]. rewrite Hx in Htl, Hup.
  by destruct (update_ok (fun _ => False) w1 t' Hok Htl Hup).
Qed.

(** Marking a row is allowed once the stream holds its message. *)
Lemma mark_call row now w :
  held row w -> js_stored (pw_stream w) (row_msg row) ->
  pwp (trigger (PMark (ob_EventID row) now)) (fun _ _ => True) w.
Proof.
  intros Hheld Hst. apply pwp_trigger. intros w1 ch res w2 Hle Hok He. cbn in He. unfold on_table in He.
  destruct (MarkPublished _ _ _ _) as [a t'] eqn:Hc. simplify_eq. unfold MarkPublished, at_most_one in Hc.
  destruct (autocommit _ _ _) as [n t1] eqn:Ha. assert (t1 = t') as -> by (destruct n; congruence).
  apply autocommit_cases in Ha as [[-> ->]|(x & Hx & _)]; [by destruct w1|].
  injection Hx as Hx. destruct (MarkOutboxPublished_updates (ob_EventID row) now (pw_table w1)) as [Htl Hup].
  rewrite Hx in Htl, Hup. destruct (update_ok _ w1 t' Hok Htl Hup); [|done].
  intros id r Hr Hpub. destruct (held_up _ _ _ Hheld Hle) as (r0 & Hr0 & He0).
  assert (r = r0) as ->.
  { destruct Hpub as [Hi|Hi]; [|congruence]. destruct (proj1 Hok _ _ Hr) as (Hk & _). congruence. }
  rewrite <- He0. by apply Hle.
Qed.

(** A publication of a held row that returns nil is in the stream. *)
Lemma publish_call row w :
  held row w ->
  pwp (trigger (PPublish (ob_EventType row) (uuid_String (ob_EventID row)) (ob_Payload row)))
    (fun ok w' => ok = true -> js_stored (pw_stream w') (row_msg row)) w.
Proof using JL.
  intros Hheld. apply pwp_trigger. intros w1 ch ok w2 Hle Hok He. cbn in He.
  destruct (BrokerPublish _ _ _ _ _ _) as [ok' s'] eqn:Hb. simplify_eq. unfold BrokerPublish in Hb.
  case_top Hb; [simplify_eq; by destruct w1|]. case_top Hb; [simplify_eq; by destruct w1|].
  fold (row_msg row) in Hb. destruct (js_PublishMsg _ _ _) as [ack s1] eqn:Hj.
  assert (s1 = s') as -> by (destruct ack; congruence).
  assert (pworld_le w1 (MkPWorld (pw_table w1) s')) as Hle'.
  { split; [done|]. intros m Hm. by eapply js_keeps. }
  split_and!; [|done|].
  - destruct Hok as [Hrows Hms]. split; cbn.
    + intros id r Hr. destruct (Hrows _ _ Hr) as (? & ? & Hst & ?). split_and!; [done|done| |done].
      intros Hp. eapply js_keeps; [exact Hj|auto].
    + intros m Hm. destruct (js_only _ _ _ _ _ _ Hj Hm) as [Hm'| ->]; [by apply Hms|].
      destruct (held_up _ _ _ Hheld Hle) as (r & Hr & He0). exists (ob_EventID row), r. split; [done|]. by rewrite <- He0.
  - intros w3 Hle3 _ ->. apply Hle3. cbn. destruct ack as [ack|]; [|congruence]. injection Hb as Hb.
    bool_props. by eapply js_ack_stored.
Qed.

(** *** Programs *)

Lemma release_wp row now w : pwp (release row now) (fun _ _ => True) w.
Proof.
  eapply pwp_bind; [by apply read_call with (P := fun _ _ => True)|]. intros sample w1 _ _ _.
  eapply pwp_bind; [apply release_call|]. done.
Qed.

Lemma batch_error_wp fallback w :
  fallback <> PubEvent -> pwp (batch_error fallback) (fun err _ => err <> Some PubEvent) w.
Proof.
  intros Hf. eapply pwp_bind; [by apply read_call with (P := fun _ _ => True)|]. intros ctx w1 _ _ _.
  apply pwp_ret. intros w2 _ _ [= He]. unfold publisherContextOr in He. by destruct (ctx_done ctx).
Qed.

Lemma publish_row_wp now row w :
  held row w -> pwp (publish_row now row) (fun outcome _ => outcome.2 <> Some PubEvent) w.
Proof using JL PL.
  intros Hheld. apply (Programs.wp_intro _ _ _). intros w0 Hle0 Hok0. unfold publish_row.
  rewrite (held_valid row w0 Hok0 (held_up _ _ _ Hheld Hle0)).
  eapply pwp_bind; [apply publish_call; by eapply held_up|]. intros ok w1 Hle1 Hok1 Hst. destruct ok; cbn [negb].
  - eapply pwp_bind; [apply mark_call; [by eapply held_up, Hle1; eapply held_up|by apply Hst]|].
    intros [e|] w2 Hle2 Hok2 _; cbn [is_err]; [|by apply pwp_ret].
    eapply pwp_bind; [by apply batch_error_wp|]. intros err w3 _ _ He. by apply pwp_ret.
  - eapply pwp_bind; [apply release_wp|]. intros _ w2 _ _ _.
    eapply pwp_bind; [by apply batch_error_wp|]. intros err w3 _ _ He. by apply pwp_ret.
Qed.

(** What a run of the publisher returns. *)
Definition run_post (n : Z) (res : Z * option pub_err) (_ : pworld) : Prop :=
  0 <= res.1 <= n /\ res.2 <> Some PubEvent.

Lemma publish_rows_wp now rows processed batchErr w :
  Forall (fun row => held row w) rows -> 0 <= processed -> batchErr <> Some PubEvent ->
  pwp (publish_rows now rows processed batchErr) (run_post (processed + len rows)) w.
Proof using JL PL.
  revert processed batchErr w. induction rows as [|row rows IH]; intros processed batchErr w Hh Hp Hb; cbn.
  - apply pwp_ret. intros. split; cbn; [unfold len; cbn; lia|done].
  - apply Forall_cons in Hh as [Hr Hh].
    eapply pwp_bind; [by apply publish_row_wp|]. intros [ok err] w1 Hle1 _ He. cbn in He |- *.
    assert (Forall (fun row => held row w1) rows) as Hh1
      by (eapply Forall_impl; [exact Hh|]; intros r Hr'; exact (held_up _ _ _ Hr' Hle1)).
    assert (len (row :: rows) = 1 + len rows) as Hlen by (unfold len; cbn; lia).
    destruct ok; (eapply Programs.wp_mono; [|apply IH; [done|lia|done]]); intros a w2 [Ha Hna];
      (split; [|done]); rewrite Hlen; lia.
Qed.

Lemma PublishAvailable_wp w : pwp PublishAvailable (run_post publisherClaimLimit) w.
Proof using JL PL.
  eapply pwp_bind; [by apply read_call with (P := fun _ _ => True)|]. intros ctx w1 _ _ _.
  destruct (ctx != CtxLive); [by apply pwp_ret|].
  eapply pwp_bind; [by apply read_call with (P := fun _ _ => True)|]. intros now w2 _ _ _.
  destruct (negb _); [by apply pwp_ret|].
  eapply pwp_bind; [apply claim_call|]. intros [rows|] w3 _ _ Hrows.
  - destruct (_ <? _) eqn:E; bool_props.
    + eapply pwp_bind; [by apply batch_error_wp|]. intros err w4 _ _ He. by apply pwp_ret.
    + eapply Programs.wp_mono; [|apply publish_rows_wp; [by apply Hrows|lia|done]].
      intros a w4 [Ha Hne]. split; [lia|done].
  - eapply pwp_bind; [by apply batch_error_wp|]. intros err w4 _ _ He. by apply pwp_ret.
Qed.
End Publisher.

(** ** The system *)

(** One committed run of a handler: the consumer, the event and its envelope. *)
Abbreviation effect := (bytes * UUID * EventEnvelope)%type.

Section System.
Context `{Primitives} `{UUIDText} `{PL : ProtobufLaws} `{JL : JetStreamLaws} `{TimestampColumn}.
Context {App : Type}.

(** The handler of each consumer, and the application's state at the start. *)
Variables (handlers : bytes -> EventEnvelope -> App -> option App) (app0 : App).

(** [es_effects] and [es_pruned] record the committed handler runs and the
    deduplication records that were pruned. *)
Record esystem := MkESystem {
  es_pool : list (unit * prog pcall (Z * option pub_err));
  es_world : pworld;
  es_consumer : cstate App;
  es_effects : list effect;
  es_pruned : list (bytes * UUID) }.

Definition effect_key (x : effect) : bytes * UUID := x.1.

(** The handler run a delivery committed: its record is new. *)
Definition delivered (name data : bytes) (s s' : cstate App) : list effect :=
  match UnmarshalEnvelope data with
  | Ok envelope =>
      match parse_canonical (ev_EventId envelope) with
      | Some id =>
          if is_nil (cs_consumed s !! (name, id)) && not_nil (cs_consumed s' !! (name, id))
          then [(name, id, envelope)] else []
      | None => []
      end
  | Err _ => []
  end.

Inductive esys_step : esystem -> esystem -> Prop :=
(** a publisher starts a run *)
| es_run pool w c fx pr : esys_step (MkESystem pool w c fx pr) (MkESystem (pool ++ [(tt, PublishAvailable)]) w c fx pr)
(** a publisher makes a call *)
| es_call pool w pool' w' c fx pr :
    pool_step (@pexec _ _) (pool, w) (pool', w') ->
    esys_step (MkESystem pool w c fx pr) (MkESystem pool' w' c fx pr)
(** a transaction that appended an event commits *)
| es_append e envelope err t pool w c fx pr :
    Append e envelope (pw_table w) = (err, t) ->
    esys_step (MkESystem pool w c fx pr) (MkESystem pool (MkPWorld t (pw_stream w)) c fx pr)
(** a message of the stream is delivered to a consumer *)
| es_deliver name cr ce m at_ err s' pool w c fx pr :
    NewConsumer name = Ok cr -> js_stored (pw_stream w) m ->
    Consume cr (handlers name) ce (nm_Data m) at_ c = (err, s') ->
    esys_step (MkESystem pool w c fx pr) (MkESystem pool w s' (fx ++ delivered name (nm_Data m) c s') pr)
(** expired deduplication records are pruned *)
| es_prune at_ pool w c fx pr :
    esys_step (MkESystem pool w c fx pr)
      (MkESystem pool w (MkCState (PruneConsumedEvents at_ (cs_consumed c)) (cs_app c)) fx
         (pr ++ elements (dom (cs_consumed c) ∖ dom (PruneConsumedEvents at_ (cs_consumed c))))).

(** The application's state after the handler runs. *)
Definition replay (fx : list effect) : option App :=
  foldl (fun app x => app ≫= handlers x.1.1 x.2) (Some app0) fx.

(** How often a consumer handled an event. *)
Definition handled (name : bytes) (id : UUID) (fx : list effect) : nat :=
  count_occ (prod_eq_dec (A := bytes) (B := UUID)) (map effect_key fx) (name, id).

Definition times_pruned (name : bytes) (id : UUID) (pr : list (bytes * UUID)) : nat :=
  count_occ (prod_eq_dec (A := bytes) (B := UUID)) pr (name, id).

Definition recorded (s : cstate App) (name : bytes) (id : UUID) : nat :=
  if is_nil (cs_consumed s !! (name, id)) then 0%nat else 1%nat.

(** The event of an effect is one that was appended. *)
Definition effect_of (t : outbox_table) (x : effect) : Prop :=
  exists r, t !! x.1.2 = Some r /\ UnmarshalEnvelope (ob_Payload r) = Ok x.2 /\
    parse_canonical (ev_EventId x.2) = Some x.1.2.

Definition esystem_ok (s : esystem) : Prop :=
  Programs.pool_ok (@pexec _ _) pworld_ok pworld_le (fun _ => run_post publisherClaimLimit) (es_pool s, es_world s) /\
  Forall (effect_of (pw_table (es_world s))) (es_effects s) /\
  replay (es_effects s) = Some (cs_app (es_consumer s)) /\
  forall name id, (handled name id (es_effects s) =
                   times_pruned name id (es_pruned s) + recorded (es_consumer s) name id)%nat.

Lemma effect_up t t' x : table_le t t' -> effect_of t x -> effect_of t' x.
Proof.
  intros Hle (r & Hr & Hu & Hp). destruct (Hle _ _ Hr) as (r' & Hr' & He). exists r'. split_and!; [done| |done].
  destruct He as (_ & _ & _ & _ & _ & _ & Hpay & _). by rewrite <- Hpay.
Qed.

(** What a delivery does: it changes nothing, or it records the event for the
    first time and applies its handler once. *)
Lemma Consume_cases cr handler ce data at_ (s : cstate App) err s' :
  Consume cr handler ce data at_ s = (err, s') ->
  (s' = s /\ delivered (cr_name cr) data s s' = []) \/
  exists envelope id app row, UnmarshalEnvelope data = Ok envelope /\ parse_canonical (ev_EventId envelope) = Some id /\
    cs_consumed s !! (cr_name cr, id) = None /\ handler envelope (cs_app s) = Some app /\
    s' = MkCState (<[(cr_name cr, id) := row]> (cs_consumed s)) app /\
    delivered (cr_name cr) data s s' = [(cr_name cr, id, envelope)].
Proof.
  assert (delivered (cr_name cr) data s s = []) as Hsame.
  { unfold delivered. destruct (UnmarshalEnvelope data); [|done]. destruct (parse_canonical _); [|done].
    unfold not_nil. by destruct (is_nil _). }
  unfold Consume. intros Hc. cbv zeta in Hc. case_top Hc; [simplify_eq; by left|]. case_top Hc; [simplify_eq; by left|].
  destruct (UnmarshalEnvelope data) as [envelope|] eqn:Hu; [|simplify_eq; by left].
  destruct (parse_canonical (ev_EventId envelope)) as [id|] eqn:Hp; [|simplify_eq; by left].
  case_top Hc; [simplify_eq; by left|]. case_top Hc; [simplify_eq; by left|].
  destruct (is_err (fault (ce_env ce) 1)); [simplify_eq; by left|].
  unfold RecordConsumedEvent in Hc. destruct (negb (consumer_check _)); [simplify_eq; by left|].
  destruct (cs_consumed s !! (cr_name cr, id)) as [row|] eqn:Hl; cbn in Hc.
  - left. destruct s as [tbl app]; cbn in *. case_top Hc; [destruct (ce_committed ce)|]; simplify_eq; done.
  - destruct (handlerFailed _ _ _ _) as [app|] eqn:Hh; [|simplify_eq; by left].
    unfold handlerFailed in Hh. destruct (ce_handler_fails ce); [done|].
    assert (forall row, delivered (cr_name cr) data s (MkCState (<[(cr_name cr, id) := row]> (cs_consumed s)) app)
              = [(cr_name cr, id, envelope)]) as Hd.
    { intros row. unfold delivered. rewrite Hu, Hp, Hl. cbn. by rewrite lookup_insert_eq. }
    case_top Hc; [destruct (ce_committed ce)|]; simplify_eq; [|by left|];
      (right; eexists envelope, id, app, _; split_and!; [done|done|done|done|done|apply Hd]).
Qed.

(** A delivered message is the message of an appended event. *)
Lemma stored_effect w m envelope id :
  pworld_ok w -> js_stored (pw_stream w) m -> UnmarshalEnvelope (nm_Data m) = Ok envelope ->
  parse_canonical (ev_EventId envelope) = Some id -> exists r, pw_table w !! id = Some r /\
    UnmarshalEnvelope (ob_Payload r) = Ok envelope.
Proof.
  intros [Hrows Hms] Hm Hu Hp. destruct (Hms _ Hm) as (i & r & Hr & ->). cbn in Hu. exists r. split; [|done].
  destruct (Hrows _ _ Hr) as (Hi & Hv & _ & Hpc). unfold validatePublisherRow in Hv. case_top Hv; [done|].
  rewrite Hu in Hv. case_top Hv; [done|]. bool_props. subst i.
  match goal with E : ev_EventId _ = _ |- _ => rewrite E in Hp end. congruence.
Qed.

Lemma append_world_ok e envelope err t w :
  pworld_ok w -> Append e envelope (pw_table w) = (err, t) ->
  pworld_ok (MkPWorld t (pw_stream w)) /\ pworld_le w (MkPWorld t (pw_stream w)).
Proof using PL.
  intros Hok Ha%Append_cases. destruct err as [err|]; [subst t; by destruct w|].
  destruct Ha as (id & agg & b & Hm & Hi & Hg & Hfree & ->). split; [split; cbn|split; [|by intros m]].
  - intros i r Hr. destruct (decide (i = id)) as [->|Hne];
      [|rewrite lookup_insert_ne in Hr by done; by apply Hok].
    rewrite lookup_insert_eq in Hr. simplify_eq. split_and!; [done| |done|].
    + by apply appended_row_valid.
    + destruct (proj1 (parse_canonical_spec _ _) Hi) as (_ & _ & ->). done.
  - intros m Hmm. destruct (proj2 Hok _ Hmm) as (i & r & Hr & ->). exists i, r. split; [|done].
    rewrite lookup_insert_ne; [done|congruence].
  - intros i r Hr. exists r. split; [|done]. cbn. rewrite lookup_insert_ne; [done|congruence].
Qed.

Lemma replay_app fx x : replay (fx ++ [x]) = replay fx ≫= handlers x.1.1 x.2.
Proof. unfold replay. by rewrite foldl_app. Qed.

Lemma handled_app name id fx fx' : handled name id (fx ++ fx') = (handled name id fx + handled name id fx')%nat.
Proof. unfold handled. by rewrite map_app, count_occ_app. Qed.

Lemma handled_one name id x :
  handled name id [x] = if decide (effect_key x = (name, id)) then 1%nat else 0%nat.
Proof.
  unfold handled. cbn [map count_occ]. destruct (prod_eq_dec _ _) as [He|Hne]; [by rewrite decide_True|by rewrite decide_False].
Qed.

Lemma prune_counts name id at_ (s : cstate App) :
  (times_pruned name id (elements (dom (cs_consumed s) ∖ dom (PruneConsumedEvents at_ (cs_consumed s)))) +
   recorded (MkCState (PruneConsumedEvents at_ (cs_consumed s)) (cs_app s)) name id =
   recorded s name id)%nat.
Proof.
  set (t := cs_consumed s). set (t' := PruneConsumedEvents at_ t).
  set (gone := elements (dom t ∖ dom t')).
  unfold recorded. cbn. fold t. fold t'.
  assert (forall row, t' !! (name, id) = Some row -> t !! (name, id) = Some row) as Hsub.
  { intros row Hr. by apply map_lookup_filter_Some in Hr as [? _]. }
  destruct (decide ((name, id) ∈ dom t ∖ dom t')) as [Hin|Hin].
  - assert (times_pruned name id gone = 1)%nat as ->.
    { assert (NoDup gone) as Hnd by apply NoDup_elements.
      apply NoDup_ListNoDup in Hnd.
      apply (proj1 (NoDup_count_occ' (prod_eq_dec (A := bytes) (B := UUID)) gone) Hnd).
      apply list_elem_of_In, elem_of_elements. done. }
    apply elem_of_difference in Hin as [Hd Hn]. apply elem_of_dom in Hd as [x ->].
    apply not_elem_of_dom in Hn as ->. done.
  - assert (times_pruned name id gone = 0)%nat as ->.
    { apply count_occ_not_In. rewrite <- list_elem_of_In. unfold gone. by rewrite elem_of_elements. }
    destruct (t' !! (name, id)) as [row|] eqn:Hr; [by rewrite (Hsub _ eq_refl)|].
    destruct (t !! (name, id)) as [row|] eqn:Ht; [|done]. exfalso. apply Hin, elem_of_difference.
    split; [apply elem_of_dom; eauto|by apply not_elem_of_dom].
Qed.

Lemma esys_step_ok s s' : esys_step s s' -> esystem_ok s -> esystem_ok s'.
Proof using JL PL.
  intros Hstep (Hpool & Hfx & Hre & Hcount).
  destruct Hstep as [pool w c fx pr|pool w pool' w' c fx pr Hps|e envelope err t pool w c fx pr Ha
    |name cr ce m at_ err s' pool w c fx pr Hn Hst Hc|at_ pool w c fx pr]; cbn [es_pool es_world es_consumer es_effects es_pruned] in *.
  - split_and!; [|done..]. destruct Hpool as [Hok Hp]. split; [done|]. apply Forall_app. split; [done|].
    apply Forall_singleton, PublishAvailable_wp.
  - destruct (Programs.pool_step_ok _ _ _ _ _ _ Hps Hpool) as [Hpool' [Hle _]].
    split_and!; [done| |done..]. eapply Forall_impl; [exact Hfx|]. intros x. by apply effect_up.
  - destruct Hpool as [Hok Hp]. destruct (append_world_ok _ _ _ _ _ Hok Ha) as [Hok' Hle].
    split_and!; [|eapply Forall_impl; [exact Hfx|]; intros x; apply effect_up, Hle|done..].
    split; [done|]. eapply (Programs.pool_up _ _ _ (fun _ => run_post publisherClaimLimit)); [exact Hle|exact Hp].
  - assert (cr_name cr = name) as <-
      by (unfold NewConsumer, newConsumerForTest in Hn; case_top Hn; by simplify_eq).
    destruct (Consume_cases _ _ _ _ _ _ _ _ Hc) as
      [[-> Hd]|(envelope & id & app & row & Hu & Hp & Hl & Hh & Hs' & Hd)]; rewrite Hd.
    { rewrite app_nil_r. done. }
    split; [done|]. split; [|split].
    + apply Forall_app. split; [done|]. apply Forall_singleton. destruct Hpool as [Hok _].
      destruct (stored_effect _ _ _ _ Hok Hst Hu Hp) as (r & Hr & Hur). by exists r.
    + cbn [es_effects es_consumer]. rewrite replay_app, Hre. cbn. by rewrite Hh, Hs'.
    + intros name i. cbn [es_effects es_pruned es_consumer]. rewrite handled_app, Hcount, Hs', handled_one. unfold recorded. cbn [cs_consumed].
      destruct (decide _) as [He|Hne].
      * injection He as <- <-. rewrite Hl, lookup_insert_eq. cbn. lia.
      * rewrite lookup_insert_ne by done. lia.
  - split; [done|]. split; [done|]. split; [done|]. intros name id. cbn [es_effects es_pruned es_consumer].
    unfold times_pruned. rewrite count_occ_app.
    fold (times_pruned name id pr). rewrite Hcount. rewrite <- (prune_counts name id at_ c).
    unfold times_pruned. lia.
Qed.

Lemma esys_steps_ok s s' : rtc esys_step s s' -> esystem_ok s -> esystem_ok s'.
Proof using JL PL. apply rtc_keeps, esys_step_ok. Qed.
End System.
