(* ===== verification/OutboxTheorems.v ===== *)
(** The properties of event delivery: appended events can be published, retries
    are bounded, leases exclude, what is marked published is in the stream, a
    calm run publishes everything due, and consumers apply each event once. *)
From Stdlib Require Import ZArith Lia Strings.Byte Sorting.Sorted.
From stdpp Require Import base gmap list sorting strings numbers option relations.
From S2P Require Import Prelude GoStd GoTime AuthorityTypes Ledger FenceRows FenceStore Programs Text Descriptors Events Outbox OutboxSafety OutboxSystem.

#[local] Open Scope go_scope.

(** ** Retries and the worker *)

(** [retry_delay_bounds]: the base of a retry is one second doubled with every
    attempt up to thirty seconds, for every attempt count, and the delay used is
    within a fifth of it, whatever the random source returns. *)
Theorem retry_delay_bounds attempts sample :
  retryBase attempts = Z.min (30 * Second) (2 ^ (Z.max 1 attempts - 1) * Second) /\
  8 * retryBase attempts <= 10 * release_delay attempts sample <= 12 * retryBase attempts.
Proof. split; [apply retryBase_spec|apply release_delay_bounds]. Qed.

(** What the publisher's fields say about its worker. *)
Definition worker_ok (w : worker) : Prop :=
  (wk_launched w <= 1)%nat /\ wk_started w = bool_decide (wk_launched w = 1%nat) /\
  (wk_closed w = true -> (Start w).1 = false /\ (wk_started w = true -> wk_canceled w = true)) /\
  (wk_done w = true -> wk_canceled w = true) /\ (wk_canceled w = true -> wk_closed w = true).

Lemma worker_step_ok w w' : worker_step w w' -> worker_ok w -> worker_ok w'.
Proof.
  unfold worker_ok. intros Hw (Hl & Hst & Hcl & Hd & Hca).
  destruct Hw as [w|w|w Hs Hc]; destruct w as [st cl [|[|n]] ca dn]; cbn in *; subst; try lia;
    repeat match goal with b : bool |- _ => destruct b end; cbn in *; naive_solver lia.
Qed.

(** [single_worker]: however [Start], [Close] and the worker's end interleave,
    at most one worker is ever launched, none after [Close], a closed publisher's
    worker is canceled, and the worker ends only once it was canceled by [Close]. *)
Theorem single_worker w :
  rtc worker_step worker_init w ->
  (wk_launched w <= 1)%nat /\
  (wk_closed w = true -> (Start w).1 = false /\ (wk_started w = true -> wk_canceled w = true)) /\
  (wk_done w = true -> wk_canceled w = true) /\ (wk_canceled w = true -> wk_closed w = true).
Proof.
  intros Hs. destruct (rtc_keeps _ _ worker_step_ok _ _ Hs) as (? & ? & ? & ? & ?); [|done].
  repeat split; try done; cbn; lia.
Qed.

(** ** Appending *)

Section Append.
Context `{Primitives} `{UUIDText} `{PL : ProtobufLaws} `{TimestampColumn}.

(** [append_publishable]: appending fails and changes nothing, or it adds one
    row for a new event, unclaimed, due and accepted by the publisher, whose
    payload decodes to the envelope; and without failures every envelope that
    marshals within the column's size and has a new identifier is added. *)
Theorem append_publishable e envelope t err t' :
  Append e envelope t = (err, t') ->
  match err with
  | Some _ => t' = t
  | None => exists row, t' = <[ob_EventID row := row]> t /\ t !! ob_EventID row = None /\
      UnmarshalEnvelope (ob_Payload row) = Ok envelope /\
      uuid_String (ob_EventID row) = ev_EventId envelope /\
      validatePublisherRow row = Some (ev_EventType envelope) /\
      claimable (column_time (occurred_at envelope)) row = true
  end /\
  forall encoded, MarshalEnvelope envelope = Ok encoded -> len encoded <= 262144 ->
    (forall id, parse_canonical (ev_EventId envelope) = Some id -> t !! id = None) ->
    exists t'', Append calm envelope t = (None, t'').
Proof using PL.
  intros Ha. split; [|intros encoded; apply Append_calm]. apply Append_cases in Ha. destruct err as [err|]; [done|].
  destruct Ha as (id & agg & b & Hm & Hi & Hg & Hfree & ->). exists (appended_row envelope id agg b). cbn [ob_EventID appended_row].
  split_and!; [done|done|by apply envelope_wire| |by apply appended_row_valid|].
  - by apply parse_canonical_spec in Hi as (_ & _ & ?).
  - unfold claimable. cbn. by rewrite Z.leb_refl.
Qed.
End Append.

(** ** Leases *)

Section Leases.
Context `{Primitives} `{UUIDText} `{PL : ProtobufLaws} `{TL : TimestampColumnLaws}.

(** What may happen to the table while a claim is held until [until]: claims no
    later than that, appends, and updates of other rows. *)
Inductive leased_step (id : UUID) (until : time) : outbox_table -> outbox_table -> Prop :=
| leased_claim plan now limit claimedUntil t rows t' :
    t_nanos now <= t_nanos until -> ClaimOutboxBatch plan now limit claimedUntil t = Some (rows, t') ->
    leased_step id until t t'
| leased_append e envelope err t t' : Append e envelope t = (err, t') -> leased_step id until t t'
| leased_mark other at_ t : other <> id -> leased_step id until t (MarkOutboxPublished other at_ t).2
| leased_release other at_ t : other <> id -> leased_step id until t (ReleaseOutboxClaim other at_ t).2.

(** The row is leased until a time. *)
Definition leased (id : UUID) (until : time) (t : outbox_table) : Prop :=
  keyed t /\ exists r, t !! id = Some r /\ ob_ClaimedUntil r = Some (column_time until).

Lemma column_time_mono a b : t_nanos a <= t_nanos b -> t_nanos (column_time a) <= t_nanos (column_time b).
Proof using TL. intros Hab. rewrite !column_time_floor. pose proof (Z.div_le_mono _ _ 1000 ltac:(lia) Hab). lia. Qed.

Lemma leased_not_claimed id until plan now limit claimedUntil t rows t' :
  leased id until t -> t_nanos now <= t_nanos until ->
  ClaimOutboxBatch plan now limit claimedUntil t = Some (rows, t') ->
  id ∉ map ob_EventID rows /\ leased id until t'.
Proof using TL.
  intros [Hk (r & Hr & Hu)] Hle Hc.
  assert (id ∉ map ob_EventID (claim_candidates plan (column_time now) limit t)) as Hnot.
  { intros Hin. apply list_elem_of_In, in_map_iff in Hin as (x & Hx & Hin). apply list_elem_of_In in Hin.
    destruct (candidate_claimable _ _ _ _ _ Hin) as [[i Hi] Hcl]. pose proof (Hk _ _ Hi) as Hxi.
    assert (x = r) as -> by congruence. unfold claimable in Hcl. rewrite Hu in Hcl. bool_props.
    pose proof (column_time_mono _ _ Hle). lia. }
  unfold ClaimOutboxBatch in Hc. case_top Hc; [done|]. simplify_eq. split.
  - intros Hin. apply Hnot. apply list_elem_of_In, in_map_iff in Hin as (x & Hx & Hin).
    apply list_elem_of_In in Hin. rewrite merge_sort_Permutation in Hin.
    apply list_elem_of_In, in_map_iff in Hin as (y & <- & Hin). cbn in Hx. apply list_elem_of_In, in_map_iff.
    by exists y.
  - split.
    + intros i x Hx. rewrite lookup_fmap_Some in Hx. destruct Hx as (y & <- & Hy).
      case_bool_decide; cbn; by apply Hk.
    + exists r. rewrite lookup_fmap, Hr. cbn. rewrite bool_decide_eq_false_2; [done|]. by rewrite (Hk _ _ Hr).
Qed.

Lemma leased_insert id until t i x :
  leased id until t -> i <> id -> ob_EventID x = i -> leased id until (<[i := x]> t).
Proof.
  intros [Hk (r & Hr & Hu)] Hne Hx. split.
  - intros j y Hy. destruct (decide (j = i)) as [->|Hji].
    + rewrite lookup_insert_eq in Hy. by simplify_eq.
    + rewrite lookup_insert_ne in Hy by done. by apply Hk.
  - exists r. by rewrite lookup_insert_ne.
Qed.

Lemma leased_step_keeps id until t t' : leased_step id until t t' -> leased id until t -> leased id until t'.
Proof using PL TL.
  intros Hs Hl. destruct Hs as [plan now limit cu t rows t' Hle Hc|e envelope err t t' Ha|other at_ t Hne|other at_ t Hne].
  - by eapply leased_not_claimed.
  - apply Append_cases in Ha. destruct err; [by subst|].
    destruct Ha as (i & agg & b & _ & _ & _ & Hfree & ->). apply leased_insert; [done| |done].
    intros ->. destruct Hl as [_ (r & Hr & _)]. congruence.
  - unfold MarkOutboxPublished. destruct (t !! other) as [r|] eqn:Hr; [|done]. destruct (is_nil _); [|done].
    apply leased_insert; [done..|]. cbn. by apply Hl.
  - unfold ReleaseOutboxClaim. destruct (t !! other) as [r|] eqn:Hr; [|done]. destruct (is_nil _); [|done].
    apply leased_insert; [done..|]. cbn. by apply Hl.
Qed.

(** [lease_exclusive]: a row a publisher claimed is not given to another claim
    within the thirty seconds of the lease, whatever claims, appends and updates
    of other rows come in between. *)
Theorem lease_exclusive plan now rows t t1 row t2 plan' now' claimedUntil' rows' t3 :
  keyed t ->
  ClaimOutboxBatch plan now publisherClaimLimit (time_Add now publisherLease) t = Some (rows, t1) ->
  row ∈ rows ->
  rtc (leased_step (ob_EventID row) (time_Add now publisherLease)) t1 t2 ->
  t_nanos now' <= t_nanos now + 30 * Second ->
  ClaimOutboxBatch plan' now' publisherClaimLimit claimedUntil' t2 = Some (rows', t3) ->
  ob_EventID row ∉ map ob_EventID rows'.
Proof using PL TL.
  intros Hk Hc Hin Hs Hle Hc'. destruct (ClaimOutboxBatch_rows _ _ _ _ _ _ _ _ Hk Hc Hin) as (Hr & Hu & _).
  assert (leased (ob_EventID row) (time_Add now publisherLease) t1) as Hl.
  { split; [|by exists row]. intros id r Hr1. destruct (ClaimOutboxBatch_updates _ _ _ _ _ _ _ Hc) as [_ Hup].
    destruct (Hup _ _ Hr1) as (r0 & Hr0 & He & _). rewrite <- He. by apply Hk. }
  assert (leased (ob_EventID row) (time_Add now publisherLease) t2) as Hl2.
  { eapply rtc_keeps; [|exact Hs|exact Hl]. apply leased_step_keeps. }
  by eapply leased_not_claimed.
Qed.
End Leases.

(** ** Delivery *)

Section Delivery.
Context `{Primitives} `{UUIDText} `{PL : ProtobufLaws} `{JL : JetStreamLaws} `{TimestampColumn}.
Context {App : Type}.
Variables (handlers : bytes -> EventEnvelope -> App -> option App) (app0 : App).

(** Nothing appended, published or consumed. *)
Definition einit (s0 : js_state) : esystem := MkESystem [] (MkPWorld ∅ s0) (MkCState ∅ app0) [] [].

Definition empty_stream (s0 : js_state) : Prop := forall m, ~ js_stored s0 m.

Lemma einit_ok s0 : empty_stream s0 -> esystem_ok handlers app0 (einit s0).
Proof.
  intros Hs. split; [split; [split|]|split; [|split]]; cbn; try done. intros m Hm. by destruct (Hs m).
Qed.

(** C9 (published_events_stored): in every reachable state, an event marked
    published is held by the stream under its type and identifier with its own
    payload; everything the stream holds is such an event, whose payload decodes
    to an envelope of that identifier and type; and no run of a publisher ends
    with an invalid event or counts more than its claim limit. *)
Theorem published_events_stored s0 s :
  empty_stream s0 -> rtc (esys_step handlers) (einit s0) s ->
  (forall id r, pw_table (es_world s) !! id = Some r -> ob_PublishedAt r <> None ->
     js_stored (pw_stream (es_world s)) (MkMsg (ob_EventType r) (uuid_String id) (ob_Payload r))) /\
  (forall m, js_stored (pw_stream (es_world s)) m ->
     exists id r envelope, pw_table (es_world s) !! id = Some r /\
       m = MkMsg (ob_EventType r) (uuid_String id) (ob_Payload r) /\
       UnmarshalEnvelope (nm_Data m) = Ok envelope /\ ev_EventId envelope = nm_id m /\
       ev_EventType envelope = nm_Subject m) /\
  (forall i q n err, es_pool s !! i = Some (q, Ret (n, err)) -> 0 <= n <= 100 /\ err <> Some PubEvent).
Proof using JL PL.
  intros Hempty Hs. destruct (esys_steps_ok handlers app0 _ _ Hs (einit_ok _ Hempty)) as [[Hok Hpool] _].
  cbn [fst snd] in Hok, Hpool. pose proof Hok as [Hrows Hms]. split_and!.
  - intros id r Hr Hp. destruct (Hrows _ _ Hr) as (Hid & _ & Hst & _). rewrite <- Hid. by apply Hst.
  - intros m Hm. destruct (Hms _ Hm) as (id & r & Hr & ->). destruct (Hrows _ _ Hr) as (Hid & Hv & _ & _).
    unfold validatePublisherRow in Hv. case_top Hv; [done|].
    destruct (UnmarshalEnvelope (ob_Payload r)) as [envelope|] eqn:Hu; [|done]. case_top Hv; [done|]. bool_props.
    exists id, r, envelope. unfold row_msg. cbn. by rewrite Hid in *.
  - intros i q n err Hi. pose proof (Forall_lookup_1 _ _ _ _ Hpool Hi) as Hwp.
    apply (Hwp (es_world s) ltac:(done) Hok).
Qed.

(** C10 (effects_exactly_once): in every reachable state, each consumer has
    applied its handler to an event at most once more than the event's expired
    deduplication record was pruned, and exactly as often while none was pruned
    if the event is recorded; every event handled was appended to the outbox with
    that envelope; and the application's state is what these handler runs, in
    order, make of the initial one. *)
Theorem effects_exactly_once s0 s :
  empty_stream s0 -> rtc (esys_step handlers) (einit s0) s ->
  (forall name id, (handled name id (es_effects s) <= 1 + times_pruned name id (es_pruned s))%nat) /\
  (forall name id, cs_consumed (es_consumer s) !! (name, id) <> None ->
     times_pruned name id (es_pruned s) = 0%nat -> handled name id (es_effects s) = 1%nat) /\
  (forall name id envelope, (name, id, envelope) ∈ es_effects s ->
     exists r, pw_table (es_world s) !! id = Some r /\ UnmarshalEnvelope (ob_Payload r) = Ok envelope) /\
  replay handlers app0 (es_effects s) = Some (cs_app (es_consumer s)).
Proof using JL PL.
  intros Hempty Hs. destruct (esys_steps_ok handlers app0 _ _ Hs (einit_ok _ Hempty)) as (_ & Hfx & Hre & Hc).
  split_and!; [| | |done].
  - intros name id. rewrite Hc. unfold recorded. destruct (is_nil _); lia.
  - intros name id Hr Hp. rewrite Hc, Hp. unfold recorded. by destruct (cs_consumed _ !! _).
  - intros name id envelope Hin. rewrite Forall_forall in Hfx.
    destruct (Hfx _ Hin) as (r & Hr & Hu & _). by exists r.
Qed.

(** [consume_acknowledges]: when a delivery is acknowledged its event is
    recorded and was handled, by it or before; and a delivery that fails, other
    than by a commit whose outcome is unknown, changes nothing. *)
Theorem consume_acknowledges cr handler ce data at_ (s : cstate App) err s' :
  Consume cr handler ce data at_ s = (err, s') ->
  match err with
  | None => exists envelope id, UnmarshalEnvelope data = Ok envelope /\
      parse_canonical (ev_EventId envelope) = Some id /\ cs_consumed s' !! (cr_name cr, id) <> None /\
      (s' = s \/ cs_consumed s !! (cr_name cr, id) = None /\ handler envelope (cs_app s) = Some (cs_app s'))
  | Some OutboxCommit | Some OutboxCanceled => ce_committed ce = false -> s' = s
  | Some _ => s' = s
  end.
Proof.
  unfold Consume. intros Hc. cbv zeta in Hc. case_top Hc; [by simplify_eq|]. case_top Hc; [by simplify_eq|].
  destruct (UnmarshalEnvelope data) as [envelope|] eqn:Hu; [|by simplify_eq].
  destruct (parse_canonical (ev_EventId envelope)) as [id|] eqn:Hp; [|by simplify_eq].
  case_top Hc; [by simplify_eq|]. case_top Hc; [simplify_eq; by destruct (mapConsumerContextOrStore _)|].
  destruct (is_err (fault (ce_env ce) 1)); [simplify_eq; by destruct (mapConsumerContextOrStore _)|].
  unfold RecordConsumedEvent in Hc.
  destruct (negb (consumer_check _)); [simplify_eq; by destruct (mapConsumerContextOrStore _)|].
  destruct (cs_consumed s !! (cr_name cr, id)) as [row|] eqn:Hl; cbn in Hc.
  - destruct (is_err (fault (ce_env ce) 2)); injection Hc as <- <-.
    + destruct (ctx_done (poll (ce_env ce) 5)); intros Hcm; by rewrite Hcm.
    + exists envelope, id. split_and!; [done|done|by cbn; rewrite Hl|left; by destruct s].
  - destruct (handlerFailed _ _ _ _) as [app|] eqn:Hh; [|injection Hc as <- <-; by destruct (ctx_done (poll (ce_env ce) 4))].
    unfold handlerFailed in Hh. destruct (ce_handler_fails ce); [done|].
    destruct (is_err (fault (ce_env ce) 2)); injection Hc as <- <-.
    + destruct (ctx_done (poll (ce_env ce) 5)); intros Hcm; by rewrite Hcm.
    + exists envelope, id. split_and!; [done|done|by cbn; rewrite lookup_insert_eq|by right].
Qed.
End Delivery.

(** ** Progress *)

Section Progress.
Context `{Primitives} `{UUIDText} `{PL : ProtobufLaws} `{JL : JetStreamLaws} `{TimestampColumn}.

(** Nothing fails: the context is live, the clock is valid, statements run, no
    row is locked and the stream acknowledges every message. *)
Definition calm_choice (ch : pchoice) : Prop :=
  pc_poll ch = CtxLive /\ validPublisherTime (pc_now ch) = true /\ pc_fate ch = DbRuns /\
  (forall id, cp_locked (pc_plan ch) id = false) /\
  forall m s, exists ack s', js_PublishMsg (pc_js ch) m s = (Some ack, s') /\
    pa_Stream ack = EventStreamName /\ pa_Sequence ack <> 0.

(** The events due at a time. *)
Definition due (now : time) (t : outbox_table) : list OutboxRow :=
  List.filter (claimable now) (map_to_list t).*2.

Lemma due_rows now t r : keyed t -> r ∈ due now t <-> t !! ob_EventID r = Some r /\ claimable now r = true.
Proof.
  intros Hk. unfold due. rewrite list_elem_of_In, filter_In, <- list_elem_of_In, list_elem_of_fmap.
  split; [intros [([id x] & -> & Hx) Hc]|intros [Hr Hc]].
  - apply elem_of_map_to_list in Hx. cbn. by rewrite (Hk _ _ Hx).
  - split; [|done]. exists (ob_EventID r, r). by rewrite elem_of_map_to_list.
Qed.

Lemma due_nodup now t : keyed t -> NoDup (map ob_EventID (due now t)).
Proof.
  intros Hk. apply NoDup_fmap_2_strong.
  - intros a b Ha Hb He. apply due_rows in Ha as [Ha _], Hb as [Hb _]; [|done..]. congruence.
  - apply NoDup_ListNoDup, List.NoDup_filter, NoDup_ListNoDup, NoDup_fmap_2_strong; [|apply NoDup_map_to_list].
    intros [i x] [j y] Hx Hy He. apply elem_of_map_to_list in Hx, Hy. cbn in He. subst y.
    by rewrite <- (Hk _ _ Hx), <- (Hk _ _ Hy).
Qed.

Lemma calm_candidates ch now t :
  calm_choice ch -> (length (due now t) <= 100)%nat ->
  claim_candidates (pc_plan ch) now publisherClaimLimit t ≡ₚ due now t.
Proof.
  intros (_ & _ & _ & Hlock & _) Hlen. unfold claim_candidates.
  assert (List.filter (fun r => claimable now r && negb (cp_locked (pc_plan ch) (ob_EventID r)))
            (map_to_list t).*2 = due now t) as ->.
  { unfold due. apply List.filter_ext. intros r. by rewrite Hlock, andb_true_r. }
  rewrite take_ge; [apply merge_sort_Permutation|]. rewrite merge_sort_Permutation. done.
Qed.

(** A row the publisher accepts can be sent. *)
Lemma valid_row_sent row ty :
  validatePublisherRow row = Some ty ->
  ty = ob_EventType row /\ SubjectForEventType ty = Some ty /\ uuid_String (ob_EventID row) <> [] /\
  0 < len (ob_Payload row).
Proof using PL.
  unfold validatePublisherRow. intros Hv. case_top Hv; [done|]. destruct (UnmarshalEnvelope _) as [e|] eqn:Hu; [|done].
  case_top Hv; [done|]. bool_props. pose proof (len_nonneg (ob_Payload row)).
  assert (ty = ob_EventType row) as -> by (unfold SubjectForEventType in Hv; case_bool_decide; by simplify_eq).
  split_and!; [done|done| |lia].
  apply UnmarshalEnvelope_ok, MarshalEnvelope_ok in Hu as (_ & Hu & _). unfold validateEnvelope in Hu.
  case_top Hu; [done|]. bool_props. unfold ValidateEnvelope in *. bool_props. congruence.
Qed.

Lemma publish_one ch row rows n chs w r :
  calm_choice ch -> validatePublisherRow row = Some (ob_EventType row) ->
  pw_table w !! ob_EventID row = Some r -> ob_PublishedAt r = None ->
  exists s', js_stored s' (row_msg row) /\ stream_le (pw_stream w) s' /\
    Programs.run (@pexec _ _) (publish_rows (pc_now ch) (row :: rows) n None) (ch :: ch :: chs) w =
    Programs.run (@pexec _ _) (publish_rows (pc_now ch) rows (n + 1) None) chs
      (MkPWorld (<[ob_EventID row := set_published (column_time (pc_now ch)) r]> (pw_table w)) s').
Proof using JL PL.
  intros (Hp & _ & Hf & _ & Hack) Hv Hr Hn. destruct (valid_row_sent _ _ Hv) as (_ & Hsub & Hid & Hpay).
  destruct (Hack (row_msg row) (pw_stream w)) as (ack & s' & Hj & Hst & Hseq). exists s'.
  split; [by eapply js_ack_stored|]. split; [intros m; by eapply js_keeps|].
  cbn [publish_rows]. unfold publish_row. rewrite Hv. cbn.
  assert (BrokerPublish (pc_poll ch) (pc_js ch) (ob_EventType row) (uuid_String (ob_EventID row)) (ob_Payload row)
            (pw_stream w) = (true, s')) as ->.
  { unfold BrokerPublish. rewrite Hp. rewrite (proj2 (Z.eqb_neq (len (ob_Payload row)) 0)) by lia.
    rewrite (proj2 (Z.eqb_neq (len (uuid_String _)) 0)) by (unfold len; destruct (uuid_String _); [done|cbn; lia]).
    cbn [orb]. rewrite Hsub, !bool_decide_eq_true_2 by done. cbn. unfold row_msg in Hj. rewrite Hj, Hst.
    rewrite bool_decide_eq_true_2 by done. by rewrite (proj2 (Z.eqb_neq _ 0) Hseq). }
  cbn. unfold on_table, MarkPublished, at_most_one, autocommit, MarkOutboxPublished. rewrite Hf. cbn.
  rewrite Hr, Hn. reflexivity.
Qed.

(** The events of a list are published. *)
Definition all_published (ch : pchoice) (rows : list OutboxRow) (w : pworld) : Prop :=
  forall row, row ∈ rows -> js_stored (pw_stream w) (row_msg row) /\
    exists r, pw_table w !! ob_EventID row = Some r /\ ob_PublishedAt r = Some (column_time (pc_now ch)).

Lemma publish_all ch rows n k w :
  calm_choice ch -> NoDup (map ob_EventID rows) -> (2 * length rows <= k)%nat ->
  (forall row, row ∈ rows -> validatePublisherRow row = Some (ob_EventType row) /\
     exists r, pw_table w !! ob_EventID row = Some r /\ ob_PublishedAt r = None) ->
  exists w', Programs.run (@pexec _ _) (publish_rows (pc_now ch) rows n None) (replicate k ch) w =
      Some ((n + len rows, None), w') /\
    all_published ch rows w' /\ stream_le (pw_stream w) (pw_stream w') /\
    forall id, id ∉ map ob_EventID rows -> pw_table w' !! id = pw_table w !! id.
Proof using JL PL.
  intros Hcalm. revert n k w. induction rows as [|row rows IH]; intros n k w Hnd Hk Hrows.
  - exists w. cbn [publish_rows]. split_and!; [|by intros row Hr%elem_of_nil|by intros m|done].
    replace (n + len []) with n by (unfold len; cbn; lia). by destruct k.
  - destruct k as [|[|k]]; cbn [length] in Hk; [lia|lia|]. cbn [map] in Hnd. apply NoDup_cons in Hnd as [Hni Hnd].
    destruct (Hrows row) as [Hv (r & Hr & Hn)]; [by left|].
    destruct (publish_one ch row rows n (replicate k ch) w r Hcalm Hv Hr Hn) as (s' & Hst & Hle & Hrun).
    cbn [replicate]. rewrite Hrun. clear Hrun.
    destruct (IH (n + 1) k (MkPWorld (<[ob_EventID row := set_published (column_time (pc_now ch)) r]> (pw_table w)) s') Hnd)
      as (w' & Hrun & Hall & Hle' & Hkeep); [lia| |].
    { intros x Hx. destruct (Hrows x) as [Hvx (rx & Hrx & Hnx)]; [by right|]. split; [done|]. exists rx. cbn.
      rewrite lookup_insert_ne; [done|]. intros He. apply Hni. rewrite He. apply list_elem_of_In, in_map, list_elem_of_In. done. }
    exists w'. split_and!.
    + rewrite Hrun. do 3 f_equal. unfold len. cbn. lia.
    + intros x [->|Hx]%elem_of_cons; [|by apply Hall]. split; [by apply Hle'|].
      eexists. rewrite Hkeep by done. cbn. by rewrite lookup_insert_eq.
    + intros m Hm. by apply Hle', Hle.
    + intros id Hid. cbn [map] in Hid. rewrite not_elem_of_cons in Hid. destruct Hid as [Hne Hid].
      rewrite Hkeep by done. cbn. by rewrite lookup_insert_ne.
Qed.

Lemma claim_calm ch w :
  calm_choice ch -> pworld_ok w -> (length (due (column_time (pc_now ch)) (pw_table w)) <= 100)%nat ->
  (forall r, r ∈ due (column_time (pc_now ch)) (pw_table w) -> ob_Attempts r < MaxInt32) ->
  exists rows t', Claim (pc_fate ch) (pc_plan ch) (pc_now ch) publisherClaimLimit
      (time_Add (pc_now ch) publisherLease) (pw_table w) = (Some rows, t') /\
    map ob_EventID rows ≡ₚ map ob_EventID (due (column_time (pc_now ch)) (pw_table w)) /\
    forall row, row ∈ rows -> t' !! ob_EventID row = Some row /\ ob_PublishedAt row = None /\
      exists r, pw_table w !! ob_EventID row = Some r /\ same_event r row.
Proof.
  intros Hcalm Hok Hlen Hatt. set (now := pc_now ch) in *. pose proof (calm_candidates ch (column_time now) _ Hcalm Hlen) as Hp.
  assert (keyed (pw_table w)) as Hk by (intros id r Hr; by apply Hok).
  destruct (ClaimOutboxBatch (pc_plan ch) now publisherClaimLimit (time_Add now publisherLease) (pw_table w))
    as [[rows t']|] eqn:Hc.
  - exists rows, t'. destruct Hcalm as (_ & _ & Hf & _). unfold Claim, autocommit. rewrite Hf, Hc.
    split_and!; [done| |].
    + unfold ClaimOutboxBatch in Hc. case_top Hc; [done|]. simplify_eq.
      rewrite merge_sort_Permutation, List.map_map. cbn. by rewrite Hp.
    + intros row Hin. destruct (ClaimOutboxBatch_rows _ _ _ _ _ _ _ _ Hk Hc Hin) as (Ht' & _ & r & Hr & He & Hcl).
      split; [done|]. split; [|by exists r].
      destruct (ClaimOutboxBatch_updates _ _ _ _ _ _ _ Hc) as [_ Hup].
      destruct (Hup _ _ Ht') as (r0 & Hr0 & _ & [->|[]]). simplify_eq. unfold claimable in Hcl. bool_props. done.
  - exfalso. unfold ClaimOutboxBatch in Hc. case_top Hc; [|done].
    match goal with E : existsb _ _ = true |- _ => apply List.existsb_exists in E as (r & Hin & Hle) end.
    apply list_elem_of_In in Hin. rewrite Hp in Hin. specialize (Hatt r Hin). bool_props. lia.
Qed.

(** C31 (calm_run_publishes): with at most a hundred events due and nothing
    failing, one run of the publisher returns, reports exactly the events due and
    no error, and afterwards every event that was due is in the stream and marked
    published. *)
Theorem calm_run_publishes ch w k :
  calm_choice ch -> pworld_ok w ->
  (length (due (column_time (pc_now ch)) (pw_table w)) <= 100)%nat ->
  (forall r, r ∈ due (column_time (pc_now ch)) (pw_table w) -> ob_Attempts r < MaxInt32) ->
  (3 + 2 * length (due (column_time (pc_now ch)) (pw_table w)) <= k)%nat ->
  exists w', Programs.run (@pexec _ _) PublishAvailable (replicate k ch) w =
      Some ((len (due (column_time (pc_now ch)) (pw_table w)), None), w') /\
    forall id r, pw_table w !! id = Some r -> claimable (column_time (pc_now ch)) r = true ->
      js_stored (pw_stream w') (row_msg r) /\
      exists r', pw_table w' !! id = Some r' /\ ob_PublishedAt r' = Some (column_time (pc_now ch)).
Proof using JL PL.
  intros Hcalm Hok Hlen Hatt Hk. assert (keyed (pw_table w)) as Hkey by (intros id r Hr; by apply Hok).
  destruct (claim_calm ch w Hcalm Hok Hlen Hatt) as (rows & t' & Hc & Hperm & Hrows).
  assert (length rows = length (due (column_time (pc_now ch)) (pw_table w))) as Hl.
  { apply Permutation_length in Hperm. by rewrite !List.length_map in Hperm. }
  destruct k as [|[|[|k]]]; [lia..|].
  destruct (publish_all ch rows 0 k (MkPWorld t' (pw_stream w)) Hcalm) as (w' & Hrun & Hall & _ & _).
  - rewrite Hperm. by apply due_nodup.
  - lia.
  - intros row Hin. destruct (Hrows row Hin) as (Ht' & Hn & r & Hr & He).
    split; [|by exists row]. rewrite <- He. by apply (proj1 Hok (ob_EventID row)).
  - exists w'. split.
    + unfold PublishAvailable. cbn [replicate Programs.run bind trigger pexec].
      pose proof Hcalm as (Hp & Hnow & _). rewrite Hp, bool_decide_eq_true_2 by done.
      cbn [negb replicate Programs.run bind trigger pexec]. rewrite Hnow.
      cbn [negb replicate Programs.run bind trigger pexec]. unfold on_table. rewrite Hc. cbn beta iota.
      rewrite (proj2 (Z.ltb_ge publisherClaimLimit (len rows))) by (unfold publisherClaimLimit, len; lia).
      rewrite Hrun. unfold len. by rewrite Hl.
    + intros id r Hr Hcl.
      assert (id ∈ map ob_EventID rows) as Hin.
      { rewrite Hperm. rewrite <- (Hkey _ _ Hr). apply list_elem_of_In, in_map, list_elem_of_In.
        apply due_rows; [done|]. by rewrite (Hkey _ _ Hr). }
      apply list_elem_of_In, in_map_iff in Hin as (row & <- & Hin). apply list_elem_of_In in Hin.
      destruct (Hall row Hin) as [Hst Hpub]. destruct (Hrows row Hin) as (_ & _ & r0 & Hr0 & He).
      simplify_eq. split; [by rewrite He|done].
Qed.
End Progress.

(** ** Witnesses *)

#[local] Existing Instances sample_event_lib sample_event_uuid sample_protobuf.
#[local] Existing Instance sample_protobuf_laws.

#[export] Instance Msg_eq_dec : EqDecision Msg.
Proof. solve_decision. Defined.

(** A stream that stores and acknowledges a message, or refuses it. *)
#[local] Instance sample_stream : JetStream :=
  {| js_state := list Msg;
     js_choice := bool;
     js_PublishMsg ch m s := if ch then (Some (MkPubAck EventStreamName (len s + 1)), s ++ [m]) else (None, s);
     js_stored s m := m ∈ s |}.

#[local] Instance sample_stream_laws : @JetStreamLaws sample_stream.
Proof.
  split; cbn.
  - intros [] m s ack s' [= <- <-] _ _. apply elem_of_app. right. by left.
  - intros [] m s ack s' m' [= <- <-] Hm; [apply elem_of_app; by left|done].
  - intros [] m s ack s' m' [= <- <-] Hm; [|by left]. apply elem_of_app in Hm as [?|?%list_elem_of_singleton]; auto.
Qed.

#[local] Instance sample_time_column : TimestampColumn := {| column_time t := Truncate t Microsecond |}.

#[local] Instance sample_time_column_laws : @TimestampColumnLaws sample_time_column.
Proof.
  split. intros t. change (t_nanos t - t_nanos t mod 1000 = t_nanos t / 1000 * 1000).
  rewrite Z.mod_eq by lia. lia.
Qed.

Abbreviation sample_append := (Append calm sample_envelope ∅).
Definition sample_table : outbox_table := sample_append.2.
Definition sample_plan : claim_plan := MkClaimPlan (fun _ => false) (fun _ => 0) (fun _ => 0).
Definition sample_now : time := Date 2024 2 1 0 0 0 0.
Definition sample_pchoice : pchoice := MkPChoice _ CtxLive sample_now None DbRuns sample_plan true.
Definition sample_pworld : pworld := MkPWorld sample_table [].

Lemma sample_appended : sample_append = (None, sample_table).
Proof.
  assert (is_nil sample_append.1 = true) as Hn by (vm_compute; reflexivity).
  unfold sample_table. destruct sample_append as [[err|] t]; [discriminate Hn|reflexivity].
Qed.

Lemma sample_keyed : keyed sample_table.
Proof.
  destruct (Append_cases _ _ _ _ _ sample_appended) as (id & agg & b & _ & _ & _ & _ & ->).
  intros i r Hr. destruct (decide (i = id)) as [->|Hne].
  - rewrite lookup_insert_eq in Hr. by simplify_eq.
  - by rewrite lookup_insert_ne, lookup_empty in Hr.
Qed.

Definition empty_pworld : pworld := MkPWorld ∅ [].

Lemma empty_pworld_ok : pworld_ok empty_pworld.
Proof. split; cbn; [done|]. by intros m Hm%elem_of_nil. Qed.

Lemma sample_pworld_ok : pworld_ok sample_pworld.
Proof.
  destruct (append_world_ok calm sample_envelope None sample_table empty_pworld empty_pworld_ok sample_appended)
    as [Hok _]. exact Hok.
Qed.

Lemma append_publishable_witness :
  exists row, sample_table !! ob_EventID row = Some row /\
    validatePublisherRow row = Some AccountStateChangedType.
Proof.
  destruct (append_publishable calm sample_envelope ∅ None sample_table sample_appended)
    as [(row & Ht & _ & _ & _ & Hv & _) _].
  exists row. split; [rewrite Ht; apply lookup_insert_eq|exact Hv].
Defined.

Lemma single_worker_witness :
  (wk_launched (MkWorker true true 1 true true) <= 1)%nat /\ (Start (MkWorker true true 1 true true)).1 = false.
Proof.
  destruct (single_worker (MkWorker true true 1 true true)) as (Hl & Hc & _).
  - eapply rtc_l; [apply (worker_Start worker_init)|]. eapply rtc_l; [apply worker_Close|].
    eapply rtc_l; [by apply worker_exit|]. apply rtc_refl.
  - split; [exact Hl|]. apply Hc. reflexivity.
Defined.

(** The first claim of the sample table, and a second one ten seconds later. *)
Abbreviation sample_claim now t :=
  (ClaimOutboxBatch sample_plan now publisherClaimLimit (time_Add now publisherLease) t).
Definition sample_later : time := Date 2024 2 1 0 0 10 0.
Definition sample_leased : outbox_table :=
  match sample_claim sample_now sample_table with Some (_, t) => t | None => ∅ end.

Lemma sample_claimed : exists row rows, sample_claim sample_now sample_table = Some (row :: rows, sample_leased).
Proof.
  assert (match sample_claim sample_now sample_table with Some (_ :: _, _) => true | _ => false end = true) as Hb
    by (vm_compute; reflexivity).
  unfold sample_leased. destruct (sample_claim sample_now sample_table) as [[[|row rows] t]|]; try discriminate Hb. eauto.
Qed.

Lemma sample_claimed_later : exists rows t, sample_claim sample_later sample_leased = Some (rows, t).
Proof.
  assert (not_nil (sample_claim sample_later sample_leased) = true) as Hb by (vm_compute; reflexivity).
  destruct (sample_claim sample_later sample_leased) as [[rows t]|]; [eauto|discriminate Hb].
Qed.

Lemma lease_exclusive_witness :
  exists row rows rows' t, sample_claim sample_now sample_table = Some (row :: rows, sample_leased) /\
    sample_claim sample_later sample_leased = Some (rows', t) /\ ob_EventID row ∉ map ob_EventID rows'.
Proof.
  destruct sample_claimed as (row & rows & Hc). destruct sample_claimed_later as (rows' & t & Hc').
  exists row, rows, rows', t. split; [exact Hc|]. split; [exact Hc'|].
  eapply (lease_exclusive sample_plan sample_now (row :: rows) sample_table sample_leased row sample_leased sample_plan sample_later);
    [exact sample_keyed|exact Hc|by left|apply rtc_refl|vm_compute; discriminate|exact Hc'].
Defined.

Lemma calm_run_publishes_witness :
  exists w, Programs.run (@pexec _ _) PublishAvailable (replicate 5 sample_pchoice) sample_pworld = Some ((1, None), w).
Proof.
  assert (len (due (column_time sample_now) sample_table) = 1) as Hl by (vm_compute; reflexivity).
  assert (forallb (fun r => ob_Attempts r <? MaxInt32) (due (column_time sample_now) sample_table) = true) as Ha
    by (vm_compute; reflexivity).
  destruct (calm_run_publishes sample_pchoice sample_pworld 5) as (w & Hrun & _).
  - split_and!; [done|vm_compute; reflexivity|done|done|]. intros m s. cbn. eexists _, _. split_and!; [done|done|].
    cbn. unfold len. lia.
  - exact sample_pworld_ok.
  - change (length (due (column_time sample_now) sample_table) <= 100)%nat. unfold len in Hl. lia.
  - intros r Hr. apply forallb_Forall in Ha. rewrite Forall_forall in Ha. apply Z.ltb_lt, Ha. exact Hr.
  - change (3 + 2 * length (due (column_time sample_now) sample_table) <= 5)%nat. unfold len in Hl. lia.
  - exists w. rewrite <- Hl. exact Hrun.
Defined.

(** A history: the event is appended, a run publishes it, and a consumer that
    counts events receives it. *)
Definition sample_handlers (name : bytes) (envelope : EventEnvelope) (n : nat) : option nat := Some (S n).
Definition sample_consumer : bytes := sbytes "mailer".
Definition sample_cstate : cstate nat := MkCState ∅ 0%nat.
Abbreviation sample_run :=
  (Programs.run (@pexec _ _) PublishAvailable (replicate 5 sample_pchoice) sample_pworld).
Definition sample_published : pworld := match sample_run with Some (_, w) => w | None => empty_pworld end.
Definition sample_msg : Msg := MkMsg AccountStateChangedType sample_id_text sample_wire.
Abbreviation sample_delivery :=
  (Consume (MkConsumer sample_consumer consumedEventRetention) (sample_handlers sample_consumer) calm_delivery
     (nm_Data sample_msg) sample_later sample_cstate).

Lemma sample_run_done : exists res, sample_run = Some (res, sample_published).
Proof.
  assert (not_nil sample_run = true) as Hb by (vm_compute; reflexivity).
  unfold sample_published. destruct sample_run as [[res w]|]; [eauto|discriminate Hb].
Qed.

Lemma sample_msg_stored : js_stored (pw_stream sample_published) sample_msg.
Proof.
  assert (bool_decide (sample_msg ∈ (pw_stream sample_published : list Msg)) = true) as Hb by (vm_compute; reflexivity).
  apply bool_decide_eq_true in Hb. exact Hb.
Qed.

Lemma sample_delivered : exists s, sample_delivery = (None, s).
Proof.
  assert (is_nil sample_delivery.1 = true) as Hb by (vm_compute; reflexivity).
  destruct sample_delivery as [[err|] s]; [discriminate Hb|eauto].
Qed.

(** Calls of the pool are steps of the system. *)
Lemma esys_calls {App} (handlers : bytes -> EventEnvelope -> App -> option App) p w p' w' c fx pr :
  rtc (pool_step (@pexec _ _)) (p, w) (p', w') ->
  rtc (esys_step handlers) (MkESystem p w c fx pr) (MkESystem p' w' c fx pr).
Proof.
  intros Hs. remember (p, w) as a eqn:Ea. remember (p', w') as b eqn:Eb. revert p w Ea.
  induction Hs as [x|x [p1 w1] z Hxy _ IH]; intros p w ->; [by simplify_eq|].
  eapply rtc_l; [by apply es_call|]. by apply IH.
Qed.

Definition sample_start : @esystem sample_stream nat := @einit sample_stream nat 0%nat (pw_stream empty_pworld).

Definition sample_final (res : Z * option pub_err) (s : cstate nat) : esystem :=
  MkESystem [(tt, Ret res)] sample_published s
    (delivered sample_consumer (nm_Data sample_msg) sample_cstate s) [].

Lemma sample_history res s :
  sample_run = Some (res, sample_published) -> sample_delivery = (None, s) ->
  rtc (esys_step sample_handlers) sample_start (sample_final res s).
Proof.
  intros Hrun Hdel. eapply rtc_l; [exact (es_append sample_handlers _ _ _ _ _ empty_pworld _ _ _ sample_appended)|].
  eapply rtc_l; [apply es_run|]. etrans; [exact (esys_calls _ _ _ _ _ _ _ _ (run_steps _ tt _ _ _ _ _ Hrun))|].
  eapply rtc_l; [|apply rtc_refl].
  refine (es_deliver sample_handlers sample_consumer _ calm_delivery sample_msg sample_later None s _ _ _ [] _ _ _ Hdel);
    [reflexivity|exact sample_msg_stored].
Qed.

Lemma sample_stream_empty : empty_stream (pw_stream empty_pworld).
Proof. by intros m Hm%elem_of_nil. Qed.

Lemma published_events_stored_witness :
  exists res s, rtc (esys_step sample_handlers) sample_start (sample_final res s) /\
    exists id r, pw_table sample_published !! id = Some r /\
      sample_msg = MkMsg (ob_EventType r) (uuid_String id) (ob_Payload r).
Proof.
  destruct sample_run_done as [res Hrun]. destruct sample_delivered as [s Hdel].
  pose proof (sample_history res s Hrun Hdel) as Hs. exists res, s. split; [exact Hs|].
  destruct (published_events_stored sample_handlers 0%nat (pw_stream empty_pworld) (sample_final res s)
              sample_stream_empty Hs) as (_ & Hm & _).
  destruct (Hm sample_msg sample_msg_stored) as (id & r & _ & Hr & He & _).
  exists id, r. split; [exact Hr|exact He].
Defined.

Lemma effects_exactly_once_witness :
  exists res s, rtc (esys_step sample_handlers) sample_start (sample_final res s) /\
    replay sample_handlers 0%nat (es_effects (sample_final res s)) = Some (cs_app s).
Proof.
  destruct sample_run_done as [res Hrun]. destruct sample_delivered as [s Hdel].
  pose proof (sample_history res s Hrun Hdel) as Hs. exists res, s. split; [exact Hs|].
  destruct (effects_exactly_once sample_handlers 0%nat (pw_stream empty_pworld) (sample_final res s)
              sample_stream_empty Hs) as (_ & _ & _ & Hre).
  exact Hre.
Defined.

Lemma consume_acknowledges_witness :
  exists s id, sample_delivery = (None, s) /\ cs_consumed s !! (sample_consumer, id) <> None.
Proof.
  destruct sample_delivered as [s Hdel]. pose proof (consume_acknowledges _ _ _ _ _ _ _ _ Hdel) as Hc.
  cbn in Hc. destruct Hc as (envelope & id & _ & _ & Hr & _). exists s, id. split; [exact Hdel|exact Hr].
Defined.
