(* ===== verification/DeviceRows.v ===== *)
(** Device token families: the tables of [db/migrations/00003_deviceauth.sql], the
    statements of [db/queries/deviceauth.sql] that the rotation of device tokens
    runs, and the methods of [postgresTransaction] in
    [internal/deviceauth/postgres_repository.go] around them.

    Statements of a transaction run on the state the transaction sees.  Rows a
    transaction locks are not changed by others until it ends; the one statement
    that can miss rows committed while it waited for a lock is
    [LockDeviceFamilyRefreshTokens], and what it misses is a choice of the
    environment. *)
From Stdlib Require Import ZArith Lia Strings.Byte.
From stdpp Require Import base gmap list sorting strings numbers option.
From S2P Require Import Prelude GoStd GoTime AuthorityTypes Ledger FenceStore Text Sensitive Idempotency Tokens Descriptors Events Outbox Transactions.

#[local] Open Scope go_scope.
#[local] Open Scope txn_scope.

(** ** Rows *)

(** [store.DeviceauthDeviceRefreshToken] *)
Record RefreshRow := MkRefreshRow {
  rt_TokenHash : bytes;
  rt_FamilyID : UUID;
  rt_PreviousTokenHash : option bytes;
  rt_State : string;
  rt_IssuedAt : time;
  rt_UsedAt : option time;
  rt_RevokedAt : option time }.

(** [store.DeviceauthDeviceTokenFamily] *)
Record FamilyRow := MkFamilyRow {
  fm_ID : UUID;
  fm_AuthorizationID : UUID;
  fm_State : string;
  fm_StateVersion : Z;
  fm_AccessTokenHash : bytes;
  fm_AccessExpiresAt : time;
  fm_IdleExpiresAt : time;
  fm_AbsoluteExpiresAt : time;
  fm_CreatedAt : time;
  fm_UpdatedAt : time }.

(** [store.DeviceauthDeviceAuthorization] *)
Record AuthorizationRow := MkAuthorizationRow {
  az_ID : UUID;
  az_PrincipalID : UUID;
  az_DeviceID : UUID;
  az_State : string;
  az_StateVersion : Z;
  az_ProvisionalUntil : option time;
  az_CreatedAt : time;
  az_UpdatedAt : time }.

(** [store.DeviceauthDevice] *)
Record DeviceRow := MkDeviceRow {
  dv_ID : UUID;
  dv_PrincipalID : UUID;
  dv_DisplayNameCiphertext : option bytes;
  dv_DisplayNameKeyVersion : option Z;
  dv_SigningPublicKey : bytes;
  dv_HpkePublicKey : bytes;
  dv_KeyVersion : Z;
  dv_State : string;
  dv_CreatedAt : time;
  dv_UpdatedAt : time }.

(** [store.IdentityAccount] *)
Record AccountRow := MkAccountRow {
  ac_ID : UUID;
  ac_State : string;
  ac_StateVersion : Z;
  ac_Locale : bytes;
  ac_CreatedAt : time;
  ac_UpdatedAt : time }.

(** A row of [identity.security_events]. *)
Record SecurityRow := MkSecurityRow {
  se_ID : UUID;
  se_PrincipalID : option UUID;
  se_Category : bytes;
  se_Fingerprint : bytes;
  se_AggregateVersion : Z;
  se_OccurredAt : time }.

(** [store.DiscoverDeviceRefreshTokenRow]: columns of the four rows of the join. *)
Record DiscoverRefreshRow := MkDiscoverRefreshRow {
  dr_refresh : RefreshRow;
  dr_family : FamilyRow;
  dr_authorization : AuthorizationRow;
  dr_device : DeviceRow }.

Definition disc_TokenHash (r : DiscoverRefreshRow) : bytes := rt_TokenHash (dr_refresh r).
Definition disc_FamilyID (r : DiscoverRefreshRow) : UUID := rt_FamilyID (dr_refresh r).
Definition disc_RefreshState (r : DiscoverRefreshRow) : string := rt_State (dr_refresh r).
Definition disc_AuthorizationID (r : DiscoverRefreshRow) : UUID := fm_AuthorizationID (dr_family r).
Definition disc_PrincipalID (r : DiscoverRefreshRow) : UUID := az_PrincipalID (dr_authorization r).
Definition disc_DeviceID (r : DiscoverRefreshRow) : UUID := az_DeviceID (dr_authorization r).

(** The database the service works on: the device tables, the tables of
    [identity] it reads and writes through the participant, the idempotency
    records and the outbox. *)
Record dstate := MkDState {
  ds_tokens : gmap bytes RefreshRow;
  ds_families : gmap UUID FamilyRow;
  ds_authorizations : gmap UUID AuthorizationRow;
  ds_devices : gmap UUID DeviceRow;
  ds_accounts : gmap UUID AccountRow;
  ds_security : gmap UUID SecurityRow;
  ds_idem : istate;
  ds_outbox : outbox_table }.

Definition with_tokens (t : gmap bytes RefreshRow) (s : dstate) : dstate :=
  MkDState t (ds_families s) (ds_authorizations s) (ds_devices s) (ds_accounts s) (ds_security s)
    (ds_idem s) (ds_outbox s).
Definition with_families (t : gmap UUID FamilyRow) (s : dstate) : dstate :=
  MkDState (ds_tokens s) t (ds_authorizations s) (ds_devices s) (ds_accounts s) (ds_security s)
    (ds_idem s) (ds_outbox s).
Definition with_security (t : gmap UUID SecurityRow) (s : dstate) : dstate :=
  MkDState (ds_tokens s) (ds_families s) (ds_authorizations s) (ds_devices s) (ds_accounts s) t
    (ds_idem s) (ds_outbox s).
Definition with_idem (t : istate) (s : dstate) : dstate :=
  MkDState (ds_tokens s) (ds_families s) (ds_authorizations s) (ds_devices s) (ds_accounts s)
    (ds_security s) t (ds_outbox s).
Definition with_outbox (t : outbox_table) (s : dstate) : dstate :=
  MkDState (ds_tokens s) (ds_families s) (ds_authorizations s) (ds_devices s) (ds_accounts s)
    (ds_security s) (ds_idem s) t.

(** [bytes.Compare(a, b) <= 0] *)
Fixpoint bytes_leb (a b : bytes) : bool :=
  match a, b with
  | [], _ => true
  | _ :: _, [] => false
  | x :: a, y :: b =>
      if byte_to_Z x <? byte_to_Z y then true
      else if byte_to_Z y <? byte_to_Z x then false else bytes_leb a b
  end.

Definition hash_le (a b : RefreshRow) : Prop := bytes_leb (rt_TokenHash a) (rt_TokenHash b) = true.

#[export] Instance hash_le_dec : RelDecision hash_le.
Proof. intros a b. unfold hash_le. apply _. Defined.

(** ** The authority a transaction has locked *)

Record deviceRefreshAuthority := MkRefreshAuthority {
  ra_discovered : DiscoverRefreshRow;
  ra_family : FamilyRow;
  ra_authorization : AuthorizationRow;
  ra_device : DeviceRow;
  ra_refresh : list RefreshRow }.

(** The errors of the service: those of [apierrors], [ErrRepository], and the two
    private ones.  The preflight error carries what the closure assigned to the
    variable it captured. *)
Inductive device_err :=
| DeviceMalformedRequest
| DeviceAuthenticationFailed
| DeviceDependencyUnavailable
| DeviceIdempotencyConflict
| DeviceStateConflict
| DeviceRepositoryErr
| DevicePreflight (authority : deviceRefreshAuthority)
| DeviceSnapshotSkew.

(** ** Statements *)
Section Statements.
Context `{TimestampColumn}.

Definition SelectRefresh (digest : bytes) (s : dstate) : option DiscoverRefreshRow :=
  r ← ds_tokens s !! digest;
  f ← ds_families s !! rt_FamilyID r;
  a ← ds_authorizations s !! fm_AuthorizationID f;
  d ← ds_devices s !! az_DeviceID a;
  Some (MkDiscoverRefreshRow r f a d).

(** [WHERE family_id = $1 ORDER BY token_hash] *)
Definition SelectFamilyTokens (familyID : UUID) (s : dstate) : list RefreshRow :=
  merge_sort hash_le (List.filter (fun r => rt_FamilyID r == familyID) (map_to_list (ds_tokens s)).*2).

Definition set_refresh_state (state : string) (used revoked : option time) (r : RefreshRow) : RefreshRow :=
  MkRefreshRow (rt_TokenHash r) (rt_FamilyID r) (rt_PreviousTokenHash r) state (rt_IssuedAt r) used revoked.

(** [UPDATE ... WHERE token_hash=$1 AND state='active' RETURNING *] *)
Definition UpdateRefreshUsed (digest : bytes) (usedAt : time) (s : dstate) : option (bool * dstate) :=
  match ds_tokens s !! digest with
  | Some r =>
      if rt_State r == "active"%string then
        Some (true, with_tokens (<[digest := set_refresh_state "used" (Some (column_time usedAt))
                                               (rt_RevokedAt r) r]> (ds_tokens s)) s)
      else Some (false, s)
  | None => Some (false, s)
  end.

(** [UNIQUE (access_token_hash)] for the family [id]. *)
Definition access_hash_free (id : UUID) (hash : bytes) (s : dstate) : bool :=
  forallb (fun f => (fm_ID f == id) || (fm_AccessTokenHash f != hash)) (map_to_list (ds_families s)).*2.

Definition rotate_row (hash : bytes) (access idle updated : time) (f : FamilyRow) : FamilyRow :=
  MkFamilyRow (fm_ID f) (fm_AuthorizationID f) (fm_State f) (fm_StateVersion f + 1) hash
    (column_time access) (column_time idle) (fm_AbsoluteExpiresAt f) (fm_CreatedAt f) (column_time updated).

(** [None] is a violated constraint or a version beyond [bigint]. *)
Definition UpdateFamilyAccess (id : UUID) (hash : bytes) (access idle updated : time) (s : dstate) :
  option (option FamilyRow * dstate) :=
  match ds_families s !! id with
  | Some f =>
      if (fm_State f == "active"%string) && negb (Before (fm_IdleExpiresAt f) (column_time updated)) &&
         negb (Before (fm_AbsoluteExpiresAt f) (column_time updated)) then
        if (MaxInt64 <=? fm_StateVersion f) || negb (len hash =? 32) || negb (access_hash_free id hash s)
        then None
        else let f' := rotate_row hash access idle updated f in
             Some (Some f', with_families (<[id := f']> (ds_families s)) s)
      else Some (None, s)
  | None => Some (None, s)
  end.

Definition compromise_row (updated : time) (f : FamilyRow) : FamilyRow :=
  MkFamilyRow (fm_ID f) (fm_AuthorizationID f) "compromised" (fm_StateVersion f + 1)
    (fm_AccessTokenHash f) (fm_AccessExpiresAt f) (fm_IdleExpiresAt f) (fm_AbsoluteExpiresAt f)
    (fm_CreatedAt f) (column_time updated).

Definition UpdateFamilyCompromised (id : UUID) (updated : time) (s : dstate) :
  option (option FamilyRow * dstate) :=
  match ds_families s !! id with
  | Some f =>
      if fm_State f == "active"%string then
        if MaxInt64 <=? fm_StateVersion f then None
        else let f' := compromise_row updated f in
             Some (Some f', with_families (<[id := f']> (ds_families s)) s)
      else Some (None, s)
  | None => Some (None, s)
  end.

Definition revocable (familyID : UUID) (r : RefreshRow) : bool :=
  (rt_FamilyID r == familyID) && (rt_State r == "active"%string).

Definition revoke_refresh (familyID : UUID) (at_ : time) (r : RefreshRow) : RefreshRow :=
  if revocable familyID r then set_refresh_state "revoked" (rt_UsedAt r) (Some (column_time at_)) r else r.

(** The number of rows changed. *)
Definition UpdateRefreshRevoked (familyID : UUID) (at_ : time) (s : dstate) : option (Z * dstate) :=
  Some (len (List.filter (revocable familyID) (map_to_list (ds_tokens s)).*2),
        with_tokens (revoke_refresh familyID at_ <$> ds_tokens s) s).

(** [None] is a violated key or constraint. *)
Definition InsertRefresh (hash : bytes) (familyID : UUID) (previous : option bytes) (issuedAt : time)
  (s : dstate) : option (unit * dstate) :=
  if not_nil (ds_tokens s !! hash) || negb (len hash =? 32) || is_nil (ds_families s !! familyID) ||
     negb (null_or (fun p => len p =? 32) previous)
  then None
  else Some (tt, with_tokens (<[hash := MkRefreshRow hash familyID previous "active" (column_time issuedAt)
                                          None None]> (ds_tokens s)) s).

(** [category ~ '^[a-z][a-z0-9_]{0,63}$'] and [fingerprint ~
    '^[a-z][a-z0-9_.-]{0,127}$'] *)
Definition security_checks (r : SecurityRow) : bool :=
  match se_Category r with
  | [] => false
  | first :: rest =>
      in_range "a" "z" first && (len rest <=? 63) &&
      forallb (fun c => in_range "a" "z" c || in_range "0" "9" c || bool_decide (c = "_"%byte)) rest
  end &&
  match se_Fingerprint r with
  | [] => false
  | first :: rest => in_range "a" "z" first && (len rest <=? 127) && forallb (name_byte true) rest
  end && (0 <? se_AggregateVersion r).

Definition InsertSecurityEvent (r : SecurityRow) (s : dstate) : option (unit * dstate) :=
  if not_nil (ds_security s !! se_ID r) || negb (security_checks r) ||
     negb (null_or (fun p => not_nil (ds_accounts s !! p)) (se_PrincipalID r))
  then None else Some (tt, with_security (<[se_ID r := r]> (ds_security s)) s).
End Statements.

(** ** Methods of the transaction *)
Section Methods.
Context `{Primitives} `{UUIDText} `{Protobuf} `{TimestampColumn} `{Protector}.

(** What the environment decides at one call: whether a statement fails, which
    tokens were committed before a lock was waited for, the environment of a call
    to another package, and what is drawn from the random source. *)
Record choice := MkChoice {
  ch_fails : bool;
  ch_seen : bytes -> bool;
  ch_env : env;
  ch_entropy : entropy;
  ch_random : random_source }.

Abbreviation dtx := (txn choice dstate device_err).

(** A query that changes nothing. *)
Definition query {A} (f : choice -> dstate -> A) : dtx A :=
  tx_step (fun ch s => if ch_fails ch then (Err DeviceRepositoryErr, s) else (Ok (f ch s), s)).

(** A statement that may violate a constraint. *)
Definition update {A} (f : dstate -> option (A * dstate)) : dtx A :=
  tx_step (fun ch s =>
    if ch_fails ch then (Err DeviceRepositoryErr, s)
    else match f s with Some (a, s') => (Ok a, s') | None => (Err DeviceRepositoryErr, s) end).

Definition DiscoverDeviceRefreshToken (digest : bytes) : dtx (option DiscoverRefreshRow) :=
  fail_if negb (len digest =? 32) with DeviceRepositoryErr;
  query (fun _ s => SelectRefresh digest s).

(** The rows the statement's snapshot had, as they are once locked. *)
Definition LockDeviceFamilyRefreshTokens (familyID : UUID) : dtx (list RefreshRow) :=
  fail_if familyID == uuid_Nil with DeviceRepositoryErr;
  query (fun ch s => List.filter (fun r => ch_seen ch (rt_TokenHash r)) (SelectFamilyTokens familyID s)).

Definition ListDeviceFamilyRefreshTokens (familyID : UUID) : dtx (list RefreshRow) :=
  fail_if familyID == uuid_Nil with DeviceRepositoryErr;
  query (fun _ s => SelectFamilyTokens familyID s).

Definition GetDeviceTokenFamilyForUpdate (familyID : UUID) : dtx (option FamilyRow) :=
  fail_if familyID == uuid_Nil with DeviceRepositoryErr;
  query (fun _ s => ds_families s !! familyID).

Definition GetDeviceAuthorizationForUpdate (authorizationID : UUID) : dtx (option AuthorizationRow) :=
  fail_if authorizationID == uuid_Nil with DeviceRepositoryErr;
  query (fun _ s => ds_authorizations s !! authorizationID).

Definition GetDeviceForUpdate (deviceID : UUID) : dtx (option DeviceRow) :=
  fail_if deviceID == uuid_Nil with DeviceRepositoryErr;
  query (fun _ s => ds_devices s !! deviceID).

Definition MarkDeviceRefreshUsed (digest : bytes) (usedAt : time) : dtx bool :=
  fail_if negb (len digest =? 32) with DeviceRepositoryErr;
  update (UpdateRefreshUsed digest usedAt).

Definition RotateDeviceFamilyAccess (id : UUID) (hash : bytes) (access idle updated : time) :
  dtx (option FamilyRow) :=
  fail_if (id == uuid_Nil) || negb (len hash =? 32) with DeviceRepositoryErr;
  update (UpdateFamilyAccess id hash access idle updated).

Definition CompromiseDeviceTokenFamily (id : UUID) (updated : time) : dtx (option FamilyRow) :=
  fail_if id == uuid_Nil with DeviceRepositoryErr;
  update (UpdateFamilyCompromised id updated).

Definition RevokeDeviceRefreshTokens (familyID : UUID) (at_ : time) : dtx Z :=
  fail_if familyID == uuid_Nil with DeviceRepositoryErr;
  do rows <- update (UpdateRefreshRevoked familyID at_);
  fail_if rows <? 0 with DeviceRepositoryErr; tx_ret rows.

Definition InsertDeviceRefreshToken (hash : bytes) (familyID : UUID) (previous : option bytes)
  (issuedAt : time) : dtx unit :=
  update (InsertRefresh hash familyID previous issuedAt).

(** [BeginIdempotency], [CompleteIdempotency] and [AppendEvent] wrap the other
    packages' operations on the same transaction. *)
Definition BeginIdempotency (scope : Scope) (key canonical : bytes) (createdAt expiresAt : time) :
  dtx (IdempotencyRecord * Outcome) :=
  tx_step (fun ch s =>
    match Begin (ch_env ch) scope key canonical createdAt expiresAt (ds_idem s) with
    | (Ok r, idem) => (Ok r, with_idem idem s)
    | (Err _, idem) => (Err DeviceRepositoryErr, with_idem idem s)
    end).

Definition CompleteIdempotencyRecord (record : IdempotencyRecord) (status : Z) (body : bytes) : dtx unit :=
  tx_step (fun ch s =>
    match Complete (ch_env ch) (ch_entropy ch) record status body (ds_idem s) with
    | (Err _, idem) => (Err DeviceRepositoryErr, with_idem idem s)
    | (Ok completed, idem) =>
        match TakeResponseBody completed idem with
        | (Some _, idem) => (Ok tt, with_idem idem s)
        | (None, idem) => (Err DeviceRepositoryErr, with_idem idem s)
        end
    end).

Definition AppendEvent (envelope : EventEnvelope) : dtx unit :=
  tx_step (fun ch s =>
    match Append (ch_env ch) envelope (ds_outbox s) with
    | (None, outbox) => (Ok tt, with_outbox outbox s)
    | (Some _, outbox) => (Err DeviceRepositoryErr, with_outbox outbox s)
    end).

(** [record.TakeResponseBody()] of a handle of this transaction. *)
Definition TakeBody (record : IdempotencyRecord) : dtx (option bytes) :=
  tx_step (fun _ s => let '(body, idem) := TakeResponseBody record (ds_idem s) in (Ok body, with_idem idem s)).

(** ** The identity participant *)

Definition provisionalAuthorizationTTL : Z := 24 * Hour.

Definition accountFixedGraceDeadline (account : AccountRow) (now : time) : option time :=
  if (ac_ID account == uuid_Nil) || (ac_State account != "pending_email"%string) || IsZero now ||
     IsZero (ac_CreatedAt account) || After (ac_CreatedAt account) now
  then None
  else
    let deadline := time_Add (ac_CreatedAt account) provisionalAuthorizationTTL in
    if negb (After deadline (ac_CreatedAt account)) || negb (After deadline now) then None
    else Some deadline.

(** [canonicalIdentityUUID] is [parse_canonical]; the principal is given as a
    text. *)
Definition ValidateDeviceAccountAuthority (principalID : bytes) (now : time) : dtx bool :=
  match parse_canonical principalID with
  | None => tx_fail DeviceRepositoryErr
  | Some parsed =>
      fail_if IsZero now with DeviceRepositoryErr;
      query (fun ch s =>
        match ds_accounts s !! parsed with
        | None => false
        | Some account =>
            if ac_ID account != parsed then false
            else if ac_State account == "active"%string then true
            else not_nil (accountFixedGraceDeadline account now)
        end)
  end.

Definition RecordDeviceTokenReplay (eventID authorizationID : UUID) (now : time) : dtx unit :=
  fail_if (eventID == uuid_Nil) || (authorizationID == uuid_Nil) || IsZero now with DeviceRepositoryErr;
  update (InsertSecurityEvent
    (MkSecurityRow eventID None (sbytes "device_token_replay") (sbytes "deviceauth.refresh_replay") 1
       (column_time now))).
End Methods.
Abbreviation dtx := (txn choice dstate device_err).
