(* ===== verification/DeviceChallenge.v ===== *)
(** Device challenges and proofs of possession: [internal/deviceauth/pop.go],
    [challenge_store.go], [redis_challenge_store.go], and the random draws and
    context digests of [register.go].

    [net/url] and [net] are parameters ([NetURL]). *)
From Stdlib Require Import ZArith Lia Strings.Byte.
From stdpp Require Import base gmap list strings numbers option.
From S2P Require Import Prelude GoStd GoTime AuthorityTypes Ledger FenceStore Text Tokens.

#[local] Open Scope go_scope.

(** ** Public origins *)

(** The fields of [url.URL] the code looks at; [u_text] is [u.String()]. *)
Record URL := MkURL {
  u_Scheme : bytes; u_Host : bytes; u_Hostname : bytes; u_HasUser : bool; u_RawQuery : bytes;
  u_Fragment : bytes; u_Opaque : bytes; u_ForceQuery : bool; u_RawPath : bytes; u_RawFragment : bytes;
  u_Path : bytes; u_text : bytes }.

Class NetURL := {
  (** [url.ParseRequestURI]; [None] is an error *)
  url_ParseRequestURI : bytes -> option URL;
  (** [net.ParseIP(h) != nil && net.ParseIP(h).IsLoopback()] *)
  ip_IsLoopback : bytes -> bool;
  (** [strings.EqualFold(h, "localhost")] and [strings.ToLower] *)
  is_localhost : bytes -> bool;
  to_lower : bytes -> bytes }.

Definition maximumProofNameBytes : Z := 64.
Definition maximumProofAudienceBytes : Z := 2048.

Definition validProofString (value : bytes) (maximum : Z) : bool :=
  (0 <? len value) && (len value <=? maximum) && utf8_Valid value.

(** What follows the last occurrence of a byte. *)
Fixpoint after_last (c : byte) (l : bytes) : option bytes :=
  match l with
  | [] => None
  | x :: l => match after_last c l with
              | Some r => Some r
              | None => if x == c then Some l else None
              end
  end.

Definition port_valid (port : bytes) : bool :=
  match ParseUint port 10 16 with
  | Some number => (1 <=? number) && (FormatUint number 10 == port)
  | None => false
  end.

Definition validPublicOriginPort (host : bytes) : bool :=
  if has_prefix ["["%byte] host then
    match after_last "]"%byte host with
    | None => false
    | Some [] => true
    | Some remainder => if has_prefix [":"%byte] remainder then port_valid (trim_prefix [":"%byte] remainder) else false
    end
  else match after_last ":"%byte host with
       | Some port => port_valid port
       | None => true
       end.

Definition validPublicOrigin `{NetURL} (value : bytes) : bool :=
  if negb (validProofString value maximumProofAudienceBytes) then false
  else match url_ParseRequestURI value with
  | None => false
  | Some u =>
      if (u_Host u == []) || (u_Hostname u == []) || u_HasUser u || (u_RawQuery u != []) ||
         (u_Fragment u != []) || (u_Opaque u != []) || u_ForceQuery u || (u_RawPath u != []) ||
         (u_RawFragment u != []) || ((u_Path u != []) && (u_Path u != ["/"%byte])) ||
         negb (validPublicOriginPort (u_Host u)) || (u_text u != value)
      then false
      else if u_Scheme u == sbytes "https" then u_Host u == to_lower (u_Host u)
      else if u_Scheme u != sbytes "http" then false
      else if is_localhost (u_Hostname u) then true
      else ip_IsLoopback (u_Hostname u)
  end.

(** ** Proof transcripts *)

Definition deviceProofPrefix : bytes := sbytes "TALENRO-DEVICE-POP-V1" ++ [x00].
Definition deviceRotationProofPrefix : bytes := sbytes "TALENRO-DEVICE-ROTATION-V1" ++ [x00].
Definition deviceProofProtocolVersion : bytes := sbytes "device-pop-v1".
Definition registerDeviceOperation : bytes := sbytes "register_device".
Definition deviceRotationProtocolVersion : bytes := sbytes "device-token-rotation-v1".
Definition rotateDeviceTokenOperation : bytes := sbytes "rotate_device_token".

(** [appendProofString], [appendDeviceRotationString] and
    [appendRegistrationFrame] append the same frame. *)
Definition frame (value : bytes) : bytes := be_bytes 4 (u32 (len value)) ++ value.

Record ProofInput := MkProofInput {
  pi_ProtocolVersion : bytes;
  pi_Challenge : Digest;
  pi_GrantDigest : Digest;
  pi_SigningPublicKey : Digest;
  pi_HPKEPublicKey : Digest;
  pi_Operation : bytes;
  pi_Audience : bytes;
  pi_RequestNonce : Digest }.

(** [nil] when the input is refused. *)
Definition ProofBytes (input : ProofInput) : bytes :=
  if negb (validProofString (pi_ProtocolVersion input) maximumProofNameBytes) ||
     negb (validProofString (pi_Operation input) maximumProofNameBytes) ||
     negb (validProofString (pi_Audience input) maximumProofAudienceBytes) ||
     (pi_Challenge input == zero_digest) || (pi_GrantDigest input == zero_digest) ||
     (pi_SigningPublicKey input == zero_digest) || (pi_HPKEPublicKey input == zero_digest) ||
     (pi_RequestNonce input == zero_digest)
  then []
  else deviceProofPrefix ++ frame (pi_ProtocolVersion input) ++ pi_Challenge input ++
       pi_GrantDigest input ++ pi_SigningPublicKey input ++ pi_HPKEPublicKey input ++
       frame (pi_Operation input) ++ frame (pi_Audience input) ++ pi_RequestNonce input.

Record DeviceRotationProofInput := MkRotationProofInput {
  rp_ProtocolVersion : bytes;
  rp_Challenge : Digest;
  rp_FamilyID : UUID;
  rp_Operation : bytes;
  rp_Audience : bytes;
  rp_RequestNonce : Digest }.

Definition DeviceRotationProofBytes (input : DeviceRotationProofInput) : bytes :=
  if (rp_ProtocolVersion input == []) || (maximumProofNameBytes <? len (rp_ProtocolVersion input)) ||
     (rp_Challenge input == zero_digest) || (rp_FamilyID input == uuid_Nil) ||
     (rp_Operation input == []) || (maximumProofNameBytes <? len (rp_Operation input)) ||
     negb (validProofString (rp_Audience input) maximumProofAudienceBytes) ||
     (rp_RequestNonce input == zero_digest)
  then []
  else deviceRotationProofPrefix ++ frame (rp_ProtocolVersion input) ++ rp_Challenge input ++
       rp_FamilyID input ++ frame (rp_Operation input) ++ frame (rp_Audience input) ++
       rp_RequestNonce input.

(** ** Challenge records *)

Definition ChallengeRegistration : bytes := sbytes "registration".
Definition ChallengeRotation : bytes := sbytes "rotation".
Definition challengeRecordPrefix : bytes := sbytes "TALENRO-DEVICE-CHALLENGE-V1" ++ [x00].
Definition deviceChallengeTTL : Z := 2 * Minute.
Definition maximumChallengeKindBytes : Z := len ChallengeRegistration.
Definition maximumChallengeProtocolBytes : Z := len deviceRotationProtocolVersion.
Definition maximumChallengeOperationBytes : Z := len rotateDeviceTokenOperation.

Inductive challenge_err := ErrInvalidChallenge | ErrChallengeNotFound | ErrChallengeUnavailable.

Record ChallengeRecord := MkChallengeRecord {
  cg_ChallengeID : bytes;
  cg_Kind : bytes;
  cg_ProtocolVersion : bytes;
  cg_Operation : bytes;
  cg_Challenge : Digest;
  cg_GrantDigest : Digest;
  cg_ContextDigest : Digest;
  cg_ExpiresAt : time }.

Section Challenges.
Context `{Primitives} `{UUIDText}.

Definition validContract (record : ChallengeRecord) : bool :=
  ((cg_Kind record == ChallengeRegistration) && (cg_ProtocolVersion record == deviceProofProtocolVersion) &&
   (cg_Operation record == registerDeviceOperation)) ||
  ((cg_Kind record == ChallengeRotation) && (cg_ProtocolVersion record == deviceRotationProtocolVersion) &&
   (cg_Operation record == rotateDeviceTokenOperation)).

Definition validChallengeRecord (record : ChallengeRecord) : bool :=
  canonicalUUID (cg_ChallengeID record) && validContract record &&
  (cg_Challenge record != zero_digest) && (cg_GrantDigest record != zero_digest) &&
  (cg_ContextDigest record != zero_digest) && negb (IsZero (cg_ExpiresAt record)) &&
  (2020 <=? Year (cg_ExpiresAt record)) && (Year (cg_ExpiresAt record) <=? 2100).

(** [appendChallengeRecordString] *)
Definition challenge_frame (value : bytes) : bytes := be_bytes 2 (u16 (len value)) ++ value.

(** [t.UTC().UnixNano()] as the bits of an [int64]. *)
Definition unix_nano_bits (t : time) : Z := u64 (i64 (t_nanos t - unix_epoch_nanos)).

Definition encodeChallengeRecord (record : ChallengeRecord) : result challenge_err bytes :=
  if negb (validChallengeRecord record) then Err ErrInvalidChallenge
  else Ok (challengeRecordPrefix ++ challenge_frame (cg_Kind record) ++
           challenge_frame (cg_ProtocolVersion record) ++ challenge_frame (cg_Operation record) ++
           cg_Challenge record ++ cg_GrantDigest record ++ cg_ContextDigest record ++
           be_bytes 8 (unix_nano_bits (cg_ExpiresAt record))).

Definition decodeChallengeRecordString (wire : bytes) (offset maximumLength : Z) : option (bytes * Z) :=
  if len wire <? offset + 2 then None
  else
    let length := be_value (subslice wire offset (offset + 2)) in
    let offset := offset + 2 in
    if (length =? 0) || (maximumLength <? length) || (len wire <? offset + length) then None
    else Some (subslice wire offset (offset + length), offset + length).

Definition decodeChallengeRecord (challengeID wire : bytes) : result challenge_err ChallengeRecord :=
  let prefix := len challengeRecordPrefix in
  let minimum := prefix + 6 + 32 * 3 + 8 in
  if (len wire <? minimum) || (subslice wire 0 prefix != challengeRecordPrefix)
  then Err ErrChallengeUnavailable
  else match decodeChallengeRecordString wire prefix maximumChallengeKindBytes with
  | None => Err ErrChallengeUnavailable
  | Some (kind, offset) =>
    match decodeChallengeRecordString wire offset maximumChallengeProtocolBytes with
    | None => Err ErrChallengeUnavailable
    | Some (protocol, offset) =>
      match decodeChallengeRecordString wire offset maximumChallengeOperationBytes with
      | None => Err ErrChallengeUnavailable
      | Some (operation, offset) =>
          if negb (offset + 32 * 3 + 8 =? len wire) then Err ErrChallengeUnavailable
          else
            let record := MkChallengeRecord challengeID kind protocol operation
              (subslice wire offset (offset + 32)) (subslice wire (offset + 32) (offset + 64))
              (subslice wire (offset + 64) (offset + 96))
              (Time (unix_epoch_nanos + i64 (be_value (subslice wire (offset + 96) (offset + 104)))) true) in
            if negb (validChallengeRecord record) then Err ErrChallengeUnavailable else Ok record
      end
    end
  end.

(** The other fields of the record [validChallengeID] builds are valid. *)
Definition validChallengeID (value : bytes) : bool :=
  validChallengeRecord (MkChallengeRecord value ChallengeRegistration deviceProofProtocolVersion
    registerDeviceOperation (x01 :: repeat x00 31) (x01 :: repeat x00 31) (x01 :: repeat x00 31)
    (Date 2020 1 1 0 0 0 0)).

Definition challengeDigestsMatch (record : ChallengeRecord) (grantDigest contextDigest : Digest) : bool :=
  (cg_GrantDigest record == grantDigest) && (cg_ContextDigest record == contextDigest).

(** ** The Redis store *)

(** The keys and the values they hold. *)
Abbreviation redis := (gmap bytes bytes).

Definition deviceChallengeRedisPrefix : bytes := sbytes "talenro:deviceauth:challenge:".

(** What the environment decides about one command: it runs, it fails, or its
    answer is lost after it ran; whether the key's time to live has passed; what
    the context says before and after; the clock ([None] for a panic). *)
Inductive redis_fate := RedisRuns | RedisFails | RedisAnswerLost.
Record redis_env := MkRedisEnv {
  re_fate : redis_fate;
  re_expired : bool;
  re_before : ctx_poll;
  re_after : ctx_poll;
  re_clock : option time }.

Definition ChallengeCreate (e : redis_env) (record : ChallengeRecord) (ttl : Z) (r : redis) :
  option challenge_err * redis :=
  if (re_before e == CtxNil) || (ttl <=? 0) || (deviceChallengeTTL <? ttl) || negb (validChallengeRecord record)
  then (Some ErrInvalidChallenge, r)
  else if ttl - Z.rem ttl Millisecond <=? 0 then (Some ErrInvalidChallenge, r)
  else if ctx_done (re_before e) then (Some ErrChallengeUnavailable, r)
  else match encodeChallengeRecord record with
  | Err _ => (Some ErrInvalidChallenge, r)
  | Ok wire =>
      let key := deviceChallengeRedisPrefix ++ cg_ChallengeID record in
      let present := not_nil (r !! key) && negb (re_expired e) in
      match re_fate e with
      | RedisFails => (Some ErrChallengeUnavailable, r)
      | RedisAnswerLost => (Some ErrChallengeUnavailable, if present then r else <[key := wire]> r)
      | RedisRuns =>
          if ctx_done (re_after e) || present then
            (Some ErrChallengeUnavailable, if present then r else <[key := wire]> r)
          else (None, <[key := wire]> r)
      end
  end.

(** [Consume]: one [GETDEL]. *)
Definition ChallengeConsume (e : redis_env) (challengeID : bytes) (grantDigest contextDigest : Digest)
  (r : redis) : result challenge_err ChallengeRecord * redis :=
  if (re_before e == CtxNil) || (grantDigest == zero_digest) || (contextDigest == zero_digest) ||
     negb (validChallengeID challengeID)
  then (Err ErrInvalidChallenge, r)
  else if ctx_done (re_before e) then (Err ErrChallengeUnavailable, r)
  else
    let key := deviceChallengeRedisPrefix ++ challengeID in
    match re_fate e with
    | RedisFails => (Err ErrChallengeUnavailable, r)
    | RedisAnswerLost => (Err ErrChallengeUnavailable, delete key r)
    | RedisRuns =>
        let r' := delete key r in
        if ctx_done (re_after e) then (Err ErrChallengeUnavailable, r')
        else match (if re_expired e then None else r !! key) with
        | None => (Err ErrChallengeNotFound, r')
        | Some wire =>
            match decodeChallengeRecord challengeID wire with
            | Err _ => (Err ErrChallengeUnavailable, r')
            | Ok record =>
                match re_clock e with
                | None => (Err ErrChallengeUnavailable, r')
                | Some now =>
                    if IsZero now then (Err ErrChallengeUnavailable, r')
                    else if negb (After (cg_ExpiresAt record) now) ||
                            negb (challengeDigestsMatch record grantDigest contextDigest)
                    then (Err ErrChallengeNotFound, r')
                    else (Ok record, r')
                end
            end
        end
    end.

(** ** Context digests and random draws *)

Definition rotationContextDomain : bytes := sbytes "TALENRO-DEVICE-ROTATION-CONTEXT-V1" ++ [x00].

Definition rotation_context_material (familyID : UUID) (requestNonce : Digest) (audience : bytes) : bytes :=
  rotationContextDomain ++ frame ChallengeRotation ++ frame deviceRotationProtocolVersion ++
  frame rotateDeviceTokenOperation ++ frame audience ++ familyID ++ requestNonce.

Definition rotationContextDigest `{NetURL} (familyID : UUID) (requestNonce : Digest) (audience : bytes) :
  option Digest :=
  if (familyID == uuid_Nil) || (requestNonce == zero_digest) || negb (validPublicOrigin audience) then None
  else Some (Sum256 (rotation_context_material familyID requestNonce audience)).

(** [readDeviceauthRandom] into [n] bytes; its bounded reader is the one of
    [securitykit].  Eight reads for each byte and the test that ends the loop are
    enough. *)
Definition readDeviceauthRandom (source : random_source) (n : nat) : option bytes :=
  match ReadFull (8 * n + 1) source 0 (repeat x00 n) 0 0 with
  | Some (count, err, buffer, _) =>
      if err || negb (count =? Z.of_nat n) then None else Some buffer
  | None => None
  end.

(** [raw[i] = (raw[i] & mask) | bits] *)
Definition set_bits (i : nat) (mask bits : Z) (raw : bytes) : bytes :=
  alter (fun b => byte_of_Z (Z.lor (Z.land (byte_to_Z b) mask) bits)) i raw.

Definition randomUUID (source : random_source) : option UUID :=
  match readDeviceauthRandom source 16 with
  | None => None
  | Some raw =>
      let result := set_bits 8 0x3f 0x80 (set_bits 6 0x0f 0x40 raw) in
      if result == uuid_Nil then None else Some result
  end.
End Challenges.
Abbreviation redis := (gmap bytes bytes).
