(* ===== verification/DeviceRotate.v ===== *)
(** Rotation of device tokens: [internal/deviceauth/rotate.go] with the helpers
    of [register.go] and [token.go] it uses.

    A rotation is a program of calls: a preflight transaction that classifies
    replays, the consumption of a challenge, and the final transaction that
    rotates the family.  [crypto/ed25519] is a parameter. *)
From Stdlib Require Import ZArith Lia Strings.Byte.
From stdpp Require Import base gmap list sorting strings numbers option.
From S2P Require Import Prelude GoStd GoTime AuthorityTypes Ledger FenceStore Programs Transactions GoCrypto Text Sensitive Idempotency Tokens GoJson StrictJson Descriptors Events Outbox DeviceRows DeviceChallenge.

#[local] Open Scope go_scope.
#[local] Open Scope txn_scope.

(** ** Data *)

Record DeviceTokens := MkDeviceTokens {
  tk_DeviceID : UUID;
  tk_AuthorizationID : UUID;
  tk_FamilyID : UUID;
  tk_AccessToken : bytes;
  tk_RefreshToken : bytes;
  tk_AccessExpiresAt : time;
  tk_RefreshIdleExpiresAt : time;
  tk_RefreshAbsoluteExpiresAt : time }.

Record RotateDeviceTokenCommand := MkRotateCommand {
  rc_RefreshToken : bytes;
  rc_ChallengeID : bytes;
  rc_RequestNonce : Digest;
  rc_Signature : bytes;
  rc_IdempotencyKey : bytes }.

Record preparedDeviceRotation := MkPreparedRotation {
  pr_tokens : DeviceTokens;
  pr_accessDigest : Digest;
  pr_refreshDigest : Digest }.

(** The fields of the service's configuration the rotation reads. *)
Record device_service := MkDeviceService {
  sv_PublicBaseURL : bytes;
  sv_EmailGrace : bool }.

Definition deviceAccessTTL : Z := 10 * Minute.
Definition deviceRefreshIdleTTL : Z := 30 * 24 * Hour.
Definition privateRotationBindingDomain : bytes := sbytes "deviceauth/rotate-request/v1".
Definition deviceRotationIdempotencyRetention : Z := 90 * 24 * Hour.
Definition deviceRotationResponseStatus : Z := 200.
Definition deviceReplayResponseStatus : Z := 401.
Definition deviceReplayResponseBody : bytes :=
  [x7b; x22] ++ sbytes "authenticated" ++ [x22; x3a] ++ sbytes "false" ++ [x7d].

(** ** Validation *)

Definition validAuthorizationMarker (state : string) (discovered locked : option time) (now : time) : bool :=
  match discovered, locked with
  | Some d, Some l => time_Equal d l
  | None, None => true
  | _, _ => false
  end &&
  (if state == "active"%string then is_nil discovered
   else if state == "provisional"%string then
     match discovered with Some d => negb (IsZero d) && After d now | None => false end
   else false).

Fixpoint sameDeviceRefreshSet (left right : list RefreshRow) : bool :=
  match left, right with
  | [], [] => true
  | l :: left', r :: right' =>
      (rt_FamilyID l == rt_FamilyID r) && (rt_State l == rt_State r) && (rt_TokenHash l == rt_TokenHash r) &&
      sameDeviceRefreshSet left' right'
  | _, _ => false
  end.

(** The loop over the locked rows: family, length, strict order, and exactly one
    row with the digest, in the discovered state. *)
Fixpoint refresh_rows_valid (family : UUID) (digest : Digest) (state : string) (previous : option bytes)
  (found : bool) (rows : list RefreshRow) : bool :=
  match rows with
  | [] => found
  | r :: rows =>
      if (rt_FamilyID r != family) || negb (len (rt_TokenHash r) =? 32) ||
         match previous with Some p => bytes_leb (rt_TokenHash r) p | None => false end
      then false
      else if rt_TokenHash r == digest then
        if found || (rt_State r != state) then false
        else refresh_rows_valid family digest state (Some (rt_TokenHash r)) true rows
      else refresh_rows_valid family digest state (Some (rt_TokenHash r)) found rows
  end.

Definition validDeviceRefreshAuthority (discovered : DiscoverRefreshRow) (family : FamilyRow)
  (authorization : AuthorizationRow) (device : DeviceRow) (lockedRefresh freshRefresh : list RefreshRow)
  (digest : Digest) (now : time) (allowUsed : bool) : bool :=
  let refreshStateValid := (disc_RefreshState discovered == "active"%string) ||
                           (allowUsed && (disc_RefreshState discovered == "used"%string)) in
  let expiryValid := After (fm_AbsoluteExpiresAt family) now &&
                     ((disc_RefreshState discovered == "used"%string) || After (fm_IdleExpiresAt family) now) in
  let df := dr_family discovered in
  let da := dr_authorization discovered in
  let dd := dr_device discovered in
  if negb refreshStateValid || (disc_TokenHash discovered != digest) ||
     (disc_FamilyID discovered == uuid_Nil) || (disc_AuthorizationID discovered == uuid_Nil) ||
     (disc_PrincipalID discovered == uuid_Nil) || (disc_DeviceID discovered == uuid_Nil) ||
     (fm_ID family != disc_FamilyID discovered) || (fm_AuthorizationID family != disc_AuthorizationID discovered) ||
     (fm_State family != "active"%string) || (fm_State family != fm_State df) ||
     negb (fm_StateVersion family =? fm_StateVersion df) ||
     negb (time_Equal (fm_IdleExpiresAt family) (fm_IdleExpiresAt df)) ||
     negb (time_Equal (fm_AbsoluteExpiresAt family) (fm_AbsoluteExpiresAt df)) || negb expiryValid ||
     (az_ID authorization != disc_AuthorizationID discovered) ||
     (az_PrincipalID authorization != disc_PrincipalID discovered) ||
     (az_DeviceID authorization != disc_DeviceID discovered) || (az_State authorization != az_State da) ||
     negb (az_StateVersion authorization =? az_StateVersion da) ||
     negb (validAuthorizationMarker (az_State da) (az_ProvisionalUntil da)
             (az_ProvisionalUntil authorization) now) ||
     (dv_ID device != disc_DeviceID discovered) || (dv_PrincipalID device != disc_PrincipalID discovered) ||
     (dv_State device != "active"%string) || (dv_State device != dv_State dd) ||
     negb (dv_KeyVersion device =? dv_KeyVersion dd) || negb (len (dv_SigningPublicKey device) =? 32) ||
     negb (len (dv_SigningPublicKey dd) =? 32) || (dv_SigningPublicKey device != dv_SigningPublicKey dd) ||
     negb (sameDeviceRefreshSet lockedRefresh freshRefresh)
  then false
  else refresh_rows_valid (disc_FamilyID discovered) digest (disc_RefreshState discovered) None false
         lockedRefresh.

Definition sameDeviceRefreshAuthority (left right : deviceRefreshAuthority) : bool :=
  (disc_FamilyID (ra_discovered left) == disc_FamilyID (ra_discovered right)) &&
  (disc_AuthorizationID (ra_discovered left) == disc_AuthorizationID (ra_discovered right)) &&
  (disc_PrincipalID (ra_discovered left) == disc_PrincipalID (ra_discovered right)) &&
  (disc_DeviceID (ra_discovered left) == disc_DeviceID (ra_discovered right)) &&
  time_Equal (fm_AbsoluteExpiresAt (ra_family left)) (fm_AbsoluteExpiresAt (ra_family right)) &&
  (az_StateVersion (ra_authorization left) =? az_StateVersion (ra_authorization right)) &&
  (dv_KeyVersion (ra_device left) =? dv_KeyVersion (ra_device right)) &&
  (len (dv_SigningPublicKey (ra_device left)) =? 32) && (len (dv_SigningPublicKey (ra_device right)) =? 32) &&
  (dv_SigningPublicKey (ra_device left) == dv_SigningPublicKey (ra_device right)).

Section Rotate.
Context `{Primitives} `{UUIDText} `{Protobuf} `{TimestampColumn} `{Protector} `{NetURL} `{Ed25519} `{Unicode}.

Definition validRotateDeviceTokenCommand (command : RotateDeviceTokenCommand) : bool :=
  (len (rc_RefreshToken command) =? 32) && validChallengeID (rc_ChallengeID command) &&
  (rc_RequestNonce command != zero_digest) && (rc_Signature command != repeat x00 64) &&
  match KeyDigest (rc_IdempotencyKey command) with Ok _ => true | Err _ => false end.

Definition rotation_binding_material (svc : device_service) (digest : Digest)
  (command : RotateDeviceTokenCommand) : bytes :=
  frame digest ++ frame (rc_ChallengeID command) ++ frame (rc_RequestNonce command) ++
  frame (rc_Signature command) ++ frame (sv_PublicBaseURL svc).

Definition privateRotationBinding (svc : device_service) (digest : Digest)
  (command : RotateDeviceTokenCommand) : option bytes :=
  if (digest == zero_digest) || negb (validRotateDeviceTokenCommand command) then None
  else
    let bound := protector_LookupDigest privateRotationBindingDomain
                   (rotation_binding_material svc digest command) in
    if bound == zero_digest then None else Some bound.

Definition deviceRotationScope (principalID : UUID) : result idem_err Scope :=
  AuthenticatedScope principalID (sbytes "device_refresh") rotateDeviceTokenOperation.

(** ** The replayed response *)

Definition replay_names : list bytes :=
  [sbytes "device_id"; sbytes "authorization_id"; sbytes "family_id"; sbytes "access_token";
   sbytes "refresh_token"; sbytes "access_expires_at"; sbytes "refresh_idle_expires_at";
   sbytes "refresh_absolute_expires_at"].

Definition encodeDeviceTokens (tokens : DeviceTokens) : option bytes :=
  let access := EncodeOpaqueToken (tk_AccessToken tokens) in
  let refresh := EncodeOpaqueToken (tk_RefreshToken tokens) in
  if (tk_DeviceID tokens == uuid_Nil) || (tk_AuthorizationID tokens == uuid_Nil) ||
     (tk_FamilyID tokens == uuid_Nil) || (access == []) || (refresh == [])
  then None
  else Some (json_Marshal (string_struct replay_names
    [uuid_String (tk_DeviceID tokens); uuid_String (tk_AuthorizationID tokens);
     uuid_String (tk_FamilyID tokens); access; refresh; FormatRFC3339Nano (tk_AccessExpiresAt tokens);
     FormatRFC3339Nano (tk_RefreshIdleExpiresAt tokens);
     FormatRFC3339Nano (tk_RefreshAbsoluteExpiresAt tokens)])).

(** The body of [tokensFromReplayRecordWithStatus]. *)
Definition tokens_of_body (body : bytes) : option DeviceTokens :=
  match decode_strings replay_names 2048 body with
  | Some [deviceID; authorizationID; familyID; access; refresh; accessAt; idleAt; absoluteAt] =>
      device ← parse_canonical deviceID;
      authorization ← parse_canonical authorizationID;
      family ← parse_canonical familyID;
      match DecodeOpaqueToken access, DecodeOpaqueToken refresh with
      | Ok access, Ok refresh =>
          accessAt ← ParseRFC3339Nano accessAt;
          idleAt ← ParseRFC3339Nano idleAt;
          absoluteAt ← ParseRFC3339Nano absoluteAt;
          if negb (Before accessAt idleAt) || negb (Before idleAt absoluteAt) then None
          else Some (MkDeviceTokens device authorization family access refresh accessAt idleAt absoluteAt)
      | _, _ => None
      end
  | _ => None
  end.

(** What an idempotency outcome means for a rotation. *)
Inductive rotation_outcome :=
| RotationFresh
| RotationFailure
| RotationReplay (tokens : DeviceTokens).

Definition rotationIdempotencyOutcome (record : IdempotencyRecord) (outcome : Outcome) :
  dtx rotation_outcome :=
  match outcome with
  | Started => tx_ret RotationFresh
  | Replay =>
      if ir_responseStatus record =? deviceReplayResponseStatus then
        do body <- TakeBody record;
        match body with
        | Some body => if body == deviceReplayResponseBody then tx_ret RotationFailure
                       else tx_fail DeviceDependencyUnavailable
        | None => tx_fail DeviceDependencyUnavailable
        end
      else if negb (ir_responseStatus record =? deviceRotationResponseStatus)
      then tx_fail DeviceDependencyUnavailable
      else
        do body <- TakeBody record;
        match body with
        | None => tx_fail DeviceDependencyUnavailable
        | Some body =>
            match tokens_of_body body with
            | Some tokens => tx_ret (RotationReplay tokens)
            | None => tx_fail DeviceDependencyUnavailable
            end
        end
  | Conflict => tx_fail DeviceIdempotencyConflict
  | InProgress => tx_fail DeviceStateConflict
  end.

(** ** Locking *)

Definition lockDeviceRefreshAuthority (svc : device_service) (digest : Digest) (now : time) (allowUsed : bool) :
  dtx (option deviceRefreshAuthority) :=
  do anchor <- tx_or (DiscoverDeviceRefreshToken digest) DeviceDependencyUnavailable;
  match anchor with
  | None => tx_ret None
  | Some anchor =>
    if (disc_FamilyID anchor == uuid_Nil) || (disc_AuthorizationID anchor == uuid_Nil) ||
       (disc_PrincipalID anchor == uuid_Nil) || (disc_DeviceID anchor == uuid_Nil)
    then tx_ret None
    else
      do refresh <- tx_or (LockDeviceFamilyRefreshTokens (disc_FamilyID anchor)) DeviceDependencyUnavailable;
      do family <- tx_or (GetDeviceTokenFamilyForUpdate (disc_FamilyID anchor)) DeviceDependencyUnavailable;
      match family with
      | None => tx_ret None
      | Some family =>
        do authorization <- tx_or (GetDeviceAuthorizationForUpdate (disc_AuthorizationID anchor))
                              DeviceDependencyUnavailable;
        match authorization with
        | None => tx_ret None
        | Some authorization =>
          do device <- tx_or (GetDeviceForUpdate (disc_DeviceID anchor)) DeviceDependencyUnavailable;
          match device with
          | None => tx_ret None
          | Some device =>
            do discovered <- tx_or (DiscoverDeviceRefreshToken digest) DeviceDependencyUnavailable;
            match discovered with
            | None => tx_ret None
            | Some discovered =>
              if (disc_FamilyID discovered != disc_FamilyID anchor) ||
                 (disc_AuthorizationID discovered != disc_AuthorizationID anchor) ||
                 (disc_PrincipalID discovered != disc_PrincipalID anchor) ||
                 (disc_DeviceID discovered != disc_DeviceID anchor)
              then tx_ret None
              else
                do accountActive <- tx_or (ValidateDeviceAccountAuthority
                                             (uuid_String (disc_PrincipalID discovered)) now)
                                      DeviceDependencyUnavailable;
                do fresh <- tx_or (ListDeviceFamilyRefreshTokens (disc_FamilyID discovered))
                              DeviceDependencyUnavailable;
                fail_if negb (sameDeviceRefreshSet refresh fresh) with DeviceSnapshotSkew;
                if accountActive &&
                   validDeviceRefreshAuthority discovered family authorization device refresh fresh digest
                     now allowUsed &&
                   ((az_State authorization != "provisional"%string) || sv_EmailGrace svc)
                then tx_ret (Some (MkRefreshAuthority discovered family authorization device refresh))
                else tx_ret None
            end
          end
        end
      end
  end.

(** ** New tokens *)

Definition draw_token : dtx bytes :=
  tx_step (fun ch s => match NewOpaqueToken (ch_random ch) with
                       | Ok token => (Ok token, s)
                       | Err _ => (Err DeviceDependencyUnavailable, s)
                       end).

Definition draw_uuid : dtx UUID :=
  tx_step (fun ch s => match randomUUID (ch_random ch) with
                       | Some id => (Ok id, s)
                       | None => (Err DeviceDependencyUnavailable, s)
                       end).

(** The expiries of the new tokens: access, idle. *)
Definition rotation_expiries (authority : deviceRefreshAuthority) (now : time) : option (time * time) :=
  let absolute := fm_AbsoluteExpiresAt (ra_family authority) in
  let accessExpiresAt := time_Add now deviceAccessTTL in
  let accessExpiresAt :=
    match az_ProvisionalUntil (ra_authorization authority) with
    | Some until => if After accessExpiresAt until then until else accessExpiresAt
    | None => accessExpiresAt
    end in
  if negb (Before accessExpiresAt absolute) then None
  else
    let idleExpiresAt := time_Add now deviceRefreshIdleTTL in
    let idleExpiresAt := if negb (Before idleExpiresAt absolute) then time_Add absolute (-1) else idleExpiresAt in
    if negb (Before accessExpiresAt idleExpiresAt) then None else Some (accessExpiresAt, idleExpiresAt).

Definition prepareDeviceRotation (authority : deviceRefreshAuthority) (now : time) :
  dtx preparedDeviceRotation :=
  match rotation_expiries authority now with
  | None => tx_fail DeviceAuthenticationFailed
  | Some (accessExpiresAt, idleExpiresAt) =>
      do access <- draw_token;
      do refresh <- draw_token;
      let accessDigest := DigestToken DeviceAccessToken access in
      let refreshDigest := DigestToken DeviceRefreshToken refresh in
      fail_if (accessDigest == zero_digest) || (refreshDigest == zero_digest) with DeviceDependencyUnavailable;
      tx_ret (MkPreparedRotation
        (MkDeviceTokens (dv_ID (ra_device authority)) (az_ID (ra_authorization authority))
           (fm_ID (ra_family authority)) access refresh accessExpiresAt idleExpiresAt
           (fm_AbsoluteExpiresAt (ra_family authority)))
        accessDigest refreshDigest)
  end.

(** ** Replays of a used token *)

(** [timestamppb.New] *)
Definition timestamp_New (t : time) : Timestamp :=
  let nanos := t_nanos t - unix_epoch_nanos in MkTimestamp (nanos / Second) (nanos mod Second) false.

Definition compromised_event (eventID authorizationID : UUID) (version : Z) (now : time) (payload : bytes) :
  EventEnvelope :=
  MkEventEnvelope (uuid_String eventID) DeviceTokenFamilyCompromisedType (Some (timestamp_New now))
    (sbytes "deviceauth") (sbytes "device_authorization") (uuid_String authorizationID) version
    (uuid_String eventID) [] payload false.

Definition compromiseUsedDeviceRefresh (authority : deviceRefreshAuthority) (record : IdempotencyRecord)
  (now : time) : dtx unit :=
  let family := ra_family authority in
  let authorization := ra_authorization authority in
  do compromised <- tx_or (CompromiseDeviceTokenFamily (fm_ID family) now) DeviceDependencyUnavailable;
  match compromised with
  | None => tx_fail DeviceDependencyUnavailable
  | Some compromised =>
      fail_if (fm_ID compromised != fm_ID family) || (fm_AuthorizationID compromised != az_ID authorization) ||
              (fm_State compromised != "compromised"%string) ||
              negb (fm_StateVersion compromised =? i64 (fm_StateVersion family + 1))
      with DeviceDependencyUnavailable;
      also tx_or (RevokeDeviceRefreshTokens (fm_ID family) now) DeviceDependencyUnavailable;
      do securityEventID <- draw_uuid;
      also tx_or (RecordDeviceTokenReplay securityEventID (az_ID authorization) now) DeviceDependencyUnavailable;
      do outboxEventID <- draw_uuid;
      fail_if fm_StateVersion compromised <=? 0 with DeviceDependencyUnavailable;
      let eventVersion := u64 (fm_StateVersion compromised) in
      match MarshalPayload DeviceTokenFamilyCompromisedType
              (MkMessage (DeviceTokenFamilyCompromised (uuid_String (az_ID authorization))
                            (uuid_String (fm_ID family)) eventVersion) false) with
      | Err _ => tx_fail DeviceDependencyUnavailable
      | Ok payload =>
          also tx_or (AppendEvent (compromised_event outboxEventID (az_ID authorization) eventVersion now payload))
                 DeviceDependencyUnavailable;
          tx_or (CompleteIdempotencyRecord record deviceReplayResponseStatus deviceReplayResponseBody)
            DeviceDependencyUnavailable
      end
  end.

(** ** The transactions *)

(** What the three transactions start with: find the token, bind the request to
    the principal, and classify it.  [absent] is returned for a token that is not
    found. *)
Definition rotation_begin (command : RotateDeviceTokenCommand) (digest : Digest) (canonical : bytes)
  (now : time) (absent : device_err) : dtx (DiscoverRefreshRow * IdempotencyRecord * rotation_outcome) :=
  do discovered <- tx_or (DiscoverDeviceRefreshToken digest) DeviceDependencyUnavailable;
  match discovered with
  | None => tx_fail absent
  | Some discovered =>
      fail_if disc_PrincipalID discovered == uuid_Nil with absent;
      match deviceRotationScope (disc_PrincipalID discovered) with
      | Err _ => tx_fail DeviceDependencyUnavailable
      | Ok scope =>
          do begun <- tx_or (BeginIdempotency scope (rc_IdempotencyKey command) canonical now
                               (time_Add now deviceRotationIdempotencyRetention))
                        DeviceDependencyUnavailable;
          do outcome <- rotationIdempotencyOutcome begun.1 begun.2;
          tx_ret (discovered, begun.1, outcome)
      end
  end.

(** How a transaction that commits resolves a request. *)
Inductive rotation_result :=
| ResolvedFailure
| ResolvedTokens (tokens : DeviceTokens).

Definition preflight_tx (svc : device_service) (command : RotateDeviceTokenCommand) (digest : Digest)
  (canonical : bytes) (now : time) : dtx rotation_result :=
  do begun <- rotation_begin command digest canonical now DeviceAuthenticationFailed;
  match begun.2 with
  | RotationFailure => tx_ret ResolvedFailure
  | RotationReplay tokens => tx_ret (ResolvedTokens tokens)
  | RotationFresh =>
      do locked <- lockDeviceRefreshAuthority svc digest now true;
      match locked with
      | None => tx_fail DeviceAuthenticationFailed
      | Some locked =>
          fail_if (disc_PrincipalID (ra_discovered locked) != disc_PrincipalID begun.1.1) ||
                  (disc_FamilyID (ra_discovered locked) != disc_FamilyID begun.1.1)
          with DeviceAuthenticationFailed;
          if disc_RefreshState (ra_discovered locked) == "used"%string then
            also compromiseUsedDeviceRefresh locked begun.1.2 now;
            tx_ret ResolvedFailure
          else tx_fail (DevicePreflight locked)
      end
  end.

(** The rotation proper. *)
Definition rotate_family (locked : deviceRefreshAuthority) (record : IdempotencyRecord) (digest : Digest)
  (now : time) : dtx DeviceTokens :=
  let family := ra_family locked in
  do prepared <- prepareDeviceRotation locked now;
  let tokens := pr_tokens prepared in
  do marked <- tx_or (MarkDeviceRefreshUsed digest now) DeviceDependencyUnavailable;
  fail_if negb marked with DeviceDependencyUnavailable;
  do rotated <- tx_or (RotateDeviceFamilyAccess (fm_ID family) (pr_accessDigest prepared)
                         (tk_AccessExpiresAt tokens) (tk_RefreshIdleExpiresAt tokens) now)
                  DeviceDependencyUnavailable;
  match rotated with
  | None => tx_fail DeviceDependencyUnavailable
  | Some rotated =>
      fail_if (fm_ID rotated != fm_ID family) ||
              (fm_AuthorizationID rotated != az_ID (ra_authorization locked)) ||
              (fm_State rotated != "active"%string) ||
              negb (fm_StateVersion rotated =? i64 (fm_StateVersion family + 1)) ||
              negb (time_Equal (fm_AbsoluteExpiresAt rotated) (fm_AbsoluteExpiresAt family))
      with DeviceDependencyUnavailable;
      also tx_or (InsertDeviceRefreshToken (pr_refreshDigest prepared) (fm_ID family) (Some digest) now)
             DeviceDependencyUnavailable;
      match encodeDeviceTokens tokens with
      | None => tx_fail DeviceDependencyUnavailable
      | Some body =>
          also tx_or (CompleteIdempotencyRecord record deviceRotationResponseStatus body)
                 DeviceDependencyUnavailable;
          tx_ret tokens
      end
  end.

Definition final_tx (svc : device_service) (command : RotateDeviceTokenCommand) (digest : Digest)
  (canonical : bytes) (now : time) (authority : deviceRefreshAuthority) : dtx rotation_result :=
  do begun <- rotation_begin command digest canonical now DeviceAuthenticationFailed;
  match begun.2 with
  | RotationFailure => tx_ret ResolvedFailure
  | RotationReplay tokens => tx_ret (ResolvedTokens tokens)
  | RotationFresh =>
      do locked <- lockDeviceRefreshAuthority svc digest now true;
      match locked with
      | None => tx_fail DeviceAuthenticationFailed
      | Some locked =>
          fail_if negb (sameDeviceRefreshAuthority authority locked) with DeviceAuthenticationFailed;
          if disc_RefreshState (ra_discovered locked) == "used"%string then
            also compromiseUsedDeviceRefresh locked begun.1.2 now;
            tx_ret ResolvedFailure
          else
            fail_if disc_RefreshState (ra_discovered locked) != "active"%string
            with DeviceAuthenticationFailed;
            do tokens <- rotate_family locked begun.1.2 digest now;
            tx_ret (ResolvedTokens tokens)
      end
  end.

(** The transaction of [reclassifyDeviceRotationAfterChallengeFailure]. *)
Definition reclassify_tx (svc : device_service) (command : RotateDeviceTokenCommand) (digest : Digest)
  (canonical : bytes) (now : time) (ambiguous : bool) : dtx rotation_result :=
  let refused := if ambiguous then DeviceDependencyUnavailable else DeviceAuthenticationFailed in
  do begun <- rotation_begin command digest canonical now refused;
  match begun.2 with
  | RotationFailure => tx_ret ResolvedFailure
  | RotationReplay tokens => tx_ret (ResolvedTokens tokens)
  | RotationFresh =>
      do locked <- lockDeviceRefreshAuthority svc digest now true;
      match locked with
      | None => tx_fail refused
      | Some locked =>
          if disc_RefreshState (ra_discovered locked) == "used"%string then
            also compromiseUsedDeviceRefresh locked begun.1.2 now;
            tx_ret ResolvedFailure
          else if ambiguous then tx_fail DeviceDependencyUnavailable
          else tx_fail (DevicePreflight locked)
      end
  end.

(** ** The request *)

(** The calls of a request. *)
Inductive dcall : Type -> Type :=
| CallNow : dcall (option time)
| CallTx (body : dtx rotation_result) : dcall (result device_err rotation_result)
| CallConsume (challengeID : bytes) (grantDigest contextDigest : Digest) :
    dcall (result challenge_err ChallengeRecord).

#[local] Open Scope prog_scope.

(** [withinDeviceRotationTransaction]: two attempts when the snapshot is skewed. *)
Definition withinDeviceRotationTransaction (body : dtx rotation_result) :
  prog dcall (result device_err rotation_result) :=
  let! first := trigger (CallTx body) in
  match first with
  | Err DeviceSnapshotSkew =>
      let! second := trigger (CallTx body) in
      match second with
      | Err DeviceSnapshotSkew => Ret (Err DeviceDependencyUnavailable)
      | r => Ret r
      end
  | r => Ret r
  end.

Definition reclassifyDeviceRotationAfterChallengeFailure (svc : device_service)
  (command : RotateDeviceTokenCommand) (digest : Digest) (canonical : bytes) (now : time) (ambiguous : bool) :
  prog dcall (result device_err DeviceTokens) :=
  let! r := withinDeviceRotationTransaction (reclassify_tx svc command digest canonical now ambiguous) in
  Ret match r with
      | Err (DevicePreflight _) => Err DeviceAuthenticationFailed
      | Err e => Err e
      | Ok ResolvedFailure => Err DeviceAuthenticationFailed
      | Ok (ResolvedTokens tokens) => Ok tokens
      end.

(** The challenge fits this request. *)
Definition challenge_fits (record : ChallengeRecord) (now : time) : bool :=
  After (cg_ExpiresAt record) now && (cg_Kind record == ChallengeRotation) &&
  (cg_ProtocolVersion record == deviceRotationProtocolVersion) &&
  (cg_Operation record == rotateDeviceTokenOperation).

Definition rotation_proof_valid (svc : device_service) (command : RotateDeviceTokenCommand)
  (authority : deviceRefreshAuthority) (record : ChallengeRecord) : bool :=
  let proof := DeviceRotationProofBytes (MkRotationProofInput (cg_ProtocolVersion record) (cg_Challenge record)
                 (disc_FamilyID (ra_discovered authority)) (cg_Operation record) (sv_PublicBaseURL svc)
                 (rc_RequestNonce command)) in
  (len (dv_SigningPublicKey (ra_device authority)) =? 32) && (proof != []) &&
  ed25519_Verify (dv_SigningPublicKey (ra_device authority)) proof (rc_Signature command).

(** [service.now()] *)
Definition valid_now (clock : option time) : option time :=
  match clock with
  | Some t => let now := UTC t in
              if IsZero now || (Year now <? 2020) || (2100 <? Year now) then None else Some now
  | None => None
  end.

Definition RotateDeviceToken (svc : device_service) (command : RotateDeviceTokenCommand) :
  prog dcall (result device_err DeviceTokens) :=
  if negb (validPublicOrigin (sv_PublicBaseURL svc)) || negb (validRotateDeviceTokenCommand command)
  then Ret (Err DeviceMalformedRequest)
  else
    let digest := DigestToken DeviceRefreshToken (rc_RefreshToken command) in
    if digest == zero_digest then Ret (Err DeviceAuthenticationFailed)
    else match privateRotationBinding svc digest command with
    | None => Ret (Err DeviceDependencyUnavailable)
    | Some canonical =>
      let! clock := trigger CallNow in
      match valid_now clock with
      | None => Ret (Err DeviceDependencyUnavailable)
      | Some now =>
        let! preflight := withinDeviceRotationTransaction (preflight_tx svc command digest canonical now) in
        match preflight with
        | Ok ResolvedFailure => Ret (Err DeviceAuthenticationFailed)
        | Ok (ResolvedTokens tokens) => Ret (Ok tokens)
        | Err (DevicePreflight authority) =>
          match rotationContextDigest (disc_FamilyID (ra_discovered authority)) (rc_RequestNonce command)
                  (sv_PublicBaseURL svc) with
          | None => Ret (Err DeviceDependencyUnavailable)
          | Some contextDigest =>
            let! consumed := trigger (CallConsume (rc_ChallengeID command) digest contextDigest) in
            match consumed with
            | Err err =>
                let ambiguous := match err with ErrChallengeUnavailable => true | _ => false end in
                reclassifyDeviceRotationAfterChallengeFailure svc command digest canonical now ambiguous
            | Ok record =>
                if negb (challenge_fits record now) then Ret (Err DeviceAuthenticationFailed)
                else if negb (rotation_proof_valid svc command authority record)
                then Ret (Err DeviceAuthenticationFailed)
                else
                  let! final := withinDeviceRotationTransaction
                                  (final_tx svc command digest canonical now authority) in
                  Ret match final with
                      | Err e => Err e
                      | Ok ResolvedFailure => Err DeviceAuthenticationFailed
                      | Ok (ResolvedTokens tokens) => Ok tokens
                      end
            end
          end
        | Err e => Ret (Err e)
        end
      end
    end.

(** ** The world *)

Record dworld := MkDWorld { dw_db : dstate; dw_redis : redis }.

(** What the environment decides at a call. *)
Record dchoice := MkDChoice {
  dc_clock : option time;
  dc_fate : tx_fate;
  dc_oracle : nat -> choice;
  dc_redis : redis_env }.

Definition dexec (X : Type) (c : dcall X) (ch : dchoice) (w : dworld) : X * dworld :=
  match c in dcall X return X * dworld with
  | CallNow => (dc_clock ch, w)
  | CallTx body =>
      let '(r, db) := WithinTransaction DeviceRepositoryErr (dc_fate ch) (dc_oracle ch) body (dw_db w) in
      (r, MkDWorld db (dw_redis w))
  | CallConsume id grant context =>
      let '(r, redis) := ChallengeConsume (dc_redis ch) id grant context (dw_redis w) in
      (r, MkDWorld (dw_db w) redis)
  end.
End Rotate.
