(* ===== verification/DeviceSafety.v ===== *)
(** Invariants of the device token tables and what the transactions of a rotation
    do to them. *)
From Stdlib Require Import ZArith Lia Strings.Byte.
From stdpp Require Import base gmap list sorting strings numbers option relations.
From S2P Require Import Prelude GoStd GoTime AuthorityTypes Ledger FenceStore Programs Transactions GoCrypto Text Sensitive Idempotency IdempotencyTheorems Tokens GoJson StrictJson Descriptors Events Outbox DeviceRows DeviceChallenge DeviceRotate.

#[local] Open Scope go_scope.

(** ** States in order *)

(** Every token has a family; a family has at most one active token, and none
    unless it is active; a token has at most one successor, and only a used token
    has one. *)
Record dstate_ok (s : dstate) : Prop := {
  ok_token_key h r : ds_tokens s !! h = Some r -> rt_TokenHash r = h;
  ok_family_key id f : ds_families s !! id = Some f -> fm_ID f = id;
  ok_token_family h r : ds_tokens s !! h = Some r -> is_Some (ds_families s !! rt_FamilyID r);
  ok_one_active h1 r1 h2 r2 :
    ds_tokens s !! h1 = Some r1 -> ds_tokens s !! h2 = Some r2 -> rt_FamilyID r1 = rt_FamilyID r2 ->
    rt_State r1 = "active"%string -> rt_State r2 = "active"%string -> h1 = h2;
  ok_live h r f :
    ds_tokens s !! h = Some r -> rt_State r = "active"%string ->
    ds_families s !! rt_FamilyID r = Some f -> fm_State f = "active"%string;
  ok_successor h1 r1 h2 r2 p :
    ds_tokens s !! h1 = Some r1 -> ds_tokens s !! h2 = Some r2 ->
    rt_PreviousTokenHash r1 = Some p -> rt_PreviousTokenHash r2 = Some p -> h1 = h2;
  ok_previous h r p :
    ds_tokens s !! h = Some r -> rt_PreviousTokenHash r = Some p ->
    exists rp, ds_tokens s !! p = Some rp /\ rt_FamilyID rp = rt_FamilyID r /\ rt_State rp = "used"%string }.

(** ** How rows evolve *)

Definition refresh_moves (r r' : RefreshRow) : Prop :=
  rt_TokenHash r' = rt_TokenHash r /\ rt_FamilyID r' = rt_FamilyID r /\
  rt_PreviousTokenHash r' = rt_PreviousTokenHash r /\
  (r' = r \/ rt_State r = "active"%string /\ (rt_State r' = "used"%string \/ rt_State r' = "revoked"%string)).

Definition family_moves (f f' : FamilyRow) : Prop :=
  fm_ID f' = fm_ID f /\ fm_AuthorizationID f' = fm_AuthorizationID f /\
  fm_AbsoluteExpiresAt f' = fm_AbsoluteExpiresAt f /\ fm_StateVersion f <= fm_StateVersion f' /\
  (fm_State f' = fm_State f \/ fm_State f = "active"%string /\ fm_State f' = "compromised"%string).

Definition authorization_moves (a a' : AuthorizationRow) : Prop :=
  az_ID a' = az_ID a /\ az_PrincipalID a' = az_PrincipalID a /\ az_DeviceID a' = az_DeviceID a.

Definition device_moves (d d' : DeviceRow) : Prop :=
  dv_ID d' = dv_ID d /\ dv_PrincipalID d' = dv_PrincipalID d /\
  dv_SigningPublicKey d' = dv_SigningPublicKey d.

(** Every row of a table is still there, changed by [R] at most. *)
Definition rows_le {K V} `{Countable K} (R : relation V) (t t' : gmap K V) : Prop :=
  forall k v, t !! k = Some v -> exists v', t' !! k = Some v' /\ R v v'.

Lemma rows_le_refl {K V} `{Countable K} (R : relation V) `{!Reflexive R} (t : gmap K V) : rows_le R t t.
Proof. intros k v Hl. eauto. Qed.

Lemma rows_le_trans {K V} `{Countable K} (R : relation V) `{!Transitive R} (a b c : gmap K V) :
  rows_le R a b -> rows_le R b c -> rows_le R a c.
Proof.
  intros Hab Hbc k v Hl. destruct (Hab k v Hl) as (v1 & Hl1 & H1). destruct (Hbc k v1 Hl1) as (v2 & Hl2 & H2).
  exists v2. split; [done|]. by etrans.
Qed.

Lemma rows_le_insert {K V} `{Countable K} (R : relation V) `{!Reflexive R} (t : gmap K V) k v :
  (forall v0, t !! k = Some v0 -> R v0 v) -> rows_le R t (<[k := v]> t).
Proof.
  intros HR k' v' Hl. destruct (decide (k = k')) as [->|Hne].
  - exists v. rewrite lookup_insert_eq. auto.
  - exists v'. by rewrite lookup_insert_ne.
Qed.

#[export] Instance refresh_moves_preorder : PreOrder refresh_moves.
Proof.
  split; [intros r; unfold refresh_moves; auto|].
  intros a b c (? & ? & ? & Hab) (? & ? & ? & Hbc). split_and!; [congruence..|].
  destruct Hab as [->|(Ha & Hb)]; [done|]. right. split; [done|].
  destruct Hbc as [->|(Hb' & Hc)]; [done|]. destruct Hb as [Hb|Hb]; by rewrite Hb in Hb'.
Qed.

#[export] Instance family_moves_preorder : PreOrder family_moves.
Proof.
  split; [intros r; unfold family_moves; split_and!; auto; lia|].
  intros a b c (? & ? & ? & Hv & Hab) (? & ? & ? & Hv' & Hbc). split_and!; [congruence..|lia|].
  destruct Hab as [Hab|(Ha & Hb)], Hbc as [Hbc|(Hb' & Hc)].
  - left. congruence.
  - right. split; congruence.
  - right. split; congruence.
  - by rewrite Hb in Hb'.
Qed.

#[export] Instance authorization_moves_preorder : PreOrder authorization_moves.
Proof. split; [by intros a|]. intros a b c (? & ? & ?) (? & ? & ?). split_and!; congruence. Qed.

#[export] Instance device_moves_preorder : PreOrder device_moves.
Proof. split; [by intros a|]. intros a b c (? & ? & ?) (? & ? & ?). split_and!; congruence. Qed.

#[export] Instance row_moves_preorder : PreOrder row_moves.
Proof. split; [by left|]. intros a b c. apply row_moves_trans. Qed.

(** ** How states evolve *)

Record dle (s s' : dstate) : Prop := {
  le_tokens : rows_le refresh_moves (ds_tokens s) (ds_tokens s');
  le_families : rows_le family_moves (ds_families s) (ds_families s');
  le_authorizations : rows_le authorization_moves (ds_authorizations s) (ds_authorizations s');
  le_devices : rows_le device_moves (ds_devices s) (ds_devices s');
  le_idem : rows_le row_moves (is_table (ds_idem s)) (is_table (ds_idem s'));
  le_outbox : rows_le eq (ds_outbox s) (ds_outbox s');
  le_security : rows_le eq (ds_security s) (ds_security s');
  (** Only active families get tokens. *)
  le_new h r f : ds_tokens s' !! h = Some r -> ds_tokens s !! h = None ->
    ds_families s !! rt_FamilyID r = Some f -> fm_State f = "active"%string }.

#[export] Instance dle_preorder : PreOrder dle.
Proof.
  split.
  - intros s. constructor; try apply rows_le_refl, _. congruence.
  - intros a b c Hab Hbc. constructor;
      try (eapply rows_le_trans; [apply _|by apply Hab|by apply Hbc]).
    intros h r f Hc Ha Hf. destruct (ds_tokens b !! h) as [rb|] eqn:Hb.
    + destruct (le_tokens _ _ Hbc _ _ Hb) as (r' & Hr' & _ & Hfam & _). simplify_eq.
      rewrite Hfam in Hf. by eapply (le_new _ _ Hab).
    + destruct (le_families _ _ Hab _ _ Hf) as (fb & Hfb & _ & _ & _ & _ & Hst).
      pose proof (le_new _ _ Hbc _ _ _ Hc Hb Hfb) as Hact. destruct Hst as [Hst|[Hst _]]; congruence.
Qed.

(** The device tables are untouched. *)
Definition device_same (s s' : dstate) : Prop :=
  ds_tokens s' = ds_tokens s /\ ds_families s' = ds_families s /\
  ds_authorizations s' = ds_authorizations s /\ ds_devices s' = ds_devices s.

(** Only the idempotency records may differ. *)
Definition idem_only (s s' : dstate) : Prop := s' = with_idem (ds_idem s') s.

Lemma idem_only_same s s' : idem_only s s' -> device_same s s'.
Proof. intros ->. done. Qed.

Lemma idem_only_trans a b c : idem_only a b -> idem_only b c -> idem_only a c.
Proof. unfold idem_only. intros Hb Hc. rewrite Hc, Hb. done. Qed.

Lemma device_same_ok s s' : device_same s s' -> dstate_ok s -> dstate_ok s'.
Proof. intros (Ht & Hf & _) Hok. destruct Hok; constructor; rewrite ?Ht, ?Hf; done. Qed.

Lemma device_same_select s s' d : device_same s s' -> SelectRefresh d s' = SelectRefresh d s.
Proof. intros (Ht & Hf & Ha & Hd). unfold SelectRefresh. by rewrite Ht, Hf, Ha, Hd. Qed.

Lemma SelectRefresh_Some digest s x : SelectRefresh digest s = Some x ->
  ds_tokens s !! digest = Some (dr_refresh x) /\
  ds_families s !! disc_FamilyID x = Some (dr_family x) /\
  ds_authorizations s !! disc_AuthorizationID x = Some (dr_authorization x) /\
  ds_devices s !! disc_DeviceID x = Some (dr_device x).
Proof.
  unfold SelectRefresh, disc_FamilyID, disc_AuthorizationID, disc_DeviceID. intros Hs.
  destruct (ds_tokens s !! digest) as [r|] eqn:Er; [|done]. cbn in Hs.
  destruct (ds_families s !! _) as [f|] eqn:Ef; [|done]. cbn in Hs.
  destruct (ds_authorizations s !! _) as [a|] eqn:Ea; [|done]. cbn in Hs.
  destruct (ds_devices s !! _) as [d|] eqn:Ed; [|done]. cbn in Hs. by simplify_eq.
Qed.

(** ** Single statements *)
Section Steps.
Context `{Primitives} `{UUIDText} `{Protobuf} `{TimestampColumn} `{PL : ProtectorLaws}.

Lemma query_runs {A} (f : choice -> dstate -> A) s a s' :
  runs (query f) s a s' -> s' = s /\ exists ch, a = f ch s.
Proof.
  intros Hr. unfold query in Hr. apply runs_step in Hr as (ch & Hr). destruct (ch_fails ch); simplify_eq. eauto.
Qed.

Lemma update_runs {A} (f : dstate -> option (A * dstate)) s a s' :
  runs (update f) s a s' -> f s = Some (a, s').
Proof.
  intros Hr. unfold update in Hr. apply runs_step in Hr as (ch & Hr). destruct (ch_fails ch); [done|].
  destruct (f s) as [[a0 s0]|]; by simplify_eq.
Qed.

Lemma with_idem_le s i :
  table_step (is_table (ds_idem s)) (is_table i) -> dle s (with_idem i s) /\ device_same s (with_idem i s).
Proof.
  intros Ht. split; [|done]. constructor; try apply rows_le_refl, _; [|cbn; congruence].
  intros k r Hl. by eapply table_step_row.
Qed.

Lemma BeginIdempotency_runs scope key canonical c x s out s' :
  runs (BeginIdempotency scope key canonical c x) s out s' ->
  exists e i, Begin e scope key canonical c x (ds_idem s) = (Ok out, i) /\ s' = with_idem i s /\
    dle s s' /\ device_same s s'.
Proof.
  intros Hr. unfold BeginIdempotency in Hr. apply runs_step in Hr as (ch & Hr).
  destruct (Begin _ _ _ _ _ _ _) as [[o|err] i] eqn:Hb; simplify_eq.
  exists (ch_env ch), i. split_and!; [done..| |done]. apply with_idem_le. by eapply Begin_table.
Qed.

Lemma Complete_runs record status body s u s' :
  runs (CompleteIdempotencyRecord record status body) s u s' ->
  dle s s' /\ device_same s s' /\ ds_outbox s' = ds_outbox s /\ ds_security s' = ds_security s /\
  exists r, is_table (ds_idem s') !! handle_key record = Some r /\ iw_state r = "completed"%string /\
    stored_response r = Ok (status, body).
Proof using PL.
  intros Hr. unfold CompleteIdempotencyRecord in Hr. apply runs_step in Hr as (ch & Hr).
  destruct (Complete _ _ _ _ _ _) as [[d|err] i] eqn:Hc; [|done].
  destruct (Complete_table _ _ _ _ _ _ _ _ Hc) as (Hstep & Hd).
  destruct (Hd d eq_refl) as (_ & (r & Hl & Hh) & _).
  pose proof (Take_table d i) as Htake. destruct (TakeResponseBody d i) as [[b|] i'] eqn:Ht; [|done].
  cbn in Htake. simplify_eq. split_and!; [..|done|done|].
  1,2: apply with_idem_le; by rewrite Htake.
  exists r. cbn [ds_idem with_idem]. rewrite Htake. split_and!; [done|by eapply h_state|by eapply h_response].
Qed.

Lemma InsertOutboxEvent_Some id et at_ ai av ik p o a t t' :
  InsertOutboxEvent id et at_ ai av ik p o a t = Some t' ->
  t !! id = None /\ exists r, t' = <[id := r]> t /\ ob_EventType r = et /\ ob_AggregateID r = ai.
Proof.
  unfold InsertOutboxEvent. intros Hi. case_top Hi; [done|]. bool_props. simplify_eq.
  split; [|eauto]. destruct (t !! id); [done|done].
Qed.

Lemma AppendEvent_runs envelope s u s' :
  runs (AppendEvent envelope) s u s' ->
  dle s s' /\ device_same s s' /\ ds_security s' = ds_security s /\
  exists id aid r, parse_canonical (ev_EventId envelope) = Some id /\
    parse_canonical (ev_AggregateId envelope) = Some aid /\ ds_outbox s !! id = None /\
    ds_outbox s' !! id = Some r /\ ob_EventType r = ev_EventType envelope /\ ob_AggregateID r = aid.
Proof.
  intros Hr. unfold AppendEvent in Hr. apply runs_step in Hr as (ch & Hr). unfold Append in Hr.
  repeat case_in Hr; simplify_eq.
  match goal with Hi : InsertOutboxEvent _ _ _ _ _ _ _ _ _ _ = Some _ |- _ =>
    apply InsertOutboxEvent_Some in Hi as (Hfree & r & -> & Het & Hai) end.
  split_and!; [|done..|].
  - constructor; try apply rows_le_refl, _; [|cbn; congruence]. apply rows_le_insert; [apply _|]. congruence.
  - repeat eexists; try done. cbn. apply lookup_insert_eq.
Qed.

(** What a replayed record is a handle of. *)
Lemma Begin_replay e scope key canonical c x s record s' :
  Begin e scope key canonical c x s = (Ok (record, Replay), s') ->
  exists kd r body l, KeyDigest key = Ok kd /\
    is_table s' !! (sc_Principal scope, sc_Operation scope, kd) = Some r /\
    iw_state r = "completed"%string /\ stored_response r = Ok (ir_responseStatus record, body) /\
    ir_response record = Some l /\ is_cells s' !! l = Some (MkResponseOwnership body true).
Proof.
  unfold Begin. intros Hb. case_top Hb; [done|]. case_top Hb; [done|].
  destruct (RequestDigest _ _) as [rd|]; [|done]. destruct (KeyDigest key) as [kd|] eqn:Hkd; [|done].
  destruct (TryBeginIdempotency _ _ _) as [[rows|err] t1]; [|done].
  case_top Hb; [done|]. case_top Hb; [done|].
  destruct (GetIdempotencyForUpdate _ _ _) as [stored|] eqn:Hg; [|done].
  destruct (recordFromStore _ _ _) as [rec|] eqn:Hrs; [|done].
  apply recordFromStore_facts in Hrs as (Hkey & _ & _ & Hrec).
  case_top Hb; [done|]. case_top Hb; [done|]. case_top Hb; [done|]. case_top Hb; [|done].
  destruct (stored_response stored) as [[status body]|] eqn:Hsr; [|done].
  cbn [ownResponse] in Hb. simplify_eq. cbn [is_table is_cells set_response ir_responseStatus ir_response].
  unfold GetIdempotencyForUpdate in Hg. case_top Hg; [done|]. case_top Hg; [|done]. simplify_eq.
  bool_props. exists kd, stored, body, (length (is_cells s)).
  split_and!; try done. by rewrite lookup_app_r, Nat.sub_diag.
Qed.
End Steps.

(** ** The head of the transactions *)
Section Bodies.
Context `{Primitives} `{UUIDText} `{Protobuf} `{TimestampColumn} `{PL : ProtectorLaws}
  `{NetURL} `{Ed25519} `{Unicode}.

(** A completed idempotency record of the request holds these tokens. *)
Definition replay_backed (command : RotateDeviceTokenCommand) (t : DeviceTokens) (s : dstate) : Prop :=
  exists principal kd r body, KeyDigest (rc_IdempotencyKey command) = Ok kd /\
    is_table (ds_idem s) !! (principal, rotateDeviceTokenOperation, kd) = Some r /\
    iw_state r = "completed"%string /\ stored_response r = Ok (deviceRotationResponseStatus, body) /\
    tokens_of_body body = Some t.

Lemma replay_backed_up command t s s' : replay_backed command t s -> dle s s' -> replay_backed command t s'.
Proof.
  intros (p & kd & r & body & Hk & Hl & Hst & Hr & Ht) Hle.
  destruct (le_idem _ _ Hle _ _ Hl) as (r' & Hl' & [->|(Hst' & _)]); [|congruence].
  exists p, kd, r, body. done.
Qed.

Lemma TakeBody_runs record s body s' :
  runs (TakeBody record) s body s' ->
  dle s s' /\ idem_only s s' /\ is_table (ds_idem s') = is_table (ds_idem s) /\
  (forall l b, ir_response record = Some l ->
     is_cells (ds_idem s) !! l = Some (MkResponseOwnership b true) -> body = Some b).
Proof.
  intros Hr. unfold TakeBody in Hr. apply runs_step in Hr as (ch & Hr).
  pose proof (Take_table record (ds_idem s)) as Ht.
  destruct (TakeResponseBody record (ds_idem s)) as [b i] eqn:E. cbn in Ht. simplify_eq.
  split_and!; [|done|done|]; [apply with_idem_le; rewrite Ht; constructor|].
  intros l b0 Hl Hc. unfold TakeResponseBody in E. rewrite Hl, Hc in E. cbn in E. by simplify_eq.
Qed.

Lemma rotation_begin_runs command digest canonical now absent s d record out s' :
  runs (rotation_begin command digest canonical now absent) s (d, record, out) s' ->
  dle s s' /\ idem_only s s' /\ SelectRefresh digest s = Some d /\
  (forall t, out = RotationReplay t -> replay_backed command t s').
Proof.
  intros Hr. unfold rotation_begin in Hr. inv_run. unfold DiscoverDeviceRefreshToken in *. inv_run.
  match goal with Hq : runs (query _) _ _ _ |- _ => apply query_runs in Hq as (-> & ch & ->) end.
  destruct (SelectRefresh digest s) as [d0|] eqn:Hsel; [|by apply runs_fail in Hr]. inv_run.
  destruct (deviceRotationScope _) as [scope|] eqn:Hscope; [|by apply runs_fail in Hr]. inv_run.
  match goal with Hb : runs (BeginIdempotency _ _ _ _ _) _ ?x _ |- _ =>
    destruct x as [rec outcome]; apply BeginIdempotency_runs in Hb as (e & i & Hbegin & -> & Hle & Hsame) end.
  match goal with Ho : runs (rotationIdempotencyOutcome _ _) _ _ _ |- _ => rename Ho into Hout end.
  cbn [fst snd] in *. unfold rotationIdempotencyOutcome in Hout.
  destruct outcome; inv_run; [by split_and!|].
  apply Begin_replay in Hbegin as (kd & r & body & l & Hkd & Hl & Hst & Hsr & Hresp & Hcell).
  unfold deviceRotationScope in Hscope. apply AuthenticatedScope_ok in Hscope as (_ & _ & _ & ->).
  case_run Hout; [|case_run Hout; [by apply runs_fail in Hout|]]; inv_run;
    match goal with Ht : runs (TakeBody _) _ _ _ |- _ =>
      apply TakeBody_runs in Ht as (Hle' & Hsame' & Htab & Hbody) end;
    rewrite (Hbody _ _ Hresp Hcell) in Hout.
  - case_run Hout; inv_run. split_and!; [by etrans|by apply (idem_only_trans _ _ _ eq_refl Hsame')|done|done].
  - destruct (tokens_of_body body) as [t|] eqn:Htk; inv_run. split_and!; [by etrans| |done|].
    + by apply (idem_only_trans _ _ _ eq_refl Hsame').
    + intros t' [= ->]. bool_props. eexists _, kd, r, body. rewrite Htab. split_and!; try done.
      rewrite Hsr. congruence.
Qed.

(** ** Locked authorities *)

(** What a locked authority is in the state it was locked in. *)
Record locked_in (digest : Digest) (now : time) (s : dstate) (l : deviceRefreshAuthority) : Prop := {
  li_token : ds_tokens s !! digest = Some (dr_refresh (ra_discovered l));
  li_family : ds_families s !! disc_FamilyID (ra_discovered l) = Some (ra_family l);
  li_authorization : ds_authorizations s !! fm_AuthorizationID (ra_family l) = Some (ra_authorization l);
  li_device : ds_devices s !! az_DeviceID (ra_authorization l) = Some (ra_device l);
  li_family_id : fm_ID (ra_family l) = disc_FamilyID (ra_discovered l);
  li_family_state : fm_State (ra_family l) = "active"%string;
  li_authorization_id : az_ID (ra_authorization l) = fm_AuthorizationID (ra_family l);
  li_device_id : dv_ID (ra_device l) = az_DeviceID (ra_authorization l);
  li_absolute : After (fm_AbsoluteExpiresAt (ra_family l)) now = true;
  li_state : disc_RefreshState (ra_discovered l) = "active"%string \/
             disc_RefreshState (ra_discovered l) = "used"%string;
  li_ids : fm_ID (ra_family l) <> uuid_Nil /\ az_ID (ra_authorization l) <> uuid_Nil /\
           dv_ID (ra_device l) <> uuid_Nil }.

Ltac use_queries :=
  unfold DiscoverDeviceRefreshToken, LockDeviceFamilyRefreshTokens, GetDeviceTokenFamilyForUpdate,
    GetDeviceAuthorizationForUpdate, GetDeviceForUpdate, ListDeviceFamilyRefreshTokens in *; inv_run;
  repeat match goal with
  | Hq : runs (query _) _ _ _ |- _ => apply query_runs in Hq as (-> & ? & ->)
  end.

Lemma ValidateAccount_runs principal now s b s' :
  runs (ValidateDeviceAccountAuthority principal now) s b s' -> s' = s.
Proof.
  unfold ValidateDeviceAccountAuthority. destruct (parse_canonical principal); intros Hr; inv_run.
  by apply query_runs in Hr as [-> _].
Qed.

Lemma lock_runs svc digest now allowUsed s r s' :
  runs (lockDeviceRefreshAuthority svc digest now allowUsed) s r s' ->
  s' = s /\ forall l, r = Some l -> locked_in digest now s l.
Proof.
  intros Hr. unfold lockDeviceRefreshAuthority in Hr. inv_run. use_queries.
  destruct (SelectRefresh digest s) as [d|] eqn:Hsel; inv_run; [|done].
  case_run Hr; inv_run; [done|]. use_queries. case_run Hr; inv_run; [|done]. use_queries.
  case_run Hr; inv_run; [|done]. use_queries. case_run Hr; inv_run; [|done]. use_queries.
  rewrite Hsel in Hr. case_run Hr; inv_run; [done|]. use_queries.
  match goal with Hv : runs (ValidateDeviceAccountAuthority _ _) _ _ _ |- _ =>
    apply ValidateAccount_runs in Hv as -> end.
  case_run Hr; inv_run; [|done]. split; [done|]. intros l [= <-].
  destruct (SelectRefresh_Some _ _ _ Hsel) as (Ht & _ & _ & _).
  bool_props. unfold validDeviceRefreshAuthority in *.
  match goal with Hv : (if _ then false else _) = true |- _ => rename Hv into Hvalid end.
  case_top Hvalid; [done|]. bool_props.
  match goal with Hs : _ || allowUsed && _ = true |- _ => apply orb_true_iff in Hs as [Hs|Hs] end; bool_props;
    (constructor; cbn [ra_discovered ra_family ra_authorization ra_device];
     first [by left|by right|split_and!; congruence|congruence]).
Qed.

(** ** Compromised families *)

Definition compromised_state (id : UUID) (now : time) (f : FamilyRow) (s : dstate) : dstate :=
  with_tokens (revoke_refresh id now <$> ds_tokens s)
    (with_families (<[id := compromise_row now f]> (ds_families s)) s).

Lemma revoke_refresh_moves id now r : refresh_moves r (revoke_refresh id now r).
Proof.
  unfold revoke_refresh. destruct (revocable id r) eqn:E; [|done]. unfold revocable in E. bool_props.
  unfold refresh_moves. cbn. auto 10.
Qed.

Lemma revoke_refresh_active id now r : rt_State (revoke_refresh id now r) = "active"%string ->
  revoke_refresh id now r = r /\ rt_FamilyID r <> id.
Proof.
  unfold revoke_refresh. destruct (revocable id r) eqn:E; [done|]. intros Ha. split; [done|].
  intros Hid. unfold revocable in E. by rewrite !bool_decide_eq_true_2 in E.
Qed.

(** A row of the revoked table and the row it comes from. *)
Lemma revoked_lookup (id : UUID) (now : time) (t : gmap bytes RefreshRow) (h : bytes) (r : RefreshRow) :
  (revoke_refresh id now <$> t) !! h = Some r -> exists r0, t !! h = Some r0 /\ r = revoke_refresh id now r0.
Proof. rewrite lookup_fmap. intros (r0 & -> & ->)%fmap_Some. eauto. Qed.

Lemma revoked_fields id now r :
  rt_TokenHash (revoke_refresh id now r) = rt_TokenHash r /\
  rt_FamilyID (revoke_refresh id now r) = rt_FamilyID r /\
  rt_PreviousTokenHash (revoke_refresh id now r) = rt_PreviousTokenHash r /\
  (rt_State r = "used"%string -> rt_State (revoke_refresh id now r) = "used"%string).
Proof.
  destruct (revoke_refresh_moves id now r) as (? & ? & ? & [->|[Ha _]]); split_and!; try done. congruence.
Qed.

Lemma compromised_ok id now f s : dstate_ok s -> ds_families s !! id = Some f ->
  dstate_ok (compromised_state id now f s).
Proof.
  intros Hok Hf. unfold compromised_state. constructor; cbn [ds_tokens ds_families with_tokens with_families].
  - intros h r (r0 & Hl & ->)%revoked_lookup. destruct (revoked_fields id now r0) as (-> & _).
    by apply (ok_token_key s Hok).
  - intros id' f' Hl. apply lookup_insert_Some in Hl as [(<- & <-)|(_ & Hl)]; [|by apply (ok_family_key s Hok)].
    exact (ok_family_key s Hok _ _ Hf).
  - intros h r (r0 & Hl & ->)%revoked_lookup. destruct (revoked_fields id now r0) as (_ & -> & _).
    rewrite lookup_insert_is_Some'. right. by apply (ok_token_family s Hok h).
  - intros h1 r1 h2 r2 (q1 & Hl1 & ->)%revoked_lookup (q2 & Hl2 & ->)%revoked_lookup Hfam Ha1 Ha2.
    apply revoke_refresh_active in Ha1 as Hq1. apply revoke_refresh_active in Ha2 as Hq2.
    destruct Hq1 as [E1 _], Hq2 as [E2 _]. rewrite E1 in *. rewrite E2 in *.
    by apply (ok_one_active s Hok h1 q1 h2 q2).
  - intros h r f' (r0 & Hl & ->)%revoked_lookup Ha Hl'. apply revoke_refresh_active in Ha as Hq.
    destruct Hq as [E Hne]. rewrite E in *. rewrite lookup_insert_ne in Hl' by done.
    by apply (ok_live s Hok h r0).
  - intros h1 r1 h2 r2 p (q1 & Hl1 & ->)%revoked_lookup (q2 & Hl2 & ->)%revoked_lookup.
    destruct (revoked_fields id now q1) as (_ & _ & -> & _), (revoked_fields id now q2) as (_ & _ & -> & _).
    by apply (ok_successor s Hok).
  - intros h r p (r0 & Hl & ->)%revoked_lookup. destruct (revoked_fields id now r0) as (_ & -> & -> & _).
    intros Hp. destruct (ok_previous s Hok _ _ _ Hl Hp) as (rp & Hlp & Hfp & Hst).
    destruct (revoked_fields id now rp) as (_ & Hf1 & _ & Hu).
    exists (revoke_refresh id now rp). rewrite lookup_fmap, Hlp, Hf1. split_and!; [done..|]. auto.
Qed.

Lemma compromised_le id now f s : ds_families s !! id = Some f -> fm_State f = "active"%string ->
  dle s (compromised_state id now f s).
Proof.
  intros Hf Hst. constructor; cbn; try apply rows_le_refl, _.
  - intros h r Hl. exists (revoke_refresh id now r). rewrite lookup_fmap, Hl.
    split; [done|apply revoke_refresh_moves].
  - apply rows_le_insert; [apply _|]. intros f0 ?. simplify_eq. unfold family_moves. cbn. split_and!; auto; lia.
  - intros h r f' (r0 & Hl & _)%revoked_lookup. congruence.
Qed.

(** The reuse of a token was answered: its family is compromised, none of the
    family's tokens is active, and the event and the security record are there. *)
Record compromised_by (s s' : dstate) (l : deviceRefreshAuthority) : Prop := {
  cb_family : exists f, ds_families s' !! fm_ID (ra_family l) = Some f /\
    fm_State f = "compromised"%string /\ fm_StateVersion f = fm_StateVersion (ra_family l) + 1;
  cb_tokens h r : ds_tokens s' !! h = Some r -> rt_FamilyID r = fm_ID (ra_family l) ->
    rt_State r <> "active"%string;
  cb_event : exists id r, ds_outbox s !! id = None /\ ds_outbox s' !! id = Some r /\
    ob_EventType r = DeviceTokenFamilyCompromisedType /\
    parse_canonical (uuid_String (az_ID (ra_authorization l))) = Some (ob_AggregateID r);
  cb_security : exists id r, ds_security s !! id = None /\ ds_security s' !! id = Some r /\
    se_Category r = sbytes "device_token_replay" }.

Lemma draw_uuid_runs s id s' : runs draw_uuid s id s' -> s' = s.
Proof.
  unfold draw_uuid. intros Hr. apply runs_step in Hr as (ch & Hr). by case_match; simplify_eq.
Qed.

Lemma draw_token_runs s t s' : runs draw_token s t s' -> s' = s /\ exists source, NewOpaqueToken source = Ok t.
Proof.
  unfold draw_token. intros Hr. apply runs_step in Hr as (ch & Hr).
  destruct (NewOpaqueToken (ch_random ch)) eqn:E; simplify_eq. eauto.
Qed.

Lemma InsertSecurity_Some r s u s' : InsertSecurityEvent r s = Some (u, s') ->
  ds_security s !! se_ID r = None /\ s' = with_security (<[se_ID r := r]> (ds_security s)) s.
Proof.
  unfold InsertSecurityEvent. destruct (ds_security s !! se_ID r); cbn [not_nil is_nil negb orb]; [done|].
  intros Hi. case_top Hi; by simplify_eq.
Qed.

Lemma RecordReplay_runs id az now s u s' :
  runs (RecordDeviceTokenReplay id az now) s u s' ->
  dle s s' /\ device_same s s' /\ ds_outbox s' = ds_outbox s /\
  exists id r, ds_security s !! id = None /\ ds_security s' !! id = Some r /\
    se_Category r = sbytes "device_token_replay".
Proof.
  unfold RecordDeviceTokenReplay. intros Hr. inv_run. apply update_runs in Hr.
  apply InsertSecurity_Some in Hr as (Hfree & ->). split_and!; [|done..|].
  - constructor; cbn; try apply rows_le_refl, _; [|congruence]. apply rows_le_insert; [apply _|].
    cbn in Hfree. congruence.
  - eexists _, _. split; [exact Hfree|]. split; [apply lookup_insert_eq|done].
Qed.

Lemma compromise_runs l record now digest s u s' :
  dstate_ok s -> locked_in digest now s l -> runs (compromiseUsedDeviceRefresh l record now) s u s' ->
  dstate_ok s' /\ dle s s' /\ compromised_by s s' l.
Proof using PL.
  intros Hok Hl Hr. unfold compromiseUsedDeviceRefresh in Hr. inv_run.
  unfold CompromiseDeviceTokenFamily in *. inv_run.
  match goal with Hu : runs (update (UpdateFamilyCompromised _ _)) _ _ _ |- _ =>
    apply update_runs in Hu; rename Hu into Hc end.
  pose proof (li_family _ _ _ _ Hl) as Hf. rewrite <- (li_family_id _ _ _ _ Hl) in Hf.
  unfold UpdateFamilyCompromised in Hc. rewrite Hf, bool_decide_eq_true_2 in Hc
    by apply (li_family_state _ _ _ _ Hl).
  case_top Hc; [done|]. simplify_eq. inv_run. unfold RevokeDeviceRefreshTokens in *. inv_run.
  match goal with Hu : runs (update (UpdateRefreshRevoked _ _)) _ _ _ |- _ =>
    apply update_runs in Hu; unfold UpdateRefreshRevoked in Hu end.
  simplify_eq.
  repeat match goal with Hd : runs draw_uuid _ _ _ |- _ => apply draw_uuid_runs in Hd as -> end.
  match goal with Hd : runs (RecordDeviceTokenReplay _ _ _) ?st _ _ |- _ =>
    change st with (compromised_state (fm_ID (ra_family l)) now (ra_family l) s) in Hd;
    apply RecordReplay_runs in Hd as (Hle2 & Hs2 & Hob & sid & srow & Hsfree & Hsrow & Hcat) end.
  pose proof (compromised_ok _ now _ _ Hok Hf) as Hok1.
  pose proof (compromised_le _ now _ _ Hf (li_family_state _ _ _ _ Hl)) as Hle1.
  destruct (MarshalPayload _ _) as [payload|]; inv_run.
  match goal with Ha : runs (AppendEvent _) _ _ _ |- _ =>
    apply AppendEvent_runs in Ha as (Hle3 & Hs3 & Hsec & oid & aid & orow & _ & Haid & Hofree & Horow & Het & Hai) end.
  cbn [compromised_event ev_AggregateId ev_EventType] in Haid, Het.
  apply Complete_runs in Hr as (Hle4 & Hs4 & Hob4 & Hsec4 & _).
  assert (device_same (compromised_state (fm_ID (ra_family l)) now (ra_family l) s) s') as Hsame
    by (unfold device_same in *; intuition congruence).
  split; [by eapply device_same_ok|]. split; [repeat (etrans; [eassumption|]); done|].
  destruct Hsame as (Htok & Hfam & _). constructor.
  - exists (compromise_row now (ra_family l)). rewrite Hfam. cbn. by rewrite lookup_insert_eq.
  - intros h r. rewrite Htok. intros (r0 & Hl0 & ->)%revoked_lookup Hid Hact.
    apply revoke_refresh_active in Hact as [E Hne]. by rewrite E in Hid.
  - exists oid, orow. rewrite Hob in Hofree. rewrite Hob4. split_and!; try done. congruence.
  - exists sid, srow. rewrite Hsec4, Hsec. done.
Qed.

(** ** Rotated families *)

Definition marked_row (now : time) (r : RefreshRow) : RefreshRow :=
  set_refresh_state "used" (Some (column_time now)) (rt_RevokedAt r) r.

Definition rotated_state (digest hash : bytes) (now : time) (r : RefreshRow) (f' : FamilyRow) (s : dstate) :
  dstate :=
  with_tokens (<[hash := MkRefreshRow hash (rt_FamilyID r) (Some digest) "active" (column_time now) None None]>
                (<[digest := marked_row now r]> (ds_tokens s)))
    (with_families (<[rt_FamilyID r := f']> (ds_families s)) s).

(** A row of the rotated table is the new one, the marked one, or an old one. *)
Lemma rotated_lookup digest hash now r f' s h q :
  ds_tokens s !! digest = Some r -> ds_tokens s !! hash = None ->
  ds_tokens (rotated_state digest hash now r f' s) !! h = Some q ->
  (h = hash /\ q = MkRefreshRow hash (rt_FamilyID r) (Some digest) "active" (column_time now) None None) \/
  (h = digest /\ q = marked_row now r) \/ (h <> digest /\ h <> hash /\ ds_tokens s !! h = Some q).
Proof.
  intros Hd Hh. cbn. intros [(<- & <-)|(Hne & Hl)]%lookup_insert_Some; [auto|].
  apply lookup_insert_Some in Hl as [(<- & <-)|(Hne' & Hl)]; auto.
Qed.

Section Rotated.
Variables (digest hash : bytes) (now : time) (r : RefreshRow) (f f' : FamilyRow) (s : dstate).
Hypotheses (Hok : dstate_ok s) (Hr : ds_tokens s !! digest = Some r) (Hact : rt_State r = "active"%string)
  (Hhash : ds_tokens s !! hash = None) (Hf : ds_families s !! rt_FamilyID r = Some f)
  (Hmoves : family_moves f f') (Hst' : fm_State f' = "active"%string).

#[local] Abbreviation s' := (rotated_state digest hash now r f' s).

(** Nothing follows an active token. *)
Lemma no_successor h q : ds_tokens s !! h = Some q -> rt_PreviousTokenHash q <> Some digest.
Proof.
  intros Hl Hp. destruct (ok_previous s Hok _ _ _ Hl Hp) as (rp & Hlp & _ & Hu).
  rewrite Hr in Hlp. simplify_eq. by rewrite Hact in Hu.
Qed.

Lemma rotated_families id : is_Some (ds_families s !! id) -> is_Some (ds_families s' !! id).
Proof. intros Hs. cbn. apply lookup_insert_is_Some'. auto. Qed.

Lemma rotated_tokens_ok :
  (forall h q, ds_tokens s' !! h = Some q -> rt_TokenHash q = h /\ is_Some (ds_families s' !! rt_FamilyID q)) /\
  (forall h q g, ds_tokens s' !! h = Some q -> rt_State q = "active"%string ->
     ds_families s' !! rt_FamilyID q = Some g -> fm_State g = "active"%string) /\
  (forall h q, ds_tokens s' !! h = Some q -> rt_FamilyID q = rt_FamilyID r -> rt_State q = "active"%string ->
     h = hash).
Proof.
  split_and!.
  - intros h q Hl. destruct (rotated_lookup _ _ _ _ _ _ _ _ Hr Hhash Hl) as [(-> & ->)|[(-> & ->)|(_ & _ & Hl')]];
      (split; [|apply rotated_families]);
      [done|by exists f|exact (ok_token_key s Hok _ _ Hr)|by exists f|by apply (ok_token_key s Hok)|by apply (ok_token_family s Hok h)].
  - intros h q g Hl Ha Hg. cbn in Hg. apply lookup_insert_Some in Hg as [(_ & <-)|(Hne & Hg)]; [done|].
    destruct (rotated_lookup _ _ _ _ _ _ _ _ Hr Hhash Hl) as [(-> & ->)|[(-> & ->)|(_ & _ & Hl')]];
      [done|done|]. by eapply (ok_live s Hok).
  - intros h q Hl Hfam Ha.
    destruct (rotated_lookup _ _ _ _ _ _ _ _ Hr Hhash Hl) as [(-> & ->)|[(-> & ->)|(Hne & _ & Hl')]];
      [done|done|]. destruct Hne. by eapply (ok_one_active s Hok).
Qed.

Lemma rotated_ok : dstate_ok s'.
Proof.
  destruct rotated_tokens_ok as (Hkeys & Hlive & Hone).
  constructor.
  - intros h q Hl. by apply Hkeys.
  - intros id g Hl. cbn in Hl. apply lookup_insert_Some in Hl as [(<- & <-)|(_ & Hl)]; [|by eapply ok_family_key].
    destruct Hmoves as (-> & _). by eapply ok_family_key.
  - intros h q Hl. by eapply Hkeys.
  - intros h1 q1 h2 q2 Hl1 Hl2 Hfam Ha1 Ha2. destruct (decide (rt_FamilyID q1 = rt_FamilyID r)) as [He|Hne].
    + rewrite (Hone h1 q1), (Hone h2 q2); congruence.
    + destruct (rotated_lookup _ _ _ _ _ _ _ _ Hr Hhash Hl1) as [(-> & ->)|[(-> & ->)|(_ & _ & H1')]]; [done..|].
      destruct (rotated_lookup _ _ _ _ _ _ _ _ Hr Hhash Hl2) as [(-> & ->)|[(-> & ->)|(_ & _ & H2')]]; [done..|].
      by eapply (ok_one_active s Hok).
  - done.
  - intros h1 q1 h2 q2 p Hl1 Hl2 Hp1 Hp2.
    assert (forall h q, ds_tokens s' !! h = Some q -> rt_PreviousTokenHash q = Some p ->
      (h = hash /\ p = digest) \/ exists q0, ds_tokens s !! h = Some q0 /\ rt_PreviousTokenHash q0 = Some p) as Hfrom.
    { intros h q Hl Hp.
      destruct (rotated_lookup _ _ _ _ _ _ _ _ Hr Hhash Hl) as [(-> & ->)|[(-> & ->)|(_ & _ & Hl')]];
        [left; cbn in Hp; by simplify_eq|right; eauto..]. }
    destruct (Hfrom _ _ Hl1 Hp1) as [(-> & ->)|(p1 & Hq1 & He1)], (Hfrom _ _ Hl2 Hp2) as [(-> & E)|(p2 & Hq2 & He2)];
      [done|by apply no_successor in Hq2|subst; by apply no_successor in Hq1|by eapply (ok_successor s Hok)].
  - intros h q p Hl Hp.
    destruct (rotated_lookup _ _ _ _ _ _ _ _ Hr Hhash Hl) as [(-> & ->)|[(-> & ->)|(_ & _ & Hl')]].
    + cbn in Hp. simplify_eq. exists (marked_row now r). cbn.
      rewrite lookup_insert_ne by congruence. by rewrite lookup_insert_eq.
    + destruct (ok_previous s Hok _ _ _ Hr Hp) as (rp & Hlp & Hfp & Hu). exists rp. cbn.
      rewrite !lookup_insert_ne by congruence. done.
    + destruct (ok_previous s Hok _ _ _ Hl' Hp) as (rp & Hlp & Hfp & Hu). exists rp. cbn.
      rewrite !lookup_insert_ne by congruence. done.
Qed.

Lemma rotated_le : dle s s'.
Proof.
  constructor; cbn [ds_tokens ds_families ds_authorizations ds_devices ds_idem ds_outbox ds_security
                    rotated_state with_tokens with_families]; try apply rows_le_refl, _.
  - eapply rows_le_trans; [apply _|apply rows_le_insert|apply rows_le_insert]; try apply _.
    + intros r0 ?. simplify_eq. unfold refresh_moves. cbn. auto 10.
    + intros r0. rewrite lookup_insert_ne by congruence. congruence.
  - apply rows_le_insert; [apply _|]. intros f0 ?. by simplify_eq.
  - intros h q g Hl Hn Hg.
    destruct (rotated_lookup digest hash now r f' s h q Hr Hhash Hl) as [(-> & ->)|[(-> & ->)|(_ & _ & Hl')]];
      [|congruence..]. cbn in Hg. by eapply (ok_live s Hok).
Qed.
End Rotated.

(** The tokens of the response follow the presented token: the new refresh token
    is its successor in the family, and the family belongs to the authorization of
    the device with the signing key [key]. *)
Definition issued_from (digest : Digest) (key : bytes) (t : DeviceTokens) (s : dstate) : Prop :=
  exists r f a d,
    ds_tokens s !! DigestToken DeviceRefreshToken (tk_RefreshToken t) = Some r /\
    rt_PreviousTokenHash r = Some digest /\ rt_FamilyID r = tk_FamilyID t /\
    ds_families s !! tk_FamilyID t = Some f /\ fm_AuthorizationID f = tk_AuthorizationID t /\
    ds_authorizations s !! tk_AuthorizationID t = Some a /\ az_DeviceID a = tk_DeviceID t /\
    ds_devices s !! tk_DeviceID t = Some d /\ dv_SigningPublicKey d = key /\
    fm_AbsoluteExpiresAt f = tk_RefreshAbsoluteExpiresAt t.

Lemma issued_from_up digest key t s s' : issued_from digest key t s -> dle s s' -> issued_from digest key t s'.
Proof.
  intros (r & f & a & d & Hr & Hp & Hrf & Hf & Hfa & Ha & Had & Hd & Hk & Habs) Hle.
  destruct (le_tokens _ _ Hle _ _ Hr) as (r' & Hr' & _ & ? & ? & _).
  destruct (le_families _ _ Hle _ _ Hf) as (f' & Hf' & _ & ? & ? & _).
  destruct (le_authorizations _ _ Hle _ _ Ha) as (a' & Ha' & _ & _ & ?).
  destruct (le_devices _ _ Hle _ _ Hd) as (d' & Hd' & _ & _ & ?).
  exists r', f', a', d'. split_and!; congruence.
Qed.

Lemma prepare_runs l now s p s' :
  runs (prepareDeviceRotation l now) s p s' ->
  s' = s /\ exists access refresh accessAt idleAt,
    rotation_expiries l now = Some (accessAt, idleAt) /\
    p = MkPreparedRotation
          (MkDeviceTokens (dv_ID (ra_device l)) (az_ID (ra_authorization l)) (fm_ID (ra_family l)) access refresh
             accessAt idleAt (fm_AbsoluteExpiresAt (ra_family l)))
          (DigestToken DeviceAccessToken access) (DigestToken DeviceRefreshToken refresh).
Proof.
  unfold prepareDeviceRotation. destruct (rotation_expiries l now) as [[accessAt idleAt]|]; intros Hr; inv_run.
  repeat match goal with Hd : runs draw_token _ _ _ |- _ => apply draw_token_runs in Hd as (-> & _) end.
  split; [done|]. eauto 10.
Qed.

Lemma InsertRefresh_Some hash id prev now s u s' : InsertRefresh hash id prev now s = Some (u, s') ->
  ds_tokens s !! hash = None /\
  s' = with_tokens (<[hash := MkRefreshRow hash id prev "active" (column_time now) None None]> (ds_tokens s)) s.
Proof.
  unfold InsertRefresh. destruct (ds_tokens s !! hash); cbn [not_nil is_nil negb orb]; [done|].
  intros Hi. case_top Hi; by simplify_eq.
Qed.

Lemma UpdateFamilyAccess_Some id hash access idle now s f f' s' :
  ds_families s !! id = Some f -> UpdateFamilyAccess id hash access idle now s = Some (Some f', s') ->
  s' = with_families (<[id := f']> (ds_families s)) s /\ family_moves f f' /\ fm_State f' = fm_State f.
Proof.
  intros Hf. unfold UpdateFamilyAccess. rewrite Hf. intros Hu. case_top Hu; [|done]. case_top Hu; [done|].
  simplify_eq. split_and!; [done| |done]. unfold family_moves. cbn. split_and!; auto; lia.
Qed.

Lemma rotate_runs l record digest now s t s' :
  dstate_ok s -> locked_in digest now s l -> disc_RefreshState (ra_discovered l) = "active"%string ->
  runs (rotate_family l record digest now) s t s' ->
  dstate_ok s' /\ dle s s' /\ issued_from digest (dv_SigningPublicKey (ra_device l)) t s' /\
  tk_FamilyID t = disc_FamilyID (ra_discovered l).
Proof using PL.
  intros Hok Hl Hact Hr. unfold rotate_family in Hr. inv_run.
  match goal with Hp : runs (prepareDeviceRotation _ _) _ _ _ |- _ =>
    apply prepare_runs in Hp as (-> & access & refresh & accessAt & idleAt & _ & ->) end.
  cbn [pr_tokens pr_accessDigest pr_refreshDigest tk_AccessExpiresAt tk_RefreshIdleExpiresAt] in *.
  unfold MarkDeviceRefreshUsed, RotateDeviceFamilyAccess, InsertDeviceRefreshToken in *. inv_run.
  pose proof (li_token _ _ _ _ Hl) as Htok. pose proof (li_family _ _ _ _ Hl) as Hfam.
  pose proof (li_family_id _ _ _ _ Hl) as Hfid. unfold disc_RefreshState, disc_FamilyID in *.
  match goal with Hu : runs (update (UpdateRefreshUsed _ _)) _ _ _ |- _ =>
    apply update_runs in Hu; unfold UpdateRefreshUsed in Hu; rewrite Htok, bool_decide_eq_true_2 in Hu by done end.
  match goal with Hu : runs (update (UpdateFamilyAccess _ _ _ _ _)) _ _ _ |- _ =>
    apply update_runs in Hu; rename Hu into Hrot end.
  simplify_eq. case_run Hr; inv_run. rewrite Hfid in Hrot.
  apply UpdateFamilyAccess_Some with (f := ra_family l) in Hrot as (-> & Hmoves & Hst'); [|done].
  rewrite (li_family_state _ _ _ _ Hl) in Hst'. case_run Hr; inv_run.
  match goal with Hu : runs (update (InsertRefresh _ _ _ _)) _ _ _ |- _ =>
    apply update_runs, InsertRefresh_Some in Hu as (Hfree & ->) end.
  cbn [ds_tokens with_families with_tokens] in Hfree. apply lookup_insert_None in Hfree as [Hfree Hne].
  match goal with Hc : runs (CompleteIdempotencyRecord _ _ _) _ _ _ |- _ =>
    apply Complete_runs in Hc as (Hle2 & Hsame & _) end.
  pose proof (rotated_ok digest _ now _ _ _ s Hok Htok Hact Hfree Hfam Hmoves Hst') as Hok1.
  pose proof (rotated_le digest _ now _ _ _ s Hok Htok Hact Hfree Hfam Hmoves) as Hle1.
  rewrite Hfid in *.
  set (s1 := rotated_state digest (DigestToken DeviceRefreshToken refresh) now (dr_refresh (ra_discovered l)) f s) in *.
  match type of Hle2 with dle ?st _ => change st with s1 in Hle2, Hsame end.
  split; [by eapply device_same_ok|]. split; [by etrans|]. split; [|done].
  eapply issued_from_up; [|exact Hle2].
  destruct Hmoves as (_ & Hfa & Habs & _).
  pose proof (li_authorization _ _ _ _ Hl) as Ha. pose proof (li_device _ _ _ _ Hl) as Hd.
  pose proof (li_authorization_id _ _ _ _ Hl) as Haid. pose proof (li_device_id _ _ _ _ Hl) as Hdid.
  eexists _, f, (ra_authorization l), (ra_device l).
  cbn [tk_RefreshToken tk_FamilyID tk_AuthorizationID tk_DeviceID tk_RefreshAbsoluteExpiresAt].
  rewrite Haid, Hdid. unfold s1. cbn. rewrite !lookup_insert_eq. split_and!; done.
Qed.

(** ** The transactions *)

Lemma locked_in_same digest now s s' l : device_same s s' -> locked_in digest now s' l -> locked_in digest now s l.
Proof.
  intros (Ht & Hf & Ha & Hd) [E1 E2 E3 E4]. rewrite Ht in E1. rewrite Hf in E2. rewrite Ha in E3.
  rewrite Hd in E4. by constructor.
Qed.

(** A request that is found fresh in a transaction. *)
Lemma fresh_runs svc command digest canonical now absent s d record out s1 locked s2 :
  dstate_ok s -> runs (rotation_begin command digest canonical now absent) s (d, record, out) s1 ->
  runs (lockDeviceRefreshAuthority svc digest now true) s1 locked s2 ->
  s2 = s1 /\ dstate_ok s1 /\ dle s s1 /\ idem_only s s1 /\
  forall l, locked = Some l -> locked_in digest now s1 l.
Proof.
  intros Hok Hb Hl. apply rotation_begin_runs in Hb as (Hle & Hsame & _). apply lock_runs in Hl as (-> & Hl).
  split_and!; try done. eapply device_same_ok; [by apply idem_only_same|done].
Qed.

(** A transaction that resolves the reuse of a token. *)
Lemma reuse_runs l record now digest s s1 u s' :
  dstate_ok s1 -> dle s s1 -> idem_only s s1 -> locked_in digest now s1 l ->
  runs (compromiseUsedDeviceRefresh l record now) s1 u s' ->
  dstate_ok s' /\ dle s s' /\ compromised_by s s' l.
Proof using PL.
  intros Hok Hle Hidem Hl Hc. destruct (compromise_runs _ _ _ _ _ _ _ Hok Hl Hc) as (? & ? & Hby).
  split_and!; [done|by etrans|]. rewrite Hidem in Hby. destruct Hby. by constructor.
Qed.
End Bodies.
