(* ===== verification/DeviceSystem.v ===== *)
(** Any number of rotation requests whose calls interleave: the transactions keep
    the tables in order, and every finished request keeps its promise. *)
From Stdlib Require Import ZArith Lia Strings.Byte.
From stdpp Require Import base gmap list strings numbers option relations.
From S2P Require Import Prelude GoStd GoTime AuthorityTypes Ledger FenceStore Programs Transactions GoCrypto Text Sensitive Idempotency IdempotencyTheorems Tokens GoJson StrictJson Descriptors Events Outbox DeviceRows DeviceChallenge DeviceRotate DeviceSafety.

#[local] Open Scope go_scope.

Section Transactions.
Context `{Primitives} `{UUIDText} `{Protobuf} `{TimestampColumn} `{PL : ProtectorLaws}
  `{NetURL} `{Ed25519} `{Unicode}.

Implicit Types (s : dstate) (command : RotateDeviceTokenCommand) (l : deviceRefreshAuthority).

(** What every transaction of a rotation keeps, and what backs the tokens it
    replays. *)
Definition tx_keeps command s (r : rotation_result) s' : Prop :=
  dstate_ok s' /\ dle s s' /\ (forall t, r = ResolvedTokens t -> replay_backed command t s').

(** The common head of the three transactions: the request is classified, or it is
    fresh and goes on with a locked authority. *)
Lemma head_runs svc command digest canonical now absent s r s'
  (k : DiscoverRefreshRow * IdempotencyRecord * rotation_outcome -> option deviceRefreshAuthority -> dtx rotation_result) :
  dstate_ok s ->
  runs (tx_bind (rotation_begin command digest canonical now absent)
          (fun begun => match begun.2 with
             | RotationFailure => tx_ret ResolvedFailure
             | RotationReplay tokens => tx_ret (ResolvedTokens tokens)
             | RotationFresh => tx_bind (lockDeviceRefreshAuthority svc digest now true) (k begun)
             end)) s r s' ->
  (tx_keeps command s r s' /\ idem_only s s') \/
  exists begun locked s1, dstate_ok s1 /\ dle s s1 /\ idem_only s s1 /\
    (forall l, locked = Some l -> locked_in digest now s1 l) /\ runs (k begun locked) s1 r s'.
Proof.
  intros Hok Hr. apply runs_bind in Hr as ([[d record] out] & s1 & Hb & Hr). cbn [fst snd] in Hr.
  pose proof (rotation_begin_runs _ _ _ _ _ _ _ _ _ _ Hb) as (Hle & Hi & _ & Hrep).
  assert (dstate_ok s1) as Hok1 by (eapply device_same_ok; [by apply idem_only_same|done]).
  destruct out as [| |t]; inv_run; [right|left; by split_and!|left; split; [|done]; split_and!; try done; intros t0 [= <-]; auto].
  match goal with Hl : runs (lockDeviceRefreshAuthority _ _ _ _) _ ?x _ |- _ =>
    apply lock_runs in Hl as (-> & Hlocked); eexists _, x, s1 end.
  split_and!; done.
Qed.

(** The branch of a transaction that found the token used. *)
Lemma reuse_keeps command l record now digest s s1 u s' :
  dstate_ok s1 -> dle s s1 -> idem_only s s1 -> locked_in digest now s1 l ->
  runs (compromiseUsedDeviceRefresh l record now) s1 u s' -> tx_keeps command s ResolvedFailure s'.
Proof using PL.
  intros Hok Hle Hidem Hl Hc. destruct (reuse_runs _ _ _ _ _ _ _ _ Hok Hle Hidem Hl Hc) as (? & ? & _).
  by split_and!.
Qed.

Lemma preflight_runs svc command digest canonical now s r s' :
  dstate_ok s -> runs (preflight_tx svc command digest canonical now) s r s' -> tx_keeps command s r s'.
Proof using PL.
  intros Hok Hr. apply head_runs in Hr as [[? _]|(begun & locked & s1 & Hok1 & Hle & Hi & Hl & Hr)]; [done| |done].
  case_run Hr; inv_run. case_run Hr; inv_run. eapply reuse_keeps; eauto.
Qed.

Lemma reclassify_runs svc command digest canonical now ambiguous s r s' :
  dstate_ok s -> runs (reclassify_tx svc command digest canonical now ambiguous) s r s' ->
  tx_keeps command s r s'.
Proof using PL.
  intros Hok Hr. apply head_runs in Hr as [[? _]|(begun & locked & s1 & Hok1 & Hle & Hi & Hl & Hr)]; [done| |done].
  case_run Hr; inv_run. case_run Hr; [|case_run Hr]; inv_run. eapply reuse_keeps; eauto.
Qed.

(** The final transaction may also issue tokens, under the key of the authority
    whose proof was checked. *)
Definition final_keeps command digest (authority : deviceRefreshAuthority) s (r : rotation_result) s' : Prop :=
  dstate_ok s' /\ dle s s' /\
  (forall t, r = ResolvedTokens t ->
     replay_backed command t s' \/
     issued_from digest (dv_SigningPublicKey (ra_device authority)) t s' /\
     tk_FamilyID t = disc_FamilyID (ra_discovered authority)).

Lemma tx_keeps_final command digest authority s r s' :
  tx_keeps command s r s' -> final_keeps command digest authority s r s'.
Proof. intros (? & ? & Hrep). split_and!; auto. Qed.

Lemma final_runs svc command digest canonical now authority s r s' :
  dstate_ok s -> runs (final_tx svc command digest canonical now authority) s r s' ->
  final_keeps command digest authority s r s'.
Proof using PL.
  intros Hok Hr.
  apply head_runs in Hr as [[? _]|(begun & locked & s1 & Hok1 & Hle & Hi & Hl & Hr)]; [by apply tx_keeps_final| |done].
  case_run Hr; inv_run. case_run Hr; inv_run.
  - apply tx_keeps_final. eapply reuse_keeps; eauto.
  - bool_props. match goal with Hc : runs (rotate_family _ _ _ _) _ _ _ |- _ =>
      destruct (rotate_runs _ _ _ _ _ _ _ Hok1 (Hl _ eq_refl) ltac:(done) Hc) as (? & ? & Hiss & Hfam) end.
    split_and!; [done|by etrans|]. intros t [= <-]. right. unfold sameDeviceRefreshAuthority in *. bool_props.
    split; congruence.
Qed.

(** ** Where the preflight error comes from *)

Definition plain (e : device_err) : Prop := match e with DevicePreflight _ => False | _ => True end.

(** A computation that does not end with the preflight error. *)
Definition never_preflight {A} (m : dtx A) : Prop := forall s e, fails m s e -> plain e.

Lemma never_ret {A} (a : A) : never_preflight (tx_ret a).
Proof. intros s e Hf. by apply fails_ret in Hf. Qed.

Lemma never_fail {A} e : plain e -> never_preflight (A:=A) (tx_fail e).
Proof. intros He s e' (o & n & n' & s' & Hf). unfold tx_fail in Hf. by simplify_eq. Qed.

Lemma never_bind {A B} (m : dtx A) (k : A -> dtx B) :
  never_preflight m -> (forall a, never_preflight (k a)) -> never_preflight (tx_bind m k).
Proof. intros Hm Hk s e Hf. apply fails_bind in Hf as [Hf|(a & s1 & _ & Hf)]; [by eapply Hm|by eapply Hk]. Qed.

Lemma never_or {A} (m : dtx A) e : plain e -> never_preflight (tx_or m e).
Proof. intros He s e' Hf. by apply fails_or in Hf as ->. Qed.

Lemma never_guard b e : plain e -> never_preflight (tx_guard b e).
Proof. intros He s e' Hf. by apply fails_guard in Hf as [_ ->]. Qed.

Lemma never_take record : never_preflight (TakeBody record).
Proof.
  intros s e (o & n & n' & s' & Hf). unfold TakeBody, tx_step in Hf.
  destruct (TakeResponseBody _ _). by simplify_eq.
Qed.

Lemma never_draw : never_preflight draw_uuid.
Proof.
  intros s e (o & n & n' & s' & Hf). unfold draw_uuid, tx_step in Hf.
  destruct (randomUUID _); by simplify_eq.
Qed.

Ltac never :=
  repeat lazymatch goal with
  | |- never_preflight (tx_ret _) => apply never_ret
  | |- never_preflight (tx_fail _) => apply never_fail; done
  | |- never_preflight (tx_or _ _) => apply never_or; done
  | |- never_preflight (tx_guard _ _) => apply never_guard; done
  | |- never_preflight (TakeBody _) => apply never_take
  | |- never_preflight draw_uuid => apply never_draw
  | |- never_preflight (tx_bind _ _) => apply never_bind; [|intros ?]
  | |- never_preflight (match ?t with _ => _ end) => destruct t
  end.

Lemma begin_never command digest canonical now absent : plain absent ->
  never_preflight (rotation_begin command digest canonical now absent).
Proof.
  intros Ha. unfold rotation_begin, rotationIdempotencyOutcome. never.
Qed.

Lemma lock_never svc digest now allowUsed : never_preflight (lockDeviceRefreshAuthority svc digest now allowUsed).
Proof. unfold lockDeviceRefreshAuthority. never. Qed.

Lemma compromise_never l record now : never_preflight (compromiseUsedDeviceRefresh l record now).
Proof. unfold compromiseUsedDeviceRefresh. never. Qed.

(** The authority the preflight hands on was locked in the state it ran on, and
    its token was active. *)
Lemma preflight_fails svc command digest canonical now s l :
  fails (preflight_tx svc command digest canonical now) s (DevicePreflight l) ->
  locked_in digest now s l /\ disc_RefreshState (ra_discovered l) = "active"%string.
Proof.
  intros Hf. unfold preflight_tx in Hf.
  apply fails_bind in Hf as [Hf|([[d record] out] & s1 & Hb & Hf)]; [by apply begin_never in Hf|].
  apply rotation_begin_runs in Hb as (_ & Hi & _). cbn [fst snd] in Hf.
  destruct out; [|by apply fails_ret in Hf..].
  apply fails_bind in Hf as [Hf|(locked & s2 & Hl & Hf)]; [by apply lock_never in Hf|].
  apply lock_runs in Hl as (-> & Hl). destruct locked as [l0|]; [|by apply never_fail in Hf].
  specialize (Hl l0 eq_refl).
  apply fails_bind in Hf as [Hf|(u & s2 & Hg & Hf)]; [by apply never_guard in Hf|].
  apply runs_guard in Hg as [_ ->]. destruct (_ == "used"%string) eqn:Hu.
  - apply fails_bind in Hf as [Hf|(v & s2 & _ & Hf)]; [by apply compromise_never in Hf|by apply fails_ret in Hf].
  - destruct Hf as (o & n & n' & s' & Hf). unfold tx_fail in Hf. simplify_eq. bool_props.
    split; [eapply locked_in_same; [by apply idem_only_same|done]|].
    destruct (li_state _ _ _ _ Hl); [done|congruence].
Qed.
End Transactions.

(** ** Requests that interleave *)

Definition dworld_ok (w : dworld) : Prop := dstate_ok (dw_db w).
Definition dworld_le (w w' : dworld) : Prop := dle (dw_db w) (dw_db w').

#[export] Instance dworld_le_preorder : PreOrder dworld_le.
Proof. split; [intros w; apply dle_preorder|]. intros a b c Hab Hbc. unfold dworld_le in *. by etrans. Qed.

(** Weakest preconditions of rotation programs. *)
Abbreviation dwp := (Programs.wp dexec dworld_ok dworld_le).
Abbreviation dwp_ret := (Programs.wp_ret dexec dworld_ok dworld_le).
Abbreviation dwp_bind := (Programs.wp_bind dexec dworld_ok dworld_le).
Abbreviation dwp_trigger := (Programs.wp_trigger dexec dworld_ok dworld_le).
Abbreviation dwp_mono := (Programs.wp_mono dexec dworld_ok dworld_le).

Section System.
Context `{Primitives} `{UUIDText} `{Protobuf} `{TimestampColumn} `{PL : ProtectorLaws}
  `{NetURL} `{Ed25519} `{Unicode}.

Implicit Types (w : dworld) (command : RotateDeviceTokenCommand).

Definition proof_input (svc : device_service) command (challenge : Digest) (familyID : UUID) :
  DeviceRotationProofInput :=
  MkRotationProofInput deviceRotationProtocolVersion challenge familyID rotateDeviceTokenOperation
    (sv_PublicBaseURL svc) (rc_RequestNonce command).

(** What a request promises about the tokens it returns: they are the stored
    response of its idempotency record, or they follow the presented token and
    their device proved the possession of its key for this request. *)
Definition rotation_post (svc : device_service) command (r : result device_err DeviceTokens) w : Prop :=
  forall t, r = Ok t ->
    replay_backed command t (dw_db w) \/
    exists key challenge,
      issued_from (DigestToken DeviceRefreshToken (rc_RefreshToken command)) key t (dw_db w) /\
      ed25519_Verify key (DeviceRotationProofBytes (proof_input svc command challenge (tk_FamilyID t)))
        (rc_Signature command) = true.

(** What an attempt at a transaction leaves. *)
Definition attempt_post (body : dtx rotation_result) (Q : rotation_result -> dstate -> Prop)
  (r : result device_err rotation_result) w : Prop :=
  match r with
  | Ok a => Q a (dw_db w)
  | Err e => plain e \/ exists s, dstate_ok s /\ dle s (dw_db w) /\ fails body s e
  end.

Lemma dwp_tx body (Q : rotation_result -> dstate -> Prop) w :
  (forall s a s', dstate_ok s -> runs body s a s' -> dstate_ok s' /\ dle s s' /\ Q a s') ->
  (forall a s s', Q a s -> dle s s' -> Q a s') ->
  dwp (trigger (CallTx body)) (attempt_post body Q) w.
Proof.
  intros Hbody Hup. apply dwp_trigger. intros w1 ch r w2 _ Hok He. cbn in He.
  destruct (WithinTransaction _ _ _ _ _) as [r0 db] eqn:Hw. simplify_eq.
  apply WithinTransaction_cases in Hw. unfold dworld_ok, dworld_le in *. cbn [dw_db].
  destruct r as [a|e].
  - destruct (Hbody _ _ _ Hok Hw) as (? & ? & HQ). split_and!; try done. intros w3 Hle _. cbn. by eapply Hup.
  - destruct Hw as [(-> & Hw)|(-> & a & Hr)].
    + split_and!; [done|done|]. intros w3 Hle _. cbn. destruct Hw as [->|Hw]; [by left|right].
      exists (dw_db w1). done.
    + destruct (Hbody _ _ _ Hok Hr) as (? & ? & _). split_and!; try done. intros w3 _ _. by left.
Qed.

Lemma attempt_post_up body Q r w w' :
  (forall a s s', Q a s -> dle s s' -> Q a s') -> attempt_post body Q r w -> dworld_le w w' ->
  attempt_post body Q r w'.
Proof.
  intros Hup. destruct r as [a|e]; cbn; [by eauto|]. intros [?|(s & ? & ? & ?)] Hle; [by left|right].
  exists s. split_and!; [done| |done]. by etrans.
Qed.

(** Both attempts together. *)
Lemma dwp_within body (Q : rotation_result -> dstate -> Prop) w :
  (forall s a s', dstate_ok s -> runs body s a s' -> dstate_ok s' /\ dle s s' /\ Q a s') ->
  (forall a s s', Q a s -> dle s s' -> Q a s') ->
  dwp (withinDeviceRotationTransaction body) (attempt_post body Q) w.
Proof.
  intros Hbody Hup. unfold withinDeviceRotationTransaction.
  eapply dwp_bind; [by apply (dwp_tx body Q)|]. intros r1 w1 _ _ Hr1.
  assert (forall r, attempt_post body Q r w1 -> dwp (Ret r) (attempt_post body Q) w1) as Hret.
  { intros r Hr. apply dwp_ret. intros w2 Hle _. by eapply attempt_post_up. }
  destruct r1 as [a|[]]; try by apply Hret.
  eapply dwp_bind; [by apply (dwp_tx body Q)|]. intros r2 w2 _ _ Hr2.
  assert (forall r, attempt_post body Q r w2 -> dwp (Ret r) (attempt_post body Q) w2) as Hret2.
  { intros r Hr. apply dwp_ret. intros w3 Hle _. by eapply attempt_post_up. }
  destruct r2 as [a|[]]; try by apply Hret2. apply Hret2. by left.
Qed.

Lemma reclassify_wp svc command digest canonical now ambiguous w :
  dwp (reclassifyDeviceRotationAfterChallengeFailure svc command digest canonical now ambiguous)
    (rotation_post svc command) w.
Proof using PL.
  unfold reclassifyDeviceRotationAfterChallengeFailure.
  eapply dwp_bind.
  { apply (dwp_within _ (fun r s => forall t, r = ResolvedTokens t -> replay_backed command t s)).
    - intros s a s' Hok Hr. by apply reclassify_runs in Hr as (? & ? & ?).
    - intros a s s' Hq Hle t Ht. by eapply replay_backed_up; [apply Hq|]. }
  intros r w1 _ _ Hr. apply dwp_ret. intros w2 Hle _ t Ht. left.
  destruct r as [[|t0]|[]]; simplify_eq. eapply replay_backed_up; [by apply Hr|done].
Qed.

Lemma rotation_wp svc command w : dwp (RotateDeviceToken svc command) (rotation_post svc command) w.
Proof using PL.
  assert (forall e w, dwp (Ret (Err e)) (rotation_post svc command) w) as Herr.
  { intros e w0. apply dwp_ret. intros w1 _ _ t Ht. done. }
  unfold RotateDeviceToken. case_match; [apply Herr|]. case_match; [apply Herr|].
  destruct (privateRotationBinding _ _ _) as [canonical|]; [|apply Herr].
  eapply dwp_bind; [apply (dwp_trigger CallNow (fun _ _ => True))|].
  { intros w1 ch x w2 _ Hok He. cbn in He. simplify_eq. by split_and!. }
  intros clock w1 _ _ _. destruct (valid_now clock) as [now|]; [|apply Herr].
  eapply dwp_bind.
  { apply (dwp_within _ (fun r s => forall t, r = ResolvedTokens t -> replay_backed command t s)).
    - intros s a s' Hok Hr. by apply preflight_runs in Hr as (? & ? & ?).
    - intros a s s' Hq Hle t Ht. by eapply replay_backed_up; [apply Hq|]. }
  intros pre w2 _ _ Hpre. destruct pre as [[|t0]|[| | | | | |authority|]]; try apply Herr.
  { apply dwp_ret. intros w3 Hle _ t [= <-]. left. eapply replay_backed_up; [by apply Hpre|done]. }
  destruct (rotationContextDigest _ _ _) as [contextDigest|]; [|apply Herr].
  eapply dwp_bind; [apply (dwp_trigger (CallConsume _ _ _) (fun _ _ => True))|].
  { intros w3 ch x w4 _ Hok He. cbn in He. destruct (ChallengeConsume _ _ _ _ _). simplify_eq.
    split_and!; [exact Hok|unfold dworld_le; cbn; reflexivity|done]. }
  intros consumed w3 _ _ _. destruct consumed as [record|err]; [|apply reclassify_wp].
  case_match; [apply Herr|]. case_match; [apply Herr|].
  eapply dwp_bind.
  { apply (dwp_within _ (fun r s => forall t, r = ResolvedTokens t -> replay_backed command t s \/
      issued_from (DigestToken DeviceRefreshToken (rc_RefreshToken command)) (dv_SigningPublicKey (ra_device authority)) t s /\
      tk_FamilyID t = disc_FamilyID (ra_discovered authority))).
    - intros s a s' Hok Hr. by apply final_runs in Hr as (? & ? & ?).
    - intros a s s' Hq Hle t Ht. destruct (Hq t Ht) as [?|(? & ?)]; [left; by eapply replay_backed_up|right].
      split; [by eapply issued_from_up|done]. }
  intros final w4 _ _ Hfinal. apply dwp_ret. intros w5 Hle _ t Ht.
  destruct final as [[|t0]|e]; simplify_eq.
  destruct (Hfinal t eq_refl) as [Hrep|(Hiss & Hfam)]; [left; by eapply replay_backed_up|right].
  exists (dv_SigningPublicKey (ra_device authority)), (cg_Challenge record).
  split; [by eapply issued_from_up|]. unfold rotation_proof_valid, challenge_fits in *. bool_props.
  unfold proof_input. rewrite Hfam. congruence.
Qed.

(** A request and its program. *)
Definition request (svc : device_service) command : (device_service * RotateDeviceTokenCommand) *
  prog dcall (result device_err DeviceTokens) := ((svc, command), RotateDeviceToken svc command).

Definition request_post (q : device_service * RotateDeviceTokenCommand) := rotation_post q.1 q.2.

Lemma pool_runs requests w pool w' :
  dstate_ok (dw_db w) -> rtc (pool_step dexec) (map (fun q => request q.1 q.2) requests, w) (pool, w') ->
  pool_ok dexec dworld_ok dworld_le request_post (pool, w') /\ dworld_le w w'.
Proof using PL.
  intros Hok Hsteps.
  eapply (rtc_keeps _ (fun st => pool_ok dexec dworld_ok dworld_le request_post st /\ dworld_le w st.2))
    in Hsteps; [exact Hsteps| |].
  - intros st st' Hst (Hp & Hle). destruct (pool_step_ok _ _ _ _ _ _ Hst Hp) as [? ?]. split; [done|by etrans].
  - split; [|done]. split; [done|]. apply Forall_map, Forall_forall. intros [svc command] _. apply rotation_wp.
Qed.
End System.
