(* ===== verification/DeviceSamples.v ===== *)
(** Concrete libraries, tables and requests for the witnesses of the device token
    theorems. *)
From Stdlib Require Import ZArith Lia Strings.Byte.
From stdpp Require Import base gmap list strings numbers option.
From S2P Require Import Prelude GoStd GoTime AuthorityTypes Ledger Samples FenceStore Programs Transactions GoCrypto Text Sensitive Idempotency IdempotencyTheorems Tokens GoJson StrictJson Descriptors Events Outbox DeviceRows DeviceChallenge DeviceRotate DeviceSafety.

#[local] Open Scope go_scope.

(** ** Libraries *)
#[export] Existing Instance sample_text_lib.
#[export] Existing Instance sample_text_laws.

Definition device_uuid : UUIDText := sample_uuid_text.
#[export] Existing Instance device_uuid.

(** A lookup digest that binds the request, and the cipher of the idempotency
    samples. *)
Definition device_protector : Protector := {|
  entropy := unit;
  protector_LookupDigest _ m := sample_sum m;
  protector_Encrypt _ _ p :=
    match p with [] => Err SensitiveInvalidArgument | _ => Ok (MkEncryptedField 1 (repeat x00 28 ++ p)) end;
  protector_Decrypt _ f := Ok (drop 28 (ef_Ciphertext f)) |}.
#[export] Existing Instance device_protector.

#[export] Instance device_protector_laws : @ProtectorLaws device_protector.
Proof.
  split; intros n d [|b p] f He; cbn in He; try done; injection He as <-.
  - cbn. done.
  - cbn. lia.
  - unfold len. cbn. lia.
Qed.

#[export] Instance device_column : TimestampColumn := {| column_time t := Truncate t Microsecond |}.

#[export] Instance device_unicode : Unicode :=
  {| letter_table _ := false; digit_table _ := false; fold_table _ _ := false |}.

(** Payloads as the two texts of an event and its version. *)
#[export] Instance device_protobuf : Protobuf := {|
  proto_Marshal e := Some (ev_Payload e);
  proto_Unmarshal _ := None;
  proto_MarshalPayload m :=
    match ms_payload m with
    | DeviceTokenFamilyCompromised a f v => Some (a ++ f ++ be_bytes 8 v)
    | _ => None
    end;
  proto_UnmarshalPayload k b :=
    Some (MkMessage (DeviceTokenFamilyCompromised (take 36 b) (take 36 (drop 36 b)) (be_value (drop 72 b))) false);
  timestamp_IsValid _ := true;
  timestamp_AsTime t := Time (unix_epoch_nanos + ts_seconds t * Second + ts_nanos t) true |}.

Definition device_origin : bytes := sbytes "https://api.example".

#[export] Instance device_url : NetURL := {|
  url_ParseRequestURI v :=
    if v == device_origin
    then Some (MkURL (sbytes "https") (sbytes "api.example") (sbytes "api.example") false [] [] [] false [] [] [] v)
    else None;
  ip_IsLoopback _ := false;
  is_localhost h := h == sbytes "localhost";
  to_lower h := h |}.

(** A signature is the key and the digest of the message. *)
Definition sample_sign (key message : bytes) : bytes := key ++ sample_sum message.
#[export] Instance device_ed25519 : Ed25519 := {| ed25519_Verify key message signature := signature == sample_sign key message |}.

(** ** Tables *)

Definition sample_uuid (n : Z) : UUID := repeat x02 15 ++ [byte_of_Z n].
Definition sample_family : UUID := sample_uuid 1.
Definition sample_authorization : UUID := sample_uuid 2.
Definition sample_device : UUID := sample_uuid 3.
Definition sample_principal : UUID := sample_uuid 4.
Definition sample_today : time := Date 2024 3 1 12 0 0 0.
Definition sample_key : bytes := repeat x0b 32.
Definition sample_refresh : bytes := repeat x07 32.
Definition sample_refresh_digest : Digest := DigestToken DeviceRefreshToken sample_refresh.

Definition sample_token_row (state : string) : RefreshRow :=
  MkRefreshRow sample_refresh_digest sample_family None state (Date 2024 2 28 0 0 0 0) None None.
Definition sample_family_row (state : string) : FamilyRow :=
  MkFamilyRow sample_family sample_authorization state 1 (repeat x0c 32) (Date 2024 3 1 12 5 0 0)
    (Date 2024 3 20 0 0 0 0) (Date 2024 5 1 0 0 0 0) (Date 2024 2 1 0 0 0 0) (Date 2024 2 28 0 0 0 0).
Definition sample_authorization_row : AuthorizationRow :=
  MkAuthorizationRow sample_authorization sample_principal sample_device "active" 1 None
    (Date 2024 2 1 0 0 0 0) (Date 2024 2 1 0 0 0 0).
Definition sample_device_row : DeviceRow :=
  MkDeviceRow sample_device sample_principal None None sample_key (repeat x0d 32) 1 "active"
    (Date 2024 2 1 0 0 0 0) (Date 2024 2 1 0 0 0 0).
Definition sample_account_row : AccountRow :=
  MkAccountRow sample_principal "active" 1 (sbytes "en") (Date 2024 2 1 0 0 0 0) (Date 2024 2 1 0 0 0 0).

(** One device with one refresh token. *)
Definition sample_dstate (token_state family_state : string) : dstate :=
  MkDState {[ sample_refresh_digest := sample_token_row token_state ]} {[ sample_family := sample_family_row family_state ]}
    {[ sample_authorization := sample_authorization_row ]} {[ sample_device := sample_device_row ]}
    {[ sample_principal := sample_account_row ]} ∅ (MkIState ∅ []) ∅.

Lemma sample_dstate_ok token_state family_state :
  (token_state = "active" -> family_state = "active")%string -> dstate_ok (sample_dstate token_state family_state).
Proof.
  intros Hlive. constructor; cbn [ds_tokens ds_families sample_dstate]; intros;
    repeat match goal with Hl : {[_ := _]} !! _ = Some _ |- _ => apply lookup_singleton_Some in Hl as [? ?]; subst end;
    cbn in *; try done; auto; by eexists.
Qed.

(** ** Requests *)

Definition sample_service : device_service := MkDeviceService device_origin false.
Definition sample_nonce : Digest := repeat x0e 32.
Definition sample_challenge_id : bytes := uuid_String (sample_uuid 5).

Definition sample_proof : bytes :=
  DeviceRotationProofBytes (MkRotationProofInput deviceRotationProtocolVersion (repeat x0f 32) sample_family
    rotateDeviceTokenOperation device_origin sample_nonce).

Definition sample_command : RotateDeviceTokenCommand :=
  MkRotateCommand sample_refresh sample_challenge_id sample_nonce (sample_sign sample_key sample_proof)
    (repeat "k"%byte 22).

Definition sample_challenge : ChallengeRecord :=
  MkChallengeRecord sample_challenge_id ChallengeRotation deviceRotationProtocolVersion rotateDeviceTokenOperation
    (repeat x0f 32) sample_refresh_digest
    (default zero_digest (rotationContextDigest sample_family sample_nonce device_origin))
    (time_Add sample_today Minute).

Definition sample_redis_env : redis_env := MkRedisEnv RedisRuns false CtxLive CtxLive (Some sample_today).

Definition sample_redis : redis := (ChallengeCreate sample_redis_env sample_challenge Minute ∅).2.

(** Every statement succeeds and sees everything; every draw differs. *)
Definition sample_oracle (n : nat) : choice :=
  MkChoice false (fun _ => true) calm (tt : @entropy device_protector)
    (fun _ target => (repeat (byte_of_Z (Z.of_nat n + 1)) (length target), len target, false)).

Definition sample_dchoice : dchoice := MkDChoice (Some sample_today) CommitOk sample_oracle sample_redis_env.
Definition sample_dworld : dworld := MkDWorld (sample_dstate "active" "active") sample_redis.

Abbreviation sample_rotation :=
  (run dexec (RotateDeviceToken sample_service sample_command) (repeat sample_dchoice 6) sample_dworld).

Definition no_tokens : DeviceTokens := MkDeviceTokens [] [] [] [] [] sample_today sample_today sample_today.
Definition sample_tokens : DeviceTokens := match sample_rotation with Some (Ok t, _) => t | _ => no_tokens end.
Definition sample_dworld2 : dworld := match sample_rotation with Some (_, w) => w | None => sample_dworld end.

(** The same request again. *)
Abbreviation sample_replay :=
  (run dexec (RotateDeviceToken sample_service sample_command) (repeat sample_dchoice 6) sample_dworld2).
Definition sample_dworld3 : dworld := match sample_replay with Some (_, w) => w | None => sample_dworld end.
Definition sample_tokens_again : DeviceTokens := match sample_replay with Some (Ok t, _) => t | _ => no_tokens end.

Example sample_rotation_ok :
  match sample_rotation with Some (Ok t, _) => tk_FamilyID t == sample_family | _ => false end = true.
Proof. vm_compute. reflexivity. Qed.

Example sample_replay_ok :
  match sample_replay with
  | Some (Ok t, _) => (tk_RefreshToken t == tk_RefreshToken sample_tokens) &&
                      time_Equal (tk_AccessExpiresAt t) (tk_AccessExpiresAt sample_tokens)
  | _ => false
  end = true.
Proof. vm_compute. reflexivity. Qed.

Lemma sample_rotation_done : sample_rotation = Some (Ok sample_tokens, sample_dworld2).
Proof.
  pose proof sample_rotation_ok as Hok. unfold sample_tokens, sample_dworld2.
  destruct sample_rotation as [[[t|e] w]|]; done.
Qed.

Lemma sample_replay_done : sample_replay = Some (Ok sample_tokens_again, sample_dworld3).
Proof.
  pose proof sample_replay_ok as Hok. unfold sample_tokens_again, sample_dworld3.
  destruct sample_replay as [[[t|e] w]|]; done.
Qed.

(** A request for a family that was compromised. *)
Definition sample_dead_world : dworld := MkDWorld (sample_dstate "revoked" "compromised") sample_redis.
Abbreviation sample_refused :=
  (run dexec (RotateDeviceToken sample_service sample_command) (repeat sample_dchoice 6) sample_dead_world).
Definition sample_dead_world2 : dworld := match sample_refused with Some (_, w) => w | None => sample_dead_world end.

Lemma sample_refused_done : sample_refused = Some (Err DeviceAuthenticationFailed, sample_dead_world2).
Proof.
  assert (match sample_refused with Some (Err DeviceAuthenticationFailed, _) => true | _ => false end = true) as Hr
    by (vm_compute; reflexivity).
  unfold sample_dead_world2. destruct sample_refused as [[[t|[]] w]|]; done.
Qed.

(** A used token presented again. *)
Abbreviation sample_reuse :=
  (preflight_tx sample_service sample_command sample_refresh_digest (repeat x01 32) sample_today sample_oracle 0%nat
    (sample_dstate "used" "active")).

Lemma sample_reuse_done : sample_reuse = (Ok ResolvedFailure, sample_reuse.1.2, sample_reuse.2).
Proof.
  assert (match sample_reuse with (Ok ResolvedFailure, _, _) => true | _ => false end = true) as Hr
    by (vm_compute; reflexivity).
  destruct sample_reuse as [[[[|t]|e] n] s]; done.
Qed.
