(* ===== verification/DeviceChallengeTheorems.v ===== *)
(** Properties of device challenges and of proof transcripts. *)
From Stdlib Require Import ZArith Lia Strings.Byte.
From stdpp Require Import base gmap list strings numbers option relations.
From S2P Require Import Prelude GoStd GoTime AuthorityTypes Ledger FenceStore GoCrypto Text Tokens DeviceChallenge.

#[local] Open Scope go_scope.

(** ** Times *)

(** The years the code accepts are far inside the range of [UnixNano]. *)
Lemma year_nanos t : 2020 <= Year t <= 2100 -> 0 < t_nanos t - unix_epoch_nanos < 2 ^ 63.
Proof.
  unfold Year. destruct (civil_of_days _) as [[y m] d] eqn:Hc. intros Hy.
  destruct (civil_inverse _ _ _ _ Hc) as (Hd & Hm & Hdd).
  assert (daysIn m y <= 31) by (unfold daysIn; repeat case_match; lia).
  assert (737000 <= t_nanos t / Day + epoch_days <= 768000) as Hdays.
  { rewrite <- Hd. unfold days_of_civil. destruct (m <=? 2); Z.to_euclidean_division_equations; lia. }
  pose proof (Z.div_mod (t_nanos t) Day ltac:(done)). pose proof (Z.mod_pos_bound (t_nanos t) Day ltac:(done)).
  unfold epoch_days, unix_epoch_nanos, Day, Hour, Minute, Second, Millisecond, Microsecond in *. lia.
Qed.

Section Wire.
Context `{Primitives} `{UUIDText}.

(** The types of the record's fields. *)
Definition typed_record (record : ChallengeRecord) : Prop :=
  len (cg_Challenge record) = 32 /\ len (cg_GrantDigest record) = 32 /\ len (cg_ContextDigest record) = 32 /\
  t_utc (cg_ExpiresAt record) = true.

Lemma validChallengeRecord_facts record : validChallengeRecord record = true ->
  validContract record = true /\ 0 < t_nanos (cg_ExpiresAt record) - unix_epoch_nanos < 2 ^ 63.
Proof. unfold validChallengeRecord. intros Hv. bool_props. split; [done|]. apply year_nanos. lia. Qed.

(** The strings of a contract fit their frames. *)
Lemma contract_lengths record : validContract record = true ->
  0 < len (cg_Kind record) <= maximumChallengeKindBytes /\
  0 < len (cg_ProtocolVersion record) <= maximumChallengeProtocolBytes /\
  0 < len (cg_Operation record) <= maximumChallengeOperationBytes.
Proof.
  unfold validContract. rewrite orb_true_iff. intros [Hc|Hc]; bool_props;
    repeat match goal with E : _ = _ :> bytes |- _ => rewrite E end; vm_compute; repeat split; congruence.
Qed.

Lemma decode_string_app a value c maximum :
  0 < len value <= maximum -> maximum < 65536 ->
  decodeChallengeRecordString (a ++ challenge_frame value ++ c) (len a) maximum =
    Some (value, len a + 2 + len value).
Proof.
  intros Hv Hm. unfold decodeChallengeRecordString, challenge_frame.
  assert (u16 (len value) = len value) as -> by (unfold u16; rewrite Z.mod_small; lia).
  assert (len (be_bytes 2 (len value)) = 2) as H2 by (unfold len; by rewrite be_bytes_length).
  rewrite <- app_assoc, !len_app, H2. pose proof (len_nonneg a). pose proof (len_nonneg c).
  rewrite (proj2 (Z.ltb_ge _ _)) by lia.
  rewrite (subslice_app a (be_bytes 2 (len value))) by lia.
  rewrite be_value_be_bytes, Z.mod_small by (change (256 ^ Z.of_nat 2) with 65536; lia).
  rewrite (proj2 (Z.eqb_neq _ _)), (proj2 (Z.ltb_ge _ _)), (proj2 (Z.ltb_ge _ _)) by lia. cbn [orb].
  rewrite (app_assoc a (be_bytes 2 _)). rewrite (subslice_app (a ++ be_bytes 2 (len value)) value c); [done|..];
    rewrite len_app, H2; lia.
Qed.

(** Decoding of a record given by its parts. *)
Lemma decode_parts id kind protocol operation c g x e :
  0 < len kind <= maximumChallengeKindBytes -> 0 < len protocol <= maximumChallengeProtocolBytes ->
  0 < len operation <= maximumChallengeOperationBytes ->
  len c = 32 -> len g = 32 -> len x = 32 -> len e = 8 ->
  decodeChallengeRecord id (challengeRecordPrefix ++ challenge_frame kind ++ challenge_frame protocol ++
    challenge_frame operation ++ c ++ g ++ x ++ e) =
  let record := MkChallengeRecord id kind protocol operation c g x
                  (Time (unix_epoch_nanos + i64 (be_value e)) true) in
  if negb (validChallengeRecord record) then Err ErrChallengeUnavailable else Ok record.
Proof.
  intros Hk Hp Ho Hc Hg Hx He. unfold decodeChallengeRecord.
  set (pre := challengeRecordPrefix). set (k := challenge_frame kind). set (p := challenge_frame protocol).
  set (o := challenge_frame operation). set (wire := pre ++ k ++ p ++ o ++ c ++ g ++ x ++ e).
  assert (forall v, len (challenge_frame v) = 2 + len v) as Hframe
    by (intros; unfold challenge_frame, len; rewrite length_app, be_bytes_length; lia).
  assert (len k = 2 + len kind /\ len p = 2 + len protocol /\ len o = 2 + len operation) as (Hlk & Hlp & Hlo)
    by (unfold k, p, o; rewrite !Hframe; done).
  assert (len wire = len pre + len k + len p + len o + 104) as Hlen by (unfold wire; rewrite !len_app; lia).
  rewrite (proj2 (Z.ltb_ge _ _)) by lia.
  assert (subslice wire 0 (len pre) = pre) as -> by (apply (subslice_app []); done).
  rewrite bool_decide_eq_true_2 by done. cbn [orb negb].
  assert (forall a v b m, 0 < len v <= m -> m <= 24 -> wire = a ++ challenge_frame v ++ b ->
    decodeChallengeRecordString wire (len a) m = Some (v, len a + 2 + len v)) as Hstr
    by (intros a v b m ? ? ->; apply decode_string_app; lia).
  rewrite (Hstr pre kind (p ++ o ++ c ++ g ++ x ++ e)) by done.
  replace (len pre + 2 + len kind) with (len (pre ++ k)) by (rewrite len_app; lia).
  rewrite (Hstr (pre ++ k) protocol (o ++ c ++ g ++ x ++ e)) by (done || by rewrite <- !app_assoc).
  replace (len (pre ++ k) + 2 + len protocol) with (len (pre ++ k ++ p)) by (rewrite !len_app; lia).
  rewrite (Hstr (pre ++ k ++ p) operation (c ++ g ++ x ++ e)) by (done || by rewrite <- !app_assoc).
  replace (len (pre ++ k ++ p) + 2 + len operation) with (len (pre ++ k ++ p ++ o)) by (rewrite !len_app; lia).
  rewrite (proj2 (Z.eqb_eq _ _)) by (rewrite Hlen, !len_app; lia). cbn [negb].
  set (n := len (pre ++ k ++ p ++ o)).
  assert (forall a v b i j, wire = a ++ v ++ b -> i = len a -> j = len a + len v -> subslice wire i j = v) as Hsub
    by (intros a v b i j -> ? ?; by apply subslice_app).
  rewrite (Hsub (pre ++ k ++ p ++ o) c (g ++ x ++ e) n (n + 32)) by (unfold n; (by rewrite <- !app_assoc) || lia).
  rewrite (Hsub (pre ++ k ++ p ++ o ++ c) g (x ++ e) (n + 32) (n + 64))
    by (unfold n; (by rewrite <- !app_assoc) || (rewrite !len_app; lia)).
  rewrite (Hsub (pre ++ k ++ p ++ o ++ c ++ g) x e (n + 64) (n + 96))
    by (unfold n; (by rewrite <- !app_assoc) || (rewrite !len_app; lia)).
  rewrite (Hsub (pre ++ k ++ p ++ o ++ c ++ g ++ x) e [] (n + 96) (n + 104))
    by (unfold n; (by rewrite app_nil_r, <- !app_assoc) || (rewrite !len_app; lia)).
  done.
Qed.

(** What a frame that was read looks like. *)
Lemma decode_string_inv wire offset maximum v next :
  decodeChallengeRecordString wire offset maximum = Some (v, next) -> 0 <= offset ->
  next = offset + 2 + len v /\ next <= len wire /\ 0 < len v <= maximum /\
  subslice wire offset next = challenge_frame v.
Proof.
  unfold decodeChallengeRecordString. intros Hd Ho. case_top Hd; [done|]. cbv zeta in Hd.
  case_top Hd; [done|]. bool_props. simplify_eq.
  set (head := subslice wire offset (offset + 2)) in *.
  assert (len head = 2) as Hl by (unfold head; rewrite subslice_length; lia).
  pose proof (be_value_range head) as Hr. rewrite Hl in Hr. change (256 ^ 2) with 65536 in Hr.
  rewrite subslice_length by lia. split_and!; try lia.
  rewrite (subslice_split wire offset (offset + 2)) by lia. unfold challenge_frame. f_equal.
  rewrite subslice_length by lia. fold head. replace (_ - _) with (be_value head) by lia.
  unfold u16. rewrite Z.mod_small by lia.
  replace 2%nat with (length head) by (unfold len in Hl; lia). by rewrite be_bytes_be_value.
Qed.

(** An [int64] restored from its bits. *)
Lemma unix_nano_restored e : len e = 8 ->
  be_bytes 8 (unix_nano_bits (Time (unix_epoch_nanos + i64 (be_value e)) true)) = e.
Proof.
  intros He. pose proof (be_value_range e) as Hr. rewrite He in Hr. change (256 ^ 8) with (2 ^ 64) in Hr.
  unfold unix_nano_bits. cbn [t_nanos].
  replace (unix_epoch_nanos + i64 (be_value e) - unix_epoch_nanos) with (i64 (be_value e)) by lia.
  rewrite (i64_id (i64 _)) by apply i64_range.
  replace (u64 (i64 (be_value e))) with (be_value e).
  - replace 8%nat with (length e) by (unfold len in He; lia). apply be_bytes_be_value.
  - unfold u64, i64. Z.to_euclidean_division_equations. lia.
Qed.

Lemma nanos_restored t : t_utc t = true -> 0 < t_nanos t - unix_epoch_nanos < 2 ^ 63 ->
  Time (unix_epoch_nanos + i64 (be_value (be_bytes 8 (unix_nano_bits t)))) true = t.
Proof.
  intros Hu Hn. unfold unix_nano_bits. rewrite be_value_be_bytes. change (256 ^ Z.of_nat 8) with (2 ^ 64).
  rewrite (i64_id (t_nanos t - unix_epoch_nanos)) by (unfold is_i64; lia).
  unfold u64. rewrite Z.mod_mod, Z.mod_small, i64_id by (unfold is_i64; lia).
  destruct t as [n u]. cbn in *. subst u. f_equal. lia.
Qed.

Lemma Ok_inv {E A} (a b : A) : Ok a = Ok b :> result E A -> a = b.
Proof. by injection 1. Qed.

Lemma challenge_wire id wire record :
  decodeChallengeRecord id wire = Ok record <->
  encodeChallengeRecord record = Ok wire /\ typed_record record /\ cg_ChallengeID record = id.
Proof.
  split.
  - intros Hd. unfold decodeChallengeRecord in Hd. cbv zeta in Hd. case_top Hd; [done|]. bool_props.
    destruct (decodeChallengeRecordString wire _ _) as [[kind n1]|] eqn:D1; [|done].
    destruct (decodeChallengeRecordString wire n1 _) as [[protocol n2]|] eqn:D2; [|done].
    destruct (decodeChallengeRecordString wire n2 _) as [[operation n3]|] eqn:D3; [|done].
    pose proof (len_nonneg challengeRecordPrefix) as Hp0. set (n0 := len challengeRecordPrefix) in *.
    apply decode_string_inv in D1 as (E1 & L1 & K1 & F1); [|done].
    apply decode_string_inv in D2 as (E2 & L2 & K2 & F2); [|lia].
    apply decode_string_inv in D3 as (E3 & L3 & K3 & F3); [|lia].
    case_top Hd; [done|]. case_top Hd; [done|]. apply Bool.negb_false_iff, Z.eqb_eq in Heqb.
    apply Bool.negb_false_iff in Heqb0. injection Hd as <-.
    split_and!; [|split_and!; cbn; try (rewrite subslice_length; lia); done|done].
    unfold encodeChallengeRecord. rewrite Heqb0. cbn [negb cg_Kind cg_ProtocolVersion cg_Operation cg_Challenge
      cg_GrantDigest cg_ContextDigest cg_ExpiresAt].
    rewrite unix_nano_restored by (rewrite subslice_length; lia). f_equal.
    match goal with Hpre : subslice wire 0 n0 = challengeRecordPrefix |- _ => rewrite <- Hpre end.
    rewrite <- F1, <- F2, <- F3.
    rewrite <- (subslice_split wire (n3 + 64)), <- (subslice_split wire (n3 + 32)),
      <- (subslice_split wire n3), <- (subslice_split wire n2), <- (subslice_split wire n1),
      <- (subslice_split wire n0), <- (subslice_split wire 0) by lia.
    replace (n3 + 104) with (len wire) by lia. apply subslice_all.
  - intros (He & (Hc & Hg & Hx & Hu) & <-). unfold encodeChallengeRecord in He. case_top He; [done|].
    apply Bool.negb_false_iff in Heqb. apply Ok_inv in He as <-. destruct (validChallengeRecord_facts record) as [Hcontract Hnanos]; [done|].
    destruct (contract_lengths record Hcontract) as (Hk & Hp & Ho).
    rewrite decode_parts by (done || (unfold len; by rewrite be_bytes_length)).
    rewrite nanos_restored by done. cbv zeta. destruct record. cbn in *. by rewrite Heqb.
Qed.

(** [challenge_wire_bijection]: the stored form of a challenge and the challenge
    determine each other: decoding inverts encoding, the only bytes that decode to
    a challenge are its encoding, and two challenges of one id with the same stored
    form are equal. *)
Theorem challenge_wire_bijection id wire :
  (forall record, decodeChallengeRecord id wire = Ok record <->
     encodeChallengeRecord record = Ok wire /\ typed_record record /\ cg_ChallengeID record = id) /\
  (forall record record', typed_record record -> typed_record record' ->
     cg_ChallengeID record = cg_ChallengeID record' ->
     encodeChallengeRecord record = Ok wire -> encodeChallengeRecord record' = Ok wire -> record = record').
Proof.
  split; [intros record; apply challenge_wire|]. intros record record' Ht Ht' Hid He He'.
  pose proof (proj2 (challenge_wire _ _ _) (conj He (conj Ht eq_refl))) as Hd.
  pose proof (proj2 (challenge_wire _ _ _) (conj He' (conj Ht' eq_refl))) as Hd'. rewrite Hid in Hd. congruence.
Qed.
End Wire.

(** ** The store *)
Section Store.
Context `{Primitives} `{UUIDText}.

Implicit Types (r : redis) (e : redis_env).

(** Operations of the store, as requests interleave them. *)
Inductive challenge_op :=
| OpCreate e (record : ChallengeRecord) (ttl : Z)
| OpConsume e (challengeID : bytes) (grantDigest contextDigest : Digest).

Definition challenge_run (op : challenge_op) r : redis :=
  match op with
  | OpCreate e record ttl => (ChallengeCreate e record ttl r).2
  | OpConsume e id grant context => (ChallengeConsume e id grant context r).2
  end.

(** The challenge an operation is about. *)
Definition op_id (op : challenge_op) : bytes :=
  match op with OpCreate _ record _ => cg_ChallengeID record | OpConsume _ id _ _ => id end.

Definition is_create (op : challenge_op) : bool := match op with OpCreate _ _ _ => true | _ => false end.

Definition challenge_key (id : bytes) : bytes := deviceChallengeRedisPrefix ++ id.

Lemma create_run e record ttl r :
  (ChallengeCreate e record ttl r).2 = r \/
  exists wire, encodeChallengeRecord record = Ok wire /\
    (ChallengeCreate e record ttl r).2 = <[challenge_key (cg_ChallengeID record) := wire]> r.
Proof. unfold ChallengeCreate. repeat (case_match; cbn [snd]; eauto). Qed.

Lemma consume_run e id grant context r :
  (ChallengeConsume e id grant context r).2 = r \/
  (ChallengeConsume e id grant context r).2 = delete (challenge_key id) r.
Proof. unfold ChallengeConsume. repeat (case_match; cbn [snd]; eauto). Qed.

(** An operation changes the key of its own challenge only, and only a creation
    sets one. *)
Lemma challenge_run_other op r id : op_id op <> id ->
  challenge_run op r !! challenge_key id = r !! challenge_key id.
Proof.
  intros Hne. assert (challenge_key (op_id op) <> challenge_key id) as Hk by (intros ?%app_inv_head; done).
  destruct op as [e record ttl|e id' grant context]; cbn [challenge_run op_id] in *.
  - destruct (create_run e record ttl r) as [->|(wire & _ & ->)]; [done|]. by apply lookup_insert_ne.
  - destruct (consume_run e id' grant context r) as [->| ->]; [done|]. by apply lookup_delete_ne.
Qed.

Lemma challenge_run_absent op r id : (is_create op = true -> op_id op <> id) ->
  r !! challenge_key id = None -> challenge_run op r !! challenge_key id = None.
Proof.
  intros Hop Hr. destruct (decide (op_id op = id)) as [<-|Hne]; [|by rewrite challenge_run_other].
  destruct op as [e record ttl|e id' grant context]; cbn in *; [by destruct Hop|].
  destruct (consume_run e id' grant context r) as [->| ->]; [done|apply lookup_delete_eq].
Qed.

Lemma challenge_runs_absent ops r id :
  Forall (fun op => is_create op = true -> op_id op <> id) ops -> r !! challenge_key id = None ->
  foldl (fun r op => challenge_run op r) r ops !! challenge_key id = None.
Proof.
  revert r. induction ops as [|op ops IH]; intros r Hops Hr; [done|]. inversion Hops; subst. cbn [foldl].
  apply IH; [done|]. by apply challenge_run_absent.
Qed.

(** A consumption that succeeds. *)
Lemma consume_ok e id grant context r record :
  (ChallengeConsume e id grant context r).1 = Ok record ->
  (ChallengeConsume e id grant context r).2 = delete (challenge_key id) r /\
  exists wire now, r !! challenge_key id = Some wire /\ decodeChallengeRecord id wire = Ok record /\
    re_clock e = Some now /\ re_expired e = false /\ After (cg_ExpiresAt record) now = true /\
    cg_GrantDigest record = grant /\ cg_ContextDigest record = context.
Proof.
  unfold ChallengeConsume, challengeDigestsMatch, challenge_key. intros Hc.
  repeat (case_match; cbn [fst snd] in *; try done); bool_props; split; simplify_eq; eauto 12.
Qed.

(** C39 (challenge_single_use): a challenge that was handed out was stored, unexpired
    at the store's clock and bound to the digests the caller gave; and whatever
    other operations run on the store, as long as none of them creates a challenge
    of the same id, no other consumption of it succeeds. *)
Theorem challenge_single_use e id grant context r record ops e' grant' context' :
  (ChallengeConsume e id grant context r).1 = Ok record ->
  Forall (fun op => is_create op = true -> op_id op <> id) ops ->
  (exists now, re_clock e = Some now /\ After (cg_ExpiresAt record) now = true) /\
  cg_GrantDigest record = grant /\ cg_ContextDigest record = context /\
  (exists wire, r !! (deviceChallengeRedisPrefix ++ id) = Some wire /\ encodeChallengeRecord record = Ok wire) /\
  forall record', (ChallengeConsume e' id grant' context'
    (foldl (fun r op => challenge_run op r) (ChallengeConsume e id grant context r).2 ops)).1 <> Ok record'.
Proof.
  intros Hc Hops. destruct (consume_ok _ _ _ _ _ _ Hc) as (Hr & wire & now & Hw & Hd & Hclock & _ & Ha & Hg & Hx).
  apply challenge_wire in Hd as (He & _). split_and!; eauto.
  intros record' Hc'. apply consume_ok in Hc' as (_ & wire' & _ & Hw' & _). rewrite challenge_runs_absent in Hw'; [done|done|].
  rewrite Hr. apply lookup_delete_eq.
Qed.

(** [challenge_create_consume]: a challenge that was created is handed out
    unchanged to the first consumption that names its digests before it expires,
    whatever operations on other challenges run in between. *)
Theorem challenge_create_consume e record ttl r ops e' now :
  (ChallengeCreate e record ttl r).1 = None -> typed_record record ->
  Forall (fun op => op_id op <> cg_ChallengeID record) ops ->
  re_fate e' = RedisRuns -> re_before e' = CtxLive -> re_after e' = CtxLive -> re_expired e' = false ->
  re_clock e' = Some now -> IsZero now = false -> After (cg_ExpiresAt record) now = true ->
  (ChallengeConsume e' (cg_ChallengeID record) (cg_GrantDigest record) (cg_ContextDigest record)
    (foldl (fun r op => challenge_run op r) (ChallengeCreate e record ttl r).2 ops)).1 = Ok record.
Proof.
  intros Hc Htyped Hops Hf Hb Ha He Hclock Hz Hafter.
  assert (exists wire, encodeChallengeRecord record = Ok wire /\
    (ChallengeCreate e record ttl r).2 !! challenge_key (cg_ChallengeID record) = Some wire) as (wire & Henc & Hw).
  { unfold ChallengeCreate, challenge_key in *. repeat (case_match; cbn [fst snd] in *; try done).
    eexists. split; [done|]. apply lookup_insert_eq. }
  assert (foldl (fun r op => challenge_run op r) (ChallengeCreate e record ttl r).2 ops !!
    challenge_key (cg_ChallengeID record) = Some wire) as Hw'.
  { revert Hw. generalize (ChallengeCreate e record ttl r).2 as r0. induction Hops as [|op ops Hop _ IH]; [done|].
    intros r0 Hr0. cbn [foldl]. apply IH. by rewrite challenge_run_other. }
  assert (validChallengeRecord record = true) as Hv
    by (unfold encodeChallengeRecord in Henc; destruct (validChallengeRecord record); done).
  assert (decodeChallengeRecord (cg_ChallengeID record) wire = Ok record) as Hd
    by (apply challenge_wire; done).
  unfold validChallengeRecord in Hv. bool_props.
  assert (validChallengeID (cg_ChallengeID record) = true) as Hid.
  { unfold validChallengeID, validChallengeRecord. cbn [cg_ChallengeID].
    match goal with Hid : canonicalUUID _ = true |- _ => rewrite Hid end. vm_compute. done. }
  unfold ChallengeConsume, challengeDigestsMatch. rewrite Hf, Hb, Ha, He, Hid, Hclock, Hz.
  fold (challenge_key (cg_ChallengeID record)). rewrite Hw', Hd, Hafter. cbn.
  rewrite !bool_decide_eq_false_2 by done. rewrite !bool_decide_eq_true_2 by done. done.
Qed.
End Store.

(** ** Transcripts *)

Lemma frame_inj a b x y : len a < 2 ^ 32 -> len b < 2 ^ 32 -> frame a ++ x = frame b ++ y -> a = b /\ x = y.
Proof.
  intros Ha Hb He. unfold frame in He. rewrite <- !app_assoc in He.
  apply app_inj_same_length in He as [Hl He]; [|by rewrite !be_bytes_length].
  pose proof (len_nonneg a). pose proof (len_nonneg b).
  apply (f_equal be_value) in Hl. rewrite !be_value_be_bytes in Hl. change (256 ^ Z.of_nat 4) with (2 ^ 32) in Hl.
  unfold u32 in Hl. rewrite !Z.mod_mod, !Z.mod_small in Hl by lia.
  apply app_inj_same_length in He; [done|]. unfold len in Hl. lia.
Qed.

(** Arrays of Go types in the inputs. *)
Definition typed_rotation_proof (input : DeviceRotationProofInput) : Prop :=
  len (rp_Challenge input) = 32 /\ len (rp_FamilyID input) = 16 /\ len (rp_RequestNonce input) = 32.
Definition typed_proof (input : ProofInput) : Prop :=
  len (pi_Challenge input) = 32 /\ len (pi_GrantDigest input) = 32 /\ len (pi_SigningPublicKey input) = 32 /\
  len (pi_HPKEPublicKey input) = 32 /\ len (pi_RequestNonce input) = 32.

Lemma valid_proof_string_len value maximum : validProofString value maximum = true -> len value <= maximum.
Proof. unfold validProofString. intros ?. bool_props. lia. Qed.

Lemma prefixes_differ x y : deviceProofPrefix ++ x <> deviceRotationProofPrefix ++ y.
Proof. intros He. apply (f_equal (take 16)) in He. by vm_compute in He. Qed.

Ltac peel :=
  repeat match goal with
  | E : frame _ ++ _ = frame _ ++ _ |- _ => apply frame_inj in E as [? E]; [|lia..]
  | E : ?p ++ _ = ?p ++ _ |- _ => apply app_inv_head in E
  | E : ?a ++ _ = ?b ++ _ |- _ => apply app_inj_same_length in E as [? E]; [|unfold len in *; lia]
  end.

(** [transcripts_unambiguous]: a transcript determines the request it was made
    from: equal rotation transcripts come from equal inputs, equal registration
    transcripts from equal inputs, and no registration transcript is a rotation
    transcript, so a signature over one cannot be presented for another. *)
Theorem transcripts_unambiguous :
  (forall a b, typed_rotation_proof a -> typed_rotation_proof b -> DeviceRotationProofBytes a <> [] ->
     DeviceRotationProofBytes a = DeviceRotationProofBytes b -> a = b) /\
  (forall a b, typed_proof a -> typed_proof b -> ProofBytes a <> [] -> ProofBytes a = ProofBytes b -> a = b) /\
  (forall a b, ProofBytes a <> [] -> ProofBytes a <> DeviceRotationProofBytes b).
Proof.
  unfold DeviceRotationProofBytes, ProofBytes, typed_rotation_proof, typed_proof. split_and!.
  - intros a b (? & ? & ?) (? & ? & ?) Hne He. case_match; [done|]. case_match; [done|]. bool_props.
    repeat match goal with Hv : validProofString _ _ = true |- _ => apply valid_proof_string_len in Hv end.
    unfold maximumProofNameBytes, maximumProofAudienceBytes in *. peel. destruct a, b; cbn in *; congruence.
  - intros a b (? & ? & ? & ? & ?) (? & ? & ? & ? & ?) Hne He. case_match; [done|]. case_match; [done|]. bool_props.
    repeat match goal with Hv : validProofString _ _ = true |- _ => apply valid_proof_string_len in Hv end.
    unfold maximumProofNameBytes, maximumProofAudienceBytes in *. peel. destruct a, b; cbn in *; congruence.
  - intros a b Hne. case_match; [done|]. case_match; [done|]. apply prefixes_differ.
Qed.

(** ** Witnesses *)
From S2P Require Import DeviceSamples.

Abbreviation sample_created := (ChallengeCreate sample_redis_env sample_challenge Minute ∅).
Abbreviation sample_consumed :=
  (ChallengeConsume sample_redis_env sample_challenge_id (cg_GrantDigest sample_challenge)
     (cg_ContextDigest sample_challenge) sample_created.2).

(** Another client guesses in between. *)
Definition sample_ops : list challenge_op :=
  [OpConsume sample_redis_env (uuid_String (sample_uuid 6)) sample_refresh_digest sample_nonce].

Lemma sample_challenge_typed : typed_record sample_challenge.
Proof. vm_compute. repeat split. Qed.

Lemma sample_ops_other : Forall (fun op => op_id op <> cg_ChallengeID sample_challenge) sample_ops.
Proof. repeat constructor. vm_compute. discriminate. Qed.

Lemma challenge_create_consume_witness :
  (ChallengeConsume sample_redis_env (cg_ChallengeID sample_challenge) (cg_GrantDigest sample_challenge)
    (cg_ContextDigest sample_challenge) (foldl (fun r op => challenge_run op r) sample_created.2 sample_ops)).1 =
  Ok sample_challenge.
Proof.
  apply (challenge_create_consume sample_redis_env sample_challenge Minute ∅ sample_ops sample_redis_env sample_today).
  - vm_compute. reflexivity.
  - exact sample_challenge_typed.
  - exact sample_ops_other.
  - reflexivity.
  - reflexivity.
  - reflexivity.
  - reflexivity.
  - reflexivity.
  - vm_compute. reflexivity.
  - vm_compute. reflexivity.
Defined.

Abbreviation sample_consumed_again :=
  (ChallengeConsume sample_redis_env sample_challenge_id (cg_GrantDigest sample_challenge)
     (cg_ContextDigest sample_challenge) (foldl (fun r op => challenge_run op r) sample_consumed.2 sample_ops)).

Lemma challenge_single_use_witness : match sample_consumed_again.1 with Ok _ => False | Err _ => True end.
Proof.
  assert (match sample_consumed.1 with Ok _ => true | Err _ => false end = true) as Hc by (vm_compute; reflexivity).
  destruct sample_consumed.1 as [record|e] eqn:E; [|discriminate Hc].
  destruct (challenge_single_use sample_redis_env sample_challenge_id (cg_GrantDigest sample_challenge)
              (cg_ContextDigest sample_challenge) sample_created.2 record sample_ops sample_redis_env
              (cg_GrantDigest sample_challenge) (cg_ContextDigest sample_challenge) E) as (_ & _ & _ & _ & Hn).
  - repeat constructor. vm_compute. discriminate.
  - destruct sample_consumed_again.1 as [record'|e]; [exact (Hn record' eq_refl)|exact I].
Defined.
