(* ===== verification/DeviceTheorems.v ===== *)
(** The stored response of a rotation and the expiries of new tokens.

    Properties of the rotation of device tokens. *)
From Stdlib Require Import ZArith Lia Strings.Byte.
From stdpp Require Import base gmap list strings numbers option relations.
From S2P Require Import Prelude GoStd GoTime AuthorityTypes Ledger FenceStore Programs Transactions GoCrypto Text Sensitive Idempotency IdempotencyTheorems Tokens GoJson StrictJson StrictJsonTheorems Descriptors Events Outbox DeviceRows DeviceChallenge DeviceRotate DeviceSafety DeviceSystem.

#[local] Open Scope go_scope.

(** ** The response *)
Section Replay.
Context `{Primitives} `{UUIDText} `{!UUIDTextLaws} `{Unicode}.

Definition fresh_tokens (t : DeviceTokens) : Prop :=
  Forall (fun id => len id = 16 /\ id <> uuid_Nil) [tk_DeviceID t; tk_AuthorizationID t; tk_FamilyID t] /\
  Forall (fun token => len token = 32) [tk_AccessToken t; tk_RefreshToken t] /\
  Forall (fun at_ => t_utc at_ = true /\ 0 <= Year at_ <= 9999)
    [tk_AccessExpiresAt t; tk_RefreshIdleExpiresAt t; tk_RefreshAbsoluteExpiresAt t] /\
  Before (tk_AccessExpiresAt t) (tk_RefreshIdleExpiresAt t) = true /\
  Before (tk_RefreshIdleExpiresAt t) (tk_RefreshAbsoluteExpiresAt t) = true.

Lemma uuid_byte_plain c : uuid_byte c = true -> plain_byte c = true.
Proof. by destruct c. Qed.

Lemma uuid_plain u : len u = 16 -> plain_text (uuid_String u).
Proof.
  intros Hu. eapply List.Forall_impl; [|by apply uuid_String_chars]. exact uuid_byte_plain.
Qed.

Lemma parse_canonical_String u : len u = 16 -> u <> uuid_Nil -> parse_canonical (uuid_String u) = Some u.
Proof.
  intros Hu Hne. unfold parse_canonical. rewrite uuid_Parse_String by done.
  by rewrite bool_decide_eq_false_2, bool_decide_eq_true_2.
Qed.

Lemma token_text_back raw : len raw = 32 -> DecodeOpaqueToken (b64_EncodeToString raw) = Ok raw.
Proof.
  intros Hr. unfold DecodeOpaqueToken.
  assert (len (b64_EncodeToString raw) = 43) as ->
    by (unfold b64_EncodeToString, len; rewrite length_map; fold (len (sextets raw)); rewrite sextets_length, Hr; done).
  rewrite b64_roundtrip, Hr. cbn. by rewrite bool_decide_eq_true_2.
Qed.

Lemma time_back t : t_utc t = true -> 0 <= Year t <= 9999 -> ParseRFC3339Nano (FormatRFC3339Nano t) = Some t.
Proof. intros Hu Hy. rewrite time_text_roundtrip by done. destruct t. cbn in *. by subst. Qed.

(** The size of a struct of plain strings. *)
Lemma struct_size names values :
  Forall (fun n => plain_text n) names -> Forall (fun v => plain_text v) values -> length names = length values ->
  len (json_Marshal (string_struct names values)) <=
    2 + foldr (fun n acc => len n + 6 + acc) 0 names + foldr (fun v acc => len v + acc) 0 values.
Proof.
  intros Hn Hv Hl. unfold string_struct. cbn [json_Marshal]. rewrite !len_app. change (len [x7b]) with 1.
  change (len [x7d]) with 1. match goal with |- context [join_comma ?l] => set (parts := l) end.
  assert (len (join_comma parts) <= foldr (fun n acc => len n + 6 + acc) 0 names +
    foldr (fun v acc => len v + acc) 0 values) as Hj; [|lia].
  subst parts. revert values Hv Hl. induction Hn as [|n names Hn _ IH]; intros [|v values] Hv Hl; try done.
  inversion Hv as [|? ? Hv1 Hv2]; subst. specialize (IH values Hv2 ltac:(cbn in Hl; lia)).
  cbn [zip zip_with map foldr]. match type of IH with len (join_comma ?l) <= _ => set (parts := l) in * end.
  change (zip_with pair names (map JStr values)) with (zip names (map JStr values)). fold parts.
  assert (len (json_string n ++ [x3a] ++ json_Marshal (JStr v)) = len n + len v + 5) as Hp.
  { rewrite !len_app. cbn [json_Marshal]. rewrite !plain_json_len by done. change (len [x3a]) with 1. lia. }
  destruct parts as [|p parts]; cbn [join_comma] in *.
  - rewrite Hp. unfold len at 1 in IH. cbn in IH. lia.
  - rewrite len_app, Hp, len_app. change (len [x2c]) with 1. lia.
Qed.

Lemma replay_names_distinct : NoDup replay_names.
Proof. apply (bool_decide_eq_true_1 (NoDup replay_names)). by vm_compute. Qed.

Lemma replay_names_tags : Forall tag_name replay_names.
Proof. repeat constructor; done. Qed.

(** [device_replay_roundtrip]: the response a rotation stores fits the limit of
    the decoder and gives back the tokens that were issued: a replayed request gets
    what the first one got. *)
Theorem device_replay_roundtrip tokens : fresh_tokens tokens ->
  exists body, encodeDeviceTokens tokens = Some body /\ len body <= 2048 /\ tokens_of_body body = Some tokens.
Proof.
  destruct tokens as [d a f access refresh at1 at2 at3]. unfold fresh_tokens.
  cbn [tk_DeviceID tk_AuthorizationID tk_FamilyID tk_AccessToken tk_RefreshToken tk_AccessExpiresAt
    tk_RefreshIdleExpiresAt tk_RefreshAbsoluteExpiresAt]. rewrite !Forall_cons_iff.
  intros (([Hd Hd0] & [Ha Ha0] & [Hf Hf0] & _) & (Hat & Hrt & _) & ([U1 Y1] & [U2 Y2] & [U3 Y3] & _) & B1 & B2).
  set (values := [uuid_String d; uuid_String a; uuid_String f; b64_EncodeToString access;
    b64_EncodeToString refresh; FormatRFC3339Nano at1; FormatRFC3339Nano at2; FormatRFC3339Nano at3]).
  assert (forall raw, len raw = 32 -> EncodeOpaqueToken raw = b64_EncodeToString raw) as Henc
    by (intros raw Hr; unfold EncodeOpaqueToken; by rewrite Hr).
  assert (forall raw, len raw = 32 -> len (b64_EncodeToString raw) = 43) as Hb64
    by (intros raw Hr; unfold b64_EncodeToString, len; rewrite length_map; fold (len (sextets raw));
        rewrite sextets_length, Hr; done).
  assert (Forall (fun v => plain_text v) values) as Hplain.
  { unfold values. rewrite !Forall_cons_iff.
    split_and!; first [by apply uuid_plain|apply b64_plain|apply time_plain|constructor]. }
  assert (len (json_Marshal (string_struct replay_names values)) <= 2048) as Hlen.
  { etrans; [apply struct_size; [by repeat constructor|done|done]|]. unfold values. cbn [foldr].
    rewrite !uuid_String_length, !Hb64 by done. pose proof (proj2 (time_plain at1)).
    pose proof (proj2 (time_plain at2)). pose proof (proj2 (time_plain at3)).
    assert (foldr (fun n acc => len n + 6 + acc) 0 replay_names <= 300) by (vm_compute; done). lia. }
  exists (json_Marshal (string_struct replay_names values)). split_and!; [|done|].
  - unfold encodeDeviceTokens. cbn [tk_DeviceID tk_AuthorizationID tk_FamilyID tk_AccessToken tk_RefreshToken
      tk_AccessExpiresAt tk_RefreshIdleExpiresAt tk_RefreshAbsoluteExpiresAt]. rewrite !Henc by done.
    rewrite !bool_decide_eq_false_2; [done|..]; try done; intros E; apply (f_equal len) in E; rewrite Hb64 in E; done.
  - unfold tokens_of_body. rewrite decode_strings_back; [|apply replay_names_distinct|apply replay_names_tags|done|done|split; [exact Hlen|vm_compute; done]].
    unfold values. rewrite !parse_canonical_String by done. cbn [mbind option_bind].
    rewrite !token_text_back, !time_back by done. cbn [mbind option_bind]. by rewrite B1, B2.
Qed.
End Replay.

(** ** Expiries *)

(** The expiry the access token of a rotation asks for. *)
Definition requested_access (authority : deviceRefreshAuthority) (now : time) : Z :=
  match az_ProvisionalUntil (ra_authorization authority) with
  | Some until => Z.min (t_nanos now + deviceAccessTTL) (t_nanos until)
  | None => t_nanos now + deviceAccessTTL
  end.

(** [rotation_expiry_bounds]: a rotation issues tokens exactly when the access
    token can end at least two nanoseconds before the family does; then the access
    token ends ten minutes from now, or with the provisional authorization when
    that is sooner, the refresh token idles out after it, at the sooner of thirty
    days from now and the last nanosecond of the family, and both end before the
    family does. *)
Theorem rotation_expiry_bounds authority now :
  let absolute := t_nanos (fm_AbsoluteExpiresAt (ra_family authority)) in
  match rotation_expiries authority now with
  | Some (access, idle) =>
      t_nanos access = requested_access authority now /\
      t_nanos idle = Z.min (t_nanos now + deviceRefreshIdleTTL) (absolute - 1) /\
      t_nanos access < t_nanos idle < absolute
  | None => absolute - 1 <= requested_access authority now
  end.
Proof.
  cbv zeta. unfold rotation_expiries, requested_access, Before, After.
  assert (0 < deviceAccessTTL < deviceRefreshIdleTTL) by (vm_compute; done).
  set (absolute := fm_AbsoluteExpiresAt _).
  destruct (az_ProvisionalUntil _) as [until|]; cbv zeta; cbn [t_nanos time_Add];
    repeat (case_match; bool_props; simplify_eq; cbn [t_nanos time_Add] in * ); lia.
Qed.

(** ** Witness *)
From S2P Require Import DeviceSamples.

Definition sample_issued : DeviceTokens :=
  MkDeviceTokens sample_device sample_authorization sample_family (repeat x01 32) (repeat x02 32)
    (Date 2024 3 1 12 10 0 0) (Date 2024 3 31 12 0 0 0) (Date 2024 5 1 0 0 0 250000000).

Lemma sample_issued_fresh : fresh_tokens sample_issued.
Proof.
  unfold fresh_tokens. rewrite !Forall_cons_iff. split_and!; try constructor; vm_compute; congruence.
Qed.

Lemma device_replay_roundtrip_witness :
  exists body, encodeDeviceTokens sample_issued = Some body /\ len body <= 2048 /\
    tokens_of_body body = Some sample_issued.
Proof. exact (device_replay_roundtrip sample_issued sample_issued_fresh). Defined.

Section Theorems.
Context `{Primitives} `{UUIDText} `{Protobuf} `{TimestampColumn} `{PL : ProtectorLaws}
  `{NetURL} `{Ed25519} `{Unicode}.

(** C11 (rotation_single_use): however any number of rotation requests interleave
    and whatever fails, a family keeps at most one active refresh token, a token
    has at most one successor, and two requests that present the same refresh
    token and both return tokens return the same successor, unless one of them
    replays a stored response of its own idempotency record. *)
Theorem rotation_single_use requests w pool w' i j svc svc' c c' t t' :
  dstate_ok (dw_db w) ->
  rtc (pool_step dexec) (map (fun q => request q.1 q.2) requests, w) (pool, w') ->
  pool !! i = Some ((svc, c), Ret (Ok t)) -> pool !! j = Some ((svc', c'), Ret (Ok t')) ->
  rc_RefreshToken c = rc_RefreshToken c' ->
  dstate_ok (dw_db w') /\
  (replay_backed c t (dw_db w') \/ replay_backed c' t' (dw_db w') \/
   DigestToken DeviceRefreshToken (tk_RefreshToken t) = DigestToken DeviceRefreshToken (tk_RefreshToken t') /\
   tk_FamilyID t = tk_FamilyID t').
Proof using PL.
  intros Hok Hsteps Hi Hj Hsame.
  destruct (pool_runs _ _ _ _ Hok Hsteps) as [[Hok' Hpool] _]. split; [done|].
  pose proof (Forall_lookup_1 _ _ _ _ Hpool Hi w' (reflexivity _) Hok' t eq_refl) as Ht.
  pose proof (Forall_lookup_1 _ _ _ _ Hpool Hj w' (reflexivity _) Hok' t' eq_refl) as Ht'.
  cbn [fst snd] in Ht, Ht'. destruct Ht as [?|(key & ch & Hiss & _)]; [by left|].
  destruct Ht' as [?|(key' & ch' & Hiss' & _)]; [by right; left|]. right. right.
  destruct Hiss as (r & f & a & d & Hr & Hp & Hfam & _). destruct Hiss' as (r' & f' & a' & d' & Hr' & Hp' & Hfam' & _).
  rewrite <- Hsame in Hp'. pose proof (ok_successor _ Hok' _ _ _ _ _ Hr Hr' Hp Hp') as He.
  split; [done|]. rewrite He in Hr. congruence.
Qed.

(** C13 (rotation_proof_of_possession): however requests interleave, a request that
    returns tokens either replays the stored response of its idempotency record,
    or the new refresh token is recorded as the successor of the presented one in
    the family it names, and the signature of the request verifies, under the key
    of the device that owns the family, over the transcript of this request's
    nonce, audience and family and of a challenge. *)
Theorem rotation_proof_of_possession requests w pool w' i svc c t :
  dstate_ok (dw_db w) ->
  rtc (pool_step dexec) (map (fun q => request q.1 q.2) requests, w) (pool, w') ->
  pool !! i = Some ((svc, c), Ret (Ok t)) ->
  replay_backed c t (dw_db w') \/
  exists key challenge,
    issued_from (DigestToken DeviceRefreshToken (rc_RefreshToken c)) key t (dw_db w') /\
    ed25519_Verify key (DeviceRotationProofBytes (proof_input svc c challenge (tk_FamilyID t)))
      (rc_Signature c) = true.
Proof using PL.
  intros Hok Hsteps Hi. destruct (pool_runs _ _ _ _ Hok Hsteps) as [[Hok' Hpool] _].
  by apply (Forall_lookup_1 _ _ _ _ Hpool Hi w' (reflexivity _) Hok' t).
Qed.

(** [dead_family_frozen]: a family that is not active never becomes active
    again, and whatever requests run, it gets no further refresh token and none of
    its tokens is active. *)
Theorem dead_family_frozen requests w pool w' id f :
  dstate_ok (dw_db w) ->
  rtc (pool_step dexec) (map (fun q => request q.1 q.2) requests, w) (pool, w') ->
  ds_families (dw_db w) !! id = Some f -> fm_State f <> "active"%string ->
  (exists f', ds_families (dw_db w') !! id = Some f' /\ fm_State f' = fm_State f) /\
  (forall h r, ds_tokens (dw_db w') !! h = Some r -> rt_FamilyID r = id ->
     rt_State r <> "active"%string /\ is_Some (ds_tokens (dw_db w) !! h)).
Proof using PL.
  intros Hok Hsteps Hf Hdead. destruct (pool_runs _ _ _ _ Hok Hsteps) as [[Hok' _] Hle].
  destruct (le_families _ _ Hle _ _ Hf) as (f' & Hf' & _ & _ & _ & _ & Hst).
  assert (fm_State f' = fm_State f) as Hsame by (destruct Hst as [?|[? _]]; congruence).
  split; [by exists f'|]. intros h r Hr <-. split.
  - intros Ha. pose proof (ok_live _ Hok' _ _ _ Hr Ha Hf'). congruence.
  - destruct (ds_tokens (dw_db w) !! h) eqn:Hn; [by eexists|]. by destruct Hdead; eapply (le_new _ _ Hle).
Qed.

(** The transactions of a rotation. *)
Inductive rotation_tx (svc : device_service) (command : RotateDeviceTokenCommand) (digest : Digest)
  (canonical : bytes) (now : time) : dtx rotation_result -> Prop :=
| is_preflight : rotation_tx svc command digest canonical now (preflight_tx svc command digest canonical now)
| is_final authority :
    rotation_tx svc command digest canonical now (final_tx svc command digest canonical now authority)
| is_reclassify ambiguous :
    rotation_tx svc command digest canonical now (reclassify_tx svc command digest canonical now ambiguous).

(** C12 (reuse_compromises_family): when a refresh token that was already used is
    presented again, no transaction of the rotation issues tokens: one that
    commits either answers from the request's idempotency record without touching
    the device tables, or compromises the token's family, leaves none of its
    tokens active, records the reuse and appends the event, and answers with an
    authentication failure. *)
Theorem reuse_compromises_family svc command digest canonical now body s r res s' :
  dstate_ok s -> rotation_tx svc command digest canonical now body ->
  ds_tokens s !! digest = Some r -> rt_State r = "used"%string -> runs body s res s' ->
  (idem_only s s' /\ (forall t, res = ResolvedTokens t -> replay_backed command t s')) \/
  (res = ResolvedFailure /\ exists l, compromised_by s s' l /\ fm_ID (ra_family l) = rt_FamilyID r).
Proof using PL.
  intros Hok Hbody Hr Hused Hruns.
  assert (forall s1 l, idem_only s s1 -> locked_in digest now s1 l ->
    disc_RefreshState (ra_discovered l) = "used"%string /\ fm_ID (ra_family l) = rt_FamilyID r) as Hlocked.
  { intros s1 l Hi Hl. pose proof (li_token _ _ _ _ Hl) as Ht. rewrite Hi in Ht. cbn in Ht.
    pose proof (li_family_id _ _ _ _ Hl) as Hfid. unfold disc_RefreshState, disc_FamilyID in *.
    split; congruence. }
  destruct Hbody as [|authority|ambiguous];
    (apply head_runs in Hruns as [[(_ & _ & ?) ?]|(begun & locked & s1 & Hok1 & Hle & Hi & Hl & Hrun)]; [by left| |done]);
    right; (destruct locked as [l|]; [|inv_run]); destruct (Hlocked s1 l Hi (Hl l eq_refl)) as [Hst Hfid];
    inv_run; rewrite Hst, bool_decide_eq_true_2 in Hrun by done; inv_run;
    (split; [done|]); exists l; (split; [|done]);
    match goal with Hc : runs (compromiseUsedDeviceRefresh _ _ _) _ _ _ |- _ =>
      by destruct (reuse_runs _ _ _ _ _ _ _ _ Hok1 Hle Hi (Hl l eq_refl) Hc) as (_ & _ & ?) end.
Qed.

Lemma within_calls body : calls_within 2 (withinDeviceRotationTransaction body).
Proof. cbn. intros [a|[]]; cbn; try done. intros [b|[]]; done. Qed.

Lemma rotation_calls svc command : calls_within 6 (RotateDeviceToken svc command).
Proof.
  unfold RotateDeviceToken. case_match; [done|]. case_match; [done|].
  destruct (privateRotationBinding _ _ _) as [canonical|]; [|done].
  apply (calls_within_bind _ _ 1 5); [done|]. intros clock. destruct (valid_now clock) as [now|]; [|done].
  apply (calls_within_bind _ _ 2 3); [apply within_calls|].
  intros [[|t]|[| | | | | |authority|]]; try done.
  destruct (rotationContextDigest _ _ _) as [contextDigest|]; [|done].
  apply (calls_within_bind _ _ 1 2); [done|]. intros [record|err].
  - case_match; [done|]. case_match; [done|]. apply (calls_within_bind _ _ 2 0); [apply within_calls|done].
  - apply (calls_within_bind _ _ 2 0); [apply within_calls|done].
Qed.

(** [rotation_returns]: a rotation makes at most six calls: whatever the clock,
    the database and Redis answer, it has returned after six. *)
Theorem rotation_returns svc command chs w :
  (6 <= length chs)%nat -> is_Some (run dexec (RotateDeviceToken svc command) chs w).
Proof. intros Hl. by eapply run_within; [apply rotation_calls|]. Qed.
End Theorems.

(** ** Witnesses *)
From S2P Require Import DeviceSamples.

(** The request made twice, one after the other. *)
Definition sample_pool : list (device_service * RotateDeviceTokenCommand) :=
  [(sample_service, sample_command); (sample_service, sample_command)].

Lemma sample_pool_steps :
  rtc (pool_step dexec) (map (fun q => request q.1 q.2) sample_pool, sample_dworld)
    ([((sample_service, sample_command), Ret (Ok sample_tokens));
      ((sample_service, sample_command), Ret (Ok sample_tokens_again))], sample_dworld3).
Proof.
  etrans; [eapply (run_steps_at _ 0); [reflexivity|exact sample_rotation_done]|].
  eapply (run_steps_at _ 1 _ _ _ [_; _]); [reflexivity|exact sample_replay_done].
Qed.

Lemma rotation_single_use_witness :
  dstate_ok (dw_db sample_dworld3) /\
  (replay_backed sample_command sample_tokens (dw_db sample_dworld3) \/
   replay_backed sample_command sample_tokens_again (dw_db sample_dworld3) \/
   DigestToken DeviceRefreshToken (tk_RefreshToken sample_tokens) =
     DigestToken DeviceRefreshToken (tk_RefreshToken sample_tokens_again) /\
   tk_FamilyID sample_tokens = tk_FamilyID sample_tokens_again).
Proof.
  exact (rotation_single_use sample_pool sample_dworld _ sample_dworld3 0 1 sample_service sample_service
           sample_command sample_command sample_tokens sample_tokens_again
           (sample_dstate_ok "active" "active" (fun e => e)) sample_pool_steps eq_refl eq_refl eq_refl).
Defined.

Lemma rotation_proof_of_possession_witness :
  replay_backed sample_command sample_tokens (dw_db sample_dworld3) \/
  exists key challenge,
    issued_from (DigestToken DeviceRefreshToken (rc_RefreshToken sample_command)) key sample_tokens (dw_db sample_dworld3) /\
    ed25519_Verify key (DeviceRotationProofBytes (proof_input sample_service sample_command challenge
      (tk_FamilyID sample_tokens))) (rc_Signature sample_command) = true.
Proof.
  exact (rotation_proof_of_possession sample_pool sample_dworld _ sample_dworld3 0 sample_service sample_command
           sample_tokens (sample_dstate_ok "active" "active" (fun e => e)) sample_pool_steps eq_refl).
Defined.

Lemma sample_dead_steps :
  rtc (pool_step dexec) (map (fun q => request q.1 q.2) [(sample_service, sample_command)], sample_dead_world)
    ([((sample_service, sample_command), Ret (Err DeviceAuthenticationFailed))], sample_dead_world2).
Proof.
  apply (run_steps _ (sample_service, sample_command) _ (repeat sample_dchoice 6)). exact sample_refused_done.
Qed.

Lemma dead_family_frozen_witness :
  exists f', ds_families (dw_db sample_dead_world2) !! sample_family = Some f' /\ fm_State f' = "compromised"%string.
Proof.
  apply (proj1 (dead_family_frozen [(sample_service, sample_command)] sample_dead_world _ sample_dead_world2
           sample_family (sample_family_row "compromised")
           (sample_dstate_ok "revoked" "compromised" (fun e => ltac:(discriminate e))) sample_dead_steps
           (lookup_singleton_eq _ _) ltac:(discriminate))).
Defined.

Lemma reuse_compromises_family_witness :
  let s := sample_dstate "used" "active" in
  idem_only s sample_reuse.2 /\ (forall t, ResolvedFailure = ResolvedTokens t -> replay_backed sample_command t sample_reuse.2) \/
  ResolvedFailure = ResolvedFailure /\
    exists l, compromised_by s sample_reuse.2 l /\ fm_ID (ra_family l) = sample_family.
Proof.
  exact (reuse_compromises_family sample_service sample_command sample_refresh_digest (repeat x01 32) sample_today
           (preflight_tx sample_service sample_command sample_refresh_digest (repeat x01 32) sample_today)
           (sample_dstate "used" "active") (sample_token_row "used") ResolvedFailure sample_reuse.2
           (sample_dstate_ok "used" "active" (fun _ => eq_refl)) (is_preflight _ _ _ _ _)
           (lookup_singleton_eq _ _) eq_refl
           (ex_intro _ sample_oracle (ex_intro _ 0%nat (ex_intro _ sample_reuse.1.2 (conj (fun _ => I) sample_reuse_done))))).
Defined.

Lemma rotation_returns_witness :
  is_Some (run dexec (RotateDeviceToken sample_service sample_command) (repeat sample_dchoice 6) sample_dworld).
Proof. exact (rotation_returns sample_service sample_command (repeat sample_dchoice 6) sample_dworld (le_n 6)). Defined.
