(* ===== verification/RelyGuarantee.v ===== *)
(** Rely-guarantee reasoning for pools of programs.

    [Programs.wp] uses one relation both for what a program may do and for what
    it may suffer.  A program that owns part of the world, such as a temporary
    file it created, needs more: the others leave its part alone, while it may
    change it.  Here every program has an identity [t]; [mono] is what every step
    keeps, and [own t] what every step of a program other than [t] keeps. *)
From Stdlib Require Import ZArith Lia.
From stdpp Require Import base list relations.
From S2P Require Import Prelude Programs.

Section RelyGuarantee.
Context {E : Type -> Type} {W C T : Type}.
Variable exec : forall X, E X -> C -> W -> X * W.
Variables (ok : W -> Prop) (mono : relation W) (own : T -> relation W).

(** What the program [t] may suffer between two of its calls, and what each of
    its calls must keep. *)
Definition rely (t : T) (w w' : W) : Prop := mono w w' /\ own t w w'.
Definition guarantee (t : T) (w w' : W) : Prop := mono w w' /\ forall u, u <> t -> own u w w'.

(** The relations are preorders. *)
Class RelyLaws : Prop := {
  mono_preorder :: PreOrder mono;
  own_preorder t :: PreOrder (own t);
}.
Context `{!RelyLaws}.

#[export] Instance rely_preorder t : PreOrder (rely t).
Proof.
  split; [intros w; by split|]. intros w1 w2 w3 [Hm1 Ho1] [Hm2 Ho2].
  split; by etrans.
Qed.

Lemma rely_mono t w w' : rely t w w' -> mono w w'.
Proof. by intros [? _]. Qed.

(** [rg t p Q w]: from [w], whatever the other programs do between the calls of
    [p], every call of [p] keeps the world in order and its guarantee, and [Q]
    holds of the result when [p] returns. *)
Fixpoint rg {A} (t : T) (p : prog E A) (Q : A -> W -> Prop) (w : W) : Prop :=
  forall w1, rely t w w1 -> ok w1 ->
  match p with
  | Ret a => Q a w1
  | Vis c k => forall ch x w2, exec _ c ch w1 = (x, w2) ->
      ok w2 /\ guarantee t w1 w2 /\ rg t (k x) Q w2
  end.

Lemma rg_up {A} t (p : prog E A) Q w w' : rg t p Q w -> rely t w w' -> rg t p Q w'.
Proof. destruct p; cbn; intros Hp Hle w1 Hle1; apply Hp; by etrans. Qed.

Lemma rg_intro {A} t (p : prog E A) Q w :
  (forall w1, rely t w w1 -> ok w1 -> rg t p Q w1) -> rg t p Q w.
Proof. destruct p; cbn; intros Hp w1 Hle Hok; by apply (Hp w1 Hle Hok w1). Qed.

Lemma rg_ret {A} t (a : A) (Q : A -> W -> Prop) w :
  (forall w1, rely t w w1 -> ok w1 -> Q a w1) -> rg t (Ret a) Q w.
Proof. done. Qed.

(** Sequencing; the continuation knows that the world only grew. *)
Lemma rg_bind {A B} t (p : prog E A) (k : A -> prog E B) P Q w :
  rg t p P w ->
  (forall a w', mono w w' -> ok w' -> P a w' -> rg t (k a) Q w') ->
  rg t (bind p k) Q w.
Proof.
  revert w. induction p as [a|X c k' IH]; intros w Hp Hk.
  - apply rg_intro. intros w1 Hle Hok. apply Hk; [by apply Hle|done|]. by apply Hp.
  - cbn. intros w1 Hle Hok ch x w2 He. destruct (Hp w1 Hle Hok ch x w2 He) as (Hok2 & Hg & Hp2).
    split; [done|]. split; [done|]. apply IH; [done|]. intros a w' Hm Hok' HP.
    apply Hk; [|done..]. etrans; [apply Hle|]. etrans; [apply Hg|done].
Qed.

(** One call. *)
Lemma rg_call {X A} t (c : E X) (k : X -> prog E A) Q w :
  (forall w1 ch x w2, rely t w w1 -> ok w1 -> exec X c ch w1 = (x, w2) ->
     ok w2 /\ guarantee t w1 w2 /\ (mono w w2 -> rg t (k x) Q w2)) ->
  rg t (bind (trigger c) k) Q w.
Proof.
  intros Hc. cbn. intros w1 Hle Hok ch x w2 He.
  destruct (Hc _ _ _ _ Hle Hok He) as (Hok2 & Hg & Hk). split_and!; [done..|].
  apply Hk. etrans; [apply Hle|apply Hg].
Qed.

Lemma rg_mono {A} t (p : prog E A) (P Q : A -> W -> Prop) w :
  (forall a w', mono w w' -> P a w' -> Q a w') -> rg t p P w -> rg t p Q w.
Proof.
  intros HPQ. revert w HPQ. induction p as [a|X c k IH]; cbn; intros w HPQ Hp w1 Hle Hok.
  - apply HPQ; [apply Hle|]. by apply Hp.
  - intros ch x w2 He. destruct (Hp w1 Hle Hok ch x w2 He) as (? & Hg & Hp2). split_and!; [done..|].
    apply IH; [|done]. intros a w' Hm. apply HPQ. etrans; [apply Hle|]. by etrans; [apply Hg|].
Qed.

(** ** Pools *)

(** A pool of programs with distinct identities, all of which keep their
    promise. *)
Definition rg_pool {Q A} (post : T * Q -> A -> W -> Prop) (s : list ((T * Q) * prog E A) * W) : Prop :=
  ok s.2 /\ NoDup (s.1.*1.*1) /\ Forall (fun r => rg r.1.1 r.2 (post r.1) s.2) s.1.

Lemma rg_pool_step {Q A} (post : T * Q -> A -> W -> Prop) s s' :
  pool_step exec s s' -> rg_pool post s -> rg_pool post s' /\ mono s.2 s'.2.
Proof.
  intros [i [t q] X c k ch x pool w w' Hi He] (Hok & Hnd & Hpool); cbn [fst snd] in *.
  pose proof (Forall_lookup_1 _ _ _ _ Hpool Hi) as Hwp. cbn [fst snd] in Hwp.
  destruct (Hwp w ltac:(done) Hok ch x w' He) as (Hok' & Hg & Hk).
  split; [|apply Hg].
  assert (pool.*1 !! i = Some (t, q)) as Hi1 by (by rewrite list_lookup_fmap, Hi).
  assert ((<[i := ((t, q), k x)]> pool).*1 = pool.*1) as Hids.
  { rewrite list_fmap_insert. by apply list_insert_id. }
  split; cbn [fst snd]; [done|]. split; [by rewrite Hids|].
  apply Forall_lookup_2. intros j r Hj.
  destruct (decide (i = j)) as [<-|Hij].
  - rewrite list_lookup_insert_eq in Hj by (by eapply lookup_lt_Some). by simplify_eq.
  - rewrite list_lookup_insert_ne in Hj by done.
    pose proof (Forall_lookup_1 _ _ _ _ Hpool Hj) as Hr. cbn beta in Hr.
    eapply rg_up; [exact Hr|]. split; [apply Hg|]. apply Hg.
    intros Ht. apply Hij. apply (NoDup_lookup _ i j t Hnd); rewrite !list_lookup_fmap.
    + by rewrite Hi.
    + rewrite Hj. cbn. by rewrite Ht.
Qed.

(** A program joins the pool under an identity of its own. *)
Lemma rg_pool_start {Q A} (post : T * Q -> A -> W -> Prop) pool w t q (p : prog E A) :
  rg_pool post (pool, w) -> t ∉ pool.*1.*1 -> rg t p (post (t, q)) w ->
  rg_pool post (pool ++ [((t, q), p)], w).
Proof.
  intros (Hok & Hnd & Hpool) Ht Hp. split; [done|]. cbn [fst snd] in *. split.
  - rewrite !fmap_app. apply NoDup_app. split_and!; [done| |apply NoDup_singleton].
    intros x Hx. cbn. by intros ->%list_elem_of_singleton.
  - apply Forall_app. split; [done|]. by constructor.
Qed.

(** A program of the pool dies. *)
Lemma rg_pool_kill {Q A} (post : T * Q -> A -> W -> Prop) (pool : list ((T * Q) * prog E A)) w i :
  rg_pool post (pool, w) -> rg_pool post (delete i pool, w).
Proof.
  intros (Hok & Hnd & Hpool). cbn [fst snd] in *. split_and!; cbn [fst snd]; [done| |by apply Forall_delete].
  rewrite !list_fmap_delete. eapply sublist_NoDup; [exact Hnd|]. apply sublist_delete.
Qed.
End RelyGuarantee.

Arguments RelyLaws {W T} mono own.
