(* ===== verification/FileSystem.v ===== *)
(** The part of package [os] that the durable trust store uses: files, names in
    directories, [fsync], and what a crash of the machine leaves.

    A file is an inode with contents; a name in a directory leads to an inode,
    and several names may lead to one inode (hard links).  Names and contents
    become durable by [Sync] of the directory and of the file; a crash keeps
    what is durable and may keep or lose the rest.  Every call is one step on
    the shared file system, and the environment decides at each call whether it
    fails ([ch_fault]), how many bytes a write takes, which random name a
    temporary file gets, and in which order, and with which of the names that
    come and go meanwhile, a directory is listed. A failed call has no effect on
    the file system, except a failed write, which may have written a part. *)
From Stdlib Require Import ZArith Lia Strings.Byte.
From stdpp Require Import base list sets gmap strings numbers option.
From S2P Require Import Prelude GoStd Programs.

(** ** State *)

Inductive file_kind := Regular | Directory | Irregular.
#[export] Instance file_kind_eq_dec : EqDecision file_kind.
Proof. solve_decision. Defined.

(** An inode: its kind, its contents, whether the contents are on disk, and the
    program that created it. *)
Record file := mkFile {
  f_kind : file_kind;
  f_data : bytes;
  f_synced : bool;
  f_creator : nat;
}.

(** A name: the inode it leads to now and the one it leads to on disk. *)
Record entry := mkEntry { e_now : option nat; e_disk : option nat }.

(** A path below a directory: the directory and the last element. *)
Definition path : Type := bytes * bytes.

(** Directories lead to [true] when their own name is on disk. *)
Record fs := mkFs {
  fs_dirs : gmap bytes bool;
  fs_names : gmap path entry;
  fs_files : gmap nat file;
}.

Definition now (w : fs) (p : path) : option nat := e ← fs_names w !! p; e_now e.
Definition disk (w : fs) (p : path) : option nat := e ← fs_names w !! p; e_disk e.

(** [os.DirEntry]: [Name] and [IsDir]. *)
Record DirEntry := mkDirEntry { de_name : bytes; de_isdir : bool }.
#[export] Instance DirEntry_eq_dec : EqDecision DirEntry.
Proof. solve_decision. Defined.

(** The entries of a directory. *)
Definition is_dir_file (w : fs) (i : nat) : bool :=
  match fs_files w !! i with Some f => bool_decide (f_kind f = Directory) | None => false end.

Definition listing (w : fs) (d : bytes) : list DirEntry :=
  omap (fun r : path * entry =>
          if bool_decide (r.1.1 = d)
          then i ← e_now r.2; Some (mkDirEntry r.1.2 (is_dir_file w i))
          else None)
       (map_to_list (fs_names w)).

(** ** Errors and environment *)

(** The errors a caller can tell apart: [os.IsNotExist], [io.EOF] and the
    others. *)
Inductive os_error := NotExist | EOF | OtherError.
#[export] Instance os_error_eq_dec : EqDecision os_error.
Proof. solve_decision. Defined.

Record choice := mkChoice {
  ch_fault : bool;                (* the call fails *)
  ch_cancelled : bool;            (* the context is cancelled *)
  ch_count : Z;                   (* bytes taken by a write *)
  ch_random : Z;                  (* random part of a temporary name *)
  ch_listing : list DirEntry;     (* what a directory read returns *)
}.

(** An open temporary file: its inode and its path. *)
Record handle := mkHandle { h_ino : nat; h_path : path }.

(** ** Calls *)

Inductive os : Type -> Type :=
| CtxErr : os bool                                       (* ctx.Err() != nil *)
| MkdirAll (d : bytes) : os (option os_error)
| OpenDir (d : bytes) : os (option os_error)             (* os.Open of a directory *)
| DirSync (d : bytes) : os (option os_error)             (* Sync of its handle *)
| ReadDirStart (d : bytes) : os (list DirEntry)          (* ReadDir begins ... *)
| ReadDir (d : bytes) (seen : list DirEntry) (n : Z)     (* ... and ends *)
    : os (list DirEntry * option os_error)
| CreateTemp (self : nat) (d prefix : bytes) : os (result os_error handle)
| Chmod (h : handle) : os (option os_error)
| WriteFile (h : handle) (b : bytes) : os (Z * option os_error)
| SyncFile (h : handle) : os (option os_error)
| Close (h : handle) : os (option os_error)
| Stat (p : path) : os (option os_error)
| Link (old new : path) : os (option os_error)
| Remove (p : path) : os (option os_error)
| OpenFile (p : path) : os (result os_error nat)
| FileStat (i : nat) : os (result os_error (file_kind * Z))
| ReadAll (i : nat) (limit : Z) : os (bytes * option os_error).

(** ** What the calls do *)

Definition fault (ch : choice) : option os_error :=
  if ch_fault ch then Some OtherError else None.

Definition set_dir (d : bytes) (durable : bool) (w : fs) : fs :=
  mkFs (<[d := durable]> (fs_dirs w)) (fs_names w) (fs_files w).

(** [MkdirAll] creates what is missing and leaves what exists. *)
Definition mkdir (d : bytes) (w : fs) : fs :=
  match fs_dirs w !! d with Some _ => w | None => set_dir d false w end.

(** [filepath.Join] of a clean directory and a plain name. *)
Definition Join (d name : bytes) : bytes := d ++ "/"%byte :: name.

(** The directory [c] is directly below [d]. *)
Definition child_of (d c : bytes) : bool :=
  has_prefix (Join d []) c &&
  forallb (fun x => negb (bool_decide (x = "/"%byte))) (drop (length (Join d [])) c).

(** [Sync] of a directory puts its names on disk, those of the directories
    directly below it included. *)
Definition sync_dir (d : bytes) (w : fs) : fs :=
  mkFs (map_imap (fun c (durable : bool) => Some (durable || child_of d c)) (fs_dirs w))
       (map_imap (fun (p : path) e => Some (if bool_decide (p.1 = d) then mkEntry (e_now e) (e_now e) else e))
                 (fs_names w))
       (fs_files w).

Definition set_file (i : nat) (f : file) (w : fs) : fs :=
  mkFs (fs_dirs w) (fs_names w) (<[i := f]> (fs_files w)).

Definition set_now (p : path) (i : option nat) (w : fs) : fs :=
  mkFs (fs_dirs w) (<[p := mkEntry i (disk w p)]> (fs_names w)) (fs_files w).

Definition fresh_ino (w : fs) : nat := fresh (dom (fs_files w) : gset nat).

(** A result of a directory read is possible when it holds what was listed at
    the start and is still there, and nothing that was neither there at the
    start nor is there at the end. *)
Definition possible_listing (seen present l : list DirEntry) : bool :=
  bool_decide (NoDup (de_name <$> l)) &&
  forallb (fun e => bool_decide (e ∈ l)) (List.filter (fun e => bool_decide (e ∈ present)) seen) &&
  forallb (fun e => bool_decide (e ∈ seen ++ present)) l.

Definition read_dir (seen : list DirEntry) (ch : choice) (d : bytes) (w : fs) : list DirEntry :=
  if possible_listing seen (listing w d) (ch_listing ch) then ch_listing ch else listing w d.

(** [os.CreateTemp] appends a random decimal number to the prefix. *)
Definition temp_name (prefix : bytes) (random : Z) : bytes := prefix ++ FormatUint (u32 random) 10.

Definition clamp (lo hi x : Z) : Z := Z.max lo (Z.min hi x).

Definition os_exec (X : Type) (c : os X) (ch : choice) (w : fs) : X * fs :=
  match c in os X return X * fs with
  | CtxErr => (ch_cancelled ch, w)
  | MkdirAll d =>
      match fault ch with Some e => (Some e, w) | None => (None, mkdir d w) end
  | OpenDir d =>
      match fault ch, fs_dirs w !! d with
      | Some e, _ => (Some e, w)
      | None, None => (Some NotExist, w)
      | None, Some _ => (None, w)
      end
  | DirSync d =>
      match fault ch with Some e => (Some e, w) | None => (None, sync_dir d w) end
  | ReadDirStart d => (listing w d, w)
  | ReadDir d seen n =>
      match fault ch, read_dir seen ch d w with
      | Some e, _ => (([], Some e), w)
      | None, [] => (([], Some EOF), w)
      | None, l => ((take (Z.to_nat n) l, None), w)
      end
  | CreateTemp self d prefix =>
      let p := (d, temp_name prefix (ch_random ch)) in
      match fault ch, fs_dirs w !! d, now w p with
      | Some e, _, _ => (Err e, w)
      | None, None, _ => (Err NotExist, w)
      | None, Some _, Some _ => (Err OtherError, w)
      | None, Some _, None =>
          let i := fresh_ino w in
          (Ok (mkHandle i p), set_now p (Some i) (set_file i (mkFile Regular [] false self) w))
      end
  | Chmod h => (fault ch, w)
  | WriteFile h b =>
      match fs_files w !! h_ino h with
      | None => ((0, Some OtherError), w)
      | Some f =>
          let n := clamp 0 (len b) (ch_count ch) in
          ((n, fault ch),
           set_file (h_ino h) (mkFile (f_kind f) (f_data f ++ take (Z.to_nat n) b) false (f_creator f)) w)
      end
  | SyncFile h =>
      match fault ch, fs_files w !! h_ino h with
      | Some e, _ => (Some e, w)
      | None, None => (Some OtherError, w)
      | None, Some f => (None, set_file (h_ino h) (mkFile (f_kind f) (f_data f) true (f_creator f)) w)
      end
  | Close h => (fault ch, w)
  | Stat p =>
      match fault ch, now w p with
      | Some e, _ => (Some e, w)
      | None, None => (Some NotExist, w)
      | None, Some _ => (None, w)
      end
  | Link old new =>
      match fault ch, now w old, now w new with
      | Some e, _, _ => (Some e, w)
      | None, None, _ => (Some NotExist, w)
      | None, Some _, Some _ => (Some OtherError, w)
      | None, Some i, None => (None, set_now new (Some i) w)
      end
  | Remove p =>
      match fault ch, now w p with
      | Some e, _ => (Some e, w)
      | None, None => (Some NotExist, w)
      | None, Some _ => (None, set_now p None w)
      end
  | OpenFile p =>
      match fault ch, now w p with
      | Some e, _ => (Err e, w)
      | None, None => (Err NotExist, w)
      | None, Some i => (Ok i, w)
      end
  | FileStat i =>
      match fault ch, fs_files w !! i with
      | Some e, _ => (Err e, w)
      | None, None => (Err OtherError, w)
      | None, Some f => (Ok (f_kind f, len (f_data f)), w)
      end
  | ReadAll i limit =>
      match fs_files w !! i with
      | None => (([], Some OtherError), w)
      | Some f =>
          match fault ch with
          | Some e => ((take (Z.to_nat (clamp 0 limit (ch_count ch))) (f_data f), Some e), w)
          | None => ((take (Z.to_nat limit) (f_data f), None), w)
          end
      end
  end.

(** ** Crashes *)

(** After a crash of the machine the file system holds what is on disk: each
    name leads where it led before or where it led on disk, and contents that
    were not synced may be anything. *)
Record crash (w w' : fs) : Prop := {
  crash_dirs d : fs_dirs w !! d = Some true -> fs_dirs w' !! d = Some true;
  crash_dirs_back d b : fs_dirs w' !! d = Some b -> b = true /\ is_Some (fs_dirs w !! d);
  crash_names p : is_Some (fs_dirs w' !! p.1) -> now w' p = now w p \/ now w' p = disk w p;
  crash_names_gone p : fs_dirs w' !! p.1 = None -> now w' p = None;
  crash_disk p : disk w' p = now w' p;
  crash_files i f : fs_files w !! i = Some f -> f_synced f = true -> fs_files w' !! i = Some f;
  crash_files_back i f' : fs_files w' !! i = Some f' ->
    exists f, fs_files w !! i = Some f /\ f_creator f = f_creator f' /\ f_kind f = f_kind f' /\
              (f_synced f' = true -> f = f');
  crash_files_fwd i : is_Some (fs_files w !! i) -> is_Some (fs_files w' !! i);
}.
