(* ===== verification/TrustStore.v ===== *)
(** The durable state of the trust client: [internal/trustclient/store.go].

    [DirectoryStore] keeps, below a private directory, one directory per state
    key with an immutable file per staged version and a marker per activated
    version.  Its methods are programs over the calls of [FileSystem]: several
    processes may share the directory, and between two calls of one method the
    others may run.  The mutex of a store orders the calls of one process only;
    the model leaves it out, so that it allows every interleaving the code has
    and more.  [MemoryStore] is the same contract in memory; each of its methods
    is one step under its mutex.

    [Format], [LogValue], [MarshalJSON] and [UnmarshalJSON] only redact and are
    not modelled; neither is [clear], which wipes buffers that are no longer
    used, nor the [Close] of files opened for reading.

    Frames, file names and directory scans of the trust store. *)
From Stdlib Require Import ZArith Lia Strings.Byte.
From stdpp Require Import base list sets gmap strings numbers option.
From S2P Require Import Prelude GoStd Programs FileSystem.

#[local] Open Scope go_scope.
#[local] Open Scope prog_scope.

(** ** Errors *)

Inductive client_error :=
| ErrInvalidArgument | ErrEnvelope | ErrRecipient | ErrMetadata | ErrMetadataRollback
| ErrSignature | ErrPayload | ErrRollback | ErrStore | ErrStateNotFound.
#[export] Instance client_error_eq_dec : EqDecision client_error.
Proof. solve_decision. Defined.

(** An error of a file operation: one of [os], or [ErrStore]. *)
Inductive io_error := OsErr (e : os_error) | StoreErr.

(** ** Constants *)

Definition maximumStateKeyBytes : Z := 256.
Definition maximumStoredPayloadBytes : Z := 64 * 1024.
Definition maximumStateEntries : Z := 4096.
Definition stateKeyDomain : bytes := sbytes "TALENRO-CLIENT-STATE-KEY-V1" ++ [x00].
Definition stagePrefix : bytes := sbytes "stage-".
Definition activePrefix : bytes := sbytes "active-".
Definition stateSuffix : bytes := sbytes ".bin".
Definition storeMagic : bytes := sbytes "TLSTG001".
Definition storeHeaderBytes : Z := 8 + 8 + 4 + 32.
Definition tempPrefix : bytes := sbytes ".stage-".

(** ** Arguments *)

Definition validStateKey (key : bytes) : bool :=
  (0 <? len key) && (len key <=? maximumStateKeyBytes) && utf8_Valid key.

Section Arguments.
Context {E : Type -> Type} (ctxErr : prog E bool).

(** [store == nil || ctx == nil || ctx.Err() != nil || rest] *)
Definition badArguments (store_nil ctx_nil rest : bool) : prog E bool :=
  if store_nil || ctx_nil then Ret true
  else let! cancelled := ctxErr in Ret (cancelled || rest).

Definition storeArgumentError (ctx_nil : bool) (key : bytes) : prog E client_error :=
  if ctx_nil then Ret ErrStore
  else
    let! cancelled := ctxErr in
    if cancelled then Ret ErrStore
    else if negb (validStateKey key) then Ret ErrInvalidArgument
    else Ret ErrInvalidArgument.
End Arguments.

(** ** Frames *)

Definition stageFilename (version : Z) : bytes := stagePrefix ++ pad_decimal 20 version ++ stateSuffix.
Definition activeFilename (version : Z) : bytes := activePrefix ++ pad_decimal 20 version ++ stateSuffix.

Definition encodeStoreFrame (version : Z) (body : bytes) : bytes :=
  storeMagic ++ be_bytes 8 version ++ be_bytes 4 (u32 (len body)) ++ sha256 body ++ body.

Definition decodeStoreFrame (frame : bytes) : option (Z * bytes) :=
  if (len frame <? storeHeaderBytes) || (subslice frame 0 8 != storeMagic) then None
  else
    let version := be_value (subslice frame 8 16) in
    let length := be_value (subslice frame 16 20) in
    if (version =? 0) || (length <? 2) || (maximumStoredPayloadBytes <? length)
       || negb (length =? len frame - storeHeaderBytes) then None
    else
      let body := subslice frame storeHeaderBytes (len frame) in
      if subslice frame 20 52 != sha256 body then None
      else Some (version, body).

(** ** File operations *)

(** The fuel is the number of bytes left; every round writes at least one. *)
Fixpoint writeAll (fuel : nat) (writer : handle) (body : bytes) : prog os (option client_error) :=
  match body with
  | [] => Ret None
  | _ =>
      match fuel with
      | O => Ret (Some ErrStore)
      | S fuel =>
          let! r := trigger (WriteFile writer body) in
          if is_err r.2 || (r.1 <=? 0) || (len body <? r.1) then Ret (Some ErrStore)
          else writeAll fuel writer (drop (Z.to_nat r.1) body)
      end
  end.

Definition readStoreFrame (p : path) : prog os (result io_error bytes) :=
  let! file := trigger (OpenFile p) in
  match file with
  | Err e => Ret (Err (OsErr e))
  | Ok file =>
      let! information := trigger (FileStat file) in
      let maximum := storeHeaderBytes + maximumStoredPayloadBytes in
      match information with
      | Err _ => Ret (Err StoreErr)
      | Ok (mode, size) =>
          if (mode != Regular) || (size <? storeHeaderBytes) || (maximum <? size) then Ret (Err StoreErr)
          else
            let! r := trigger (ReadAll file (maximum + 1)) in
            if is_err r.2 || (maximum <? len r.1) then Ret (Err StoreErr)
            else Ret (Ok r.1)
      end
  end.

Definition readBoundedDirectory (directory : bytes) : prog os (result io_error (list DirEntry)) :=
  let! err := trigger (OpenDir directory) in
  match err with
  | Some e => Ret (Err (OsErr e))
  | None =>
      let! seen := trigger (ReadDirStart directory) in
      let! r := trigger (ReadDir directory seen (maximumStateEntries + 1)) in
      match r.2 with
      | Some OtherError => Ret (Err (OsErr OtherError))
      | Some NotExist => Ret (Err (OsErr NotExist))
      | Some EOF | None =>
          if maximumStateEntries <? len r.1 then Ret (Err StoreErr) else Ret (Ok r.1)
      end
  end.

(** [windows] is [runtime.GOOS == "windows"]. *)
Definition syncDirectory (windows : bool) (directory : bytes) : prog os (option os_error) :=
  let! err := trigger (OpenDir directory) in
  match err with
  | Some e => Ret (Some e)
  | None =>
      let! err := trigger (DirSync directory) in
      if is_err err && negb windows then Ret err else Ret None
  end.

(** The loop of [loadHighestVersion] over the entries of the directory. *)
Fixpoint scanVersions (prefix : bytes) (entries : list DirEntry) (highest : Z) : result client_error Z :=
  match entries with
  | [] => Ok highest
  | entry :: entries =>
      if de_isdir entry then scanVersions prefix entries highest
      else
        let name := de_name entry in
        if negb (has_prefix prefix name) || negb (has_suffix stateSuffix name)
        then scanVersions prefix entries highest
        else
          let number := trim_suffix stateSuffix (trim_prefix prefix name) in
          if negb (len number =? 20) then Err ErrStore
          else
            match ParseUint number 10 64 with
            | None => Err ErrStore
            | Some version =>
                if version =? 0 then Err ErrStore
                else scanVersions prefix entries (if highest <? version then version else highest)
            end
  end.

Definition loadHighestVersion (directory prefix : bytes) : prog os (result client_error Z) :=
  let! entries := readBoundedDirectory directory in
  match entries with
  | Err (OsErr NotExist) => Ret (Ok 0)
  | Err _ => Ret (Err ErrStore)
  | Ok entries => Ret (scanVersions prefix entries 0)
  end.

Definition loadHighestDirectory (directory : bytes) : prog os (result client_error Z) :=
  let! r := loadHighestVersion directory stagePrefix in
  match r with
  | Err e => Ret (Err e)
  | Ok highest =>
      if highest =? 0 then Ret (Ok highest)
      else
        let! frame := readStoreFrame (directory, stageFilename highest) in
        match frame with
        | Err _ => Ret (Err ErrStore)
        | Ok frame =>
            match decodeStoreFrame frame with
            | None => Ret (Err ErrStore)
            | Some (version, _) =>
                if negb (version =? highest) then Ret (Err ErrStore) else Ret (Ok highest)
            end
        end
  end.

(** ** [DirectoryStore] *)

Record DirectoryStore := mkDirectoryStore { store_root : bytes }.

(** [NewDirectoryStore] of a root whose absolute form is [absolute] ([None] when
    [filepath.Abs] fails). *)
Definition NewDirectoryStore (root : bytes) (absolute : option bytes)
  : prog os (result client_error DirectoryStore) :=
  if (len root =? 0) || (4096 <? len root) || negb (utf8_Valid root) then Ret (Err ErrInvalidArgument)
  else
    match absolute with
    | None | Some [] => Ret (Err ErrInvalidArgument)
    | Some absolute =>
        let! err := trigger (MkdirAll absolute) in
        if is_err err then Ret (Err ErrStore) else Ret (Ok (mkDirectoryStore absolute))
    end.

Definition stateDirectory (store : DirectoryStore) (key : bytes) : bytes :=
  Join (store_root store) (hex_encode (sha256 (stateKeyDomain ++ key))).

Section DirectoryStore.
(** The program that runs the method, and its platform. *)
Variables (self : nat) (windows : bool).

Definition LoadHighest (store : option DirectoryStore) (ctx_nil : bool) (key : bytes)
  : prog os (result client_error Z) :=
  let! bad := badArguments (trigger CtxErr) (is_nil store) ctx_nil (negb (validStateKey key)) in
  match bad, store with
  | false, Some store => loadHighestDirectory (stateDirectory store key)
  | _, _ => let! e := storeArgumentError (trigger CtxErr) ctx_nil key in Ret (Err e)
  end.

(** The end of [StageAndAdvance] and [Activate]: the directory is synced, and
    the version must still be the highest one. *)
Definition commitVersion (directory : bytes) (version : Z) : prog os (option client_error) :=
  let! err := syncDirectory windows directory in
  if is_err err then Ret (Some ErrStore)
  else
    let! committed := loadHighestDirectory directory in
    match committed with
    | Err e => Ret (Some e)
    | Ok committed =>
        if version <? committed then Ret (Some ErrRollback)
        else if negb (committed =? version) then Ret (Some ErrStore)
        else Ret None
    end.

(** [temporary.Chmod(0o600) != nil || writeAll(temporary, frame) != nil ||
    temporary.Sync() != nil || temporary.Close() != nil] *)
Definition writeTemporary (frame : bytes) (temporary : handle) : prog os bool :=
  let! err := trigger (Chmod temporary) in
  if is_err err then Ret true
  else
    let! err := writeAll (length frame) temporary frame in
    if is_err err then Ret true
    else
      let! err := trigger (SyncFile temporary) in
      if is_err err then Ret true
      else let! err := trigger (Close temporary) in Ret (is_err err).

(** The temporary file gets the name of the version: whether the temporary name
    is gone ([completed]) and the error. *)
Definition publishTemporary (directory : bytes) (version : Z) (temporary : handle)
  : prog os (bool * option client_error) :=
  let target := (directory, stageFilename version) in
  let! err := trigger (Stat target) in
  match err with
  | None => Ret (false, Some ErrRollback)
  | Some OtherError | Some EOF => Ret (false, Some ErrStore)
  | Some NotExist =>
      let! err := trigger (Link (h_path temporary) target) in
      if is_err err then
        let! statErr := trigger (Stat target) in
        if is_nil statErr then Ret (false, Some ErrRollback) else Ret (false, Some ErrStore)
      else
        let! err := trigger (Remove (h_path temporary)) in
        if is_err err then Ret (false, Some ErrStore)
        else
          let! err := commitVersion directory version in
          Ret (true, err)
  end.

(** [StageAndAdvance] from the temporary file on. *)
Definition stageTemporary (directory : bytes) (version : Z) (frame : bytes) (temporary : handle)
  : prog os (bool * option client_error) :=
  let! failed := writeTemporary frame temporary in
  if failed : bool then Ret (false, Some ErrStore)
  else
    let! cancelled := trigger CtxErr in
    if cancelled : bool then Ret (false, Some ErrStore)
    else publishTemporary directory version temporary.

(** The temporary file, with its deferred clean-up. *)
Definition stageFrame (directory : bytes) (version : Z) (frame : bytes) : prog os (option client_error) :=
  let! temporary := trigger (CreateTemp self directory tempPrefix) in
  match temporary with
  | Err _ => Ret (Some ErrStore)
  | Ok temporary =>
      let! r := stageTemporary directory version frame temporary in
      let! _ := trigger (Close temporary) in
      if r.1 : bool then Ret r.2
      else let! _ := trigger (Remove (h_path temporary)) in Ret r.2
  end.

Definition StageAndAdvance (store : option DirectoryStore) (ctx_nil : bool) (key : bytes) (version : Z)
    (body : bytes) : prog os (option client_error) :=
  let! bad := badArguments (trigger CtxErr) (is_nil store) ctx_nil
                (negb (validStateKey key) || (version =? 0) || (len body <? 2) || (maximumStoredPayloadBytes <? len body)) in
  match bad, store with
  | false, Some store =>
      let directory := stateDirectory store key in
      let! err := trigger (MkdirAll directory) in
      if is_err err then Ret (Some ErrStore)
      else
        let! err := syncDirectory windows (store_root store) in
        if is_err err then Ret (Some ErrStore)
        else
          let! highest := loadHighestDirectory directory in
          match highest with
          | Err e => Ret (Some e)
          | Ok highest =>
              if version <=? highest then Ret (Some ErrRollback)
              else
                stageFrame directory version (encodeStoreFrame version body)
          end
  | _, _ => let! e := storeArgumentError (trigger CtxErr) ctx_nil key in Ret (Some e)
  end.

Definition Activate (store : option DirectoryStore) (ctx_nil : bool) (key : bytes) (version : Z)
  : prog os (option client_error) :=
  let! bad := badArguments (trigger CtxErr) (is_nil store) ctx_nil (negb (validStateKey key) || (version =? 0)) in
  match bad, store with
  | false, Some store =>
      let directory := stateDirectory store key in
      let! highest := loadHighestDirectory directory in
      match highest with
      | Err e => Ret (Some e)
      | Ok highest =>
          if negb (version =? highest) then Ret (Some ErrRollback)
          else
            let! frame := readStoreFrame (directory, stageFilename version) in
            match frame with
            | Err _ => Ret (Some ErrStore)
            | Ok frame =>
                match decodeStoreFrame frame with
                | None => Ret (Some ErrStore)
                | Some (decodedVersion, _) =>
                    if negb (decodedVersion =? version) then Ret (Some ErrStore)
                    else
                      let! cancelled := trigger CtxErr in
                      if cancelled : bool then Ret (Some ErrStore)
                      else
                        let marker := (directory, activeFilename version) in
                        let! err := trigger (Link (directory, stageFilename version) marker) in
                        if is_err err then
                          let! statErr := trigger (Stat marker) in
                          if is_err statErr then Ret (Some ErrStore)
                          else
                            let! markerFrame := readStoreFrame marker in
                            match markerFrame with
                            | Err _ => Ret (Some ErrStore)
                            | Ok markerFrame =>
                                match decodeStoreFrame markerFrame with
                                | None => Ret (Some ErrStore)
                                | Some (markerVersion, _) =>
                                    if negb (markerVersion =? version) then Ret (Some ErrStore)
                                    else commitVersion directory version
                                end
                            end
                        else commitVersion directory version
                end
            end
      end
  | _, _ => let! e := storeArgumentError (trigger CtxErr) ctx_nil key in Ret (Some e)
  end.

Definition LoadActive (store : option DirectoryStore) (ctx_nil : bool) (key : bytes)
  : prog os (result client_error (Z * bytes)) :=
  let! bad := badArguments (trigger CtxErr) (is_nil store) ctx_nil (negb (validStateKey key)) in
  match bad, store with
  | false, Some store =>
      let directory := stateDirectory store key in
      let! highest := loadHighestDirectory directory in
      match highest with
      | Err e => Ret (Err e)
      | Ok highest =>
          let! active := loadHighestVersion directory activePrefix in
          match active with
          | Err e => Ret (Err e)
          | Ok active =>
              if (active =? 0) || negb (active =? highest) then Ret (Err ErrStateNotFound)
              else
                let! frame := readStoreFrame (directory, activeFilename active) in
                match frame with
                | Err _ => Ret (Err ErrStore)
                | Ok frame =>
                    match decodeStoreFrame frame with
                    | None => Ret (Err ErrStore)
                    | Some (version, body) => Ret (Ok (version, body))
                    end
                end
          end
      end
  | _, _ => let! e := storeArgumentError (trigger CtxErr) ctx_nil key in Ret (Err e)
  end.
End DirectoryStore.

(** ** [MemoryStore] *)

Record memoryEntry := mkMemoryEntry { me_version : Z; me_body : bytes }.
Record MemoryStore := mkMemoryStore { staged : gmap bytes memoryEntry; active : gmap bytes memoryEntry }.

Definition NewMemoryStore : MemoryStore := mkMemoryStore ∅ ∅.

(** Reading the context, and a section under the mutex. *)
Inductive mem : Type -> Type :=
| MemCtxErr : mem bool
| Locked {X : Type} (section : MemoryStore -> X * MemoryStore) : mem X.

Definition mem_exec (X : Type) (c : mem X) (cancelled : bool) (w : MemoryStore) : X * MemoryStore :=
  match c in mem X return X * MemoryStore with
  | MemCtxErr => (cancelled, w)
  | Locked section => section w
  end.

(** [store.staged[key]]: the zero entry when there is none. *)
Definition entry_of (m : gmap bytes memoryEntry) (key : bytes) : memoryEntry :=
  default (mkMemoryEntry 0 []) (m !! key).

(** A call that fails its argument check returns [storeArgumentError]. *)
Definition memLoadHighest (store_nil ctx_nil : bool) (key : bytes) : prog mem (result client_error Z) :=
  let! bad := badArguments (trigger MemCtxErr) store_nil ctx_nil (negb (validStateKey key)) in
  if bad : bool then let! e := storeArgumentError (trigger MemCtxErr) ctx_nil key in Ret (Err e)
  else trigger (Locked (fun store => (Ok (me_version (entry_of (staged store) key)), store))).

Definition memStageAndAdvance (store_nil ctx_nil : bool) (key : bytes) (version : Z) (body : bytes)
  : prog mem (option client_error) :=
  let! bad := badArguments (trigger MemCtxErr) store_nil ctx_nil
                (negb (validStateKey key) || (version =? 0) || (len body <? 2) || (maximumStoredPayloadBytes <? len body)) in
  if bad : bool then let! e := storeArgumentError (trigger MemCtxErr) ctx_nil key in Ret (Some e)
  else
    trigger (Locked (fun store =>
      if version <=? me_version (entry_of (staged store) key) then (Some ErrRollback, store)
      else (None, mkMemoryStore (<[key := mkMemoryEntry version body]> (staged store)) (active store)))).

Definition memActivate (store_nil ctx_nil : bool) (key : bytes) (version : Z) : prog mem (option client_error) :=
  let! bad := badArguments (trigger MemCtxErr) store_nil ctx_nil (negb (validStateKey key) || (version =? 0)) in
  if bad : bool then let! e := storeArgumentError (trigger MemCtxErr) ctx_nil key in Ret (Some e)
  else
    trigger (Locked (fun store =>
      let staged_entry := entry_of (staged store) key in
      if negb (version =? me_version staged_entry) then (Some ErrRollback, store)
      else (None, mkMemoryStore (staged store)
                    (<[key := mkMemoryEntry (me_version staged_entry) (me_body staged_entry)]> (active store))))).

(** ** Versions and bodies *)

Definition valid_version (v : Z) : Prop := 0 < v < 2 ^ 64.
Definition valid_body (b : bytes) : Prop := 2 <= len b <= maximumStoredPayloadBytes.

(** ** Frames *)

Lemma frame_length v b : len (encodeStoreFrame v b) = storeHeaderBytes + len b.
Proof.
  unfold encodeStoreFrame. rewrite !len_app. unfold len.
  rewrite !be_bytes_length, sha256_length. change (length storeMagic) with 8%nat. unfold storeHeaderBytes. lia.
Qed.

(** The four parts of the header and the body, at their offsets. *)
Lemma frame_parts (m v l d b : bytes) :
  length m = 8%nat -> length v = 8%nat -> length l = 4%nat -> length d = 32%nat ->
  let f := m ++ v ++ l ++ d ++ b in
  subslice f 0 8 = m /\ subslice f 8 16 = v /\ subslice f 16 20 = l /\ subslice f 20 52 = d /\
  subslice f 52 (len f) = b.
Proof.
  intros Hm Hv Hl Hd f. subst f. split_and!.
  - apply (subslice_app [] m); unfold len; cbn; lia.
  - apply (subslice_app m v); unfold len; lia.
  - rewrite (app_assoc m). apply (subslice_app (m ++ v) l); rewrite ?len_app; unfold len; lia.
  - rewrite (app_assoc m), (app_assoc (m ++ v)).
    apply (subslice_app ((m ++ v) ++ l) d); rewrite ?len_app; unfold len; lia.
  - rewrite (app_assoc m), (app_assoc (m ++ v)), (app_assoc ((m ++ v) ++ l)).
    rewrite <- (app_nil_r (_ ++ b)) at 1. rewrite <- app_assoc.
    apply (subslice_app (((m ++ v) ++ l) ++ d) b []); rewrite ?len_app; unfold len; lia.
Qed.

Lemma frame_decode v b :
  valid_version v -> valid_body b -> decodeStoreFrame (encodeStoreFrame v b) = Some (v, b).
Proof.
  intros Hv Hb. pose proof (frame_length v b) as Hlen. unfold decodeStoreFrame. rewrite Hlen.
  unfold valid_version, valid_body, maximumStoredPayloadBytes in *.
  destruct (frame_parts storeMagic (be_bytes 8 v) (be_bytes 4 (u32 (len b))) (sha256 b) b)
    as (H1 & H2 & H3 & H4 & H5); [done|apply be_bytes_length..|apply sha256_length|].
  fold (encodeStoreFrame v b) in H1, H2, H3, H4, H5. rewrite Hlen in H5.
  change (subslice (encodeStoreFrame v b) storeHeaderBytes) with (subslice (encodeStoreFrame v b) 52).
  rewrite H1, H2, H3, H4, H5, !be_value_be_bytes.
  change (256 ^ Z.of_nat 8) with (2 ^ 64). change (256 ^ Z.of_nat 4) with (2 ^ 32).
  rewrite (Z.mod_small v) by lia. unfold u32. rewrite Z.mod_mod, (Z.mod_small (len b)) by lia.
  rewrite !bool_decide_eq_true_2 by done. cbn [negb]. unfold storeHeaderBytes in *.
  rewrite (proj2 (Z.ltb_ge _ _)), (proj2 (Z.eqb_neq v 0)), (proj2 (Z.ltb_ge (len b) 2)),
    (proj2 (Z.ltb_ge _ (len b))), (proj2 (Z.eqb_eq _ _)) by lia. done.
Qed.

(** What a frame decodes to, encodes to that frame. *)
Lemma frame_encode f v b :
  decodeStoreFrame f = Some (v, b) -> f = encodeStoreFrame v b /\ valid_version v /\ valid_body b.
Proof.
  unfold decodeStoreFrame. intros Hd.
  destruct (_ || _) eqn:E1 in Hd; [done|]. cbv zeta in Hd. destruct (_ || _) eqn:E2 in Hd; [done|].
  destruct (negb _) eqn:E3 in Hd; [done|]. bool_props. injection Hd as <- <-.
  unfold storeHeaderBytes, maximumStoredPayloadBytes in *.
  assert (forall a c, 0 <= a <= c -> c <= len f ->
            be_bytes (Z.to_nat (c - a)) (be_value (subslice f a c)) = subslice f a c) as Hb.
  { intros a c Ha Hc. pose proof (subslice_length f a c Ha Hc) as Hs.
    replace (Z.to_nat (c - a)) with (length (subslice f a c)) by (unfold len in Hs; lia).
    apply be_bytes_be_value. }
  assert (len (subslice f (8 + 8 + 4 + 32) (len f)) = len f - 52) as Hbody by (apply subslice_length; lia).
  split_and!.
  - unfold encodeStoreFrame. rewrite Hbody.
    match goal with H : be_value (subslice f 16 20) = _ |- _ => rename H into Hl end.
    rewrite u32_id by lia. replace (len f - 52) with (be_value (subslice f 16 20)) by lia.
    change (be_bytes 8) with (be_bytes (Z.to_nat (16 - 8))). change (be_bytes 4) with (be_bytes (Z.to_nat (20 - 16))).
    rewrite !Hb by lia.
    match goal with H : _ = sha256 _ |- _ => rewrite <- H end.
    match goal with H : _ = storeMagic |- _ => rewrite <- H end.
    rewrite <- subslice_split by lia. rewrite <- subslice_split by lia. rewrite <- subslice_split by lia.
    rewrite <- subslice_split by lia. symmetry. apply subslice_all.
  - pose proof (be_value_range (subslice f 8 16)) as Hr. rewrite subslice_length in Hr by lia.
    change (256 ^ (16 - 8)) with (2 ^ 64) in Hr. unfold valid_version. lia.
  - unfold valid_body, maximumStoredPayloadBytes. lia.
Qed.

(** ** File names *)

(** [FormatUint] of a 64-bit number has at most twenty decimal digits. *)
Lemma digits_fuel_length f k n :
  (1 <= k)%nat -> 0 <= n < 10 ^ Z.of_nat k -> (length (digits_fuel f 10 n []) <= k)%nat.
Proof.
  revert k n. induction f as [|f IH]; intros k n Hk Hn; cbn [digits_fuel length]; [lia|].
  destruct (n <? 10) eqn:E; bool_props; [cbn; lia|].
  rewrite digits_fuel_app, length_app. cbn [length].
  destruct k as [|[|k]]; [lia|cbn in Hn; lia|].
  enough (length (digits_fuel f 10 (n / 10) []) <= S k)%nat by lia. apply IH; [lia|].
  rewrite Nat2Z.inj_succ, Z.pow_succ_r in Hn by lia.
  split; [apply Z.div_pos; lia|apply Z.div_lt_upper_bound; lia].
Qed.

Lemma pad_decimal_length v : 0 <= v < 2 ^ 64 -> length (pad_decimal 20 v) = 20%nat.
Proof.
  intros Hv. unfold pad_decimal. rewrite length_app, repeat_length.
  enough (length (FormatUint v 10) <= 20)%nat by lia.
  unfold FormatUint. rewrite length_map. apply digits_fuel_length; [lia|].
  change (10 ^ Z.of_nat 20) with 100000000000000000000. lia.
Qed.

Lemma parse_zeros base max n l :
  1 <= base -> 0 <= max -> parse_digits base max 0 (repeat "0"%byte n ++ l) = parse_digits base max 0 l.
Proof.
  intros Hb Hm. induction n as [|n IH]; [done|]. cbn [repeat app parse_digits].
  change (digit_val "0") with (Some 0). cbn beta iota zeta.
  rewrite (proj2 (Z.leb_gt base 0)), Z.mul_0_l, Z.add_0_l, (proj2 (Z.ltb_ge max 0)) by lia. apply IH.
Qed.

Lemma pad_decimal_parse v : 0 <= v < 2 ^ 64 -> ParseUint (pad_decimal 20 v) 10 64 = Some v.
Proof.
  intros Hv. pose proof (pad_decimal_length v Hv) as Hl.
  pose proof (ParseUint_FormatUint v 10 64 ltac:(lia) ltac:(lia) Hv) as Hp.
  unfold ParseUint in *. destruct (pad_decimal 20 v) eqn:E; [done|]. rewrite <- E.
  unfold pad_decimal. rewrite parse_zeros by lia.
  destruct (FormatUint v 10); [done|]. exact Hp.
Qed.

(** The name of a version with a prefix; [stageFilename] and [activeFilename]
    are its instances. *)
Definition version_name (prefix : bytes) (v : Z) : bytes := prefix ++ pad_decimal 20 v ++ stateSuffix.

Definition version_number (prefix name : bytes) : bytes :=
  trim_suffix stateSuffix (trim_prefix prefix name).

(** The names the scan looks at. *)
Definition is_version_name (prefix name : bytes) : bool :=
  has_prefix prefix name && has_suffix stateSuffix name.

Lemma version_name_is prefix v : is_version_name prefix (version_name prefix v) = true.
Proof.
  unfold is_version_name, version_name. rewrite has_prefix_app, (app_assoc prefix). apply has_suffix_app.
Qed.

Lemma version_name_number prefix v : version_number prefix (version_name prefix v) = pad_decimal 20 v.
Proof. unfold version_number, version_name. by rewrite trim_prefix_app, trim_suffix_app. Qed.

Lemma version_name_inj prefix v v' :
  valid_version v -> valid_version v' -> version_name prefix v = version_name prefix v' -> v = v'.
Proof.
  unfold valid_version. intros Hv Hv' H. apply (f_equal (version_number prefix)) in H.
  rewrite !version_name_number in H. apply (f_equal (fun n => ParseUint n 10 64)) in H.
  rewrite !pad_decimal_parse in H by lia. congruence.
Qed.

(** No temporary name is the name of a version, and the two kinds of names are
    different. *)
Lemma temp_not_version prefix r :
  prefix = stagePrefix \/ prefix = activePrefix ->
  is_version_name prefix (temp_name tempPrefix r) = false.
Proof. by intros [-> | ->]. Qed.

Lemma stage_not_active v : is_version_name activePrefix (stageFilename v) = false.
Proof. done. Qed.

Lemma active_not_stage v : is_version_name stagePrefix (activeFilename v) = false.
Proof. done. Qed.

(** ** Scans *)

(** The files of a scan that carry a version are well named. *)
Definition well_named (prefix : bytes) (e : DirEntry) : Prop :=
  de_isdir e = false -> is_version_name prefix (de_name e) = true ->
  exists v, valid_version v /\ de_name e = version_name prefix v.

Lemma scan_spec prefix entries h :
  Forall (well_named prefix) entries -> 0 <= h ->
  exists h', scanVersions prefix entries h = Ok h' /\ h <= h' /\
    (forall v, valid_version v -> mkDirEntry (version_name prefix v) false ∈ entries -> v <= h') /\
    (h' = h \/ valid_version h' /\ mkDirEntry (version_name prefix h') false ∈ entries).
Proof.
  revert h. induction entries as [|[name isdir] entries IH]; intros h Hall Hh.
  - exists h. cbn. split_and!; [done|lia| |by left]. by intros v _ ?%not_elem_of_nil.
  - inversion Hall as [|? ? Hn Hall']; subst. cbn [scanVersions de_isdir de_name].
    assert (forall h1 : Z, h <= h1 ->
      (forall v, valid_version v -> mkDirEntry (version_name prefix v) false = mkDirEntry name isdir -> v <= h1) ->
      (h1 = h \/ valid_version h1 /\ mkDirEntry (version_name prefix h1) false = mkDirEntry name isdir) ->
      exists h', scanVersions prefix entries h1 = Ok h' /\ h <= h' /\
        (forall v, valid_version v -> mkDirEntry (version_name prefix v) false ∈ mkDirEntry name isdir :: entries -> v <= h') /\
        (h' = h \/ valid_version h' /\ mkDirEntry (version_name prefix h') false ∈ mkDirEntry name isdir :: entries))
      as Hnext.
    { intros h1 Hle Hup Hcase. destruct (IH h1 Hall' ltac:(lia)) as (h' & Hs & Hle' & Hall1 & Hc).
      exists h'. split_and!; [done|lia| |].
      - intros v Hv [Heq|Hin]%elem_of_cons; [specialize (Hup v Hv Heq); lia|by apply Hall1].
      - destruct Hc as [->|[Hv Hin]]; [|right; split; [done|by right]].
        destruct Hcase as [->|[Hv Heq]]; [by left|right]. split; [done|]. rewrite Heq. by left. }
    destruct isdir; [apply Hnext; [lia| |by left]; by intros v _ [=]|].
    destruct (is_version_name prefix name) eqn:Ename.
    2: { unfold is_version_name in Ename. rewrite <- negb_andb, Ename. apply Hnext; [lia| |by left].
         intros v _ [= <-]. pose proof (version_name_is prefix v) as Hi. unfold is_version_name in Hi. congruence. }
    destruct (Hn eq_refl Ename) as (v & Hv & Hname). cbn in Hname. subst name. clear Hn.
    unfold is_version_name in Ename. rewrite <- negb_andb, Ename. cbn [negb].
    change (trim_suffix stateSuffix (trim_prefix prefix (version_name prefix v)))
      with (version_number prefix (version_name prefix v)).
    pose proof Hv as Hr. unfold valid_version in Hr.
    rewrite version_name_number. unfold len. rewrite pad_decimal_length, pad_decimal_parse by lia. cbn [negb Z.eqb].
    rewrite (proj2 (Z.eqb_neq v 0)) by lia. change (Z.of_nat 20 =? 20) with true. cbn [negb].
    apply Hnext.
    + destruct (h <? v) eqn:E; bool_props; lia.
    + intros v' Hv' [= Heq]. apply version_name_inj in Heq as ->; [|done..]. destruct (h <? v) eqn:E; bool_props; lia.
    + destruct (h <? v) eqn:E; [right; done|by left].
Qed.
