(* ===== verification/TrustStoreSafety.v ===== *)
(** What every step of the trust store keeps, whatever the other processes do.

    [store_ok] is the invariant of the shared directory, [store_mono] what every
    step keeps (a staged version and its marker are never replaced or removed),
    and [store_own t] what the others keep for the program [t]: its temporary
    file.  The specifications of the methods are proved by rely-guarantee
    reasoning against them. *)
From Stdlib Require Import ZArith Lia Strings.Byte.
From stdpp Require Import base list sets gmap strings numbers option relations.
From S2P Require Import Prelude GoStd Programs RelyGuarantee FileSystem TrustStore.

#[local] Open Scope go_scope.
#[local] Open Scope prog_scope.

(** ** Invariant *)

Definition version_prefix (prefix : bytes) : Prop := prefix = stagePrefix \/ prefix = activePrefix.

(** A path the store keeps a version under. *)
Definition state_path (p : path) : Prop :=
  exists prefix, version_prefix prefix /\ is_version_name prefix p.2 = true.

(** A complete file of version [v]. *)
Definition frame_file (v : Z) (b : bytes) (t : nat) : file := mkFile Regular (encodeStoreFrame v b) true t.

(** Every version file of the directory is complete, on disk, and named after
    the version it holds. *)
Record store_ok (w : fs) : Prop := {
  ok_dir p i : now w p = Some i -> is_Some (fs_dirs w !! p.1);
  ok_file p i : now w p = Some i \/ disk w p = Some i -> is_Some (fs_files w !! i);
  ok_disk p i : state_path p -> disk w p = Some i -> now w p = Some i;
  ok_frame p prefix i f : version_prefix prefix -> is_version_name prefix p.2 = true ->
    now w p = Some i -> fs_files w !! i = Some f ->
    f_kind f = Directory \/
    exists v b t, valid_version v /\ valid_body b /\ p.2 = version_name prefix v /\ f = frame_file v b t;
}.

Record store_mono (w w' : fs) : Prop := {
  mono_dirs d b : fs_dirs w !! d = Some b -> exists b', fs_dirs w' !! d = Some b' /\ (b = true -> b' = true);
  mono_now p i : state_path p -> now w p = Some i -> now w' p = Some i;
  mono_disk p i : state_path p -> disk w p = Some i -> disk w' p = Some i;
  mono_files i f : fs_files w !! i = Some f ->
    exists f', fs_files w' !! i = Some f' /\ f_creator f' = f_creator f /\ f_kind f' = f_kind f /\
               (f_synced f = true -> f' = f);
}.

Record store_own (t : nat) (w w' : fs) : Prop := {
  own_files i f : fs_files w !! i = Some f -> f_creator f = t -> fs_files w' !! i = Some f;
  own_names p i f : ~ state_path p -> now w p = Some i -> fs_files w !! i = Some f -> f_creator f = t ->
    now w' p = Some i;
}.

#[export] Instance store_mono_preorder : PreOrder store_mono.
Proof.
  split.
  - intros w. split; eauto 6.
  - intros w1 w2 w3 [Hd1 Hn1 Hk1 Hf1] [Hd2 Hn2 Hk2 Hf2]. split; [|by eauto..|].
    + intros d b (b' & Hb' & Hi)%Hd1. apply Hd2 in Hb' as (b'' & ? & ?). eauto.
    + intros i f (f' & Hf' & Hc & Hk & Hs)%Hf1. apply Hf2 in Hf' as (f'' & Hf'' & Hc' & Hk' & Hs').
      exists f''. split_and!; [done|congruence..|]. intros Hsf. specialize (Hs Hsf) as ->. auto.
Qed.

#[export] Instance store_own_preorder t : PreOrder (store_own t).
Proof.
  split; [intros w; split; eauto|].
  intros w1 w2 w3 [Hf1 Hn1] [Hf2 Hn2]. split; [by eauto|].
  intros p i f Hp Hnow Hf Ht. pose proof (Hf1 _ _ Hf Ht). pose proof (Hn1 _ _ _ Hp Hnow Hf Ht). eauto.
Qed.

#[export] Instance store_rely_laws : RelyLaws store_mono store_own.
Proof. split; apply _. Qed.

(** The program logic at the trust store. *)
Abbreviation srg := (rg os_exec store_ok store_mono store_own).
Abbreviation srely := (rely store_mono store_own).
Abbreviation sguarantee := (guarantee store_mono store_own).

(** ** Versions in the directory *)

Record holds (w : fs) (d prefix : bytes) (v : Z) (i : nat) (b : bytes) (t : nat) : Prop := {
  holds_now : now w (d, version_name prefix v) = Some i;
  holds_file : fs_files w !! i = Some (frame_file v b t);
  holds_version : valid_version v;
  holds_body : valid_body b;
  holds_prefix : version_prefix prefix;
}.

(** The version survives a crash. *)
Record durable (w : fs) (d prefix : bytes) (v : Z) (i : nat) : Prop := {
  durable_disk : disk w (d, version_name prefix v) = Some i;
  durable_dir : fs_dirs w !! d = Some true;
}.

Lemma version_state d prefix v : version_prefix prefix -> state_path (d, version_name prefix v).
Proof. intros Hp. exists prefix. split; [done|apply version_name_is]. Qed.

Lemma holds_mono w w' d prefix v i b t :
  store_mono w w' -> holds w d prefix v i b t -> holds w' d prefix v i b t.
Proof.
  intros Hm [Hn Hf Hv Hb Hp]. split; [|clear Hn|done..].
  - apply (mono_now _ _ Hm); [by apply version_state|done].
  - apply (mono_files _ _ Hm) in Hf as (f' & Hf' & _ & _ & Hs). by rewrite Hf', (Hs eq_refl).
Qed.

Lemma durable_mono w w' d prefix v i :
  store_mono w w' -> version_prefix prefix -> durable w d prefix v i -> durable w' d prefix v i.
Proof.
  intros Hm Hp [Hk Hd]. split.
  - apply (mono_disk _ _ Hm); [by apply version_state|done].
  - apply (mono_dirs _ _ Hm) in Hd as (b & -> & Hb). by rewrite Hb.
Qed.

(** A version with a prefix is in the directory. *)
Definition present (w : fs) (d prefix : bytes) (v : Z) : Prop := exists i b t, holds w d prefix v i b t.

Lemma present_mono w w' d prefix v : store_mono w w' -> present w d prefix v -> present w' d prefix v.
Proof. intros Hm (i & b & t & Hh). exists i, b, t. by eapply holds_mono. Qed.

(** ** Effects of the calls *)

Lemma now_set_now p q i w : now (set_now q i w) p = if decide (p = q) then i else now w p.
Proof.
  unfold now, set_now. cbn [fs_names]. destruct (decide (p = q)) as [->|Hpq].
  - by rewrite lookup_insert_eq.
  - by rewrite lookup_insert_ne.
Qed.

Lemma disk_set_now p q i w : disk (set_now q i w) p = disk w p.
Proof.
  unfold disk at 1, set_now. cbn [fs_names]. destruct (decide (p = q)) as [->|Hpq].
  - by rewrite lookup_insert_eq.
  - by rewrite lookup_insert_ne.
Qed.

Lemma now_sync_dir d p w : now (sync_dir d w) p = now w p.
Proof.
  unfold now, sync_dir. cbn [fs_names]. rewrite map_lookup_imap.
  destruct (fs_names w !! p); cbn; [|done]. by case_bool_decide.
Qed.

Lemma disk_sync_dir d p w : disk (sync_dir d w) p = if bool_decide (p.1 = d) then now w p else disk w p.
Proof.
  unfold now, disk, sync_dir. cbn [fs_names]. rewrite map_lookup_imap.
  destruct (fs_names w !! p); cbn; by case_bool_decide.
Qed.

Lemma dirs_sync_dir d c b w :
  fs_dirs w !! c = Some b -> fs_dirs (sync_dir d w) !! c = Some (b || child_of d c).
Proof. intros Hc. cbn. by rewrite map_lookup_imap, Hc. Qed.

(** ** Steps *)

Definition step_ok (t : nat) (w w' : fs) : Prop := store_ok w' /\ sguarantee t w w'.

Lemma step_same t w : store_ok w -> step_ok t w w.
Proof. intros Hok. split; [done|]. split; [done|]. by intros. Qed.

Lemma step_mkdir t d w : store_ok w -> step_ok t w (mkdir d w).
Proof.
  intros Hok. unfold mkdir. destruct (fs_dirs w !! d) eqn:Hd; [by apply step_same|].
  assert (forall c b, fs_dirs w !! c = Some b -> fs_dirs (set_dir d false w) !! c = Some b) as Hdirs.
  { intros c b Hc. cbn. rewrite lookup_insert_ne; [done|congruence]. }
  destruct Hok as [H1 H2 H3 H4]. split; [split; [|exact H2|exact H3|exact H4]|].
  - intros p i Hp. destruct (H1 p i Hp) as [b Hb]. by rewrite (Hdirs _ _ Hb).
  - split; [|intros u _; split; eauto]. split; [by eauto..|]. intros i f Hf. exists f. eauto.
Qed.

Lemma step_sync_dir t d w : store_ok w -> step_ok t w (sync_dir d w).
Proof.
  intros Hok. destruct Hok as [H1 H2 H3 H4]. split; [split|].
  - intros p i. rewrite now_sync_dir. intros [b Hb]%H1. by rewrite (dirs_sync_dir _ _ _ _ Hb).
  - intros p i. rewrite now_sync_dir, disk_sync_dir. cbn. intros Hp. apply (H2 p). case_bool_decide; tauto.
  - intros p i Hp. rewrite now_sync_dir, disk_sync_dir. case_bool_decide; [done|by apply H3].
  - intros p prefix i f Hp Hn. rewrite now_sync_dir. cbn. by apply H4.
  - split.
    + split.
      * intros c b Hc. eexists. split; [by apply dirs_sync_dir|]. by intros ->.
      * intros p i _. by rewrite now_sync_dir.
      * intros p i Hp Hk. rewrite disk_sync_dir. case_bool_decide; [by apply H3|done].
      * cbn. eauto.
    + intros u _. split; [cbn; eauto|]. intros p i f _. by rewrite now_sync_dir.
Qed.

(** A new name and a new file. *)
Lemma step_create t d p w :
  store_ok w -> is_Some (fs_dirs w !! d) -> p.1 = d -> ~ state_path p -> now w p = None ->
  let i := fresh_ino w in
  let w' := set_now p (Some i) (set_file i (mkFile Regular [] false t) w) in
  step_ok t w w' /\ now w' p = Some i /\ fs_files w' !! i = Some (mkFile Regular [] false t).
Proof.
  intros Hok Hd Hpd Hp Hnow i w'.
  assert (fs_files w !! i = None) as Hi by (apply (not_elem_of_dom (D := gset nat)); exact (is_fresh (dom (fs_files w) : gset nat))).
  assert (forall j f, fs_files w !! j = Some f -> fs_files w' !! j = Some f) as Hfiles.
  { intros j f Hj. cbn. rewrite lookup_insert_ne; [done|congruence]. }
  assert (forall q j, now w q = Some j -> now w' q = Some j) as Hnames.
  { intros q j Hq. unfold w'. rewrite now_set_now. destruct (decide _) as [->|]; [congruence|done]. }
  assert (forall q, now w' q = if decide (q = p) then Some i else now w q) as Hnow'.
  { intros q. unfold w'. by rewrite now_set_now. }
  assert (forall q, disk w' q = disk w q) as Hdisk' by (intros q; unfold w'; by rewrite disk_set_now).
  assert (fs_files w' !! i = Some (mkFile Regular [] false t)) as Hnew by (cbn; by rewrite lookup_insert_eq).
  split; [|split; [rewrite Hnow'; by rewrite decide_True|done]].
  destruct Hok as [H1 H2 H3 H4]. split; [split|].
  - intros q j. rewrite Hnow'. destruct (decide _) as [->|]; [by rewrite Hpd|apply H1].
  - intros q j. rewrite Hnow', Hdisk'. destruct (decide _) as [->|].
    + intros [[= <-]|Hk]; [by rewrite Hnew|]. destruct (H2 p j) as [f Hf]; [by right|]. by rewrite (Hfiles _ _ Hf).
    + intros [f Hf]%H2. by rewrite (Hfiles _ _ Hf).
  - intros q j Hq. rewrite Hdisk'. intros Hk. by apply Hnames, H3.
  - intros q prefix j f Hq1 Hq2. rewrite Hnow'. destruct (decide _) as [->|].
    + exfalso. apply Hp. by exists prefix.
    + intros Hj Hf. apply (H4 q prefix j); [done..|].
      destruct (H2 q j (or_introl Hj)) as [f0 Hf0]. pose proof (Hfiles _ _ Hf0). congruence.
  - split.
    + split; [cbn; eauto|by eauto|intros q j _; by rewrite Hdisk'|]. intros j f Hj. exists f. eauto.
    + intros u _. split; eauto.
Qed.

(** Contents of a file that is not yet on disk change. *)
Lemma step_contents t i f f' w :
  store_ok w -> fs_files w !! i = Some f -> f_creator f = t -> f_synced f = false ->
  f_creator f' = t -> f_kind f' = f_kind f ->
  step_ok t w (set_file i f' w).
Proof.
  intros Hok Hi Ht Hs Ht' Hk. set (w' := set_file i f' w).
  assert (forall j, fs_files w' !! j = if decide (j = i) then Some f' else fs_files w !! j) as Hf.
  { intros j. cbn. destruct (decide (j = i)) as [->|]; [by rewrite lookup_insert_eq|by rewrite lookup_insert_ne]. }
  destruct Hok as [H1 H2 H3 H4]. split; [split|].
  - exact H1.
  - intros p j Hp. rewrite Hf. destruct (decide _); [done|by apply (H2 p)].
  - exact H3.
  - intros p prefix j g Hp Hn Hj Hg. rewrite Hf in Hg. destruct (decide (j = i)) as [->|]; [|by apply (H4 p prefix j)].
    destruct (H4 p prefix i f Hp Hn Hj Hi) as [Hd|(v & b & u & _ & _ & _ & ->)]; [|done].
    left. congruence.
  - split.
    + split; [cbn; eauto|done|done|]. intros j g Hg. rewrite Hf. destruct (decide (j = i)) as [->|]; [|eauto].
      exists f'. split_and!; [done|congruence..|]. congruence.
    + intros u Hu. split; [|done]. intros j g Hg Hc. rewrite Hf. destruct (decide (j = i)) as [->|]; [|done]. congruence.
Qed.

(** A name of a version for a complete file. *)
Lemma step_link t d prefix v i b u w :
  store_ok w -> is_Some (fs_dirs w !! d) -> version_prefix prefix -> valid_version v -> valid_body b ->
  now w (d, version_name prefix v) = None -> fs_files w !! i = Some (frame_file v b u) ->
  let w' := set_now (d, version_name prefix v) (Some i) w in
  step_ok t w w' /\ holds w' d prefix v i b u.
Proof.
  intros Hok Hd Hp Hv Hb Hnow Hi w'.
  assert (forall q, now w' q = if decide (q = (d, version_name prefix v)) then Some i else now w q) as Hnow'.
  { intros q. apply now_set_now. }
  assert (forall q, disk w' q = disk w q) as Hdisk' by (intros q; apply disk_set_now).
  assert (forall q j, now w q = Some j -> now w' q = Some j) as Hnames.
  { intros q j Hq. rewrite Hnow'. destruct (decide _) as [->|]; [congruence|done]. }
  split; [|split; [rewrite Hnow'; by rewrite decide_True|done..]].
  destruct Hok as [H1 H2 H3 H4]. split; [split|].
  - intros q j. rewrite Hnow'. destruct (decide _) as [->|]; [done|apply H1].
  - intros q j. rewrite Hnow', Hdisk'. cbn. destruct (decide _) as [->|]; [|apply H2].
    intros [[= <-]|Hk]; [by rewrite Hi|]. eapply H2. by right.
  - intros q j Hq. rewrite Hdisk'. intros Hk. by apply Hnames, H3.
  - intros q pf j f Hq1 Hq2. rewrite Hnow'. cbn. destruct (decide _) as [->|]; [|by apply H4].
    intros [= <-] Hf. right. cbn [snd] in *. rewrite Hi in Hf. injection Hf as <-.
    exists v, b, u. split_and!; [done..| |done].
    destruct Hq1 as [-> | ->], Hp as [-> | ->]; first [done|by vm_compute in Hq2].
  - split.
    + split; [cbn; eauto|by eauto|intros q j _; by rewrite Hdisk'|]. cbn. eauto 6.
    + intros x _. split; [cbn; eauto|]. eauto.
Qed.

(** The name of its own temporary file goes. *)
Lemma step_remove t p i f w :
  store_ok w -> ~ state_path p -> now w p = Some i -> fs_files w !! i = Some f -> f_creator f = t ->
  step_ok t w (set_now p None w).
Proof.
  intros Hok Hp Hnow Hf Ht. set (w' := set_now p None w).
  assert (forall q, now w' q = if decide (q = p) then None else now w q) as Hnow' by (intros q; apply now_set_now).
  assert (forall q, disk w' q = disk w q) as Hdisk' by (intros q; apply disk_set_now).
  destruct Hok as [H1 H2 H3 H4]. split; [split|].
  - intros q j. rewrite Hnow'. destruct (decide _); [done|apply H1].
  - intros q j. rewrite Hnow', Hdisk'. cbn. destruct (decide _) as [->|]; [|apply H2].
    intros [[=]|Hk]. eapply H2. by right.
  - intros q j Hq. rewrite Hdisk', Hnow'. intros Hk. destruct (decide _) as [->|]; [done|by apply H3].
  - intros q prefix j g Hq1 Hq2. rewrite Hnow'. cbn. destruct (decide _); [done|by apply H4].
  - split.
    + split; [cbn; eauto| |intros q j _; by rewrite Hdisk'|cbn; eauto 6].
      intros q j Hq. rewrite Hnow'. destruct (decide _) as [->|]; [done|done].
    + intros u Hu. split; [cbn; eauto|]. intros q j g Hq Hj Hg Hc. rewrite Hnow'.
      destruct (decide _) as [->|]; [|done]. exfalso. apply Hu. congruence.
Qed.

(** ** Rules *)

(** A call that leaves the file system as it is. *)
Definition reading {X} (c : os X) : Prop := forall ch w, (os_exec X c ch w).2 = w.

Lemma rg_read {X A} t (c : os X) (k : X -> prog os A) Q w :
  reading c ->
  (forall w1 ch x, srely t w w1 -> store_ok w1 -> os_exec X c ch w1 = (x, w1) -> srg t (k x) Q w1) ->
  srg t (bind (trigger c) k) Q w.
Proof.
  intros Hc Hk. apply rg_call; [apply _|]. intros w1 ch x w2 Hr Hok He.
  pose proof (Hc ch w1) as Hw. rewrite He in Hw. cbn in Hw. subst w2.
  destruct (step_same t w1 Hok) as [? ?]. split_and!; [done..|]. intros _. by eapply Hk.
Qed.

(** A call that may change it. *)
Lemma rg_write {X A} t (c : os X) (k : X -> prog os A) Q w :
  (forall w1 ch x w2, srely t w w1 -> store_ok w1 -> os_exec X c ch w1 = (x, w2) ->
     step_ok t w1 w2 /\ (store_mono w w2 -> srg t (k x) Q w2)) ->
  srg t (bind (trigger c) k) Q w.
Proof.
  intros Hc. apply rg_call; [apply _|]. intros w1 ch x w2 Hr Hok He.
  destruct (Hc _ _ _ _ Hr Hok He) as [[? ?] ?]. done.
Qed.

(** Reading needs no more than that the reading calls are. *)
Lemma reading_intro {X} (c : os X) : (forall ch w, exists x, os_exec X c ch w = (x, w)) -> reading c.
Proof. intros Hc ch w. by destruct (Hc ch w) as [x ->]. Qed.

Ltac solve_reading := intros ? ?; cbn [os_exec]; repeat case_match; reflexivity.

(** The values of an argument check do not depend on the file system. *)
Lemma rg_badArguments {A} t store_nil ctx_nil rest (k : bool -> prog os A) Q w :
  (store_nil || ctx_nil = false -> rest = false -> forall w1, srely t w w1 -> srg t (k false) Q w1) ->
  (forall w1, srg t (k true) Q w1) ->
  srg t (bind (badArguments (trigger CtxErr) store_nil ctx_nil rest) k) Q w.
Proof.
  intros Hf Ht. unfold badArguments. destruct (store_nil || ctx_nil) eqn:E; cbn [bind]; [apply Ht|].
  intros w1 Hr Hok ch x w2 [= <- <-]. destruct (step_same t w1 Hok). split_and!; [done..|].
  cbn [bind]. destruct (ch_cancelled ch || rest) eqn:Er; [apply Ht|]. bool_props. by apply Hf.
Qed.

Lemma rg_argumentError {A} t ctx_nil key (f : client_error -> A) (Q : A -> fs -> Prop) w :
  (forall e w', Q (f e) w') ->
  srg t (let! e := storeArgumentError (trigger CtxErr) ctx_nil key in Ret (f e)) Q w.
Proof.
  intros HQ. unfold storeArgumentError. destruct ctx_nil; cbn [bind]; [intros ? _ _; apply HQ|].
  intros w1 Hr Hok ch x w2 [= <- <-]. destruct (step_same t w1 Hok). split_and!; [done..|].
  cbn [bind]. destruct (ch_cancelled ch); [intros ? _ _; apply HQ|]. destruct (validStateKey key); intros ? _ _; apply HQ.
Qed.

(** ** Directory scans *)

Lemma listing_spec w d e :
  e ∈ listing w d <-> exists i, now w (d, de_name e) = Some i /\ de_isdir e = is_dir_file w i.
Proof.
  unfold listing. rewrite list_elem_of_omap. split.
  - intros ([[d' name] en] & Hin & Hx). cbn in Hx. case_bool_decide as Hd; [subst d'|done].
    destruct (e_now en) as [i|] eqn:Hi; [|done]. cbn in Hx. injection Hx as <-. exists i. cbn. split; [|done].
    unfold now. apply elem_of_map_to_list in Hin. by rewrite Hin.
  - intros (i & Hn & Hd). apply bind_Some in Hn as (en & He & Hn). exists ((d, de_name e), en). split; [by apply elem_of_map_to_list|]. cbn.
    rewrite bool_decide_eq_true_2 by done. rewrite Hn. cbn. rewrite <- Hd. by destruct e.
Qed.

Lemma holds_listed w d prefix v i b t :
  holds w d prefix v i b t -> mkDirEntry (version_name prefix v) false ∈ listing w d.
Proof.
  intros [Hn Hf _ _ _]. apply listing_spec. exists i. split; [done|]. unfold is_dir_file. by rewrite Hf.
Qed.

(** What a listing shows of a version is in the directory. *)
Lemma listed_well_named w d prefix e :
  store_ok w -> version_prefix prefix -> e ∈ listing w d -> well_named prefix e.
Proof.
  intros Hok Hp (i & Hn & Hd)%listing_spec Hdir Hname.
  destruct (ok_file _ Hok _ _ (or_introl Hn)) as [f Hf].
  destruct (ok_frame _ Hok (d, de_name e) prefix _ _ Hp Hname Hn Hf) as [Hk|(v & b & t & Hv & Hb & He & ->)].
  - rewrite Hdir in Hd. unfold is_dir_file in Hd. by rewrite Hf, Hk in Hd.
  - by exists v.
Qed.

Lemma listed_present w d prefix v :
  store_ok w -> version_prefix prefix -> valid_version v ->
  mkDirEntry (version_name prefix v) false ∈ listing w d -> present w d prefix v.
Proof.
  intros Hok Hp Hvv (i & Hn & Hd)%listing_spec. cbn [de_name de_isdir] in *.
  destruct (ok_file _ Hok _ _ (or_introl Hn)) as [f Hf].
  destruct (ok_frame _ Hok (d, version_name prefix v) prefix _ _ Hp (version_name_is prefix v) Hn Hf) as [Hk|(v' & b & t & Hv & Hb & He & ->)].
  - unfold is_dir_file in Hd. by rewrite Hf, Hk in Hd.
  - cbn in He. apply version_name_inj in He as <-; [|done..]. by exists i, b, t.
Qed.

(** A possible result of reading a directory while it changes. *)
Lemma read_dir_spec ch d w0 w1 :
  let l := read_dir (listing w0 d) ch d w1 in
  (forall e, e ∈ listing w0 d -> e ∈ listing w1 d -> e ∈ l) /\
  (forall e, e ∈ l -> e ∈ listing w0 d \/ e ∈ listing w1 d).
Proof.
  unfold read_dir, possible_listing. cbv zeta. destruct (_ && _ && _) eqn:E; [|by eauto].
  apply andb_true_iff in E as [[_ Hseen]%andb_true_iff Hback].
  rewrite forallb_Forall, List.Forall_forall in Hseen, Hback. split.
  - intros e He0 He1. apply (bool_decide_eq_true_1 _), Hseen, filter_In.
    split; [by apply list_elem_of_In|by apply bool_decide_eq_true_2].
  - intros e He%list_elem_of_In. apply elem_of_app, (bool_decide_eq_true_1 _), Hback, He.
Qed.

(** ** Reading the directory *)

(** A scan that started at [w0] finds a version at least as high as every one
    that was there, and one that is there. *)
Definition highest_post (w0 : fs) (d prefix : bytes) (r : result client_error Z) (w : fs) : Prop :=
  match r with
  | Ok h => (forall v, present w0 d prefix v -> v <= h) /\ (h = 0 \/ present w d prefix h)
  | Err _ => True
  end.

Lemma scan_listing w0 w1 d prefix ch :
  store_ok w0 -> store_ok w1 -> store_mono w0 w1 -> version_prefix prefix ->
  highest_post w0 d prefix (scanVersions prefix (read_dir (listing w0 d) ch d w1) 0) w1.
Proof.
  intros Hok0 Hok1 Hm Hp. destruct (read_dir_spec ch d w0 w1) as [Hin Hout].
  destruct (scan_spec prefix (read_dir (listing w0 d) ch d w1) 0) as (h & -> & _ & Hup & Hc); [|lia|].
  { apply List.Forall_forall. intros e He%list_elem_of_In. destruct (Hout e He) as [Hl|Hl];
    eapply listed_well_named; [..|exact Hl| | |exact Hl]; done. }
  split.
  - intros v (i & b & t & Hh). apply Hup; [apply Hh|].
    apply Hin; eapply holds_listed; [done|by eapply holds_mono].
  - destruct Hc as [->|[Hv He]]; [by left|right].
    destruct (Hout _ He) as [Hl|Hl]; [|by apply listed_present].
    apply (present_mono w0); [done|]. by apply listed_present.
Qed.

Lemma rg_loadHighestVersion t d prefix w0 :
  version_prefix prefix -> srg t (loadHighestVersion d prefix) (highest_post w0 d prefix) w0.
Proof.
  intros Hp. unfold loadHighestVersion, readBoundedDirectory. cbn [bind trigger].
  intros w1 Hr1 Hok1 ch1 x1 w1' He1.
  assert (w1' = w1 /\ (x1 = Some NotExist -> fs_dirs w1 !! d = None)) as [-> Hne].
  { cbn in He1. unfold fault in He1. repeat case_match; by simplify_eq. }
  split; [done|]. split; [by apply step_same|].
  destruct x1 as [e|]; cbn [bind].
  { destruct e; [|by intros ? _ _..]. intros w Hr Hok.
    split; [|by left]. intros v (i & b & u & Hh). exfalso.
    apply (holds_mono w0 w1) in Hh; [|by apply Hr1].
    destruct (ok_dir _ Hok1 _ _ (holds_now _ _ _ _ _ _ _ Hh)) as [? Hd]. cbn in Hd. by rewrite Hne in Hd. }
  intros w2 Hr2 Hok2 ch2 seen w2' [= <- <-].
  split; [done|]. split; [by apply step_same|]. cbn [bind].
  intros w3 Hr3 Hok3 ch3 r w3' He3.
  assert (w3' = w3) as -> by (cbn in He3; repeat case_match; by simplify_eq).
  split; [done|]. split; [by apply step_same|].
  assert (store_mono w0 w2) as Hm2 by (etrans; [apply Hr1|apply Hr2]).
  assert (forall w h, highest_post w2 d prefix h w3 -> srely t w3 w -> highest_post w0 d prefix h w) as Hfin.
  { intros w [h|e] Hh Hr; [|done]. destruct Hh as [Hup Hc]. split.
    - intros v Hv. apply Hup. by eapply present_mono.
    - destruct Hc as [->|Hc]; [by left|right]. eapply present_mono; [apply Hr|done]. }
  pose proof (scan_listing w2 w3 d prefix ch3 Hok2 Hok3 (rely_mono _ _ _ _ _ Hr3) Hp) as Hscan.
  cbn [os_exec] in He3. unfold fault in He3.
  destruct (ch_fault ch3); [injection He3 as <-; by intros ? _ _|].
  destruct (read_dir (listing w2 d) ch3 d w3) as [|e l] eqn:El; [|rewrite <- El in Hscan, He3];
    injection He3 as <-; cbn [fst snd].
  - change (maximumStateEntries <? len []) with false. cbn [bind]. intros w Hr Hok. by eapply Hfin.
  - clear El e l. set (l := read_dir (listing w2 d) ch3 d w3) in *.
    destruct (maximumStateEntries <? _) eqn:Emax; cbn [bind]; [by intros ? _ _|].
    bool_props. rewrite take_ge; [intros w Hr Hok; by eapply Hfin|].
    unfold len, maximumStateEntries in Emax |- *. rewrite length_take in Emax. lia.
Qed.

(** Reading the file of a version that is there. *)
Lemma rg_readStoreFrame t d prefix v i b u w :
  holds w d prefix v i b u ->
  srg t (readStoreFrame (d, version_name prefix v))
    (fun r _ => match r with Ok frame => frame = encodeStoreFrame v b | Err _ => True end) w.
Proof.
  intros Hh. unfold readStoreFrame.
  apply rg_read; [solve_reading|]. intros w1 ch1 x1 Hr1 Hok1 He1.
  apply (holds_mono w w1) in Hh; [|apply Hr1].
  cbn [os_exec] in He1. rewrite (holds_now _ _ _ _ _ _ _ Hh) in He1.
  destruct (fault ch1); injection He1 as <-; [by intros ? _ _|].
  apply rg_read; [solve_reading|]. intros w2 ch2 x2 Hr2 Hok2 He2.
  apply (holds_mono w1 w2) in Hh; [|apply Hr2].
  cbn [os_exec] in He2. rewrite (holds_file _ _ _ _ _ _ _ Hh) in He2.
  destruct (fault ch2); injection He2 as <-; [by intros ? _ _|].
  cbn [frame_file f_kind f_data]. destruct (_ || _) in |- *; [by intros ? _ _|].
  apply rg_read; [solve_reading|]. intros w3 ch3 x3 Hr3 Hok3 He3.
  apply (holds_mono w2 w3) in Hh; [|apply Hr3].
  cbn [os_exec] in He3. rewrite (holds_file _ _ _ _ _ _ _ Hh) in He3. cbn [frame_file f_data] in He3.
  destruct (fault ch3); apply (f_equal fst) in He3; cbn [fst] in He3; subst x3; cbn [fst snd is_err orb];
    [by intros ? _ _|].
  pose proof (frame_length v b) as Hlen. pose proof (holds_body _ _ _ _ _ _ _ Hh) as Hb.
  unfold valid_body in Hb. rewrite take_ge by (unfold len in *; lia).
  destruct (_ <? _); by intros ? _ _.
Qed.

Lemma rg_loadHighestDirectory t d w0 :
  srg t (loadHighestDirectory d) (highest_post w0 d stagePrefix) w0.
Proof.
  unfold loadHighestDirectory. eapply rg_bind; [apply _|apply rg_loadHighestVersion; by left|].
  intros [h|e] w1 Hm1 Hok1 Hh; [|by intros ? _ _]. destruct (h =? 0) eqn:Eh.
  - intros w Hr Hok. destruct Hh as [Hup Hc]. split; [done|]. left. by bool_props.
  - destruct Hh as [Hup [->|(i & b & u & Hh)]]; [done|].
    eapply rg_bind; [apply _|by apply (rg_readStoreFrame t d stagePrefix h i b u)|].
    intros [frame|e] w2 Hm2 Hok2 Hf; [|by intros ? _ _]. cbn beta in Hf. subst frame.
    rewrite frame_decode by apply Hh. rewrite Z.eqb_refl. cbn [negb].
    intros w Hr Hok. split; [done|right]. exists i, b, u. eapply holds_mono; [|exact Hh]. etrans; [exact Hm2|apply Hr].
Qed.

(** ** Making names durable *)

(** What a successful sync of [d] that started at [w0] put on disk. *)
Definition synced_since (w0 : fs) (d : bytes) (w : fs) : Prop :=
  (forall p i, p.1 = d -> state_path p -> now w0 p = Some i -> disk w p = Some i) /\
  (forall c, child_of d c = true -> is_Some (fs_dirs w0 !! c) -> fs_dirs w !! c = Some true).

Lemma synced_since_mono w0 d w w' : store_mono w w' -> synced_since w0 d w -> synced_since w0 d w'.
Proof.
  intros Hm [Hp Hc]. split.
  - intros p i Hd Hs Hn. apply (mono_disk _ _ Hm); [done|by apply Hp].
  - intros c Hd Hs. destruct (mono_dirs _ _ Hm _ _ (Hc c Hd Hs)) as (b & -> & Hb). by rewrite Hb.
Qed.

Lemma synced_since_sync w0 d w : store_mono w0 w -> synced_since w0 d (sync_dir d w).
Proof.
  intros Hm. split.
  - intros p i Hd Hs Hn. rewrite disk_sync_dir, bool_decide_eq_true_2 by done. by apply (mono_now _ _ Hm).
  - intros c Hd [b Hb]. apply (mono_dirs _ _ Hm) in Hb as (b' & Hb' & _).
    rewrite (dirs_sync_dir _ _ _ _ Hb'), Hd. by rewrite orb_true_r.
Qed.

Lemma rg_syncDirectory t windows d w0 :
  srg t (syncDirectory windows d)
    (fun r w => r = None -> windows = false -> synced_since w0 d w) w0.
Proof.
  unfold syncDirectory. apply rg_read; [solve_reading|]. intros w1 ch1 x1 Hr1 Hok1 _.
  destruct x1; [by intros ? _ _ ?|].
  apply rg_write. intros w2 ch2 x2 w3 Hr2 Hok2 He. cbn [os_exec] in He.
  destruct (fault ch2); injection He as <- <-.
  - split; [by apply step_same|]. intros _. cbn [is_err andb]. destruct windows; [|by intros ? _ _].
    intros ? _ _. done.
  - split; [by apply step_sync_dir|]. intros _ w Hr Hok _ _.
    eapply synced_since_mono; [apply Hr|]. apply synced_since_sync. etrans; [apply Hr1|apply Hr2].
Qed.

Lemma rg_commitVersion t windows d v w0 :
  srg t (commitVersion windows d v)
    (fun r w => r = None ->
       (windows = false -> synced_since w0 d w) /\ (forall v', present w0 d stagePrefix v' -> v' <= v)) w0.
Proof.
  unfold commitVersion. eapply rg_bind; [apply _|apply rg_syncDirectory|].
  intros [e|] w1 Hm1 Hok1 Hs; [by intros ? _ _|].
  eapply rg_bind; [apply _|apply rg_loadHighestDirectory|].
  intros [h|e] w2 Hm2 Hok2 Hh; [|by intros ? _ _].
  destruct (v <? h) eqn:E1; [by intros ? _ _|]. destruct (negb _) eqn:E2; [by intros ? _ _|]. bool_props. subst h.
  intros w Hr Hok _. split.
  - intros Hw. eapply synced_since_mono; [|by apply Hs]. etrans; [exact Hm2|apply Hr].
  - intros v' Hv'. apply Hh. by eapply present_mono.
Qed.

(** ** Staging *)

(** The temporary file of the program [t] with its contents so far. *)
Record temporary (t : nat) (h : handle) (f : file) (w : fs) : Prop := {
  temp_path : ~ state_path (h_path h);
  temp_now : now w (h_path h) = Some (h_ino h);
  temp_file : fs_files w !! h_ino h = Some f;
  temp_creator : f_creator f = t;
}.

Lemma temporary_rely t h f w w' : srely t w w' -> temporary t h f w -> temporary t h f w'.
Proof.
  intros [_ [Hf Hn]] [Hp Hnow Hfile Hc]. split; [done| |by apply Hf|done]. by eapply Hn.
Qed.

Lemma temp_not_state d r : ~ state_path (d, temp_name tempPrefix r).
Proof. intros (prefix & Hp & Hn). cbn [snd] in Hn. by rewrite temp_not_version in Hn. Qed.

(** A step on the contents of the own temporary file. *)
Lemma temporary_contents t h f f' w :
  store_ok w -> temporary t h f w -> f_synced f = false -> f_creator f' = t -> f_kind f' = f_kind f ->
  step_ok t w (set_file (h_ino h) f' w) /\ temporary t h f' (set_file (h_ino h) f' w).
Proof.
  intros Hok [Hp Hnow Hfile Hc] Hs Hc' Hk. split; [by eapply step_contents|].
  split; [done|done| |done]. cbn. by rewrite lookup_insert_eq.
Qed.

(** [writeAll] appends the whole body, or fails. *)
Lemma rg_writeAll t h body fuel data w :
  (length body <= fuel)%nat -> temporary t h (mkFile Regular data false t) w ->
  srg t (writeAll fuel h body)
    (fun r w' => exists data', temporary t h (mkFile Regular data' false t) w' /\
                               (r = None -> data' = data ++ body)) w.
Proof.
  revert body data w. induction fuel as [|fuel IH]; intros body data w Hfuel Ht.
  { destruct body; [|cbn in Hfuel; lia]. intros w1 Hr Hok. exists data. rewrite app_nil_r.
    split; [by eapply temporary_rely|done]. }
  destruct body as [|c body]; [intros w1 Hr Hok; exists data; rewrite app_nil_r; split; [by eapply temporary_rely|done]|].
  set (l := c :: body) in *. change (writeAll (S fuel) h l) with
    (let! r := trigger (WriteFile h l) in
     if is_err r.2 || (r.1 <=? 0) || (len l <? r.1) then Ret (Some ErrStore)
     else writeAll fuel h (drop (Z.to_nat r.1) l)).
  apply rg_write. intros w1 ch x w2 Hr Hok He. apply (temporary_rely _ _ _ _ _ Hr) in Ht.
  cbn [os_exec] in He. rewrite (temp_file _ _ _ _ Ht) in He. cbn [f_kind f_data f_creator] in He.
  set (n := clamp 0 (len l) (ch_count ch)) in He. injection He as <- <-. cbn [fst snd].
  destruct (temporary_contents t h _ (mkFile Regular (data ++ take (Z.to_nat n) l) false t) w1 Hok Ht)
    as [Hstep Ht']; [done..|].
  split; [done|]. intros _.
  destruct (_ || _) eqn:E.
  - intros w3 Hr3 _. eexists. split; [by eapply temporary_rely|done].
  - assert (length (drop (Z.to_nat n) l) <= fuel)%nat as Hfuel'.
    { bool_props. rewrite length_drop. clearbody n l. lia. }
    eapply rg_mono; [apply _| |apply (IH _ _ _ Hfuel' Ht')].
    intros r w' _ (data' & Hd & Hr'). exists data'. split; [done|]. intros Hn. rewrite (Hr' Hn), <- app_assoc.
    by rewrite take_drop.
Qed.

(** Its contents are the whole frame and on disk, or writing failed. *)
Lemma rg_writeTemporary t v b h w :
  temporary t h (mkFile Regular [] false t) w ->
  srg t (writeTemporary (encodeStoreFrame v b) h)
    (fun failed w' => exists f, temporary t h f w' /\ (failed = false -> f = frame_file v b t)) w.
Proof.
  intros Ht. unfold writeTemporary.
  assert (forall f w1, temporary t h f w1 -> srg t (Ret true)
    (fun failed w' => exists f, temporary t h f w' /\ (failed = false -> f = frame_file v b t)) w1) as Hfail.
  { intros f w1 Hf w2 Hr _. exists f. split; [by eapply temporary_rely|done]. }
  apply rg_read; [solve_reading|]. intros w1 ch1 x1 Hr1 Hok1 _. apply (temporary_rely _ _ _ _ _ Hr1) in Ht.
  destruct x1; [by eapply Hfail|]. cbn [is_err].
  eapply rg_bind; [apply _|by apply rg_writeAll|].
  intros err w2 Hm2 Hok2 (data & Ht2 & Hdata). destruct err; [by eapply Hfail|]. rewrite (Hdata eq_refl) in Ht2.
  clear Ht Hdata data. cbn [is_err app] in *.
  apply rg_write. intros w3 ch3 x3 w4 Hr3 Hok3 He3. apply (temporary_rely _ _ _ _ _ Hr3) in Ht2.
  cbn [os_exec] in He3. rewrite (temp_file _ _ _ _ Ht2) in He3. cbn [f_kind f_data f_creator] in He3.
  destruct (fault ch3) as [e|]; apply pair_equal_spec in He3 as [<- <-].
  { split; [by apply step_same|]. intros _. by eapply Hfail. }
  destruct (temporary_contents t h _ (frame_file v b t) w3 Hok3 Ht2) as [Hs3 Ht3]; [done..|].
  split; [done|]. intros Hm3. cbn [is_err].
  apply rg_read; [solve_reading|]. intros w5 ch5 x5 Hr5 Hok5 _. apply (temporary_rely _ _ _ _ _ Hr5) in Ht3.
  intros w6 Hr6 _. exists (frame_file v b t). split; [by eapply temporary_rely|done].
Qed.

(** After staging: the name of the temporary file is still there unless the
    staging completed, and a nil error means that the version is in place. *)
Definition staged_post (t : nat) (windows : bool) (d : bytes) (v : Z) (b : bytes) (h : handle)
    (r : bool * option client_error) (w : fs) : Prop :=
  (r.1 = false -> exists f, temporary t h f w) /\
  (r.2 = None -> exists i, holds w d stagePrefix v i b t /\
     (windows = false -> disk w (d, stageFilename v) = Some i)).

Lemma rg_staged_fail t windows d v b h f e w :
  temporary t h f w -> srg t (Ret (false, Some e)) (staged_post t windows d v b h) w.
Proof. intros Hf w2 Hr _. split; [|done]. intros _. exists f. by eapply temporary_rely. Qed.

Lemma stage_state d v : state_path (d, stageFilename v).
Proof. apply (version_state d stagePrefix v). by left. Qed.

(** From the new name on. *)
Lemma rg_linked t windows d v b h w :
  temporary t h (frame_file v b t) w -> holds w d stagePrefix v (h_ino h) b t ->
  srg t (let! err := trigger (Remove (h_path h)) in
         if is_err err then Ret (false, Some ErrStore)
         else let! err := commitVersion windows d v in Ret (true, err)) (staged_post t windows d v b h) w.
Proof.
  intros Ht Hh. apply rg_write. intros w1 ch1 x1 w2 Hr1 Hok1 He1. apply (temporary_rely _ _ _ _ _ Hr1) in Ht.
  cbn [os_exec] in He1. rewrite (temp_now _ _ _ _ Ht) in He1.
  destruct (fault ch1) as [e|]; injection He1 as <- <-;
    [split; [by apply step_same|]; intros _; by eapply rg_staged_fail|].
  split; [eapply step_remove; [done|apply Ht..]|]. intros Hm2. cbn [is_err].
  apply (holds_mono _ _ _ _ _ _ _ _ Hm2) in Hh.
  eapply rg_bind; [apply _|apply rg_commitVersion|].
  intros err w3 Hm3 Hok3 Hc w4 Hr4 Hok4. split; [done|]. cbn [snd]. intros ->.
  destruct (Hc eq_refl) as [Hsync _]. exists (h_ino h).
  split; [eapply holds_mono; [|exact Hh]; etrans; [exact Hm3|apply Hr4]|].
  intros Hw. apply (mono_disk _ _ (rely_mono _ _ _ _ _ Hr4)); [apply stage_state|].
  apply (Hsync Hw); [done|apply stage_state|apply Hh].
Qed.

Lemma rg_publishTemporary t windows d v b h w :
  temporary t h (frame_file v b t) w -> is_Some (fs_dirs w !! d) -> valid_version v -> valid_body b ->
  srg t (publishTemporary windows d v h) (staged_post t windows d v b h) w.
Proof.
  intros Ht Hd Hv Hb. unfold publishTemporary.
  apply rg_read; [solve_reading|]. intros w1 ch1 x1 Hr1 Hok1 _. apply (temporary_rely _ _ _ _ _ Hr1) in Ht.
  destruct x1 as [[]|]; try by eapply rg_staged_fail.
  apply rg_write. intros w2 ch2 x2 w3 Hr2 Hok2 He2. apply (temporary_rely _ _ _ _ _ Hr2) in Ht.
  cbn [os_exec] in He2. rewrite (temp_now _ _ _ _ Ht) in He2.
  assert (store_mono w w2) as Hm2 by (etrans; [apply Hr1|apply Hr2]).
  destruct (fault ch2) as [e|]; [|destruct (now w2 (d, stageFilename v)) eqn:Hnew]; injection He2 as <- <-;
    [split; [by apply step_same|]; intros _; cbn [is_err]; apply rg_read; [solve_reading|];
     intros w4 ch4 x4 Hr4 Hok4 _; destruct x4; cbn [is_nil]; eapply rg_staged_fail; by eapply temporary_rely..|].
  destruct Hd as [db Hd]. apply (mono_dirs _ _ Hm2) in Hd as (db' & Hd' & _).
  destruct (step_link t d stagePrefix v (h_ino h) b t w2) as [Hs3 Hh3]; [done|by rewrite Hd'|by left|done..|apply Ht|].
  change (version_name stagePrefix v) with (stageFilename v) in *.
  split; [done|]. intros _. cbn [is_err]. apply rg_linked; [|done].
  destruct Ht as [Hp Hnow Hf Hc]. split; [done| |done|done]. rewrite now_set_now.
  destruct (decide _) as [Heq|]; [|done]. exfalso. apply Hp. rewrite Heq. apply stage_state.
Qed.

Lemma rg_stageTemporary t windows d v b h w :
  temporary t h (mkFile Regular [] false t) w -> is_Some (fs_dirs w !! d) -> valid_version v -> valid_body b ->
  srg t (stageTemporary windows d v (encodeStoreFrame v b) h) (staged_post t windows d v b h) w.
Proof.
  intros Ht Hd Hv Hb. unfold stageTemporary. eapply rg_bind; [apply _|by apply rg_writeTemporary|].
  intros failed w1 Hm1 Hok1 (f & Ht1 & Hf). destruct failed; [by eapply rg_staged_fail|].
  rewrite (Hf eq_refl) in Ht1. destruct Hd as [db (db' & Hd' & _)%(mono_dirs _ _ Hm1)].
  apply rg_read; [solve_reading|]. intros w2 ch2 x2 Hr2 Hok2 _. apply (temporary_rely _ _ _ _ _ Hr2) in Ht1.
  destruct x2; [by eapply rg_staged_fail|].
  apply rg_publishTemporary; [done| |done..].
  destruct (mono_dirs _ _ (rely_mono _ _ _ _ _ Hr2) _ _ Hd') as (? & -> & _). done.
Qed.

(** ** Methods *)

(** A version that a successful [StageAndAdvance] of the program [t], started at
    [w0], has put in place. *)
Definition stage_post (t : nat) (windows : bool) (store : DirectoryStore) (key : bytes) (v : Z) (b : bytes)
    (w0 : fs) (r : option client_error) (w : fs) : Prop :=
  r = None ->
  let d := stateDirectory store key in
  exists i, holds w d stagePrefix v i b t /\ (windows = false -> durable w d stagePrefix v i) /\
            forall v', present w0 d stagePrefix v' -> v' < v.

Lemma hex_no_slash l : forallb (fun x => negb (bool_decide (x = "/"%byte))) (hex_encode l) = true.
Proof.
  induction l as [|c l IH]; [done|]. change (hex_encode (c :: l)) with (hex_byte c ++ hex_encode l).
  rewrite forallb_app, IH, andb_true_r. by destruct c.
Qed.

Lemma stateDirectory_child store key : child_of (store_root store) (stateDirectory store key) = true.
Proof.
  unfold child_of, stateDirectory. set (name := hex_encode _).
  replace (Join (store_root store) name) with (Join (store_root store) [] ++ name)
    by (unfold Join; by rewrite <- app_assoc).
  rewrite has_prefix_app, drop_app_length. apply hex_no_slash.
Qed.

(** The temporary file and its clean-up. *)
Lemma rg_stageFrame t windows d v b w :
  is_Some (fs_dirs w !! d) -> valid_version v -> valid_body b ->
  srg t (stageFrame t windows d v (encodeStoreFrame v b))
    (fun r w' => r = None -> exists i, holds w' d stagePrefix v i b t /\
       (windows = false -> disk w' (d, stageFilename v) = Some i)) w.
Proof.
  intros [db Hd] Hv Hb. unfold stageFrame. apply rg_write. intros w1 ch1 x1 w2 Hr1 Hok1 He1. cbn [os_exec] in He1.
  apply (mono_dirs _ _ (rely_mono _ _ _ _ _ Hr1)) in Hd as (db' & Hd & _). rewrite Hd in He1.
  destruct (fault ch1); [injection He1 as <- <-; split; [by apply step_same|]; by intros _ ? _ _|].
  destruct (now w1 _) eqn:Hnow in He1; injection He1 as <- <-; [split; [by apply step_same|]; by intros _ ? _ _|].
  destruct (step_create t d (d, temp_name tempPrefix (ch_random ch1)) w1) as (Hs & Hn & Hf);
    [done|by rewrite Hd|done|apply temp_not_state|done|].
  split; [done|]. intros Hm2. set (h := mkHandle _ _).
  eapply rg_bind; [apply _|apply (rg_stageTemporary t windows d v b h); [|by cbn; rewrite Hd|done..]|].
  { split; [apply temp_not_state|done..]. }
  intros [completed err] w3 Hm3 Hok3 [Htemp Hdone]. cbn [fst snd] in *.
  apply rg_read; [solve_reading|]. intros w4 ch4 x4 Hr4 Hok4 _.
  assert (forall w5, store_mono w4 w5 -> err = None -> exists i, holds w5 d stagePrefix v i b t /\
            (windows = false -> disk w5 (d, stageFilename v) = Some i)) as Hfin.
  { intros w5 Hm5 He. destruct (Hdone He) as (i & Hh & Hk). exists i.
    assert (store_mono w3 w5) as Hm by (etrans; [apply Hr4|done]).
    split; [by eapply holds_mono|]. intros Hw. apply (mono_disk _ _ Hm); [apply stage_state|by apply Hk]. }
  destruct completed; [intros w5 Hr5 Hok5; apply Hfin, Hr5|]. destruct (Htemp eq_refl) as [f Hf3].
  apply (temporary_rely _ _ _ _ _ Hr4) in Hf3.
  apply rg_write. intros w5 ch5 x5 w6 Hr5 Hok5 He5. apply (temporary_rely _ _ _ _ _ Hr5) in Hf3.
  cbn [os_exec] in He5. rewrite (temp_now _ _ _ _ Hf3) in He5.
  assert (step_ok t w5 w6) as Hs6.
  { destruct (fault ch5); injection He5 as <- <-; [by apply step_same|]. eapply step_remove; [done|apply Hf3..]. }
  split; [done|]. intros Hm6 w7 Hr7 Hok7. apply Hfin. etrans; [apply Hm6|apply Hr7].
Qed.

Lemma rg_StageAndAdvance t windows store ctx_nil key v b w0 :
  is_u64 v ->
  srg t (StageAndAdvance t windows (Some store) ctx_nil key v b) (stage_post t windows store key v b w0) w0.
Proof.
  intros Hv. unfold StageAndAdvance. apply rg_badArguments; [|intros w1; by apply rg_argumentError].
  intros _ Hrest w1 Hr1. bool_props.
  assert (valid_version v) as Hvv by (unfold valid_version, is_u64 in *; lia).
  assert (valid_body b) as Hbb by (unfold valid_body in *; lia).
  set (d := stateDirectory store key). cbn [is_nil].
  apply rg_write. intros w2 ch2 x2 w3 Hr2 Hok2 He2. cbn [os_exec] in He2.
  destruct (fault ch2); injection He2 as <- <-; [split; [by apply step_same|]; by intros _ ? _ _|].
  split; [by apply step_mkdir|]. intros Hm3. cbn [is_err].
  assert (is_Some (fs_dirs (mkdir d w2) !! d)) as Hd3.
  { unfold mkdir. destruct (fs_dirs w2 !! d) eqn:E; [by rewrite E|]. cbn. by rewrite lookup_insert_eq. }
  eapply rg_bind; [apply _|apply rg_syncDirectory|].
  intros [e|] w4 Hm4 Hok4 Hsync; [by intros ? _ _|]. cbn [is_err]. fold d.
  eapply rg_bind; [apply _|apply rg_loadHighestDirectory|].
  intros [highest|e] w5 Hm5 Hok5 Hh; [|by intros ? _ _].
  destruct (v <=? highest) eqn:El; [by intros ? _ _|]. bool_props.
  destruct Hd3 as [db Hd3].
  destruct (mono_dirs _ _ (transitivity Hm4 Hm5) _ _ Hd3) as (db' & Hd5 & _).
  eapply rg_mono; [apply _| |apply rg_stageFrame; [by rewrite Hd5|done..]].
  intros r w6 Hm6 Hpost ->. destruct (Hpost eq_refl) as (i & Hhold & Hdisk). exists i. fold d.
  split; [done|]. split.
  - intros Hw. split; [by apply Hdisk|].
    destruct (Hsync eq_refl Hw) as [_ Hdirs].
    pose proof (Hdirs d (stateDirectory_child store key) ltac:(by rewrite Hd3)) as Hd4.
    destruct (mono_dirs _ _ (transitivity Hm5 Hm6) _ _ Hd4) as (b6 & -> & Hb6). by rewrite Hb6.
  - intros v' Hv'. destruct Hh as [Hup _]. enough (v' <= highest) by lia. apply Hup.
    eapply present_mono; [|exact Hv']. etrans; [apply Hr1|]. by etrans.
Qed.

(** A successful [Activate] started at [w0]: the version is marked, it is staged,
    and it was the highest. *)
Definition activate_post (windows : bool) (store : DirectoryStore) (key : bytes) (v : Z)
    (w0 : fs) (r : option client_error) (w : fs) : Prop :=
  r = None ->
  let d := stateDirectory store key in
  (exists i b u, holds w d activePrefix v i b u /\ (windows = false -> disk w (d, activeFilename v) = Some i)) /\
  present w d stagePrefix v /\ forall v', present w0 d stagePrefix v' -> v' <= v.

Lemma active_state d v : state_path (d, activeFilename v).
Proof. apply (version_state d activePrefix v). by right. Qed.

Lemma rg_markerCommit t windows store key v w0 w i b u :
  let d := stateDirectory store key in
  store_mono w0 w -> holds w d activePrefix v i b u -> present w d stagePrefix v ->
  srg t (commitVersion windows d v) (activate_post windows store key v w0) w.
Proof.
  intros d Hm0 Hh Hp. eapply rg_mono; [apply _| |apply rg_commitVersion].
  intros r w' Hm Hc ->. destruct (Hc eq_refl) as [Hsync Hup]. split; [|split].
  - exists i, b, u. split; [by eapply holds_mono|]. intros Hw.
    apply (Hsync Hw); [done|apply active_state|apply Hh].
  - by eapply present_mono.
  - intros v' Hv'. apply Hup. by eapply present_mono.
Qed.

(** A marker that is already there. *)
Lemma marker_present w d v : store_ok w -> valid_version v ->
  now w (d, activeFilename v) <> None -> present w d activePrefix v \/
  exists i f, now w (d, activeFilename v) = Some i /\ fs_files w !! i = Some f /\ f_kind f = Directory.
Proof.
  intros Hok Hv Hn. destruct (now w (d, activeFilename v)) as [i|] eqn:Hi; [|done]. clear Hn.
  destruct (ok_file _ Hok _ _ (or_introl Hi)) as [f Hf].
  destruct (ok_frame _ Hok (d, activeFilename v) activePrefix i f) as [Hk|(v' & b & u & Hv' & Hb & He & ->)];
    [by right|apply (version_name_is activePrefix v)|done..|right; by exists i, f|left].
  apply version_name_inj in He as <-; [|done..]. exists i, b, u. split; try done. by right.
Qed.

(** Reading a directory that has the name of a marker fails. *)
Lemma rg_readDirectory t p i f w : state_path p ->
  now w p = Some i -> fs_files w !! i = Some f -> f_kind f = Directory ->
  srg t (readStoreFrame p) (fun r _ => match r with Ok _ => False | Err _ => True end) w.
Proof.
  intros Hp Hn Hf Hk. unfold readStoreFrame.
  apply rg_read; [solve_reading|]. intros w1 ch1 x1 Hr1 Hok1 He1.
  cbn [os_exec] in He1. rewrite (mono_now _ _ (rely_mono _ _ _ _ _ Hr1) _ _ Hp Hn) in He1.
  destruct (fault ch1); injection He1 as <-; [by intros ? _ _|].
  apply rg_read; [solve_reading|]. intros w2 ch2 x2 Hr2 Hok2 He2.
  destruct (mono_files _ _ (transitivity (rely_mono _ _ _ _ _ Hr1) (rely_mono _ _ _ _ _ Hr2)) _ _ Hf)
    as (f' & Hf' & _ & Hk' & _).
  cbn [os_exec] in He2. rewrite Hf' in He2.
  destruct (fault ch2); injection He2 as <-; [by intros ? _ _|]. rewrite Hk', Hk. cbn. by intros ? _ _.
Qed.

Lemma rg_markVersion t windows store key v w0 w i b u :
  let d := stateDirectory store key in
  let marker := (d, activeFilename v) in
  store_mono w0 w -> holds w d stagePrefix v i b u ->
  srg t (let! err := trigger (Link (d, stageFilename v) marker) in
         if is_err err then
           let! statErr := trigger (Stat marker) in
           if is_err statErr then Ret (Some ErrStore)
           else
             let! markerFrame := readStoreFrame marker in
             match markerFrame with
             | Err _ => Ret (Some ErrStore)
             | Ok markerFrame =>
                 match decodeStoreFrame markerFrame with
                 | None => Ret (Some ErrStore)
                 | Some (markerVersion, _) =>
                     if negb (markerVersion =? v) then Ret (Some ErrStore) else commitVersion windows d v
                 end
             end
         else commitVersion windows d v) (activate_post windows store key v w0) w.
Proof.
  intros d marker Hm0 Hh. apply rg_write. intros w1 ch1 x1 w2 Hr1 Hok1 He1. cbn [os_exec] in He1.
  assert (store_mono w0 w1) as Hm1 by (etrans; [done|apply Hr1]).
  apply (holds_mono w w1) in Hh; [|apply Hr1].
  pose proof (holds_now _ _ _ _ _ _ _ Hh) as Hnow. change (version_name stagePrefix v) with (stageFilename v) in Hnow.
  rewrite Hnow in He1.
  destruct (is_err x1) eqn:Ex.
  - assert (w2 = w1) as -> by (destruct (fault ch1), (now w1 marker); by injection He1 as <- <-).
    split; [by apply step_same|]. intros _.
    apply rg_read; [solve_reading|]. intros w3 ch3 x3 Hr3 Hok3 He3. destruct x3; [by intros ? _ _|].
    cbn [is_err os_exec] in *. apply (holds_mono w1 w3) in Hh; [|apply Hr3].
    assert (now w3 marker <> None) as Hmark.
    { destruct (fault ch3); [done|]. by destruct (now w3 marker). }
    destruct (marker_present w3 d v Hok3 (holds_version _ _ _ _ _ _ _ Hh) Hmark)
      as [(j & b' & u' & Hj)|(j & f & Hj & Hf & Hk)].
    + eapply rg_bind; [apply _|by apply (rg_readStoreFrame t d activePrefix v j b' u')|].
      intros [frame|e] w4 Hm4 Hok4 Hfr; [|by intros ? _ _]. cbn beta in Hfr. subst frame.
      rewrite frame_decode by apply Hj. rewrite Z.eqb_refl. cbn [negb].
      apply (rg_markerCommit t windows store key v w0 w4 j b' u').
      * etrans; [exact Hm1|]. etrans; [apply Hr3|done].
      * by eapply holds_mono.
      * exists i, b, u. by eapply holds_mono.
    + eapply rg_bind; [apply _|by apply (rg_readDirectory t marker j f w3 (active_state d v))|].
      by intros [frame|e] w4 _ _ Hfr; [|intros ? _ _].
  - destruct (fault ch1); [injection He1 as <- <-; done|].
    destruct (now w1 marker) eqn:Hmark; injection He1 as <- <-; [done|].
    destruct (step_link t d activePrefix v i b u w1) as [Hs Hh2];
      [done|by apply (ok_dir _ Hok1 _ _ Hnow)|by right|apply Hh|apply Hh|exact Hmark|apply Hh|].
    split; [done|]. intros Hm2. apply (rg_markerCommit t windows store key v w0 _ i b u); [exact (transitivity Hm0 Hm2)|done|].
    exists i, b, u. eapply holds_mono; [apply Hs|done].
Qed.

Lemma rg_Activate t windows store ctx_nil key v w0 :
  srg t (Activate windows (Some store) ctx_nil key v) (activate_post windows store key v w0) w0.
Proof.
  unfold Activate. apply rg_badArguments; [|intros w1; by apply rg_argumentError].
  intros _ Hrest w1 Hr1. bool_props. set (d := stateDirectory store key). cbn [is_nil].
  eapply rg_bind; [apply _|apply rg_loadHighestDirectory|].
  intros [highest|e] w2 Hm2 Hok2 Hh; [|by intros ? _ _].
  destruct (negb (v =? highest)) eqn:El; [by intros ? _ _|]. bool_props. subst highest.
  destruct Hh as [Hup [->|(i & b & u & Hh)]]; [done|].
  eapply rg_bind; [apply _|by apply (rg_readStoreFrame t d stagePrefix v i b u)|].
  intros [frame|e] w3 Hm3 Hok3 Hf; [|by intros ? _ _]. cbn beta in Hf. subst frame.
  rewrite frame_decode by apply Hh. rewrite Z.eqb_refl. cbn [negb].
  apply rg_read; [solve_reading|]. intros w4 ch4 x4 Hr4 Hok4 _. destruct x4; [by intros ? _ _|].
  apply (rg_markVersion t windows store key v w0 w4 i b u).
  - etrans; [apply Hr1|]. etrans; [exact Hm2|]. etrans; [exact Hm3|apply Hr4].
  - eapply holds_mono; [|exact Hh]. etrans; [exact Hm3|apply Hr4].
Qed.

Lemma rg_LoadHighest t store ctx_nil key w0 :
  srg t (LoadHighest (Some store) ctx_nil key) (highest_post w0 (stateDirectory store key) stagePrefix) w0.
Proof.
  unfold LoadHighest. apply rg_badArguments; [|intros w1; by apply rg_argumentError].
  intros _ _ w1 Hr1. eapply rg_mono; [apply _| |apply rg_loadHighestDirectory].
  intros [h|e] w2 Hm2 Hh; [|done]. destruct Hh as [Hup Hc]. split; [|done].
  intros v Hv. apply Hup. eapply present_mono; [apply Hr1|done].
Qed.

(** A snapshot that [LoadActive], started at [w0], returns: it is marked, and no
    version staged before is higher. *)
Definition active_post (store : DirectoryStore) (key : bytes) (w0 : fs)
    (r : result client_error (Z * bytes)) (w : fs) : Prop :=
  match r with
  | Ok (v, b) =>
      let d := stateDirectory store key in
      (exists i u, holds w d activePrefix v i b u) /\ present w d stagePrefix v /\
      forall v', present w0 d stagePrefix v' -> v' <= v
  | Err _ => True
  end.

Lemma rg_LoadActive t store ctx_nil key w0 :
  srg t (LoadActive (Some store) ctx_nil key) (active_post store key w0) w0.
Proof.
  unfold LoadActive. apply rg_badArguments; [|intros w1; by apply rg_argumentError].
  intros _ _ w1 Hr1. set (d := stateDirectory store key). cbn [is_nil].
  eapply rg_bind; [apply _|apply rg_loadHighestDirectory|].
  intros [highest|e] w2 Hm2 Hok2 Hh; [|by intros ? _ _].
  eapply rg_bind; [apply _|apply rg_loadHighestVersion; by right|].
  intros [a|e] w3 Hm3 Hok3 Ha; [|by intros ? _ _].
  destruct (_ || _) eqn:E; [by intros ? _ _|]. bool_props. subst a.
  destruct Ha as [_ [->|(i & b & u & Ha)]]; [done|].
  eapply rg_bind; [apply _|by apply (rg_readStoreFrame t d activePrefix highest i b u)|].
  intros [frame|e] w4 Hm4 Hok4 Hf; [|by intros ? _ _]. cbn beta in Hf. subst frame.
  rewrite frame_decode by apply Ha. intros w5 Hr5 Hok5. split; [|split].
  - exists i, u. eapply holds_mono; [|exact Ha]. etrans; [exact Hm4|apply Hr5].
  - destruct Hh as [_ [->|Hp]]; [done|]. eapply present_mono; [|exact Hp].
    etrans; [exact Hm3|]. etrans; [exact Hm4|apply Hr5].
  - intros v' Hv'. apply Hh. eapply present_mono; [apply Hr1|done].
Qed.
