(* ===== verification/TrustStoreSystem.v ===== *)
(** Processes that share the directory of a trust store, with crashes.

    Any number of processes run the methods of [DirectoryStore] on one root and
    interleave call by call; a process may die between two calls, and the
    machine may crash, which loses what was not synced.

    The trust store when nothing goes wrong: no call fails, the context is not
    cancelled, writes take everything, and no other process interferes. *)
From Stdlib Require Import ZArith Lia Strings.Byte.
From stdpp Require Import base list sets gmap strings numbers option relations.
From S2P Require Import Prelude GoStd Programs RelyGuarantee FileSystem TrustStore TrustStoreSafety.

#[local] Open Scope go_scope.
#[local] Open Scope prog_scope.

(** ** Crashes *)

(** A crash leaves a directory in order. *)
Lemma crash_ok w w' : crash w w' -> store_ok w -> store_ok w'.
Proof.
  intros Hc [H1 H2 H3 H4].
  assert (forall p i, now w' p = Some i -> is_Some (fs_dirs w' !! p.1) /\ (now w p = Some i \/ disk w p = Some i)) as Hnow.
  { intros p i Hp. destruct (fs_dirs w' !! p.1) eqn:Hd.
    - split; [done|]. rewrite <- Hp. destruct (crash_names _ _ Hc p ltac:(by rewrite Hd)); [left|right]; congruence.
    - by rewrite (crash_names_gone _ _ Hc p Hd) in Hp. }
  split.
  - intros p i Hp. by apply (Hnow p i).
  - intros p i Hp. rewrite (crash_disk _ _ Hc) in Hp. assert (now w' p = Some i) as Hp' by tauto.
    apply (crash_files_fwd _ _ Hc), (H2 p), (Hnow p i Hp').
  - intros p i _. by rewrite (crash_disk _ _ Hc).
  - intros p prefix i f' Hp Hn Hi Hf'.
    assert (now w p = Some i) as Hi0.
    { destruct (proj2 (Hnow p i Hi)) as [|Hk]; [done|]. apply H3; [by exists prefix|done]. }
    destruct (crash_files_back _ _ Hc i f' Hf') as (f & Hf & _ & Hk & _).
    destruct (H4 p prefix i f Hp Hn Hi0 Hf) as [Hdir|(v & b & t & Hv & Hb & He & ->)]; [left; congruence|right].
    exists v, b, t. split_and!; [done..|]. rewrite (crash_files _ _ Hc i _ Hf eq_refl) in Hf'. congruence.
Qed.

(** What is durable survives it. *)
Lemma crash_durable w w' d prefix v i b t :
  crash w w' -> store_ok w -> holds w d prefix v i b t -> durable w d prefix v i ->
  holds w' d prefix v i b t /\ durable w' d prefix v i.
Proof.
  intros Hc Hok Hh [Hdisk Hdir]. pose proof (crash_dirs _ _ Hc d Hdir) as Hdir'.
  assert (now w' (d, version_name prefix v) = Some i) as Hnow.
  { destruct (crash_names _ _ Hc (d, version_name prefix v)) as [-> | ->]; [by cbn; rewrite Hdir'|apply Hh|done]. }
  destruct Hh as [Hn Hf Hv Hb Hp]. split; [split|split]; try done.
  - by apply (crash_files _ _ Hc i _ Hf).
  - by rewrite (crash_disk _ _ Hc).
Qed.

(** ** Programs that share a file system *)

Section System.
(** The requests, what they run, and what their results promise of the file
    system, given the one they started on. *)
Context {Q A : Type}.
Variables (program : nat -> Q -> prog os A) (valid : Q -> Prop) (post : nat * (Q * fs) -> A -> fs -> Prop).
Hypothesis program_ok : forall t q w, valid q -> srg t (program t q) (post (t, (q, w))) w.

(** A running request: who runs it, what it is, and the file system when it
    started. *)
Definition running : Type := (nat * (Q * fs)) * prog os A.
Definition system : Type := list running * fs.

Inductive sys_step : system -> system -> Prop :=
| sys_call s s' : pool_step os_exec s s' -> sys_step s s'
| sys_start pool w t q : t ∉ pool.*1.*1 -> valid q ->
    sys_step (pool, w) (pool ++ [((t, (q, w)), program t q)], w)
| sys_kill pool w i : sys_step (pool, w) (delete i pool, w)
| sys_crash pool w w' : crash w w' -> sys_step (pool, w) ([], w').

Definition sys_ok (s : system) : Prop := rg_pool os_exec store_ok store_mono store_own post s.

Lemma sys_idle_ok w : store_ok w -> sys_ok ([], w).
Proof. intros Hok. split; [done|]. split; constructor. Qed.

Lemma shared_step_ok s s' : sys_step s s' -> sys_ok s -> sys_ok s'.
Proof using program_ok.
  intros [s0 s0' Hs|pool w t q Ht Hq|pool w i|pool w w' Hc] Hok.
  - by eapply rg_pool_step in Hs as [? _]; [..|done]; [|apply _].
  - apply rg_pool_start; [done|done|]. by apply program_ok.
  - by apply rg_pool_kill.
  - apply sys_idle_ok. eapply crash_ok; [done|apply Hok].
Qed.

Lemma shared_steps_ok s s' : rtc sys_step s s' -> sys_ok s -> sys_ok s'.
Proof using program_ok. apply rtc_keeps. apply shared_step_ok. Qed.

(** A durable version stays, whatever happens. *)
Lemma sys_steps_durable s s' d prefix v i b t :
  rtc sys_step s s' -> sys_ok s -> holds s.2 d prefix v i b t -> durable s.2 d prefix v i ->
  holds s'.2 d prefix v i b t /\ durable s'.2 d prefix v i.
Proof using program_ok.
  intros Hs Hok Hh Hd. set (P := fun s : system => sys_ok s /\ holds s.2 d prefix v i b t /\ durable s.2 d prefix v i).
  enough (P s') as HP by apply HP. apply (rtc_keeps sys_step P) with (x := s); [|done|done].
  clear s s' Hs Hok Hh Hd. intros s s' Hs (Hok & Hh & Hd). split; [by eapply shared_step_ok|].
  destruct Hs as [s0 s0' Hs|pool w u q Hu Hq|pool w j|pool w w' Hc]; [|done..|].
  - eapply rg_pool_step in Hs as [_ Hm]; [..|exact Hok]; [|apply _].
    split; [by eapply holds_mono|]. eapply durable_mono; [done|apply Hh|done].
  - eapply crash_durable; [done|apply Hok|done..].
Qed.

(** The result of a request that has returned. *)
Definition returned (s : system) (t : nat) (q : Q) (w0 : fs) (a : A) : Prop :=
  exists j, s.1 !! j = Some ((t, (q, w0)), Ret a).

Lemma returned_post s t q w0 a : sys_ok s -> returned s t q w0 a -> post (t, (q, w0)) a s.2.
Proof.
  intros (Hok & _ & Hpool) [j Hj]. pose proof (Forall_lookup_1 _ _ _ _ Hpool Hj) as Hr.
  by apply (Hr s.2).
Qed.

(** A request alone in the pool runs to its result. *)
Lemma sys_run t q chs a w w' :
  valid q -> run os_exec (program t q) chs w = Some (a, w') ->
  rtc sys_step ([], w) ([((t, (q, w)), Ret a)], w').
Proof.
  intros Hq Hrun. eapply rtc_l; [by apply (sys_start [] w t q); [apply not_elem_of_nil|]|]. cbn [app].
  apply (rtc_subrel (pool_step os_exec) sys_step); [by constructor|].
  by apply (run_steps os_exec (t, (q, w)) (program t q) chs).
Qed.
End System.

(** ** Requests to the store *)

Inductive request :=
| ReqHighest (key : bytes)
| ReqStage (key : bytes) (version : Z) (body : bytes)
| ReqActivate (key : bytes) (version : Z)
| ReqActive (key : bytes).

Inductive response :=
| GotHighest (r : result client_error Z)
| GotDone (err : option client_error)
| GotActive (r : result client_error (Z * bytes)).

(** Versions are [uint64]. *)
Definition valid_request (q : request) : Prop :=
  match q with ReqStage _ v _ | ReqActivate _ v => is_u64 v | _ => True end.

Section Requests.
Variables (windows : bool) (store : DirectoryStore).

Definition request_prog (t : nat) (q : request) : prog os response :=
  match q with
  | ReqHighest key => let! r := LoadHighest (Some store) false key in Ret (GotHighest r)
  | ReqStage key version body => let! r := StageAndAdvance t windows (Some store) false key version body in Ret (GotDone r)
  | ReqActivate key version => let! r := Activate windows (Some store) false key version in Ret (GotDone r)
  | ReqActive key => let! r := LoadActive (Some store) false key in Ret (GotActive r)
  end.

(** What each response promises. *)
Definition request_post (r : nat * (request * fs)) (a : response) (w : fs) : Prop :=
  let '(t, (q, w0)) := r in
  match q, a with
  | ReqHighest key, GotHighest a => highest_post w0 (stateDirectory store key) stagePrefix a w
  | ReqStage key v b, GotDone e => stage_post t windows store key v b w0 e w
  | ReqActivate key v, GotDone e => activate_post windows store key v w0 e w
  | ReqActive key, GotActive a => active_post store key w0 a w
  | _, _ => False
  end.

Lemma highest_post_mono w0 d prefix r w w' :
  store_mono w w' -> highest_post w0 d prefix r w -> highest_post w0 d prefix r w'.
Proof.
  intros Hm. destruct r as [h|e]; [|done]. intros [Hup Hc]. split; [done|].
  destruct Hc as [->|Hp]; [by left|right; by eapply present_mono].
Qed.

Lemma rg_ret_post {A} t (f : A -> response) P (Q : response -> fs -> Prop) (p : prog os A) w :
  srg t p P w -> (forall a w1 w2, store_mono w1 w2 -> P a w1 -> Q (f a) w2) ->
  srg t (let! r := p in Ret (f r)) Q w.
Proof.
  intros Hp HQ. eapply rg_bind; [apply _|exact Hp|]. intros a w1 Hm Hok HP w2 Hr _. eapply HQ; [apply Hr|done].
Qed.

Lemma request_ok t q w : valid_request q -> srg t (request_prog t q) (request_post (t, (q, w))) w.
Proof.
  intros Hq. destruct q as [key|key v b|key v|key]; cbn [request_prog]; eapply rg_ret_post.
  - apply (rg_LoadHighest t store false key w).
  - intros r w1 w2 Hm. by apply highest_post_mono.
  - by apply (rg_StageAndAdvance t windows store false key v b w).
  - intros r w1 w2 Hm HP Hr. destruct (HP Hr) as (i & Hh & Hd & Hlt). exists i.
    split_and!; [by eapply holds_mono| |done]. intros Hw. eapply durable_mono; [done|by left|by apply Hd].
  - apply (rg_Activate t windows store false key v w).
  - intros r w1 w2 Hm HP Hr. destruct (HP Hr) as ((i & b & u & Hh & Hd) & Hst & Hup). split_and!; [|by eapply present_mono|done].
    exists i, b, u. split; [by eapply holds_mono|]. intros Hw. apply (mono_disk _ _ Hm); [apply active_state|by apply Hd].
  - apply (rg_LoadActive t store false key w).
  - intros [[v b]|e] w1 w2 Hm HP; [|done]. destruct HP as ((i & u & Hh) & Hst & Hup).
    split_and!; [|by eapply present_mono|done]. exists i, u. by eapply holds_mono.
Qed.

Definition store_step : system -> system -> Prop := sys_step request_prog valid_request.
Definition store_sys_ok : system -> Prop := sys_ok request_post.

Lemma store_steps_ok w s : store_ok w -> rtc store_step ([], w) s -> store_sys_ok s.
Proof.
  intros Hok Hs. eapply shared_steps_ok; [|exact Hs|by apply sys_idle_ok]. intros t q w0. apply request_ok.
Qed.
End Requests.

(** An empty root directory, which is itself on disk. *)
Definition empty_fs (store : DirectoryStore) : fs := mkFs {[store_root store := true]} ∅ ∅.

Lemma empty_fs_ok store : store_ok (empty_fs store).
Proof. split; [by intros p i|by intros p i [?|?]|by intros p i|by intros p prefix i f]. Qed.

(** ** A constant environment *)

Section Steady.
Context {E : Type -> Type} {W C : Type}.
Variables (exec : forall X, E X -> C -> W -> X * W) (ch : C).

(** The program run alone, with the same choice at every call. *)
Fixpoint steady {A} (p : prog E A) (w : W) : A * W :=
  match p with
  | Ret a => (a, w)
  | Vis c k => let r := exec _ c ch w in steady (k r.1) r.2
  end.

Lemma steady_bind {A B} (p : prog E A) (k : A -> prog E B) w :
  steady (bind p k) w = steady (k (steady p w).1) (steady p w).2.
Proof. revert w. induction p as [a|X c k' IH]; intros w; cbn; [done|]. apply IH. Qed.

Lemma steady_trigger {X A} (c : E X) (k : X -> prog E A) w x w' :
  exec X c ch w = (x, w') -> steady (bind (trigger c) k) w = steady (k x) w'.
Proof. intros He. cbn. by rewrite He. Qed.

(** It is the run of the program with enough choices. *)
Lemma steady_run {A} (p : prog E A) w : exists n, run exec p (repeat ch n) w = Some (steady p w).
Proof.
  revert w. induction p as [a|X c k IH]; intros w; [by exists 0%nat|].
  destruct (exec X c ch w) as [x w'] eqn:He. destruct (IH x w') as [n Hn].
  exists (S n). cbn. by rewrite He.
Qed.
End Steady.

(** ** Nothing goes wrong *)

(** No fault, no cancellation, whole writes. *)
Definition quiet (ch : choice) : Prop :=
  ch_fault ch = false /\ ch_cancelled ch = false /\ 2 ^ 17 <= ch_count ch /\ ch_listing ch = [].

Section Quiet.
Variable ch : choice.
Hypothesis Hquiet : quiet ch.

Abbreviation srun := (steady os_exec ch).

Lemma quiet_fault : fault ch = None.
Proof. unfold fault. destruct Hquiet as [-> _]. done. Qed.

(** One call, whose answer the tactic [t] helps to compute. *)
Tactic Notation "quiet_step" tactic3(t) :=
  erewrite steady_trigger; [|cbn [os_exec]; rewrite ?quiet_fault; t; reflexivity]; cbn beta iota.

Lemma quiet_read_dir w d : read_dir (listing w d) ch d w = listing w d.
Proof.
  unfold read_dir, possible_listing. destruct Hquiet as (_ & _ & _ & ->).
  destruct (_ && _) eqn:E; [|done]. apply andb_true_iff in E as [[_ Hseen]%andb_true_iff _].
  rewrite forallb_Forall, List.Forall_forall in Hseen. destruct (listing w d) as [|e l] eqn:El; [done|].
  exfalso. specialize (Hseen e). rewrite filter_In in Hseen.
  assert (bool_decide (e ∈ @nil DirEntry) = true) as Hf.
  { apply Hseen. split; [by left|]. apply bool_decide_eq_true_2. by left. }
  apply bool_decide_eq_true_1 in Hf. by apply not_elem_of_nil in Hf.
Qed.

Lemma quiet_badArguments {A} rest (k : bool -> prog os A) w :
  rest = false -> srun (bind (badArguments (trigger CtxErr) false false rest) k) w = srun (k false) w.
Proof. intros ->. rewrite steady_bind. cbn. destruct Hquiet as (_ & -> & _). done. Qed.

Lemma quiet_loadHighestVersion w d prefix :
  store_ok w -> version_prefix prefix -> is_Some (fs_dirs w !! d) -> len (listing w d) <= maximumStateEntries ->
  exists h, srun (loadHighestVersion d prefix) w = (Ok h, w) /\ highest_post w d prefix (Ok h) w.
Proof.
  intros Hok Hp [db Hd] Hlen. pose proof (scan_listing w w d prefix ch Hok Hok (PreOrder_Reflexive w) Hp) as Hpost.
  rewrite quiet_read_dir in Hpost.
  assert (srun (loadHighestVersion d prefix) w = (scanVersions prefix (listing w d) 0, w)) as Hrun.
  { unfold loadHighestVersion, readBoundedDirectory. rewrite steady_bind.
    quiet_step (rewrite Hd). quiet_step idtac.
    rewrite (steady_trigger _ _ _ _ w (listing w d, match listing w d with [] => Some EOF | _ => None end) w).
    2: { cbn [os_exec]. rewrite quiet_fault, quiet_read_dir.
         destruct (listing w d) as [|e l] eqn:El; [done|]. rewrite take_ge; [done|].
         unfold len, maximumStateEntries in *. lia. }
    cbn [fst snd]. rewrite (proj2 (Z.ltb_ge _ _)) by lia. by destruct (listing w d). }
  destruct (scan_spec prefix (listing w d) 0) as (h & Hs & _); [|lia|].
  { apply List.Forall_forall. intros e He%list_elem_of_In. by eapply listed_well_named. }
  rewrite Hs in Hpost, Hrun. by exists h.
Qed.

Lemma quiet_readStoreFrame w d prefix v i b u :
  holds w d prefix v i b u ->
  srun (readStoreFrame (d, version_name prefix v)) w = (Ok (encodeStoreFrame v b), w).
Proof.
  intros Hh. pose proof (frame_length v b) as Hlen. destruct (holds_body _ _ _ _ _ _ _ Hh) as [Hb1 Hb2].
  unfold readStoreFrame. quiet_step (rewrite (holds_now _ _ _ _ _ _ _ Hh)).
  quiet_step (rewrite (holds_file _ _ _ _ _ _ _ Hh)). cbn [frame_file f_kind f_data].
  rewrite (proj2 (Z.ltb_ge _ storeHeaderBytes)), (proj2 (Z.ltb_ge _ (len _))) by (rewrite Hlen; lia).
  cbn [orb negb bool_decide]. rewrite bool_decide_eq_true_2 by done. cbn [negb orb].
  rewrite (steady_trigger _ _ _ _ w (encodeStoreFrame v b, None) w).
  2: { cbn [os_exec]. rewrite (holds_file _ _ _ _ _ _ _ Hh), quiet_fault. cbn [frame_file f_data].
       rewrite take_ge; [done|]. unfold len in *. lia. }
  cbn [fst snd is_err orb]. by rewrite (proj2 (Z.ltb_ge _ (len _))) by (rewrite Hlen; lia).
Qed.

Lemma quiet_loadHighestDirectory w d :
  store_ok w -> is_Some (fs_dirs w !! d) -> len (listing w d) <= maximumStateEntries ->
  exists h, srun (loadHighestDirectory d) w = (Ok h, w) /\ highest_post w d stagePrefix (Ok h) w.
Proof.
  intros Hok Hd Hlen.
  destruct (quiet_loadHighestVersion w d stagePrefix Hok ltac:(by left) Hd Hlen) as (h & Hrun & Hpost).
  exists h. split; [|done]. unfold loadHighestDirectory. rewrite steady_bind, Hrun. cbn [fst snd].
  destruct (h =? 0) eqn:E; [done|]. destruct Hpost as [_ [->|(i & b & u & Hh)]]; [done|].
  rewrite steady_bind.
  change (stageFilename h) with (version_name stagePrefix h). rewrite (quiet_readStoreFrame _ _ _ _ _ _ _ Hh). cbn [fst snd].
  by rewrite frame_decode, Z.eqb_refl by apply Hh.
Qed.

Lemma quiet_syncDirectory w d windows :
  is_Some (fs_dirs w !! d) -> srun (syncDirectory windows d) w = (None, sync_dir d w).
Proof.
  intros [db Hd]. unfold syncDirectory. quiet_step (rewrite Hd). by quiet_step idtac.
Qed.

(** The first write takes everything. *)
Lemma quiet_writeAll w h body f :
  fs_files w !! h_ino h = Some f -> 0 < len body <= 2 ^ 17 ->
  srun (writeAll (length body) h body) w =
  (None, set_file (h_ino h) (mkFile (f_kind f) (f_data f ++ body) false (f_creator f)) w).
Proof.
  intros Hf Hlen. destruct body as [|c body]; [unfold len in Hlen; cbn [length] in Hlen; lia|]. set (l := c :: body) in *.
  change (writeAll (length l) h l) with
    (let! r := trigger (WriteFile h l) in
     if is_err r.2 || (r.1 <=? 0) || (len l <? r.1) then Ret (Some ErrStore)
     else writeAll (length body) h (drop (Z.to_nat r.1) l)).
  assert (clamp 0 (len l) (ch_count ch) = len l) as Hc.
  { destruct Hquiet as (_ & _ & Hcount & _). unfold clamp. lia. }
  rewrite (steady_trigger _ _ _ _ w (len l, None)
             (set_file (h_ino h) (mkFile (f_kind f) (f_data f ++ l) false (f_creator f)) w)).
  2: { cbn [os_exec]. rewrite Hf, quiet_fault, Hc. unfold len. rewrite Nat2Z.id, firstn_all. done. }
  cbn [fst snd is_err orb]. rewrite (proj2 (Z.leb_gt _ 0)), (proj2 (Z.ltb_ge _ _)) by lia. cbn [orb].
  unfold len. rewrite Nat2Z.id, drop_all. by destruct (length body).
Qed.

(** ** Numbers of entries *)

Lemma listing_NoDup w d : NoDup (de_name <$> listing w d).
Proof.
  unfold listing. pose proof (NoDup_fst_map_to_list (fs_names w)) as Hnd. revert Hnd.
  generalize (map_to_list (fs_names w)) as l. induction l as [|[[d' n] e] l IH]; intros Hnd; [constructor|].
  cbn in Hnd. apply NoDup_cons in Hnd as [Hnotin Hnd]. specialize (IH Hnd).
  cbn [omap list_omap fst snd]. case_bool_decide as Hd; [|done]. subst d'.
  destruct (e_now e) as [i|] eqn:Ee; [|done]. cbn [mbind option_bind fmap list_fmap de_name]. apply NoDup_cons. split; [|done].
  intros (x & -> & Hx)%list_elem_of_fmap. apply Hnotin. apply list_elem_of_omap in Hx as ([[d' n'] e'] & Hin & Hx).
  cbn in Hx. case_bool_decide as Hd'; [|done]. destruct (e_now e') as [i'|]; [|done]. cbn in Hx. injection Hx as <-.
  cbn [de_name]. subst d'. apply list_elem_of_fmap. by exists ((d, n'), e').
Qed.

(** At most [length l] more entries when at most the names of [l] are new. *)
Lemma listing_grows w w' d l :
  (forall m, is_Some (now w' (d, m)) -> m ∈ l \/ is_Some (now w (d, m))) ->
  len (listing w' d) <= len (listing w d) + len l.
Proof.
  intros Hnames. assert (length (de_name <$> listing w' d) <= length (l ++ (de_name <$> listing w d)))%nat as Hle.
  { apply NoDup_incl_length; [apply NoDup_ListNoDup, listing_NoDup|]. intros m Hm%list_elem_of_In.
    apply list_elem_of_In, elem_of_app.
    apply list_elem_of_fmap in Hm as (e & -> & (i & Hi & _)%listing_spec).
    destruct (Hnames (de_name e)) as [Hin|[j Hj]]; [by rewrite Hi|by left|right]. apply list_elem_of_fmap.
    exists (mkDirEntry (de_name e) (is_dir_file w j)). split; [done|]. apply listing_spec. by exists j. }
  rewrite length_app, !length_fmap in Hle. unfold len. lia.
Qed.

(** ** Staging *)

Lemma quiet_writeTemporary t w h v b :
  store_ok w -> temporary t h (mkFile Regular [] false t) w -> valid_body b ->
  exists w', srun (writeTemporary (encodeStoreFrame v b) h) w = (false, w') /\
    store_ok w' /\ store_mono w w' /\ temporary t h (frame_file v b t) w' /\
    fs_names w' = fs_names w /\ fs_dirs w' = fs_dirs w.
Proof.
  intros Hok Ht Hb. pose proof (frame_length v b) as Hlen. unfold valid_body, maximumStoredPayloadBytes, storeHeaderBytes in *.
  unfold writeTemporary. quiet_step idtac. cbn [is_err].
  rewrite steady_bind, (quiet_writeAll w h _ _ (temp_file _ _ _ _ Ht)) by lia. cbn [fst snd is_err f_kind f_data f_creator app].
  destruct (temporary_contents t h _ (mkFile Regular (encodeStoreFrame v b) false t) w Hok Ht) as [[Hok1 [Hm1 _]] Ht1]; [done..|].
  set (w1 := set_file _ _ w) in *.
  destruct (temporary_contents t h _ (frame_file v b t) w1 Hok1 Ht1) as [[Hok2 [Hm2 _]] Ht2]; [done..|].
  quiet_step (rewrite (temp_file _ _ _ _ Ht1); cbn [f_kind f_data f_creator]). cbn [is_err].
  quiet_step idtac. cbn [is_err steady]. eexists. split; [reflexivity|].
  split; [done|]. split; [by etrans|]. done.
Qed.

(** A version whose name was there before was there before. *)
Lemma present_back w w' d prefix v :
  store_ok w -> store_mono w w' -> present w' d prefix v ->
  (forall j, now w' (d, version_name prefix v) = Some j -> now w (d, version_name prefix v) = Some j) ->
  present w d prefix v.
Proof.
  intros Hok Hm (j & b' & u & Hj) Hname. pose proof (Hname _ (holds_now _ _ _ _ _ _ _ Hj)) as Hnow.
  destruct (ok_file _ Hok _ _ (or_introl Hnow)) as [f Hf].
  destruct (mono_files _ _ Hm _ _ Hf) as (f' & Hf' & _ & Hk & Hs). rewrite (holds_file _ _ _ _ _ _ _ Hj) in Hf'.
  apply (inj Some) in Hf'. subst f'. destruct Hj as [_ _ Hv _ Hp].
  destruct (ok_frame _ Hok (d, version_name prefix v) prefix j f) as [Hd|(v2 & b2 & t2 & Hv2 & Hb2 & He & ->)];
    [done|apply version_name_is|done..|by rewrite Hd in Hk|].
  apply version_name_inj in He as <-; [|done..]. by exists j, b2, t2.
Qed.

(** The highest version once [v] is above all others. *)
Lemma highest_unique w w' d v h i b t :
  store_ok w -> store_mono w w' -> (forall v', present w d stagePrefix v' -> v' < v) ->
  (forall q j, q <> (d, stageFilename v) -> now w' q = Some j -> now w q = Some j) ->
  holds w' d stagePrefix v i b t -> highest_post w' d stagePrefix (Ok h) w' -> h = v.
Proof.
  intros Hok Hm Hlt Hnames Hh [Hup Hc]. assert (v <= h) as Hge by (apply Hup; by exists i, b, t).
  destruct Hc as [->|Hp]; [destruct (holds_version _ _ _ _ _ _ _ Hh); lia|].
  destruct (decide (h = v)) as [|Hne]; [done|]. enough (present w d stagePrefix h) as Hp' by (specialize (Hlt h Hp'); lia).
  eapply present_back; [done..|]. intros j. apply Hnames. intros He. apply (f_equal snd) in He. cbn [snd] in He.
  destruct Hp as (k & b' & u & Hp). apply Hne, (version_name_inj stagePrefix); [apply Hp|apply Hh|done].
Qed.

Lemma quiet_commitVersion w d v i b t windows w0 :
  store_ok w0 -> store_mono w0 w -> (forall v', present w0 d stagePrefix v' -> v' < v) ->
  (forall q j, q <> (d, stageFilename v) -> now w q = Some j -> now w0 q = Some j) ->
  store_ok w -> is_Some (fs_dirs w !! d) -> len (listing w d) <= maximumStateEntries -> holds w d stagePrefix v i b t ->
  srun (commitVersion windows d v) w = (None, sync_dir d w) /\
  forall v', present (sync_dir d w) d stagePrefix v' -> v' <= v.
Proof.
  intros Hok0 Hm0 Hlt Hnames Hok Hd Hlen Hh. unfold commitVersion. rewrite steady_bind, quiet_syncDirectory by done.
  cbn [fst snd is_err]. destruct (step_sync_dir t d w Hok) as [Hok' [Hm _]].
  destruct Hd as [db Hd]. pose proof (dirs_sync_dir d d db w Hd) as Hd'.
  assert (listing (sync_dir d w) d ≡ₚ listing w d) as Hlist.
  { apply NoDup_Permutation.
    - eapply NoDup_fmap_1. apply (listing_NoDup (sync_dir d w) d).
    - eapply NoDup_fmap_1. apply (listing_NoDup w d).
    - intros e. rewrite !listing_spec. by setoid_rewrite now_sync_dir. }
  destruct (quiet_loadHighestDirectory (sync_dir d w) d Hok') as (h & Hrun & Hpost).
  { by rewrite Hd'. }
  { unfold len in *. by rewrite Hlist. }
  assert (h = v) as ->.
  { eapply (highest_unique w0 (sync_dir d w) d v h i b t); [done|by etrans|done| |by eapply holds_mono|done].
    intros q j Hq. rewrite now_sync_dir. by apply Hnames. }
  rewrite steady_bind, Hrun. cbn [fst snd]. rewrite Z.ltb_irrefl, Z.eqb_refl. cbn [negb steady].
  split; [done|apply Hpost].
Qed.

(** The temporary file gets the name of the version; [w0] is the directory
    before the temporary file. *)
Lemma quiet_publishTemporary t w0 w h d v b windows :
  store_ok w0 -> store_mono w0 w -> store_ok w -> temporary t h (frame_file v b t) w -> (h_path h).1 = d ->
  is_Some (fs_dirs w !! d) -> valid_version v -> valid_body b ->
  (forall v', present w0 d stagePrefix v' -> v' < v) -> now w (d, stageFilename v) = None ->
  (forall q j, q <> h_path h -> now w q = Some j -> now w0 q = Some j) -> now w0 (h_path h) = None ->
  len (listing w0 d) < maximumStateEntries ->
  exists w', srun (publishTemporary windows d v h) w = ((true, None), w') /\ store_ok w' /\ store_mono w0 w' /\
    holds w' d stagePrefix v (h_ino h) b t /\ (forall v', present w' d stagePrefix v' -> v' <= v) /\
    (forall q j, q <> (d, stageFilename v) -> now w' q = Some j -> now w0 q = Some j) /\ is_Some (fs_dirs w' !! d).
Proof.
  intros Hok0 Hm0 Hok Ht Hpd Hd Hv Hb Hlt Hnone Hnames Htemp Hlen.
  destruct (step_link t d stagePrefix v (h_ino h) b t w) as [[Hok1 [Hm1 _]] Hh1];
    [done|done|by left|done|done|done|apply Ht|].
  change (version_name stagePrefix v) with (stageFilename v) in *.
  set (w1 := set_now (d, stageFilename v) (Some (h_ino h)) w) in *.
  assert (h_path h <> (d, stageFilename v)) as Hne.
  { intros He. apply (temp_path _ _ _ _ Ht). rewrite He. apply stage_state. }
  assert (now w1 (h_path h) = Some (h_ino h)) as Hn1.
  { unfold w1. rewrite now_set_now, decide_False by done. apply Ht. }
  destruct (step_remove t (h_path h) (h_ino h) (frame_file v b t) w1) as [Hok2 [Hm2 _]]; [done|apply Ht|done|apply Ht|done|].
  set (w2 := set_now (h_path h) None w1) in *.
  assert (holds w2 d stagePrefix v (h_ino h) b t) as Hh2 by (by eapply holds_mono).
  assert (forall q j, q <> (d, stageFilename v) -> now w2 q = Some j -> now w0 q = Some j) as Hnames2.
  { intros q j Hq. unfold w2, w1. rewrite !now_set_now. destruct (decide _); [done|]. rewrite decide_False by done. by apply Hnames. }
  assert (store_mono w0 w2) as Hm by (etrans; [done|]; by etrans).
  destruct (quiet_commitVersion w2 d v (h_ino h) b t windows w0) as [Hrun Hup]; [done..| |done|].
  { enough (len (listing w2 d) <= len (listing w0 d) + len [stageFilename v]) as Hg.
    { change (len [stageFilename v]) with 1 in Hg. lia. }
    apply listing_grows. intros m [j Hj]. destruct (decide (m = stageFilename v)) as [->|Hm']; [by left; left|right].
    exists j. apply Hnames2; [congruence|done]. }
  exists (sync_dir d w2). destruct (step_sync_dir t d w2 Hok2) as [Hok3 [Hm3 _]]. split.
  { unfold publishTemporary. quiet_step (rewrite Hnone). quiet_step (rewrite (temp_now _ _ _ _ Ht), Hnone). cbn [is_err].
    quiet_step (fold w1; rewrite Hn1). cbn [is_err]. fold w1 w2. rewrite steady_bind, Hrun. done. }
  split_and!; [done|by etrans|by eapply holds_mono|done| |].
  - intros q j. rewrite now_sync_dir. apply Hnames2.
  - destruct Hd as [db Hd]. by rewrite (dirs_sync_dir d d db).
Qed.

(** Staging from the scan of the directory on. *)
Lemma quiet_stageFrame t windows d v b w :
  let p := (d, temp_name tempPrefix (ch_random ch)) in
  store_ok w -> is_Some (fs_dirs w !! d) -> valid_version v -> valid_body b ->
  (forall v', present w d stagePrefix v' -> v' < v) -> now w (d, stageFilename v) = None -> now w p = None ->
  len (listing w d) < maximumStateEntries ->
  exists w' i, srun (stageFrame t windows d v (encodeStoreFrame v b)) w = (None, w') /\
    store_ok w' /\ store_mono w w' /\ holds w' d stagePrefix v i b t /\
    (forall v', present w' d stagePrefix v' -> v' <= v) /\
    (forall q j, q <> (d, stageFilename v) -> now w' q = Some j -> now w q = Some j) /\ is_Some (fs_dirs w' !! d).
Proof.
  intros p Hok [db Hd] Hv Hb Hlt Hnone Hfree Hlen. unfold stageFrame.
  destruct (step_create t d p w) as ([Hok3 [Hm3 _]] & Hn3 & Hf3); [done|by rewrite Hd|done|apply temp_not_state|done|].
  quiet_step (rewrite Hd; fold p; rewrite Hfree). fold p.
  set (h := mkHandle (fresh_ino w) p). set (w3 := set_now p (Some (fresh_ino w)) _) in *.
  destruct (quiet_writeTemporary t w3 h v b Hok3) as (w4 & Hrun4 & Hok4 & Hm4 & Ht4 & Hnm4 & Hdir4); [|done|].
  { by split; [apply temp_not_state|..]. }
  assert (forall q, now w4 q = if decide (q = p) then Some (fresh_ino w) else now w q) as Hn4.
  { intros q. unfold now at 1. rewrite Hnm4. fold (now w3 q). unfold w3. by rewrite now_set_now. }
  destruct (quiet_publishTemporary t w w4 h d v b windows) as (w5 & Hrun5 & Hok5 & Hm5 & Hh5 & Hup5 & Hnm5 & Hd5); try done.
  { by etrans. }
  { rewrite Hdir4. by cbn; rewrite Hd. }
  { rewrite Hn4, decide_False; [done|]. intros He. apply (temp_not_state d (ch_random ch)). fold p. rewrite <- He. apply stage_state. }
  { intros q j Hq. by rewrite Hn4, decide_False. }
  assert (srun (stageTemporary windows d v (encodeStoreFrame v b) h) w3 = ((true, None), w5)) as Hrun.
  { unfold stageTemporary. rewrite steady_bind, Hrun4. cbn [fst snd].
    erewrite (steady_trigger _ _ CtxErr); [|cbn [os_exec]; destruct Hquiet as (_ & -> & _); reflexivity]. done. }
  rewrite steady_bind, Hrun. cbn [fst snd]. quiet_step idtac. cbn [steady]. by exists w5, (h_ino h).
Qed.

(** When nothing goes wrong, a version above all others is staged. *)
Lemma quiet_StageAndAdvance t windows store key v b w :
  let d := stateDirectory store key in
  store_ok w -> is_Some (fs_dirs w !! store_root store) -> validStateKey key = true ->
  valid_version v -> valid_body b -> (forall v', present w d stagePrefix v' -> v' < v) ->
  now w (d, stageFilename v) = None -> now w (d, temp_name tempPrefix (ch_random ch)) = None ->
  len (listing w d) < maximumStateEntries ->
  exists w' i, srun (StageAndAdvance t windows (Some store) false key v b) w = (None, w') /\
    store_ok w' /\ store_mono w w' /\ holds w' d stagePrefix v i b t /\
    (forall v', present w' d stagePrefix v' -> v' <= v) /\
    (forall q j, q <> (d, stageFilename v) -> now w' q = Some j -> now w q = Some j) /\ is_Some (fs_dirs w' !! d).
Proof.
  intros d Hok [rb Hroot] Hkey Hv Hb Hlt Hnone Hfree Hlen. unfold StageAndAdvance. cbn [is_nil].
  pose proof Hv as [Hv1 Hv2]. pose proof Hb as [Hb1 Hb2].
  rewrite quiet_badArguments.
  2: { rewrite Hkey, (proj2 (Z.eqb_neq v 0)), !(proj2 (Z.ltb_ge _ _)) by lia. done. }
  fold d. quiet_step idtac. cbn [is_err].
  destruct (step_mkdir t d w Hok) as [Hok1 [Hm1 _]]. set (w1 := mkdir d w) in *.
  assert ((forall q, now w1 q = now w q) /\ fs_files w1 = fs_files w) as [Hn1 Hf1]
    by (unfold w1, mkdir; by destruct (fs_dirs w !! d)).
  assert (is_Some (fs_dirs w1 !! d)) as [db1 Hd1].
  { unfold w1, mkdir. destruct (fs_dirs w !! d) eqn:E; [by rewrite E|]. cbn. by rewrite lookup_insert_eq. }
  destruct (mono_dirs _ _ Hm1 _ _ Hroot) as (rb' & Hroot1 & _).
  rewrite steady_bind, quiet_syncDirectory by (by rewrite Hroot1). cbn [fst snd is_err].
  destruct (step_sync_dir t (store_root store) w1 Hok1) as [Hok2 [Hm2 _]].
  pose proof (dirs_sync_dir (store_root store) d db1 w1 Hd1) as Hd2.
  set (w2 := sync_dir (store_root store) w1) in *.
  assert (forall q, now w2 q = now w q) as Hn2 by (intros q; unfold w2; by rewrite now_sync_dir, Hn1).
  assert (forall v', present w2 d stagePrefix v' -> v' < v) as Hlt2.
  { intros v' (i & b' & u & [Hn Hf ? ? ?]). apply Hlt. rewrite Hn2 in Hn. exists i, b', u.
    split; try done. rewrite <- Hf1. exact Hf. }
  assert (len (listing w2 d) <= len (listing w d) + len (@nil bytes)) as Hlen2.
  { apply listing_grows. intros m. rewrite Hn2. by right. }
  change (len (@nil bytes)) with 0 in Hlen2.
  destruct (quiet_loadHighestDirectory w2 d Hok2) as (highest & Hrun & Hpost); [by rewrite Hd2|lia|].
  rewrite steady_bind, Hrun. cbn [fst snd].
  assert (highest < v) as Hhv by (destruct Hpost as [_ [->|Hp]]; [lia|by apply Hlt2]).
  rewrite (proj2 (Z.leb_gt v highest)) by done.
  destruct (quiet_stageFrame t windows d v b w2) as (w' & i & Hrun' & Hok' & Hm' & Hh' & Hup' & Hnm' & Hd');
    [done|by rewrite Hd2|done..|by rewrite Hn2|by rewrite Hn2|lia|].
  exists w', i. split_and!; [done..| |done|done| |done]; [etrans; [exact Hm1|]; by etrans|].
  intros q j Hq Hj. rewrite <- Hn2. by apply Hnm'.
Qed.

(** ** Reading and activating *)

(** The directory holds [v] as its highest version. *)
Record highest_is (w : fs) (d : bytes) (v : Z) (i : nat) (b : bytes) (t : nat) : Prop := {
  hi_holds : holds w d stagePrefix v i b t;
  hi_up v' : present w d stagePrefix v' -> v' <= v;
}.

Lemma quiet_highest_is w d v i b t :
  store_ok w -> len (listing w d) <= maximumStateEntries -> highest_is w d v i b t ->
  srun (loadHighestDirectory d) w = (Ok v, w).
Proof.
  intros Hok Hlen [Hh Hup].
  destruct (quiet_loadHighestDirectory w d Hok (ok_dir _ Hok _ _ (holds_now _ _ _ _ _ _ _ Hh)) Hlen) as (h & -> & Hge & Hc).
  assert (v <= h) by (apply Hge; by exists i, b, t).
  destruct Hc as [->|Hp]; [destruct (holds_version _ _ _ _ _ _ _ Hh); lia|].
  specialize (Hup h Hp). do 2 f_equal. lia.
Qed.

Lemma quiet_Activate w windows store key v i b t :
  let d := stateDirectory store key in
  store_ok w -> validStateKey key = true -> len (listing w d) < maximumStateEntries -> highest_is w d v i b t ->
  now w (d, activeFilename v) = None ->
  exists w', srun (Activate windows (Some store) false key v) w = (None, w') /\ store_ok w' /\ store_mono w w' /\
    highest_is w' d v i b t /\ holds w' d activePrefix v i b t /\ len (listing w' d) <= len (listing w d) + 1 /\
    (forall q j, q <> (d, activeFilename v) -> now w' q = Some j -> now w q = Some j) /\ fs_files w' = fs_files w.
Proof.
  intros d Hok Hkey Hlen Hhi Hnone. destruct (holds_version _ _ _ _ _ _ _ (hi_holds _ _ _ _ _ _ Hhi)) as [Hv1 Hv2].
  pose proof (hi_holds _ _ _ _ _ _ Hhi) as Hh. pose proof (holds_now _ _ _ _ _ _ _ Hh) as Hnow.
  pose proof (ok_dir _ Hok _ _ Hnow) as [db Hd]. cbn [fst] in Hd.
  destruct (step_link t d activePrefix v i b t w) as [[Hok1 [Hm1 _]] Hh1];
    [done|by rewrite Hd|by right|apply Hh|apply Hh|done|apply Hh|].
  set (w1 := set_now (d, version_name activePrefix v) (Some i) w) in *.
  destruct (step_sync_dir t d w1 Hok1) as [Hok2 [Hm2 _]].
  assert (forall q, now (sync_dir d w1) q = if decide (q = (d, activeFilename v)) then Some i else now w q) as Hn2.
  { intros q. unfold w1. by rewrite now_sync_dir, now_set_now. }
  assert (highest_is (sync_dir d w1) d v i b t) as Hhi2.
  { split; [eapply holds_mono; [|exact Hh]; by etrans|]. intros v' (j & b' & u & [Hn Hf ? ? ?]).
    apply (hi_up _ _ _ _ _ _ Hhi). exists j, b', u. split; try done. rewrite Hn2, decide_False in Hn; [done|].
    intros He. apply (f_equal snd) in He. cbn [snd] in He.
    assert (is_version_name stagePrefix (activeFilename v) = true) as Hx by (rewrite <- He; apply version_name_is).
    by rewrite active_not_stage in Hx. }
  assert (len (listing (sync_dir d w1) d) <= len (listing w d) + len [activeFilename v]) as Hlen2.
  { apply listing_grows. intros m. rewrite Hn2. destruct (decide _) as [[= ->]|]; [by left; left|by right]. }
  change (len [activeFilename v]) with 1 in Hlen2.
  exists (sync_dir d w1). split.
  - unfold Activate. rewrite quiet_badArguments by (rewrite Hkey, (proj2 (Z.eqb_neq v 0)) by lia; done). fold d.
    rewrite steady_bind, (quiet_highest_is w d v i b t) by (done || lia). cbn [fst snd]. rewrite Z.eqb_refl. cbn [negb].
    rewrite steady_bind. change (stageFilename v) with (version_name stagePrefix v).
    rewrite (quiet_readStoreFrame _ _ _ _ _ _ _ Hh). cbn [fst snd]. rewrite frame_decode, Z.eqb_refl by apply Hh. cbn [negb].
    erewrite (steady_trigger _ _ CtxErr); [|cbn [os_exec]; destruct Hquiet as (_ & -> & _); reflexivity]. cbn iota.
    quiet_step (rewrite Hnow, Hnone). cbn [is_err]. change (activeFilename v) with (version_name activePrefix v). fold w1.
    unfold commitVersion. rewrite steady_bind, quiet_syncDirectory by (cbn; by rewrite Hd). cbn [fst snd is_err].
    rewrite steady_bind, (quiet_highest_is (sync_dir d w1) d v i b t) by (done || lia). cbn [fst snd].
    by rewrite Z.ltb_irrefl, Z.eqb_refl.
  - split_and!; [done|by etrans|done|by eapply holds_mono|done| |done].
    intros q j Hq. by rewrite Hn2, decide_False.
Qed.

Lemma quiet_LoadActive w store key v i b t :
  let d := stateDirectory store key in
  store_ok w -> validStateKey key = true -> len (listing w d) <= maximumStateEntries -> highest_is w d v i b t ->
  holds w d activePrefix v i b t -> (forall v', present w d activePrefix v' -> v' <= v) ->
  srun (LoadActive (Some store) false key) w = (Ok (v, b), w).
Proof.
  intros d Hok Hkey Hlen Hhi Ha Hup. destruct (holds_version _ _ _ _ _ _ _ Ha) as [Hv1 Hv2].
  unfold LoadActive. rewrite quiet_badArguments by (by rewrite Hkey). fold d.
  rewrite steady_bind, (quiet_highest_is w d v i b t) by done. cbn [fst snd].
  destruct (quiet_loadHighestVersion w d activePrefix Hok ltac:(by right) (ok_dir _ Hok _ _ (holds_now _ _ _ _ _ _ _ Ha)) Hlen)
    as (h & Hrun & Hge & Hc).
  assert (h = v) as ->.
  { assert (v <= h) by (apply Hge; by exists i, b, t). destruct Hc as [->|Hp]; [lia|]. specialize (Hup h Hp). lia. }
  rewrite steady_bind, Hrun. cbn [fst snd]. rewrite Z.eqb_refl, (proj2 (Z.eqb_neq v 0)) by lia. cbn [negb orb].
  rewrite steady_bind. change (activeFilename v) with (version_name activePrefix v).
  rewrite (quiet_readStoreFrame _ _ _ _ _ _ _ Ha). cbn [fst snd]. by rewrite frame_decode by apply Ha.
Qed.

Lemma quiet_LoadHighest w store key :
  let d := stateDirectory store key in
  store_ok w -> validStateKey key = true -> len (listing w d) <= maximumStateEntries ->
  exists h, srun (LoadHighest (Some store) false key) w = (Ok h, w) /\ highest_post w d stagePrefix (Ok h) w.
Proof.
  intros d Hok Hkey Hlen. unfold LoadHighest. rewrite quiet_badArguments by (by rewrite Hkey). fold d.
  destruct (fs_dirs w !! d) as [db|] eqn:Hd; [by apply quiet_loadHighestDirectory|].
  exists 0. split.
  - unfold loadHighestDirectory, loadHighestVersion, readBoundedDirectory. rewrite !steady_bind.
    cbn [trigger steady os_exec]. rewrite Hd, ?quiet_fault. done.
  - split; [|by left]. intros v (i & b & u & Hh). apply holds_now, (ok_dir _ Hok) in Hh as [? Hh]. cbn in Hh. congruence.
Qed.

(** ** Staging a new version *)

(** The directory of the key is in order and has room for version [v], which is
    above all its versions. *)
Record roomy (store : DirectoryStore) (key : bytes) (v : Z) (w : fs) : Prop := {
  roomy_ok : store_ok w;
  roomy_root : is_Some (fs_dirs w !! store_root store);
  roomy_key : validStateKey key = true;
  roomy_staged v' : present w (stateDirectory store key) stagePrefix v' -> v' < v;
  roomy_active v' : present w (stateDirectory store key) activePrefix v' -> v' < v;
  roomy_stage_free : now w (stateDirectory store key, stageFilename v) = None;
  roomy_active_free : now w (stateDirectory store key, activeFilename v) = None;
  roomy_temp_free : now w (stateDirectory store key, temp_name tempPrefix (ch_random ch)) = None;
  roomy_entries : len (listing w (stateDirectory store key)) + 2 <= maximumStateEntries;
}.

(** Afterwards the directory has at most these two more names. *)
Record stepped (store : DirectoryStore) (key : bytes) (v : Z) (w w' : fs) : Prop := {
  stepped_ok : store_ok w';
  stepped_dirs : forall p, is_Some (fs_dirs w !! p) -> is_Some (fs_dirs w' !! p);
  stepped_names q j : q <> (stateDirectory store key, stageFilename v) -> q <> (stateDirectory store key, activeFilename v) ->
    now w' q = Some j -> now w q = Some j;
  stepped_staged v' : present w' (stateDirectory store key) stagePrefix v' -> v' <= v;
  stepped_active v' : present w' (stateDirectory store key) activePrefix v' -> v' <= v;
  stepped_entries : len (listing w' (stateDirectory store key)) <= len (listing w (stateDirectory store key)) + 2;
}.

(** It is staged, activated and read back. *)
Lemma quiet_sequence t windows store key v b w :
  roomy store key v w -> valid_version v -> valid_body b ->
  exists w1 w2,
    srun (StageAndAdvance t windows (Some store) false key v b) w = (None, w1) /\
    srun (Activate windows (Some store) false key v) w1 = (None, w2) /\
    srun (LoadActive (Some store) false key) w2 = (Ok (v, b), w2) /\ stepped store key v w w2.
Proof.
  intros [Hok Hroot Hkey Hlt Hlta Hnone Hnonea Hfree Hlen] Hv Hb. set (d := stateDirectory store key) in *.
  destruct (quiet_StageAndAdvance t windows store key v b w) as
    (w1 & i & Hrun1 & Hok1 & Hm1 & Hh1 & Hup1 & Hn1 & Hd1); [done..|fold d; lia|]. fold d in Hh1, Hup1, Hn1, Hd1.
  assert (len (listing w1 d) <= len (listing w d) + len [stageFilename v]) as Hlen1.
  { apply listing_grows. intros m [j Hj]. destruct (decide (m = stageFilename v)) as [->|Hne]; [by left; left|right].
    exists j. apply Hn1; [congruence|done]. }
  change (len [stageFilename v]) with 1 in Hlen1.
  assert (forall v', present w1 d activePrefix v' -> v' < v) as Hlta1.
  { intros v' Hp. apply Hlta. eapply present_back; [done..|]. intros j. apply Hn1.
    intros He. apply (f_equal snd) in He. cbn [snd] in He.
    assert (is_version_name activePrefix (stageFilename v) = true) as Hx by (rewrite <- He; apply version_name_is).
    by rewrite stage_not_active in Hx. }
  destruct (quiet_Activate w1 windows store key v i b t) as
    (w2 & Hrun2 & Hok2 & Hm2 & Hhi2 & Hh2 & Hlen2 & Hn2 & Hf2); [done|done|fold d; lia|done| |].
  { fold d. destruct (now w1 (d, activeFilename v)) eqn:E; [|done]. apply Hn1 in E; [congruence|].
    intros He. by apply (f_equal snd) in He. }
  fold d in Hhi2, Hh2, Hlen2, Hn2.
  assert (forall v', present w2 d activePrefix v' -> v' <= v) as Hupa.
  { intros v' (j & b' & u & Hp). destruct (decide (v' = v)) as [->|Hne]; [lia|]. apply Z.lt_le_incl, Hlta1.
    exists j, b', u. destruct Hp as [Hn Hf Hv' Hb' Hpf]. split; try done; [|by rewrite <- Hf2].
    apply Hn2; [|done]. intros He. apply (f_equal snd) in He. apply Hne, (version_name_inj activePrefix); done. }
  exists w1, w2. split; [done|]. split; [done|]. split.
  - eapply quiet_LoadActive; [done|done|fold d; lia|done|done|done].
  - split; try done.
    + intros p [b' [b1 [Hb1 _]]%(mono_dirs _ _ Hm1)]. by apply (mono_dirs _ _ Hm2) in Hb1 as (b2 & -> & _).
    + intros q j Hq1 Hq2 Hj. by apply Hn1, Hn2.
    + apply Hhi2.
    + fold d. lia.
Qed.

(** The next version has room too. *)
Lemma roomy_next store key v v' w w' :
  roomy store key v w -> stepped store key v w w' -> valid_version v -> valid_version v' -> v < v' ->
  now w (stateDirectory store key, stageFilename v') = None -> now w (stateDirectory store key, activeFilename v') = None ->
  len (listing w (stateDirectory store key)) + 4 <= maximumStateEntries -> roomy store key v' w'.
Proof.
  intros Hroom Hst Hv Hv' Hlt Hs Ha Hlen. set (d := stateDirectory store key) in *.
  assert (forall n, n <> stageFilename v -> n <> activeFilename v -> now w (d, n) = None -> now w' (d, n) = None) as Hfree.
  { intros n H1 H2 Hn. apply eq_None_not_Some. intros [j Hj]. apply (stepped_names _ _ _ _ _ Hst) in Hj; congruence. }
  destruct Hroom as [Hok Hroot Hkey Hlts Hlta _ _ Htemp _]. destruct Hst as [Hok' Hdirs Hnames Hps Hpa Hl].
  split; fold d; try done.
  - by apply Hdirs.
  - intros u Hu. specialize (Hps u Hu). lia.
  - intros u Hu. specialize (Hpa u Hu). lia.
  - apply Hfree; [|by intros ?|done]. intros He. apply (version_name_inj stagePrefix) in He; [lia|done..].
  - apply Hfree; [by intros ?| |done]. intros He. apply (version_name_inj activePrefix) in He; [lia|done..].
  - apply Hfree; [by intros ?|by intros ?|done].
  - fold d in Hl. lia.
Qed.
End Quiet.
