(* ===== verification/TrustStoreTheorems.v ===== *)
(** Properties of the durable trust store. *)
From Stdlib Require Import ZArith Lia Strings.Byte.
From stdpp Require Import base list sets gmap strings numbers option relations.
From S2P Require Import Prelude GoStd Programs RelyGuarantee FileSystem TrustStore TrustStoreSafety.
From S2P Require Import TrustStoreSystem.

#[local] Open Scope go_scope.
#[local] Open Scope prog_scope.

(** ** Frames *)

(** [store_frame_exact]: a stored frame decodes to a version and a body
    exactly when it is the encoding of that version and body, the version is a
    positive 64-bit number and the body has 2 to 65536 bytes: frames round-trip,
    every accepted frame is the only one with its contents, and no others are
    accepted. *)
Theorem store_frame_exact f v b :
  decodeStoreFrame f = Some (v, b) <-> f = encodeStoreFrame v b /\ valid_version v /\ valid_body b.
Proof.
  split; [apply frame_encode|]. intros (-> & Hv & Hb). by apply frame_decode.
Qed.

(** ** A bound on the calls *)

Lemma calls_within_trigger {X A} n (c : os X) (k : X -> prog os A) :
  (forall x, calls_within n (k x)) -> calls_within (S n) (bind (trigger c) k).
Proof. done. Qed.

Lemma writeAll_calls h fuel body : calls_within fuel (writeAll fuel h body).
Proof.
  revert body. induction fuel as [|fuel IH]; intros [|c body]; [done..|].
  cbn [writeAll]. apply calls_within_trigger. intros x. case_match; [|apply IH].
  apply (calls_within_le _ 0); [lia|done].
Qed.

Ltac bound_calls :=
  repeat match goal with
  | |- calls_within ?n (Ret _) => by destruct n
  | |- calls_within (S _) (bind (trigger _) _) => apply calls_within_trigger; intros ?
  | |- calls_within (S _) (trigger _) => intros ?; exact I
  | |- calls_within _ (match ?x with _ => _ end) => destruct x
  end.

Lemma readStoreFrame_calls p : calls_within 3 (readStoreFrame p).
Proof. unfold readStoreFrame. bound_calls. Qed.

Lemma loadHighestVersion_calls d prefix : calls_within 3 (loadHighestVersion d prefix).
Proof.
  unfold loadHighestVersion, readBoundedDirectory. apply (calls_within_bind _ _ 3 0); [bound_calls|].
  intros x. bound_calls.
Qed.

Lemma loadHighestDirectory_calls d : calls_within 6 (loadHighestDirectory d).
Proof.
  unfold loadHighestDirectory. apply (calls_within_bind _ _ 3 3); [apply loadHighestVersion_calls|].
  intros [h|e]; [|done]. case_match; [done|]. apply (calls_within_bind _ _ 3 0); [apply readStoreFrame_calls|].
  intros [f|e]; [|done]. by repeat case_match.
Qed.

Lemma syncDirectory_calls windows d : calls_within 2 (syncDirectory windows d).
Proof. unfold syncDirectory. bound_calls. Qed.

Lemma commitVersion_calls windows d v : calls_within 8 (commitVersion windows d v).
Proof.
  unfold commitVersion. apply (calls_within_bind _ _ 2 6); [apply syncDirectory_calls|]. intros err. case_match; [done|].
  apply (calls_within_bind _ _ 6 0); [apply loadHighestDirectory_calls|]. intros [h|e]; by repeat case_match.
Qed.

Lemma badArguments_calls store_nil ctx_nil rest :
  calls_within 1 (badArguments (trigger CtxErr) store_nil ctx_nil rest).
Proof. unfold badArguments. destruct (_ || _); bound_calls. Qed.

Lemma argumentError_calls {A} (f : client_error -> A) ctx_nil key :
  calls_within 1 (let! e := storeArgumentError (trigger CtxErr) ctx_nil key in Ret (f e)).
Proof.
  apply (calls_within_bind _ _ 1 0); [|done]. unfold storeArgumentError. bound_calls.
Qed.

Lemma frame_bytes v b : length (encodeStoreFrame v b) = (52 + length b)%nat.
Proof. pose proof (frame_length v b) as H. unfold len, storeHeaderBytes in H. lia. Qed.

Lemma publishTemporary_calls windows d v h : calls_within 11 (publishTemporary windows d v h).
Proof.
  unfold publishTemporary. bound_calls. apply (calls_within_bind _ _ 8 0); [apply commitVersion_calls|done].
Qed.

Lemma stageTemporary_calls windows d v b h :
  calls_within (67 + length b) (stageTemporary windows d v (encodeStoreFrame v b) h).
Proof.
  unfold stageTemporary. replace (67 + length b)%nat with ((55 + length b) + 12)%nat by lia.
  apply calls_within_bind.
  - unfold writeTemporary. change (55 + length b)%nat with (S (54 + length b)). apply calls_within_trigger. intros x.
    destruct (is_err x); [done|]. replace (54 + length b)%nat with ((52 + length b) + 2)%nat by lia.
    apply calls_within_bind; [rewrite <- (frame_bytes v); apply writeAll_calls|]. intros y. bound_calls.
  - intros []; [done|]. bound_calls. apply publishTemporary_calls.
Qed.

(** Methods start with the check of their arguments. *)
Lemma method_calls {A} n store_nil ctx_nil rest key (store : option DirectoryStore) (f : client_error -> A)
    (k : DirectoryStore -> prog os A) :
  (forall store, calls_within (S n) (k store)) ->
  calls_within (S (S n)) (let! bad := badArguments (trigger CtxErr) store_nil ctx_nil rest in
    match bad, store with
    | false, Some store => k store
    | _, _ => let! e := storeArgumentError (trigger CtxErr) ctx_nil key in Ret (f e)
    end).
Proof.
  intros Hk. apply (calls_within_bind _ _ 1 (S n)); [apply badArguments_calls|]. intros bad.
  assert (calls_within (S n) (let! e := storeArgumentError (trigger CtxErr) ctx_nil key in Ret (f e))) as He.
  { apply (calls_within_le _ 1); [lia|apply argumentError_calls]. }
  destruct bad; [done|]. by destruct store.
Qed.

Lemma Activate_calls windows store ctx_nil key v : calls_within 24 (Activate windows store ctx_nil key v).
Proof.
  unfold Activate. apply method_calls. intros st. apply (calls_within_bind _ _ 6 17); [apply loadHighestDirectory_calls|].
  intros highest. bound_calls. apply (calls_within_bind _ _ 3 14); [apply readStoreFrame_calls|].
  intros frame. bound_calls; [|apply (calls_within_le _ 8); [lia|apply commitVersion_calls]].
  apply (calls_within_bind _ _ 3 8); [apply readStoreFrame_calls|]. intros marker. bound_calls. apply commitVersion_calls.
Qed.

Lemma LoadActive_calls store ctx_nil key : calls_within 13 (LoadActive store ctx_nil key).
Proof.
  unfold LoadActive. apply method_calls. intros st. apply (calls_within_bind _ _ 6 6); [apply loadHighestDirectory_calls|].
  intros highest. bound_calls. apply (calls_within_bind _ _ 3 3); [apply loadHighestVersion_calls|].
  intros found. bound_calls. apply (calls_within_bind _ _ 3 0); [apply readStoreFrame_calls|]. intros frame. bound_calls.
Qed.

Lemma StageAndAdvance_calls t windows store ctx_nil key v b :
  calls_within (80 + length b) (StageAndAdvance t windows store ctx_nil key v b).
Proof.
  unfold StageAndAdvance. change (80 + length b)%nat with (S (S (78 + length b))). apply method_calls. intros st.
  change (S (78 + length b)) with (S (2 + (6 + (70 + length b))))%nat. apply calls_within_trigger. intros x.
  destruct (is_err x); [done|]. apply calls_within_bind; [apply syncDirectory_calls|].
  intros err. destruct (is_err err); [done|]. apply calls_within_bind; [apply loadHighestDirectory_calls|].
  intros highest. change (70 + length b)%nat with (S (69 + length b)). bound_calls.
  unfold stageFrame. bound_calls. replace (69 + length b)%nat with ((67 + length b) + 2)%nat by lia.
  apply calls_within_bind; [apply stageTemporary_calls|]. intros [completed err']. bound_calls.
Qed.

Lemma LoadHighest_calls store ctx_nil key : calls_within 7 (LoadHighest store ctx_nil key).
Proof. unfold LoadHighest. apply method_calls. intros st. apply loadHighestDirectory_calls. Qed.

(** [store_calls_bounded]: every method of the store returns: it makes at most
    a fixed number of calls, [StageAndAdvance] one more per byte of the body it
    writes (a write may take a single byte), whatever the calls answer. *)
Theorem store_calls_bounded t windows store ctx_nil key v b :
  calls_within 7 (LoadHighest store ctx_nil key) /\
  calls_within 24 (Activate windows store ctx_nil key v) /\
  calls_within 13 (LoadActive store ctx_nil key) /\
  calls_within (80 + length b) (StageAndAdvance t windows store ctx_nil key v b).
Proof.
  split_and!; [apply LoadHighest_calls|apply Activate_calls|apply LoadActive_calls|apply StageAndAdvance_calls].
Qed.

(** ** Several processes and crashes *)

(** Nothing a request returns for the key is older than version [v]. *)
Definition not_older (key : bytes) (v : Z) (q : request) (a : response) : Prop :=
  match q, a with
  | ReqHighest key', GotHighest (Ok h) => key' = key -> v <= h
  | ReqStage key' v' _, GotDone None => key' = key -> v < v'
  | ReqActivate key' v', GotDone None => key' = key -> v <= v'
  | ReqActive key', GotActive (Ok (v', _)) => key' = key -> v <= v'
  | _, _ => True
  end.

(** A staged version and its body are there in every later state. *)
Lemma staged_stays store w s s' t key v b w0 :
  store_ok w -> rtc (store_step false store) ([], w) s ->
  returned s t (ReqStage key v b) w0 (GotDone None) -> rtc (store_step false store) s s' ->
  exists i, holds s'.2 (stateDirectory store key) stagePrefix v i b t.
Proof.
  intros Hok Hs Hret Hs'. pose proof (store_steps_ok false store w s Hok Hs) as Hsok.
  destruct (returned_post _ _ _ _ _ _ Hsok Hret eq_refl) as (i & Hh & Hd & _). exists i.
  eapply (sys_steps_durable _ _ _ (request_ok false store)); [exact Hs'|exact Hsok|exact Hh|by apply Hd].
Qed.

(** C14 (no_rollback_after_crash): any number of processes use one store,
    interleaved call by call, dying at any point, with crashes of the machine
    that lose whatever was not synced.  Once a [StageAndAdvance] of a version has
    returned nil, on a system other than Windows (where a failed sync of a
    directory is ignored: [windows] is [false]), every later request for the key
    on the store answers with that version or a newer one: [LoadHighest], [Activate] and [LoadActive] never with
    an older one, and [StageAndAdvance] succeeds for newer ones only. *)
Theorem no_rollback_after_crash store w s s1 s2 t key v b w0 t' q a :
  store_ok w -> rtc (store_step false store) ([], w) s ->
  returned s t (ReqStage key v b) w0 (GotDone None) ->
  rtc (store_step false store) s s1 -> rtc (store_step false store) s1 s2 -> returned s2 t' q s1.2 a ->
  not_older key v q a.
Proof.
  intros Hok Hs Hret Hs1 Hs2 Hret'.
  destruct (staged_stays store w s s1 t key v b w0 Hok Hs Hret Hs1) as (i & Hh).
  pose proof (store_steps_ok false store w s2 Hok (transitivity Hs (transitivity Hs1 Hs2))) as Hok2.
  pose proof (returned_post _ _ _ _ _ _ Hok2 Hret') as Hpost.
  assert (forall key', key' = key -> present s1.2 (stateDirectory store key') stagePrefix v) as Hp.
  { intros ? ->. by exists i, b, t. }
  destruct q as [key'|key' v' b'|key' v'|key'], a as [[h|e]|[e|]|[[h c']|e]]; cbn in *; try done; intros ->.
  - by apply Hpost, Hp.
  - destruct (Hpost eq_refl) as (j & _ & _ & Hup). by apply Hup, Hp.
  - destruct (Hpost eq_refl) as (_ & _ & Hup). by apply Hup, Hp.
  - destruct Hpost as (_ & _ & Hup). by apply Hup, Hp.
Qed.

(** The frame of a version has one creator. *)
Lemma holds_creator w d prefix v i j b1 b2 t1 t2 :
  holds w d prefix v i b1 t1 -> holds w d prefix v j b2 t2 -> t1 = t2.
Proof.
  intros [Hn1 Hf1 _ _ _] [Hn2 Hf2 _ _ _].
  rewrite Hn1 in Hn2. injection Hn2 as <-. rewrite Hf1 in Hf2.
  apply (f_equal (fmap f_creator)) in Hf2. change (Some t1 = Some t2) in Hf2. by injection Hf2.
Qed.

(** [staged_once]: when two processes stage the same version of a key at the
    same time, at most one of them succeeds; and what the directory then holds
    under the version is the winner's body. *)
Theorem staged_once windows store w s t1 t2 key v b1 b2 w1 w2 :
  store_ok w -> rtc (store_step windows store) ([], w) s ->
  returned s t1 (ReqStage key v b1) w1 (GotDone None) -> returned s t2 (ReqStage key v b2) w2 (GotDone None) ->
  t1 = t2 /\ exists i, holds s.2 (stateDirectory store key) stagePrefix v i b1 t1.
Proof.
  intros Hok Hs H1 H2.
  pose proof (store_steps_ok windows store w s Hok Hs) as Hsok.
  destruct (returned_post _ _ _ _ _ _ Hsok H1 eq_refl) as (i & Hh1 & _ & _).
  destruct (returned_post _ _ _ _ _ _ Hsok H2 eq_refl) as (j & Hh2 & _ & _).
  split; [by eapply holds_creator|by exists i].
Qed.

(** ** Progress *)

(** [stage_activate_load]: when no call fails, the context is not cancelled
    and nobody interferes, a version above all versions in a directory with room
    for two more entries is staged, activated and read back: [StageAndAdvance]
    and [Activate] return nil and [LoadActive] returns the version with exactly
    the staged bytes. *)
Theorem stage_activate_load ch t windows store key v b w :
  quiet ch -> roomy ch store key v w -> valid_version v -> valid_body b ->
  exists n1 n2 n3 w1 w2,
    run os_exec (StageAndAdvance t windows (Some store) false key v b) (repeat ch n1) w = Some (None, w1) /\
    run os_exec (Activate windows (Some store) false key v) (repeat ch n2) w1 = Some (None, w2) /\
    run os_exec (LoadActive (Some store) false key) (repeat ch n3) w2 = Some (Ok (v, b), w2).
Proof.
  intros Hq Hroom Hv Hb.
  destruct (quiet_sequence ch Hq t windows store key v b w Hroom Hv Hb) as (w1 & w2 & Hrun1 & Hrun2 & Hrun3 & _).
  destruct (steady_run os_exec ch (StageAndAdvance t windows (Some store) false key v b) w) as [n1 Hn1].
  destruct (steady_run os_exec ch (Activate windows (Some store) false key v) w1) as [n2 Hn2].
  destruct (steady_run os_exec ch (LoadActive (Some store) false key) w2) as [n3 Hn3].
  exists n1, n2, n3, w1, w2. rewrite Hn1, Hn2, Hn3, Hrun1, Hrun2, Hrun3. done.
Qed.

(** ** Samples *)

(** Everything on disk, so that a crash may leave the file system as it is. *)
Definition all_durable (w : fs) : bool :=
  forallb (fun r : bytes * bool => r.2) (map_to_list (fs_dirs w)) &&
  forallb (fun r : path * entry => bool_decide (e_disk r.2 = e_now r.2) &&
             (is_nil (e_now r.2) || not_nil (fs_dirs w !! r.1.1))) (map_to_list (fs_names w)).

Lemma all_durable_crash w : all_durable w = true -> crash w w.
Proof.
  unfold all_durable. intros [Hd Hn]%andb_true_iff. rewrite forallb_Forall, List.Forall_forall in Hd.
  rewrite forallb_Forall, List.Forall_forall in Hn.
  assert (forall p e, fs_names w !! p = Some e -> e_disk e = e_now e /\
            (is_nil (e_now e) || not_nil (fs_dirs w !! p.1) = true)) as Hnames.
  { intros p e He%elem_of_map_to_list%list_elem_of_In%Hn. by apply andb_true_iff in He as [?%bool_decide_eq_true_1 ?]. }
  split; try done.
  - intros d b Hb. split; [|by rewrite Hb]. apply elem_of_map_to_list, list_elem_of_In, Hd in Hb. done.
  - intros p _. by left.
  - intros p Hp. apply eq_None_not_Some. intros [i (e & [_ Hx]%Hnames & Hi)%bind_Some]. by rewrite Hp, Hi in Hx.
  - intros p. apply option_eq. intros i. unfold now, disk. rewrite !bind_Some.
    split; intros (e & He & Hi); exists e; (split; [done|]); apply Hnames in He as [Heq _]; congruence.
  - intros i f' Hf. eauto.
Qed.

Definition sample_store : DirectoryStore := mkDirectoryStore (sbytes "/s").
Definition sample_key : bytes := sbytes "k".
Definition sample_body : bytes := sbytes "{}".
Definition sample_choice : choice := mkChoice false false (2 ^ 17) 7 [].

(** A request run alone from a file system. *)
Definition sample_run (t : nat) (q : request) (w : fs) : option (response * fs) :=
  run os_exec (request_prog false sample_store t q) (repeat sample_choice 40) w.

Definition sample_stage : request := ReqStage sample_key 1 sample_body.

Definition sample_staged : fs :=
  match sample_run 0 sample_stage (empty_fs sample_store) with Some (_, w) => w | None => empty_fs sample_store end.

Definition response_is (a : response) (r : option (response * fs)) : bool :=
  match a, r with
  | GotDone None, Some (GotDone None, _) => true
  | GotHighest (Ok h), Some (GotHighest (Ok h'), _) => h =? h'
  | _, _ => false
  end.

(** A request alone in the pool runs to its response. *)
Lemma sample_store_steps t q a w :
  valid_request q -> response_is a (sample_run t q w) = true ->
  let w' := match sample_run t q w with Some (_, w') => w' | None => w end in
  rtc (store_step false sample_store) ([], w) ([((t, (q, w)), Ret a)], w').
Proof.
  intros Hq Ha. destruct (sample_run t q w) as [[a' w']|] eqn:E; [|by destruct a as [[]|[]|]].
  assert (a' = a) as ->.
  { destruct a as [[h|]|[|]|], a' as [[h'|]|[|]|]; cbn in Ha; try done. by bool_props; subst. }
  by apply (sys_run _ _ t q (repeat sample_choice 40)).
Qed.

Lemma sample_staged_steps :
  rtc (store_step false sample_store) ([], empty_fs sample_store)
      ([((0%nat, (sample_stage, empty_fs sample_store)), Ret (GotDone None))], sample_staged).
Proof. apply sample_store_steps; [done|]. vm_compute. reflexivity. Qed.

(** Version 1 is staged, the machine crashes, and another process then finds
    version 1 as the highest. *)
Lemma no_rollback_after_crash_witness : not_older sample_key 1 (ReqHighest sample_key) (GotHighest (Ok 1)).
Proof.
  eapply (no_rollback_after_crash sample_store (empty_fs sample_store) _ ([], sample_staged)
            ([((1%nat, (ReqHighest sample_key, sample_staged)), Ret (GotHighest (Ok 1)))], _)
            0 sample_key 1 sample_body (empty_fs sample_store) 1 (ReqHighest sample_key) (GotHighest (Ok 1))).
  - apply empty_fs_ok.
  - apply sample_staged_steps.
  - by exists 0%nat.
  - apply rtc_once, sys_crash, all_durable_crash. vm_compute. reflexivity.
  - apply sample_store_steps; [done|]. vm_compute. reflexivity.
  - by exists 0%nat.
Defined.

Lemma staged_once_witness :
  0%nat = 0%nat /\ exists i, holds sample_staged (stateDirectory sample_store sample_key) stagePrefix 1 i sample_body 0.
Proof.
  eapply (staged_once false sample_store (empty_fs sample_store)
    ([((0%nat, (sample_stage, empty_fs sample_store)), Ret (GotDone None))], sample_staged) 0 0 sample_key 1 sample_body sample_body).
  - apply empty_fs_ok.
  - apply sample_staged_steps.
  - by exists 0%nat.
  - by exists 0%nat.
Defined.

Lemma empty_fs_roomy store key v ch : validStateKey key = true -> roomy ch store key v (empty_fs store).
Proof.
  intros Hkey. split; try done.
  - apply empty_fs_ok.
  - unfold empty_fs. cbn [fs_dirs]. rewrite lookup_singleton_eq. done.
  - by intros v' (i & b & t & [? _ _ _ _]).
  - by intros v' (i & b & t & [? _ _ _ _]).
Qed.

Lemma stage_activate_load_witness :
  exists n1 n2 n3 w1 w2,
    run os_exec (StageAndAdvance 0 false (Some sample_store) false sample_key 1 sample_body) (repeat sample_choice n1)
      (empty_fs sample_store) = Some (None, w1) /\
    run os_exec (Activate false (Some sample_store) false sample_key 1) (repeat sample_choice n2) w1 = Some (None, w2) /\
    run os_exec (LoadActive (Some sample_store) false sample_key) (repeat sample_choice n3) w2 = Some (Ok (1, sample_body), w2).
Proof.
  apply (stage_activate_load sample_choice 0 false sample_store sample_key 1 sample_body (empty_fs sample_store));
    [done|by apply empty_fs_roomy|done|done].
Defined.
