(* ===== verification/TrustJson.v ===== *)
(** Strict JSON of the trust client: [scanStrictJSON], [decodeStrictObject] and
    their helpers in [internal/trustclient/verify.go].

    The client has a decoder of its own, independent of [internal/strictjson]:
    it first scans the whole text token by token, and then decodes it into a
    struct.  All its failures are the one [ErrEnvelope] (or [ErrPayload]), so the
    functions here return an [option].  [validUnicodeEscapes] and [decodeHexQuad]
    are also in [internal/trust/jcs.go], with the same text. *)
From Stdlib Require Import ZArith Lia Strings.Byte.
From stdpp Require Import base gmap list strings numbers option.
From S2P Require Import Prelude GoStd GoTime GoJson StrictJson.

#[local] Open Scope go_scope.

Definition maximumJSONDepth : Z := 16.

(** ** Escapes *)

(** One digit of [decodeHexQuad]: [value <<= 4; value += digit] on [uint16]. *)
Definition hexQuadDigit (value : Z) (character : byte) : option Z :=
  let value := u16 (Z.shiftl value 4) in
  if in_range "0" "9" character then Some (u16 (value + (byte_to_Z character - 48)))
  else if in_range "a" "f" character then Some (u16 (value + (byte_to_Z character - 97) + 10))
  else if in_range "A" "F" character then Some (u16 (value + (byte_to_Z character - 65) + 10))
  else None.

(** [decodeHexQuad(body, start)] of the bytes from [start] on. *)
Definition decodeHexQuad (body : bytes) : option Z :=
  match body with
  | a :: b :: c :: d :: _ =>
      v ← hexQuadDigit 0 a; v ← hexQuadDigit v b; v ← hexQuadDigit v c; hexQuadDigit v d
  | _ => None
  end.

(** [utf16.DecodeRune] *)
Definition utf16_DecodeRune (r1 r2 : Z) : Z :=
  if rune_in 0xD800 0xDBFF r1 && rune_in 0xDC00 0xDFFF r2
  then Z.lor (Z.shiftl (r1 - 0xD800) 10) (r2 - 0xDC00) + 0x10000 else RuneError.

(** The loop of [validUnicodeEscapes] over the bytes left. *)
Fixpoint unicodeEscapes (inString escaped : bool) (body : bytes) : bool :=
  match body with
  | [] => negb inString && negb escaped
  | character :: rest =>
      if negb inString then unicodeEscapes (character == x22) false rest
      else if escaped then
        if character != "u"%byte then unicodeEscapes true false rest
        else
          match decodeHexQuad rest, rest with
          | Some first, _ :: _ :: _ :: _ :: rest =>
              if rune_in 0xdc00 0xdfff first then false
              else if (first <? 0xd800) || (0xdbff <? first) then unicodeEscapes true false rest
              else
                match rest with
                | b1 :: b2 :: ((_ :: _ :: _ :: _ :: rest') as quad) =>
                    if (b1 != x5c) || (b2 != "u"%byte) then false
                    else
                      match decodeHexQuad quad with
                      | Some second =>
                          if (second <? 0xdc00) || (0xdfff <? second) || (utf16_DecodeRune first second =? RuneError)
                          then false else unicodeEscapes true false rest'
                      | None => false
                      end
                | _ => false
                end
          | _, _ => false
          end
      else if character == x5c then unicodeEscapes true true rest
      else unicodeEscapes (character != x22) false rest
  end.

Definition validUnicodeEscapes (body : bytes) : bool := unicodeEscapes false false body.

(** ** Numbers *)

Definition decimal_value (ds : bytes) : Z := digits_value 10 0 (map (fun c => byte_to_Z c - 48) ds).

(** An exponent as [strconv] reads it: digits that follow a value of at least
    10000 are dropped. *)
Definition exponent_value (ds : bytes) : Z :=
  fold_left (fun e c => if e <? 10000 then e * 10 + (byte_to_Z c - 48) else e) ds 0.

(** The mantissa and the decimal exponent of a JSON number, without its sign. *)
Definition float_parts (text : bytes) : Z * Z :=
  let '(i, l) := span_digits (trim_prefix ["-"%byte] text) in
  let '(f, l) := match l with
                 | c :: r => if c == "."%byte then span_digits r else ([], l)
                 | [] => ([], [])
                 end in
  let e := match l with
           | _ :: s :: ds => if s == "-"%byte then - exponent_value ds
                             else if s == "+"%byte then exponent_value ds else exponent_value (s :: ds)
           | _ => 0
           end in
  (decimal_value (i ++ f), e - len f).

(** The least magnitude that rounds to an infinite [float64]. *)
Definition float_overflow : Z := 2 ^ 1024 - 2 ^ 970.

(** [strconv.ParseFloat(text, 64)] of a JSON number gives no error: its rounded
    value is finite. *)
Definition float_finite (text : bytes) : bool :=
  let '(m, e) := float_parts text in
  if m =? 0 then true
  else if 400 <? e then false
  else if 0 <=? e then m * 10 ^ e <? float_overflow
  else if len text <? - e then true
  else m <? float_overflow * 10 ^ (- e).

(** ** The scan *)

(** [scanJSONValue]: the members of a top-level object, and the decoder behind
    the value.  [None] is an error; the fuel is enough when it exceeds twice the
    bytes left. *)
Fixpoint scanJSONValue (fuel : nat) (d : decoder) (depth : Z) (top : bool) : option (option (list bytes) * decoder) :=
  match fuel with
  | O => None
  | S fuel =>
      if maximumJSONDepth <? depth then None
      else
        match Token d with
        | Tok (Delim c) d =>
            if c == "{"%byte then
              '(seen, d) ← scanMembers fuel d depth [];
              d ← closes "}" d;
              Some (if top then Some seen else None, d)
            else if c == "["%byte then
              d ← scanItems fuel d depth;
              d ← closes "]" d;
              Some (None, d)
            else None
        | Tok (TokNumber text) d => if float_finite text then Some (None, d) else None
        | Tok _ d => Some (None, d)
        | _ => None
        end
  end
with scanMembers (fuel : nat) (d : decoder) (depth : Z) (seen : list bytes) : option (list bytes * decoder) :=
  match fuel with
  | O => None
  | S fuel =>
      if More d then
        match Token d with
        | Tok (TokString name) d =>
            if bool_decide (name ∈ seen) then None
            else
              '(_, d) ← scanJSONValue fuel d (depth + 1) false;
              scanMembers fuel d depth (seen ++ [name])
        | _ => None
        end
      else Some (seen, d)
  end
with scanItems (fuel : nat) (d : decoder) (depth : Z) : option decoder :=
  match fuel with
  | O => None
  | S fuel =>
      if More d then
        '(_, d) ← scanJSONValue fuel d (depth + 1) false;
        scanItems fuel d depth
      else Some d
  end.

(** The keys of the object, [Some None] for a value that is not an object. *)
Definition scanStrictJSON (body : bytes) (maximum : Z) : option (option (list bytes)) :=
  if (len body <? 1) || (maximum <? len body) || negb (utf8_Valid body) || negb (validUnicodeEscapes body) then None
  else
    '(keys, d) ← scanJSONValue (body_fuel body) (NewDecoder body) 0 true;
    match Token d with TokEOF => Some keys | _ => None end.

(** ** Decoding *)

(** The text of a value behind the name of a member. *)
Definition value_text (d : decoder) : bytes :=
  match skip_space (dec_rest d) with
  | c :: r => if c == ":"%byte then skip_space r else c :: r
  | [] => []
  end.

(** The members of an object with the texts of their values, which is what a
    [json.RawMessage] keeps. *)
Fixpoint rawMembers (fuel : nat) (d : decoder) : option (list (bytes * bytes)) :=
  match fuel with
  | O => None
  | S fuel =>
      if More d then
        match Token d with
        | Tok (TokString key) d =>
            let text := value_text d in
            match Token d with
            | Tok t d =>
                '(_, d) ← readValue fuel t d;
                rest ← rawMembers fuel d;
                Some ((key, take (length text - length (dec_rest d)) text) :: rest)
            | _ => None
            end
        | _ => None
        end
      else Some []
  end.

Definition object_raws (body : bytes) : list (bytes * bytes) :=
  match Token (NewDecoder body) with
  | Tok _ d => default [] (rawMembers (body_fuel body) d)
  | _ => []
  end.

Section Decode.
Context `{Unicode}.

(** A decoded object: its value, and the texts its raw fields keep. *)
Record decoded := MkDecoded { dc_keys : list bytes; dc_value : goval; dc_raws : list (bytes * bytes) }.

Definition decodeStrictObject (body : bytes) (maximum : Z) (target : gotype) (required : list bytes) : option decoded :=
  match scanStrictJSON body maximum with
  | Some (Some keys) =>
      if negb (forallb (fun name => bool_decide (name ∈ keys)) required) then None
      else if (0 <? len required) && negb (len keys =? len required) then None
      else
        match decodeTyped body target with
        | Ok value => Some (MkDecoded keys value (object_raws body))
        | Err _ => None
        end
  | _ => None
  end.

(** [decodeStrictValue] into a string. *)
Definition decodeStrictValue (body : bytes) (maximum : Z) : option bytes :=
  match scanStrictJSON body maximum with
  | Some None =>
      match decodeTyped body GoString with
      | Ok (VString s) => Some s
      | Ok _ => Some []
      | Err _ => None
      end
  | _ => None
  end.

(** A string field, and the text of a [json.RawMessage] field: the field of a
    member is found as [encoding/json] finds it, and the last one counts. *)
Definition dc_string (v : decoded) (name : bytes) : bytes := field_string (dc_value v) name.

Definition dc_raw (fields : list bytes) (v : decoded) (name : bytes) : bytes :=
  let known := map (fun n => (n, GoRaw)) fields in
  default [] (head (rev (omap (fun m : bytes * bytes =>
    match json_field known m.1 with
    | Some (field, _) => if field == name then Some m.2 else None
    | None => None
    end) (dc_raws v)))).
End Decode.
