(* ===== verification/TrustJsonTheorems.v ===== *)
(** What the trust client's scan accepts.

    Printed JSON reads back.

    [json.Marshal] and the JSON canonicalization scheme print objects, arrays and
    strings alike and differ in how they escape strings.  [print] has the escape
    as a parameter; what it prints is read by the decoder of [encoding/json] as
    the same value, whatever surrounds it. *)
From Stdlib Require Import ZArith Lia Strings.Byte.
From stdpp Require Import base gmap list strings numbers option.
From S2P Require Import Prelude GoStd GoTime GoJson StrictJson StrictJsonTheorems TrustJson.

#[local] Open Scope go_scope.

(** ** The reference *)

(** A value at nesting [depth]: nowhere deeper than the limit, no object repeats a
    member, and every number is finite. *)
Fixpoint clean (depth : Z) (v : jtree) : bool :=
  (depth <=? maximumJSONDepth) &&
  match v with
  | TreeNumber text => float_finite text
  | TreeArray items => forallb (clean (depth + 1)) items
  | TreeObject members => bool_decide (NoDup members.*1) && forallb (fun m => clean (depth + 1) m.2) members
  | _ => true
  end.

(** The members of an object. *)
Definition tree_keys (v : jtree) : option (list bytes) :=
  match v with TreeObject members => Some members.*1 | _ => None end.

(** ** The scan reads the same tokens *)

(** No name repeats, and none has been seen. *)
Definition fresh (seen names : list bytes) : bool := bool_decide (NoDup (seen ++ names)).

Lemma fresh_cons seen n names :
  NoDup seen -> fresh seen (n :: names) = if bool_decide (n ∈ seen) then false else fresh (seen ++ [n]) names.
Proof.
  intros Hs. unfold fresh. change (n :: names) with ([n] ++ names). rewrite app_assoc.
  destruct (bool_decide (n ∈ seen)) eqn:E; [|done]. apply bool_decide_eq_true_1 in E. apply bool_decide_eq_false_2.
  intros (Hnd & _ & _)%list.NoDup_app. apply list.NoDup_app in Hnd as (_ & Hd & _). by apply (Hd n E); left.
Qed.

Lemma scan_reads fuel :
  (forall d depth top, scanJSONValue fuel d depth top =
     match Token d with
     | Tok t d1 =>
         '(v, d2) ← readValue fuel t d1;
         if clean depth v then Some (if top then tree_keys v else None, d2) else None
     | _ => None
     end) /\
  (forall d depth seen, NoDup seen -> scanMembers fuel d depth seen =
     '(members, d2) ← readMembers fuel d;
     if fresh seen members.*1 && forallb (fun m => clean (depth + 1) m.2) members
     then Some (seen ++ members.*1, d2) else None) /\
  (forall d depth, scanItems fuel d depth =
     '(items, d2) ← readItems fuel d;
     if forallb (clean (depth + 1)) items then Some d2 else None).
Proof.
  induction fuel as [|fuel (IHv & IHm & IHi)]; [split_and!; try done; intros d depth top; by destruct (Token d)|]. split_and!.
  - intros d depth top. cbn [scanJSONValue]. destruct (Token d) as [| |t d1]; [by destruct (_ <? _)..|].
    destruct (maximumJSONDepth <? depth) eqn:Hdepth.
    + destruct (readValue (S fuel) t d1) as [[v d2]|]; [|done]. cbn. bool_props.
      destruct v; cbn; by rewrite (proj2 (Z.leb_gt _ _) Hdepth).
    + bool_props. apply Z.leb_le in Hdepth. cbn [readValue].
      destruct t as [c|s|n|b|]; cbn [scalar_tree mbind option_bind]; cbn; rewrite ?Hdepth; try (by destruct top).
      destruct (decide (c = "{"%byte)) as [->|Hc].
        { rewrite bool_decide_eq_true_2, IHm by (done || constructor).
          destruct (readMembers fuel d1) as [[ms d2]|]; cbn; [|done]. unfold fresh. cbn [app].
          destruct (bool_decide (NoDup ms.*1) && _) eqn:E; cbn; destruct (closes _ d2); cbn; try done; by rewrite ?Hdepth, ?E. }
        rewrite (bool_decide_eq_false_2 _ Hc). destruct (bool_decide (c = "["%byte)); [|done]. rewrite IHi.
        destruct (readItems fuel d1) as [[l d2]|]; cbn; [|done].
        destruct (forallb _ _) eqn:E; cbn; destruct (closes _ d2); cbn; try done; rewrite ?Hdepth, ?E; by destruct top.
  - intros d depth seen Hs. cbn [scanMembers readMembers]. destruct (More d); [|].
    2: { cbn. unfold fresh. rewrite app_nil_r, bool_decide_eq_true_2 by done. done. }
    destruct (Token d) as [| |[|name| | |] d1]; try done.
    destruct (bool_decide (name ∈ seen)) eqn:En.
    + destruct (Token d1) as [| |t d2]; try done. destruct (readValue fuel t d2) as [[v d3]|]; cbn; [|done].
      destruct (readMembers fuel d3) as [[ms d4]|]; cbn; [|done]. by rewrite fresh_cons, En.
    + rewrite IHv. destruct (Token d1) as [| |t d2]; try done. destruct (readValue fuel t d2) as [[v d3]|]; cbn; [|done].
      destruct (clean (depth + 1) v) eqn:Ev; cbn.
      * rewrite IHm. 2: { bool_props. apply list.NoDup_app. split_and!; [done| |apply NoDup_singleton].
                          by intros x Hx ->%list_elem_of_singleton. }
        destruct (readMembers fuel d3) as [[ms d4]|]; cbn; [|done]. rewrite fresh_cons, En, Ev by done. cbn. by rewrite <- app_assoc.
      * destruct (readMembers fuel d3) as [[ms d4]|]; cbn; [|done]. by rewrite Ev, andb_false_r.
  - intros d depth. cbn [scanItems readItems]. destruct (More d); [|done]. rewrite IHv.
    destruct (Token d) as [| |t d1]; try done. destruct (readValue fuel t d1) as [[v d2]|]; cbn; [|done].
    destruct (clean (depth + 1) v) eqn:Ev; cbn.
    + rewrite IHi. destruct (readItems fuel d2) as [[l d3]|]; cbn; [|done]. by rewrite Ev.
    + destruct (readItems fuel d2) as [[l d3]|]; cbn; [|done]. by rewrite Ev.
Qed.

(** ** The fuel is enough *)

(** Reading consumes bytes. *)
Lemma closes_consumes c d d' : closes c d = Some d' -> (length (dec_rest d') < length (dec_rest d))%nat.
Proof.
  unfold closes. destruct (Token d) as [| |[] d1] eqn:Et; try done. apply Token_consumes in Et.
  case_match; [|done]. congruence.
Qed.

Lemma read_shrinks fuel :
  (forall t d v d', readValue fuel t d = Some (v, d') -> (length (dec_rest d') <= length (dec_rest d))%nat) /\
  (forall d ms d', readMembers fuel d = Some (ms, d') -> (length (dec_rest d') <= length (dec_rest d))%nat) /\
  (forall d l d', readItems fuel d = Some (l, d') -> (length (dec_rest d') <= length (dec_rest d))%nat).
Proof.
  induction fuel as [|fuel (IHv & IHm & IHi)]; [done|]. split_and!.
  - intros t d v d' Hr. cbn [readValue] in Hr.
    destruct t as [c|s|n|b|]; cbn in Hr; simplify_eq; try done. case_top Hr; [|case_top Hr; [|done]].
    + destruct (readMembers fuel d) as [[ms d1]|] eqn:Em; [|done]. cbn in Hr. destruct (closes _ d1) eqn:Ec; [|done].
      apply IHm in Em. apply closes_consumes in Ec. cbn in Hr. simplify_eq. lia.
    + destruct (readItems fuel d) as [[ms d1]|] eqn:Em; [|done]. cbn in Hr. destruct (closes _ d1) eqn:Ec; [|done].
      apply IHi in Em. apply closes_consumes in Ec. cbn in Hr. simplify_eq. lia.
  - intros d ms d' Hr. cbn [readMembers] in Hr. destruct (More d); [|by simplify_eq].
    destruct (Token d) as [| |[|name| | |] d1] eqn:Et; try done. destruct (Token d1) as [| |t d2] eqn:Et2; try done.
    destruct (readValue fuel t d2) as [[v d3]|] eqn:Ev; [|done]. cbn in Hr.
    destruct (readMembers fuel d3) as [[ms' d4]|] eqn:Em; [|done]. cbn in Hr. simplify_eq.
    apply Token_consumes in Et, Et2. apply IHv in Ev. apply IHm in Em. lia.
  - intros d l d' Hr. cbn [readItems] in Hr. destruct (More d); [|by simplify_eq].
    destruct (Token d) as [| |t d1] eqn:Et; try done.
    destruct (readValue fuel t d1) as [[v d3]|] eqn:Ev; [|done]. cbn in Hr.
    destruct (readItems fuel d3) as [[ms' d4]|] eqn:Em; [|done]. cbn in Hr. simplify_eq.
    apply Token_consumes in Et. apply IHv in Ev. apply IHi in Em. lia.
Qed.

(** Whatever some fuel reads, twice the bytes left and two reads. *)
Lemma read_enough g :
  (forall t d v d' fuel, readValue g t d = Some (v, d') -> (2 * length (dec_rest d) + 2 <= fuel)%nat ->
     readValue fuel t d = Some (v, d')) /\
  (forall d ms d' fuel, readMembers g d = Some (ms, d') -> (2 * length (dec_rest d) + 1 <= fuel)%nat ->
     readMembers fuel d = Some (ms, d')) /\
  (forall d l d' fuel, readItems g d = Some (l, d') -> (2 * length (dec_rest d) + 1 <= fuel)%nat ->
     readItems fuel d = Some (l, d')).
Proof.
  induction g as [|g (IHv & IHm & IHi)]; [done|]. split_and!.
  - intros t d v d' [|fuel] Hr Hf; [lia|]. cbn [readValue] in *.
    destruct t as [c|s|n|b|]; cbn in Hr |- *; simplify_eq; try done.
    destruct (bool_decide (c = "{"%byte)); [|destruct (bool_decide (c = "["%byte)); [|done]].
    + destruct (readMembers g d) as [[ms d1]|] eqn:Em; [|done]. by rewrite (IHm _ _ _ fuel Em) by lia.
    + destruct (readItems g d) as [[ms d1]|] eqn:Em; [|done]. by rewrite (IHi _ _ _ fuel Em) by lia.
  - intros d ms d' [|fuel] Hr Hf; [lia|]. cbn [readMembers] in *. destruct (More d); [|done].
    destruct (Token d) as [| |[|name| | |] d1] eqn:Et; try done. destruct (Token d1) as [| |t d2] eqn:Et2; try done.
    apply Token_consumes in Et, Et2. destruct (readValue g t d2) as [[v d3]|] eqn:Ev; [|done]. cbn in Hr.
    destruct (readMembers g d3) as [[ms' d4]|] eqn:Em; [|done]. pose proof (proj1 (read_shrinks g) _ _ _ _ Ev).
    rewrite (IHv _ _ _ _ fuel Ev) by lia. cbn. rewrite (IHm _ _ _ fuel Em) by lia. done.
  - intros d l d' [|fuel] Hr Hf; [lia|]. cbn [readItems] in *. destruct (More d); [|done].
    destruct (Token d) as [| |t d1] eqn:Et; try done. apply Token_consumes in Et.
    destruct (readValue g t d1) as [[v d3]|] eqn:Ev; [|done]. cbn in Hr.
    destruct (readItems g d3) as [[l' d4]|] eqn:Em; [|done]. pose proof (proj1 (read_shrinks g) _ _ _ _ Ev).
    rewrite (IHv _ _ _ _ fuel Ev) by lia. cbn. rewrite (IHi _ _ _ fuel Em) by lia. done.
Qed.

(** [body] is one JSON value, read with any fuel. *)
Definition json_text (body : bytes) (v : jtree) : Prop :=
  exists fuel first d d', Token (NewDecoder body) = Tok first d /\ readValue fuel first d = Some (v, d') /\ Token d' = TokEOF.

Lemma json_text_reads body v : json_text body v <-> reads_as body v.
Proof.
  split.
  - intros (fuel & first & d & d' & Ht & Hr & He). exists first, d, d'. split_and!; [done| |done].
    eapply (proj1 (read_enough fuel)); [exact Hr|]. apply Token_consumes in Ht. cbn in Ht. unfold body_fuel. lia.
  - intros (first & d & d' & Ht & Hr & He). by exists (body_fuel body), first, d, d'.
Qed.

(** A clean text within the limits is accepted. *)
Lemma scan_text body maximum tree :
  1 <= len body <= maximum -> utf8_Valid body = true -> validUnicodeEscapes body = true ->
  json_text body tree -> clean 0 tree = true -> scanStrictJSON body maximum = Some (tree_keys tree).
Proof.
  intros Hlen Hu He (t & d & d2 & Ht & Hr & Heof)%json_text_reads Hc.
  unfold scanStrictJSON. rewrite (proj1 (scan_reads _)), Hu, He, Ht, !(proj2 (Z.ltb_ge _ _)) by lia. cbn [orb negb].
  rewrite Hr. cbn. rewrite Hc. cbn. by rewrite Heof.
Qed.

(** C29 (scan_exact): the token scan of the trust client accepts a text exactly
    when it is within its limits, valid UTF-8 with well-formed escapes, and is
    one JSON value with nothing after it in which no object at any depth repeats
    a member, no value is nested deeper than sixteen levels and every number is
    finite; it returns the members of a top-level object. *)
Theorem scan_exact body maximum keys :
  scanStrictJSON body maximum = Some keys <->
  (1 <= len body <= maximum) /\ utf8_Valid body = true /\ validUnicodeEscapes body = true /\
  exists tree, json_text body tree /\ clean 0 tree = true /\ keys = tree_keys tree.
Proof.
  split.
  - unfold scanStrictJSON. rewrite (proj1 (scan_reads _)). intros Hs. case_top Hs; [done|]. bool_props. split_and!; [lia|lia|done|done|].
    destruct (Token (NewDecoder body)) as [| |t d] eqn:Ef; [done..|]. destruct (readValue _ t d) as [[v d2]|] eqn:Er; [|done]. cbn in Hs.
    destruct (clean 0 v) eqn:Ec; [|done]. cbn in Hs. destruct (Token d2) eqn:Et; try done. injection Hs as <-.
    exists v. split_and!; [|done..]. apply json_text_reads. by exists t, d, d2.
  - intros (Hlen & Hu & He & v & Ht & Hc & ->). by apply scan_text.
Qed.

(** ** Strings *)

(** A quoted string that reads back. *)
Definition quotes (str : bytes -> bytes) (s : bytes) : Prop :=
  exists inner, str s = x22 :: inner /\ forall rest, scan_string (inner ++ rest) = Some (s, rest).

Lemma scan_high c l : 0x80 <= byte_to_Z c -> scan_string (c :: l) = '(s, rest) ← scan_string l; Some (c :: s, rest).
Proof.
  intros Hc. cbn [scan_string].
  rewrite (bool_decide_eq_false_2 (c = x22)), (bool_decide_eq_false_2 (c = x5c)) by (intros ->; by apply Hc).
  by rewrite (proj2 (Z.ltb_ge _ _)) by lia.
Qed.

Lemma scan_highs high l s rest :
  Forall (fun c => 0x80 <= byte_to_Z c) high -> scan_string l = Some (s, rest) ->
  scan_string (high ++ l) = Some (high ++ s, rest).
Proof. intros Hh Hl. induction Hh as [|c high Hc _ IH]; [done|]. cbn [app]. by rewrite scan_high, IH. Qed.

Lemma scan_escaped_ascii b l s rest :
  byte_to_Z b < 0x80 -> scan_string l = Some (s, rest) -> scan_string (json_escape_ascii b ++ l) = Some (b :: s, rest).
Proof. intros Hb Hl. destruct b; try discriminate Hb; cbn; by rewrite Hl. Qed.

(** The bytes of a rune of more than one byte. *)
Lemma rune_bytes b l r w :
  DecodeRune b l = (r, w) -> 0x80 <= byte_to_Z b -> (r =? RuneError) && (w =? 1)%nat = false ->
  b :: l = take w (b :: l) ++ drop (w - 1) l /\ Forall (fun c => 0x80 <= byte_to_Z c) (take w (b :: l)).
Proof.
  intros Hd Hb Hr. unfold DecodeRune in Hd. rewrite (proj2 (Z.ltb_ge _ _)) in Hd by lia.
  destruct (utf8_first (byte_to_Z b)) as [[[n lo] hi]|] eqn:Ef; [|by simplify_eq].
  assert (0x80 <= lo) as Hlo.
  { revert Ef. unfold utf8_first. repeat case_match; intros; simplify_eq; lia. }
  assert (forall c lo', 0x80 <= lo' -> cont lo' hi c = true \/ cont lo' 0xBF c = true -> 0x80 <= byte_to_Z c) as Hcont.
  { unfold cont. intros c lo' Hlo' [Hc|Hc]; bool_props; lia. }
  destruct n as [|[|[|[|n]]]]; destruct l as [|b1 [|b2 [|b3 l]]]; simplify_eq; try done;
    repeat (case_top Hd; simplify_eq; try done); bool_props;
    (split; [done|]); repeat constructor; try done; eauto using Z.le_refl.
Qed.

(** U+2028 and U+2029 are the runes [json.Marshal] escapes. *)
Lemma utf8_first_spec v n lo hi :
  utf8_first v = Some (n, lo, hi) ->
  0x80 <= lo /\ hi <= 0xBF /\
  ((n = 2%nat /\ 0xC2 <= v <= 0xDF) \/ (n = 3%nat /\ 0xE0 <= v <= 0xEF) \/
   (n = 4%nat /\ 0xF0 <= v <= 0xF4 /\ (v = 0xF0 -> 0x90 <= lo))).
Proof. unfold utf8_first. intros Hf. repeat case_match; simplify_eq; bool_props; lia. Qed.

Lemma separator_bytes b l r w :
  DecodeRune b l = (r, w) -> 0x80 <= byte_to_Z b -> r = 0x2028 \/ r = 0x2029 -> take w (b :: l) = EncodeRune r.
Proof.
  intros Hd Hb Hr. unfold DecodeRune in Hd. rewrite (proj2 (Z.ltb_ge _ _)) in Hd by lia.
  destruct (utf8_first (byte_to_Z b)) as [[[n lo] hi]|] eqn:Ef; [|by destruct Hr; simplify_eq].
  apply utf8_first_spec in Ef as (Hlo & Hhi & [[-> Hv]|[[-> Hv]|(-> & Hv & Hf0)]]);
    destruct l as [|b1 [|b2 [|b3 l]]]; try (by destruct Hr; simplify_eq);
    (case_top Hd; [|by destruct Hr; simplify_eq]); unfold cont in *; bool_props; injection Hd as Hd <-;
    try (exfalso; Z.to_euclidean_division_equations; lia).
  all: assert (byte_to_Z b = 0xE2 /\ byte_to_Z b1 = 0x80 /\ byte_to_Z b2 = r - 0x1F80) as (E0 & E1 & E2)
    by (idtac; Z.to_euclidean_division_equations; lia).
  all: rewrite <- (byte_of_to_Z b), <- (byte_of_to_Z b1), <- (byte_of_to_Z b2), E0, E1, E2; by destruct Hr as [-> | ->].
Qed.

(** What [json.Marshal] makes of valid UTF-8 reads back. *)
Lemma scan_escaped fuel s rest :
  utf8_valid_fuel fuel s = true -> scan_string (json_escape_fuel fuel s ++ x22 :: rest) = Some (s, rest).
Proof.
  revert s. induction fuel as [|fuel IH]; intros [|b l] Hv; [done..|]. cbn [utf8_valid_fuel json_escape_fuel] in *.
  destruct (DecodeRune b l) as [r w] eqn:Hd. destruct ((r =? RuneError) && (w =? 1)%nat) eqn:Hr; [done|].
  destruct (byte_to_Z b <? 0x80) eqn:Ha; bool_props.
  - unfold DecodeRune in Hd. rewrite (proj2 (Z.ltb_lt _ _) Ha) in Hd. injection Hd as <- <-. rewrite drop_0 in Hv.
    rewrite <- app_assoc. apply scan_escaped_ascii; [done|]. by apply IH.
  - destruct (rune_bytes b l r w Hd Ha Hr) as [Hsplit Hhigh]. specialize (IH _ Hv).
    rewrite Hsplit at 2. rewrite <- app_assoc.
    destruct (r =? 0x2028) eqn:E1; [|destruct (r =? 0x2029) eqn:E2]; bool_props.
    + rewrite (separator_bytes b l r w) by eauto. subst r. cbn. cbn in IH. by rewrite IH.
    + rewrite (separator_bytes b l r w) by eauto. subst r. cbn. cbn in IH. by rewrite IH.
    + by apply scan_highs.
Qed.

Lemma json_string_quotes s : utf8_Valid s = true -> quotes json_string s.
Proof.
  intros Hs. exists (json_escape_fuel (length s) s ++ [x22]). split; [done|].
  intros rest. rewrite <- app_assoc. by apply scan_escaped.
Qed.

(** ** Values *)

Lemma json_nested_ind (P : json -> Prop) :
  P JNull -> (forall s, P (JStr s)) -> (forall fields, Forall (fun f => P f.2) fields -> P (JObj fields)) ->
  (forall items, Forall P items -> P (JList items)) -> forall v, P v.
Proof.
  intros Hn Hs Ho Hl. fix IH 1. intros [|s|fields|items].
  - exact Hn.
  - apply Hs.
  - apply Ho. induction fields as [|f fields IHf]; constructor; [apply IH|exact IHf].
  - apply Hl. induction items as [|v items IHi]; constructor; [apply IH|exact IHi].
Qed.

(** The value the decoder should read, and the strings in it. *)
Fixpoint tree_of (v : json) : jtree :=
  match v with
  | JNull => TreeNull
  | JStr s => TreeString s
  | JObj fields => TreeObject (map (fun f => (f.1, tree_of f.2)) fields)
  | JList items => TreeArray (map tree_of items)
  end.

Fixpoint json_strings (v : json) : list bytes :=
  match v with
  | JNull => []
  | JStr s => [s]
  | JObj fields => flat_map (fun f => f.1 :: json_strings f.2) fields
  | JList items => flat_map json_strings items
  end.

Section Print.
Variable str : bytes -> bytes.

(** The text without spaces, with strings printed by [str]. *)
Fixpoint print (v : json) : bytes :=
  match v with
  | JNull => sbytes "null"
  | JStr s => str s
  | JObj fields =>
      [x7b] ++
      join_comma ((fix go (fs : list (bytes * json)) : list bytes :=
                     match fs with
                     | [] => []
                     | (k, w) :: fs' => (str k ++ [x3a] ++ print w) :: go fs'
                     end) fields)
      ++ [x7d]
  | JList items => [x5b] ++ join_comma (map print items) ++ [x5d]
  end.

Definition member_text (f : bytes * json) : bytes := str f.1 ++ [x3a] ++ print f.2.

Lemma print_object fields : print (JObj fields) = [x7b] ++ join_comma (map member_text fields) ++ [x7d].
Proof.
  cbn [print]. do 2 f_equal. f_equal. induction fields as [|[k v] fields IH]; [done|]. cbn [map]. by rewrite IH.
Qed.

Lemma join_comma_cons p ps : join_comma (p :: ps) = p ++ flat_map (fun q => [x2c] ++ q) ps.
Proof.
  revert p. induction ps as [|q ps IH]; intros p; [by cbn; rewrite app_nil_r|].
  change (join_comma (p :: q :: ps)) with (p ++ [x2c] ++ join_comma (q :: ps)). by rewrite IH.
Qed.

(** Where a value may stand: the state, what separates it from the text before,
    and the state in which the value is read. *)
Inductive at_value : token_state -> bytes -> token_state -> Prop :=
| at_top : at_value TopValue [] TopValue
| at_first : at_value ArrayStart [] ArrayStart
| at_next : at_value ArrayComma [x2c] ArrayValue
| at_member : at_value ObjectColon [x3a] ObjectValue.

Inductive at_key : token_state -> bytes -> Prop :=
| at_first_key : at_key ObjectStart []
| at_next_key : at_key ObjectComma [x2c].

Lemma Token_object s pre sv r stack : at_value s pre sv ->
  Token (MkDecoder (pre ++ [x7b] ++ r) s stack) = Tok (Delim x7b) (MkDecoder r ObjectStart (sv :: stack)).
Proof. by intros []. Qed.

Lemma Token_array s pre sv r stack : at_value s pre sv ->
  Token (MkDecoder (pre ++ [x5b] ++ r) s stack) = Tok (Delim x5b) (MkDecoder r ArrayStart (sv :: stack)).
Proof. by intros []. Qed.

Lemma Token_null s pre sv r stack : at_value s pre sv ->
  Token (MkDecoder (pre ++ sbytes "null" ++ r) s stack) = Tok TokNull (MkDecoder r (tokenValueEnd sv) stack).
Proof. by intros []. Qed.

Lemma Token_str s pre sv text r stack : at_value s pre sv -> quotes str text ->
  Token (MkDecoder (pre ++ str text ++ r) s stack) = Tok (TokString text) (MkDecoder r (tokenValueEnd sv) stack).
Proof.
  intros Hat (inner & -> & Hscan).
  transitivity (match '(t, rest) ← scan_string (inner ++ r); Some (TokString t, rest) with
                | Some (t, rest) => Tok t (MkDecoder rest (tokenValueEnd sv) stack)
                | None => TokError
                end); [by destruct Hat|by rewrite Hscan].
Qed.

Lemma Token_key s pre key r stack : at_key s pre -> quotes str key ->
  Token (MkDecoder (pre ++ str key ++ r) s stack) = Tok (TokString key) (MkDecoder r ObjectColon stack).
Proof.
  intros Hat (inner & -> & Hscan).
  transitivity (match scan_string (inner ++ r) with
                | Some (t, rest) => Tok (TokString t) (MkDecoder rest ObjectColon stack)
                | None => TokError
                end); [by destruct Hat|by rewrite Hscan].
Qed.

Lemma More_key s pre key r stack : at_key s pre -> quotes str key -> More (MkDecoder (pre ++ str key ++ r) s stack) = true.
Proof. intros Hat (inner & -> & _). by destruct Hat. Qed.

Lemma More_value s pre sv v r stack : at_value s pre sv -> Forall (quotes str) (json_strings v) ->
  More (MkDecoder (pre ++ print v ++ r) s stack) = true.
Proof.
  intros Hat Hq. destruct Hat; [| |done|done]; destruct v; try done;
    inversion Hq as [|? ? (inner & Hs & _)]; subst; cbn; by rewrite Hs.
Qed.
End Print.

Lemma print_Marshal v : print json_string v = json_Marshal v.
Proof. reflexivity. Qed.

(** Reading with some fuel; the lemmas of [TrustJsonTheorems] make it any. *)
Lemma read_member_step d key d1 t d2 v d3 members d4 :
  More d = true -> Token d = Tok (TokString key) d1 -> Token d1 = Tok t d2 ->
  (exists g, readValue g t d2 = Some (v, d3)) -> (exists g, readMembers g d3 = Some (members, d4)) ->
  exists g, readMembers g d = Some ((key, v) :: members, d4).
Proof.
  intros Hm Ht1 Ht2 [g1 Hv] [g2 Hms]. assert (exists G, 2 * length (dec_rest d) + 2 <= G)%nat as [G HG] by (by eexists).
  pose proof (Token_consumes _ _ _ Ht1). pose proof (Token_consumes _ _ _ Ht2). pose proof (proj1 (read_shrinks g1) _ _ _ _ Hv).
  exists (S G). cbn [readMembers]. rewrite Hm, Ht1, Ht2.
  rewrite (proj1 (read_enough g1) _ _ _ _ G Hv) by lia. cbn.
  by rewrite (proj1 (proj2 (read_enough g2)) _ _ _ G Hms) by lia.
Qed.

Lemma read_item_step d t d1 v d2 items d3 :
  More d = true -> Token d = Tok t d1 ->
  (exists g, readValue g t d1 = Some (v, d2)) -> (exists g, readItems g d2 = Some (items, d3)) ->
  exists g, readItems g d = Some (v :: items, d3).
Proof.
  intros Hm Ht [g1 Hv] [g2 Hms]. assert (exists G, 2 * length (dec_rest d) + 2 <= G)%nat as [G HG] by (by eexists).
  pose proof (Token_consumes _ _ _ Ht). pose proof (proj1 (read_shrinks g1) _ _ _ _ Hv).
  exists (S G). cbn [readItems]. rewrite Hm, Ht.
  rewrite (proj1 (read_enough g1) _ _ _ _ G Hv) by lia. cbn.
  by rewrite (proj2 (proj2 (read_enough g2)) _ _ _ G Hms) by lia.
Qed.

Section Read.
Context (str : bytes -> bytes).

(** ** What is printed is read *)

Abbreviation reads v := (forall s pre sv r stack, at_value s pre sv -> exists t d1 g,
  Token (MkDecoder (pre ++ print str v ++ r) s stack) = Tok t d1 /\
  readValue g t d1 = Some (tree_of v, MkDecoder r (tokenValueEnd sv) stack)).
Abbreviation quoted_strings v := (Forall (quotes str) (json_strings v)).

(** The members of an object, from the separator on. *)
Lemma read_print_members fields s pre r stack :
  at_key s pre -> Forall (fun f => quotes str f.1 /\ quoted_strings f.2 /\ reads f.2) fields ->
  let text := match fields with [] => [] | f :: fs => pre ++ member_text str f ++ flat_map (fun q => [x2c] ++ q) (map (member_text str) fs) end in
  exists g, readMembers g (MkDecoder (text ++ x7d :: r) s stack) =
    Some (map (fun f => (f.1, tree_of f.2)) fields, MkDecoder (x7d :: r) (match fields with [] => s | _ => ObjectComma end) stack).
Proof.
  revert s pre. induction fields as [|[k v] fields IH]; intros s pre Hat Hall text; [by exists 1%nat|].
  inversion Hall as [|? ? (Hk & Hq & Hr) Hall']; subst. cbn [fst snd] in *. unfold text, member_text. cbn [fst snd].
  rewrite <- !app_assoc. set (tail := flat_map _ _ ++ x7d :: r).
  destruct (Hr ObjectColon [x3a] ObjectValue tail stack at_member) as (t & d1 & g & Ht & Hv).
  eapply (read_member_step _ k _ t d1 (tree_of v) (MkDecoder tail ObjectComma stack)).
  - by apply More_key.
  - by apply Token_key.
  - exact Ht.
  - by exists g.
  - specialize (IH ObjectComma [x2c] at_next_key Hall'). unfold tail. destruct fields as [|f fields]; [exact IH|].
    unfold member_text in IH. cbn [map flat_map] in IH |- *. rewrite <- !app_assoc in IH. rewrite <- !app_assoc. exact IH.
Qed.

Lemma read_items items s pre sv r stack :
  at_value s pre sv -> tokenValueEnd sv = ArrayComma -> Forall (fun v => quoted_strings v /\ reads v) items ->
  let text := match items with [] => [] | v :: vs => pre ++ print str v ++ flat_map (fun q => [x2c] ++ q) (map (print str) vs) end in
  exists g, readItems g (MkDecoder (text ++ x5d :: r) s stack) =
    Some (map tree_of items, MkDecoder (x5d :: r) (match items with [] => s | _ => ArrayComma end) stack).
Proof.
  revert s pre sv. induction items as [|v items IH]; intros s pre sv Hat Hend Hall text; [by exists 1%nat|].
  inversion Hall as [|? ? (Hq & Hr) Hall']; subst. unfold text.
  rewrite <- !app_assoc. set (tail := flat_map _ _ ++ x5d :: r).
  destruct (Hr s pre sv tail stack Hat) as (t & d1 & g & Ht & Hv). rewrite Hend in Hv.
  eapply (read_item_step _ t d1 (tree_of v) (MkDecoder tail ArrayComma stack)).
  - by eapply More_value.
  - exact Ht.
  - by exists g.
  - specialize (IH ArrayComma [x2c] ArrayValue at_next eq_refl Hall'). unfold tail. destruct items as [|f items]; [exact IH|].
    cbn [map flat_map] in IH |- *. rewrite <- ?app_assoc in IH |- *. exact IH.
Qed.

Lemma read_print v : quoted_strings v -> reads v.
Proof.
  induction v as [|text|fields IH|items IH] using json_nested_ind; intros Hq s pre sv r stack Hat.
  - exists TokNull, (MkDecoder r (tokenValueEnd sv) stack), 1%nat. split; [by apply Token_null|done].
  - exists (TokString text), (MkDecoder r (tokenValueEnd sv) stack), 1%nat. split; [|done].
    apply Token_str; [done|]. by inversion Hq.
  - rewrite print_object, <- !app_assoc. eexists _, _.
    assert (Forall (fun f => quotes str f.1 /\ quoted_strings f.2 /\ reads f.2) fields) as Hall.
    { clear s pre sv r stack Hat. cbn [json_strings] in Hq. induction IH as [|f fields Hf _ IHf]; [constructor|].
      cbn [flat_map] in Hq. inversion Hq as [|? ? Hk Hq']; subst. apply Forall_app in Hq' as [Hq1 Hq2].
      constructor; [|by apply IHf]. split; [done|]. split; [done|]. by apply Hf. }
    destruct (read_print_members fields ObjectStart [] r (sv :: stack) at_first_key Hall) as [g Hg].
    exists (S g). split; [by apply Token_object|]. cbn [readValue tree_of]. rewrite bool_decide_eq_true_2 by done.
    replace (join_comma (map (member_text str) fields) ++ [x7d] ++ r) with
      (match fields with [] => [] | f :: fs => [] ++ member_text str f ++ flat_map (fun q => [x2c] ++ q) (map (member_text str) fs) end ++ x7d :: r).
    2: { destruct fields; [done|]. cbn [map]. by rewrite join_comma_cons. }
    rewrite Hg. cbn. by destruct fields.
  - change (print str (JList items)) with ([x5b] ++ join_comma (map (print str) items) ++ [x5d]). rewrite <- !app_assoc. eexists _, _.
    assert (Forall (fun v => quoted_strings v /\ reads v) items) as Hall.
    { clear s pre sv r stack Hat. cbn [json_strings] in Hq. induction IH as [|f fields Hf _ IHf]; [constructor|].
      cbn [flat_map] in Hq. apply Forall_app in Hq as [Hq1 Hq2]. constructor; [|by apply IHf]. split; [done|]. by apply Hf. }
    destruct (read_items items ArrayStart [] ArrayStart r (sv :: stack) at_first eq_refl Hall) as [g Hg].
    exists (S g). split; [by apply Token_array|]. cbn [readValue tree_of]. rewrite bool_decide_eq_false_2, bool_decide_eq_true_2 by done.
    replace (join_comma (map (print str) items) ++ [x5d] ++ r) with
      (match items with [] => [] | v :: vs => [] ++ print str v ++ flat_map (fun q => [x2c] ++ q) (map (print str) vs) end ++ x5d :: r).
    2: { destruct items; [done|]. cbn [map]. by rewrite join_comma_cons. }
    rewrite Hg. cbn. by destruct items.
Qed.

Lemma print_text v : quoted_strings v -> json_text (print str v) (tree_of v).
Proof.
  intros Hq. destruct (read_print v Hq TopValue [] TopValue [] [] at_top) as (t & d1 & g & Ht & Hr).
  rewrite app_nil_r in Ht. exists g, t, d1. eexists. split; [exact Ht|]. split; [exact Hr|done].
Qed.
End Read.
