(* ===== verification/TrustVerify.v ===== *)
(** The trust client's verification of configuration bundles:
    [internal/trustclient/verify.go] and [types.go].

    [VerifyAndStage] opens an envelope, checks the signed bundle inside against
    root-signed metadata and the local expectations, and stages and activates its
    payload in a [Store].  The checks are the pure function [verifyBundle]; the
    store is reached only after all of them, through the operations of the
    [Store] interface.  [crypto/hpke] and [crypto/ecdh] ([HPKE]), [crypto/ed25519],
    [google/uuid] and [gowebpki/jcs] are parameters. *)
From Stdlib Require Import ZArith Lia Strings.Byte.
From stdpp Require Import base gmap list strings numbers option.
From S2P Require Import Prelude GoStd GoTime AuthorityTypes Programs GoCrypto Text Tokens GoJson StrictJson.
From S2P Require Import FileSystem TrustJson TrustStore.

#[local] Open Scope go_scope.
#[local] Open Scope prog_scope.

(** ** Parameters *)

(** A private key ([ecdh.KeyExchanger]): the bytes of its public key, [None] for a
    nil one, and whether both keys are on X25519.  [hpke_Open] is
    [hpke.NewDHKEMPrivateKey], [hpke.NewRecipient] with HKDF-SHA256 and
    ChaCha20-Poly1305 and [Recipient.Open]: encapsulated key, info, associated
    data and ciphertext; [None] when one of them fails. *)
Class HPKE := {
  kem_private : Type;
  kem_public : kem_private -> option bytes;
  kem_x25519 : kem_private -> bool;
  hpke_Open : kem_private -> bytes -> bytes -> bytes -> bytes -> option bytes;
}.

(** ** Results *)

Declare Scope result_scope.
Delimit Scope result_scope with result.
Notation "'let?' x := p 'in' q" := (match p with Ok x => q | Err e => Err e end)
  (at level 200, x pattern, p at level 100, q at level 200) : result_scope.
Notation "'let?' x := p 'else' e 'in' q" := (match p with Some x => q | None => Err e end)
  (at level 200, x pattern, p at level 100, e at level 100, q at level 200) : result_scope.
Notation "'require' b 'else' e 'in' q" := (if b : bool then q else Err e)
  (at level 200, b at level 100, e at level 100, q at level 200) : result_scope.
#[local] Open Scope result_scope.

(** ** Constants *)

Definition envelopeVersion : bytes := sbytes "talenro-config-envelope/v1".
Definition kemName : bytes := sbytes "DHKEM-X25519-HKDF-SHA256".
Definition kdfName : bytes := sbytes "HKDF-SHA256".
Definition aeadName : bytes := sbytes "CHACHA20-POLY1305".
Definition hpkeInfo : bytes := sbytes "talenro-config-bundle/v1".
Definition bundleSchema : bytes := sbytes "talenro-config-bundle/v1".
Definition metadataSchema : bytes := sbytes "talenro-trust-metadata/v1".
Definition signatureAlgorithm : bytes := sbytes "Ed25519".
Definition recipientSelectorDomain : bytes := sbytes "TALENRO-RECIPIENT-SELECTOR-V1" ++ [x00].
Definition bundleSignatureDomain : bytes := sbytes "TALENRO-CONFIG-BUNDLE-SIGNATURE-V1" ++ [x00].
Definition metadataSignatureDomain : bytes := sbytes "TALENRO-TRUST-METADATA-V1" ++ [x00].
Definition configKeyIDDomain : bytes := sbytes "TALENRO-CONFIG-SIGNING-KEY-ID-V1" ++ [x00].
Definition rootKeyIDDomain : bytes := sbytes "TALENRO-ROOT-SIGNING-KEY-ID-V1" ++ [x00].
Definition maximumEnvelopeBytes : Z := 2 ^ 20.
Definition maximumPlaintextBytes : Z := 64 * 1024.
Definition maximumPolicyBytes : Z := 4 * 1024.
Definition maximumMessageBytes : Z := 256.
Definition maximumMetadataBytes : Z := 64 * 1024.
Definition maximumTrustedRoots : Z := 64.
Definition fixedBundleLifetime : Z := 24 * Hour.
Definition fixedTrialGrace : Z := 24 * Hour.
Definition minimumClockSkew : Z := 30 * Second.
Definition maximumClockSkew : Z := 5 * Minute.
Definition plaintextLengthPrefix : Z := 4.
Definition chacha20Poly1305TagBytes : Z := 16.
Definition PublicKeySize : Z := 32.
Definition SignatureSize : Z := 64.
Definition plaintextBucketSizes : list Z := [4096; 8192; 16384; 32768; 65536].

(** ** Encodings *)

Definition validKeyID (value : bytes) : bool :=
  (16 <=? len value) && (len value <=? 64) &&
  forallb (fun c => in_range "A" "Z" c || in_range "a" "z" c || in_range "0" "9" c ||
                    (c == "_"%byte) || (c == "-"%byte)) value.

Definition decodeExactBase64URL (value : bytes) (size : Z) : option bytes :=
  match b64_DecodeString value with
  | Some decoded => if (len decoded =? size) && (b64_EncodeToString decoded == value) then Some decoded else None
  | None => None
  end.

Definition decodeCiphertext (value : bytes) : option bytes :=
  match b64_DecodeString value with
  | Some decoded =>
      if (b64_EncodeToString decoded == value) &&
         existsb (fun bucket => len decoded =? bucket + chacha20Poly1305TagBytes) plaintextBucketSizes
      then Some decoded else None
  | None => None
  end.

Definition removeValidatedPadding (plaintext : bytes) : option bytes :=
  if negb (existsb (fun bucket => len plaintext =? bucket) plaintextBucketSizes)
     || (len plaintext <? plaintextLengthPrefix) then None
  else
    let length := be_value (subslice plaintext 0 4) in
    if (length <? 2) || (maximumPlaintextBytes <? length) || (len plaintext - plaintextLengthPrefix <? length) then None
    else Some (subslice plaintext plaintextLengthPrefix (plaintextLengthPrefix + length)).

Definition deriveKeyID (domain publicKey : bytes) : bytes :=
  b64_EncodeToString (take 16 (sha256 (domain ++ publicKey))).

Definition unsignedIntegerString (value : bytes) : bool :=
  if (len value =? 0) || (20 <? len value) || ((1 <? len value) && (head value == Some "0"%byte)) then false
  else forallb (in_range "0" "9") value && not_nil (ParseUint value 10 64).

Definition parsePositiveUint (value : bytes) : option Z :=
  if negb (unsignedIntegerString value) || (value == sbytes "0") then None
  else
    match ParseUint value 10 64 with
    | Some parsed => if parsed <=? MaxInt64 then Some parsed else None
    | None => None
    end.

(** [t.Format(time.RFC3339)] of a time in UTC: no fraction of a second. *)
Definition FormatRFC3339 (t : time) : bytes := FormatRFC3339Nano (Truncate t Second).

Definition parseProtocolTime (value : bytes) : option time :=
  if negb (len value =? 20) then None
  else
    match ParseRFC3339Nano value with
    | Some parsed => if t_utc parsed && (FormatRFC3339 parsed == value) then Some parsed else None
    | None => None
    end.

(** [a < b] on strings. *)
Fixpoint bytes_lt (a b : bytes) : bool :=
  match a, b with
  | _, [] => false
  | [], _ :: _ => true
  | x :: a, y :: b =>
      if byte_to_Z x <? byte_to_Z y then true
      else if byte_to_Z y <? byte_to_Z x then false else bytes_lt a b
  end.

(** ** Wire structs *)

Definition names (l : list string) : list bytes := map sbytes l.

Definition envelope_fields : list bytes :=
  names ["envelope_version"; "kem"; "kdf"; "aead"; "recipient_key_id"; "bundle_locator"; "enc"; "ciphertext"].
Definition header_fields : list bytes :=
  names ["envelope_version"; "kem"; "kdf"; "aead"; "recipient_key_id"; "bundle_locator"; "enc"].
Definition signed_fields : list bytes :=
  names ["payload_jcs"; "payload_sha256"; "signer_key_id"; "algorithm"; "signature"; "padding"].
Definition payload_strings : list bytes :=
  names ["schema_version"; "bundle_id"; "bundle_locator"; "bundle_version"; "audience"; "issued_at"; "not_before"; "expires_at"].
Definition payload_fields : list bytes := payload_strings ++ names ["policy_snapshot"; "test_config"].
Definition metadata_fields : list bytes :=
  names ["schema_version"; "version"; "root_key_id"; "root_algorithm"; "valid_from"; "valid_until"; "signing_keys"].
Definition key_fields : list bytes :=
  names ["key_id"; "algorithm"; "public_key"; "state"; "not_before"; "not_after"].

Definition go_field (t : gotype) (name : bytes) : gofield := GoField name false true name t.

Definition payload_target : gotype :=
  GoStruct [] (map (go_field GoString) payload_strings ++ map (go_field GoRaw) (names ["policy_snapshot"; "test_config"])).
Definition metadata_target : gotype :=
  GoStruct [] (map (go_field GoString) (take 6 metadata_fields) ++
               [go_field (GoSlice (string_target key_fields)) (sbytes "signing_keys")]).
Definition policy_target : gotype :=
  GoStruct [] (go_field GoString (sbytes "mode") :: map (go_field GoRaw) (names ["expires_at"; "max_devices"])).

Record outerEnvelopeWire := MkEnvelope {
  ev_EnvelopeVersion : bytes; ev_KEM : bytes; ev_KDF : bytes; ev_AEAD : bytes;
  ev_RecipientKeyID : bytes; ev_BundleLocator : bytes; ev_Enc : bytes; ev_Ciphertext : bytes }.

Record signedBundleWire := MkSigned {
  sg_PayloadJCS : bytes; sg_PayloadSHA256 : bytes; sg_SignerKeyID : bytes; sg_Algorithm : bytes;
  sg_Signature : bytes; sg_Padding : bytes }.

Record payloadWire := MkPayload {
  pl_SchemaVersion : bytes; pl_BundleID : bytes; pl_BundleLocator : bytes; pl_BundleVersion : bytes;
  pl_Audience : bytes; pl_IssuedAt : bytes; pl_NotBefore : bytes; pl_ExpiresAt : bytes;
  pl_PolicySnapshot : bytes; pl_TestConfig : bytes }.

Record signingKeyMetadataWire := MkSigningKey {
  sk_KeyID : bytes; sk_Algorithm : bytes; sk_PublicKey : bytes; sk_State : bytes;
  sk_NotBefore : bytes; sk_NotAfter : bytes }.

Record rootMetadataWire := MkRootMetadata {
  rm_SchemaVersion : bytes; rm_Version : bytes; rm_RootKeyID : bytes; rm_RootAlgorithm : bytes;
  rm_ValidFrom : bytes; rm_ValidUntil : bytes; rm_SigningKeys : list signingKeyMetadataWire }.

(** The structs a decoded object fills. *)
Section Wire.
Context `{Unicode}.
Abbreviation str v name := (dc_string v (sbytes name)).

Definition envelope_of (v : decoded) : outerEnvelopeWire :=
  MkEnvelope (str v "envelope_version") (str v "kem") (str v "kdf") (str v "aead") (str v "recipient_key_id")
    (str v "bundle_locator") (str v "enc") (str v "ciphertext").

Definition signed_of (v : decoded) : signedBundleWire :=
  MkSigned (str v "payload_jcs") (str v "payload_sha256") (str v "signer_key_id") (str v "algorithm")
    (str v "signature") (str v "padding").

Definition payload_of (v : decoded) : payloadWire :=
  MkPayload (str v "schema_version") (str v "bundle_id") (str v "bundle_locator") (str v "bundle_version")
    (str v "audience") (str v "issued_at") (str v "not_before") (str v "expires_at")
    (dc_raw payload_fields v (sbytes "policy_snapshot")) (dc_raw payload_fields v (sbytes "test_config")).

Definition key_of (v : goval) : signingKeyMetadataWire :=
  let f name := field_string v (sbytes name) in
  MkSigningKey (f "key_id") (f "algorithm") (f "public_key") (f "state") (f "not_before") (f "not_after").

(** The list a slice field was given. *)
Definition field_list (v : goval) (name : bytes) : list goval :=
  match v with
  | VStruct members => match assoc name members with Some (VList l) => l | _ => [] end
  | _ => []
  end.

Definition metadata_of (v : decoded) : rootMetadataWire :=
  MkRootMetadata (str v "schema_version") (str v "version") (str v "root_key_id") (str v "root_algorithm")
    (str v "valid_from") (str v "valid_until") (map key_of (field_list (dc_value v) (sbytes "signing_keys"))).
End Wire.

(** ** Local inputs *)

Record TrustMetadata := MkTrustMetadata {
  tm_signed : bytes; tm_trustedRoots : gmap bytes bytes; tm_highestTrusted : Z }.

Definition NewTrustMetadata (signed : bytes) (trustedRoots : gmap bytes bytes) (highestTrusted : Z)
  : result client_error TrustMetadata :=
  let roots := map_to_list trustedRoots in
  if (len signed <? 2) || (maximumMetadataBytes <? len signed) || (len roots =? 0) || (maximumTrustedRoots <? len roots)
  then Err ErrInvalidArgument
  else if negb (forallb (fun r : bytes * bytes => validKeyID r.1 && (len r.2 =? PublicKeySize)) roots)
  then Err ErrInvalidArgument
  else Ok (MkTrustMetadata signed trustedRoots highestTrusted).

Record Expected := MkExpected { ex_audience : bytes; ex_locator : bytes }.

Record VerifiedBundle := MkVerified { vb_version : Z; vb_payloadJCS : bytes; vb_envelopeDigest : bytes }.

Section Verify.
Context `{Primitives} `{UUIDText} `{Unicode} `{Ed25519} `{HPKE}.

Definition NewExpected (audience locator : bytes) : result client_error Expected :=
  if canonicalUUID audience then Ok (MkExpected audience locator) else Err ErrInvalidArgument.

(** [canonicalJSON(body)] equals [body]. *)
Definition isCanonical (body : bytes) : bool :=
  match jcs_Transform body with Some canonical => canonical == body | None => false end.

(** ** Metadata *)

(** The loop over the signing keys; [previous] and [seen] as in the code. *)
Fixpoint validSigningKeys (validFrom validUntil : time) (previous : bytes) (seen : list bytes)
    (keys : list signingKeyMetadataWire) : bool :=
  match keys with
  | [] => true
  | key :: keys =>
      let valid :=
        match parseProtocolTime (sk_NotBefore key), parseProtocolTime (sk_NotAfter key),
              decodeExactBase64URL (sk_PublicKey key) PublicKeySize with
        | Some keyNotBefore, Some keyNotAfter, Some publicKey =>
            validKeyID (sk_KeyID key) && (sk_Algorithm key == signatureAlgorithm) &&
            (deriveKeyID configKeyIDDomain publicKey == sk_KeyID key) &&
            bool_decide (sk_State key ∈ names ["future"; "active"; "retiring"; "revoked"]) &&
            After keyNotAfter keyNotBefore && negb (Before keyNotBefore validFrom) && negb (After keyNotAfter validUntil) &&
            negb (bool_decide (sk_KeyID key ∈ seen)) && ((previous == []) || bytes_lt previous (sk_KeyID key))
        | _, _, _ => false
        end in
      valid && validSigningKeys validFrom validUntil (sk_KeyID key) (sk_KeyID key :: seen) keys
  end.

Definition validateMetadataPayload (payload : rootMetadataWire) (now : time) : option (Z * time * time) :=
  match parsePositiveUint (rm_Version payload), parseProtocolTime (rm_ValidFrom payload),
        parseProtocolTime (rm_ValidUntil payload) with
  | Some version, Some validFrom, Some validUntil =>
      if (rm_SchemaVersion payload != metadataSchema) || (rm_RootAlgorithm payload != signatureAlgorithm) ||
         negb (validKeyID (rm_RootKeyID payload)) || negb (After validUntil validFrom) || Before now validFrom ||
         negb (Before now validUntil) || (len (rm_SigningKeys payload) =? 0) ||
         (maximumTrustedRoots <? len (rm_SigningKeys payload)) then None
      else if validSigningKeys validFrom validUntil [] [] (rm_SigningKeys payload)
      then Some (version, validFrom, validUntil) else None
  | _, _, _ => None
  end.

Definition usableState (state : bytes) : bool := (state == sbytes "active") || (state == sbytes "retiring").

(** The loop that finds the key of the signer. *)
Fixpoint findSigningKey (signerKeyID : bytes) (keys : list signingKeyMetadataWire) : result client_error bytes :=
  match keys with
  | [] => Err ErrSignature
  | key :: keys =>
      if sk_KeyID key != signerKeyID then findSigningKey signerKeyID keys
      else
        match decodeExactBase64URL (sk_PublicKey key) PublicKeySize with
        | Some publicKey =>
            if (deriveKeyID configKeyIDDomain publicKey != sk_KeyID key) || (sk_Algorithm key != signatureAlgorithm) ||
               negb (usableState (sk_State key)) then Err ErrSignature
            else Ok publicKey
        | None => Err ErrSignature
        end
  end.

Definition verifyTrustMetadata (metadata : TrustMetadata) (signerKeyID : bytes) (now : time)
  : result client_error (rootMetadataWire * bytes) :=
  let? signed := decodeStrictObject (tm_signed metadata) maximumMetadataBytes
                   (string_target (names ["payload_jcs"; "signature"])) (names ["payload_jcs"; "signature"])
    else ErrMetadata in
  let payloadBytes := dc_string signed (sbytes "payload_jcs") in
  require (2 <=? len payloadBytes) && (len payloadBytes <=? maximumMetadataBytes) else ErrMetadata in
  let? decoded := decodeStrictObject payloadBytes maximumMetadataBytes metadata_target metadata_fields else ErrMetadata in
  let payload := metadata_of decoded in
  require isCanonical payloadBytes else ErrMetadata in
  let? (version, _, _) := validateMetadataPayload payload now else ErrMetadata in
  let? rootPublicKey := tm_trustedRoots metadata !! rm_RootKeyID payload else ErrMetadata in
  require (len rootPublicKey =? PublicKeySize) && (deriveKeyID rootKeyIDDomain rootPublicKey == rm_RootKeyID payload)
    else ErrMetadata in
  let? rootSignature := decodeExactBase64URL (dc_string signed (sbytes "signature")) SignatureSize else ErrMetadata in
  require ed25519_Verify rootPublicKey (metadataSignatureDomain ++ payloadBytes) rootSignature else ErrMetadata in
  require tm_highestTrusted metadata <? version else ErrMetadataRollback in
  let? publicKey := findSigningKey signerKeyID (rm_SigningKeys payload) in
  Ok (payload, publicKey).

Fixpoint metadataKeyAuthorizes (keys : list signingKeyMetadataWire) (keyID : bytes) (notBefore expiresAt : time) : bool :=
  match keys with
  | [] => false
  | key :: keys =>
      if (sk_KeyID key != keyID) || negb (usableState (sk_State key))
      then metadataKeyAuthorizes keys keyID notBefore expiresAt
      else
        match parseProtocolTime (sk_NotBefore key), parseProtocolTime (sk_NotAfter key) with
        | Some keyNotBefore, Some keyNotAfter => negb (Before notBefore keyNotBefore) && negb (After expiresAt keyNotAfter)
        | _, _ => false
        end
  end.

(** ** The payload *)

Definition validPolicy (body : bytes) (issuedAt bundleExpiresAt now : time) : bool :=
  if (len body <? 2) || (maximumPolicyBytes <? len body) then false
  else
    match decodeStrictObject body maximumPolicyBytes policy_target [] with
    | None => false
    | Some policy =>
        let has name := bool_decide (sbytes name ∈ dc_keys policy) in
        let raw name := dc_raw (names ["mode"; "expires_at"; "max_devices"]) policy (sbytes name) in
        let mode := dc_string policy (sbytes "mode") in
        if mode == sbytes "standard" then (len (dc_keys policy) =? 1) && has "mode"%string
        else if (mode != sbytes "trial_restricted") || negb (len (dc_keys policy) =? 3) ||
                negb (has "mode"%string) || negb (has "expires_at"%string) || negb (has "max_devices"%string) then false
        else
          match decodeStrictValue (raw "expires_at"%string) maximumPolicyBytes,
                decodeStrictValue (raw "max_devices"%string) maximumPolicyBytes with
          | Some expiresAt, Some maxDevices =>
              match parseProtocolTime expiresAt with
              | Some policyExpiresAt =>
                  (maxDevices == sbytes "1") && After policyExpiresAt issuedAt &&
                  negb (After policyExpiresAt (time_Add issuedAt fixedTrialGrace)) &&
                  negb (After policyExpiresAt bundleExpiresAt) && After policyExpiresAt now
              | None => false
              end
          | _, _ => false
          end
    end.

Definition validatePayload (payload : payloadWire) (expected : Expected) (now : time) (skew : Z)
  : result client_error (Z * time * time) :=
  match parsePositiveUint (pl_BundleVersion payload), parseProtocolTime (pl_IssuedAt payload),
        parseProtocolTime (pl_NotBefore payload), parseProtocolTime (pl_ExpiresAt payload),
        decodeExactBase64URL (pl_BundleLocator payload) 32,
        decodeStrictObject (pl_TestConfig payload) maximumPlaintextBytes
          (string_target (names ["message"; "sequence"])) (names ["message"; "sequence"]) with
  | Some version, Some issuedAt, Some notBefore, Some expiresAt, Some locator, Some testConfig =>
      let message := dc_string testConfig (sbytes "message") in
      if (pl_SchemaVersion payload != bundleSchema) || negb (canonicalUUID (pl_BundleID payload)) ||
         negb (canonicalUUID (pl_Audience payload)) || (pl_Audience payload != ex_audience expected) ||
         (locator != ex_locator expected) || Before notBefore issuedAt || negb (After expiresAt notBefore) ||
         After issuedAt (time_Add now skew) || After notBefore (time_Add now skew) ||
         negb (After expiresAt (time_Add now (- skew))) || (maximumMessageBytes <? len message) ||
         negb (utf8_Valid message) || negb (time_Sub expiresAt notBefore =? fixedBundleLifetime) ||
         negb (unsignedIntegerString (dc_string testConfig (sbytes "sequence"))) ||
         negb (validPolicy (pl_PolicySnapshot payload) issuedAt expiresAt now)
      then Err ErrPayload else Ok (version, notBefore, expiresAt)
  | _, _, _, _, _, _ => Err ErrPayload
  end.

Definition validSignedBundle (value : signedBundleWire) : bool :=
  (2 <=? len (sg_PayloadJCS value)) && (len (sg_PayloadJCS value) <=? maximumPlaintextBytes) &&
  not_nil (decodeExactBase64URL (sg_PayloadSHA256 value) 32) && validKeyID (sg_SignerKeyID value) &&
  (sg_Algorithm value == signatureAlgorithm) && not_nil (decodeExactBase64URL (sg_Signature value) SignatureSize) &&
  (sg_Padding value == []).

(** ** The envelope *)

(** The associated data: the canonical header. *)
Definition envelope_header (envelope : outerEnvelopeWire) : json :=
  string_struct header_fields
    [ev_EnvelopeVersion envelope; ev_KEM envelope; ev_KDF envelope; ev_AEAD envelope;
     ev_RecipientKeyID envelope; ev_BundleLocator envelope; ev_Enc envelope].

Definition recipientSelector (publicKey locator : bytes) : bytes :=
  b64_EncodeToString (take 16 (sha256 (recipientSelectorDomain ++ publicKey ++ locator))).

(** [VerifyAndStage] up to the padded plaintext frame. *)
Definition openEnvelope (envelopeBytes : bytes) (privateKey : kem_private) (expected : Expected)
  : result client_error bytes :=
  let? decoded := decodeStrictObject envelopeBytes maximumEnvelopeBytes (string_target envelope_fields) envelope_fields
    else ErrEnvelope in
  let envelope := envelope_of decoded in
  require isCanonical envelopeBytes else ErrEnvelope in
  require (ev_EnvelopeVersion envelope == envelopeVersion) && (ev_KEM envelope == kemName) &&
          (ev_KDF envelope == kdfName) && (ev_AEAD envelope == aeadName) else ErrEnvelope in
  let? enc := decodeExactBase64URL (ev_Enc envelope) 32 else ErrEnvelope in
  let? ciphertext := decodeCiphertext (ev_Ciphertext envelope) else ErrEnvelope in
  let? locator := decodeExactBase64URL (ev_BundleLocator envelope) 32 else ErrEnvelope in
  require locator == ex_locator expected else ErrEnvelope in
  let? publicKey := kem_public privateKey else ErrRecipient in
  require kem_x25519 privateKey && (len publicKey =? 32) else ErrRecipient in
  require ev_RecipientKeyID envelope == recipientSelector publicKey (ex_locator expected) else ErrEnvelope in
  let? aad := jcs_Transform (json_Marshal (envelope_header envelope)) else ErrEnvelope in
  let? plaintext := hpke_Open privateKey enc hpkeInfo aad ciphertext else ErrRecipient in
  let? signedBytes := removeValidatedPadding plaintext else ErrEnvelope in
  Ok signedBytes.

(** The signed bundle in the frame, and its decoded payload. *)
Definition decodeSigned (signedBytes : bytes) : result client_error (signedBundleWire * payloadWire) :=
  let? decoded := decodeStrictObject signedBytes maximumPlaintextBytes (string_target signed_fields) signed_fields
    else ErrSignature in
  let signed := signed_of decoded in
  require validSignedBundle signed else ErrSignature in
  require isCanonical signedBytes else ErrSignature in
  let payloadBytes := sg_PayloadJCS signed in
  let? payload := decodeStrictObject payloadBytes maximumPlaintextBytes payload_target payload_fields else ErrPayload in
  require isCanonical payloadBytes else ErrPayload in
  require sg_PayloadSHA256 signed == b64_EncodeToString (sha256 payloadBytes) else ErrSignature in
  Ok (signed, payload_of payload).

(** [VerifyAndStage] from the open envelope to the authorised version: every
    check before the store is asked. *)
Definition verifyBundle (envelopeBytes : bytes) (privateKey : kem_private) (metadata : TrustMetadata)
    (expected : Expected) (now : time) (clockSkew : Z) : result client_error (Z * bytes) :=
  let? signedBytes := openEnvelope envelopeBytes privateKey expected in
  let? (signed, payload) := decodeSigned signedBytes in
  let canonicalPayload := sg_PayloadJCS signed in
  let? (rootMetadata, signingPublicKey) := verifyTrustMetadata metadata (sg_SignerKeyID signed) now in
  let? signature := decodeExactBase64URL (sg_Signature signed) SignatureSize else ErrSignature in
  require ed25519_Verify signingPublicKey (bundleSignatureDomain ++ canonicalPayload) signature else ErrSignature in
  let? (version, notBefore, expiresAt) := validatePayload payload expected now clockSkew in
  require metadataKeyAuthorizes (rm_SigningKeys rootMetadata) (sg_SignerKeyID signed) notBefore expiresAt
    else ErrSignature in
  Ok (version, canonicalPayload).
End Verify.

(** ** [VerifyAndStage] *)

(** The [Store] interface, called with the context of the call. *)
Record StoreOps (E : Type -> Type) := MkStoreOps {
  op_LoadHighest : bytes -> prog E (result client_error Z);
  op_StageAndAdvance : bytes -> Z -> bytes -> prog E (option client_error);
  op_Activate : bytes -> Z -> prog E (option client_error);
}.
Arguments op_LoadHighest {E}.
Arguments op_StageAndAdvance {E}.
Arguments op_Activate {E}.

(** A store error is [ErrRollback] or [ErrStore]. *)
Definition storeFailure (err : client_error) : client_error :=
  match err with ErrRollback => ErrRollback | _ => ErrStore end.

Section VerifyAndStage.
Context `{Primitives} `{UUIDText} `{Unicode} `{Ed25519} `{HPKE} {E : Type -> Type}.

(** The arguments that do not depend on the context; a nil interface is [None]. *)
Definition badInputs (privateKey : option kem_private) (metadata : TrustMetadata) (expected : Expected)
    (store : option (StoreOps E)) (now : time) (clockSkew : Z) : bool :=
  is_nil privateKey || is_nil store || (len (tm_signed metadata) <? 2) ||
  (maximumMetadataBytes <? len (tm_signed metadata)) || (len (map_to_list (tm_trustedRoots metadata)) =? 0) ||
  (ex_audience expected == []) || IsZero now || negb (t_utc now) ||
  (clockSkew <? minimumClockSkew) || (maximumClockSkew <? clockSkew).

(** The store operations, after every check. *)
Definition stageVerified (store : StoreOps E) (expected : Expected) (version : Z) (payload digest : bytes)
  : prog E (result client_error VerifiedBundle) :=
  let! highest := op_LoadHighest store (ex_audience expected) in
  match highest with
  | Err _ => Ret (Err ErrStore)
  | Ok highest =>
      if version <=? highest then Ret (Err ErrRollback)
      else
        let! err := op_StageAndAdvance store (ex_audience expected) version payload in
        match err with
        | Some err => Ret (Err (storeFailure err))
        | None =>
            let! err := op_Activate store (ex_audience expected) version in
            match err with
            | Some err => Ret (Err (storeFailure err))
            | None => Ret (Ok (MkVerified version payload digest))
            end
        end
  end.

(** [ctxErr] is [ctx.Err() != nil], [None] for a nil context. *)
Definition VerifyAndStage (ctxErr : option (prog E bool)) (envelopeBytes : bytes) (privateKey : option kem_private)
    (metadata : TrustMetadata) (expected : Expected) (store : option (StoreOps E)) (now : time) (clockSkew : Z)
  : prog E (result client_error VerifiedBundle) :=
  if (len envelopeBytes <? 2) || (maximumEnvelopeBytes <? len envelopeBytes) then Ret (Err ErrEnvelope)
  else
    match ctxErr with
    | None => Ret (Err ErrInvalidArgument)
    | Some ctxErr =>
        let! cancelled := ctxErr in
        if cancelled || badInputs privateKey metadata expected store now clockSkew then Ret (Err ErrInvalidArgument)
        else
          match privateKey, store with
          | Some privateKey, Some store =>
              match verifyBundle envelopeBytes privateKey metadata expected now clockSkew with
              | Err e => Ret (Err e)
              | Ok (version, payload) => stageVerified store expected version payload (sha256 envelopeBytes)
              end
          | _, _ => Ret (Err ErrInvalidArgument)
          end
    end.
End VerifyAndStage.
