(* ===== verification/TrustVerifyFacts.v ===== *)
(** What the checks of the trust client mean.

    Inversion lemmas for the functions of [TrustVerify]: each says what holds when
    the function accepts, in terms of the signed bytes, the keys and the instants
    of time, so that the theorems about [VerifyAndStage] need not look inside.

    The contract of the [Store] interface: a durable register, one per key, whose
    version only grows.

    [StoreContract] states what a store promises to [VerifyAndStage] under
    interference; [DirectoryStore] and [MemoryStore] both keep it, and
    [rg_VerifyAndStage] is proved against the contract alone. *)
From Stdlib Require Import ZArith Lia Strings.Byte.
From stdpp Require Import base list gmap strings numbers option sets relations.
From S2P Require Import Prelude GoStd GoTime AuthorityTypes Programs GoCrypto Text Tokens GoJson StrictJson RelyGuarantee FileSystem TrustStore TrustStoreSafety TrustJson TrustVerify.

#[local] Open Scope go_scope.

(** Peel the checks off an accepted result. *)
Ltac accepted H :=
  repeat (case_top H; try discriminate H; try match type of H with (let (_, _) := ?p in _) = _ => destruct p end).

(** ** Integers and times *)

Lemma digit_val_pos c d : digit_val c = Some d -> c <> "0"%byte -> 0 < d.
Proof. intros Hd Hc. destruct c; vm_compute in Hd; simplify_eq; lia || done. Qed.

Lemma parsePositiveUint_range value v : parsePositiveUint value = Some v -> 0 < v <= MaxInt64.
Proof.
  unfold parsePositiveUint. intros Hp. case_top Hp; [done|]. destruct (ParseUint value 10 64) as [n|] eqn:En; [|done].
  case_top Hp; [|done]. injection Hp as <-. bool_props. split; [|done].
  destruct value as [|c l]; [done|]. cbn [ParseUint parse_digits] in En.
  destruct (digit_val c) as [d|] eqn:Ed; [|done]. rewrite Z.mul_0_l, Z.add_0_l in En.
  destruct (10 <=? d) eqn:E10; [done|]. destruct (2 ^ 64 - 1 <? d) eqn:Emax; [done|]. bool_props.
  assert (0 < d) as Hd.
  { apply (digit_val_pos c d Ed). intros ->. destruct l as [|c' l]; [done|].
    match goal with Hu : unsignedIntegerString _ = true |- _ => revert Hu end.
    unfold unsignedIntegerString. rewrite (bool_decide_eq_true_2 (head _ = _)) by done.
    replace (1 <? _) with true by (symmetry; apply Z.ltb_lt; unfold len; cbn [length]; lia).
    by rewrite !orb_true_r. }
  apply parse_digits_range in En; lia.
Qed.

(** [a] is not after [b]. *)
Definition upto (a b : time) : Prop := t_nanos a <= t_nanos b.

Section Facts.
Context `{Primitives} `{UUIDText} `{Unicode} `{Ed25519} `{HPKE}.

(** ** Signing keys *)

(** What [validSigningKeys] says of one key. *)
Record signing_key_ok (validFrom validUntil : time) (key : signingKeyMetadataWire) : Prop := {
  key_public : exists publicKey,
    decodeExactBase64URL (sk_PublicKey key) PublicKeySize = Some publicKey /\
    sk_KeyID key = deriveKeyID configKeyIDDomain publicKey;
  key_interval : exists notBefore notAfter,
    parseProtocolTime (sk_NotBefore key) = Some notBefore /\ parseProtocolTime (sk_NotAfter key) = Some notAfter /\
    upto validFrom notBefore /\ upto notAfter validUntil;
}.

Lemma validSigningKeys_inv validFrom validUntil keys : forall previous seen,
  validSigningKeys validFrom validUntil previous seen keys = true ->
  Forall (signing_key_ok validFrom validUntil) keys /\ NoDup (map sk_KeyID keys) /\
  forall key, key ∈ keys -> sk_KeyID key ∉ seen.
Proof.
  induction keys as [|key keys IH]; intros previous seen Hv; [split_and!; [done|constructor|by intros ? ?%not_elem_of_nil]|].
  cbn [validSigningKeys] in Hv. apply andb_prop in Hv as [Hkey Hv].
  destruct (parseProtocolTime (sk_NotBefore key)) as [nb|] eqn:Enb; [|done].
  destruct (parseProtocolTime (sk_NotAfter key)) as [na|] eqn:Ena; [|done].
  destruct (decodeExactBase64URL _ _) as [pk|] eqn:Epk; [|done]. unfold After, Before in Hkey. bool_props.
  destruct (IH _ _ Hv) as (Hall & Hnd & Hfresh). split_and!.
  - constructor; [|done]. split; [by exists pk|]. exists nb, na. unfold upto. split_and!; done || lia.
  - cbn [map]. constructor; [|done]. intros (key' & Heq & Hin)%list_elem_of_fmap.
    apply (Hfresh key' Hin). rewrite <- Heq. left.
  - intros k [->|Hk]%elem_of_cons; [done|]. intros Hs. apply (Hfresh k Hk). by right.
Qed.

Lemma findSigningKey_inv signer keys publicKey :
  findSigningKey signer keys = Ok publicKey ->
  exists key, key ∈ keys /\ sk_KeyID key = signer /\ usableState (sk_State key) = true /\
    decodeExactBase64URL (sk_PublicKey key) PublicKeySize = Some publicKey.
Proof.
  induction keys as [|key keys IH]; intros Hf; [done|]. cbn [findSigningKey] in Hf.
  destruct (sk_KeyID key != signer) eqn:Eid.
  - destruct (IH Hf) as (k & Hk & Hrest). exists k. split; [by right|done].
  - destruct (decodeExactBase64URL _ _) as [pk|] eqn:Epk; [|done]. case_top Hf; [done|]. injection Hf as <-. bool_props.
    exists key. split; [left|]. done.
Qed.

Lemma metadataKeyAuthorizes_inv keys signer notBefore expiresAt :
  metadataKeyAuthorizes keys signer notBefore expiresAt = true ->
  exists key keyNotBefore keyNotAfter, key ∈ keys /\ sk_KeyID key = signer /\
    parseProtocolTime (sk_NotBefore key) = Some keyNotBefore /\ parseProtocolTime (sk_NotAfter key) = Some keyNotAfter /\
    upto keyNotBefore notBefore /\ upto expiresAt keyNotAfter.
Proof.
  induction keys as [|key keys IH]; intros Hf; [done|]. cbn [metadataKeyAuthorizes] in Hf. case_top Hf.
  - destruct (IH Hf) as (k & nb & na & Hk & Hrest). exists k, nb, na. split; [by right|done].
  - destruct (parseProtocolTime (sk_NotBefore key)) as [nb|] eqn:Enb; [|done].
    destruct (parseProtocolTime (sk_NotAfter key)) as [na|] eqn:Ena; [|done]. unfold After, Before in Hf. bool_props.
    exists key, nb, na. split; [left|]. unfold upto. split_and!; done || lia.
Qed.

(** The key of an identifier is unique. *)
Lemma NoDup_key keys key key' :
  NoDup (map sk_KeyID keys) -> key ∈ keys -> key' ∈ keys -> sk_KeyID key = sk_KeyID key' -> key = key'.
Proof.
  intros Hnd (i & Hi)%list_elem_of_lookup_1 (j & Hj)%list_elem_of_lookup_1 Heq.
  assert (i = j) as ->; [|by simplify_eq].
  apply (NoDup_lookup _ i j (sk_KeyID key) Hnd); rewrite list_lookup_fmap; [by rewrite Hi|by rewrite Hj, Heq].
Qed.

(** ** Metadata *)

(** [signed] carries the metadata [root], signed by the trusted root key. *)
Record root_signed (metadata : TrustMetadata) (now : time) (root : rootMetadataWire) (validFrom validUntil : time) : Prop := {
  root_key : exists rootKey body signature,
    tm_trustedRoots metadata !! rm_RootKeyID root = Some rootKey /\
    rm_RootKeyID root = deriveKeyID rootKeyIDDomain rootKey /\
    ed25519_Verify rootKey (metadataSignatureDomain ++ body) signature = true /\ isCanonical body = true /\
    exists decoded, decodeStrictObject body maximumMetadataBytes metadata_target metadata_fields = Some decoded /\
      root = metadata_of decoded;
  root_fresh : exists version, parsePositiveUint (rm_Version root) = Some version /\ tm_highestTrusted metadata < version;
  root_now : upto validFrom now /\ t_nanos now < t_nanos validUntil;
  root_keys : Forall (signing_key_ok validFrom validUntil) (rm_SigningKeys root) /\
    NoDup (map sk_KeyID (rm_SigningKeys root));
}.

Lemma validateMetadataPayload_inv payload now version validFrom validUntil :
  validateMetadataPayload payload now = Some (version, validFrom, validUntil) ->
  parsePositiveUint (rm_Version payload) = Some version /\
  (upto validFrom now /\ t_nanos now < t_nanos validUntil) /\
  Forall (signing_key_ok validFrom validUntil) (rm_SigningKeys payload) /\ NoDup (map sk_KeyID (rm_SigningKeys payload)).
Proof.
  unfold validateMetadataPayload. intros Hv. do 3 (case_top Hv; [|done]). case_top Hv; [done|]. case_top Hv; [|done].
  injection Hv as -> -> ->. unfold Before, After in *. bool_props.
  match goal with Hk : validSigningKeys _ _ _ _ _ = true |- _ => apply validSigningKeys_inv in Hk as (? & ? & _) end.
  unfold upto. split_and!; done || lia.
Qed.

Lemma verifyTrustMetadata_inv metadata signer now root publicKey :
  verifyTrustMetadata metadata signer now = Ok (root, publicKey) ->
  (exists validFrom validUntil, root_signed metadata now root validFrom validUntil) /\
  findSigningKey signer (rm_SigningKeys root) = Ok publicKey.
Proof.
  unfold verifyTrustMetadata. intros Hv. accepted Hv. injection Hv as <- <-. split; [|done].
  match goal with Hm : validateMetadataPayload _ _ = Some (?v, ?a, ?b) |- _ =>
    exists a, b; pose proof (validateMetadataPayload_inv _ _ _ _ _ Hm) as (Hver & Hnow & Hkeys) end.
  bool_props. split; [|by eexists|done|done].
  do 3 eexists. split_and!; [done..|]. by eexists.
Qed.

(** ** The payload *)

(** The bundle is for [expected], lives for exactly 24 hours and is in force at
    [now], up to the clock skew. *)
Record payload_ok (payload : payloadWire) (expected : Expected) (now : time) (skew : Z)
    (version : Z) (notBefore expiresAt : time) : Prop := {
  payload_version : parsePositiveUint (pl_BundleVersion payload) = Some version;
  payload_audience : pl_Audience payload = ex_audience expected /\ canonicalUUID (pl_Audience payload) = true;
  payload_locator : decodeExactBase64URL (pl_BundleLocator payload) 32 = Some (ex_locator expected);
  payload_times : parseProtocolTime (pl_NotBefore payload) = Some notBefore /\
    parseProtocolTime (pl_ExpiresAt payload) = Some expiresAt;
  payload_issued : exists issuedAt, parseProtocolTime (pl_IssuedAt payload) = Some issuedAt /\ upto issuedAt notBefore /\
    validPolicy (pl_PolicySnapshot payload) issuedAt expiresAt now = true;
  payload_lifetime : t_nanos expiresAt = t_nanos notBefore + 24 * Hour;
  payload_now : t_nanos notBefore <= t_nanos now + skew /\ t_nanos now - skew < t_nanos expiresAt;
}.

Lemma time_Sub_exact a b d : time_Sub a b = d -> MinInt64 < d < MaxInt64 -> t_nanos a = t_nanos b + d.
Proof. unfold time_Sub. lia. Qed.

Lemma validatePayload_inv payload expected now skew version notBefore expiresAt :
  validatePayload payload expected now skew = Ok (version, notBefore, expiresAt) ->
  payload_ok payload expected now skew version notBefore expiresAt.
Proof.
  unfold validatePayload. intros Hv. do 6 (case_top Hv; [|done]). case_top Hv; [done|].
  injection Hv as -> -> ->. unfold Before, After, time_Add in *. bool_props. cbn [t_nanos] in *.
  match goal with Hs : time_Sub _ _ = fixedBundleLifetime |- _ =>
    apply time_Sub_exact in Hs; [|by vm_compute]; unfold fixedBundleLifetime in Hs end.
  split; try done; try lia; [congruence|]. eexists. unfold upto. split_and!; done || lia.
Qed.

(** ** The bundle *)

(** What [verifyBundle] accepts: a payload signed by the key [key] of
    root-signed metadata. *)
Lemma verifyBundle_inv envelope privateKey metadata expected now skew version body :
  verifyBundle envelope privateKey metadata expected now skew = Ok (version, body) ->
  exists signedBytes signed payload root publicKey signature notBefore expiresAt,
    openEnvelope envelope privateKey expected = Ok signedBytes /\
    decodeSigned signedBytes = Ok (signed, payload) /\ sg_PayloadJCS signed = body /\
    verifyTrustMetadata metadata (sg_SignerKeyID signed) now = Ok (root, publicKey) /\
    ed25519_Verify publicKey (bundleSignatureDomain ++ body) signature = true /\
    payload_ok payload expected now skew version notBefore expiresAt /\
    metadataKeyAuthorizes (rm_SigningKeys root) (sg_SignerKeyID signed) notBefore expiresAt = true.
Proof.
  unfold verifyBundle. intros Hv. accepted Hv. injection Hv as <- <-.
  do 8 eexists. split_and!; try done. by apply validatePayload_inv.
Qed.

Lemma verifyBundle_version envelope key metadata expected now skew version payload :
  verifyBundle envelope key metadata expected now skew = Ok (version, payload) -> 0 < version <= MaxInt64.
Proof.
  intros (? & ? & ? & ? & ? & ? & ? & ? & _ & _ & _ & _ & _ & Hp & _)%verifyBundle_inv.
  by eapply parsePositiveUint_range, payload_version.
Qed.

Lemma decodeSigned_inv signedBytes signed payload :
  decodeSigned signedBytes = Ok (signed, payload) ->
  isCanonical signedBytes = true /\ isCanonical (sg_PayloadJCS signed) = true /\
  exists decoded, decodeStrictObject (sg_PayloadJCS signed) maximumPlaintextBytes payload_target payload_fields = Some decoded /\
    payload = payload_of decoded.
Proof.
  unfold decodeSigned. intros Hd. accepted Hd. injection Hd as <- <-. split_and!; [done..|]. by eexists.
Qed.

Lemma verifyBundle_body envelope key metadata expected now skew version body :
  verifyBundle envelope key metadata expected now skew = Ok (version, body) -> 2 <= len body <= maximumPlaintextBytes.
Proof.
  intros (? & sg & ? & ? & ? & ? & ? & ? & _ & Hd & <- & _)%verifyBundle_inv.
  unfold decodeSigned in Hd. accepted Hd. injection Hd as <- _. unfold validSignedBundle in *. bool_props. done.
Qed.
End Facts.

#[local] Open Scope prog_scope.

(** ** The abstract register *)

Section Contract.
Context {E : Type -> Type} {W C T : Type}.
Variables (exec : forall X, E X -> C -> W -> X * W) (ok : W -> Prop) (mono : relation W) (own : T -> relation W).

(** [reached w key v]: the register of [key] has reached version [v].  The laws:
    the register never goes back; what [LoadHighest] returns is at least what was
    reached when it was called; [StageAndAdvance] succeeds only strictly above
    that, and then has been reached, and leaves the [evidence] that this caller
    staged this body; [Activate] succeeds only for the highest. *)
Class StoreContract (ops : T -> StoreOps E) := {
  contract_laws :: RelyLaws mono own;
  reached : W -> bytes -> Z -> Prop;
  evidence : W -> T -> bytes -> Z -> bytes -> Prop;
  reached_mono w w' key v : mono w w' -> reached w key v -> reached w' key v;
  evidence_mono w w' t key v b : mono w w' -> evidence w t key v b -> evidence w' t key v b;
  contract_LoadHighest t key w0 :
    rg exec ok mono own t (op_LoadHighest (ops t) key)
      (fun r w => match r with
                  | Ok h => (forall v, reached w0 key v -> v <= h) /\ (h = 0 \/ reached w key h)
                  | Err _ => True
                  end) w0;
  contract_StageAndAdvance t key v b w0 :
    is_u64 v ->
    rg exec ok mono own t (op_StageAndAdvance (ops t) key v b)
      (fun r w => r = None -> evidence w t key v b /\ reached w key v /\ forall v', reached w0 key v' -> v' < v) w0;
  contract_Activate t key v w0 :
    rg exec ok mono own t (op_Activate (ops t) key v)
      (fun r w => r = None -> reached w key v /\ forall v', reached w0 key v' -> v' <= v) w0;
}.
End Contract.
Arguments reached {E W C T exec ok mono own ops _} _ _ _.
Arguments evidence {E W C T exec ok mono own ops _} _ _ _ _ _.
Arguments evidence_mono {E W C T exec ok mono own ops _}.
Arguments reached_mono {E W C T exec ok mono own ops _}.
Arguments contract_LoadHighest {E W C T exec ok mono own ops _}.
Arguments contract_StageAndAdvance {E W C T exec ok mono own ops _}.
Arguments contract_Activate {E W C T exec ok mono own ops _}.

(** ** [DirectoryStore] keeps it *)

Definition directory_ops (windows : bool) (store : DirectoryStore) (t : nat) : StoreOps os :=
  {| op_LoadHighest := LoadHighest (Some store) false;
     op_StageAndAdvance := StageAndAdvance t windows (Some store) false;
     op_Activate := Activate windows (Some store) false |}.

(** Version [v] or a newer one is staged. *)
Definition directory_reached (store : DirectoryStore) (w : fs) (key : bytes) (v : Z) : Prop :=
  exists v', v <= v' /\ present w (stateDirectory store key) stagePrefix v'.

(** The caller's frame has the name of the version; it survives crashes unless
    directories cannot be synced. *)
Definition directory_evidence (windows : bool) (store : DirectoryStore) (w : fs) (t : nat) (key : bytes) (v : Z) (b : bytes) : Prop :=
  exists i, holds w (stateDirectory store key) stagePrefix v i b t /\
    (windows = false -> durable w (stateDirectory store key) stagePrefix v i).

#[export] Program Instance directory_contract windows store :
  StoreContract os_exec store_ok store_mono store_own (directory_ops windows store) :=
  {| reached := directory_reached store; evidence := directory_evidence windows store |}.
Next Obligation. intros windows store w w' key v Hm (v' & Hle & Hp). exists v'. split; [done|by eapply present_mono]. Qed.
Next Obligation.
  intros windows store w w' t key v b Hm (i & Hh & Hd). exists i. split; [by eapply holds_mono|].
  intros Hw. eapply durable_mono; [done|apply Hh|by apply Hd].
Qed.
Next Obligation.
  intros windows store t key w0. eapply rg_mono; [apply _| |apply rg_LoadHighest].
  intros [h|e] w _ Hh; [|done]. destruct Hh as [Hup Hc]. split.
  - intros v (v' & Hle & Hp). specialize (Hup v' Hp). lia.
  - destruct Hc as [->|Hp]; [by left|right]. by exists h.
Qed.
Next Obligation.
  intros windows store t key v b w0 Hv. eapply rg_mono; [apply _| |by apply (rg_StageAndAdvance t windows store false key v b w0)].
  intros r w _ Hpost Hr. destruct (Hpost Hr) as (i & Hh & Hd & Hlt). split_and!.
  - by exists i.
  - exists v. split; [lia|]. by exists i, b, t.
  - intros v1 (v2 & Hle & Hp). specialize (Hlt v2 Hp). lia.
Qed.
Next Obligation.
  intros windows store t key v w0. eapply rg_mono; [apply _| |apply (rg_Activate t windows store false key v w0)].
  intros r w _ Hpost Hr. destruct (Hpost Hr) as (_ & Hp & Hup). split; [by exists v|].
  intros v1 (v2 & Hle & Hp2). specialize (Hup v2 Hp2). lia.
Qed.

(** ** [MemoryStore] keeps it *)

Definition memory_ops (t : nat) : StoreOps mem :=
  {| op_LoadHighest := memLoadHighest false false;
     op_StageAndAdvance := memStageAndAdvance false false;
     op_Activate := memActivate false false |}.

Definition mem_version (w : MemoryStore) (key : bytes) : Z := me_version (entry_of (staged w) key).

(** Versions are not negative and only grow; nobody owns anything. *)
Definition mem_ok (w : MemoryStore) : Prop := forall key, 0 <= mem_version w key.
Definition mem_mono (w w' : MemoryStore) : Prop := forall key, mem_version w key <= mem_version w' key.
Definition mem_own (t : nat) (w w' : MemoryStore) : Prop := True.
Definition mem_reached (w : MemoryStore) (key : bytes) (v : Z) : Prop := 0 < v <= mem_version w key.

#[export] Instance mem_laws : RelyLaws mem_mono mem_own.
Proof.
  split; [split; [by intros w key|]|by split].
  intros w1 w2 w3 H1 H2 key. specialize (H1 key). specialize (H2 key). lia.
Qed.

Abbreviation mrg := (rg mem_exec mem_ok mem_mono mem_own).

(** The argument check of a method, and its section under the mutex. *)
Lemma mrg_method {A} t rest key (f : client_error -> A) (section : MemoryStore -> A * MemoryStore)
    (Q : A -> MemoryStore -> Prop) w0 :
  (forall e w, Q (f e) w) ->
  (rest = false -> forall w, mem_mono w0 w -> mem_ok w ->
     mem_ok (section w).2 /\ mem_mono w (section w).2 /\
     forall w', mem_mono (section w).2 w' -> Q (section w).1 w') ->
  mrg t (let! bad := badArguments (trigger MemCtxErr) false false rest in
         if bad : bool then let! e := storeArgumentError (trigger MemCtxErr) false key in Ret (f e)
         else trigger (Locked section)) Q w0.
Proof.
  intros Hf Hs.
  assert (forall w, mrg t (let! e := storeArgumentError (trigger MemCtxErr) false key in Ret (f e)) Q w) as Herr.
  { intros w. unfold storeArgumentError. cbn [bind trigger]. intros w3 _ Hok3 ch3 x3 w4 [= <- <-].
    split; [done|]. split; [by split|]. cbn [bind].
    destruct ch3; [intros w5 _ _; apply Hf|]. destruct (validStateKey key); intros w5 _ _; apply Hf. }
  unfold badArguments. cbn [bind trigger orb]. intros w1 [Hm1 _] Hok1 ch x w2 [= <- <-].
  split; [done|]. split; [by split|]. cbn [bind].
  destruct (ch || rest) eqn:E; [apply Herr|]. apply orb_false_iff in E as [_ Hrest].
  intros w3 [Hm3 _] Hok3 ch3 x3 w4 He. cbn [mem_exec] in He.
  destruct (Hs Hrest w3) as (Hok4 & Hm4 & HQ); [by etrans|done|]. rewrite He in Hok4, Hm4, HQ. cbn [fst snd] in *.
  split; [done|]. split; [by split|]. intros w5 [Hm5 _] _. by apply HQ.
Qed.

Lemma entry_insert m key key' e :
  me_version (entry_of (<[key := e]> m) key') = if decide (key' = key) then me_version e else me_version (entry_of m key').
Proof.
  unfold entry_of. destruct (decide (key' = key)) as [->|]; [by rewrite lookup_insert_eq|by rewrite lookup_insert_ne].
Qed.

#[export] Program Instance memory_contract :
  StoreContract mem_exec mem_ok mem_mono mem_own memory_ops :=
  {| reached := mem_reached; evidence w t key v b := mem_reached w key v |}.
Next Obligation. intros w w' key v Hm [H1 H2]. specialize (Hm key). unfold mem_reached. lia. Qed.
Next Obligation. intros w w' t key v b Hm [H1 H2]. specialize (Hm key). unfold mem_reached. lia. Qed.
Next Obligation.
  intros t key w0. apply mrg_method; [done|]. intros _ w Hm Hok. cbn [fst snd]. split; [done|]. split; [done|].
  intros w' Hm'. fold (mem_version w key). pose proof (Hok key). pose proof (Hm key). pose proof (Hm' key). unfold mem_reached. split; [lia|]. lia.
Qed.
Next Obligation.
  intros t key v b w0 Hv. apply mrg_method; [done|]. intros Hrest w Hm Hok. bool_props. cbv beta.
  fold (mem_version w key). destruct (v <=? mem_version w key) eqn:E; bool_props; cbn [fst snd]; [by split_and!; [|reflexivity|intros ? _ [=]]|].
  pose proof (Hok key) as H0k. pose proof (Hm key) as Hmk. unfold is_u64 in Hv.
  assert (forall key', mem_version (mkMemoryStore (<[key := mkMemoryEntry v b]> (staged w)) (active w)) key' =
            if decide (key' = key) then v else mem_version w key') as Hver.
  { intros key'. unfold mem_version. cbn [staged]. by rewrite entry_insert. }
  split; [|split].
  - intros key'. rewrite Hver. destruct (decide _); [lia|apply Hok].
  - intros key'. rewrite Hver. destruct (decide _) as [->|]; lia.
  - intros w' Hm' _. specialize (Hm' key). rewrite Hver, decide_True in Hm' by done. unfold mem_reached. split; [lia|]. split; [lia|].
    intros v' [_ Hle]. lia.
Qed.
Next Obligation.
  intros t key v w0. apply mrg_method; [done|]. intros Hrest w Hm Hok. bool_props. cbv beta zeta.
  fold (mem_version w key). destruct (negb (v =? mem_version w key)) eqn:E; bool_props; cbn [fst snd]; [by split_and!; [|reflexivity|intros ? _ [=]]|].
  pose proof (Hok key) as H0k. pose proof (Hm key) as Hmk. split; [done|]. split; [intros key'; apply Z.le_refl|].
  intros w' Hm' _. specialize (Hm' key). unfold mem_version at 1 in Hm'. cbn [staged] in Hm'. fold (mem_version w key) in Hm'.
  unfold mem_reached. split; [lia|]. intros v' [_ Hle]. lia.
Qed.

(** ** [VerifyAndStage] against the contract *)

Section Client.
Context `{Primitives} `{UUIDText} `{Unicode} `{Ed25519} `{HPKE}.
Context {E : Type -> Type} {W C T : Type} {exec : forall X, E X -> C -> W -> X * W} {ok : W -> Prop}.
Context {mono : relation W} {own : T -> relation W} {ops : T -> StoreOps E}.
Context `{!StoreContract exec ok mono own ops}.

(** Reading the context changes nothing the store relies on. *)
Definition harmless (ctxErr : prog E bool) : Prop :=
  forall t w, rg exec ok mono own t ctxErr (fun _ _ => True) w.

(** What a verified bundle means for the store: its checks passed, its version is
    above every version reached before the call, and its payload is staged. *)
Definition staged_post (t : T) (envelope : bytes) (key : kem_private) (metadata : TrustMetadata) (expected : Expected)
    (now : time) (skew : Z) (w0 : W) (r : result client_error VerifiedBundle) (w : W) : Prop :=
  match r with
  | Ok b =>
      verifyBundle envelope key metadata expected now skew = Ok (vb_version b, vb_payloadJCS b) /\
      vb_envelopeDigest b = sha256 envelope /\
      evidence w t (ex_audience expected) (vb_version b) (vb_payloadJCS b) /\
      forall v, reached w0 (ex_audience expected) v -> v < vb_version b
  | Err _ => True
  end.

Lemma rg_stageVerified t envelope key metadata expected now skew version payload w0 :
  verifyBundle envelope key metadata expected now skew = Ok (version, payload) ->
  is_u64 version ->
  rg exec ok mono own t (stageVerified (ops t) expected version payload (sha256 envelope))
    (staged_post t envelope key metadata expected now skew w0) w0.
Proof.
  intros Hv Hu. unfold stageVerified. eapply rg_bind; [apply _|apply contract_LoadHighest|].
  intros [highest|e] w1 Hm1 Hok1 Hh; [|by apply rg_ret]. destruct Hh as [Hup _].
  destruct (version <=? highest) eqn:Hle; [by apply rg_ret|]. bool_props.
  eapply rg_bind; [apply _|by apply contract_StageAndAdvance|].
  intros [e|] w2 Hm2 Hok2 Hs; [by apply rg_ret|]. destruct (Hs eq_refl) as (He & _ & _).
  eapply rg_bind; [apply _|apply contract_Activate|].
  intros [e|] w3 Hm3 Hok3 _; [by apply rg_ret|]. apply rg_ret. intros w4 Hrely Hok4. cbn.
  split; [done|]. split; [done|]. split.
  - eapply evidence_mono; [apply Hrely|]. by eapply evidence_mono.
  - intros v Hv0. specialize (Hup v Hv0). lia.
Qed.

Lemma rg_VerifyAndStage t ctxErr envelope key metadata expected now skew w0 :
  harmless ctxErr ->
  rg exec ok mono own t
    (VerifyAndStage (Some ctxErr) envelope (Some key) metadata expected (Some (ops t)) now skew)
    (staged_post t envelope key metadata expected now skew w0) w0.
Proof.
  intros Hc. unfold VerifyAndStage. destruct (_ || _); [by apply rg_ret|].
  eapply rg_bind; [apply _|apply Hc|]. intros cancelled w1 Hm1 Hok1 _.
  destruct (_ || _); [by apply rg_ret|].
  destruct (verifyBundle _ _ _ _ _ _) as [[version payload]|e] eqn:Hv; [|by apply rg_ret].
  eapply rg_mono; [apply _| |eapply (rg_stageVerified t); [exact Hv|]].
  - intros [b|e] w2 Hm2; [|done]. cbn. intros (Hver & Hdig & Hr' & Hlow). split_and!; [done..|].
    intros v Hr. apply Hlow. by eapply reached_mono.
  - apply verifyBundle_version in Hv. unfold is_u64. unfold MaxInt64 in Hv. lia.
Qed.
End Client.
