(* ===== verification/TrustSamples.v ===== *)
(** Concrete libraries, keys and bundles for the witnesses of the trust theorems. *)
From Stdlib Require Import ZArith Lia Strings.Byte.
From stdpp Require Import base gmap list strings numbers option.
From S2P Require Import Prelude GoStd GoTime AuthorityTypes Samples Programs GoCrypto Text IdempotencyTheorems Tokens GoJson StrictJson.
From S2P Require Import FileSystem TrustStore TrustJson TrustVerify.

#[local] Open Scope go_scope.

(** ** Libraries *)

Definition trust_lib : Primitives := sample_text_lib.
Definition trust_uuid : UUIDText := sample_uuid_text.
#[export] Existing Instances trust_lib trust_uuid.
#[export] Instance trust_unicode : Unicode :=
  {| letter_table _ := false; digit_table _ := false; fold_table _ _ := false |}.

(** A signature is the key and the end of the message. *)
Definition toy_sign (key message : bytes) : bytes := key ++ sample_sum message.
#[export] Instance trust_ed25519 : Ed25519 := {| ed25519_Verify key message signature := signature == toy_sign key message |}.

(** A sealed text carries a tag of the key, the encapsulated key, the info and
    the associated data. *)
Definition toy_tag (key enc info aad : bytes) : bytes := take 4 key ++ take 4 enc ++ take 4 info ++ take 4 aad.
#[export] Instance trust_hpke : HPKE := {|
  kem_private := bytes;
  kem_public key := Some key;
  kem_x25519 _ := true;
  hpke_Open key enc info aad ciphertext :=
    let n := (length ciphertext - 16)%nat in
    if drop n ciphertext == toy_tag key enc info aad then Some (take n ciphertext) else None |}.

(** ** Keys, metadata and a bundle *)

Definition toy_root : bytes := repeat x01 32.
Definition toy_signer : bytes := repeat x02 32.
Definition toy_device : bytes := repeat x03 32.
Definition toy_private : kem_private := toy_device.
Definition toy_locator : bytes := repeat x04 32.
Definition toy_audience : bytes := uuid_String (repeat x05 16).
Definition toy_now : time := Date 2024 1 1 12 0 0 0.

Definition toy_struct (fields values : list bytes) : bytes := json_Marshal (string_struct fields values).

Definition toy_key : json :=
  string_struct key_fields
    [deriveKeyID configKeyIDDomain toy_signer; signatureAlgorithm; b64_EncodeToString toy_signer; sbytes "active";
     sbytes "2024-01-01T00:00:00Z"; sbytes "2025-01-01T00:00:00Z"].

Definition toy_metadata_payload : bytes :=
  json_Marshal (JObj (zip (take 6 metadata_fields)
    (map JStr [metadataSchema; sbytes "1"; deriveKeyID rootKeyIDDomain toy_root; signatureAlgorithm;
               sbytes "2024-01-01T00:00:00Z"; sbytes "2025-01-01T00:00:00Z"]) ++
    [(sbytes "signing_keys", JList [toy_key])])).

Definition toy_metadata_made : TrustMetadata :=
  MkTrustMetadata
    (toy_struct (names ["payload_jcs"; "signature"])
       [toy_metadata_payload; b64_EncodeToString (toy_sign toy_root (metadataSignatureDomain ++ toy_metadata_payload))])
    {[deriveKeyID rootKeyIDDomain toy_root := toy_root]} 0.

Definition toy_payload (version : bytes) : bytes :=
  json_Marshal (JObj (zip payload_strings
    (map JStr [bundleSchema; uuid_String (repeat x06 16); b64_EncodeToString toy_locator; version; toy_audience;
               sbytes "2024-01-01T12:00:00Z"; sbytes "2024-01-01T12:00:00Z"; sbytes "2024-01-02T12:00:00Z"]) ++
    [(sbytes "policy_snapshot", JObj [(sbytes "mode", JStr (sbytes "standard"))]);
     (sbytes "test_config", string_struct (names ["message"; "sequence"]) [sbytes "hello"; sbytes "0"])])).

Definition toy_signed (version : bytes) : bytes :=
  let payload := toy_payload version in
  toy_struct signed_fields
    [payload; b64_EncodeToString (sha256 payload); deriveKeyID configKeyIDDomain toy_signer; signatureAlgorithm;
     b64_EncodeToString (toy_sign toy_signer (bundleSignatureDomain ++ payload)); []].

Definition toy_envelope (version : bytes) : bytes :=
  let signed := toy_signed version in
  let frame := be_bytes 4 (len signed) ++ signed in
  let plaintext := frame ++ repeat x00 (4096 - length frame) in
  let header := [envelopeVersion; kemName; kdfName; aeadName; recipientSelector toy_device toy_locator;
                 b64_EncodeToString toy_locator; b64_EncodeToString (repeat x07 32)] in
  let aad := toy_struct header_fields header in
  toy_struct envelope_fields (header ++ [b64_EncodeToString (plaintext ++ toy_tag toy_device (repeat x07 32) hpkeInfo aad)]).

Definition toy_expected : Expected := MkExpected toy_audience toy_locator.

(** Evaluated once. *)
Definition toy_metadata : TrustMetadata := Eval vm_compute in toy_metadata_made.
Definition toy_envelope_7 : bytes := Eval vm_compute in toy_envelope (sbytes "7").
Definition toy_envelope_8 : bytes := Eval vm_compute in toy_envelope (sbytes "8").
