(* ===== verification/TrustVerifyTheorems.v ===== *)
(** Properties of [VerifyAndStage]. *)
From Stdlib Require Import ZArith Lia Strings.Byte.
From stdpp Require Import base list sets gmap strings numbers option relations.
From S2P Require Import Prelude GoStd GoTime AuthorityTypes Programs GoCrypto Text Tokens GoJson StrictJson.
From S2P Require Import RelyGuarantee FileSystem TrustStore TrustStoreSafety TrustStoreSystem TrustStoreTheorems.
From S2P Require Import TrustJson TrustVerify TrustVerifyFacts TrustSamples.

#[local] Open Scope go_scope.
#[local] Open Scope prog_scope.

Section Theorems.
Context `{Primitives} `{UUIDText} `{Unicode} `{Ed25519} `{HPKE}.

(** ** What is accepted *)

(** C15 (accepted_bundle_authorised): every bundle [VerifyAndStage] accepts comes
    with a chain of authority.  A trusted root key signed canonical metadata that
    is in force now and newer than the highest trusted version; exactly one key
    of it has the signer's identifier, it is active or retiring, and it signed the
    canonical payload; the payload is for the expected audience and locator and
    lives for 24 hours; and the validity intervals are nested: metadata around
    key, key around bundle. *)
Theorem accepted_bundle_authorised envelope privateKey metadata expected now skew version body :
  verifyBundle envelope privateKey metadata expected now skew = Ok (version, body) ->
  exists root validFrom validUntil key publicKey signature decoded notBefore expiresAt keyNotBefore keyNotAfter,
    root_signed metadata now root validFrom validUntil /\
    (key ∈ rm_SigningKeys root /\ usableState (sk_State key) = true /\
     forall key', key' ∈ rm_SigningKeys root -> sk_KeyID key' = sk_KeyID key -> key' = key) /\
    decodeExactBase64URL (sk_PublicKey key) PublicKeySize = Some publicKey /\
    ed25519_Verify publicKey (bundleSignatureDomain ++ body) signature = true /\
    isCanonical body = true /\
    decodeStrictObject body maximumPlaintextBytes payload_target payload_fields = Some decoded /\
    payload_ok (payload_of decoded) expected now skew version notBefore expiresAt /\
    parseProtocolTime (sk_NotBefore key) = Some keyNotBefore /\ parseProtocolTime (sk_NotAfter key) = Some keyNotAfter /\
    upto validFrom keyNotBefore /\ upto keyNotBefore notBefore /\ upto expiresAt keyNotAfter /\ upto keyNotAfter validUntil.
Proof.
  intros (sb & sg & pl & root & pk & sig & nb & exp & Hopen & Hd & Hbody & Hmeta & Hsig & Hpl & Hauth)%verifyBundle_inv.
  apply verifyTrustMetadata_inv in Hmeta as ((vf & vu & Hroot) & Hfind).
  apply decodeSigned_inv in Hd as (_ & Hcanon & decoded & Hdec & ->). rewrite Hbody in Hcanon, Hdec.
  apply findSigningKey_inv in Hfind as (key & Hin & Hid & Hstate & Hpk).
  apply metadataKeyAuthorizes_inv in Hauth as (key' & knb & kna & Hin' & Hid' & Hnb & Hna & Hle1 & Hle2).
  destruct (root_keys _ _ _ _ _ Hroot) as [Hall Hnd].
  assert (forall k, k ∈ rm_SigningKeys root -> sk_KeyID k = sk_KeyID key -> k = key) as Huniq.
  { intros k Hk Heq. by apply (NoDup_key (rm_SigningKeys root)). }
  assert (key' = key) as -> by (apply Huniq; congruence).
  rewrite List.Forall_forall in Hall. apply list_elem_of_In in Hin as Hin2.
  destruct (key_interval _ _ _ (Hall _ Hin2)) as (nb' & na' & Hnb' & Hna' & Hle3 & Hle4).
  rewrite Hnb in Hnb'. rewrite Hna in Hna'. injection Hnb' as <-. injection Hna' as <-.
  exists root, vf, vu, key, pk, sig, decoded, nb, exp, knb, kna. split_and!; done.
Qed.

(** ** What a call costs *)


(** ** When nothing goes wrong *)

(** The inputs [VerifyAndStage] does not refuse outright. *)
Definition good_inputs (envelope : bytes) (metadata : TrustMetadata) (expected : Expected) (now : time) (skew : Z) : bool :=
  (2 <=? len envelope) && (len envelope <=? maximumEnvelopeBytes) && (2 <=? len (tm_signed metadata)) &&
  (len (tm_signed metadata) <=? maximumMetadataBytes) && (0 <? len (map_to_list (tm_trustedRoots metadata))) &&
  (ex_audience expected != []) && negb (IsZero now) && t_utc now && (minimumClockSkew <=? skew) && (skew <=? maximumClockSkew).

Lemma good_inputs_spec {E} envelope metadata expected now skew (key : kem_private) (store : StoreOps E) :
  good_inputs envelope metadata expected now skew = true ->
  (len envelope <? 2) || (maximumEnvelopeBytes <? len envelope) = false /\
  badInputs (Some key) metadata expected (Some store) now skew = false.
Proof.
  unfold good_inputs, badInputs. intros Hgood. bool_props. cbn [is_nil orb].
  rewrite !(proj2 (Z.ltb_ge _ _)), (proj2 (Z.eqb_neq _ 0)), bool_decide_eq_false_2 by (done || lia).
  split; [done|]. repeat match goal with Hb : _ = (_ : bool) |- _ => rewrite Hb end. done.
Qed.

Lemma quiet_verify ch t windows store envelope privateKey metadata expected now skew v body w :
  quiet ch -> good_inputs envelope metadata expected now skew = true ->
  verifyBundle envelope privateKey metadata expected now skew = Ok (v, body) ->
  roomy ch store (ex_audience expected) v w ->
  exists w', steady os_exec ch
      (VerifyAndStage (Some (trigger CtxErr)) envelope (Some privateKey) metadata expected
         (Some (directory_ops windows store t)) now skew) w = (Ok (MkVerified v body (sha256 envelope)), w') /\
    steady os_exec ch (LoadActive (Some store) false (ex_audience expected)) w' = (Ok (v, body), w') /\
    stepped store (ex_audience expected) v w w'.
Proof.
  intros Hq Hgood Hv Hroom.
  pose proof (verifyBundle_version _ _ _ _ _ _ _ _ Hv) as Hver. pose proof (verifyBundle_body _ _ _ _ _ _ _ _ Hv) as Hbody.
  destruct (quiet_sequence ch Hq t windows store (ex_audience expected) v body w Hroom) as (w1 & w2 & Hr1 & Hr2 & Hr3 & Hst); [|done|].
  { unfold valid_version. unfold MaxInt64 in Hver. lia. }
  destruct (quiet_LoadHighest ch Hq w store (ex_audience expected)) as (h & Hrh & Hhp); [apply Hroom..| |].
  { pose proof (roomy_entries _ _ _ _ _ Hroom). lia. }
  assert (h < v) as Hlt.
  { destruct Hhp as [_ [->|Hp]]; [lia|]. by apply (roomy_staged _ _ _ _ _ Hroom). }
  destruct (good_inputs_spec envelope metadata expected now skew privateKey (directory_ops windows store t) Hgood) as [Hlen Hbad].
  exists w2. split; [|done]. unfold VerifyAndStage. rewrite Hlen, steady_bind. cbn [trigger steady os_exec fst snd].
  rewrite (proj1 (proj2 Hq)), Hbad. cbn [orb]. rewrite Hv. unfold stageVerified.
  cbn [directory_ops op_LoadHighest op_StageAndAdvance op_Activate].
  rewrite steady_bind, Hrh. cbn [fst snd]. rewrite (proj2 (Z.leb_gt _ _) Hlt).
  rewrite steady_bind, Hr1. cbn [fst snd]. rewrite steady_bind, Hr2. done.
Qed.

(** [verified_bundle_active]: when no call fails, the context is not cancelled
    and nobody interferes, a bundle that passes the checks and whose version is
    above all versions in a directory with room for it is accepted, and from then
    on [LoadActive] returns its version and its canonical payload. *)
Theorem verified_bundle_active ch t windows store envelope privateKey metadata expected now skew v body w :
  quiet ch -> good_inputs envelope metadata expected now skew = true ->
  verifyBundle envelope privateKey metadata expected now skew = Ok (v, body) ->
  roomy ch store (ex_audience expected) v w ->
  exists n1 n2 w',
    run os_exec (VerifyAndStage (Some (trigger CtxErr)) envelope (Some privateKey) metadata expected
       (Some (directory_ops windows store t)) now skew) (repeat ch n1) w = Some (Ok (MkVerified v body (sha256 envelope)), w') /\
    run os_exec (LoadActive (Some store) false (ex_audience expected)) (repeat ch n2) w' = Some (Ok (v, body), w').
Proof.
  intros Hq Hgood Hv Hroom.
  destruct (quiet_verify ch t windows store _ _ _ _ _ _ _ _ w Hq Hgood Hv Hroom) as (w' & Hr1 & Hr2 & _).
  destruct (steady_run os_exec ch (VerifyAndStage (Some (trigger CtxErr)) envelope (Some privateKey) metadata expected
              (Some (directory_ops windows store t)) now skew) w) as [n1 Hn1].
  destruct (steady_run os_exec ch (LoadActive (Some store) false (ex_audience expected)) w') as [n2 Hn2].
  exists n1, n2, w'. rewrite Hn1, Hn2, Hr1, Hr2. done.
Qed.

(** ** Several clients and crashes *)

(** A call of [VerifyAndStage]. *)
Record verification := MkVerification {
  vf_envelope : bytes; vf_key : kem_private; vf_metadata : TrustMetadata; vf_expected : Expected;
  vf_now : time; vf_skew : Z }.

Section Clients.
Variables (windows : bool) (store : DirectoryStore).

Definition verify_prog (t : nat) (q : verification) : prog os (result client_error VerifiedBundle) :=
  VerifyAndStage (Some (trigger CtxErr)) (vf_envelope q) (Some (vf_key q)) (vf_metadata q) (vf_expected q)
    (Some (directory_ops windows store t)) (vf_now q) (vf_skew q).

Definition verify_post (r : nat * (verification * fs)) (a : result client_error VerifiedBundle) (w : fs) : Prop :=
  let '(t, (q, w0)) := r in
  staged_post (ops := directory_ops windows store) t (vf_envelope q) (vf_key q) (vf_metadata q) (vf_expected q) (vf_now q) (vf_skew q) w0 a w.

Lemma ctxErr_harmless : harmless (exec := os_exec) (ok := store_ok) (mono := store_mono) (own := store_own) (trigger CtxErr).
Proof. intros t w w1 Hrely Hok ch x w2 [= <- <-]. split; [done|]. split; [by split|]. done. Qed.

Lemma verify_ok t q w : True -> srg t (verify_prog t q) (verify_post (t, (q, w))) w.
Proof. intros _. unfold verify_prog, verify_post. apply rg_VerifyAndStage, ctxErr_harmless. Qed.

Definition verify_step : system -> system -> Prop := sys_step verify_prog (fun _ => True).

Lemma verify_steps_ok w s : store_ok w -> rtc verify_step ([], w) s -> sys_ok verify_post s.
Proof. intros Hok Hs. eapply shared_steps_ok; [exact verify_ok|exact Hs|by apply sys_idle_ok]. Qed.
End Clients.

(** C17 (no_replay): clients of one directory, interleaved call by call, dying at
    any point, with crashes of the machine that lose whatever was not synced.
    Once a call has accepted a bundle for an audience, a later call for the
    audience accepts only a bundle with a greater version, whatever envelope it
    is given; so no bundle is accepted twice. As for [no_rollback_after_crash] the
    system is not Windows, where a failed sync of a directory is ignored. *)
Theorem no_replay store w s s1 s2 t q w0 b t' q' b' :
  store_ok w -> rtc (verify_step false store) ([], w) s -> returned s t q w0 (Ok b) ->
  rtc (verify_step false store) s s1 -> rtc (verify_step false store) s1 s2 -> returned s2 t' q' s1.2 (Ok b') ->
  ex_audience (vf_expected q') = ex_audience (vf_expected q) ->
  vb_version b < vb_version b'.
Proof.
  intros Hok Hs Hret Hs1 Hs2 Hret' Haud.
  pose proof (verify_steps_ok false store w s Hok Hs) as Hsok.
  destruct (returned_post _ _ _ _ _ _ Hsok Hret) as (_ & _ & (i & Hh & Hd) & _).
  destruct (sys_steps_durable _ _ _ (verify_ok false store) s s1 _ _ _ _ _ _ Hs1 Hsok Hh (Hd eq_refl)) as [Hh1 _].
  pose proof (verify_steps_ok false store w s2 Hok (transitivity Hs (transitivity Hs1 Hs2))) as Hsok2.
  destruct (returned_post _ _ _ _ _ _ Hsok2 Hret') as (_ & _ & _ & Hlow). apply Hlow. rewrite Haud.
  exists (vb_version b). split; [lia|]. by eexists _, _, _.
Qed.

(** [accepted_once]: of clients that run at the same time, at most one accepts
    a version for an audience. *)
Theorem accepted_once windows store w s t1 q1 w1 b1 t2 q2 w2 b2 :
  store_ok w -> rtc (verify_step windows store) ([], w) s ->
  returned s t1 q1 w1 (Ok b1) -> returned s t2 q2 w2 (Ok b2) ->
  ex_audience (vf_expected q1) = ex_audience (vf_expected q2) -> vb_version b1 = vb_version b2 ->
  t1 = t2.
Proof.
  intros Hok Hs H1' H2' Haud Hver.
  pose proof (verify_steps_ok windows store w s Hok Hs) as Hsok.
  destruct (returned_post _ _ _ _ _ _ Hsok H1') as (_ & _ & (i & Hh1 & _) & _).
  destruct (returned_post _ _ _ _ _ _ Hsok H2') as (_ & _ & (j & Hh2 & _) & _).
  rewrite Haud, Hver in Hh1. by eapply holds_creator.
Qed.
End Theorems.

(** ** Samples *)

Definition toy_verification (envelope : bytes) : verification :=
  MkVerification envelope toy_private toy_metadata toy_expected toy_now Minute.

Lemma toy_verified_7 :
  verifyBundle toy_envelope_7 toy_private toy_metadata toy_expected toy_now Minute = Ok (7, toy_payload (sbytes "7")).
Proof. vm_compute. reflexivity. Qed.

Lemma toy_verified_8 :
  verifyBundle toy_envelope_8 toy_private toy_metadata toy_expected toy_now Minute = Ok (8, toy_payload (sbytes "8")).
Proof. vm_compute. reflexivity. Qed.

Lemma toy_good :
  good_inputs toy_envelope_7 toy_metadata toy_expected toy_now Minute = true /\
  good_inputs toy_envelope_8 toy_metadata toy_expected toy_now Minute = true.
Proof. split; vm_compute; reflexivity. Qed.

Lemma accepted_bundle_authorised_witness :
  exists root validFrom validUntil key,
    root_signed toy_metadata toy_now root validFrom validUntil /\ key ∈ rm_SigningKeys root /\
    usableState (sk_State key) = true.
Proof.
  destruct (accepted_bundle_authorised toy_envelope_7 toy_private toy_metadata toy_expected toy_now Minute 7
              (toy_payload (sbytes "7")) toy_verified_7)
    as (root & vf & vu & key & pk & sg & d & nb & ea & knb & kna & Hroot & (Hin & Hst & _) & _).
  exists root, vf, vu, key. split_and!; [exact Hroot|exact Hin|exact Hst].
Defined.

Lemma toy_roomy : roomy sample_choice sample_store toy_audience 7 (empty_fs sample_store).
Proof. by apply empty_fs_roomy. Qed.

Lemma verified_bundle_active_witness :
  exists n1 n2 w',
    run os_exec (VerifyAndStage (Some (trigger CtxErr)) toy_envelope_7 (Some toy_private) toy_metadata toy_expected
       (Some (directory_ops false sample_store 0)) toy_now Minute) (repeat sample_choice n1) (empty_fs sample_store) =
      Some (Ok (MkVerified 7 (toy_payload (sbytes "7")) (sha256 toy_envelope_7)), w') /\
    run os_exec (LoadActive (Some sample_store) false toy_audience) (repeat sample_choice n2) w' =
      Some (Ok (7, toy_payload (sbytes "7")), w').
Proof.
  apply (verified_bundle_active sample_choice 0 false sample_store toy_envelope_7 toy_private toy_metadata toy_expected toy_now
           Minute 7 (toy_payload (sbytes "7")) (empty_fs sample_store));
    [done|apply toy_good|exact toy_verified_7|exact toy_roomy].
Defined.

(** A call that runs alone. *)
Lemma toy_steps t envelope v w :
  good_inputs envelope toy_metadata toy_expected toy_now Minute = true ->
  verifyBundle envelope toy_private toy_metadata toy_expected toy_now Minute = Ok v ->
  roomy sample_choice sample_store toy_audience v.1 w ->
  exists w', stepped sample_store toy_audience v.1 w w' /\
    rtc (verify_step false sample_store) ([], w)
      ([((t, (toy_verification envelope, w)), Ret (Ok (MkVerified v.1 v.2 (sha256 envelope))))], w').
Proof.
  intros Hg Hv Hr. destruct v as [v body].
  destruct (quiet_verify sample_choice t false sample_store _ _ _ _ _ _ _ _ w ltac:(done) Hg Hv Hr) as (w' & Hr1 & _ & Hst).
  exists w'. split; [done|].
  destruct (steady_run os_exec sample_choice (verify_prog false sample_store t (toy_verification envelope)) w) as [n Hn].
  eapply (sys_run _ _ t (toy_verification envelope) (repeat sample_choice n)); [done|].
  rewrite Hn. unfold verify_prog, toy_verification. cbn [vf_envelope vf_key vf_metadata vf_expected vf_now vf_skew].
  by rewrite Hr1.
Qed.

Definition toy_bundle_7 : VerifiedBundle := MkVerified 7 (toy_payload (sbytes "7")) (sha256 toy_envelope_7).
Definition toy_bundle_8 : VerifiedBundle := MkVerified 8 (toy_payload (sbytes "8")) (sha256 toy_envelope_8).

(** Version 7 is accepted, and then version 8. *)
Lemma toy_run : exists w1 w2,
  rtc (verify_step false sample_store) ([], empty_fs sample_store)
    ([((0%nat, (toy_verification toy_envelope_7, empty_fs sample_store)), Ret (Ok toy_bundle_7))], w1) /\
  rtc (verify_step false sample_store) ([], w1) ([((1%nat, (toy_verification toy_envelope_8, w1)), Ret (Ok toy_bundle_8))], w2).
Proof.
  destruct (toy_steps 0 toy_envelope_7 (7, toy_payload (sbytes "7")) (empty_fs sample_store)) as (w1 & Hst1 & Hs1);
    [apply toy_good|exact toy_verified_7|exact toy_roomy|].
  destruct (toy_steps 1 toy_envelope_8 (8, toy_payload (sbytes "8")) w1) as (w2 & _ & Hs2);
    [apply toy_good|exact toy_verified_8| |by exists w1, w2].
  by apply (roomy_next sample_choice sample_store toy_audience 7 8 (empty_fs sample_store)); [exact toy_roomy|..].
Qed.

(** Between the two the first process exits. *)
Lemma no_replay_witness : vb_version toy_bundle_7 < vb_version toy_bundle_8.
Proof.
  destruct toy_run as (w1 & w2 & Hs1 & Hs2).
  apply (no_replay sample_store (empty_fs sample_store)
            ([((0%nat, (toy_verification toy_envelope_7, empty_fs sample_store)), Ret (Ok toy_bundle_7))], w1) ([], w1)
            ([((1%nat, (toy_verification toy_envelope_8, w1)), Ret (Ok toy_bundle_8))], w2)
            0 (toy_verification toy_envelope_7) (empty_fs sample_store) toy_bundle_7 1 (toy_verification toy_envelope_8) toy_bundle_8).
  - apply empty_fs_ok.
  - exact Hs1.
  - exists 0%nat. exact eq_refl.
  - exact (rtc_once _ _ (sys_kill _ _ [((0%nat, (toy_verification toy_envelope_7, empty_fs sample_store)), Ret (Ok toy_bundle_7))] w1 0)).
  - exact Hs2.
  - exists 0%nat. exact eq_refl.
  - unfold toy_verification. cbn [vf_expected]. reflexivity.
Defined.

Lemma accepted_once_witness : 0%nat = 0%nat.
Proof.
  destruct toy_run as (w1 & w2 & Hs1 & _).
  apply (accepted_once false sample_store (empty_fs sample_store)
            ([((0%nat, (toy_verification toy_envelope_7, empty_fs sample_store)), Ret (Ok toy_bundle_7))], w1)
            0 (toy_verification toy_envelope_7) (empty_fs sample_store) toy_bundle_7
            0 (toy_verification toy_envelope_7) (empty_fs sample_store) toy_bundle_7).
  - apply empty_fs_ok.
  - exact Hs1.
  - exists 0%nat. exact eq_refl.
  - exists 0%nat. exact eq_refl.
  - exact eq_refl.
  - exact eq_refl.
Defined.
