(* ===== verification/TrustJcs.v ===== *)
(** RFC 8785: what the signed and sealed texts look like.

    [gowebpki/jcs] is a parameter ([jcs_Transform]); [JCSLaws] says what it does
    to objects, arrays and strings, the only values in the texts of the trust
    components: members are sorted by name, spaces go, and strings are printed
    with the fewest escapes.  A transformation that satisfies the laws is at the
    end. *)
From Stdlib Require Import ZArith Lia Strings.Byte.
From stdpp Require Import base gmap list strings numbers option.
From S2P Require Import Prelude GoStd GoTime AuthorityTypes GoCrypto GoJson StrictJson StrictJsonTheorems.
From S2P Require Import TrustStore TrustJson TrustJsonTheorems TrustVerify.

#[local] Open Scope go_scope.

(** ** The printed form *)

(** Strings: the escapes of [json.Marshal], but none for HTML and for bytes above
    ASCII. *)
Definition jcs_escape (b : byte) : bytes :=
  let v := byte_to_Z b in
  if (0x80 <=? v) || (v =? 0x3C) || (v =? 0x3E) || (v =? 0x26) then [b] else json_escape_ascii b.

Definition jcs_string (s : bytes) : bytes := [x22] ++ flat_map jcs_escape s ++ [x22].

(** Members sorted by name. *)
Fixpoint insert_member (m : bytes * json) (l : list (bytes * json)) : list (bytes * json) :=
  match l with
  | [] => [m]
  | m' :: l' => if bytes_lt m'.1 m.1 then m' :: insert_member m l' else m :: l
  end.

Definition sort_members (l : list (bytes * json)) : list (bytes * json) := foldr insert_member [] l.

Fixpoint canonical (v : json) : json :=
  match v with
  | JObj fields => JObj (sort_members (map (fun f => (f.1, canonical f.2)) fields))
  | JList items => JList (map canonical items)
  | v => v
  end.

Definition jcs_text (v : json) : bytes := print jcs_string (canonical v).

(** The values the laws are about: strings in valid UTF-8, and objects whose names
    are ASCII and distinct. *)
Definition ascii (s : bytes) : bool := forallb (fun c => byte_to_Z c <? 0x80) s.

Fixpoint canonicalizable (v : json) : bool :=
  match v with
  | JNull => true
  | JStr s => utf8_Valid s
  | JObj fields => bool_decide (NoDup fields.*1) && forallb (fun f => ascii f.1 && canonicalizable f.2) fields
  | JList items => forallb canonicalizable items
  end.

Class JCSLaws `{Primitives} : Prop := {
  jcs_Marshal v : canonicalizable v = true -> jcs_Transform (json_Marshal v) = Some (jcs_text v);
  jcs_canonical v : canonicalizable v = true -> jcs_Transform (jcs_text v) = Some (jcs_text v);
}.

(** ** It reads back *)

Lemma jcs_escape_scan b l s rest : scan_string l = Some (s, rest) -> scan_string (jcs_escape b ++ l) = Some (b :: s, rest).
Proof.
  intros Hl. unfold jcs_escape. destruct (0x80 <=? byte_to_Z b) eqn:Ha; bool_props.
  - cbn [orb app]. by rewrite scan_high, Hl.
  - cbn [orb]. destruct (_ || _) eqn:Eh; [|by apply scan_escaped_ascii].
    destruct b; try discriminate Eh; cbn; by rewrite Hl.
Qed.

Lemma jcs_string_quotes s : quotes jcs_string s.
Proof.
  exists (flat_map jcs_escape s ++ [x22]). split; [done|]. intros rest. rewrite <- app_assoc.
  induction s as [|b s IH]; [done|]. cbn [flat_map]. rewrite <- app_assoc. by apply jcs_escape_scan.
Qed.

Lemma jcs_reads v : json_text (jcs_text v) (tree_of (canonical v)).
Proof. apply print_text, List.Forall_forall. intros s _. apply jcs_string_quotes. Qed.

(** ** It is valid UTF-8 *)

Inductive utf8 : bytes -> Prop :=
| utf8_nil : utf8 []
| utf8_rune b l r w : DecodeRune b l = (r, w) -> (r =? RuneError) && (w =? 1)%nat = false ->
    utf8 (drop (w - 1) l) -> utf8 (b :: l).

Lemma utf8_of_fuel fuel l : utf8_valid_fuel fuel l = true -> utf8 l.
Proof.
  revert l. induction fuel as [|fuel IH]; intros [|b l] Hv; [constructor|done|constructor|]. cbn in Hv.
  destruct (DecodeRune b l) as [r w] eqn:Hd. destruct (_ && _) eqn:Hr; [done|]. econstructor; [done..|]. by apply IH.
Qed.

Lemma utf8_fuel l : utf8 l -> forall fuel, (length l <= fuel)%nat -> utf8_valid_fuel fuel l = true.
Proof.
  induction 1 as [|b l r w Hd Hr Hu IH]; intros [|fuel] Hf; try done; [cbn in Hf; lia|]. cbn. rewrite Hd, Hr.
  apply IH. rewrite length_drop. cbn in Hf. lia.
Qed.

Lemma utf8_spec l : utf8_Valid l = true <-> utf8 l.
Proof. split; [apply utf8_of_fuel|intros Hu; by apply utf8_fuel]. Qed.

(** A rune is decoded from its own bytes. *)
Lemma DecodeRune_local b l r w m :
  DecodeRune b l = (r, w) -> (r =? RuneError) && (w =? 1)%nat = false ->
  DecodeRune b (take (w - 1) l ++ m) = (r, w) /\ (w - 1 <= length l)%nat.
Proof.
  unfold DecodeRune. intros Hd Hr. destruct (byte_to_Z b <? 0x80); [simplify_eq; by split; [|apply Nat.le_0_l]|].
  destruct (utf8_first (byte_to_Z b)) as [[[n lo] hi]|]; [|by simplify_eq].
  destruct n as [|[|[|[|n]]]]; destruct l as [|b1 [|b2 [|b3 l]]]; simplify_eq; try done;
    (case_top Hd; simplify_eq; try done); (split; [cbn; by repeat match goal with E : _ = true |- _ => rewrite E end|cbn [length]; lia]).
Qed.

Lemma utf8_app a b : utf8 a -> utf8 b -> utf8 (a ++ b).
Proof.
  intros Ha Hb. induction Ha as [|c l r w Hd Hr Hu IH]; [done|]. cbn [app].
  destruct (DecodeRune_local c l r w (drop (w - 1) l ++ b) Hd Hr) as [Hloc Hlen].
  rewrite <- (take_drop (w - 1) l), <- app_assoc. econstructor; [exact Hloc|done|].
  by rewrite drop_app_length' by (rewrite length_take; lia).
Qed.

Lemma utf8_ascii s : ascii s = true -> utf8 s.
Proof.
  unfold ascii. rewrite forallb_Forall. induction 1 as [|c l Hc _ IH]; [constructor|].
  apply (utf8_rune c l (byte_to_Z c) 1); [unfold DecodeRune; by rewrite Hc| |by rewrite drop_0].
  apply andb_false_intro1, Z.eqb_neq. bool_props. unfold RuneError. lia.
Qed.

Lemma jcs_escape_ascii b : byte_to_Z b < 0x80 -> ascii (jcs_escape b) = true.
Proof. intros Hb. destruct b; try discriminate Hb; vm_compute; reflexivity. Qed.

Lemma jcs_escape_high l : Forall (fun c => 0x80 <= byte_to_Z c) l -> flat_map jcs_escape l = l.
Proof.
  induction 1 as [|c l Hc _ IH]; [done|]. cbn [flat_map]. rewrite IH. unfold jcs_escape.
  by rewrite (proj2 (Z.leb_le _ _) Hc).
Qed.

Lemma utf8_escaped s : utf8 s -> utf8 (flat_map jcs_escape s).
Proof.
  induction 1 as [|b l r w Hd Hr Hu IH]; [constructor|]. destruct (byte_to_Z b <? 0x80) eqn:Ha.
  - unfold DecodeRune in Hd. rewrite Ha in Hd. injection Hd as <- <-. rewrite drop_0 in IH.
    cbn [flat_map]. apply utf8_app; [|done]. apply utf8_ascii, jcs_escape_ascii. by apply Z.ltb_lt.
  - apply Z.ltb_ge in Ha. destruct (rune_bytes b l r w Hd Ha Hr) as [Hsplit Hhigh].
    rewrite Hsplit, flat_map_app, (jcs_escape_high _ Hhigh).
    destruct w as [|w]; [apply (f_equal length) in Hsplit; cbn in Hsplit; rewrite drop_0 in Hsplit; lia|].
    destruct (DecodeRune_local b l r (S w) (flat_map jcs_escape (drop (S w - 1) l)) Hd Hr) as [Hloc Hlen].
    cbn [Nat.sub] in *. rewrite Nat.sub_0_r in *. change (take (S w) (b :: l)) with (b :: take w l). cbn [app].
    apply (utf8_rune b _ r (S w) Hloc Hr). cbn [Nat.sub]. rewrite Nat.sub_0_r.
    by rewrite drop_app_length' by (rewrite length_take; lia).
Qed.

(** A valid text of valid strings is valid. *)
Section Valid.
Variable str : bytes -> bytes.
Hypothesis str_utf8 : forall s, utf8 s -> utf8 (str s).

Lemma utf8_join parts : Forall utf8 parts -> utf8 (join_comma parts).
Proof.
  intros Hp. destruct Hp as [|p ps Hp Hps]; [constructor|]. rewrite join_comma_cons. apply utf8_app; [done|].
  induction Hps as [|q ps Hq _ IH]; [constructor|]. cbn [flat_map]. apply utf8_app; [|done].
  apply utf8_app; [by apply utf8_ascii|done].
Qed.

Lemma utf8_print v : Forall utf8 (json_strings v) -> utf8 (print str v).
Proof.
  induction v as [|text|fields IH|items IH] using json_nested_ind; intros Hu.
  - by apply utf8_ascii.
  - apply str_utf8. by inversion Hu.
  - rewrite print_object. apply utf8_app; [by apply utf8_ascii|]. apply utf8_app; [|by apply utf8_ascii]. apply utf8_join.
    cbn [json_strings] in Hu. induction IH as [|f fields Hf _ IHf]; [constructor|]. cbn [flat_map] in Hu.
    inversion Hu as [|? ? Hk Hu']; subst. apply Forall_app in Hu' as [Hu1 Hu2]. constructor; [|by apply IHf].
    unfold member_text. apply utf8_app; [by apply str_utf8|]. apply utf8_app; [by apply utf8_ascii|by apply Hf].
  - cbn [print]. apply utf8_app; [by apply utf8_ascii|]. apply utf8_app; [|by apply utf8_ascii]. apply utf8_join.
    cbn [json_strings] in Hu. induction IH as [|f fields Hf _ IHf]; [constructor|]. cbn [flat_map] in Hu.
    apply Forall_app in Hu as [Hu1 Hu2]. constructor; [by apply Hf|by apply IHf].
Qed.
End Valid.

Lemma jcs_string_utf8 s : utf8 s -> utf8 (jcs_string s).
Proof.
  intros Hs. unfold jcs_string. apply utf8_app; [by apply utf8_ascii|]. apply utf8_app; [by apply utf8_escaped|by apply utf8_ascii].
Qed.

(** ** Its escapes are well formed *)

Lemma escapes_byte b l : unicodeEscapes true false (jcs_escape b ++ l) = unicodeEscapes true false l.
Proof. destruct b; reflexivity. Qed.

Lemma escapes_string s l : unicodeEscapes false false (jcs_string s ++ l) = unicodeEscapes false false l.
Proof.
  unfold jcs_string. rewrite <- !app_assoc.
  change (unicodeEscapes false false ([x22] ++ ?r)) with (unicodeEscapes true false r).
  induction s as [|b s IH]; [done|]. cbn [flat_map]. by rewrite <- app_assoc, escapes_byte.
Qed.

Lemma escapes_join parts l :
  Forall (fun p => forall l, unicodeEscapes false false (p ++ l) = unicodeEscapes false false l) parts ->
  unicodeEscapes false false (join_comma parts ++ l) = unicodeEscapes false false l.
Proof.
  intros [|p ps Hp Hps]; [done|]. rewrite join_comma_cons, <- app_assoc, Hp.
  induction Hps as [|q ps Hq _ IH]; [done|]. cbn [flat_map]. rewrite <- !app_assoc.
  change (unicodeEscapes false false ([x2c] ++ ?r)) with (unicodeEscapes false false r). by rewrite Hq.
Qed.

Lemma escapes_print v l : unicodeEscapes false false (print jcs_string v ++ l) = unicodeEscapes false false l.
Proof.
  revert l. induction v as [|text|fields IH|items IH] using json_nested_ind; intros l.
  - done.
  - apply escapes_string.
  - rewrite print_object, <- !app_assoc. change (unicodeEscapes false false ([x7b] ++ ?r)) with (unicodeEscapes false false r).
    rewrite escapes_join; [done|]. induction IH as [|f fields Hf _ IHf]; constructor; [|done]. intros m.
    unfold member_text. rewrite <- !app_assoc, escapes_string.
    change (unicodeEscapes false false ([x3a] ++ ?r)) with (unicodeEscapes false false r). apply Hf.
  - cbn [print]. rewrite <- !app_assoc. change (unicodeEscapes false false ([x5b] ++ ?r)) with (unicodeEscapes false false r).
    rewrite escapes_join; [done|]. induction IH as [|f fields Hf _ IHf]; constructor; [|done]. apply Hf.
Qed.

(** ** Canonical values *)

Lemma insert_perm m l : insert_member m l ≡ₚ m :: l.
Proof. induction l as [|m' l IH]; [done|]. cbn. case_match; [|done]. rewrite IH. apply Permutation_swap. Qed.

Lemma sort_perm l : sort_members l ≡ₚ l.
Proof. induction l as [|m l IH]; [done|]. cbn. by rewrite insert_perm, IH. Qed.

Lemma forallb_perm {A} (p : A -> bool) l l' : l ≡ₚ l' -> forallb p l = forallb p l'.
Proof. induction 1; cbn; [done|congruence|rewrite !andb_assoc; f_equal; apply andb_comm|congruence]. Qed.

Lemma canonicalizable_canonical v : canonicalizable (canonical v) = canonicalizable v.
Proof.
  induction v as [|text|fields IH|items IH] using json_nested_ind; try done; cbn [canonical canonicalizable].
  - set (l := map _ fields). assert (l.*1 = fields.*1) as Hkeys.
    { unfold l. clear. induction fields as [|f fields IH]; [done|]. cbn. by f_equal. }
    f_equal.
    + apply bool_decide_ext. by rewrite sort_perm, Hkeys.
    + rewrite (forallb_perm _ _ _ (sort_perm l)). unfold l. clear l Hkeys.
      induction IH as [|f fields Hf _ IHf]; [done|]. cbn [forallb map fst snd]. by rewrite Hf, IHf.
  - induction IH as [|f items Hf _ IHf]; [done|]. cbn [forallb map]. by rewrite Hf, IHf.
Qed.

Lemma plain_strings v : canonicalizable v = true -> Forall utf8 (json_strings v).
Proof.
  induction v as [|text|fields IH|items IH] using json_nested_ind; intros Hp; cbn [canonicalizable json_strings] in *.
  - constructor.
  - constructor; [by apply utf8_spec|constructor].
  - apply andb_true_iff in Hp as [_ Hall]. induction IH as [|f fields Hf _ IHf]; [constructor|]. cbn [forallb flat_map] in *.
    apply andb_true_iff in Hall as [[Ha Hv]%andb_true_iff Hrest]. constructor; [by apply utf8_ascii|].
    apply Forall_app. split; [by apply Hf|by apply IHf].
  - induction IH as [|f items Hf _ IHf]; [constructor|]. cbn [forallb flat_map] in *.
    apply andb_true_iff in Hp as [Hv Hrest]. apply Forall_app. split; [by apply Hf|by apply IHf].
Qed.

(** A canonical text passes the first checks of the scan. *)
Lemma jcs_valid v : canonicalizable v = true ->
  utf8_Valid (jcs_text v) = true /\ validUnicodeEscapes (jcs_text v) = true.
Proof.
  intros Hp. split.
  - apply utf8_spec, utf8_print; [apply jcs_string_utf8|]. apply plain_strings. by rewrite canonicalizable_canonical.
  - unfold validUnicodeEscapes, jcs_text. rewrite <- (app_nil_r (print _ _)). by rewrite escapes_print.
Qed.

(** ** Raw members *)

Lemma print_head str v : Forall (quotes str) (json_strings v) -> exists c l, print str v = c :: l /\ c ∈ [x7b; x5b; x22; "n"%byte].
Proof.
  destruct v as [|s|fields|items]; intros Hq; [| |by eexists _, _; split; [done|set_solver]..].
  - eexists _, _. split; [done|set_solver].
  - inversion Hq as [|? ? (inner & Hs & _) _]; subst. exists x22, inner. split; [done|set_solver].
Qed.

Lemma value_text_print str v r stack : Forall (quotes str) (json_strings v) ->
  value_text (MkDecoder ([x3a] ++ print str v ++ r) ObjectColon stack) = print str v ++ r.
Proof.
  intros Hq. destruct (print_head str v Hq) as (c & l & -> & Hc).
  rewrite !elem_of_cons in Hc. destruct Hc as [-> | [-> | [-> | [-> | []%not_elem_of_nil]]]]; done.
Qed.

Section Raws.
Variable str : bytes -> bytes.

Definition member_ok (f : bytes * json) : Prop := quotes str f.1 /\ Forall (quotes str) (json_strings f.2).

Lemma raw_members fields s pre r stack fuel :
  at_key s pre -> Forall member_ok fields ->
  let text := match fields with [] => [] | f :: fs => pre ++ member_text str f ++ flat_map (fun q => [x2c] ++ q) (map (member_text str) fs) end in
  (2 * length (text ++ x7d :: r) + 1 <= fuel)%nat ->
  rawMembers fuel (MkDecoder (text ++ x7d :: r) s stack) = Some (map (fun f => (f.1, print str f.2)) fields).
Proof.
  revert s pre fuel. induction fields as [|[k v] fields IH]; intros s pre fuel Hat Hall text Hf;
    (destruct fuel as [|fuel]; [lia|]); [by destruct Hat|].
  inversion Hall as [|? ? (Hk & Hq) Hall']; subst. cbn [fst snd] in *. revert Hf. unfold text, member_text. cbn [fst snd].
  rewrite <- !app_assoc. set (tail := flat_map _ _ ++ x7d :: r). intros Hf.
  destruct (read_print str v Hq ObjectColon [x3a] ObjectValue tail stack at_member) as (t & d1 & g & Ht & Hv).
  pose proof (Token_consumes _ _ _ Ht) as Hc. cbn [dec_rest] in Hc.
  cbn [rawMembers]. rewrite More_key, Token_key, Ht, value_text_print by done.
  rewrite (proj1 (read_enough g) _ _ _ _ fuel Hv).
  2: { rewrite !length_app in Hf. rewrite !length_app in Hc. lia. }
  cbn [mbind option_bind tokenValueEnd dec_rest].
  assert (rawMembers fuel (MkDecoder tail ObjectComma stack) = Some (map (fun f => (f.1, print str f.2)) fields)) as ->.
  { specialize (IH ObjectComma [x2c] fuel at_next_key Hall'). cbv zeta in IH. unfold tail. destruct fields as [|f fields].
    - apply IH. rewrite !length_app in Hf. unfold tail in Hf. rewrite length_app in Hf. cbn in *. lia.
    - unfold member_text in IH. cbn [map flat_map] in IH |- *. rewrite <- !app_assoc in IH. rewrite <- !app_assoc.
      apply IH. unfold tail in Hf. cbn [map flat_map] in Hf. rewrite !length_app in *. cbn in *. lia. }
  cbn [mbind option_bind map fst snd]. do 3 f_equal.
  rewrite length_app. replace (length (print str v) + length tail - length tail)%nat with (length (print str v)) by lia.
  by rewrite take_app_length.
Qed.
End Raws.

Lemma jcs_member_ok fields : Forall (member_ok jcs_string) fields.
Proof.
  apply List.Forall_forall. intros f _. split; [apply jcs_string_quotes|].
  apply List.Forall_forall. intros s _. apply jcs_string_quotes.
Qed.

Lemma object_raws_print str fields : Forall (member_ok str) fields ->
  object_raws (print str (JObj fields)) = map (fun f => (f.1, print str f.2)) fields.
Proof.
  intros Hall. unfold object_raws. rewrite print_object.
  pose proof (Token_object TopValue [] TopValue (join_comma (map (member_text str) fields) ++ [x7d]) [] at_top) as Ht.
  unfold NewDecoder. cbn [app] in Ht |- *. rewrite Ht. clear Ht.
  pose proof (raw_members str fields ObjectStart [] [] [TopValue]
                (body_fuel (x7b :: join_comma (map (member_text str) fields) ++ [x7d])) at_first_key Hall) as Hraw.
  cbv zeta in Hraw.
  assert (match fields with [] => [] | f :: fs => [] ++ member_text str f ++ flat_map (fun q => [x2c] ++ q) (map (member_text str) fs) end =
          join_comma (map (member_text str) fields)) as Htext.
  { destruct fields; [done|]. cbn [map]. by rewrite join_comma_cons. }
  rewrite Htext in Hraw. rewrite Hraw; [done|]. unfold body_fuel. cbn [length app]. lia.
Qed.

(** ** A canonical object is decoded *)

Section Decode.
Context `{Unicode}.

(** Any text of an object is decoded, whatever its spelling. *)
Lemma decode_text body fields maximum target required value :
  utf8_Valid body = true -> validUnicodeEscapes body = true -> json_text body (tree_of (JObj fields)) ->
  clean 0 (tree_of (JObj fields)) = true -> 1 <= len body <= maximum -> assign target (tree_of (JObj fields)) = Ok value ->
  forallb (fun name => bool_decide (name ∈ fields.*1)) required = true -> required = [] \/ len fields = len required ->
  decodeStrictObject body maximum target required = Some (MkDecoded fields.*1 value (object_raws body)).
Proof.
  intros Hu He Hr Hclean Hlen Ha Hreq Hsize.
  assert (scanStrictJSON body maximum = Some (Some fields.*1)) as Hs.
  { rewrite (scan_text body maximum (tree_of (JObj fields))) by done. cbn [tree_of tree_keys]. do 2 f_equal.
    clear. induction fields as [|f fields IH]; [done|]. cbn. by f_equal. }
  unfold decodeStrictObject. rewrite Hs, Hreq. cbn [negb].
  assert ((0 <? len required) && negb (len fields.*1 =? len required) = false) as ->.
  { destruct Hsize as [->|Hsize]; [done|]. unfold len in *. rewrite length_fmap, Hsize, Z.eqb_refl. by rewrite andb_false_r. }
  apply json_text_reads in Hr as (t & d & d' & Ht & Hread & Heof). unfold decodeTyped. by rewrite Ht, Hread, Ha, Heof.
Qed.

Lemma jcs_text_nonempty v fields : canonical v = JObj fields -> 1 <= len (jcs_text v).
Proof.
  intros Hc. unfold jcs_text. rewrite Hc, print_object, len_app. change (len [x7b]) with 1.
  pose proof (len_nonneg (join_comma (map (member_text jcs_string) fields) ++ [x7d])). lia.
Qed.

Lemma decode_jcs v fields maximum target required value :
  canonicalizable v = true -> canonical v = JObj fields -> clean 0 (tree_of (JObj fields)) = true ->
  len (jcs_text v) <= maximum -> assign target (tree_of (JObj fields)) = Ok value ->
  forallb (fun name => bool_decide (name ∈ fields.*1)) required = true -> required = [] \/ len fields = len required ->
  decodeStrictObject (jcs_text v) maximum target required =
    Some (MkDecoded fields.*1 value (map (fun f => (f.1, print jcs_string f.2)) fields)).
Proof.
  intros Hp Hc Hclean Hlen Ha Hreq Hsize. destruct (jcs_valid v Hp) as [Hu He].
  pose proof (jcs_reads v) as Hr. rewrite Hc in Hr.
  rewrite (decode_text (jcs_text v) fields maximum target required value); try done.
  2: split; [by eapply jcs_text_nonempty|done].
  unfold jcs_text. by rewrite Hc, object_raws_print by apply jcs_member_ok.
Qed.
End Decode.

(** ** A transformation that satisfies the laws *)

(** The value of a tree, without numbers and booleans. *)
Fixpoint json_of (v : jtree) : option json :=
  match v with
  | TreeNull => Some JNull
  | TreeString s => Some (JStr s)
  | TreeArray items =>
      l ← (fix go (l : list jtree) : option (list json) :=
             match l with [] => Some [] | v :: l => x ← json_of v; xs ← go l; Some (x :: xs) end) items;
      Some (JList l)
  | TreeObject members =>
      l ← (fix go (l : list (bytes * jtree)) : option (list (bytes * json)) :=
             match l with [] => Some [] | (k, v) :: l => x ← json_of v; xs ← go l; Some ((k, x) :: xs) end) members;
      Some (JObj l)
  | _ => None
  end.

Definition toy_jcs (body : bytes) : option bytes :=
  match Token (NewDecoder body) with
  | Tok t d =>
      '(v, d) ← readValue (body_fuel body) t d;
      match Token d with TokEOF => v ← json_of v; Some (jcs_text v) | _ => None end
  | _ => None
  end.

Lemma json_of_tree v : json_of (tree_of v) = Some v.
Proof.
  induction v as [|text|fields IH|items IH] using json_nested_ind; try done; cbn [tree_of json_of].
  - match goal with |- (?g _ ≫= _) = _ => assert (g (map (fun f => (f.1, tree_of f.2)) fields) = Some fields) as -> end; [|done].
    induction IH as [|[k v] fields Hf _ IHf]; [done|]. cbn [map fst snd]. cbn [snd] in Hf. rewrite Hf. cbn [mbind option_bind].
    by rewrite IHf.
  - match goal with |- (?g _ ≫= _) = _ => assert (g (map tree_of items) = Some items) as -> end; [|done].
    induction IH as [|v items Hf _ IHf]; [done|]. cbn [map]. rewrite Hf. cbn [mbind option_bind]. by rewrite IHf.
Qed.

Lemma toy_jcs_text body v : json_text body (tree_of v) -> toy_jcs body = Some (jcs_text v).
Proof.
  intros (t & d & d' & Ht & Hr & He)%json_text_reads. unfold toy_jcs. rewrite Ht, Hr. cbn. by rewrite He, json_of_tree.
Qed.

(** Sorting twice changes nothing. *)
Lemma bytes_lt_asym a b : bytes_lt a b = true -> bytes_lt b a = false.
Proof.
  revert b. induction a as [|x a IH]; intros [|y b] Hlt; try done. cbn in *.
  destruct (byte_to_Z x <? byte_to_Z y) eqn:E1; bool_props.
  - rewrite (proj2 (Z.ltb_ge _ _)) by lia. done.
  - destruct (byte_to_Z y <? byte_to_Z x) eqn:E2; [done|]. by apply IH.
Qed.

Inductive sorted_members : list (bytes * json) -> Prop :=
| sorted_nil : sorted_members []
| sorted_one m : sorted_members [m]
| sorted_more m m' l : bytes_lt m'.1 m.1 = false -> sorted_members (m' :: l) -> sorted_members (m :: m' :: l).

Lemma insert_sorted m l : sorted_members l -> sorted_members (insert_member m l).
Proof.
  induction 1 as [|m'|m' m'' l Hlt Hs IH]; [constructor| |]; cbn [insert_member].
  - destruct (bytes_lt m'.1 m.1) eqn:E; constructor; [|constructor|done|constructor]. by apply bytes_lt_asym.
  - destruct (bytes_lt m'.1 m.1) eqn:E; [|constructor; [done|by constructor]].
    cbn [insert_member] in IH. destruct (bytes_lt m''.1 m.1) eqn:E2; constructor; try done. by apply bytes_lt_asym.
Qed.

Lemma sort_sorted l : sorted_members (sort_members l).
Proof. induction l as [|m l IH]; [constructor|]. by apply insert_sorted. Qed.

Lemma sort_fixed l : sorted_members l -> sort_members l = l.
Proof. induction 1 as [|m|m m' l Hlt Hs IH]; [done..|]. cbn [sort_members foldr] in *. rewrite IH. cbn. by rewrite Hlt. Qed.

Lemma canonical_members l : Forall (fun f : bytes * json => canonical (canonical f.2) = canonical f.2) l ->
  map (fun f => (f.1, canonical f.2)) (sort_members (map (fun f => (f.1, canonical f.2)) l)) =
  sort_members (map (fun f => (f.1, canonical f.2)) l).
Proof.
  intros Hl. set (l' := map _ l). assert (Forall (fun f : bytes * json => canonical f.2 = f.2) (sort_members l')) as Hs.
  { eapply Permutation_Forall; [symmetry; apply sort_perm|]. unfold l'. induction Hl; constructor; done. }
  induction Hs as [|[k v] s Hf _ IH]; [done|]. cbn [map fst snd] in *. by rewrite Hf, IH.
Qed.

Lemma canonical_idem v : canonical (canonical v) = canonical v.
Proof.
  induction v as [|text|fields IH|items IH] using json_nested_ind; try done; cbn [canonical]; f_equal.
  - rewrite canonical_members by done. apply sort_fixed, sort_sorted.
  - rewrite map_map. induction IH as [|v items Hf _ IHf]; [done|]. cbn. by rewrite Hf, IHf.
Qed.

Lemma toy_jcs_laws (lib : Primitives) : (forall b, @jcs_Transform lib b = toy_jcs b) -> @JCSLaws lib.
Proof.
  intros Hlib. split; intros v Hp; rewrite Hlib.
  - apply toy_jcs_text. rewrite <- print_Marshal. apply print_text.
    eapply List.Forall_impl; [|apply (plain_strings v Hp)]. intros s Hs. by apply json_string_quotes, utf8_spec.
  - rewrite (toy_jcs_text _ (canonical v) (jcs_reads v)). unfold jcs_text. by rewrite canonical_idem.
Qed.
