(* ===== verification/TrustServer.v ===== *)
(** The control plane's trust bundles: [internal/trust].

    Payloads and metadata are validated, canonicalized and signed
    ([validate.go], [jcs.go], [signer.go], [metadata.go]), a signed bundle is
    sealed for one device ([envelope.go]), and the sealed bytes are served
    ([distribution.go]).  [crypto/hpke] ([HPKESender]) and [crypto/ed25519]
    ([Ed25519Keys]) are parameters.

    The package and the trust client check the same things with code of their
    own.  Where the text of a helper is the same in both ([parseProtocolTime],
    [canonicalUUID], [unsignedIntegerString], [validKeyID], [deriveKeyID],
    [validUnicodeEscapes], [decodeHexQuad], the domains and the wire structs), the
    definition of the client stands for both. *)
From Stdlib Require Import ZArith Lia Strings.Byte.
From stdpp Require Import base gmap list strings numbers option.
From S2P Require Import Prelude GoStd GoTime AuthorityTypes Programs GoCrypto Text Tokens GoJson StrictJson.
From S2P Require Import TrustStore TrustJson TrustVerify.

#[local] Open Scope go_scope.
#[local] Open Scope prog_scope.
#[local] Open Scope result_scope.

(** ** Parameters *)

(** [ed25519.NewKeyFromSeed], the public half of the key and [ed25519.Sign]. *)
Class Ed25519Keys := {
  ed25519_Public : bytes -> bytes;
  ed25519_Sign : bytes -> bytes -> bytes;
}.

(** [hpke.NewDHKEMPublicKey] of an X25519 key, [hpke.NewSender] with HKDF-SHA256
    and ChaCha20-Poly1305, which draws the ephemeral key from its entropy and
    returns the encapsulated key, and [Sender.Seal]. *)
Class HPKESender := {
  hpke_entropy : Type;
  hpke_PublicKey : bytes -> bool;
  hpke_NewSender : hpke_entropy -> bytes -> bytes -> option bytes;
  hpke_Seal : hpke_entropy -> bytes -> bytes -> bytes -> bytes -> option bytes;
}.

(** ** Errors, limits and values *)

Inductive trust_error :=
| TrustInvalidArgument | TrustInvalidJSON | TrustInvalidPayload | TrustInvalidSignature | TrustClosed
| TrustSignerTimeout | TrustSignerFailure | TrustInvalidMetadata | TrustMetadataRollback | TrustUnknownRoot
| TrustKeyUnavailable | TrustRepository
| TrustRecipientKey | TrustEnvelopeSeal | TrustEnvelopeTooLarge | TrustRandomSource.

Definition maximumCanonicalPayloadBytes : Z := 64 * 1024.
Definition maximumPaddingEncodedBytes : Z := 64 * 1024.
Definition maximumSigningKeys : Z := 64.
Definition maximumMetadataVersions : Z := 1024.
Definition maximumSignerMessageBytes : Z := maximumCanonicalPayloadBytes + 256.
Definition minimumSignerTimeout : Z := 500 * Millisecond.
Definition maximumSignerTimeout : Z := 5 * Second.
Definition SeedSize : Z := 32.

Record TestConfigV1 := MkTestConfig { tc_Message : bytes; tc_Sequence : bytes }.

Record PayloadV1 := MkPayloadV1 {
  pv_SchemaVersion : bytes; pv_BundleID : bytes; pv_BundleLocator : bytes; pv_BundleVersion : bytes;
  pv_Audience : bytes; pv_IssuedAt : bytes; pv_NotBefore : bytes; pv_ExpiresAt : bytes;
  pv_PolicySnapshot : bytes; pv_TestConfig : TestConfigV1 }.

(** The same fields as the structs of the client. *)
Definition SignedBundleV1 : Type := signedBundleWire.
Definition SigningKeyMetadataV1 : Type := signingKeyMetadataWire.
Definition RootMetadataV1 : Type := rootMetadataWire.

Record SignedRootMetadataV1 := MkSignedRoot { sr_PayloadJCS : bytes; sr_Signature : bytes }.

(** ** Checks on strings *)

Definition exactBase64URL (value : bytes) (size : Z) : bool :=
  match b64_DecodeString value with
  | Some decoded => (len decoded =? size) && (b64_EncodeToString decoded == value)
  | None => false
  end.

Definition validOptionalBase64URL (value : bytes) : bool :=
  if value == [] then true
  else match b64_DecodeString value with
       | Some decoded => b64_EncodeToString decoded == value
       | None => false
       end.

Definition positiveIntegerString (value : bytes) : bool :=
  if negb (unsignedIntegerString value) || (value == sbytes "0") then false
  else match ParseUint value 10 64 with
       | Some parsed => parsed <=? MaxInt64
       | None => false
       end.

(** ** JSON *)

(** The token loop of [validIJSON]; every token consumes a byte. *)
Fixpoint ijson_tokens (fuel : nat) (d : decoder) : bool :=
  match fuel with
  | O => false
  | S fuel =>
      match Token d with
      | TokEOF => true
      | TokError => false
      | Tok (TokNumber number) d => if float_finite number then ijson_tokens fuel d else false
      | Tok _ d => ijson_tokens fuel d
      end
  end.

Definition validIJSON (body : bytes) : bool :=
  utf8_Valid body && validUnicodeEscapes body && ijson_tokens (S (length body)) (NewDecoder body).

(** [json.Marshal] of a [json.RawMessage]: a JSON value without the spaces between
    its tokens and with the escapes of HTML. *)
Fixpoint compact (inString escaped : bool) (body : bytes) : bytes :=
  match body with
  | [] => []
  | c :: rest =>
      let kept := if (byte_to_Z c =? 0x3C) || (byte_to_Z c =? 0x3E) || (byte_to_Z c =? 0x26)
                  then sbytes "\u00" ++ hex_byte c else [c] in
      if negb inString then
        if is_space c then compact false false rest else kept ++ compact (c == x22) false rest
      else if escaped then kept ++ compact true false rest
      else if c == x5c then kept ++ compact true true rest
      else
        match rest with
        | c1 :: c2 :: rest' =>
            if (c == xe2) && (c1 == x80) && ((c2 == xa8) || (c2 == xa9))
            then sbytes "\u202" ++ [if c2 == xa8 then "8"%byte else "9"%byte] ++ compact true false rest'
            else kept ++ compact (c != x22) false rest
        | _ => kept ++ compact (c != x22) false rest
        end
  end.

Definition json_value (body : bytes) : bool :=
  match Token (NewDecoder body) with
  | Tok t d => match readValue (body_fuel body) t d with
               | Some (_, d) => match Token d with TokEOF => true | _ => false end
               | None => false
               end
  | _ => false
  end.

Definition marshalRaw (raw : bytes) : option bytes :=
  if json_value raw then Some (compact false false raw) else None.

Section Values.
Context `{Primitives} `{UUIDText} `{Unicode}.

(** [strictjson.Decode] of a body, with the texts of its raw members. *)
Definition strictDecode (body : bytes) (maximum : Z) (target : gotype) : option decoded :=
  match Decode (Some (MkReader body false)) maximum (Some target) with
  | Some (Ok value) => Some (MkDecoded [] value (object_raws body))
  | _ => None
  end.

Definition strictString (body : bytes) (maximum : Z) : option bytes :=
  match strictDecode body maximum GoString with
  | Some v => match dc_value v with VString s => Some s | _ => Some [] end
  | None => None
  end.

(** The members of an object with exactly the given names. *)
Definition exactJSONMembers (body : bytes) (maximum : Z) (required : list bytes) : option (list (bytes * bytes)) :=
  match strictDecode body maximum (GoMap GoRaw) with
  | Some v =>
      let members := match dc_value v with VMap members => members.*1 | _ => [] end in
      if negb (len members =? len required) || negb (forallb (fun name => bool_decide (name ∈ members)) required) then None
      else Some (dc_raws v)
  | None => None
  end.

(** ** Payloads *)

Definition validDevicePolicyV1 (policy : bytes) : bool :=
  if (len policy <? 2) || (maximumPolicyBytes <? len policy) then false
  else
    match strictDecode policy maximumPolicyBytes policy_target with
    | None => false
    | Some decoded =>
        let raw name := dc_raw (names ["mode"; "expires_at"; "max_devices"]) decoded (sbytes name) in
        let mode := dc_string decoded (sbytes "mode") in
        let expires := raw "expires_at"%string in
        let devices := raw "max_devices"%string in
        if mode == sbytes "standard" then (len expires =? 0) && (len devices =? 0)
        else if (mode != sbytes "trial_restricted") || (len expires =? 0) || (len devices =? 0) then false
        else
          match strictString expires (len expires), strictString devices (len devices) with
          | Some expiresAt, Some maxDevices => not_nil (parseProtocolTime expiresAt) && (maxDevices == sbytes "1")
          | _, _ => false
          end
    end.

Definition ValidatePayloadV1 (value : PayloadV1) : option trust_error :=
  match parseProtocolTime (pv_IssuedAt value), parseProtocolTime (pv_NotBefore value),
        parseProtocolTime (pv_ExpiresAt value) with
  | Some issuedAt, Some notBefore, Some expiresAt =>
      if (pv_SchemaVersion value != bundleSchema) || negb (canonicalUUID (pv_BundleID value)) ||
         negb (canonicalUUID (pv_Audience value)) || negb (exactBase64URL (pv_BundleLocator value) 32) ||
         negb (positiveIntegerString (pv_BundleVersion value)) || Before notBefore issuedAt ||
         negb (After expiresAt notBefore) || (maximumMessageBytes <? len (tc_Message (pv_TestConfig value))) ||
         negb (utf8_Valid (tc_Message (pv_TestConfig value))) ||
         negb (unsignedIntegerString (tc_Sequence (pv_TestConfig value))) ||
         negb (validDevicePolicyV1 (pv_PolicySnapshot value))
      then Some TrustInvalidPayload else None
  | _, _, _ => Some TrustInvalidPayload
  end.

(** The struct a decoded payload fills, and its target. *)
Definition payload_v1_target : gotype :=
  GoStruct [] (map (go_field GoString) payload_strings ++
    [go_field GoRaw (sbytes "policy_snapshot");
     go_field (string_target (names ["message"; "sequence"])) (sbytes "test_config")]).

Definition field_struct (v : goval) (name : bytes) : goval :=
  match v with
  | VStruct members => default VZero (assoc name members)
  | _ => VZero
  end.

Definition payload_v1_of (v : decoded) : PayloadV1 :=
  let str name := dc_string v (sbytes name) in
  let config := field_struct (dc_value v) (sbytes "test_config") in
  MkPayloadV1 (str "schema_version"%string) (str "bundle_id"%string) (str "bundle_locator"%string)
    (str "bundle_version"%string) (str "audience"%string) (str "issued_at"%string) (str "not_before"%string)
    (str "expires_at"%string) (dc_raw payload_fields v (sbytes "policy_snapshot"))
    (MkTestConfig (field_string config (sbytes "message")) (field_string config (sbytes "sequence"))).

Definition DecodePayloadV1 (body : bytes) : result trust_error PayloadV1 :=
  require (2 <=? len body) && (len body <=? maximumCanonicalPayloadBytes) && validIJSON body else TrustInvalidJSON in
  let? members := exactJSONMembers body maximumCanonicalPayloadBytes payload_fields else TrustInvalidJSON in
  require not_nil (exactJSONMembers (default [] (assoc (sbytes "test_config") members)) maximumCanonicalPayloadBytes
                     (names ["message"; "sequence"])) else TrustInvalidJSON in
  let? decoded := strictDecode body maximumCanonicalPayloadBytes payload_v1_target else TrustInvalidJSON in
  match ValidatePayloadV1 (payload_v1_of decoded) with
  | Some e => Err e
  | None => Ok (payload_v1_of decoded)
  end.

(** ** Signed bundles *)

Definition ValidateSignedBundleV1 (value : SignedBundleV1) : option trust_error :=
  if (len (sg_PayloadJCS value) <? 2) || (maximumCanonicalPayloadBytes <? len (sg_PayloadJCS value)) ||
     negb (exactBase64URL (sg_PayloadSHA256 value) 32) || negb (validKeyID (sg_SignerKeyID value)) ||
     (sg_Algorithm value != signatureAlgorithm) || negb (exactBase64URL (sg_Signature value) 64) ||
     (maximumPaddingEncodedBytes <? len (sg_Padding value)) || negb (validOptionalBase64URL (sg_Padding value))
  then Some TrustInvalidPayload else None.

Definition DecodeSignedBundleV1 (body : bytes) : result trust_error SignedBundleV1 :=
  require (2 <=? len body) && (len body <=? maximumCanonicalPayloadBytes) && validIJSON body else TrustInvalidJSON in
  require not_nil (exactJSONMembers body maximumCanonicalPayloadBytes signed_fields) else TrustInvalidJSON in
  let? decoded := strictDecode body maximumCanonicalPayloadBytes (string_target signed_fields) else TrustInvalidJSON in
  match ValidateSignedBundleV1 (signed_of decoded) with
  | Some e => Err e
  | None => Ok (signed_of decoded)
  end.

(** ** Canonical texts *)

(** The canonical text, and what the target was given. *)
Definition CanonicalizeJSON (body : bytes) (target : gotype) : result trust_error (bytes * decoded) :=
  require (1 <=? len body) && (len body <=? maximumCanonicalPayloadBytes) else TrustInvalidArgument in
  let? decoded := strictDecode body maximumCanonicalPayloadBytes target else TrustInvalidJSON in
  require validIJSON body else TrustInvalidJSON in
  let? canonical := jcs_Transform body else TrustInvalidJSON in
  require (1 <=? len canonical) && (len canonical <=? maximumCanonicalPayloadBytes) else TrustInvalidJSON in
  require not_nil (strictDecode canonical maximumCanonicalPayloadBytes target) else TrustInvalidJSON in
  Ok (canonical, decoded).

(** [json.Marshal(PayloadV1)]: the raw policy is compacted, and [null] when nil. *)
Definition marshalPayloadV1 (value : PayloadV1) : option bytes :=
  policy ← (if pv_PolicySnapshot value == [] then Some (sbytes "null") else marshalRaw (pv_PolicySnapshot value));
  let member name text := json_string name ++ [x3a] ++ text in
  Some ([x7b] ++ join_comma (
    zip_with (fun name s => member name (json_string s)) payload_strings
      [pv_SchemaVersion value; pv_BundleID value; pv_BundleLocator value; pv_BundleVersion value; pv_Audience value;
       pv_IssuedAt value; pv_NotBefore value; pv_ExpiresAt value] ++
    [member (sbytes "policy_snapshot") policy;
     member (sbytes "test_config")
       (json_Marshal (string_struct (names ["message"; "sequence"])
          [tc_Message (pv_TestConfig value); tc_Sequence (pv_TestConfig value)]))]) ++ [x7d]).

Definition CanonicalizePayloadV1 (value : PayloadV1) : result trust_error bytes :=
  match ValidatePayloadV1 value with
  | Some e => Err e
  | None =>
      let? body := marshalPayloadV1 value else TrustInvalidPayload in
      match CanonicalizeJSON body payload_v1_target with
      | Err _ => Err TrustInvalidPayload
      | Ok (canonical, decoded) =>
          if is_nil (ValidatePayloadV1 (payload_v1_of decoded)) then Ok canonical else Err TrustInvalidPayload
      end
  end.

(** ** Root metadata *)

(** One key, in the loop of [ValidateRootMetadataV1]. *)
Definition validRootKey (validFrom validUntil : time) (previous : bytes) (seen : list bytes)
    (key : SigningKeyMetadataV1) : bool :=
  match parseProtocolTime (sk_NotBefore key), parseProtocolTime (sk_NotAfter key), b64_DecodeString (sk_PublicKey key) with
  | Some keyNotBefore, Some keyNotAfter, Some publicKey =>
      negb (negb (validKeyID (sk_KeyID key)) || (sk_Algorithm key != signatureAlgorithm) ||
            negb (len publicKey =? PublicKeySize) || (b64_EncodeToString publicKey != sk_PublicKey key) ||
            (sk_KeyID key != deriveKeyID configKeyIDDomain publicKey) ||
            negb (bool_decide (sk_State key ∈ names ["future"; "active"; "retiring"; "revoked"])) ||
            negb (After keyNotAfter keyNotBefore) || Before keyNotBefore validFrom || After keyNotAfter validUntil ||
            bool_decide (sk_KeyID key ∈ seen) || (negb (bytes_lt previous (sk_KeyID key)) && (previous != [])))
  | _, _, _ => false
  end.

Fixpoint validRootKeys (validFrom validUntil : time) (previous : bytes) (seen : list bytes)
    (keys : list SigningKeyMetadataV1) : bool :=
  match keys with
  | [] => true
  | key :: keys =>
      if validRootKey validFrom validUntil previous seen key
      then validRootKeys validFrom validUntil (sk_KeyID key) (sk_KeyID key :: seen) keys else false
  end.

Definition ValidateRootMetadataV1 (value : RootMetadataV1) : option trust_error :=
  match parseProtocolTime (rm_ValidFrom value), parseProtocolTime (rm_ValidUntil value) with
  | Some validFrom, Some validUntil =>
      if (rm_SchemaVersion value != metadataSchema) || negb (positiveIntegerString (rm_Version value)) ||
         negb (validKeyID (rm_RootKeyID value)) || (rm_RootAlgorithm value != signatureAlgorithm) ||
         negb (After validUntil validFrom) || (len (rm_SigningKeys value) =? 0) ||
         (maximumSigningKeys <? len (rm_SigningKeys value)) then Some TrustInvalidMetadata
      else if validRootKeys validFrom validUntil [] [] (rm_SigningKeys value) then None else Some TrustInvalidMetadata
  | _, _ => Some TrustInvalidMetadata
  end.

(** [json.Marshal(RootMetadataV1)]. *)
Definition key_json (key : SigningKeyMetadataV1) : json :=
  string_struct key_fields
    [sk_KeyID key; sk_Algorithm key; sk_PublicKey key; sk_State key; sk_NotBefore key; sk_NotAfter key].

Definition metadata_json (value : RootMetadataV1) : json :=
  JObj (zip (take 6 metadata_fields)
          (map JStr [rm_SchemaVersion value; rm_Version value; rm_RootKeyID value; rm_RootAlgorithm value;
                     rm_ValidFrom value; rm_ValidUntil value]) ++
        [(sbytes "signing_keys", JList (map key_json (rm_SigningKeys value)))]).

Definition CanonicalizeRootMetadataV1 (value : RootMetadataV1) : result trust_error bytes :=
  match ValidateRootMetadataV1 value with
  | Some e => Err e
  | None =>
      match CanonicalizeJSON (json_Marshal (metadata_json value)) metadata_target with
      | Err _ => Err TrustInvalidMetadata
      | Ok (canonical, decoded) =>
          if is_nil (ValidateRootMetadataV1 (metadata_of decoded)) then Ok canonical else Err TrustInvalidMetadata
      end
  end.

(** ** Signatures *)

Section Verification.
Context `{Ed25519}.

(** [trustedRoots] maps key identifiers to public keys. *)
Definition verifyRootMetadataSignature (value : SignedRootMetadataV1) (trustedRoots : gmap bytes bytes)
  : result trust_error (RootMetadataV1 * Z) :=
  require negb ((len (sr_PayloadJCS value) <? 2) || (maximumCanonicalPayloadBytes <? len (sr_PayloadJCS value)) ||
                negb (exactBase64URL (sr_Signature value) SignatureSize)) else TrustInvalidMetadata in
  match CanonicalizeJSON (sr_PayloadJCS value) metadata_target with
  | Err _ => Err TrustInvalidMetadata
  | Ok (canonical, decoded) =>
      let payload := metadata_of decoded in
      require (canonical == sr_PayloadJCS value) && is_nil (ValidateRootMetadataV1 payload) else TrustInvalidMetadata in
      let? publicKey := trustedRoots !! rm_RootKeyID payload else TrustUnknownRoot in
      require (len publicKey =? PublicKeySize) && (deriveKeyID rootKeyIDDomain publicKey == rm_RootKeyID payload)
        else TrustUnknownRoot in
      let? signature := b64_DecodeString (sr_Signature value) else TrustInvalidSignature in
      require ed25519_Verify publicKey (metadataSignatureDomain ++ canonical) signature else TrustInvalidSignature in
      let? version := ParseUint (rm_Version payload) 10 64 else TrustInvalidMetadata in
      Ok (payload, version)
  end.

(** [parseProtocolTime] when its second result is dropped: the zero time for a
    text that is none. *)
Definition time_Zero : time := Time 0 true.
Definition protocolTime (value : bytes) : time := default time_Zero (parseProtocolTime value).

Definition VerifyRootMetadataV1 (value : SignedRootMetadataV1) (trustedRoots : gmap bytes bytes) (highestTrusted : Z)
    (now : time) : result trust_error RootMetadataV1 :=
  let? (payload, version) := verifyRootMetadataSignature value trustedRoots in
  require highestTrusted <? version else TrustMetadataRollback in
  require negb (IsZero now || negb (t_utc now) || Before now (protocolTime (rm_ValidFrom payload)) ||
                negb (Before now (protocolTime (rm_ValidUntil payload)))) else TrustInvalidMetadata in
  Ok payload.

(** The loop of [selectSigningKey]. *)
Fixpoint selectKey (keyID : bytes) (notBefore expiresAt : time) (allowRetiring : bool) (keys : list SigningKeyMetadataV1)
  : result trust_error bytes :=
  match keys with
  | [] => Err TrustKeyUnavailable
  | key :: keys =>
      if sk_KeyID key != keyID then selectKey keyID notBefore expiresAt allowRetiring keys
      else if (sk_State key != sbytes "active") && (negb allowRetiring || (sk_State key != sbytes "retiring"))
      then Err TrustKeyUnavailable
      else if Before notBefore (protocolTime (sk_NotBefore key)) || After expiresAt (protocolTime (sk_NotAfter key))
      then Err TrustKeyUnavailable
      else
        match b64_DecodeString (sk_PublicKey key) with
        | Some publicKey => if len publicKey =? PublicKeySize then Ok publicKey else Err TrustKeyUnavailable
        | None => Err TrustKeyUnavailable
        end
  end.

Definition selectSigningKey (payload : RootMetadataV1) (keyID : bytes) (notBefore expiresAt : time) (allowRetiring : bool)
  : result trust_error bytes :=
  if not_nil (ValidateRootMetadataV1 payload) || negb (validKeyID keyID) || IsZero notBefore || IsZero expiresAt ||
     negb (t_utc notBefore) || negb (t_utc expiresAt) || negb (After expiresAt notBefore)
  then Err TrustKeyUnavailable
  else selectKey keyID notBefore expiresAt allowRetiring (rm_SigningKeys payload).

Definition SelectSigningKeyForIssue payload keyID notBefore expiresAt :=
  selectSigningKey payload keyID notBefore expiresAt false.
Definition SelectSigningKeyForVerification payload keyID notBefore expiresAt :=
  selectSigningKey payload keyID notBefore expiresAt true.

(** Every failure is [ErrInvalidSignature]. *)
Definition VerifySignedBundleV1 (value : SignedBundleV1) (publicKey : bytes) : result trust_error PayloadV1 :=
  require is_nil (ValidateSignedBundleV1 value) && (len publicKey =? PublicKeySize) else TrustInvalidSignature in
  match DecodePayloadV1 (sg_PayloadJCS value) with
  | Err _ => Err TrustInvalidSignature
  | Ok payload =>
      match CanonicalizePayloadV1 payload with
      | Err _ => Err TrustInvalidSignature
      | Ok canonical =>
          require canonical == sg_PayloadJCS value else TrustInvalidSignature in
          require (sg_PayloadSHA256 value == b64_EncodeToString (sha256 canonical)) &&
                  (sg_SignerKeyID value == deriveKeyID configKeyIDDomain publicKey) else TrustInvalidSignature in
          let? signature := b64_DecodeString (sg_Signature value) else TrustInvalidSignature in
          require ed25519_Verify publicKey (bundleSignatureDomain ++ canonical) signature else TrustInvalidSignature in
          Ok payload
      end
  end.
End Verification.
End Values.
