(* ===== verification/TrustSigner.v ===== *)
(** Signing of trust bundles and metadata: [internal/trust/signer.go] and the
    signing half of [metadata.go].

    A [LocalConfigSigner] or [LocalRootSigner] holds a seed until it is closed.  A
    [TimeoutConfigSigner] gives every signer a deadline: one worker goroutine
    calls the provider, and a caller waits for it, for [done] or for its deadline,
    whichever is first.  The goroutines are the transition system [tick]: a caller
    that has given up, a worker that is stuck in the provider, and a close may be
    interleaved in any order.  [SignBundleV1], [SignRootMetadataV1] and
    [PublishMetadata] are programs over the calls they make. *)
From Stdlib Require Import ZArith Lia Strings.Byte.
From stdpp Require Import base gmap list strings numbers option.
From S2P Require Import Prelude GoStd GoTime AuthorityTypes Programs GoCrypto Text Tokens GoJson StrictJson.
From S2P Require Import TrustStore TrustJson TrustVerify TrustServer.

#[local] Open Scope go_scope.
#[local] Open Scope prog_scope.
#[local] Open Scope result_scope.

(** ** Local signers *)

Section LocalSigner.
Context `{Ed25519Keys}.

Record localSignerState := MkLocalSigner {
  ls_seed : bytes; ls_public : bytes; ls_keyID : bytes; ls_closed : bool }.

Definition newLocalSignerState (seed keyIDDomain : bytes) : result trust_error localSignerState :=
  if negb (len seed =? SeedSize) then Err TrustInvalidArgument
  else
    let publicKey := ed25519_Public seed in
    Ok (MkLocalSigner seed publicKey (deriveKeyID keyIDDomain publicKey) false).

Definition NewLocalConfigSigner (seed : bytes) := newLocalSignerState seed configKeyIDDomain.
Definition NewLocalRootSigner (seed : bytes) := newLocalSignerState seed rootKeyIDDomain.

(** A nil signer is [None]. *)
Definition localKeyID (state : option localSignerState) : bytes :=
  match state with
  | None => []
  | Some state => if ls_closed state then [] else ls_keyID state
  end.

Definition localPublicKey (state : option localSignerState) : bytes :=
  match state with
  | None => []
  | Some state => if ls_closed state then [] else ls_public state
  end.

(** [ctxNil] and the two answers of [ctx.Err() != nil]: before the lock is taken
    and under it. *)
Definition localSign (state : option localSignerState) (ctxNil cancelled cancelledLater : bool) (message : bytes)
  : result trust_error bytes :=
  match state with
  | None => Err TrustClosed
  | Some state =>
      if ctxNil || (len message =? 0) || (maximumSignerMessageBytes <? len message) || cancelled
      then Err TrustInvalidArgument
      else if ls_closed state then Err TrustClosed
      else if cancelledLater then Err TrustInvalidArgument
      else Ok (ed25519_Sign (ls_seed state) message)
  end.

(** The seed and the public key are erased. *)
Definition closeLocalSigner (state : option localSignerState) : option localSignerState :=
  match state with
  | None => None
  | Some state => if ls_closed state then Some state else Some (MkLocalSigner [] [] [] true)
  end.
End LocalSigner.

(** ** The bounded signer *)

(** What a caller of [Sign] is doing: it has not read [closed] yet, it offers its
    request to the worker, it waits for the result, or it has returned.  [expired]
    is its deadline (or its own cancellation). *)
Inductive caller_phase :=
| Entering
| Offering
| Waiting
| Returned (answer : result trust_error bytes).

Record caller := MkCaller { cl_message : bytes; cl_usable : bool; cl_expired : bool; cl_phase : caller_phase }.

(** The worker: at its [select], holding the request of a caller, inside the
    provider, offering the result, or gone. *)
Inductive worker_phase :=
| Idle
| Holding (i : nat)
| Signing (i : nat)
| Delivering (i : nat) (answer : result trust_error bytes)
| Stopped.

(** [closed] is stored before [done] is closed.  [ts_calls] is a history: what the
    provider was asked and what it answered. *)
Record timeoutSigner := MkTimeoutSigner {
  ts_keyID : bytes; ts_closed : bool; ts_done : bool; ts_worker : worker_phase;
  ts_callers : list caller; ts_calls : list (bytes * result trust_error bytes) }.

(** The construction; the worker starts at its [select]. *)
Definition NewTimeoutConfigSigner (keyID : option bytes) (timeout : Z) : result trust_error timeoutSigner :=
  match keyID with
  | None => Err TrustInvalidArgument
  | Some keyID =>
      if (timeout <? minimumSignerTimeout) || (maximumSignerTimeout <? timeout) || negb (validKeyID keyID)
      then Err TrustInvalidArgument
      else Ok (MkTimeoutSigner keyID false false Idle [] [])
  end.

(** [KeyID], which reads [closed] and then [done]. *)
Definition timeoutKeyID (atFirst later : timeoutSigner) : bytes :=
  if ts_closed atFirst then [] else if ts_done later then [] else ts_keyID later.

(** What the worker makes of the answer of the provider. *)
Definition providerResult (answer : result trust_error bytes) : result trust_error bytes :=
  match answer with
  | Ok signature => if len signature =? SignatureSize then Ok signature else Err TrustSignerFailure
  | Err _ => Err TrustSignerFailure
  end.

(** The steps.  [Call] is a new call of [Sign]; [usable] says that its context is
    not nil and was not cancelled yet. *)
Inductive action :=
| Call (message : bytes) (usable : bool)
| Enter (i : nat)
| Expire (i : nat)
| Offer (i : nat)
| GiveUp (i : nat)
| Leave (i : nat)
| Look
| Answer (answer : result trust_error bytes)
| Deliver
| Drop
| Stop
| CloseFlag
| CloseDone.

Definition with_caller (s : timeoutSigner) (i : nat) (c : caller) : timeoutSigner :=
  MkTimeoutSigner (ts_keyID s) (ts_closed s) (ts_done s) (ts_worker s) (<[i := c]> (ts_callers s)) (ts_calls s).
Definition with_worker (s : timeoutSigner) (w : worker_phase) : timeoutSigner :=
  MkTimeoutSigner (ts_keyID s) (ts_closed s) (ts_done s) w (ts_callers s) (ts_calls s).
Definition at_phase (c : caller) (p : caller_phase) : caller := MkCaller (cl_message c) (cl_usable c) (cl_expired c) p.

(** The guard of [Sign] behind the first look at [closed]. *)
Definition signable (c : caller) : bool :=
  cl_usable c && negb (len (cl_message c) =? 0) && negb (maximumSignerMessageBytes <? len (cl_message c)).

(** One step of one goroutine; [None] when it is not enabled. *)
Definition tick (a : action) (s : timeoutSigner) : option timeoutSigner :=
  match a with
  | Call message usable =>
      Some (MkTimeoutSigner (ts_keyID s) (ts_closed s) (ts_done s) (ts_worker s)
              (ts_callers s ++ [MkCaller message usable false Entering]) (ts_calls s))
  | Enter i =>
      c ← ts_callers s !! i;
      match cl_phase c with
      | Entering =>
          Some (with_caller s i (at_phase c (if ts_closed s then Returned (Err TrustClosed)
                                             else if signable c then Offering else Returned (Err TrustInvalidArgument))))
      | _ => None
      end
  | Expire i => c ← ts_callers s !! i; Some (with_caller s i (MkCaller (cl_message c) (cl_usable c) true (cl_phase c)))
  | Offer i =>
      c ← ts_callers s !! i;
      match cl_phase c, ts_worker s with
      | Offering, Idle => Some (with_worker (with_caller s i (at_phase c Waiting)) (Holding i))
      | _, _ => None
      end
  | GiveUp i =>
      c ← ts_callers s !! i;
      match cl_phase c with
      | Offering | Waiting =>
          if cl_expired c then Some (with_caller s i (at_phase c (Returned (Err TrustSignerTimeout)))) else None
      | _ => None
      end
  | Leave i =>
      c ← ts_callers s !! i;
      match cl_phase c with
      | Offering | Waiting =>
          if ts_done s then Some (with_caller s i (at_phase c (Returned (Err TrustClosed)))) else None
      | _ => None
      end
  | Look =>
      match ts_worker s with
      | Holding i => Some (with_worker s (if ts_closed s then Idle else Signing i))
      | _ => None
      end
  | Answer answer =>
      match ts_worker s with
      | Signing i =>
          c ← ts_callers s !! i;
          Some (MkTimeoutSigner (ts_keyID s) (ts_closed s) (ts_done s) (Delivering i (providerResult answer))
                  (ts_callers s) (ts_calls s ++ [(cl_message c, answer)]))
      | _ => None
      end
  | Deliver =>
      match ts_worker s with
      | Delivering i answer =>
          c ← ts_callers s !! i;
          match cl_phase c with
          | Waiting => Some (with_worker (with_caller s i (at_phase c (Returned answer))) Idle)
          | _ => None
          end
      | _ => None
      end
  | Drop =>
      match ts_worker s with
      | Delivering i _ =>
          c ← ts_callers s !! i;
          if cl_expired c || ts_done s then Some (with_worker s Idle) else None
      | _ => None
      end
  | Stop =>
      match ts_worker s with
      | Idle => if ts_done s then Some (with_worker s Stopped) else None
      | _ => None
      end
  | CloseFlag =>
      if ts_closed s then None
      else Some (MkTimeoutSigner (ts_keyID s) true (ts_done s) (ts_worker s) (ts_callers s) (ts_calls s))
  | CloseDone =>
      if ts_closed s && negb (ts_done s)
      then Some (MkTimeoutSigner (ts_keyID s) (ts_closed s) true (ts_worker s) (ts_callers s) (ts_calls s)) else None
  end.

(** A sequence of steps. *)
Fixpoint ticks (l : list action) (s : timeoutSigner) : option timeoutSigner :=
  match l with
  | [] => Some s
  | a :: l => s ← tick a s; ticks l s
  end.

(** ** Signing *)

(** The calls of a [TimeoutConfigSigner] with the context of the call. *)
Record SignerOps (E : Type -> Type) := MkSignerOps {
  op_KeyID : prog E bytes;
  op_Sign : bytes -> prog E (result trust_error bytes);
}.
Arguments op_KeyID {E}.
Arguments op_Sign {E}.

(** The calls of a signing program, and a signer that makes them. *)
Inductive signer_call : Type -> Type :=
| CtxErr : signer_call bool
| CallKeyID : signer_call bytes
| CallSign (message : bytes) : signer_call (result trust_error bytes).

Definition signer_ops : SignerOps signer_call := MkSignerOps _ (trigger CallKeyID) (fun message => trigger (CallSign message)).
Definition signer_ctx : prog signer_call bool := trigger CtxErr.

Section Sign.
Context `{Primitives} `{UUIDText} `{Unicode} {E : Type -> Type}.

(** [ctxErr] is [ctx.Err() != nil], [None] for a nil context; the signer is [None]
    when it is nil or not a [TimeoutConfigSigner]. *)
Definition SignBundleV1 (ctxErr : option (prog E bool)) (payload : PayloadV1) (signer : option (SignerOps E))
  : prog E (result trust_error SignedBundleV1) :=
  match ctxErr, signer with
  | Some ctxErr, Some signer =>
      let! cancelled := ctxErr in
      if cancelled then Ret (Err TrustInvalidArgument)
      else
        let! keyID := op_KeyID signer in
        if negb (validKeyID keyID) then Ret (Err TrustInvalidArgument)
        else
          match CanonicalizePayloadV1 payload with
          | Err e => Ret (Err e)
          | Ok canonical =>
              let! signed := op_Sign signer (bundleSignatureDomain ++ canonical) in
              match signed with
              | Err e => Ret (Err e)
              | Ok signature =>
                  if negb (len signature =? SignatureSize) then Ret (Err TrustInvalidSignature)
                  else
                    let! keyID := op_KeyID signer in
                    let value := MkSigned canonical (b64_EncodeToString (sha256 canonical)) keyID signatureAlgorithm
                                   (b64_EncodeToString signature) [] in
                    match ValidateSignedBundleV1 value with
                    | Some e => Ret (Err e)
                    | None => Ret (Ok value)
                    end
              end
          end
  | _, _ => Ret (Err TrustInvalidArgument)
  end.

Definition SignRootMetadataV1 (ctxErr : option (prog E bool)) (payload : RootMetadataV1) (signer : option (SignerOps E))
  : prog E (result trust_error SignedRootMetadataV1) :=
  match ctxErr, signer with
  | Some ctxErr, Some signer =>
      let! cancelled := ctxErr in
      if cancelled then Ret (Err TrustInvalidArgument)
      else
        let! keyID := op_KeyID signer in
        if (rm_RootKeyID payload != keyID) || (rm_RootAlgorithm payload != signatureAlgorithm)
        then Ret (Err TrustInvalidArgument)
        else
          match CanonicalizeRootMetadataV1 payload with
          | Err e => Ret (Err e)
          | Ok canonical =>
              let! signed := op_Sign signer (metadataSignatureDomain ++ canonical) in
              match signed with
              | Err e => Ret (Err e)
              | Ok signature =>
                  if negb (len signature =? SignatureSize) then Ret (Err TrustInvalidSignature)
                  else Ret (Ok (MkSignedRoot canonical (b64_EncodeToString signature)))
              end
          end
  | _, _ => Ret (Err TrustInvalidArgument)
  end.

(** ** Publication *)

(** The [MetadataRepository] interface; its errors are not told apart. *)
Record MetadataOps := MkMetadataOps {
  op_List : prog E (option (list SignedRootMetadataV1));
  op_Publish : SignedRootMetadataV1 -> prog E bool;
}.

Context `{Ed25519}.

(** The loop over the stored records: the highest of their versions, [None] when
    one of them does not verify. *)
Fixpoint highestVersion (trustedRoots : gmap bytes bytes) (records : list SignedRootMetadataV1) (highest : Z) : option Z :=
  match records with
  | [] => Some highest
  | record :: records =>
      match verifyRootMetadataSignature record trustedRoots with
      | Err _ => None
      | Ok (_, version) => highestVersion trustedRoots records (if highest <? version then version else highest)
      end
  end.

Definition PublishMetadata (ctxErr : option (prog E bool)) (repository : option MetadataOps)
    (trustedRoots : gmap bytes bytes) (value : SignedRootMetadataV1) (now : time) : prog E (option trust_error) :=
  match ctxErr, repository with
  | Some ctxErr, Some repository =>
      let! cancelled := ctxErr in
      if cancelled then Ret (Some TrustInvalidArgument)
      else
        let! records := op_List repository in
        match records with
        | None => Ret (Some TrustRepository)
        | Some records =>
            if maximumMetadataVersions <? len records then Ret (Some TrustRepository)
            else
              match highestVersion trustedRoots records 0 with
              | None => Ret (Some TrustRepository)
              | Some highest =>
                  match VerifyRootMetadataV1 value trustedRoots highest now with
                  | Err e => Ret (Some e)
                  | Ok _ =>
                      let! published := op_Publish repository value in
                      Ret (if published : bool then None else Some TrustRepository)
                  end
              end
        end
  | _, _ => Ret (Some TrustInvalidArgument)
  end.
End Sign.
Arguments MetadataOps : clear implicits.
