(* ===== verification/TrustSignerTheorems.v ===== *)
(** The bounded signer: what its callers get, and that nothing blocks them. *)
From Stdlib Require Import ZArith Lia Strings.Byte.
From stdpp Require Import base gmap list strings numbers option.
From S2P Require Import Prelude GoStd GoTime AuthorityTypes Programs GoCrypto Text Tokens GoJson StrictJson.
From S2P Require Import TrustStore TrustJson TrustVerify TrustServer TrustSigner.

#[local] Open Scope go_scope.

(** ** The invariant *)

(** The request of the caller has left it. *)
Definition handed (p : caller_phase) : bool :=
  match p with Waiting | Returned _ => true | _ => false end.

(** The worker has the request of [i] and has not asked the provider yet. *)
Definition unasked (w : worker_phase) (i : nat) : Prop := w = Holding i \/ w = Signing i.

(** A caller: past its guard its message is fit to be signed, and a signature it
    returned is one of the provider for this message. *)
Definition caller_ok (calls : list (bytes * result trust_error bytes)) (c : caller) : Prop :=
  match cl_phase c with
  | Entering => True
  | Returned (Ok signature) => len signature = SignatureSize /\ (cl_message c, Ok signature) ∈ calls
  | Returned (Err _) => True
  | _ => signable c = true
  end.

(** What the worker holds belongs to a caller whose message passed the guard. *)
Definition worker_ok (callers : list caller) (calls : list (bytes * result trust_error bytes)) (w : worker_phase) : Prop :=
  match w with
  | Holding i | Signing i => exists c, callers !! i = Some c /\ handed (cl_phase c) = true /\ signable c = true
  | Delivering i answer => exists c raw, callers !! i = Some c /\ handed (cl_phase c) = true /\
                            (cl_message c, raw) ∈ calls /\ answer = providerResult raw
  | _ => True
  end.

(** The calls of the provider, with the caller of each. *)
Definition call_of (callers : list caller) (w : worker_phase) (i : nat) (call : bytes * result trust_error bytes) : Prop :=
  exists c, callers !! i = Some c /\ handed (cl_phase c) = true /\ signable c = true /\ cl_message c = call.1 /\ ~ unasked w i.

Record signer_inv (s : timeoutSigner) : Prop := {
  si_done : ts_done s = true -> ts_closed s = true;
  si_callers : Forall (caller_ok (ts_calls s)) (ts_callers s);
  si_worker : worker_ok (ts_callers s) (ts_calls s) (ts_worker s);
  si_calls : exists asked, NoDup asked /\ Forall2 (call_of (ts_callers s) (ts_worker s)) asked (ts_calls s);
}.

(** ** Every step keeps it *)

Lemma caller_ok_more calls call c : caller_ok calls c -> caller_ok (calls ++ [call]) c.
Proof. unfold caller_ok. destruct (cl_phase c) as [| | |[]]; try done. intros [? ?]. split; [done|]. set_solver. Qed.

(** A caller changes and keeps its message; what is in flight stays in flight. *)
Lemma replace_caller callers i c c' w calls :
  callers !! i = Some c -> cl_message c' = cl_message c -> signable c' = signable c ->
  (handed (cl_phase c) = true -> handed (cl_phase c') = true) ->
  worker_ok callers calls w ->
  (exists asked, NoDup asked /\ Forall2 (call_of callers w) asked calls) ->
  worker_ok (<[i := c']> callers) calls w /\
  (exists asked, NoDup asked /\ Forall2 (call_of (<[i := c']> callers) w) asked calls).
Proof.
  intros Hi Hm Hs Hh Hw (asked & Hnd & Hall).
  assert (forall j d, callers !! j = Some d -> exists d', <[i := c']> callers !! j = Some d' /\ cl_message d' = cl_message d /\
            signable d' = signable d /\ (handed (cl_phase d) = true -> handed (cl_phase d') = true)) as Hj.
  { intros j d Hd. destruct (decide (j = i)) as [->|Hne].
    - exists c'. simplify_eq. rewrite list_lookup_insert_eq by (by eapply lookup_lt_Some). done.
    - exists d. by rewrite list_lookup_insert_ne. }
  split.
  - destruct w as [|j|j|j answer|]; try done; cbn in *.
    1-2: destruct Hw as (d & Hd & Hp & Hsg); destruct (Hj _ _ Hd) as (d' & ? & ? & Hs' & ?); exists d'; rewrite Hs'; auto.
    destruct Hw as (d & raw & Hd & Hp & Hin & Ha). destruct (Hj _ _ Hd) as (d' & ? & Hm' & ? & ?). exists d', raw.
    rewrite Hm'. auto.
  - exists asked. split; [done|]. eapply Forall2_impl; [|exact Hall]. intros j call (d & Hd & Hp & Hsg & Hmd & Hu).
    destruct (Hj _ _ Hd) as (d' & ? & Hm' & Hs' & ?). exists d'. rewrite Hm', Hs'. auto.
Qed.

(** The worker moves on. *)
Lemma move_worker callers calls w w' :
  (forall i, unasked w' i -> unasked w i) ->
  (exists asked, NoDup asked /\ Forall2 (call_of callers w) asked calls) ->
  exists asked, NoDup asked /\ Forall2 (call_of callers w') asked calls.
Proof.
  intros Hu (asked & Hnd & Hall). exists asked. split; [done|]. eapply Forall2_impl; [|exact Hall].
  intros i call (c & ? & ? & ? & ? & Hnu). exists c. split_and!; auto.
Qed.

Lemma not_asked callers calls w i :
  Forall2 (call_of callers w) i calls -> forall j c, callers !! j = Some c -> handed (cl_phase c) = false -> j ∉ i.
Proof.
  intros Hall j c Hj Hh Hin. apply list_elem_of_lookup in Hin as [k Hk].
  destruct (Forall2_lookup_l _ _ _ _ _ Hall Hk) as (call & _ & d & Hd & Hp & _). congruence.
Qed.

(** One caller moves to another phase. *)
Lemma phase_inv s i c c' :
  ts_callers s !! i = Some c -> cl_message c' = cl_message c -> cl_usable c' = cl_usable c ->
  (handed (cl_phase c) = true -> handed (cl_phase c') = true) -> caller_ok (ts_calls s) c' ->
  signer_inv s -> signer_inv (with_caller s i c').
Proof.
  intros Hi Hm Hu Hh Hok [Hd Hc Hw Hcalls].
  assert (signable c' = signable c) as Hs by (unfold signable; by rewrite Hm, Hu).
  destruct (replace_caller _ _ _ _ _ _ Hi Hm Hs Hh Hw Hcalls) as [Hw' Hcalls'].
  split; cbn; [done|by apply Forall_insert|done|done].
Qed.

(** The worker moves on, and what it holds was held. *)
Lemma worker_inv s w :
  worker_ok (ts_callers s) (ts_calls s) w -> (forall i, unasked w i -> unasked (ts_worker s) i) ->
  signer_inv s -> signer_inv (with_worker s w).
Proof. intros Hw Hu [Hd Hc _ Hcalls]. split; cbn; [done|done|done|by eapply move_worker]. Qed.

(** A request is handed to the idle worker. *)
Lemma offer_inv s i c :
  ts_callers s !! i = Some c -> cl_phase c = Offering -> ts_worker s = Idle ->
  signer_inv s -> signer_inv (with_worker (with_caller s i (at_phase c Waiting)) (Holding i)).
Proof.
  intros Hi Hp Hidle Hinv. pose proof (Forall_lookup_1 _ _ _ _ (si_callers s Hinv) Hi) as Hc.
  unfold caller_ok in Hc. rewrite Hp in Hc.
  pose proof (si_calls s Hinv) as (asked & Hnd & Hall).
  assert (i ∉ asked) as Hni by (eapply not_asked; [exact Hall|done|by rewrite Hp]).
  assert (signer_inv (with_caller s i (at_phase c Waiting))) as Hinv' by (by eapply phase_inv; [exact Hi|done..]).
  destruct Hinv' as [Hd Hcs _ _]. split; cbn in *; [done|done| |].
  - exists (at_phase c Waiting). split; [|done]. apply list_lookup_insert_eq. by eapply lookup_lt_Some.
  - exists asked. split; [done|]. rewrite Forall2_lookup in Hall |- *. intros k. specialize (Hall k).
    destruct (asked !! k) as [j|] eqn:Hk; inversion Hall as [? call Hcall E1 E2|]; subst; constructor.
    destruct Hcall as (d & Hd' & Hp' & Hs' & Hm' & _). exists d.
    assert (j <> i) by (intros ->; by apply Hni, list_elem_of_lookup; eexists).
    rewrite list_lookup_insert_ne by done. split_and!; try done. intros [|]; congruence.
Qed.

(** The provider answers. *)
Lemma answer_inv s i c raw :
  ts_callers s !! i = Some c -> ts_worker s = Signing i -> signer_inv s ->
  signer_inv (MkTimeoutSigner (ts_keyID s) (ts_closed s) (ts_done s) (Delivering i (providerResult raw))
                (ts_callers s) (ts_calls s ++ [(cl_message c, raw)])).
Proof.
  intros Hi Hsg [Hd Hcs Hw (asked & Hnd & Hall)]. rewrite Hsg in Hw, Hall. destruct Hw as (c' & Hi' & Hh & Hs). simplify_eq.
  split; cbn; [done| | |].
  - eapply List.Forall_impl; [|exact Hcs]. intros d. apply caller_ok_more.
  - exists c, raw. split_and!; [done|done|set_solver|done].
  - exists (asked ++ [i]). assert (i ∉ asked) as Hni.
    { intros [k Hk]%list_elem_of_lookup.
      destruct (Forall2_lookup_l _ _ _ _ _ Hall Hk) as (call & _ & d & _ & _ & _ & _ & Hu). apply Hu. by right. }
    split; [apply list.NoDup_app; split_and!; [done|set_solver|apply NoDup_singleton]|].
    apply Forall2_app; [|constructor; [|constructor]].
    + eapply Forall2_impl; [|exact Hall]. intros j call (d & ? & ? & ? & ? & _). exists d. split_and!; try done. by intros [|].
    + exists c. split_and!; try done. by intros [|].
Qed.

Lemma providerResult_ok raw signature :
  providerResult raw = Ok signature -> raw = Ok signature /\ len signature = SignatureSize.
Proof. destruct raw as [sg|]; cbn; [|done]. destruct (len sg =? SignatureSize) eqn:E; [|done]. intros [= ->]. bool_props. done. Qed.

(** A new call changes nothing for the others. *)
Lemma call_inv s c : cl_phase c = Entering -> signer_inv s ->
  signer_inv (MkTimeoutSigner (ts_keyID s) (ts_closed s) (ts_done s) (ts_worker s) (ts_callers s ++ [c]) (ts_calls s)).
Proof.
  intros Hp [Hd Hcs Hw (asked & Hnd & Hall)].
  assert (forall i d, ts_callers s !! i = Some d -> (ts_callers s ++ [c]) !! i = Some d) as Hl.
  { intros i d Hi. by rewrite lookup_app_l by (by eapply lookup_lt_Some). }
  split; cbn; [done| | |].
  - apply Forall_app. split; [done|]. constructor; [|constructor]. unfold caller_ok. by rewrite Hp.
  - destruct (ts_worker s); try done; cbn in *; [destruct Hw as (d & ? & ?).. | destruct Hw as (d & raw & ? & ?)]; eauto.
  - exists asked. split; [done|]. eapply Forall2_impl; [|exact Hall]. intros i call (d & Hi & ?). exists d. auto.
Qed.

(** The result of the provider reaches its caller. *)
Lemma deliver_inv s i c answer :
  ts_callers s !! i = Some c -> ts_worker s = Delivering i answer -> signer_inv s ->
  signer_inv (with_worker (with_caller s i (at_phase c (Returned answer))) Idle).
Proof.
  intros Hi Hw Hinv. apply worker_inv; [done|by intros j [|]|]. eapply phase_inv; [exact Hi|done..| |done].
  pose proof (si_worker s Hinv) as Hok. rewrite Hw in Hok. destruct Hok as (d & raw & Hd & _ & Hin & ->). simplify_eq.
  unfold caller_ok. cbn. destruct (providerResult raw) as [sg|] eqn:Er; [|done].
  apply providerResult_ok in Er as [-> ?]. done.
Qed.

(** The invariant: a step of any goroutine keeps it. *)
Lemma tick_inv a s s' : tick a s = Some s' -> signer_inv s -> signer_inv s'.
Proof.
  intros Ht Hinv. destruct a as [message usable|i|i|i|i|i| |raw| | | | |]; cbn in Ht.
  2-6: destruct (ts_callers s !! i) as [c|] eqn:Hi; [|done]; cbn in Ht;
       pose proof (Forall_lookup_1 _ _ _ _ (si_callers s Hinv) Hi) as Hc.
  7-10: destruct (ts_worker s) as [|i|i|i answer|] eqn:Hw; try done;
       pose proof (si_worker s Hinv) as Hok; rewrite Hw in Hok; cbn in Hok.
  - simplify_eq. by apply call_inv.
  - destruct (cl_phase c) eqn:Hp; simplify_eq. eapply phase_inv; [exact Hi|done|done|by rewrite Hp| |done].
    unfold caller_ok. cbn. destruct (ts_closed s); [done|]. by destruct (signable c) eqn:Hs.
  - simplify_eq. eapply phase_inv; [exact Hi|done..| |done]. exact Hc.
  - destruct (cl_phase c) eqn:Hp; try done. destruct (ts_worker s) eqn:Hw; simplify_eq. by apply offer_inv.
  - destruct (cl_phase c) eqn:Hp; try done; (destruct (cl_expired c); [|done]); simplify_eq;
      by eapply phase_inv; [exact Hi|done..].
  - destruct (cl_phase c) eqn:Hp; try done; (destruct (ts_done s); [|done]); simplify_eq;
      by eapply phase_inv; [exact Hi|done..].
  - simplify_eq. apply worker_inv; [by destruct (ts_closed s)| |done].
    rewrite Hw. destruct (ts_closed s); intros j [|]; simplify_eq; by left.
  - destruct Hok as (c & Hi & _). rewrite Hi in Ht. cbn in Ht. simplify_eq. by apply answer_inv.
  - destruct Hok as (c & raw & Hi & _). rewrite Hi in Ht. cbn in Ht. destruct (cl_phase c) eqn:Hp; simplify_eq.
    by apply deliver_inv.
  - destruct Hok as (c & raw & Hi & _). rewrite Hi in Ht. cbn in Ht. destruct (cl_expired c || ts_done s); simplify_eq.
    apply worker_inv; [done|by intros j [|]|done].
  - destruct (ts_worker s) eqn:Hw; try done. destruct (ts_done s); simplify_eq. apply worker_inv; [done|by intros j [|]|done].
  - destruct (ts_closed s) eqn:Hcl; simplify_eq. destruct Hinv as [Hd ? ? ?]. split; cbn; auto.
  - destruct (ts_closed s) eqn:Hcl; [|done]. destruct (ts_done s); [done|]. cbn in Ht. simplify_eq. destruct Hinv as [Hd ? ? ?]. split; cbn; auto.
Qed.

Lemma ticks_inv l s s' : ticks l s = Some s' -> signer_inv s -> signer_inv s'.
Proof.
  revert s. induction l as [|a l IH]; intros s Ht Hinv; cbn in Ht; [by simplify_eq|].
  destruct (tick a s) as [s1|] eqn:E; [|done]. eapply IH; [exact Ht|]. by eapply tick_inv.
Qed.

Lemma new_signer_inv keyID timeout s : NewTimeoutConfigSigner keyID timeout = Ok s -> signer_inv s.
Proof.
  unfold NewTimeoutConfigSigner. destruct keyID; [|done]. case_match; [done|]. intros [= <-].
  split; cbn; [done|constructor|done|]. exists []. split; constructor.
Qed.

(** C23 (signatures_are_answers): however the calls of [Sign], the worker, the
    deadlines and [Close] interleave, a signature that [Sign] returns is 64 bytes
    long and is what the provider answered when it was asked to sign exactly the
    message of this call; the provider is asked at most once per call, and only to
    sign messages that are neither empty nor over the limit. *)
Theorem signatures_are_answers keyID timeout s0 l s :
  NewTimeoutConfigSigner keyID timeout = Ok s0 -> ticks l s0 = Some s ->
  (forall i c signature, ts_callers s !! i = Some c -> cl_phase c = Returned (Ok signature) ->
     len signature = SignatureSize /\ (cl_message c, Ok signature) ∈ ts_calls s) /\
  exists asked, NoDup asked /\
    Forall2 (fun i call => exists c, ts_callers s !! i = Some c /\ cl_message c = call.1 /\
               1 <= len call.1 <= maximumSignerMessageBytes) asked (ts_calls s).
Proof.
  intros Hnew Hl. apply new_signer_inv in Hnew. pose proof (ticks_inv _ _ _ Hl Hnew) as [_ Hcs _ (asked & Hnd & Hall)]. split.
  - intros i c signature Hi Hp. pose proof (Forall_lookup_1 _ _ _ _ Hcs Hi) as Hc. unfold caller_ok in Hc. by rewrite Hp in Hc.
  - exists asked. split; [done|]. eapply Forall2_impl; [|exact Hall]. intros i call (c & Hi & _ & Hs & Hm & _).
    exists c. rewrite <- Hm. split_and!; try done; unfold signable in Hs; bool_props; pose proof (len_nonneg (cl_message c)); lia.
Qed.

(** ** Nothing blocks a caller *)

(** The steps of the caller [i] and of the worker. *)
Definition step_of (i : nat) (a : action) : bool :=
  match a with Enter j | GiveUp j | Leave j => (i =? j)%nat | _ => false end.
Definition step_of_worker (a : action) : bool :=
  match a with Look | Drop | Stop => true | _ => false end.

(** A caller past its guard returns at once. *)
Lemma caller_leaves s i c :
  ts_callers s !! i = Some c -> cl_phase c = Offering \/ cl_phase c = Waiting -> cl_expired c = true \/ ts_done s = true ->
  exists a s' c', step_of i a = true /\ tick a s = Some s' /\ ts_callers s' !! i = Some c' /\
    (exists answer, cl_phase c' = Returned answer) /\ ts_worker s' = ts_worker s.
Proof.
  intros Hi Hp [Hex|Hdone]; [exists (GiveUp i)|exists (Leave i)]; cbn; rewrite Hi, Nat.eqb_refl; cbn;
    destruct Hp as [-> | ->]; rewrite ?Hex, ?Hdone; eexists _, _;
    (split_and!; [done|done|apply list_lookup_insert_eq; by eapply lookup_lt_Some|by eexists|done]).
Qed.

Lemma caller_released s i c :
  ts_callers s !! i = Some c -> cl_expired c = true \/ ts_done s = true -> (ts_done s = true -> ts_closed s = true) ->
  exists own s' c', Forall (fun a => step_of i a = true) own /\ (length own <= 2)%nat /\ ticks own s = Some s' /\
    ts_callers s' !! i = Some c' /\ (exists answer, cl_phase c' = Returned answer) /\ ts_worker s' = ts_worker s.
Proof.
  intros Hi Hex Hdc. destruct (cl_phase c) as [| | |answer] eqn:Hp.
  - set (c1 := at_phase c (if ts_closed s then Returned (Err TrustClosed)
                           else if signable c then Offering else Returned (Err TrustInvalidArgument))).
    assert (tick (Enter i) s = Some (with_caller s i c1)) as Ht by (cbn; by rewrite Hi; cbn; rewrite Hp).
    assert (ts_callers (with_caller s i c1) !! i = Some c1) as Hi1
      by (apply list_lookup_insert_eq; by eapply lookup_lt_Some).
    assert (step_of i (Enter i) = true) as Hown by apply Nat.eqb_refl.
    destruct (ts_closed s || negb (signable c)) eqn:Hret.
    + exists [Enter i], (with_caller s i c1), c1. cbn [ticks]. rewrite Ht.
      split_and!; [by repeat constructor|cbn; lia|done|done| |done]. unfold c1. cbn.
      destruct (ts_closed s); [by eexists|]. destruct (signable c); [done|by eexists].
    + apply orb_false_elim in Hret as [Hopen Hsig]. apply negb_false_iff in Hsig.
      destruct (caller_leaves (with_caller s i c1) i c1 Hi1) as (a & s' & c' & Ha & Hs' & Hi' & Hr & Hw).
      { left. unfold c1. cbn. by rewrite Hopen, Hsig. }
      { exact Hex. }
      exists [Enter i; a], s', c'. cbn [ticks]. rewrite Ht. cbn [mbind option_bind]. rewrite Hs'.
      by split_and!; [repeat constructor|cbn; lia|..].
  - destruct (caller_leaves s i c Hi (or_introl Hp) Hex) as (a & s' & c' & Ha & Hs' & ? & ? & ?).
    exists [a], s', c'. cbn [ticks]. rewrite Hs'. by split_and!; [repeat constructor|cbn; lia|..].
  - destruct (caller_leaves s i c Hi (or_intror Hp) Hex) as (a & s' & c' & Ha & Hs' & ? & ? & ?).
    exists [a], s', c'. cbn [ticks]. rewrite Hs'. by split_and!; [repeat constructor|cbn; lia|..].
  - exists [], s, c. by split_and!; [constructor|cbn; lia|done|done|eexists|].
Qed.

(** Only the answer of the provider takes the worker out of its call. *)
Lemma tick_signing a s s' i : ts_worker s = Signing i -> (forall raw, a <> Answer raw) -> tick a s = Some s' -> ts_worker s' = Signing i.
Proof.
  intros Hw Hno Ht. destruct a; [..|by destruct (Hno answer)| | | | |]; cbn [tick] in Ht; rewrite ?Hw in Ht;
    simplify_option_eq; repeat (case_match; simplify_eq); done.
Qed.

Lemma stuck_signing l i : forall s s', ts_worker s = Signing i -> (forall raw, Answer raw ∉ l) -> ticks l s = Some s' -> ts_worker s' = Signing i.
Proof.
  induction l as [|a l IH]; intros s s' Hw Hno Ht; cbn [ticks] in Ht; [by simplify_eq|].
  destruct (tick a s) as [s1|] eqn:E; [|done]. cbn [mbind option_bind] in Ht. apply (IH s1); [|set_solver|done].
  eapply tick_signing; [done| |done]. intros raw ->. apply (Hno raw). by left.
Qed.

(** C24 (deadline_releases): a call of [Sign] whose deadline has passed, or whose
    signer was closed, returns by at most two steps of its own, whatever the
    worker is doing, and leaves the worker alone; and once the signer is closed
    the worker ends by at most two steps of its own, unless the provider is still
    inside its call: a provider that never answers keeps the worker for ever, and
    once it answers, whatever it says, the worker ends by two more steps. *)
Theorem deadline_releases keyID timeout s0 l s :
  NewTimeoutConfigSigner keyID timeout = Ok s0 -> ticks l s0 = Some s ->
  (forall i c, ts_callers s !! i = Some c -> cl_expired c = true \/ ts_done s = true ->
     exists own s' c', Forall (fun a => step_of i a = true) own /\ (length own <= 2)%nat /\ ticks own s = Some s' /\
       ts_callers s' !! i = Some c' /\ (exists answer, cl_phase c' = Returned answer) /\ ts_worker s' = ts_worker s) /\
  (ts_done s = true -> (forall i, ts_worker s <> Signing i) ->
     exists own s', Forall (fun a => step_of_worker a = true) own /\ (length own <= 2)%nat /\ ticks own s = Some s' /\
       ts_worker s' = Stopped) /\
  (forall i, ts_worker s = Signing i ->
     (forall l' s', (forall raw, Answer raw ∉ l') -> ticks l' s = Some s' -> ts_worker s' = Signing i) /\
     (ts_done s = true -> forall raw, exists own s', Forall (fun a => step_of_worker a = true) own /\ length own = 2%nat /\
        ticks (Answer raw :: own) s = Some s' /\ ts_worker s' = Stopped)).
Proof.
  intros Hnew Hl. apply new_signer_inv in Hnew. pose proof (ticks_inv _ _ _ Hl Hnew) as Hinv. split; [|split].
  - intros i c Hi Hex. apply (caller_released s i c Hi Hex). apply (si_done s Hinv).
  - intros Hdone Hns. pose proof (si_worker s Hinv) as Hw. pose proof (si_done s Hinv Hdone) as Hcl.
    destruct (ts_worker s) as [|i|i|i answer|] eqn:E; cbn in Hw.
    + exists [Stop]. eexists. cbn. rewrite E, Hdone. by split_and!; [repeat constructor|lia|..].
    + exists [Look; Stop]. eexists. cbn. rewrite E, Hcl. cbn. rewrite Hdone. by split_and!; [repeat constructor|lia|..].
    + by destruct (Hns i).
    + destruct Hw as (c & raw & Hi & _). exists [Drop; Stop]. eexists. cbn. rewrite E, Hi. cbn.
      rewrite Hdone, orb_true_r. cbn. rewrite Hdone. by split_and!; [repeat constructor|lia|..].
    + exists [], s. by split_and!; [constructor|cbn; lia|..].
  - intros i Hw. split; [intros l' s' Hno; by apply stuck_signing|]. intros Hdone raw.
    pose proof (si_worker s Hinv) as Hi. rewrite Hw in Hi. cbn in Hi. destruct Hi as (c & Hi & _).
    exists [Drop; Stop]. eexists. cbn. rewrite Hw, Hi. cbn. rewrite Hi. cbn.
    rewrite Hdone, orb_true_r. cbn. rewrite ?Hdone. by split_and!; [repeat constructor|..].
Qed.

(** ** Examples *)

Definition demo_signer : timeoutSigner := MkTimeoutSigner (sbytes "demo-signing-key") false false Idle [] [].
Definition demo_signature : bytes := repeat x07 64.

(** A call that is answered, while another waits for the worker. *)
Definition demo_answered : list action :=
  [Call (sbytes "message") true; Enter 0; Call (sbytes "other") true; Enter 1; Offer 0; Look; Answer (Ok demo_signature); Deliver].
(** A provider that never answers, and a deadline that passes. *)
Definition demo_stuck : list action := [Call (sbytes "message") true; Enter 0; Offer 0; Look; Expire 0].

Lemma signatures_are_answers_witness :
  exists s, ticks demo_answered demo_signer = Some s /\ (sbytes "message", Ok demo_signature) ∈ ts_calls s.
Proof.
  eexists. split; [reflexivity|].
  refine (proj2 (proj1 (signatures_are_answers (Some (sbytes "demo-signing-key")) Second demo_signer demo_answered _ eq_refl eq_refl)
            0%nat _ demo_signature eq_refl eq_refl)).
Defined.

Lemma deadline_releases_witness :
  exists s, ticks demo_stuck demo_signer = Some s /\ ts_worker s = Signing 0 /\
    exists own s', (length own <= 2)%nat /\ ticks own s = Some s' /\ ts_worker s' = Signing 0.
Proof.
  eexists. split; [reflexivity|]. split; [reflexivity|].
  destruct (proj1 (deadline_releases (Some (sbytes "demo-signing-key")) Second demo_signer demo_stuck _ eq_refl eq_refl)
            0%nat _ eq_refl (or_introl eq_refl)) as (own & s' & c' & _ & Hlen & Ht & _ & _ & Hw).
  exists own, s'. split; [exact Hlen|]. split; [exact Ht|]. rewrite Hw. reflexivity.
Defined.
