(* ===== verification/TrustSeal.v ===== *)
(** Sealing and distribution of trust bundles: [internal/trust/envelope.go] and
    [distribution.go]. *)
From Stdlib Require Import ZArith Lia Strings.Byte.
From stdpp Require Import base gmap list strings numbers option.
From S2P Require Import Prelude GoStd GoTime AuthorityTypes Programs GoCrypto Text Tokens GoJson StrictJson.
From S2P Require Import TrustStore TrustJson TrustVerify TrustServer.

#[local] Open Scope go_scope.
#[local] Open Scope prog_scope.
#[local] Open Scope result_scope.

(** ** The envelope *)

Definition maximumEnvelopePlaintext : Z := 64 * 2 ^ 10.
Definition plaintextLengthBytes : Z := 4.

(** [plaintextBuckets] of this package, in the same order as the client's. *)
Definition plaintextBuckets : list Z := [4096; 8192; 16384; 32768; 65536].

Definition selectPlaintextBucket (length : Z) : Z :=
  default 0 (head (List.filter (fun bucket => length <=? bucket) plaintextBuckets)).

(** [io.ReadFull(random, buffer)] of a source that gives [random] before it fails. *)
Definition readPadding (random : bytes) (n : Z) : option bytes :=
  if n <=? len random then Some (take (Z.to_nat n) random) else None.

Definition signed_json (signed : SignedBundleV1) : json :=
  string_struct signed_fields
    [sg_PayloadJCS signed; sg_PayloadSHA256 signed; sg_SignerKeyID signed; sg_Algorithm signed;
     sg_Signature signed; sg_Padding signed].

Definition envelope_json (envelope : outerEnvelopeWire) : json :=
  string_struct envelope_fields
    [ev_EnvelopeVersion envelope; ev_KEM envelope; ev_KDF envelope; ev_AEAD envelope;
     ev_RecipientKeyID envelope; ev_BundleLocator envelope; ev_Enc envelope; ev_Ciphertext envelope].

Section Seal.
Context `{Primitives} `{HPKESender}.

Definition canonicalTrustedJSON (value : json) : option bytes := jcs_Transform (json_Marshal value).

(** The plaintext of [Seal]: length, signed bundle and random padding up to the
    bucket. *)
Definition sealPlaintext (random : bytes) (signed : SignedBundleV1) : result trust_error bytes :=
  let signedBody := json_Marshal (signed_json signed) in
  require len signedBody <=? maximumEnvelopePlaintext else TrustEnvelopeTooLarge in
  let? signedJCS := jcs_Transform signedBody else TrustEnvelopeTooLarge in
  require negb ((len signedJCS <? 2) || (maximumEnvelopePlaintext <? len signedJCS) ||
                (maximumEnvelopePlaintext <? len signedJCS + plaintextLengthBytes)) else TrustEnvelopeTooLarge in
  let bucket := selectPlaintextBucket (len signedJCS + plaintextLengthBytes) in
  require negb (bucket =? 0) else TrustEnvelopeTooLarge in
  let? padding := readPadding random (bucket - plaintextLengthBytes - len signedJCS) else TrustRandomSource in
  Ok (be_bytes 4 (len signedJCS) ++ signedJCS ++ padding).

(** The envelope before its ciphertext; [recipient] and [locator] are 32 bytes. *)
Definition sealHeader (recipient locator enc ciphertext : bytes) : outerEnvelopeWire :=
  MkEnvelope envelopeVersion kemName kdfName aeadName (recipientSelector recipient locator)
    (b64_EncodeToString locator) (b64_EncodeToString enc) ciphertext.

(** [Seal]; a nil source is [None], [entropy] is what [hpke.NewSender] draws. *)
Definition Seal (random : option bytes) (entropy : hpke_entropy) (recipient locator : bytes) (signed : SignedBundleV1)
  : result trust_error (bytes * bytes) :=
  let? random := random else TrustInvalidArgument in
  require sg_Padding signed == [] else TrustInvalidArgument in
  match ValidateSignedBundleV1 signed with
  | Some e => Err e
  | None =>
      let? plaintext := sealPlaintext random signed in
      require hpke_PublicKey recipient else TrustRecipientKey in
      let? enc := hpke_NewSender entropy recipient hpkeInfo else TrustEnvelopeSeal in
      let? aad := canonicalTrustedJSON (envelope_header (sealHeader recipient locator enc [])) else TrustEnvelopeSeal in
      let? ciphertext := hpke_Seal entropy recipient hpkeInfo aad plaintext else TrustEnvelopeSeal in
      let? result := canonicalTrustedJSON (envelope_json (sealHeader recipient locator enc (b64_EncodeToString ciphertext)))
        else TrustEnvelopeSeal in
      require len result <=? maximumEnvelopeBytes else TrustEnvelopeTooLarge in
      Ok (result, sha256 result)
  end.
End Seal.

(** ** Distribution *)

Definition ImmutableContentType : bytes := sbytes "application/vnd.talenro.bundle+json".
Definition ImmutableCacheControl : bytes := sbytes "public, max-age=86400, immutable".
Definition locatorDigestDomain : bytes := sbytes "TALENRO-BUNDLE-LOCATOR-V1" ++ [x00].

Record ImmutableBundle := MkImmutable { ib_Envelope : bytes; ib_EnvelopeSHA256 : bytes }.

(** What [GetImmutableBundle] answers: a bundle, [ErrBundleNotFound], or another
    error (a panic is one). *)
Inductive lookup_result := LookupFound (bundle : ImmutableBundle) | LookupNotFound | LookupFailed.

Definition zero_digest : bytes := repeat x00 32.

Definition LocatorDigest (locator : bytes) : bytes :=
  if negb (len locator =? 32) then zero_digest else sha256 (locatorDigestDomain ++ locator).

Definition distributionLocator (path : bytes) : option bytes :=
  if negb (has_prefix (sbytes "/b/") path) then None
  else
    let locator := trim_prefix (sbytes "/b/") path in
    if (locator != []) && negb (bool_decide ("/"%byte ∈ locator)) then Some locator else None.

Definition StatusOK : Z := 200.
Definition StatusNotFound : Z := 404.
Definition StatusRequestedRangeNotSatisfiable : Z := 416.
Definition StatusServiceUnavailable : Z := 503.

(** What the handler writes: the status, the headers it sets and the body. *)
Record response := MkResponse { rs_status : Z; rs_headers : list (bytes * bytes); rs_body : bytes }.

Definition body_free (status : Z) : response := MkResponse status [] [].

Definition bundle_response (bundle : ImmutableBundle) : response :=
  MkResponse StatusOK
    [(sbytes "Content-Type", ImmutableContentType); (sbytes "Cache-Control", ImmutableCacheControl);
     (sbytes "ETag", [x22] ++ hex_encode (ib_EnvelopeSHA256 bundle) ++ [x22]);
     (sbytes "X-Content-Type-Options", sbytes "nosniff")]
    (ib_Envelope bundle).

Section Distribution.
Context {E : Type -> Type}.

(** The byte store and the clock. *)
Record DistributionOps := MkDistributionOps {
  op_GetImmutableBundle : bytes -> time -> prog E lookup_result;
  op_Now : prog E time;
}.

(** [range] is the [Range] header, empty when there is none. *)
Definition ServeHTTP (distribution : option DistributionOps) (range path : bytes) : prog E response :=
  match distribution with
  | None => Ret (body_free StatusServiceUnavailable)
  | Some distribution =>
      if range != [] then Ret (body_free StatusRequestedRangeNotSatisfiable)
      else
        match distributionLocator path with
        | None => Ret (body_free StatusNotFound)
        | Some locatorValue =>
            match decodeExactBase64URL locatorValue 32 with
            | None => Ret (body_free StatusNotFound)
            | Some locator =>
                let digest := LocatorDigest locator in
                if digest == zero_digest then Ret (body_free StatusNotFound)
                else
                  let! now := op_Now distribution in
                  if IsZero now then Ret (body_free StatusServiceUnavailable)
                  else
                    let! found := op_GetImmutableBundle distribution digest (UTC now) in
                    match found with
                    | LookupNotFound => Ret (body_free StatusNotFound)
                    | LookupFailed => Ret (body_free StatusServiceUnavailable)
                    | LookupFound bundle =>
                        if (len (ib_Envelope bundle) <? 2) || (maximumEnvelopeBytes <? len (ib_Envelope bundle)) ||
                           (ib_EnvelopeSHA256 bundle == zero_digest) || (sha256 (ib_Envelope bundle) != ib_EnvelopeSHA256 bundle)
                        then Ret (body_free StatusServiceUnavailable)
                        else Ret (bundle_response bundle)
                    end
            end
        end
  end.
End Distribution.
Arguments DistributionOps : clear implicits.
