(* ===== verification/TrustServerFacts.v ===== *)
(** What the control plane validates, signs and seals, as JSON values.

    Everything that passes the checks of [ValidatePayloadV1],
    [ValidateRootMetadataV1] and [ValidateSignedBundleV1] can be canonicalized, and
    the trust client decodes the canonical text to the same fields. *)
From Stdlib Require Import ZArith Lia Strings.Byte.
From stdpp Require Import base gmap list strings numbers option.
From S2P Require Import Prelude GoStd GoTime AuthorityTypes Programs GoCrypto Text Tokens GoJson StrictJson.
From S2P Require Import StrictJsonTheorems Descriptors TrustStore TrustJson TrustJsonTheorems TrustVerify TrustVerifyFacts TrustJcs.
From S2P Require Import TrustServer TrustSigner TrustSeal.

#[local] Open Scope go_scope.

(** ** Checked strings are valid UTF-8 *)

Lemma ascii_text_utf8 l : ascii l = true -> utf8_Valid l = true.
Proof. intros Ha. by apply utf8_spec, utf8_ascii. Qed.

Lemma plain_utf8 l : plain_text l -> utf8_Valid l = true.
Proof.
  intros Hl. apply ascii_text_utf8. unfold ascii. apply forallb_forall. intros c Hc.
  rewrite List.Forall_forall in Hl. specialize (Hl c Hc). destruct c; try discriminate Hl; reflexivity.
Qed.

Lemma b64_utf8 l : utf8_Valid (b64_EncodeToString l) = true.
Proof. apply plain_utf8, b64_plain. Qed.

Lemma protocol_time_utf8 value t : parseProtocolTime value = Some t -> utf8_Valid value = true.
Proof.
  unfold parseProtocolTime. intros Hp. case_top Hp; [done|]. case_top Hp; [|done]. case_top Hp; [|done]. bool_props.
  match goal with He : FormatRFC3339 _ = value |- _ => rewrite <- He end. apply plain_utf8, time_plain.
Qed.

Lemma exact_utf8 value size : exactBase64URL value size = true -> utf8_Valid value = true.
Proof.
  unfold exactBase64URL. case_match; [|done]. intros He. bool_props.
  match goal with Hv : b64_EncodeToString _ = value |- _ => rewrite <- Hv end. apply b64_utf8.
Qed.

Lemma exact_decodes value size : exactBase64URL value size = true -> exists d, decodeExactBase64URL value size = Some d.
Proof. unfold exactBase64URL, decodeExactBase64URL. case_match; [|done]. intros ->. by eexists. Qed.

Lemma decodes_b64 d : decodeExactBase64URL (b64_EncodeToString d) (len d) = Some d.
Proof. unfold decodeExactBase64URL. by rewrite b64_roundtrip, Z.eqb_refl, bool_decide_eq_true_2. Qed.

Lemma unsigned_utf8 value : unsignedIntegerString value = true -> utf8_Valid value = true.
Proof.
  unfold unsignedIntegerString. case_match; [done|]. intros [Hd _]%andb_prop. apply ascii_text_utf8. unfold ascii.
  rewrite forallb_forall in Hd |- *. intros c Hc. specialize (Hd c Hc). destruct c; try discriminate Hd; reflexivity.
Qed.

Lemma positive_spec value : positiveIntegerString value = true -> exists n, parsePositiveUint value = Some n.
Proof.
  unfold positiveIntegerString, parsePositiveUint. case_match; [done|]. case_match; [|done]. intros ->. by eexists.
Qed.

Lemma positive_utf8 value : positiveIntegerString value = true -> utf8_Valid value = true.
Proof.
  unfold positiveIntegerString. case_match eqn:E; [done|]. intros _. bool_props. by apply unsigned_utf8.
Qed.

Lemma keyID_utf8 value : validKeyID value = true -> utf8_Valid value = true.
Proof.
  unfold validKeyID. intros Hv. apply andb_prop in Hv as [_ Hv]. apply ascii_text_utf8. unfold ascii.
  rewrite forallb_forall in Hv |- *. intros c Hc. specialize (Hv c Hc). destruct c; try discriminate Hv; reflexivity.
Qed.

Lemma uuid_utf8 `{UUIDTextLaws} value : canonicalUUID value = true -> utf8_Valid value = true.
Proof.
  unfold canonicalUUID. destruct (uuid_Parse value) as [u|] eqn:Eu; [|done]. intros Hv. bool_props.
  match goal with He : uuid_String u = value |- _ => rewrite <- He end. apply ascii_text_utf8. unfold ascii. apply forallb_forall.
  intros c Hc. pose proof (uuid_String_chars u (uuid_Parse_length _ _ Eu)) as Hall. rewrite List.Forall_forall in Hall.
  specialize (Hall c Hc). destruct c; try discriminate Hall; reflexivity.
Qed.

Create HintDb text_db discriminated.
#[export] Hint Resolve b64_utf8 protocol_time_utf8 exact_utf8 unsigned_utf8 positive_utf8 keyID_utf8 uuid_utf8 : text_db.

(** The members of a struct one by one. *)
Ltac canonicalize :=
  rewrite ?andb_true_iff; split_and!;
  match goal with
  | |- utf8_Valid _ = true => first [assumption | solve [eauto 2 with text_db] | vm_compute; reflexivity]
  | |- _ => first [assumption | vm_compute; reflexivity]
  end.

(** ** Decoding of canonical texts *)

(** The conditions of [decode_jcs] on a struct whose field names are known. *)
Ltac decode_struct :=
  match goal with
  | |- exists d, decodeStrictObject (jcs_text ?v) ?max ?target ?required = Some d /\ _ =>
      eexists; split; [eapply decode_jcs; [ | | | done | | | ];
        [ | cbv; reflexivity | vm_compute; reflexivity | vm_compute; reflexivity | vm_compute; reflexivity | right; reflexivity]| ]
  end.

Section Decode.
Context `{Unicode}.

Lemma signed_decodes signed :
  canonicalizable (signed_json signed) = true -> len (jcs_text (signed_json signed)) <= maximumPlaintextBytes ->
  exists d, decodeStrictObject (jcs_text (signed_json signed)) maximumPlaintextBytes (string_target signed_fields) signed_fields
              = Some d /\ signed_of d = signed.
Proof.
  intros Hp Hl. decode_struct; [done|]. by destruct signed.
Qed.

Lemma envelope_decodes envelope :
  canonicalizable (envelope_json envelope) = true -> len (jcs_text (envelope_json envelope)) <= maximumEnvelopeBytes ->
  exists d, decodeStrictObject (jcs_text (envelope_json envelope)) maximumEnvelopeBytes (string_target envelope_fields) envelope_fields
              = Some d /\ envelope_of d = envelope.
Proof. intros Hp Hl. decode_struct; [done|]. by destruct envelope. Qed.

(** The configuration inside a payload. *)
Definition config_json (config : TestConfigV1) : json :=
  string_struct (names ["message"; "sequence"]) [tc_Message config; tc_Sequence config].

Lemma config_decodes config :
  canonicalizable (config_json config) = true -> len (jcs_text (config_json config)) <= maximumPlaintextBytes ->
  exists d, decodeStrictObject (jcs_text (config_json config)) maximumPlaintextBytes
              (string_target (names ["message"; "sequence"])) (names ["message"; "sequence"]) = Some d /\
    dc_string d (sbytes "message") = tc_Message config /\ dc_string d (sbytes "sequence") = tc_Sequence config.
Proof. intros Hp Hl. decode_struct; [done|]. by destruct config. Qed.

(** A device policy: [None] for the standard one, the expiry of a trial. *)
Definition device_policy (trial : option bytes) : json :=
  match trial with
  | None => JObj [(sbytes "mode", JStr (sbytes "standard"))]
  | Some expiresAt =>
      JObj [(sbytes "expires_at", JStr expiresAt); (sbytes "max_devices", JStr (sbytes "1"));
            (sbytes "mode", JStr (sbytes "trial_restricted"))]
  end.

(** The payload as a JSON value. *)
Definition payload_json (value : PayloadV1) (policy : json) : json :=
  JObj (zip payload_strings
          (map JStr [pv_SchemaVersion value; pv_BundleID value; pv_BundleLocator value; pv_BundleVersion value;
                     pv_Audience value; pv_IssuedAt value; pv_NotBefore value; pv_ExpiresAt value]) ++
        [(sbytes "policy_snapshot", policy); (sbytes "test_config", config_json (pv_TestConfig value))]).

Lemma marshalPayload_json value policy :
  pv_PolicySnapshot value <> [] -> marshalRaw (pv_PolicySnapshot value) = Some (json_Marshal policy) ->
  marshalPayloadV1 value = Some (json_Marshal (payload_json value policy)).
Proof.
  intros Hne Hr. unfold marshalPayloadV1. rewrite bool_decide_eq_false_2 by done. rewrite Hr. reflexivity.
Qed.

(** The payload the client is given. *)
Definition wire_payload (value : PayloadV1) (policy : json) : payloadWire :=
  MkPayload (pv_SchemaVersion value) (pv_BundleID value) (pv_BundleLocator value) (pv_BundleVersion value)
    (pv_Audience value) (pv_IssuedAt value) (pv_NotBefore value) (pv_ExpiresAt value)
    (jcs_text policy) (jcs_text (config_json (pv_TestConfig value))).

(** Its members in the order of their names. *)
Definition payload_members (value : PayloadV1) (policy : json) : list (bytes * json) :=
  [(sbytes "audience", JStr (pv_Audience value)); (sbytes "bundle_id", JStr (pv_BundleID value));
   (sbytes "bundle_locator", JStr (pv_BundleLocator value)); (sbytes "bundle_version", JStr (pv_BundleVersion value));
   (sbytes "expires_at", JStr (pv_ExpiresAt value)); (sbytes "issued_at", JStr (pv_IssuedAt value));
   (sbytes "not_before", JStr (pv_NotBefore value)); (sbytes "policy_snapshot", policy);
   (sbytes "schema_version", JStr (pv_SchemaVersion value)); (sbytes "test_config", config_json (pv_TestConfig value))].

Lemma payload_decodes value policy trial :
  canonical policy = device_policy trial ->
  canonicalizable (payload_json value policy) = true -> len (jcs_text (payload_json value policy)) <= maximumPlaintextBytes ->
  exists d, decodeStrictObject (jcs_text (payload_json value policy)) maximumPlaintextBytes payload_target payload_fields = Some d /\
    payload_of d = wire_payload value policy.
Proof.
  intros Hc Hp Hl.
  assert (canonical (payload_json value policy) = JObj (payload_members value (device_policy trial))) as Hcan
    by (rewrite <- Hc; reflexivity).
  unfold wire_payload. change (jcs_text policy) with (print jcs_string (canonical policy)). rewrite Hc.
  destruct trial; eexists; (split; [eapply decode_jcs; [done|exact Hcan|done|done|vm_compute; reflexivity|vm_compute; reflexivity|by right]|done]).
Qed.
(** ** Policies *)

(** A trial ends within a day of its bundle's issue, and has not ended. *)
Definition trial_in_force (trial : option bytes) (issuedAt expiresAt now : time) : Prop :=
  match trial with
  | None => True
  | Some text => exists ends, parseProtocolTime text = Some ends /\
      t_nanos issuedAt < t_nanos ends <= t_nanos issuedAt + 24 * Hour /\ upto ends expiresAt /\ t_nanos now < t_nanos ends
  end.

Lemma jcs_string_len s : len (jcs_string s) <= 6 * len s + 2.
Proof.
  unfold jcs_string. rewrite !len_app. change (len [x22]) with 1.
  assert (len (flat_map jcs_escape s) <= 6 * len s); [|lia].
  induction s as [|b s IH]; [done|]. cbn [flat_map]. rewrite len_app.
  assert (len (jcs_escape b) <= 6) by (destruct b; vm_compute; discriminate).
  unfold len in *. cbn [length]. lia.
Qed.

Lemma decode_string s maximum :
  utf8_Valid s = true -> len (jcs_string s) <= maximum -> decodeStrictValue (jcs_string s) maximum = Some s.
Proof.
  intros Hs Hl. destruct (jcs_valid (JStr s) Hs) as [Hu He]. change (jcs_text (JStr s)) with (jcs_string s) in *.
  pose proof (jcs_reads (JStr s)) as Hr. change (jcs_text (JStr s)) with (jcs_string s) in Hr.
  unfold decodeStrictValue. rewrite (scan_text _ maximum (TreeString s)); try done.
  2: { split; [|done]. unfold jcs_string. rewrite len_app. change (len [x22]) with 1.
       pose proof (len_nonneg (flat_map jcs_escape s ++ [x22])). lia. }
  cbn [tree_keys]. apply json_text_reads in Hr as (t & d & d' & Ht & Hread & Heof).
  unfold decodeTyped. rewrite Ht, Hread. cbn. by rewrite Heof.
Qed.

Lemma protocol_time_length text t : parseProtocolTime text = Some t -> len text = 20.
Proof. unfold parseProtocolTime. case_match eqn:E; [done|]. bool_props. done. Qed.

Lemma policy_accepted policy trial issuedAt expiresAt now :
  canonical policy = device_policy trial -> trial_in_force trial issuedAt expiresAt now ->
  validPolicy (jcs_text policy) issuedAt expiresAt now = true.
Proof.
  intros Hc Ht. unfold jcs_text. rewrite Hc. destruct trial as [text|]; [|vm_compute; reflexivity].
  destruct Ht as (ends & Hends & Hafter & Hexp & Hnow).
  pose proof (protocol_time_utf8 _ _ Hends) as Hu. pose proof (protocol_time_length _ _ Hends) as Hlen.
  pose proof (jcs_string_len text) as Hsl.
  assert (exists pre post, print jcs_string (device_policy (Some text)) = pre ++ jcs_string text ++ post /\
          len pre = 14 /\ len post = 45) as (pre & post & Hprint & Hpre & Hpost).
  { exists ([x7b] ++ jcs_string (sbytes "expires_at") ++ [x3a]),
      ([x2c] ++ jcs_string (sbytes "max_devices") ++ [x3a] ++ jcs_string (sbytes "1") ++ [x2c] ++
       jcs_string (sbytes "mode") ++ [x3a] ++ jcs_string (sbytes "trial_restricted") ++ [x7d]).
    split_and!; [|vm_compute; reflexivity..]. cbn [device_policy]. rewrite print_object. unfold member_text.
    cbn [map join_comma fst snd print]. by rewrite <- !app_assoc. }
  assert (2 <= len (print jcs_string (device_policy (Some text))) <= maximumPolicyBytes) as [H2 Hmax].
  { rewrite Hprint, !len_app, Hpre, Hpost. pose proof (len_nonneg (jcs_string text)). unfold maximumPolicyBytes. lia. }
  unfold validPolicy. rewrite !(proj2 (Z.ltb_ge _ _)) by done. cbn [orb].
  change (print jcs_string (device_policy (Some text))) with (jcs_text (device_policy (Some text))).
  rewrite (decode_jcs (device_policy (Some text))
             [(sbytes "expires_at", JStr text); (sbytes "max_devices", JStr (sbytes "1"));
              (sbytes "mode", JStr (sbytes "trial_restricted"))] _ policy_target []
             (VStruct [(sbytes "expires_at", VRaw (TreeString text)); (sbytes "max_devices", VRaw (TreeString (sbytes "1")));
                       (sbytes "mode", VString (sbytes "trial_restricted"))]) ltac:(cbn; by rewrite Hu) eq_refl eq_refl Hmax eq_refl eq_refl
             (or_introl eq_refl)).
  change (dc_raw _ _ (sbytes "expires_at")) with (jcs_string text).
  change (dc_raw _ _ (sbytes "max_devices")) with (jcs_string (sbytes "1")).
  rewrite !decode_string by (done || (unfold maximumPolicyBytes; lia)). cbv beta iota zeta.
  repeat match goal with |- (if ?b then _ else _) = true => let r := eval vm_compute in b in change b with r; cbv iota end.
  rewrite Hends. unfold After, time_Add, fixedTrialGrace, upto in *. cbn [t_nanos].
  rewrite bool_decide_eq_true_2 by done. rewrite !andb_true_iff, !negb_true_iff, !Z.ltb_lt, !Z.ltb_ge. lia.
Qed.
End Decode.

(** ** Validated payloads *)

Section Payload.
Context `{Primitives} `{UUIDText} `{!UUIDTextLaws} `{Unicode}.

(** What [ValidatePayloadV1] accepts. *)
Record payload_valid (value : PayloadV1) (issuedAt notBefore expiresAt : time) : Prop := {
  pv_times : parseProtocolTime (pv_IssuedAt value) = Some issuedAt /\ parseProtocolTime (pv_NotBefore value) = Some notBefore /\
    parseProtocolTime (pv_ExpiresAt value) = Some expiresAt;
  pv_order : upto issuedAt notBefore /\ t_nanos notBefore < t_nanos expiresAt;
  pv_schema : pv_SchemaVersion value = bundleSchema;
  pv_ids : canonicalUUID (pv_BundleID value) = true /\ canonicalUUID (pv_Audience value) = true;
  pv_locator : exactBase64URL (pv_BundleLocator value) 32 = true;
  pv_version : positiveIntegerString (pv_BundleVersion value) = true;
  pv_message : len (tc_Message (pv_TestConfig value)) <= maximumMessageBytes /\ utf8_Valid (tc_Message (pv_TestConfig value)) = true;
  pv_sequence : unsignedIntegerString (tc_Sequence (pv_TestConfig value)) = true;
}.

Lemma ValidatePayloadV1_inv value : ValidatePayloadV1 value = None -> exists i n e, payload_valid value i n e.
Proof.
  unfold ValidatePayloadV1. intros Hv. do 3 (case_top Hv; [|done]). case_top Hv; [done|].
  unfold Before, After in *. bool_props. eexists _, _, _. split; try done; unfold upto; split; done || lia.
Qed.

Lemma payload_canonicalizable value policy trial i n e :
  payload_valid value i n e -> canonical policy = device_policy trial ->
  (forall text, trial = Some text -> utf8_Valid text = true) -> canonicalizable (payload_json value policy) = true.
Proof.
  intros [(Hi & Hn & He) _ Hs [Hb Ha] Hl Hver [_ Hm] Hseq] Hc Ht.
  assert (canonicalizable policy = true) as Hp.
  { rewrite <- canonicalizable_canonical, Hc. destruct trial as [text|]; [|vm_compute; reflexivity].
    cbn. by rewrite Ht. }
  unfold payload_json. cbn [zip zip_with payload_strings names map app forallb fst snd canonicalizable config_json string_struct combine].
  rewrite Hs. canonicalize.
Qed.

(** The configuration is a small object. *)
Lemma unsigned_length value : unsignedIntegerString value = true -> len value <= 20.
Proof. unfold unsignedIntegerString. case_match eqn:E; [done|]. bool_props. lia. Qed.

Lemma config_small config :
  len (tc_Message config) <= maximumMessageBytes -> len (tc_Sequence config) <= 20 ->
  len (jcs_text (config_json config)) <= maximumPlaintextBytes.
Proof.
  intros Hm Hs. pose proof (jcs_string_len (tc_Message config)). pose proof (jcs_string_len (tc_Sequence config)).
  assert (len (jcs_text (config_json config)) = 24 + len (jcs_string (tc_Message config)) + len (jcs_string (tc_Sequence config))) as ->.
  { unfold jcs_text, config_json. change (canonical _) with
      (JObj [(sbytes "message", JStr (tc_Message config)); (sbytes "sequence", JStr (tc_Sequence config))]).
    rewrite print_object. unfold member_text. cbn [map join_comma fst snd print].
    rewrite !len_app. change (len (jcs_string (sbytes "message"))) with 9. change (len (jcs_string (sbytes "sequence"))) with 10.
    change (len [x7b]) with 1. change (len [x7d]) with 1. change (len [x3a]) with 1. change (len [x2c]) with 1. lia. }
  unfold maximumMessageBytes, maximumPlaintextBytes in *. lia.
Qed.

(** The client accepts it, at a time when the bundle is in force. *)
Lemma payload_accepted value policy trial i n e locator now skew :
  payload_valid value i n e -> canonical policy = device_policy trial -> trial_in_force trial i e now ->
  pv_BundleLocator value = b64_EncodeToString locator -> len locator = 32 ->
  t_nanos e = t_nanos n + 24 * Hour -> t_nanos n <= t_nanos now + skew -> t_nanos now - skew < t_nanos e ->
  exists version, parsePositiveUint (pv_BundleVersion value) = Some version /\
    validatePayload (wire_payload value policy) (MkExpected (pv_Audience value) locator) now skew = Ok (version, n, e).
Proof.
  intros [(Hi & Hn & He) [Hord1 Hord2] Hs [Hb Ha] Hl Hver [Hmsg Hm] Hseq] Hc Htrial Hloc H32 Hlife Hnow1 Hnow2.
  destruct (positive_spec _ Hver) as [version Hversion]. exists version. split; [done|].
  destruct (config_decodes (pv_TestConfig value)) as (d & Hd & Hdm & Hds).
  { unfold config_json. cbn [canonicalizable string_struct zip_with map names forallb fst snd]. canonicalize. }
  { apply config_small; [done|]. by apply unsigned_length. }
  unfold validatePayload, wire_payload, Before, After, time_Add.
  cbn [pl_BundleVersion pl_IssuedAt pl_NotBefore pl_ExpiresAt pl_BundleLocator pl_TestConfig pl_SchemaVersion pl_BundleID
       pl_Audience pl_PolicySnapshot ex_audience ex_locator t_nanos].
  rewrite Hversion, Hi, Hn, He, Hloc, <- H32, decodes_b64, Hd, Hdm, Hds, Hs, Hb, Ha, Hm, Hseq.
  rewrite (policy_accepted policy trial i e now Hc Htrial), !bool_decide_eq_true_2 by done. cbn [negb orb]. unfold upto in *.
  assert (time_Sub e n = fixedBundleLifetime) as -> by (unfold time_Sub; rewrite Hlife; unfold fixedBundleLifetime, MinInt64, MaxInt64, Hour, Minute, Second, Millisecond, Microsecond; lia).
  rewrite Z.eqb_refl. repeat first [rewrite (proj2 (Z.ltb_ge _ _)) by lia|rewrite (proj2 (Z.ltb_lt _ _)) by lia]. done.
Qed.
End Payload.

(** ** Metadata *)

Section Metadata.
Context `{Primitives} `{UUIDText} `{Unicode}.

(** The two loops over the signing keys agree. *)
Lemma validRootKey_client validFrom validUntil previous seen key keys :
  validSigningKeys validFrom validUntil previous seen (key :: keys) =
  validRootKey validFrom validUntil previous seen key &&
  validSigningKeys validFrom validUntil (sk_KeyID key) (sk_KeyID key :: seen) keys.
Proof.
  cbn [validSigningKeys]. f_equal. unfold validRootKey, decodeExactBase64URL.
  destruct (parseProtocolTime (sk_NotBefore key)) as [nb|]; [|done]. destruct (parseProtocolTime (sk_NotAfter key)) as [na|]; [|done].
  destruct (b64_DecodeString (sk_PublicKey key)) as [pk|]; [|done].
  destruct (len pk =? PublicKeySize); cbn [andb negb orb]; [|by rewrite !orb_true_r].
  destruct (bool_decide (b64_EncodeToString pk = sk_PublicKey key)); cbn [andb negb orb]; [|by rewrite !orb_true_r].
  rewrite (bool_decide_ext (sk_KeyID key = deriveKeyID configKeyIDDomain pk) (deriveKeyID configKeyIDDomain pk = sk_KeyID key)) by (by split).
  destruct (validKeyID (sk_KeyID key)), (bool_decide (sk_Algorithm key = signatureAlgorithm)),
    (bool_decide (deriveKeyID configKeyIDDomain pk = sk_KeyID key)),
    (bool_decide (sk_State key ∈ names ["future"; "active"; "retiring"; "revoked"])),
    (After na nb), (Before nb validFrom), (After na validUntil), (bool_decide (sk_KeyID key ∈ seen)),
    (bytes_lt previous (sk_KeyID key)), (bool_decide (previous = [])); reflexivity.
Qed.

Lemma validRootKeys_client validFrom validUntil keys : forall previous seen,
  validRootKeys validFrom validUntil previous seen keys = validSigningKeys validFrom validUntil previous seen keys.
Proof.
  induction keys as [|key keys IH]; intros previous seen; [done|]. rewrite validRootKey_client. cbn [validRootKeys].
  rewrite IH. by destruct (validRootKey _ _ _ _ _).
Qed.

Lemma positive_client value : positiveIntegerString value = not_nil (parsePositiveUint value).
Proof.
  unfold positiveIntegerString, parsePositiveUint. case_match; [done|]. case_match; [|done]. by case_match.
Qed.

(** The server's check and the client's check of the same metadata. *)
Lemma metadata_checks_agree payload now :
  validateMetadataPayload payload now =
  match ValidateRootMetadataV1 payload, parsePositiveUint (rm_Version payload),
        parseProtocolTime (rm_ValidFrom payload), parseProtocolTime (rm_ValidUntil payload) with
  | None, Some version, Some validFrom, Some validUntil =>
      if negb (Before now validFrom) && Before now validUntil then Some (version, validFrom, validUntil) else None
  | _, _, _, _ => None
  end.
Proof.
  unfold validateMetadataPayload, ValidateRootMetadataV1. rewrite positive_client.
  destruct (parseProtocolTime (rm_ValidFrom payload)) as [vf|]; [|by destruct (parsePositiveUint (rm_Version payload))].
  destruct (parseProtocolTime (rm_ValidUntil payload)) as [vu|]; [|by destruct (parsePositiveUint (rm_Version payload))].
  rewrite validRootKeys_client. change maximumSigningKeys with maximumTrustedRoots.
  destruct (parsePositiveUint (rm_Version payload)) as [v|]; cbn [not_nil negb].
  2: { rewrite orb_true_r. done. }
  rewrite orb_false_r.
  destruct (bool_decide (rm_SchemaVersion payload = metadataSchema)), (validKeyID (rm_RootKeyID payload)),
    (bool_decide (rm_RootAlgorithm payload = signatureAlgorithm)), (After vu vf), (len (rm_SigningKeys payload) =? 0),
    (maximumTrustedRoots <? len (rm_SigningKeys payload)), (Before now vf), (Before now vu),
    (validSigningKeys vf vu [] [] (rm_SigningKeys payload)); reflexivity.
Qed.

(** A key that is not listed authorizes nothing. *)
Lemma unlisted_key keys keyID nb ex : keyID ∉ map sk_KeyID keys -> metadataKeyAuthorizes keys keyID nb ex = false.
Proof.
  induction keys as [|key keys IH]; intros Hin; [done|]. cbn [map] in Hin. apply not_elem_of_cons in Hin as [Hne Hin].
  cbn [metadataKeyAuthorizes]. rewrite (bool_decide_eq_false_2 (sk_KeyID key = keyID)) by done. by apply IH.
Qed.

(** The choice of a key for verification is the client's search and its interval
    check. *)
Lemma selectKey_client validFrom validUntil keyID nb ex keys : forall previous seen,
  validSigningKeys validFrom validUntil previous seen keys = true -> forall publicKey,
  selectKey keyID nb ex true keys = Ok publicKey <->
  findSigningKey keyID keys = Ok publicKey /\ metadataKeyAuthorizes keys keyID nb ex = true.
Proof.
  induction keys as [|key keys IH]; intros previous seen Hv publicKey; [by split; [|intros [? _]]|].
  pose proof (validSigningKeys_inv _ _ _ _ _ Hv) as (_ & Hnd & _). cbn [map] in Hnd. apply list.NoDup_cons in Hnd as [Hnew _].
  cbn [validSigningKeys] in Hv. apply andb_prop in Hv as [Hkey Hv].
  cbn [selectKey findSigningKey metadataKeyAuthorizes].
  destruct (decide (sk_KeyID key = keyID)) as [Heq|Hne].
  2: { rewrite (bool_decide_eq_false_2 _ Hne). cbn [negb orb]. by apply (IH _ _ Hv). }
  rewrite (bool_decide_eq_true_2 _ Heq). cbn [negb orb]. unfold protocolTime.
  destruct (parseProtocolTime (sk_NotBefore key)) as [knb|]; [|done]. destruct (parseProtocolTime (sk_NotAfter key)) as [kna|]; [|done].
  unfold decodeExactBase64URL in *. destruct (b64_DecodeString (sk_PublicKey key)) as [pk|]; [|done].
  destruct ((len pk =? PublicKeySize) && bool_decide (b64_EncodeToString pk = sk_PublicKey key)) eqn:Epk; [|done].
  apply andb_prop in Epk as [Elen _]. rewrite Elen. cbn [default]. bool_props.
  rewrite (bool_decide_eq_true_2 (deriveKeyID _ _ = _)), (bool_decide_eq_true_2 (sk_Algorithm key = _)) by done. cbn [negb orb].
  assert ((if Before nb knb || After ex kna then Err TrustKeyUnavailable else Ok pk) = Ok publicKey <->
          Ok (E := client_error) pk = Ok publicKey /\ negb (Before nb knb) && negb (After ex kna) = true) as Hinterval.
  { clear. destruct (Before nb knb), (After ex kna); cbn; split; intros Hh; try discriminate Hh; try (by destruct Hh).
    - split; [by injection Hh as ->|done].
    - destruct Hh as [Hh _]. by injection Hh as ->. }
  unfold usableState. destruct (bool_decide (sk_State key = sbytes "active")), (bool_decide (sk_State key = sbytes "retiring"));
    [exact Hinterval..|].
  rewrite <- Heq, unlisted_key by done. cbn. clear. split; [done|by intros [? ?]].
Qed.

(** ** Decoding of metadata *)

Lemma assign_slice {A} t (f : A -> jtree) (g : A -> goval) l :
  (forall x, assign t (f x) = Ok (g x)) -> assign (GoSlice t) (TreeArray (map f l)) = Ok (VList (map g l)).
Proof.
  intros Hfg. cbn [assign strip_pointers wrap_pointers Nat.iter].
  match goal with |- context [?go (map f l)] => assert (go (map f l) = Ok (map g l)) as -> end; [|done].
  induction l as [|x l IH]; [done|]. cbn [map]. by rewrite Hfg, IH.
Qed.

Lemma assign_members name fields ms vs :
  Forall2 (fun m v => exists t, json_field (buildStructSchema (GoStruct name fields)) m.1 = Some (v.1, t) /\ assign t m.2 = Ok v.2) ms vs ->
  assign (GoStruct name fields) (TreeObject ms) = Ok (VStruct vs).
Proof.
  intros Hall. cbn [assign strip_pointers wrap_pointers Nat.iter].
  match goal with |- context [?go ms] => assert (go ms = Ok vs) as -> end; [|done].
  induction Hall as [|[k m] [f v] ms vs (t & Hf & Ha) _ IH]; [done|]. cbn [fst snd] in *. by rewrite Hf, Ha, IH.
Qed.

(** A decoded key: the members in the order of their names. *)
Definition key_value (key : SigningKeyMetadataV1) : goval :=
  VStruct [(sbytes "algorithm", VString (sk_Algorithm key)); (sbytes "key_id", VString (sk_KeyID key));
           (sbytes "not_after", VString (sk_NotAfter key)); (sbytes "not_before", VString (sk_NotBefore key));
           (sbytes "public_key", VString (sk_PublicKey key)); (sbytes "state", VString (sk_State key))].

Lemma key_of_value key : key_of (key_value key) = key.
Proof. destruct key. vm_compute. reflexivity. Qed.

Lemma keys_of_values keys : map key_of (map key_value keys) = keys.
Proof. induction keys as [|k l IH]; [reflexivity|]. rewrite !map_cons, key_of_value, IH. reflexivity. Qed.

Definition metadata_members (value : RootMetadataV1) : list (bytes * json) :=
  [(sbytes "root_algorithm", JStr (rm_RootAlgorithm value)); (sbytes "root_key_id", JStr (rm_RootKeyID value));
   (sbytes "schema_version", JStr (rm_SchemaVersion value));
   (sbytes "signing_keys", JList (map canonical (map key_json (rm_SigningKeys value))));
   (sbytes "valid_from", JStr (rm_ValidFrom value)); (sbytes "valid_until", JStr (rm_ValidUntil value));
   (sbytes "version", JStr (rm_Version value))].

Lemma metadata_canonical value : canonical (metadata_json value) = JObj (metadata_members value).
Proof. reflexivity. Qed.

Lemma metadata_assign value :
  exists v, assign metadata_target (tree_of (JObj (metadata_members value))) = Ok (VStruct v) /\
    forall keys raws, metadata_of (MkDecoded keys (VStruct v) raws) = value.
Proof.
  pose proof (assign_slice (string_target key_fields) (fun k => tree_of (canonical (key_json k))) key_value (rm_SigningKeys value)
                ltac:(intros k; vm_compute; reflexivity)) as Hslice.
  exists [(sbytes "root_algorithm", VString (rm_RootAlgorithm value)); (sbytes "root_key_id", VString (rm_RootKeyID value));
          (sbytes "schema_version", VString (rm_SchemaVersion value));
          (sbytes "signing_keys", VList (map key_value (rm_SigningKeys value)));
          (sbytes "valid_from", VString (rm_ValidFrom value)); (sbytes "valid_until", VString (rm_ValidUntil value));
          (sbytes "version", VString (rm_Version value))].
  split.
  - apply assign_members. unfold metadata_members. cbn [tree_of map fst snd].
    repeat first [apply Forall2_nil|apply Forall2_cons]; cbn [fst snd]; eexists; (split; [vm_compute; reflexivity|]);
      try reflexivity. by rewrite !map_map.
  - intros keys raws.
    destruct value as [schema version root algorithm from until l].
    transitivity (MkRootMetadata schema version root algorithm from until (map key_of (map key_value l)));
      [vm_compute; reflexivity|]. by rewrite keys_of_values.
Qed.

Lemma metadata_clean value : clean 0 (tree_of (JObj (metadata_members value))) = true.
Proof.
  assert (forallb (clean 2) (map tree_of (map canonical (map key_json (rm_SigningKeys value)))) = true) as Hkeys.
  { rewrite !map_map. apply forallb_forall. intros t (k & <- & _)%in_map_iff. vm_compute. reflexivity. }
  unfold metadata_members. cbn [tree_of map fst snd clean forallb]. change (0 + 1 + 1) with 2. rewrite Hkeys.
  vm_compute. reflexivity.
Qed.

Lemma validRootKeys_utf8 validFrom validUntil keys : forall previous seen,
  validRootKeys validFrom validUntil previous seen keys = true ->
  forallb canonicalizable (map key_json keys) = true.
Proof.
  induction keys as [|key keys IH]; intros previous seen Hv; [reflexivity|]. cbn [validRootKeys] in Hv.
  case_top Hv; [|done]. rewrite map_cons. cbn [forallb]. rewrite (IH _ _ Hv), andb_true_r.
  match goal with Hk : validRootKey _ _ _ _ _ = true |- _ => rename Hk into Hkey end. unfold validRootKey in Hkey.
  destruct (parseProtocolTime (sk_NotBefore key)) as [nb|] eqn:Enb; [|done].
  destruct (parseProtocolTime (sk_NotAfter key)) as [na|] eqn:Ena; [|done].
  destruct (b64_DecodeString (sk_PublicKey key)) as [pk|] eqn:Epk; [|done]. bool_props.
  assert (utf8_Valid (sk_PublicKey key) = true) by
    (match goal with He : b64_EncodeToString pk = _ |- _ => rewrite <- He end; apply b64_utf8).
  assert (utf8_Valid (sk_Algorithm key) = true) by
    (match goal with He : sk_Algorithm key = _ |- _ => rewrite He end; vm_compute; reflexivity).
  assert (utf8_Valid (sk_State key) = true).
  { match goal with He : sk_State key ∈ _ |- _ => revert He end. cbn [names map]. rewrite !elem_of_cons.
    intros [-> | [-> | [-> | [-> | []%not_elem_of_nil]]]]; vm_compute; reflexivity. }
  unfold key_json. cbn [canonicalizable string_struct zip_with key_fields names map forallb fst snd]. canonicalize.
Qed.

Lemma metadata_canonicalizable value : ValidateRootMetadataV1 value = None -> canonicalizable (metadata_json value) = true.
Proof.
  unfold ValidateRootMetadataV1. intros Hv. do 2 (case_top Hv; [|done]). case_top Hv; [done|]. case_top Hv; [|done].
  match goal with Hk : validRootKeys _ _ _ _ _ = true |- _ => apply validRootKeys_utf8 in Hk end. bool_props.
  unfold metadata_json. cbn [take metadata_fields names map zip zip_with combine app canonicalizable forallb fst snd].
  repeat match goal with He : _ value = _ |- _ => rewrite He; clear He end.
  canonicalize.
Qed.
End Metadata.
