(* ===== verification/TrustIssue.v ===== *)
(** From the signer to the device: what [SignBundleV1], [SignRootMetadataV1] and
    [Seal] return, read back by the trust client.

    A control plane and a device for the witnesses of the issue theorems. *)
From Stdlib Require Import ZArith Lia Strings.Byte.
From stdpp Require Import base gmap list strings numbers option.
From S2P Require Import Prelude GoStd GoTime AuthorityTypes Samples Programs GoCrypto Text IdempotencyTheorems Tokens GoJson StrictJson TrustStore TrustJson TrustJsonTheorems TrustVerify TrustVerifyFacts TrustJcs TrustServer TrustSigner TrustSeal TrustServerFacts.

#[local] Open Scope go_scope.
#[local] Open Scope prog_scope.

(** ** What the packages promise *)

(** Ed25519: sizes, and that a signature verifies under the public half. *)
Class Ed25519Laws `{Ed25519} `{Ed25519Keys} : Prop := {
  ed25519_public_size seed : len seed = SeedSize -> len (ed25519_Public seed) = PublicKeySize;
  ed25519_signature_size seed message : len seed = SeedSize -> len (ed25519_Sign seed message) = SignatureSize;
  ed25519_correct seed message : len seed = SeedSize ->
    ed25519_Verify (ed25519_Public seed) message (ed25519_Sign seed message) = true;
}.

(** HPKE: the holder of the private key opens what was sealed to the public key
    with the same info and associated data. *)
Class HPKELaws `{HPKE} `{HPKESender} : Prop := {
  hpke_enc_size entropy public info enc : hpke_NewSender entropy public info = Some enc -> len enc = 32;
  hpke_seal_size entropy public info aad plaintext ciphertext :
    hpke_Seal entropy public info aad plaintext = Some ciphertext -> len ciphertext = len plaintext + chacha20Poly1305TagBytes;
  hpke_correct private public entropy info aad plaintext enc ciphertext :
    kem_public private = Some public -> hpke_NewSender entropy public info = Some enc ->
    hpke_Seal entropy public info aad plaintext = Some ciphertext -> hpke_Open private enc info aad ciphertext = Some plaintext;
}.

(** ** Signing *)

(** A bounded signer around the local signer of [seed]: closed or open at any
    call, and failing at any call; but a signature it returns is that of the local
    signer. *)
Definition bounded_may `{Primitives} `{Ed25519Keys} (domain seed : bytes) X (c : signer_call X) : X -> Prop :=
  match c in signer_call X return X -> Prop with
  | CtxErr => fun _ => True
  | CallKeyID => fun keyID => keyID = [] \/ keyID = deriveKeyID domain (ed25519_Public seed)
  | CallSign message => fun answer =>
      match answer with
      | Ok signature => signature = ed25519_Sign seed message
      | Err _ => True
      end
  end.

Section Signing.
Context `{Primitives} `{UUIDText} `{Unicode} `{Ed25519Keys}.

Lemma SignBundleV1_inv seed payload signed :
  may_return (bounded_may configKeyIDDomain seed) (SignBundleV1 (Some signer_ctx) payload (Some signer_ops)) (Ok signed) ->
  exists canonical, CanonicalizePayloadV1 payload = Ok canonical /\ ValidateSignedBundleV1 signed = None /\
    signed = MkSigned canonical (b64_EncodeToString (sha256 canonical)) (deriveKeyID configKeyIDDomain (ed25519_Public seed))
               signatureAlgorithm (b64_EncodeToString (ed25519_Sign seed (bundleSignatureDomain ++ canonical))) [].
Proof.
  cbn. intros (cancelled & _ & Hr). destruct cancelled; [done|]. cbn in Hr. destruct Hr as (keyID & _ & Hr).
  destruct (negb (validKeyID keyID)); [done|]. destruct (CanonicalizePayloadV1 payload) as [canonical|e]; [|done].
  cbn in Hr. destruct Hr as ([signature|e] & Hsig & Hr); [|done]. destruct (negb (len signature =? SignatureSize)); [done|].
  cbn in Hr. destruct Hr as (keyID' & Hkey & Hr). exists canonical.
  destruct (ValidateSignedBundleV1 _) eqn:Ev; [done|]. injection Hr as <-. subst signature.
  destruct Hkey as [-> | ->]; [|done]. exfalso. revert Ev. unfold ValidateSignedBundleV1. cbn [sg_SignerKeyID].
  change (validKeyID []) with false. by rewrite !orb_true_r.
Qed.

Lemma SignRootMetadataV1_inv seed payload signed :
  may_return (bounded_may rootKeyIDDomain seed) (SignRootMetadataV1 (Some signer_ctx) payload (Some signer_ops)) (Ok signed) ->
  exists canonical, CanonicalizeRootMetadataV1 payload = Ok canonical /\ validKeyID (rm_RootKeyID payload) = true /\
    rm_RootKeyID payload = deriveKeyID rootKeyIDDomain (ed25519_Public seed) /\
    signed = MkSignedRoot canonical (b64_EncodeToString (ed25519_Sign seed (metadataSignatureDomain ++ canonical))).
Proof.
  cbn. intros (cancelled & _ & Hr). destruct cancelled; [done|]. cbn in Hr. destruct Hr as (keyID & Hkey & Hr).
  destruct ((rm_RootKeyID payload != keyID) || _) eqn:Eid; [done|]. bool_props.
  destruct (CanonicalizeRootMetadataV1 payload) as [canonical|e] eqn:Ec; [|done].
  cbn in Hr. destruct Hr as ([signature|e] & Hsig & Hr); [|done]. destruct (negb (len signature =? SignatureSize)); [done|].
  cbn in Hr. injection Hr as <-. subst signature. exists canonical.
  assert (validKeyID (rm_RootKeyID payload) = true) as Hvalid.
  { revert Ec. unfold CanonicalizeRootMetadataV1. destruct (ValidateRootMetadataV1 payload) eqn:Ev; [done|]. intros _.
    revert Ev. unfold ValidateRootMetadataV1. do 2 (case_match; [|done]). case_match eqn:Eo; [done|]. bool_props. done. }
  split_and!; try done. destruct Hkey as [-> | ->]; [|done].
  match goal with He : rm_RootKeyID payload = [] |- _ => by rewrite He in Hvalid end.
Qed.
End Signing.

(** ** Canonical texts *)

Section Canonical.
Context `{Primitives} `{!JCSLaws} `{UUIDText} `{!UUIDTextLaws} `{Unicode}.

Lemma CanonicalizeJSON_ok body target canonical d :
  CanonicalizeJSON body target = Ok (canonical, d) ->
  jcs_Transform body = Some canonical /\ 1 <= len canonical <= maximumCanonicalPayloadBytes.
Proof. unfold CanonicalizeJSON. intros Hc. accepted Hc. injection Hc as <- _. bool_props. done. Qed.

(** The policy of a payload is a device policy, whatever its spelling. *)
Definition policy_of (value : PayloadV1) (policy : json) (trial : option bytes) : Prop :=
  marshalRaw (pv_PolicySnapshot value) = Some (json_Marshal policy) /\ canonical policy = device_policy trial /\
  forall text, trial = Some text -> utf8_Valid text = true.

Lemma CanonicalizePayloadV1_text value policy trial text :
  policy_of value policy trial -> CanonicalizePayloadV1 value = Ok text ->
  ValidatePayloadV1 value = None /\ text = jcs_text (payload_json value policy) /\ len text <= maximumCanonicalPayloadBytes /\
  canonicalizable (payload_json value policy) = true.
Proof.
  intros (Hm & Hp & Ht) Hc. unfold CanonicalizePayloadV1 in Hc. destruct (ValidatePayloadV1 value) as [e|] eqn:Hv; [done|].
  destruct (ValidatePayloadV1_inv _ Hv) as (i & n & e & Hvalid).
  pose proof (payload_canonicalizable _ _ _ _ _ _ Hvalid Hp Ht) as Hok.
  rewrite (marshalPayload_json value policy) in Hc by (done || intros E; by rewrite E in Hm).
  destruct (CanonicalizeJSON _ _) as [[c d]|] eqn:Ec; [|done]. case_top Hc; [|done]. injection Hc as <-.
  apply CanonicalizeJSON_ok in Ec as [Ej Hl]. rewrite jcs_Marshal in Ej by done. injection Ej as <-.
  split_and!; try done. lia.
Qed.

Lemma CanonicalizeRootMetadataV1_text value text :
  CanonicalizeRootMetadataV1 value = Ok text ->
  ValidateRootMetadataV1 value = None /\ text = jcs_text (metadata_json value) /\ len text <= maximumCanonicalPayloadBytes /\
  canonicalizable (metadata_json value) = true.
Proof.
  intros Hc. unfold CanonicalizeRootMetadataV1 in Hc. destruct (ValidateRootMetadataV1 value) as [e|] eqn:Hv; [done|].
  pose proof (metadata_canonicalizable _ Hv) as Hok.
  destruct (CanonicalizeJSON _ _) as [[c d]|] eqn:Ec; [|done]. case_top Hc; [|done]. injection Hc as <-.
  apply CanonicalizeJSON_ok in Ec as [Ej Hl]. rewrite jcs_Marshal in Ej by done. injection Ej as <-.
  split_and!; try done. lia.
Qed.

Lemma jcs_text_canonical v : canonicalizable v = true -> isCanonical (jcs_text v) = true.
Proof. intros Hv. unfold isCanonical. by rewrite jcs_canonical, bool_decide_eq_true_2. Qed.

(** A text of two bytes or more. *)
Lemma jcs_object_len v fields : canonical v = JObj fields -> 2 <= len (jcs_text v).
Proof.
  intros Hc. unfold jcs_text. rewrite Hc, print_object, !len_app. change (len [x7b]) with 1. change (len [x7d]) with 1.
  pose proof (len_nonneg (join_comma (map (member_text jcs_string) fields))). lia.
Qed.

(** ** The signed bundle is read back *)

Lemma signed_read_back value policy trial text keyID signature :
  policy_of value policy trial -> CanonicalizePayloadV1 value = Ok text -> len signature = SignatureSize ->
  let signed := MkSigned text (b64_EncodeToString (sha256 text)) keyID signatureAlgorithm (b64_EncodeToString signature) [] in
  ValidateSignedBundleV1 signed = None ->
  canonicalizable (signed_json signed) = true /\
  (len (jcs_text (signed_json signed)) <= maximumPlaintextBytes ->
   decodeSigned (jcs_text (signed_json signed)) = Ok (signed, wire_payload value policy)).
Proof.
  intros Hp Hc Hsig signed Hv. assert (len (sha256 text) = 32) as Hsha by (unfold len; by rewrite sha256_length).
  pose proof (CanonicalizePayloadV1_text _ _ _ _ Hp Hc) as (_ & Htext & Hlen & Hok).
  assert (validKeyID keyID = true) as Hkey.
  { revert Hv. unfold ValidateSignedBundleV1. cbn [sg_SignerKeyID signed]. case_match eqn:E; [done|]. intros _. bool_props. done. }
  assert (2 <= len text) as Htwo by (rewrite Htext; by eapply jcs_object_len).
  assert (canonicalizable (signed_json signed) = true) as Hcan.
  { pose proof (proj1 (jcs_valid _ Hok)) as Hu. rewrite <- Htext in Hu.
    unfold signed_json, signed. cbn [canonicalizable string_struct zip_with signed_fields names map forallb fst snd
      sg_PayloadJCS sg_PayloadSHA256 sg_SignerKeyID sg_Algorithm sg_Signature sg_Padding]. canonicalize. }
  split; [done|]. intros Hsl. destruct (signed_decodes signed Hcan Hsl) as (d & Hd & Hds).
  destruct Hp as (Hm & Hpol & Ht).
  destruct (payload_decodes value policy trial Hpol Hok) as (pd & Hpd & Hpds).
  { rewrite <- Htext. unfold maximumCanonicalPayloadBytes, maximumPlaintextBytes in *. lia. }
  unfold decodeSigned. rewrite Hd, Hds, (jcs_text_canonical _ Hcan).
  assert (validSignedBundle signed = true) as ->.
  { unfold validSignedBundle, signed. cbn [sg_PayloadJCS sg_PayloadSHA256 sg_SignerKeyID sg_Algorithm sg_Signature sg_Padding].
    rewrite <- Hsha, <- Hsig, !decodes_b64, Hkey. unfold maximumCanonicalPayloadBytes in Hlen. unfold maximumPlaintextBytes.
    rewrite !(proj2 (Z.leb_le _ _)) by lia. done. }
  cbn [sg_PayloadJCS sg_PayloadSHA256 signed]. rewrite Htext at 1. rewrite Hpd. rewrite Htext at 1.
  rewrite (jcs_text_canonical _ Hok), bool_decide_eq_true_2 by done. by rewrite Hpds.
Qed.

(** ** The metadata is verified *)

Context `{Ed25519} `{Ed25519Keys} `{!Ed25519Laws}.

(** A text, in any spelling, of a signed metadata record. *)
Definition root_json (value : SignedRootMetadataV1) : json :=
  string_struct (names ["payload_jcs"; "signature"]) [sr_PayloadJCS value; sr_Signature value].
Definition states_record (text : bytes) (value : SignedRootMetadataV1) : Prop :=
  json_text text (tree_of (root_json value)) /\ utf8_Valid text = true /\ validUnicodeEscapes text = true /\
  1 <= len text <= maximumMetadataBytes.

Lemma record_decodes text value : states_record text value ->
  exists d, decodeStrictObject text maximumMetadataBytes (string_target (names ["payload_jcs"; "signature"]))
              (names ["payload_jcs"; "signature"]) = Some d /\
    dc_string d (sbytes "payload_jcs") = sr_PayloadJCS value /\ dc_string d (sbytes "signature") = sr_Signature value.
Proof.
  intros (Ht & Hu & He & Hl). eexists. split.
  - eapply (decode_text text [(sbytes "payload_jcs", JStr (sr_PayloadJCS value)); (sbytes "signature", JStr (sr_Signature value))]);
      [done|done|exact Ht|vm_compute; reflexivity|done|vm_compute; reflexivity|vm_compute; reflexivity|by right].
  - by destruct value.
Qed.

Lemma metadata_decodes value :
  canonicalizable (metadata_json value) = true -> len (jcs_text (metadata_json value)) <= maximumMetadataBytes ->
  exists d, decodeStrictObject (jcs_text (metadata_json value)) maximumMetadataBytes metadata_target metadata_fields = Some d /\
    metadata_of d = value.
Proof.
  intros Hp Hl. destruct (metadata_assign value) as (v & Ha & Hv). eexists. split; [|apply Hv].
  eapply decode_jcs; [done|apply metadata_canonical|apply metadata_clean|done|exact Ha|vm_compute; reflexivity|by right].
Qed.

Lemma metadata_verified seed value text record metadata keyID now version publicKey :
  len seed = SeedSize -> CanonicalizeRootMetadataV1 value = Ok text ->
  rm_RootKeyID value = deriveKeyID rootKeyIDDomain (ed25519_Public seed) ->
  record = MkSignedRoot text (b64_EncodeToString (ed25519_Sign seed (metadataSignatureDomain ++ text))) ->
  states_record (tm_signed metadata) record ->
  tm_trustedRoots metadata !! rm_RootKeyID value = Some (ed25519_Public seed) ->
  parsePositiveUint (rm_Version value) = Some version -> tm_highestTrusted metadata < version ->
  t_nanos (protocolTime (rm_ValidFrom value)) <= t_nanos now < t_nanos (protocolTime (rm_ValidUntil value)) ->
  findSigningKey keyID (rm_SigningKeys value) = Ok publicKey ->
  verifyTrustMetadata metadata keyID now = Ok (value, publicKey).
Proof.
  intros Hseed Hc Hroot -> Hrec Hlook Hver Hhigh Hnow Hfind.
  destruct (CanonicalizeRootMetadataV1_text _ _ Hc) as (Hvalid & Htext & Hlen & Hok).
  destruct (record_decodes _ _ Hrec) as (d & Hd & Hdp & Hds). cbn [sr_PayloadJCS sr_Signature] in *.
  destruct (metadata_decodes value Hok) as (md & Hmd & Hmv).
  { rewrite <- Htext. unfold maximumCanonicalPayloadBytes, maximumMetadataBytes in *. lia. }
  assert (2 <= len text) as Htwo by (rewrite Htext; by eapply jcs_object_len).
  assert (exists validFrom validUntil, validateMetadataPayload value now = Some (version, validFrom, validUntil)) as (vf & vu & Hcheck).
  { rewrite metadata_checks_agree, Hvalid, Hver. unfold ValidateRootMetadataV1 in Hvalid. unfold protocolTime in Hnow.
    destruct (parseProtocolTime (rm_ValidFrom value)) as [vf|]; [|done]. destruct (parseProtocolTime (rm_ValidUntil value)) as [vu|]; [|done].
    cbn in Hnow. exists vf, vu. unfold Before. by rewrite (proj2 (Z.ltb_ge _ _)), (proj2 (Z.ltb_lt _ _)) by lia. }
  unfold verifyTrustMetadata. rewrite Hd, Hdp, Hds. unfold maximumCanonicalPayloadBytes in Hlen.
  rewrite !(proj2 (Z.leb_le _ _)) by (unfold maximumMetadataBytes; lia). cbn [andb].
  rewrite Htext at 1. rewrite Hmd, Hmv. rewrite Htext at 1. rewrite (jcs_text_canonical _ Hok), Hcheck, Hlook.
  rewrite ed25519_public_size, Z.eqb_refl, Hroot, bool_decide_eq_true_2 by done. cbn [andb].
  rewrite <- (ed25519_signature_size seed (metadataSignatureDomain ++ text)) by done.
  rewrite decodes_b64, ed25519_correct by done. rewrite (proj2 (Z.ltb_lt _ _)) by done. by rewrite Hfind.
Qed.
End Canonical.

(** ** Sealing *)

Section Sealing.
Context `{Primitives} `{!JCSLaws} `{Unicode} `{HPKE} `{HPKESender} `{!HPKELaws}.

Lemma Ok_inj {E A} (a b : A) : Ok (E := E) a = Ok b -> a = b.
Proof. congruence. Qed.

(** The bucket is the least that is large enough. *)
Lemma bucket_spec n bucket : selectPlaintextBucket n = bucket -> bucket <> 0 -> bucket ∈ plaintextBucketSizes /\ n <= bucket.
Proof.
  unfold selectPlaintextBucket. intros <-. destruct (List.filter _ plaintextBuckets) as [|b l] eqn:E; [done|]. intros _. cbn.
  assert (b ∈ b :: l) as Hb by left. rewrite <- E in Hb. apply list_elem_of_In, filter_In in Hb as [Hin Hle].
  apply list_elem_of_In in Hin. bool_props. done.
Qed.

Lemma existsb_bucket (p : Z -> bool) b : b ∈ plaintextBucketSizes -> p b = true -> existsb p plaintextBucketSizes = true.
Proof. intros Hb Hp. apply existsb_exists. exists b. split; [by apply list_elem_of_In|done]. Qed.

(** The frame gives the signed text back. *)
Lemma sealed_frame random signed plaintext :
  canonicalizable (signed_json signed) = true -> sealPlaintext random signed = Ok plaintext ->
  len plaintext ∈ plaintextBucketSizes /\ len (jcs_text (signed_json signed)) <= maximumPlaintextBytes /\
  removeValidatedPadding plaintext = Some (jcs_text (signed_json signed)).
Proof.
  intros Hok Hs. unfold sealPlaintext in Hs. rewrite jcs_Marshal in Hs by done. accepted Hs. apply Ok_inj in Hs.
  set (text := jcs_text (signed_json signed)) in *. subst plaintext.
  match goal with Hb : negb (selectPlaintextBucket ?n =? 0) = true |- _ =>
    destruct (bucket_spec n _ eq_refl) as [Hin Hle]; [bool_props; done|] end.
  match goal with Hr : readPadding _ _ = Some _ |- _ => rename Hr into Hread end.
  unfold readPadding, plaintextLengthBytes in *. case_top Hread; [|discriminate Hread]. apply (inj Some) in Hread. subst.
  assert (2 <= len text /\ len text + 4 <= maximumEnvelopePlaintext) as [Htwo Hmax] by (bool_props; lia). bool_props.
  set (bucket := selectPlaintextBucket (len text + 4)) in *.
  set (padding := take (Z.to_nat (bucket - 4 - len text)) random).
  assert (len padding = bucket - 4 - len text) as Hpad.
  { unfold padding, len in *. rewrite length_take. lia. }
  assert (len (be_bytes 4 (len text)) = 4) as Hfour by (unfold len; by rewrite be_bytes_length).
  assert (len (be_bytes 4 (len text) ++ text ++ padding) = bucket) as Hlen by (rewrite !len_app; lia).
  rewrite Hlen. unfold maximumEnvelopePlaintext, maximumPlaintextBytes in *. split_and!; [done|lia|].
  unfold removeValidatedPadding, plaintextLengthPrefix. rewrite Hlen.
  rewrite (existsb_bucket _ bucket Hin) by apply Z.eqb_refl. rewrite (proj2 (Z.ltb_ge bucket 4)) by lia. cbn [negb orb].
  assert (subslice (be_bytes 4 (len text) ++ text ++ padding) 0 4 = be_bytes 4 (len text)) as ->
    by (apply (subslice_app []); [done|by rewrite Hfour]).
  rewrite be_value_be_bytes, Z.mod_small by (split; [lia|]; change (256 ^ Z.of_nat 4) with (2 ^ 32); lia).
  unfold maximumPlaintextBytes. repeat rewrite (proj2 (Z.ltb_ge _ _)) by lia. cbn [orb].
  f_equal. apply subslice_app; lia.
Qed.

Lemma envelope_canonicalizable recipient locator enc ciphertext :
  canonicalizable (envelope_json (sealHeader recipient locator enc (b64_EncodeToString ciphertext))) = true.
Proof.
  unfold envelope_json, sealHeader. cbn [canonicalizable string_struct zip_with envelope_fields names map forallb fst snd
    ev_EnvelopeVersion ev_KEM ev_KDF ev_AEAD ev_RecipientKeyID ev_BundleLocator ev_Enc ev_Ciphertext].
  unfold recipientSelector. canonicalize.
Qed.

Lemma header_canonicalizable recipient locator enc :
  canonicalizable (envelope_header (sealHeader recipient locator enc [])) = true.
Proof.
  unfold envelope_header, sealHeader. cbn [canonicalizable string_struct zip_with header_fields names map forallb fst snd
    ev_EnvelopeVersion ev_KEM ev_KDF ev_AEAD ev_RecipientKeyID ev_BundleLocator ev_Enc ev_Ciphertext].
  unfold recipientSelector. canonicalize.
Qed.

(** The envelope opens to the signed text. *)
Lemma sealed_opens random entropy private recipient locator audience signed envelope digest :
  canonicalizable (signed_json signed) = true ->
  kem_public private = Some recipient -> kem_x25519 private = true -> len recipient = 32 -> len locator = 32 ->
  Seal (Some random) entropy recipient locator signed = Ok (envelope, digest) ->
  digest = sha256 envelope /\ 2 <= len envelope <= maximumEnvelopeBytes /\
  len (jcs_text (signed_json signed)) <= maximumPlaintextBytes /\
  openEnvelope envelope private (MkExpected audience locator) = Ok (jcs_text (signed_json signed)).
Proof.
  intros Hok Hpub Hx Hrec Hloc Hseal. unfold Seal in Hseal. case_top Hseal; [|done].
  destruct (ValidateSignedBundleV1 signed); [done|]. destruct (sealPlaintext random signed) as [plaintext|] eqn:Ep; [|done].
  destruct (sealed_frame _ _ _ Hok Ep) as (Hbucket & Hsmall & Hpad).
  case_top Hseal; [|done]. destruct (hpke_NewSender entropy recipient hpkeInfo) as [enc|] eqn:Ee; [|done].
  unfold canonicalTrustedJSON in Hseal.
  destruct (jcs_Transform (json_Marshal (envelope_header _))) as [aad|] eqn:Eaad; [|done].
  destruct (hpke_Seal entropy recipient hpkeInfo aad plaintext) as [ciphertext|] eqn:Ec; [|done].
  set (header := sealHeader recipient locator enc (b64_EncodeToString ciphertext)) in *.
  pose proof (envelope_canonicalizable recipient locator enc ciphertext) as Henv. fold header in Henv.
  rewrite jcs_Marshal in Hseal by done. case_top Hseal; [|done]. injection Hseal as <- <-. bool_props.
  assert (2 <= len (jcs_text (envelope_json header))) as Htwo by (by eapply jcs_object_len).
  split_and!; try done.
  destruct (envelope_decodes header Henv) as (d & Hd & Hdh); [done|].
  unfold openEnvelope. rewrite Hd, Hdh, jcs_text_canonical by done.
  cbn [header sealHeader ev_EnvelopeVersion ev_KEM ev_KDF ev_AEAD ev_RecipientKeyID ev_BundleLocator ev_Enc ev_Ciphertext ex_locator].
  rewrite !bool_decide_eq_true_2 by done. cbn [andb].
  rewrite <- (hpke_enc_size _ _ _ _ Ee), decodes_b64.
  assert (decodeCiphertext (b64_EncodeToString ciphertext) = Some ciphertext) as ->.
  { unfold decodeCiphertext. rewrite b64_roundtrip, bool_decide_eq_true_2 by done.
    rewrite (existsb_bucket _ (len plaintext) Hbucket); [done|]. apply Z.eqb_eq. by apply hpke_seal_size in Ec. }
  rewrite (hpke_enc_size _ _ _ _ Ee). rewrite <- Hloc at 1. rewrite decodes_b64, bool_decide_eq_true_2 by done.
  rewrite Hpub, Hx, Hrec. cbn [andb Z.eqb Pos.eqb]. rewrite bool_decide_eq_true_2 by done.
  change (envelope_header _) with (envelope_header (sealHeader recipient locator enc [])).
  rewrite Eaad, (hpke_correct _ _ _ _ _ _ _ _ Hpub Ee Ec), Hpad. done.
Qed.

(** ** Sealing succeeds *)

Lemma bucket_exists n : 0 < n <= maximumEnvelopePlaintext -> selectPlaintextBucket n <> 0 /\ n <= selectPlaintextBucket n <= 65536.
Proof.
  intros Hn. unfold maximumEnvelopePlaintext in Hn. unfold selectPlaintextBucket, plaintextBuckets. cbn [List.filter].
  repeat match goal with |- context [?a <=? ?b] => destruct (Z.leb_spec a b); cbn [head default id List.filter] end; cbn; lia.
Qed.

Lemma frame_exists random signed :
  canonicalizable (signed_json signed) = true -> len (json_Marshal (signed_json signed)) <= maximumEnvelopePlaintext ->
  len (jcs_text (signed_json signed)) + 4 <= maximumEnvelopePlaintext -> 65536 <= len random ->
  exists plaintext, sealPlaintext random signed = Ok plaintext.
Proof.
  intros Hok Hbody Htext Hrandom. unfold sealPlaintext, plaintextLengthBytes. rewrite (proj2 (Z.leb_le _ _)), jcs_Marshal by done.
  assert (2 <= len (jcs_text (signed_json signed))) as Htwo by (by eapply jcs_object_len).
  repeat rewrite (proj2 (Z.ltb_ge _ _)) by lia. cbn [negb orb].
  destruct (bucket_exists (len (jcs_text (signed_json signed)) + 4)) as [Hne Hle]; [lia|].
  rewrite (proj2 (Z.eqb_neq _ 0)) by done. cbn [negb]. unfold readPadding. rewrite (proj2 (Z.leb_le _ _)) by lia. by eexists.
Qed.

(** Base64 adds a third. *)
Lemma b64_length l : len (b64_EncodeToString l) <= 2 * len l.
Proof.
  unfold b64_EncodeToString. unfold len. rewrite length_map.
  assert (forall n l, (length l <= n)%nat -> (length (sextets l) <= 2 * length l)%nat) as Hn; [|specialize (Hn _ l (Nat.le_refl _)); lia].
  clear. induction n as [|n IH]; intros [|a [|b [|c l]]] Hl; cbn [length] in *; try (cbn; lia).
  cbn [sextets app length]. specialize (IH l ltac:(lia)). lia.
Qed.

(** The printed length of a constant. *)
Ltac text_length c := let n := eval vm_compute in (len (jcs_string c)) in change (len (jcs_string c)) with n.

(** The length of an object, at most. *)
Lemma object_len fields :
  len (print jcs_string (JObj fields)) <= 2 + foldr (fun f n => len (jcs_string f.1) + len (print jcs_string f.2) + 2 + n) 0 fields.
Proof.
  rewrite print_object, !len_app. change (len [x7b]) with 1. change (len [x7d]) with 1.
  assert (len (join_comma (map (member_text jcs_string) fields)) <=
          foldr (fun f n => len (jcs_string f.1) + len (print jcs_string f.2) + 2 + n) 0 fields); [|lia].
  destruct fields as [|f fields]; [done|]. rewrite map_cons, join_comma_cons, len_app. cbn [foldr]. unfold member_text at 1.
  rewrite !len_app. change (len [x3a]) with 1.
  assert (len (flat_map (fun q => [x2c] ++ q) (map (member_text jcs_string) fields)) <=
          foldr (fun f n => len (jcs_string f.1) + len (print jcs_string f.2) + 2 + n) 0 fields); [|lia].
  induction fields as [|g fields IH]; [done|]. rewrite map_cons. cbn [flat_map foldr]. unfold member_text at 1.
  rewrite !len_app. change (len [x2c]) with 1. change (len [x3a]) with 1. lia.
Qed.

Lemma envelope_small recipient locator enc ciphertext :
  len locator = 32 -> len enc = 32 -> len ciphertext <= 65552 ->
  len (jcs_text (envelope_json (sealHeader recipient locator enc (b64_EncodeToString ciphertext)))) <= maximumEnvelopeBytes.
Proof.
  intros Hl He Hc. unfold jcs_text.
  assert (len (recipientSelector recipient locator) <= 32) as Hsel.
  { unfold recipientSelector. etrans; [apply b64_length|]. unfold len. rewrite length_take. lia. }
  pose proof (b64_length locator). pose proof (b64_length enc). pose proof (b64_length ciphertext).
  pose proof (jcs_string_len (recipientSelector recipient locator)). pose proof (jcs_string_len (b64_EncodeToString locator)).
  pose proof (jcs_string_len (b64_EncodeToString enc)). pose proof (jcs_string_len (b64_EncodeToString ciphertext)).
  transitivity (2 + (len (jcs_string (recipientSelector recipient locator)) + len (jcs_string (b64_EncodeToString locator)) +
                     len (jcs_string (b64_EncodeToString enc)) + len (jcs_string (b64_EncodeToString ciphertext)) + 227)).
  2: { unfold maximumEnvelopeBytes. lia. }
  change (canonical _) with (JObj [
    (sbytes "aead", JStr aeadName); (sbytes "bundle_locator", JStr (b64_EncodeToString locator));
    (sbytes "ciphertext", JStr (b64_EncodeToString ciphertext)); (sbytes "enc", JStr (b64_EncodeToString enc));
    (sbytes "envelope_version", JStr envelopeVersion); (sbytes "kdf", JStr kdfName); (sbytes "kem", JStr kemName);
    (sbytes "recipient_key_id", JStr (recipientSelector recipient locator))]).
  etrans; [apply object_len|]. cbn [foldr fst snd print].
  text_length (sbytes "aead"); text_length aeadName; text_length (sbytes "bundle_locator"); text_length (sbytes "ciphertext"); text_length (sbytes "enc"); text_length (sbytes "envelope_version");
    text_length envelopeVersion; text_length (sbytes "kdf"); text_length kdfName; text_length (sbytes "kem"); text_length kemName; text_length (sbytes "recipient_key_id").
  lia.
Qed.
End Sealing.

(** ** Libraries *)

Definition issue_lib : Primitives :=
  Build_Primitives sample_sum (fun _ => true) (fun u => hex_encode u ++ repeat "-"%byte 4) toy_jcs.
Definition issue_uuid : UUIDText := sample_uuid_text.
#[export] Existing Instances issue_lib issue_uuid.
#[export] Instance issue_unicode : Unicode :=
  {| letter_table _ := false; digit_table _ := false; fold_table _ _ := false |}.

#[export] Instance issue_jcs_laws : JCSLaws.
Proof. by apply toy_jcs_laws. Qed.

#[export] Instance issue_uuid_laws : UUIDTextLaws.
Proof. destruct sample_text_laws as [Hl Hp Hn Hc]. split; [exact Hl|exact Hp|exact Hn|exact Hc]. Qed.

(** The public key is the seed; a signature is the key and the end of the
    message. *)
#[export] Instance issue_keys : Ed25519Keys :=
  {| ed25519_Public seed := seed; ed25519_Sign seed message := seed ++ sample_sum message |}.
#[export] Instance issue_ed25519 : Ed25519 :=
  {| ed25519_Verify key message signature := signature == key ++ sample_sum message |}.

#[export] Instance issue_ed25519_laws : Ed25519Laws.
Proof.
  split; cbn; [done| |by intros; apply bool_decide_eq_true_2].
  intros seed message Hs. rewrite len_app, Hs. unfold sample_sum, len. cbn [length]. rewrite length_take, length_app, repeat_length. unfold SeedSize, SignatureSize. lia.
Qed.

(** Sealing appends a tag of 16 bytes made of the key, the encapsulated key, the
    info and the associated data. *)
Definition issue_tag (key enc info aad : bytes) : bytes := take 16 (take 4 key ++ take 4 enc ++ take 4 info ++ take 4 aad ++ repeat x00 16).
Definition issue_enc : bytes := repeat x07 32.

#[export] Instance issue_hpke : HPKE := {|
  kem_private := bytes;
  kem_public key := Some key;
  kem_x25519 _ := true;
  hpke_Open key enc info aad ciphertext :=
    let n := (length ciphertext - 16)%nat in
    if drop n ciphertext == issue_tag key enc info aad then Some (take n ciphertext) else None |}.
#[export] Instance issue_sender : HPKESender := {|
  hpke_entropy := unit;
  hpke_PublicKey _ := true;
  hpke_NewSender _ _ _ := Some issue_enc;
  hpke_Seal _ key info aad plaintext := Some (plaintext ++ issue_tag key issue_enc info aad) |}.

Lemma issue_tag_length key enc info aad : length (issue_tag key enc info aad) = 16%nat.
Proof. unfold issue_tag. rewrite length_take, !length_app, repeat_length. lia. Qed.

#[export] Instance issue_hpke_laws : HPKELaws.
Proof.
  split.
  - intros e public info enc Henc. cbn in Henc. by injection Henc as <-.
  - intros e public info aad plaintext ciphertext Hc. cbn in Hc. injection Hc as <-.
    unfold len. rewrite length_app, issue_tag_length. unfold chacha20Poly1305TagBytes. lia.
  - intros private public e info aad plaintext enc ciphertext Hk He Hc. cbn in *. injection Hk as ->. injection He as <-. injection Hc as <-.
    rewrite length_app, issue_tag_length.
    replace (length plaintext + 16 - 16)%nat with (length plaintext) by lia.
    rewrite drop_app_length, take_app_length. by rewrite bool_decide_eq_true_2.
Qed.

(** ** Keys, metadata and a payload *)

Definition issue_root : bytes := repeat x01 32.
Definition issue_config : bytes := repeat x02 32.
Definition issue_device : bytes := repeat x03 32.
Definition issue_private : @kem_private issue_hpke := issue_device.
Definition issue_entropy : @hpke_entropy issue_sender := tt.
Definition issue_locator : bytes := repeat x04 32.
Definition issue_now : time := Date 2024 1 1 12 0 0 0.
Definition issue_ends : time := Date 2024 1 2 12 0 0 0.

Definition issue_root_id : bytes := Eval vm_compute in deriveKeyID rootKeyIDDomain issue_root.
Definition issue_config_id : bytes := Eval vm_compute in deriveKeyID configKeyIDDomain issue_config.

Definition issue_metadata : RootMetadataV1 :=
  MkRootMetadata metadataSchema (sbytes "1") issue_root_id signatureAlgorithm
    (sbytes "2024-01-01T00:00:00Z") (sbytes "2025-01-01T00:00:00Z")
    [MkSigningKey issue_config_id signatureAlgorithm (b64_EncodeToString issue_config) (sbytes "active")
       (sbytes "2024-01-01T00:00:00Z") (sbytes "2025-01-01T00:00:00Z")].

(** The policy as the database prints it, with a space. *)
Definition issue_payload : PayloadV1 :=
  MkPayloadV1 bundleSchema (uuid_String (repeat x06 16)) (b64_EncodeToString issue_locator) (sbytes "7")
    (uuid_String (repeat x05 16)) (sbytes "2024-01-01T12:00:00Z") (sbytes "2024-01-01T12:00:00Z") (sbytes "2024-01-02T12:00:00Z")
    ([x7b] ++ json_string (sbytes "mode") ++ sbytes ": " ++ json_string (sbytes "standard") ++ [x7d])
    (MkTestConfig (sbytes "hello") (sbytes "7")).

Definition issue_metadata_text : bytes := Eval vm_compute in jcs_text (metadata_json issue_metadata).
Definition issue_payload_text : bytes := Eval vm_compute in jcs_text (payload_json issue_payload (device_policy None)).
Definition issue_digest : bytes := Eval vm_compute in b64_EncodeToString (sha256 issue_payload_text).

Definition issue_record : SignedRootMetadataV1 :=
  MkSignedRoot issue_metadata_text (b64_EncodeToString (ed25519_Sign issue_root (metadataSignatureDomain ++ issue_metadata_text))).
Definition issue_signed : SignedBundleV1 :=
  MkSigned issue_payload_text issue_digest issue_config_id signatureAlgorithm
    (b64_EncodeToString (ed25519_Sign issue_config (bundleSignatureDomain ++ issue_payload_text))) [].

Definition issue_client : TrustMetadata :=
  MkTrustMetadata (jcs_text (root_json issue_record)) {[issue_root_id := issue_root]} 0.

(** ** Evaluated *)

Lemma issue_root_id_eq : deriveKeyID rootKeyIDDomain issue_root = issue_root_id.
Proof. vm_compute. reflexivity. Qed.
Lemma issue_config_id_eq : deriveKeyID configKeyIDDomain issue_config = issue_config_id.
Proof. vm_compute. reflexivity. Qed.
Lemma issue_digest_eq : b64_EncodeToString (sha256 issue_payload_text) = issue_digest.
Proof. vm_compute. reflexivity. Qed.
Lemma issue_metadata_canonical : CanonicalizeRootMetadataV1 issue_metadata = Ok issue_metadata_text.
Proof. vm_compute. reflexivity. Qed.
Lemma issue_payload_canonical : CanonicalizePayloadV1 issue_payload = Ok issue_payload_text.
Proof. vm_compute. reflexivity. Qed.
Lemma issue_signed_valid : ValidateSignedBundleV1 issue_signed = None.
Proof. vm_compute. reflexivity. Qed.
