(* ===== verification/TrustIssueTheorems.v ===== *)
(** The control plane and the trust client agree: what one issues the other
    accepts, and they judge metadata and keys alike. *)
From Stdlib Require Import ZArith Lia Strings.Byte.
From stdpp Require Import base gmap list strings numbers option.
From S2P Require Import Prelude GoStd GoTime AuthorityTypes Programs GoCrypto Text Tokens GoJson StrictJson.
From S2P Require Import TrustStore TrustJson TrustJsonTheorems TrustVerify TrustVerifyFacts TrustJcs.
From S2P Require Import TrustServer TrustSigner TrustSeal TrustServerFacts TrustIssue.

#[local] Open Scope go_scope.

(** ** Metadata and keys are judged alike *)

Section Agreement.
Context `{Primitives} `{UUIDText} `{Unicode}.

(** C25 (metadata_judged_alike): the trust client's check of a metadata payload
    accepts it at [now] exactly when the control plane's [ValidateRootMetadataV1]
    accepts it and [now] is in its window; and for accepted metadata the control
    plane's [SelectSigningKeyForVerification] gives a key exactly when the client
    finds this key for the signer and finds the interval inside the key's. *)
Theorem metadata_judged_alike payload now keyID notBefore expiresAt version validFrom validUntil publicKey :
  (validateMetadataPayload payload now = Some (version, validFrom, validUntil) <->
   ValidateRootMetadataV1 payload = None /\ parsePositiveUint (rm_Version payload) = Some version /\
   parseProtocolTime (rm_ValidFrom payload) = Some validFrom /\ parseProtocolTime (rm_ValidUntil payload) = Some validUntil /\
   upto validFrom now /\ t_nanos now < t_nanos validUntil) /\
  (ValidateRootMetadataV1 payload = None -> validKeyID keyID = true ->
   t_utc notBefore = true -> t_utc expiresAt = true -> 0 < t_nanos notBefore < t_nanos expiresAt ->
   SelectSigningKeyForVerification payload keyID notBefore expiresAt = Ok publicKey <->
   findSigningKey keyID (rm_SigningKeys payload) = Ok publicKey /\
   metadataKeyAuthorizes (rm_SigningKeys payload) keyID notBefore expiresAt = true).
Proof.
  split.
  - rewrite metadata_checks_agree. unfold Before, upto. split.
    + intros Hc. destruct (ValidateRootMetadataV1 payload); [done|]. do 3 (case_match; [|done]). case_match eqn:E; [|done].
      injection Hc as -> -> ->. bool_props. split_and!; done || lia.
    + intros (-> & -> & -> & -> & Hf & Hu). by rewrite (proj2 (Z.ltb_ge _ _)), (proj2 (Z.ltb_lt _ _)) by lia.
  - intros Hv Hk Hn He Ht. unfold SelectSigningKeyForVerification, selectSigningKey. rewrite Hv, Hk, Hn, He.
    unfold IsZero, After. rewrite !(proj2 (Z.eqb_neq _ 0)), (proj2 (Z.ltb_lt _ _)) by lia. cbn [not_nil is_nil negb orb].
    unfold ValidateRootMetadataV1 in Hv. do 2 (case_top Hv; [|done]). case_top Hv; [done|]. case_top Hv; [|done].
    match goal with Hr : validRootKeys _ _ _ _ _ = true |- _ => rewrite validRootKeys_client in Hr; by apply (selectKey_client _ _ _ _ _ _ _ _ Hr) end.
Qed.
End Agreement.

(** ** What is issued is accepted *)

Section Issue.
Context `{Primitives} `{!JCSLaws} `{UUIDText} `{!UUIDTextLaws} `{Unicode}.
Context `{Ed25519} `{Ed25519Keys} `{!Ed25519Laws} `{HPKE} `{HPKESender} `{!HPKELaws}.

(** What the control plane did: it signed metadata and a payload with local
    signers behind bounded ones, chose the key as [issueAuthorized] does, and
    sealed the bundle for [recipient]. *)
Record issuance (metadata : RootMetadataV1) (record : SignedRootMetadataV1) (rootSeed configSeed : bytes)
    (payload : PayloadV1) (policy : json) (trial : option bytes) (signed : SignedBundleV1)
    (recipient locator envelope digest : bytes) (notBefore expiresAt : time) : Prop := {
  is_seeds : len rootSeed = SeedSize /\ len configSeed = SeedSize;
  is_metadata : may_return (bounded_may rootKeyIDDomain rootSeed)
    (SignRootMetadataV1 (Some signer_ctx) metadata (Some signer_ops)) (Ok record);
  is_key : SelectSigningKeyForIssue metadata (sg_SignerKeyID signed) notBefore expiresAt = Ok (ed25519_Public configSeed);
  is_signed : may_return (bounded_may configKeyIDDomain configSeed)
    (SignBundleV1 (Some signer_ctx) payload (Some signer_ops)) (Ok signed);
  is_policy : policy_of payload policy trial;
  is_times : parseProtocolTime (pv_NotBefore payload) = Some notBefore /\ parseProtocolTime (pv_ExpiresAt payload) = Some expiresAt /\
    t_nanos expiresAt = t_nanos notBefore + 24 * Hour;
  is_locator : pv_BundleLocator payload = b64_EncodeToString locator /\ len locator = 32 /\ len recipient = 32;
  is_sealed : exists random entropy, Seal (Some random) entropy recipient locator signed = Ok (envelope, digest);
}.

(** What the device has: its private key, the metadata in any JSON spelling, the
    root key it trusts, and a clock at which all of it is in force. *)
Record device_ready (metadata : RootMetadataV1) (record : SignedRootMetadataV1) (rootSeed : bytes) (payload : PayloadV1)
    (trial : option bytes) (recipient : bytes) (notBefore expiresAt : time)
    (device : kem_private) (client : TrustMetadata) (now : time) (skew : Z) : Prop := {
  dr_key : kem_public device = Some recipient /\ kem_x25519 device = true;
  dr_record : states_record (tm_signed client) record;
  dr_root : tm_trustedRoots client !! rm_RootKeyID metadata = Some (ed25519_Public rootSeed);
  dr_fresh : forall v, parsePositiveUint (rm_Version metadata) = Some v -> tm_highestTrusted client < v;
  dr_window : t_nanos (protocolTime (rm_ValidFrom metadata)) <= t_nanos now < t_nanos (protocolTime (rm_ValidUntil metadata));
  dr_policy : trial_in_force trial (protocolTime (pv_IssuedAt payload)) expiresAt now;
  dr_now : t_nanos notBefore <= t_nanos now + skew /\ t_nanos now - skew < t_nanos expiresAt;
}.

(** A key that may issue may verify. *)
Lemma issue_verifies keyID notBefore expiresAt keys publicKey :
  selectKey keyID notBefore expiresAt false keys = Ok publicKey -> selectKey keyID notBefore expiresAt true keys = Ok publicKey.
Proof.
  induction keys as [|key keys IH]; [done|]. cbn [selectKey]. destruct (sk_KeyID key != keyID); [done|].
  by destruct (bool_decide (sk_State key = sbytes "active")); cbn [negb andb orb].
Qed.

(** An envelope that the control plane seals around a
    bundle it signed, with metadata it signed, passes every check of the trust
    client of the device it was sealed for, at any time at which the bundle, the
    metadata and the policy are in force: the client gets the version and the
    canonical payload that were signed, and the digest that was returned is that
    of the envelope. *)
Lemma issued_bundle_accepted metadata record rootSeed configSeed payload policy trial signed recipient locator envelope digest
    notBefore expiresAt device client now skew :
  issuance metadata record rootSeed configSeed payload policy trial signed recipient locator envelope digest notBefore expiresAt ->
  device_ready metadata record rootSeed payload trial recipient notBefore expiresAt device client now skew ->
  digest = sha256 envelope /\ 2 <= len envelope <= maximumEnvelopeBytes /\
  exists version, parsePositiveUint (pv_BundleVersion payload) = Some version /\
    verifyBundle envelope device client (MkExpected (pv_Audience payload) locator) now skew = Ok (version, sg_PayloadJCS signed).
Proof.
  intros [[Hroot Hconfig] Hmeta Hkey Hsign Hpol (Hnb & Hex & Hlife) (Hloc & H32 & Hrec) (random & entropy & Hseal)]
    [[Hpub Hx] Hrecord Htrust Hfresh Hwindow Htrial [Hnow1 Hnow2]].
  apply SignRootMetadataV1_inv in Hmeta as (rtext & Hrc & _ & Hrid & Hrecd).
  apply SignBundleV1_inv in Hsign as (text & Hc & Hvs & Hsigned).
  destruct (CanonicalizePayloadV1_text _ _ _ _ Hpol Hc) as (Hvp & _ & _ & _).
  destruct (CanonicalizeRootMetadataV1_text _ _ Hrc) as (Hvm & _ & _ & _).
  pose proof (ed25519_signature_size configSeed (bundleSignatureDomain ++ text) Hconfig) as Hsize.
  rewrite Hsigned in Hvs. destruct (signed_read_back _ _ _ _ _ _ Hpol Hc Hsize Hvs) as [Hcan Hback]. rewrite <- Hsigned in Hcan, Hback.
  destruct (sealed_opens _ _ device _ _ (pv_Audience payload) _ _ _ Hcan Hpub Hx Hrec H32 Hseal) as (Hdigest & Hlen & Hsmall & Hopen).
  split; [done|]. split; [done|].
  destruct (ValidatePayloadV1_inv _ Hvp) as (issuedAt & n & e & Hvalid).
  pose proof (pv_times _ _ _ _ Hvalid) as (Hi & Hn & He). rewrite Hn in Hnb. rewrite He in Hex. injection Hnb as ->. injection Hex as ->.
  unfold protocolTime in Htrial. rewrite Hi in Htrial.
  destruct (payload_accepted payload policy trial issuedAt notBefore expiresAt locator now skew Hvalid (proj1 (proj2 Hpol)) Htrial
              Hloc H32 Hlife Hnow1 Hnow2) as (version & Hversion & Haccept).
  exists version. split; [done|].
  assert (findSigningKey (sg_SignerKeyID signed) (rm_SigningKeys metadata) = Ok (ed25519_Public configSeed) /\
          metadataKeyAuthorizes (rm_SigningKeys metadata) (sg_SignerKeyID signed) notBefore expiresAt = true) as [Hfind Hauth].
  { unfold SelectSigningKeyForIssue, selectSigningKey in Hkey. case_top Hkey; [done|]. apply issue_verifies in Hkey.
    unfold ValidateRootMetadataV1 in Hvm. do 2 (case_top Hvm; [|done]). case_top Hvm; [done|]. case_top Hvm; [|done].
    match goal with Hr : validRootKeys _ _ _ _ _ = true |- _ => rewrite validRootKeys_client in Hr; by apply (selectKey_client _ _ _ _ _ _ _ _ Hr) end. }
  destruct (parsePositiveUint (rm_Version metadata)) as [rv|] eqn:Erv.
  2: { exfalso. unfold ValidateRootMetadataV1 in Hvm. rewrite positive_client, Erv in Hvm. cbn [not_nil is_nil negb] in Hvm.
       rewrite !orb_true_r in Hvm. by repeat case_match. }
  pose proof (metadata_verified rootSeed metadata rtext record client (sg_SignerKeyID signed) now rv (ed25519_Public configSeed)
                Hroot Hrc Hrid Hrecd Hrecord Htrust Erv (Hfresh rv eq_refl) Hwindow Hfind) as Hverified.
  unfold verifyBundle. rewrite Hopen, (Hback Hsmall), Hverified.
  rewrite Hsigned at 1. cbn [sg_Signature]. rewrite <- Hsize, decodes_b64.
  assert (sg_PayloadJCS signed = text) as -> by (by rewrite Hsigned).
  rewrite ed25519_correct by done. by rewrite Haccept, Hauth.
Qed.

(** Every signed bundle that is valid, has no padding and
    fits the plaintext limit is sealed, whatever its size, given 64 KiB of
    randomness and a recipient key that HPKE takes: no size check behind the first
    two fails, and the digest is that of the envelope. *)
Lemma sealing_succeeds random entropy recipient locator signed enc :
  ValidateSignedBundleV1 signed = None -> sg_Padding signed = [] -> canonicalizable (signed_json signed) = true ->
  len (json_Marshal (signed_json signed)) <= maximumEnvelopePlaintext ->
  len (jcs_text (signed_json signed)) + plaintextLengthBytes <= maximumEnvelopePlaintext ->
  65536 <= len random -> len locator = 32 -> hpke_PublicKey recipient = true ->
  hpke_NewSender entropy recipient hpkeInfo = Some enc ->
  (forall aad plaintext, is_Some (hpke_Seal entropy recipient hpkeInfo aad plaintext)) ->
  exists envelope, Seal (Some random) entropy recipient locator signed = Ok (envelope, sha256 envelope).
Proof.
  intros Hv Hpad Hok Hbody Htext Hrandom Hloc Hkey Henc Hseal.
  destruct (frame_exists random signed Hok Hbody Htext Hrandom) as [plaintext Hp].
  destruct (sealed_frame random signed plaintext Hok Hp) as (Hbucket & _ & _).
  unfold Seal. rewrite Hpad, bool_decide_eq_true_2, Hv, Hp, Hkey, Henc by done. unfold canonicalTrustedJSON.
  rewrite (jcs_Marshal (envelope_header _)) by apply header_canonicalizable.
  destruct (Hseal (jcs_text (envelope_header (sealHeader recipient locator enc []))) plaintext) as [ciphertext Hc]. rewrite Hc.
  rewrite (jcs_Marshal (envelope_json _)) by apply envelope_canonicalizable.
  rewrite (proj2 (Z.leb_le _ _)); [by eexists|]. apply envelope_small; [done|by eapply hpke_enc_size|].
  apply hpke_seal_size in Hc. unfold chacha20Poly1305TagBytes in Hc. rewrite Hc. revert Hbucket.
  unfold plaintextBucketSizes. rewrite !elem_of_cons. intros Hb. assert (len plaintext <= 65536); [|lia].
  destruct Hb as [-> | [-> | [-> | [-> | [-> | []%not_elem_of_nil]]]]]; lia.
Qed.
End Issue.

(** ** Examples *)

(** The signing calls of an issue, answered by the local signers. *)
Lemma issue_record_made :
  may_return (bounded_may rootKeyIDDomain issue_root) (SignRootMetadataV1 (Some signer_ctx) issue_metadata (Some signer_ops)) (Ok issue_record).
Proof.
  exists false. split; [done|]. exists issue_root_id. split; [right; symmetry; apply issue_root_id_eq|].
  cbn [rm_RootKeyID rm_RootAlgorithm issue_metadata]. rewrite !bool_decide_eq_true_2 by done. cbn [negb orb].
  rewrite issue_metadata_canonical. eexists (Ok _). split; [reflexivity|].
  cbn [bind]. rewrite ed25519_signature_size by done. done.
Qed.

Lemma issue_signed_made :
  may_return (bounded_may configKeyIDDomain issue_config) (SignBundleV1 (Some signer_ctx) issue_payload (Some signer_ops)) (Ok issue_signed).
Proof.
  exists false. split; [done|]. exists issue_config_id. split; [right; symmetry; apply issue_config_id_eq|].
  change (validKeyID issue_config_id) with true. cbn [negb]. rewrite issue_payload_canonical. eexists (Ok _). split; [reflexivity|].
  cbn [bind]. rewrite ed25519_signature_size by done. cbn [negb Z.eqb Pos.eqb SignatureSize]. exists issue_config_id. split; [right; symmetry; apply issue_config_id_eq|].
  cbn [bind]. rewrite issue_digest_eq. change (MkSigned _ _ _ _ _ _) with issue_signed. by rewrite issue_signed_valid.
Qed.

Definition issue_random : bytes := repeat x00 (Z.to_nat 65536).

Lemma issue_sealed : exists envelope,
  Seal (Some issue_random) issue_entropy issue_device issue_locator issue_signed = Ok (envelope, sha256 envelope).
Proof.
  apply (sealing_succeeds issue_random issue_entropy issue_device issue_locator issue_signed issue_enc);
    [apply issue_signed_valid|done|vm_compute; reflexivity|vm_compute; discriminate|vm_compute; discriminate| |done|done|done|by eexists].
  unfold issue_random, len. rewrite repeat_length. lia.
Qed.

Lemma issue_record_stated : states_record (tm_signed issue_client) issue_record.
Proof.
  assert (canonicalizable (root_json issue_record) = true) as Hok by (vm_compute; reflexivity).
  destruct (jcs_valid _ Hok) as [Hu He]. split; [exact (jcs_reads (root_json issue_record))|]. split; [exact Hu|]. split; [exact He|].
  vm_compute. split; discriminate.
Qed.

Lemma issue_ready :
  device_ready issue_metadata issue_record issue_root issue_payload None issue_device issue_now issue_ends
    issue_private issue_client issue_now Minute.
Proof.
  split; [done|apply issue_record_stated|apply lookup_singleton_eq| | |exact I|by vm_compute].
  - intros v Hv. vm_compute in Hv. injection Hv as <-. reflexivity.
  - by vm_compute.
Qed.

Lemma issue_made envelope :
  Seal (Some issue_random) issue_entropy issue_device issue_locator issue_signed = Ok (envelope, sha256 envelope) ->
  issuance issue_metadata issue_record issue_root issue_config issue_payload (device_policy None) None issue_signed
    issue_device issue_locator envelope (sha256 envelope) issue_now issue_ends.
Proof.
  intros Hs. split.
  - by split.
  - apply issue_record_made.
  - vm_compute. reflexivity.
  - apply issue_signed_made.
  - split; [vm_compute; reflexivity|]. by split.
  - split_and!; vm_compute; reflexivity.
  - split; [reflexivity|]. by split.
  - exists issue_random, issue_entropy. exact Hs.
Qed.

Lemma issued_bundle_accepted_witness : exists envelope version,
  Seal (Some issue_random) issue_entropy issue_device issue_locator issue_signed = Ok (envelope, sha256 envelope) /\
  verifyBundle envelope issue_private issue_client (MkExpected (pv_Audience issue_payload) issue_locator)
    issue_now Minute = Ok (version, issue_payload_text).
Proof.
  destruct issue_sealed as [envelope Hs]. exists envelope.
  destruct (issued_bundle_accepted issue_metadata issue_record issue_root issue_config issue_payload (device_policy None) None
              issue_signed issue_device issue_locator envelope (sha256 envelope) issue_now issue_ends issue_private issue_client
              issue_now Minute (issue_made envelope Hs) issue_ready)
    as (_ & _ & version & _ & Hv).
  exists version. split; [exact Hs|exact Hv].
Defined.

Lemma metadata_judged_alike_witness :
  SelectSigningKeyForVerification issue_metadata issue_config_id issue_now issue_ends = Ok issue_config.
Proof.
  apply (proj2 (metadata_judged_alike issue_metadata issue_now issue_config_id issue_now issue_ends 1 issue_now issue_now issue_config));
    [vm_compute; reflexivity|reflexivity|reflexivity|reflexivity|by vm_compute|].
  split; vm_compute; reflexivity.
Defined.
