(* ===== verification/DeviceBundle.v ===== *)
(** Bundle authority: [internal/deviceauth/token.go].

    An access token stands for a device while its family, its authorization, its
    device and its account are in order; [AuthorizeBundle] asks for all of it in a
    transaction of its own, [AuthorizeBundleInTransaction] in one of its caller.

    What an access token must stand for to authorize a bundle. *)
From Stdlib Require Import ZArith Lia Strings.Byte.
From stdpp Require Import base gmap list strings numbers option.
From S2P Require Import Prelude GoStd GoTime AuthorityTypes Ledger FenceStore Programs Transactions GoCrypto Text Sensitive Idempotency IdempotencyTheorems Tokens GoJson StrictJson Descriptors Events Outbox DeviceRows DeviceChallenge DeviceRotate DeviceSafety TrustJson TrustVerify TrustServer.

#[local] Open Scope go_scope.
#[local] Open Scope txn_scope.

(** ** Data *)

(** [store.DeviceauthDevicePolicySnapshot]; the policy is the text of its [jsonb]
    column. *)
Record PolicyRow := MkPolicyRow {
  pl_AuthorizationID : UUID;
  pl_SchemaVersion : bytes;
  pl_Policy : bytes;
  pl_CreatedAt : time }.

(** The tables the authorization of a bundle reads. *)
Record authority_state := MkAuthorityState { as_db : dstate; as_policies : gmap UUID PolicyRow }.

(** A row of [DiscoverDeviceAccessToken]: the rows it joins. *)
Record DiscoverAccessRow := MkDiscoverAccessRow {
  da_family : FamilyRow;
  da_authorization : AuthorizationRow;
  da_device : DeviceRow }.

Definition acc_FamilyID (r : DiscoverAccessRow) : UUID := fm_ID (da_family r).
Definition acc_AuthorizationID (r : DiscoverAccessRow) : UUID := fm_AuthorizationID (da_family r).
Definition acc_PrincipalID (r : DiscoverAccessRow) : UUID := az_PrincipalID (da_authorization r).
Definition acc_DeviceID (r : DiscoverAccessRow) : UUID := az_DeviceID (da_authorization r).

Record BundleAuthority := MkBundleAuthority {
  ba_AuthorizationID : UUID;
  ba_PrincipalID : UUID;
  ba_DeviceID : UUID;
  ba_HPKEPublicKey : bytes;
  ba_DeviceKeyVersion : Z;
  ba_PolicySchema : bytes;
  ba_Policy : bytes }.

Definition devicePolicySchema : bytes := sbytes "device-policy-v1".
Definition maximumDevicePolicyBytes : Z := 4096.
Definition standardPolicy : bytes := json_Marshal (JObj [(sbytes "mode", JStr (sbytes "standard"))]).

(** ** Statements *)

(** [WHERE f.access_token_hash = $1], which is unique. *)
Definition SelectAccess (digest : bytes) (s : dstate) : option DiscoverAccessRow :=
  f ← head (List.filter (fun f => fm_AccessTokenHash f == digest) (map_to_list (ds_families s)).*2);
  a ← ds_authorizations s !! fm_AuthorizationID f;
  d ← ds_devices s !! az_DeviceID a;
  Some (MkDiscoverAccessRow f a d).

(** ** Checks *)

Section Checks.
Context `{Primitives} `{UUIDText} `{Unicode}.

Definition validAccessAuthority (discovered : DiscoverAccessRow) (family : FamilyRow) (authorization : AuthorizationRow)
    (device : DeviceRow) (lockedRefresh freshRefresh : list RefreshRow) (digest : Digest) (now : time) : bool :=
  let df := da_family discovered in
  let da := da_authorization discovered in
  let dd := da_device discovered in
  if negb (len (fm_AccessTokenHash family) =? len digest) || (fm_AccessTokenHash family != digest) ||
     (acc_FamilyID discovered == uuid_Nil) || (acc_AuthorizationID discovered == uuid_Nil) ||
     (acc_PrincipalID discovered == uuid_Nil) || (acc_DeviceID discovered == uuid_Nil) ||
     (fm_ID family != acc_FamilyID discovered) || (fm_AuthorizationID family != acc_AuthorizationID discovered) ||
     (fm_State family != fm_State df) || (fm_AccessExpiresAt family != fm_AccessExpiresAt df) ||
     (fm_IdleExpiresAt family != fm_IdleExpiresAt df) || (fm_AbsoluteExpiresAt family != fm_AbsoluteExpiresAt df) ||
     (az_ID authorization != acc_AuthorizationID discovered) || (az_PrincipalID authorization != acc_PrincipalID discovered) ||
     (az_DeviceID authorization != acc_DeviceID discovered) || (az_State authorization != az_State da) ||
     negb (az_StateVersion authorization =? az_StateVersion da) ||
     negb (validAuthorizationMarker (az_State da) (az_ProvisionalUntil da) (az_ProvisionalUntil authorization) now) ||
     (dv_ID device != acc_DeviceID discovered) || (dv_PrincipalID device != acc_PrincipalID discovered) ||
     (dv_State device != dv_State dd) || negb (dv_KeyVersion device =? dv_KeyVersion dd) ||
     negb (len (dv_HpkePublicKey device) =? 32) || negb (len (dv_HpkePublicKey dd) =? 32) ||
     (dv_HpkePublicKey device != dv_HpkePublicKey dd) || negb (sameDeviceRefreshSet lockedRefresh freshRefresh)
  then false
  else (fm_State family == "active"%string) && After (fm_AccessExpiresAt family) now &&
       After (fm_IdleExpiresAt family) now && After (fm_AbsoluteExpiresAt family) now &&
       (dv_State device == "active"%string).

(** [json.Unmarshal] of a text into a string. *)
Definition unmarshalString (body : bytes) : option bytes :=
  match Token (NewDecoder body) with
  | Tok t d =>
      match readValue (body_fuel body) t d with
      | Some (v, d) =>
          match Token d, v with
          | TokEOF, TreeString s => Some s
          | TokEOF, TreeNull => Some []
          | _, _ => None
          end
      | None => None
      end
  | _ => None
  end.

Definition validDevicePolicy (row : DiscoverAccessRow) (policy : bytes) (now : time) : bool :=
  let state := az_State (da_authorization row) in
  if negb (json_value policy) || (len policy =? 0) || (maximumDevicePolicyBytes <? len policy) then false
  else
    match strictDecode policy maximumDevicePolicyBytes policy_target with
    | None => false
    | Some decoded =>
        let raw name := dc_raw (names ["mode"; "expires_at"; "max_devices"]) decoded (sbytes name) in
        let mode := dc_string decoded (sbytes "mode") in
        let expires := raw "expires_at"%string in
        let devices := raw "max_devices"%string in
        if (state == "active"%string) && (mode == sbytes "standard") then (len expires =? 0) && (len devices =? 0)
        else if ((state != "provisional"%string) && (state != "active"%string)) || (len expires =? 0) || (len devices =? 0)
        then false
        else
          match unmarshalString expires, unmarshalString devices with
          | Some expiresAt, Some maxDevices =>
              if (mode != sbytes "trial_restricted") || (maxDevices != sbytes "1") then false
              else
                match ParseRFC3339Nano expiresAt with
                | None => false
                | Some parsed =>
                    if IsZero parsed || (expiresAt != FormatRFC3339 (UTC parsed)) then false
                    else if state == "active"%string then true
                    else match az_ProvisionalUntil (da_authorization row) with
                         | Some until => After until now && (expiresAt == FormatRFC3339 (UTC until))
                         | None => false
                         end
                end
          | _, _ => false
          end
    end.

Definition effectiveDevicePolicy (row : DiscoverAccessRow) (policy : bytes) : bytes :=
  if az_State (da_authorization row) == "active"%string then standardPolicy else policy.

Definition bundleAuthorityFromRows (row : DiscoverAccessRow) (snapshot : PolicyRow) (accountActive : bool) (now : time) :
  option BundleAuthority :=
  let family := da_family row in
  let authorization := da_authorization row in
  let device := da_device row in
  if negb accountActive || (acc_AuthorizationID row == uuid_Nil) || (acc_PrincipalID row == uuid_Nil) ||
     (acc_DeviceID row == uuid_Nil) || (fm_State family != "active"%string) || (dv_State device != "active"%string) ||
     negb (After (fm_AccessExpiresAt family) now) || negb (After (fm_IdleExpiresAt family) now) ||
     negb (After (fm_AbsoluteExpiresAt family) now) || negb (len (dv_HpkePublicKey device) =? 32) ||
     (dv_KeyVersion device <=? 0) || (pl_AuthorizationID snapshot != acc_AuthorizationID row) ||
     (pl_SchemaVersion snapshot != devicePolicySchema) || negb (validDevicePolicy row (pl_Policy snapshot) now)
  then None
  else if negb (validAuthorizationMarker (az_State authorization) (az_ProvisionalUntil authorization)
                  (az_ProvisionalUntil authorization) now) then None
  else Some (MkBundleAuthority (acc_AuthorizationID row) (acc_PrincipalID row) (acc_DeviceID row)
               (dv_HpkePublicKey device) (u32 (dv_KeyVersion device)) (pl_SchemaVersion snapshot)
               (effectiveDevicePolicy row (pl_Policy snapshot))).
End Checks.

(** ** The transaction *)

Section Choice.
Context `{Protector}.

(** What the environment decides at one call: as for the device tables, and what
    the clock says ([None] when it panics). *)
Record authority_choice := MkAuthorityChoice { au_db : choice; au_clock : option time }.
End Choice.

Abbreviation atx := (txn authority_choice authority_state device_err).

Section Authorize.
Context `{Primitives} `{UUIDText} `{Protobuf} `{TimestampColumn} `{Protector} `{Unicode}.

(** A call on the device tables; its failure is a dependency error. *)
Definition on_device {A} (m : txn choice dstate device_err A) : atx A :=
  tx_or (tx_zoom au_db as_db (fun db s => MkAuthorityState db (as_policies s)) (fun e => e) m) DeviceDependencyUnavailable.

Definition GetDevicePolicySnapshot (authorizationID : UUID) : atx (option PolicyRow) :=
  tx_step (fun ch s => if ch_fails (au_db ch) then (Err DeviceDependencyUnavailable, s)
                       else (Ok (as_policies s !! authorizationID), s)).

Definition authority_now : atx (option time) := tx_step (fun ch s => (Ok (valid_now (au_clock ch)), s)).

(** A row, or the error for a row that is not there. *)
Definition found {A} (row : option A) : atx A :=
  match row with Some row => tx_ret row | None => tx_fail DeviceAuthenticationFailed end.

Definition authorizeBundleInDBTX (svc : device_service) (accessToken : bytes) : atx BundleAuthority :=
  let digest := DigestToken DeviceAccessToken accessToken in
  fail_if digest == zero_digest with DeviceAuthenticationFailed;
  do row <- on_device (query (fun _ s => SelectAccess digest s));
  do discovered <- found row;
  do lockedRefresh <- on_device (query (fun ch s => List.filter (fun r => ch_seen ch (rt_TokenHash r))
                                                      (SelectFamilyTokens (acc_FamilyID discovered) s)));
  do row <- on_device (query (fun _ s => ds_families s !! acc_FamilyID discovered));
  do family <- found row;
  do row <- on_device (query (fun _ s => ds_authorizations s !! acc_AuthorizationID discovered));
  do authorization <- found row;
  do row <- on_device (query (fun _ s => ds_devices s !! acc_DeviceID discovered));
  do device <- found row;
  do clock <- authority_now;
  match clock with
  | None => tx_fail DeviceDependencyUnavailable
  | Some now =>
      do accountActive <- on_device (ValidateDeviceAccountAuthority (uuid_String (acc_PrincipalID discovered)) now);
      do freshRefresh <- on_device (query (fun _ s => SelectFamilyTokens (acc_FamilyID discovered) s));
      do row <- GetDevicePolicySnapshot (acc_AuthorizationID discovered);
      do snapshot <- found row;
      fail_if negb (validAccessAuthority discovered family authorization device lockedRefresh freshRefresh digest now)
      with DeviceAuthenticationFailed;
      fail_if (az_State authorization == "provisional"%string) && negb (sv_EmailGrace svc) with DeviceAuthenticationFailed;
      found (bundleAuthorityFromRows discovered snapshot accountActive now)
  end.

(** [ctx.Err() != nil] is [cancelled]. *)
Definition AuthorizeBundleInTransaction `{NetURL} (cancelled : bool) (svc : device_service) (accessToken : bytes) : atx BundleAuthority :=
  fail_if negb (validPublicOrigin (sv_PublicBaseURL svc)) || cancelled with DeviceDependencyUnavailable;
  authorizeBundleInDBTX svc accessToken.

Definition AuthorizeBundle `{NetURL} (svc : device_service) (accessToken : bytes) (fate : tx_fate)
    (oracle : nat -> authority_choice) (s : authority_state) : result device_err BundleAuthority * authority_state :=
  if negb (validPublicOrigin (sv_PublicBaseURL svc)) then (Err DeviceDependencyUnavailable, s)
  else WithinTransaction DeviceRepositoryErr fate oracle (authorizeBundleInDBTX svc accessToken) s.

Definition Authenticate `{NetURL} (svc : device_service) (accessToken : bytes) := AuthorizeBundle svc accessToken.
End Authorize.

Section Authority.
Context `{Primitives} `{UUIDText} `{Protobuf} `{TimestampColumn} `{Protector} `{NetURL} `{Unicode}.
Implicit Types (s : authority_state).

(** The account is active, or inactive within the grace the program grants. *)
Definition account_in_order (principalID : UUID) (now : time) (s : authority_state) : Prop :=
  exists parsed account, parse_canonical (uuid_String principalID) = Some parsed /\
    ds_accounts (as_db s) !! parsed = Some account /\
    (ac_State account = "active"%string \/ is_Some (accountFixedGraceDeadline account now)).

(** The rows behind an authority, as they were when it was given at [now]. *)
Record authority_rows (svc : device_service) (accessToken : bytes) (now : time) s (authority : BundleAuthority)
    (family : FamilyRow) (authorization : AuthorizationRow) (device : DeviceRow) (snapshot : PolicyRow) : Prop := {
  ar_family : ds_families (as_db s) !! fm_ID family = Some family;
  ar_token : fm_AccessTokenHash family = DigestToken DeviceAccessToken accessToken;
  ar_family_state : fm_State family = "active"%string;
  ar_live : t_nanos now < t_nanos (fm_AccessExpiresAt family) /\ t_nanos now < t_nanos (fm_IdleExpiresAt family) /\
    t_nanos now < t_nanos (fm_AbsoluteExpiresAt family);
  ar_authorization : ds_authorizations (as_db s) !! fm_AuthorizationID family = Some authorization /\
    az_ID authorization = fm_AuthorizationID family;
  ar_marker : az_State authorization = "active"%string /\ az_ProvisionalUntil authorization = None \/
    az_State authorization = "provisional"%string /\ sv_EmailGrace svc = true /\
    exists until, az_ProvisionalUntil authorization = Some until /\ t_nanos now < t_nanos until;
  ar_device : ds_devices (as_db s) !! az_DeviceID authorization = Some device /\ dv_ID device = az_DeviceID authorization;
  ar_device_state : dv_State device = "active"%string /\ dv_PrincipalID device = az_PrincipalID authorization;
  ar_account : account_in_order (az_PrincipalID authorization) now s;
  ar_policy : as_policies s !! az_ID authorization = Some snapshot /\ pl_SchemaVersion snapshot = devicePolicySchema /\
    len (pl_Policy snapshot) <= maximumDevicePolicyBytes;
  ar_authority : authority = MkBundleAuthority (az_ID authorization) (az_PrincipalID authorization) (dv_ID device)
    (dv_HpkePublicKey device) (u32 (dv_KeyVersion device)) devicePolicySchema
    (if az_State authorization == "active"%string then standardPolicy else pl_Policy snapshot);
  ar_key : len (dv_HpkePublicKey device) = 32 /\ 0 < dv_KeyVersion device }.

Section Under.
Context {P : authority_choice -> Prop}.
Abbreviation may := (runs_under P).

Lemma on_device_runs {A} (m : txn choice dstate device_err A) s a s' :
  may (on_device m) s a s' -> exists db, runs m (as_db s) a db /\ s' = MkAuthorityState db (as_policies s).
Proof. unfold on_device. intros Hr. inv_run. by apply runs_zoom in Hr. Qed.

Lemma on_device_query {A} (f : choice -> dstate -> A) s a s' :
  may (on_device (query f)) s a s' -> s' = s /\ exists ch, a = f ch (as_db s).
Proof. intros (db & (-> & ch & ->)%query_runs & ->)%on_device_runs. split; [by destruct s|by exists ch]. Qed.

Lemma found_runs {A} (row : option A) s a s' : may (found row) s a s' -> s' = s /\ row = Some a.
Proof. unfold found. destruct row; intros Hr; inv_run; done. Qed.

Lemma snapshot_runs id s a s' : may (GetDevicePolicySnapshot id) s a s' -> s' = s /\ a = as_policies s !! id.
Proof. unfold GetDevicePolicySnapshot. intros (ch & _ & Hr)%runs_step_under. destruct (ch_fails _); by simplify_eq. Qed.

Lemma account_runs principalID now s b s' :
  may (on_device (ValidateDeviceAccountAuthority (uuid_String principalID) now)) s b s' ->
  s' = s /\ (b = true -> account_in_order principalID now s).
Proof.
  intros (db & Hr & ->)%on_device_runs. unfold ValidateDeviceAccountAuthority in Hr.
  destruct (parse_canonical _) as [parsed|] eqn:Ep; inv_run.
  apply query_runs in Hr as (-> & ch & ->). split; [by destruct s|].
  destruct (ds_accounts (as_db s) !! parsed) as [account|] eqn:Ea; [|done]. case_match; [done|]. intros Hb.
  exists parsed, account. split_and!; [done..|]. case_match; bool_props; [by left|right].
  destruct (accountFixedGraceDeadline account now); [by eexists|done].
Qed.

Lemma marker_state state discovered locked now : validAuthorizationMarker state discovered locked now = true ->
  state = "active"%string /\ discovered = None /\ locked = None \/
  state = "provisional"%string /\ exists d l, discovered = Some d /\ locked = Some l /\ t_nanos d = t_nanos l /\ t_nanos now < t_nanos d.
Proof.
  unfold validAuthorizationMarker, After, time_Equal. intros Hm. bool_props.
  destruct (state == "active"%string) eqn:Ea, (state == "provisional"%string) eqn:Ep, discovered, locked; bool_props; try done;
    (by left) || (right; split; [done|]; repeat eexists; lia).
Qed.

Lemma clock_runs s clock s' :
  may authority_now s clock s' -> s' = s /\ exists ch, P ch /\ clock = valid_now (au_clock ch).
Proof. unfold authority_now. intros (ch & Hc & Hr)%runs_step_under. simplify_eq. eauto. Qed.

(** The checks on the rows that were read. *)
Lemma checked_rows svc accessToken now s discovered family authorization device locked fresh snapshot accountActive authority :
  SelectAccess (DigestToken DeviceAccessToken accessToken) (as_db s) = Some discovered ->
  ds_families (as_db s) !! acc_FamilyID discovered = Some family ->
  ds_authorizations (as_db s) !! acc_AuthorizationID discovered = Some authorization ->
  ds_devices (as_db s) !! acc_DeviceID discovered = Some device ->
  as_policies s !! acc_AuthorizationID discovered = Some snapshot ->
  (accountActive = true -> account_in_order (acc_PrincipalID discovered) now s) ->
  validAccessAuthority discovered family authorization device locked fresh (DigestToken DeviceAccessToken accessToken) now = true ->
  (az_State authorization == "provisional"%string) && negb (sv_EmailGrace svc) = false ->
  bundleAuthorityFromRows discovered snapshot accountActive now = Some authority ->
  authority_rows svc accessToken now s authority family authorization device snapshot.
Proof.
  intros Hsel Hf Ha Hd Hp Hacc Hv Hgrace Hb. unfold SelectAccess in Hsel.
  destruct (head _) as [f|]; [|done]. cbn [mbind option_bind] in Hsel.
  destruct (ds_authorizations (as_db s) !! fm_AuthorizationID f) as [a|] eqn:Ea; [|done]. cbn [mbind option_bind] in Hsel.
  destruct (ds_devices (as_db s) !! az_DeviceID a) as [d|] eqn:Ed; [|done]. injection Hsel as <-.
  unfold acc_FamilyID, acc_AuthorizationID, acc_PrincipalID, acc_DeviceID in *. cbn [da_family da_authorization da_device] in *.
  rewrite Ea in Ha. injection Ha as <-. rewrite Ed in Hd. injection Hd as <-.
  unfold validAccessAuthority, acc_FamilyID, acc_AuthorizationID, acc_PrincipalID, acc_DeviceID in Hv.
  cbn [da_family da_authorization da_device] in Hv. case_top Hv; [done|].
  unfold bundleAuthorityFromRows, acc_FamilyID, acc_AuthorizationID, acc_PrincipalID, acc_DeviceID in Hb.
  cbn [da_family da_authorization da_device] in Hb. case_top Hb; [done|]. case_top Hb; [done|]. injection Hb as <-.
  bool_props. unfold After in *. bool_props.
  match goal with Hm : validAuthorizationMarker _ (az_ProvisionalUntil a) (az_ProvisionalUntil a) _ = true |- _ =>
    apply marker_state in Hm; rename Hm into Hmark end.
  split; try done; try congruence.
  - split_and!; congruence || lia.
  - destruct Hmark as [(Hst & Hn & _)|(Hst & until & _ & Hu & _ & _ & Hlt)]; [by left|right].
    split; [done|]. split; [|by eexists]. rewrite Hst in Hgrace. by apply negb_false_iff in Hgrace.
  - by apply Hacc.
  - split_and!; try congruence. match goal with Hpol : validDevicePolicy _ _ _ = true |- _ => unfold validDevicePolicy in Hpol; case_top Hpol; [done|] end. by bool_props.
  - unfold effectiveDevicePolicy. cbn [da_authorization]. f_equal; congruence.
Qed.

Lemma authorize_runs svc accessToken s authority s' :
  may (authorizeBundleInDBTX svc accessToken) s authority s' ->
  s' = s /\ exists ch now family authorization device snapshot,
    P ch /\ valid_now (au_clock ch) = Some now /\
    authority_rows svc accessToken now s authority family authorization device snapshot.
Proof.
  unfold authorizeBundleInDBTX. intros Hr. inv_run.
  repeat match goal with
  | Hq : may (on_device (query _)) _ _ _ |- _ => apply on_device_query in Hq as [-> [? ->]]
  | Hf : may (found ?r) _ _ _ |- _ => apply found_runs in Hf as [-> Hf]
  | Hc : may authority_now _ _ _ |- _ => apply clock_runs in Hc as (-> & ? & ? & ->)
  end.
  case_run Hr; inv_run.
  match goal with Ha : may (on_device (ValidateDeviceAccountAuthority _ _)) _ _ _ |- _ => apply account_runs in Ha as [-> Hacc] end.
  match goal with Hq : may (on_device (query _)) _ _ _ |- _ => apply on_device_query in Hq as [-> [? ->]] end.
  match goal with Hq : may (GetDevicePolicySnapshot _) _ _ _ |- _ => apply snapshot_runs in Hq as [-> ->] end.
  match goal with Hf : may (found (as_policies _ !! _)) _ _ _ |- _ => apply found_runs in Hf as [-> Hpol] end.
  apply found_runs in Hr as [-> Hr]. split; [done|]. bool_props.
  eexists _, _, _, _, _, _. split; [done|]. split; [done|]. eapply checked_rows; done.
Qed.
End Under.

(** The clock of the service as [service.now()] takes it. *)
Lemma valid_now_clock clock now : valid_now clock = Some now ->
  exists t, clock = Some t /\ now = UTC t /\ 2020 <= Year now <= 2100.
Proof.
  unfold valid_now. destruct clock as [t|]; [|done]. intros Hn. case_in Hn; [done|]. injection Hn as <-.
  exists t. bool_props. split_and!; [done..|lia|lia].
Qed.

(** C22 (bundle_authority_sound): an access token authorizes a bundle only for the
    authorization of a token family that is active and within its three deadlines
    at the time the clock of the service showed during the check (between 2020 and
    2100), for an authorization that is active, or provisional before its deadline
    with the grace enabled, an active device of the same account and an account in
    order at that time; the authority names this device and its key, and its policy
    is the standard one exactly for an active authorization. Nothing is changed,
    whatever the database and the clock do. *)
Theorem bundle_authority_sound svc accessToken fate oracle s r s' :
  AuthorizeBundle svc accessToken fate oracle s = (r, s') ->
  s' = s /\ forall authority, r = Ok authority -> exists i clock now family authorization device snapshot,
    au_clock (oracle i) = Some clock /\ now = UTC clock /\ 2020 <= Year now <= 2100 /\
    authority_rows svc accessToken now s authority family authorization device snapshot.
Proof.
  unfold AuthorizeBundle. case_match; [by intros [= <- <-]|]. intros Hw. destruct r as [authority|e].
  - apply (WithinTransaction_under (fun ch => exists i, ch = oracle i)) in Hw; [|eauto].
    apply authorize_runs in Hw as (-> & ch & now & family & authorization & device & snapshot & [i ->] & Hclock & Hrows).
    split; [done|]. intros ? [= <-]. apply valid_now_clock in Hclock as (t & Ht & Hnow & Hy).
    by exists i, t, now, family, authorization, device, snapshot.
  - split; [|done]. apply WithinTransaction_cases in Hw as [[-> _]|(_ & a & Hr)]; [done|].
    by apply authorize_runs in Hr as [-> _].
Qed.
End Authority.
