(* ===== verification/TrustRows.v ===== *)
(** The trust tables and the transaction of [internal/trust/postgres_repository.go]
    with the statements of [db/queries/trust.sql] and the constraints of the
    migration.

    A transaction sees these tables and those of the device service, the
    idempotency records and the outbox.  [ErrBundleNotFound] is an answer of
    [GetImmutableBundle] only. *)
From Stdlib Require Import ZArith Lia Strings.Byte.
From stdpp Require Import base gmap list sorting strings numbers option.
From S2P Require Import Prelude GoStd GoTime AuthorityTypes Ledger FenceStore Programs Transactions GoCrypto Text Sensitive Idempotency Tokens GoJson StrictJson Descriptors Events Outbox DeviceRows DeviceChallenge DeviceRotate DeviceBundle.
From S2P Require Import TrustStore TrustJson TrustVerify TrustServer TrustSigner TrustSeal.

#[local] Open Scope go_scope.
#[local] Open Scope txn_scope.

(** ** Tables *)

(** A row of [trust.highest_bundle_versions]. *)
Record HighestRow := MkHighestRow { hv_HighestIssued : Z; hv_UpdatedAt : time }.

(** [store.TrustBundleIssuance] *)
Record IssuanceRow := MkIssuanceRow {
  bi_ID : UUID;
  bi_AuthorizationID : UUID;
  bi_BundleVersion : Z;
  bi_LocatorHash : bytes;
  bi_LocatorCiphertext : bytes;
  bi_LocatorKeyVersion : Z;
  bi_Envelope : bytes;
  bi_EnvelopeSha256 : bytes;
  bi_SignerKeyID : bytes;
  bi_IssuedAt : time;
  bi_NotBefore : time;
  bi_ExpiresAt : time }.

(** A row of [trust.bundle_acknowledgements]; its key is the bundle and the
    authorization. *)
Record AckRow := MkAckRow { ak_BundleVersion : Z; ak_AcknowledgedAt : time }.

(** [store.TrustTrustRootMetadatum] *)
Record RootRow := MkRootRow {
  rr_Version : Z;
  rr_CanonicalPayload : bytes;
  rr_Signature : bytes;
  rr_ValidFrom : time;
  rr_ValidUntil : time;
  rr_CreatedAt : time }.

(** [store.TrustSigningKeyMetadatum] *)
Record KeyRow := MkKeyRow {
  kr_KeyID : bytes;
  kr_RootMetadataVersion : Z;
  kr_Algorithm : bytes;
  kr_PublicKey : bytes;
  kr_State : bytes;
  kr_NotBefore : time;
  kr_NotAfter : time }.

Record tstate := MkTState {
  tt_authority : authority_state;
  tt_highest : gmap UUID HighestRow;
  tt_issuances : gmap UUID IssuanceRow;
  tt_acks : gmap (UUID * UUID) AckRow;
  tt_roots : gmap Z RootRow;
  tt_keys : gmap bytes KeyRow }.

Definition with_authority (a : authority_state) (s : tstate) : tstate :=
  MkTState a (tt_highest s) (tt_issuances s) (tt_acks s) (tt_roots s) (tt_keys s).
Definition with_highest (t : gmap UUID HighestRow) (s : tstate) : tstate :=
  MkTState (tt_authority s) t (tt_issuances s) (tt_acks s) (tt_roots s) (tt_keys s).
Definition with_issuances (t : gmap UUID IssuanceRow) (s : tstate) : tstate :=
  MkTState (tt_authority s) (tt_highest s) t (tt_acks s) (tt_roots s) (tt_keys s).
Definition with_acks (t : gmap (UUID * UUID) AckRow) (s : tstate) : tstate :=
  MkTState (tt_authority s) (tt_highest s) (tt_issuances s) t (tt_roots s) (tt_keys s).
Definition with_roots (t : gmap Z RootRow) (s : tstate) : tstate :=
  MkTState (tt_authority s) (tt_highest s) (tt_issuances s) (tt_acks s) t (tt_keys s).
Definition with_keys (t : gmap bytes KeyRow) (s : tstate) : tstate :=
  MkTState (tt_authority s) (tt_highest s) (tt_issuances s) (tt_acks s) (tt_roots s) t.

Definition tt_device (s : tstate) : dstate := as_db (tt_authority s).

(** The tables of the device service, seen from the trust transaction. *)
Definition put_device (db : dstate) (s : tstate) : tstate :=
  with_authority (MkAuthorityState db (as_policies (tt_authority s))) s.

(** ** Values *)

Record bundleIssuance := MkBundleIssuance {
  bu_ID : UUID;
  bu_AuthorizationID : UUID;
  bu_BundleVersion : Z;
  bu_Locator : bytes;
  bu_Envelope : bytes;
  bu_EnvelopeSHA256 : bytes;
  bu_SignerKeyID : bytes;
  bu_IssuedAt : time;
  bu_NotBefore : time;
  bu_ExpiresAt : time }.

Record storedBundle := MkStoredBundle {
  sb_ID : UUID;
  sb_AuthorizationID : UUID;
  sb_BundleVersion : Z;
  sb_Locator : bytes;
  sb_EnvelopeSHA256 : bytes;
  sb_IssuedAt : time;
  sb_NotBefore : time;
  sb_ExpiresAt : time }.

Record transactionIdempotency := MkTransactionIdempotency {
  ti_record : IdempotencyRecord;
  ti_outcome : Outcome;
  ti_status : Z;
  ti_response : bytes }.

(** The errors of a request: one that is classified already ([apierrors.Error]), an
    error of this package, or [ErrApplication]. *)
Inductive trust_api :=
| ApiMalformedRequest | ApiAuthenticationFailed | ApiIdempotencyConflict | ApiStateConflict
| ApiSigningUnavailable | ApiDependencyUnavailable.

Inductive app_error :=
| AppClassified (e : trust_api)
| AppTrust (e : trust_error)
| AppApplication.

Abbreviation ErrRepository := (AppTrust TrustRepository).

Definition locatorProtectionDomain : bytes := sbytes "trust/bundle-locator/v1".

(** ** Texts *)

(** [base64.RawURLEncoding.DecodeString], which drops the bits left over. *)
Fixpoint unsextets_lax (l : list Z) : option bytes :=
  match l with
  | a :: b :: c :: d :: l =>
      match unsextets_lax l with
      | Some rest =>
          Some (byte_of_Z (Z.lor (Z.shiftl a 2) (Z.shiftr b 4)) ::
                byte_of_Z (Z.lor (Z.land (Z.shiftl b 4) 255) (Z.shiftr c 2)) ::
                byte_of_Z (Z.lor (Z.land (Z.shiftl c 6) 255) d) :: rest)
      | None => None
      end
  | [a; b; c] => Some [byte_of_Z (Z.lor (Z.shiftl a 2) (Z.shiftr b 4));
                       byte_of_Z (Z.lor (Z.land (Z.shiftl b 4) 255) (Z.shiftr c 2))]
  | [a; b] => Some [byte_of_Z (Z.lor (Z.shiftl a 2) (Z.shiftr b 4))]
  | [_] => None
  | [] => Some []
  end.

Definition b64_DecodeLax (s : bytes) : option bytes :=
  match mapM b64_val (List.filter (fun c => negb (bool_decide (c ∈ [x0a; x0d]))) s) with
  | Some values => unsextets_lax values
  | None => None
  end.

(** [hex.DecodeString] *)
Fixpoint hex_DecodeString (s : bytes) : option bytes :=
  match s with
  | [] => Some []
  | h :: l :: s =>
      h ← hex_value h; l ← hex_value l; rest ← hex_DecodeString s; Some (byte_of_Z (h * 16 + l) :: rest)
  | _ => None
  end.

(** ** Statements *)

Section Statements.
Context `{TimestampColumn}.

(** The upsert of [NextBundleVersion]; [None] is a violated constraint or a version
    beyond [bigint]. *)
Definition UpsertHighest (authorizationID : UUID) (updatedAt : time) (s : tstate) : option (Z * tstate) :=
  match tt_highest s !! authorizationID with
  | Some row =>
      if MaxInt64 <=? hv_HighestIssued row then None
      else let version := hv_HighestIssued row + 1 in
           Some (version, with_highest (<[authorizationID := MkHighestRow version (column_time updatedAt)]> (tt_highest s)) s)
  | None =>
      if is_nil (ds_authorizations (tt_device s) !! authorizationID) then None
      else Some (1, with_highest (<[authorizationID := MkHighestRow 1 (column_time updatedAt)]> (tt_highest s)) s)
  end.

(** The constraints of [trust.bundle_issuances] on one row, its keys and its
    references. *)
Definition issuance_checks (r : IssuanceRow) : bool :=
  (0 <? bi_BundleVersion r) && (len (bi_LocatorHash r) =? 32) &&
  (29 <=? len (bi_LocatorCiphertext r)) && (len (bi_LocatorCiphertext r) <=? 512) && (0 <? bi_LocatorKeyVersion r) &&
  (64 <=? len (bi_Envelope r)) && (len (bi_Envelope r) <=? 1048576) && (len (bi_EnvelopeSha256 r) =? 32) &&
  Before (bi_NotBefore r) (bi_ExpiresAt r).

Definition issuance_unique (r r' : IssuanceRow) : bool :=
  (bi_LocatorHash r' != bi_LocatorHash r) &&
  ((bi_AuthorizationID r' != bi_AuthorizationID r) || negb (bi_BundleVersion r' =? bi_BundleVersion r)).

Definition InsertBundleIssuance (r : IssuanceRow) (s : tstate) : option (unit * tstate) :=
  if not_nil (tt_issuances s !! bi_ID r) || negb (issuance_checks r) ||
     negb (forallb (issuance_unique r) (map_to_list (tt_issuances s)).*2) ||
     is_nil (ds_authorizations (tt_device s) !! bi_AuthorizationID r) || is_nil (tt_keys s !! bi_SignerKeyID r)
  then None
  else Some (tt, with_issuances (<[bi_ID r := r]> (tt_issuances s)) s).

Definition newer_version (a b : IssuanceRow) : Prop := bi_BundleVersion b <= bi_BundleVersion a.
#[export] Instance newer_version_dec : RelDecision newer_version.
Proof. intros a b. apply Z_le_dec. Defined.

(** [WHERE authorization_id=$1 ORDER BY bundle_version DESC LIMIT 1] *)
Definition GetLatestBundleIssuance (authorizationID : UUID) (s : tstate) : option IssuanceRow :=
  head (merge_sort newer_version
    (List.filter (fun r => bi_AuthorizationID r == authorizationID) (map_to_list (tt_issuances s)).*2)).

(** [WHERE locator_hash = $1 AND expires_at >= $2]; the hash is unique. *)
Definition GetBundleByLocatorHash (hash : bytes) (now : time) (s : tstate) : option IssuanceRow :=
  head (List.filter (fun r => (bi_LocatorHash r == hash) && negb (Before (bi_ExpiresAt r) (column_time now)))
          (map_to_list (tt_issuances s)).*2).

(** [ON CONFLICT (bundle_id, authorization_id) DO NOTHING] *)
Definition InsertBundleAcknowledgement (bundleID authorizationID : UUID) (version : Z) (at_ : time) (s : tstate) :
  option (unit * tstate) :=
  if (version <=? 0) || is_nil (tt_issuances s !! bundleID) || is_nil (ds_authorizations (tt_device s) !! authorizationID)
  then None
  else match tt_acks s !! (bundleID, authorizationID) with
       | Some _ => Some (tt, s)
       | None => Some (tt, with_acks (<[(bundleID, authorizationID) := MkAckRow version (column_time at_)]> (tt_acks s)) s)
       end.
End Statements.

(** ** The transaction *)

Section Choice.
Context `{Protector} `{HPKESender}.

(** What the environment decides at one call: as for the device tables, what the
    clock says, what a random source gives before it fails, what HPKE draws, what
    the signer answers and which test configuration is current. *)
Record tchoice := MkTChoice {
  tc_db : choice;
  tc_clock : option time;
  tc_random : bytes;
  tc_hpke : hpke_entropy;
  tc_cancelled : bool;
  tc_keyID : bytes;
  tc_signed : bytes -> result trust_error bytes;
  tc_current : option TestConfigV1 }.
End Choice.
Abbreviation ttx := (txn tchoice tstate app_error).

Section Methods.
Context `{Primitives} `{UUIDText} `{Protobuf} `{TimestampColumn} `{Protector} `{HPKESender}.

(** A query that changes nothing, and a statement that may violate a constraint. *)
Definition read {A} (f : tstate -> A) : ttx A :=
  tx_step (fun ch s => if ch_fails (tc_db ch) then (Err ErrRepository, s) else (Ok (f s), s)).

Definition write {A} (f : tstate -> option (A * tstate)) : ttx A :=
  tx_step (fun ch s =>
    if ch_fails (tc_db ch) then (Err ErrRepository, s)
    else match f s with Some (a, s') => (Ok a, s') | None => (Err ErrRepository, s) end).

(** A call on the idempotency records or the outbox. *)
Definition shared {A} (m : txn choice dstate device_err A) : ttx A :=
  tx_zoom tc_db tt_device put_device (fun _ => ErrRepository) m.

(** The response of a replay is taken at once. *)
Definition TrustBeginIdempotency (scope : Scope) (key canonical : bytes) (createdAt expiresAt : time) :
  ttx transactionIdempotency :=
  do begun <- shared (BeginIdempotency scope key canonical createdAt expiresAt);
  let '(record, outcome) := begun in
  if outcome == Replay then
    do body <- shared (TakeBody record);
    match body with
    | None => tx_fail ErrRepository
    | Some body => tx_ret (MkTransactionIdempotency record outcome (ir_responseStatus record) body)
    end
  else tx_ret (MkTransactionIdempotency record outcome (ir_responseStatus record) []).

Definition TrustCompleteIdempotency (value : transactionIdempotency) (status : Z) (body : bytes) : ttx unit :=
  shared (CompleteIdempotencyRecord (ti_record value) status body).

Definition TrustAppendEvent (envelope : EventEnvelope) : ttx unit := shared (AppendEvent envelope).

Definition NextBundleVersion (authorizationID : UUID) (updatedAt : time) : ttx Z :=
  fail_if (authorizationID == uuid_Nil) || IsZero updatedAt with ErrRepository;
  do version <- write (UpsertHighest authorizationID updatedAt);
  fail_if version <=? 0 with ErrRepository;
  tx_ret (u64 version).

Definition validBundleIssuance (value : bundleIssuance) : bool :=
  (bu_ID value != uuid_Nil) && (bu_AuthorizationID value != uuid_Nil) && (0 <? bu_BundleVersion value) &&
  (bu_BundleVersion value <=? MaxInt64) && (bu_Locator value != zero_digest) && (64 <=? len (bu_Envelope value)) &&
  (len (bu_Envelope value) <=? maximumEnvelopeBytes) && (sha256 (bu_Envelope value) == bu_EnvelopeSHA256 value) &&
  validKeyID (bu_SignerKeyID value) && negb (IsZero (bu_IssuedAt value)) && negb (IsZero (bu_NotBefore value)) &&
  negb (IsZero (bu_ExpiresAt value)) && negb (Before (bu_NotBefore value) (bu_IssuedAt value)) &&
  After (bu_ExpiresAt value) (bu_NotBefore value).

Definition validStoredRow (row : IssuanceRow) : bool :=
  (bi_ID row != uuid_Nil) && (bi_AuthorizationID row != uuid_Nil) && (0 <? bi_BundleVersion row) &&
  (len (bi_LocatorHash row) =? 32) && (29 <=? len (bi_LocatorCiphertext row)) && (len (bi_LocatorCiphertext row) <=? 512) &&
  (0 <? bi_LocatorKeyVersion row) && (64 <=? len (bi_Envelope row)) && (len (bi_Envelope row) <=? maximumEnvelopeBytes) &&
  (len (bi_EnvelopeSha256 row) =? 32) && (bi_EnvelopeSha256 row == sha256 (bi_Envelope row)) &&
  validKeyID (bi_SignerKeyID row) && negb (IsZero (bi_IssuedAt row)) && negb (IsZero (bi_NotBefore row)) &&
  negb (IsZero (bi_ExpiresAt row)) && negb (Before (bi_NotBefore row) (bi_IssuedAt row)) &&
  After (bi_ExpiresAt row) (bi_NotBefore row).

Definition storedBundleFromRow (row : IssuanceRow) : option storedBundle :=
  if negb (validStoredRow row) then None
  else
    match protector_Decrypt locatorProtectionDomain
            (MkEncryptedField (u32 (bi_LocatorKeyVersion row)) (bi_LocatorCiphertext row)) with
    | Err _ => None
    | Ok plaintext =>
        if negb (len plaintext =? 32) || (LocatorDigest plaintext != bi_LocatorHash row) then None
        else Some (MkStoredBundle (bi_ID row) (bi_AuthorizationID row) (u64 (bi_BundleVersion row)) plaintext
                     (bi_EnvelopeSha256 row) (UTC (bi_IssuedAt row)) (UTC (bi_NotBefore row)) (UTC (bi_ExpiresAt row)))
    end.

(** No row, or a row that reads as a bundle. *)
Definition bundle_of_row (row : option IssuanceRow) : ttx (option storedBundle) :=
  match row with
  | None => tx_ret None
  | Some row => match storedBundleFromRow row with
                | Some bundle => tx_ret (Some bundle)
                | None => tx_fail ErrRepository
                end
  end.

Definition LatestBundle (authorizationID : UUID) : ttx (option storedBundle) :=
  fail_if authorizationID == uuid_Nil with ErrRepository;
  do row <- read (GetLatestBundleIssuance authorizationID);
  bundle_of_row row.

Definition BundleByID (bundleID : UUID) : ttx (option storedBundle) :=
  fail_if bundleID == uuid_Nil with ErrRepository;
  do row <- read (fun s => tt_issuances s !! bundleID);
  bundle_of_row row.

(** The parameters of the insertion. *)
Definition issuance_row (value : bundleIssuance) (digest : bytes) (protected : EncryptedField) : IssuanceRow :=
  MkIssuanceRow (bu_ID value) (bu_AuthorizationID value) (bu_BundleVersion value) digest (ef_Ciphertext protected)
    (ef_KeyVersion protected) (bu_Envelope value) (bu_EnvelopeSHA256 value) (bu_SignerKeyID value)
    (column_time (bu_IssuedAt value)) (column_time (bu_NotBefore value)) (column_time (bu_ExpiresAt value)).

(** [protector.Encrypt] draws from a source of its own. *)
Definition encrypt_locator (locator : bytes) : ttx EncryptedField :=
  tx_step (fun ch s =>
    match protector_Encrypt (ch_entropy (tc_db ch)) locatorProtectionDomain locator with
    | Ok protected => (Ok protected, s)
    | Err _ => (Err ErrRepository, s)
    end).

Definition InsertBundle (value : bundleIssuance) : ttx unit :=
  fail_if negb (validBundleIssuance value) with ErrRepository;
  let digest := LocatorDigest (bu_Locator value) in
  fail_if digest == zero_digest with ErrRepository;
  do protected <- encrypt_locator (bu_Locator value);
  fail_if (ef_KeyVersion protected =? 0) || (2 ^ 31 - 1 <? ef_KeyVersion protected) ||
          (len (ef_Ciphertext protected) <? 29) || (512 <? len (ef_Ciphertext protected)) with ErrRepository;
  write (InsertBundleIssuance (issuance_row value digest protected)).

Definition InsertAcknowledgement (bundle : storedBundle) (acknowledgedAt : time) : ttx unit :=
  fail_if (sb_ID bundle == uuid_Nil) || (sb_AuthorizationID bundle == uuid_Nil) || (sb_BundleVersion bundle =? 0) ||
          (MaxInt64 <? sb_BundleVersion bundle) || IsZero acknowledgedAt with ErrRepository;
  write (InsertBundleAcknowledgement (sb_ID bundle) (sb_AuthorizationID bundle) (sb_BundleVersion bundle) acknowledgedAt).

(** ** The byte store *)

(** [GetImmutableBundle]; [unusable] says that its context is done, [fails] that the
    statement failed. *)
Definition GetImmutableBundle (unusable fails : bool) (digest : bytes) (now : time) (s : tstate) : lookup_result :=
  if unusable || (digest == zero_digest) || IsZero now then LookupFailed
  else if fails then LookupFailed
  else
    match GetBundleByLocatorHash digest now s with
    | None => LookupNotFound
    | Some row =>
        if negb (validStoredRow row) || (bi_LocatorHash row != digest) then LookupFailed
        else if negb (After (bi_ExpiresAt row) now) then LookupNotFound
        else LookupFound (MkImmutable (bi_Envelope row) (bi_EnvelopeSha256 row))
    end.
End Methods.
