(* ===== verification/TrustApplication.v ===== *)
(** Issuing, resolving and acknowledging bundles: [internal/trust/application.go].

    Each request is one transaction: it opens an idempotency record, authorizes the
    device, and then issues the next bundle, selects the current one, or records an
    acknowledgement.  [NewApplication] (and the check of its base URLs) is left
    out: a service is given by its metadata, its base URLs and the device service
    it asks. *)
From Stdlib Require Import ZArith Lia Strings.Byte.
From stdpp Require Import base gmap list sorting strings numbers option.
From S2P Require Import Prelude GoStd GoTime AuthorityTypes Ledger FenceStore Programs Transactions GoCrypto Text Sensitive Idempotency Tokens GoJson StrictJson Descriptors Events Outbox DeviceRows DeviceChallenge DeviceRotate DeviceBundle.
From S2P Require Import TrustStore TrustJson TrustVerify TrustServer TrustSigner TrustSeal TrustRows.

#[local] Open Scope go_scope.
#[local] Open Scope txn_scope.

(** ** Data *)

Definition bundleLifetime : Z := 24 * Hour.
Definition bundleIdempotencyRetention : Z := 24 * Hour.
Definition issueBundleOperation : bytes := sbytes "issue_bundle".
Definition resolveBundleOperation : bytes := sbytes "resolve_bundle".
Definition acknowledgeBundleOperation : bytes := sbytes "acknowledge_bundle".
Definition deviceCredentialDomain : bytes := sbytes "device".
Definition issueResponseStatus : Z := 200.
Definition resolveResponseStatus : Z := 200.
Definition acknowledgeResponseStatus : Z := 204.
Definition maximumReplayBytes : Z := Z.shiftl 64 10.

Record IssueCommand := MkIssueCommand {
  ic_AuthorizationID : UUID; ic_AccessToken : bytes; ic_TestConfig : TestConfigV1; ic_IdempotencyKey : bytes }.

Record IssuedBundle := MkIssuedBundle {
  nb_BundleID : UUID; nb_BundleVersion : Z; nb_Locator : bytes; nb_EnvelopeSHA256 : bytes }.

Record ResolveQuery := MkResolveQuery {
  rq_AuthorizationID : UUID; rq_AccessToken : bytes; rq_IdempotencyKey : bytes }.

(** [Locations] has three entries. *)
Record Resolution := MkResolution {
  rs_Locator : bytes; rs_EnvelopeSHA256 : bytes; rs_Locations : list bytes; rs_CacheControl : bytes }.

Record AcknowledgeCommand := MkAcknowledgeCommand {
  kc_AuthorizationID : UUID; kc_AccessToken : bytes; kc_BundleID : UUID; kc_BundleVersion : Z; kc_IdempotencyKey : bytes }.

(** The fields of the service a request reads. *)
Record trust_service := MkTrustService {
  av_device : device_service; av_metadata : RootMetadataV1; av_bundleBaseURLs : list bytes }.

Definition issued_fields : list bytes := names ["bundle_id"; "bundle_version"; "locator"; "envelope_sha256"].

(** ** Checks of the requests *)

Section Requests.
Context `{Primitives} `{UUIDText}.

Definition issue_request_json (authorizationID : UUID) (testConfig : TestConfigV1) : json :=
  JObj [(sbytes "authorization_id", JStr (uuid_String authorizationID));
        (sbytes "test_config", string_struct (names ["message"; "sequence"]) [tc_Message testConfig; tc_Sequence testConfig])].

Definition authorization_request_json (authorizationID : UUID) : json :=
  string_struct (names ["authorization_id"]) [uuid_String authorizationID].

Definition acknowledge_request_json (authorizationID bundleID : UUID) (bundleVersion : Z) : json :=
  string_struct (names ["authorization_id"; "bundle_id"; "bundle_version"])
    [uuid_String authorizationID; uuid_String bundleID; FormatUint bundleVersion 10].

Definition key_ok (key : bytes) : bool := match KeyDigest key with Ok _ => true | Err _ => false end.

Definition validTestConfig (value : TestConfigV1) : bool :=
  (len (tc_Message value) <=? maximumMessageBytes) && utf8_Valid (tc_Message value) &&
  positiveIntegerString (tc_Sequence value).

Definition validIssueCommand (command : IssueCommand) : bool :=
  (ic_AuthorizationID command != uuid_Nil) && (0 <? len (ic_AccessToken command)) && key_ok (ic_IdempotencyKey command) &&
  validTestConfig (ic_TestConfig command).

Definition validResolveQuery (query : ResolveQuery) : bool :=
  (rq_AuthorizationID query != uuid_Nil) && (0 <? len (rq_AccessToken query)) && key_ok (rq_IdempotencyKey query).

Definition validAcknowledgeCommand (command : AcknowledgeCommand) : bool :=
  (kc_AuthorizationID command != uuid_Nil) && (kc_BundleID command != uuid_Nil) && (0 <? kc_BundleVersion command) &&
  (0 <? len (kc_AccessToken command)) && key_ok (kc_IdempotencyKey command).
End Requests.

(** ** The stored responses *)

Section Replays.
Context `{Primitives} `{UUIDText} `{Unicode} `{HPKESender}.

Definition encodeIssuedReplay (value : IssuedBundle) : option bytes :=
  if (nb_BundleID value == uuid_Nil) || (nb_BundleVersion value =? 0) || negb (len (nb_Locator value) =? 32) ||
     (nb_EnvelopeSHA256 value == zero_digest)
  then None
  else canonicalTrustedJSON (string_struct issued_fields
         [uuid_String (nb_BundleID value); FormatUint (nb_BundleVersion value) 10; b64_EncodeToString (nb_Locator value);
          hex_encode (nb_EnvelopeSHA256 value)]).

Definition decodeIssuedReplay (body : bytes) : option IssuedBundle :=
  if (len body =? 0) || (maximumReplayBytes <? len body) then None
  else
    match decode_strings issued_fields maximumReplayBytes body with
    | Some [bundleID; bundleVersion; locator; digest] =>
        id ← uuid_Parse bundleID;
        version ← ParseUint bundleVersion 10 64;
        raw ← b64_DecodeLax locator;
        sum ← hex_DecodeString digest;
        if (id == uuid_Nil) || (uuid_String id != bundleID) || (version =? 0) || negb (len raw =? 32) || negb (len sum =? 32)
        then None
        else Some (MkIssuedBundle id version raw sum)
    | _ => None
    end.

Definition resolution_json (value : Resolution) : json :=
  JObj [(sbytes "locator", JStr (rs_Locator value)); (sbytes "envelope_sha256", JStr (rs_EnvelopeSHA256 value));
        (sbytes "locations", JList (map JStr (rs_Locations value))); (sbytes "cache_control", JStr (rs_CacheControl value))].

Definition resolution_target : gotype :=
  GoStruct [] [go_field GoString (sbytes "locator"); go_field GoString (sbytes "envelope_sha256");
               go_field (GoArray 3 GoString) (sbytes "locations"); go_field GoString (sbytes "cache_control")].

Definition validResolution (value : Resolution) : bool :=
  match b64_DecodeLax (rs_Locator value), hex_DecodeString (rs_EnvelopeSHA256 value) with
  | Some locator, Some digest =>
      (len locator =? 32) && (len digest =? 32) && (rs_CacheControl value == ImmutableCacheControl) &&
      forallb (has_suffix (sbytes "/b/" ++ rs_Locator value)) (rs_Locations value)
  | _, _ => false
  end.

Definition encodeResolutionReplay (value : Resolution) : option bytes :=
  if negb (validResolution value) then None else canonicalTrustedJSON (resolution_json value).

(** The strings of a decoded array of three. *)
Definition three_strings (v : goval) : list bytes :=
  match v with
  | VList items => map (fun v => match v with VString s => s | _ => [] end) items
  | _ => repeat [] 3
  end.

Definition decodeResolutionReplay (body : bytes) : option Resolution :=
  if (len body =? 0) || (maximumReplayBytes <? len body) then None
  else
    match strictDecode body maximumReplayBytes resolution_target with
    | None => None
    | Some decoded =>
        let v := dc_value decoded in
        let result := MkResolution (field_string v (sbytes "locator")) (field_string v (sbytes "envelope_sha256"))
                        (three_strings (field_struct v (sbytes "locations"))) (field_string v (sbytes "cache_control")) in
        if validResolution result then Some result else None
    end.
End Replays.

(** ** Errors *)

(** An error of the device service is classified already; any other is a dependency
    error. *)
Definition device_api (e : device_err) : trust_api :=
  match e with
  | DeviceMalformedRequest => ApiMalformedRequest
  | DeviceAuthenticationFailed => ApiAuthenticationFailed
  | DeviceIdempotencyConflict => ApiIdempotencyConflict
  | DeviceStateConflict => ApiStateConflict
  | _ => ApiDependencyUnavailable
  end.

Definition collapseTrustError (e : app_error) : trust_api :=
  match e with
  | AppClassified e => e
  | AppTrust (TrustSignerTimeout | TrustSignerFailure | TrustClosed | TrustKeyUnavailable) => ApiSigningUnavailable
  | AppTrust (TrustInvalidArgument | TrustInvalidPayload) => ApiMalformedRequest
  | _ => ApiDependencyUnavailable
  end.

(** ** Calls of a transaction *)

Section Service.
Context `{Primitives} `{UUIDText} `{Protobuf} `{TimestampColumn} `{Protector} `{NetURL} `{Unicode} `{HPKESender}.

(** [service.now()]; the transaction turns a panic of the clock into an error. *)
Definition trust_now : ttx time :=
  tx_step (fun ch s =>
    match tc_clock ch with
    | None => (Err ErrRepository, s)
    | Some t => if IsZero t then (Err AppApplication, s) else (Ok (Truncate (UTC t) Second), s)
    end).

(** [randomUUID] of a source that gives [random] before it fails. *)
Definition trust_randomUUID (random : bytes) : option UUID :=
  value ← readPadding random 16;
  let result := set_bits 8 0x3f 0x80 (set_bits 6 0x0f 0x40 value) in
  if result == uuid_Nil then None else Some result.

Definition draw_id : ttx UUID :=
  tx_step (fun ch s => match trust_randomUUID (tc_random ch) with
                       | Some id => (Ok id, s)
                       | None => (Err AppApplication, s)
                       end).

Definition draw_locator : ttx bytes :=
  tx_step (fun ch s => match readPadding (tc_random ch) 32 with
                       | Some locator => (Ok locator, s)
                       | None => (Err AppApplication, s)
                       end).

(** [service.signer.KeyID()] *)
Definition signer_KeyID : ttx bytes := tx_step (fun ch s => (Ok (tc_keyID ch), s)).

Definition signer_answer (X : Type) (c : signer_call X) (ch : tchoice) : X :=
  match c in signer_call X return X with
  | CtxErr => tc_cancelled ch
  | CallKeyID => tc_keyID ch
  | CallSign message => tc_signed ch message
  end.

(** The value of a call of this package, or its error. *)
Definition or_fail {A} (r : result trust_error A) : ttx A :=
  match r with Ok a => tx_ret a | Err e => tx_fail (AppTrust e) end.

Definition sign_bundle (payload : PayloadV1) : ttx SignedBundleV1 :=
  do signed <- tx_prog signer_answer (SignBundleV1 (Some signer_ctx) payload (Some signer_ops));
  or_fail signed.

Definition seal_bundle (recipient locator : bytes) (signed : SignedBundleV1) : ttx (bytes * bytes) :=
  tx_step (fun ch s => match Seal (Some (tc_random ch)) (tc_hpke ch) recipient locator signed with
                       | Ok sealed => (Ok sealed, s)
                       | Err e => (Err (AppTrust e), s)
                       end).

(** [service.testConfig.Current] *)
Definition current_config : ttx (option TestConfigV1) := tx_step (fun ch s => (Ok (tc_current ch), s)).

Definition context_done : ttx bool := tx_step (fun ch s => (Ok (tc_cancelled ch), s)).

Definition beginTrustIdempotency (authorizationID : UUID) (operation key canonical : bytes) (now : time) :
  ttx transactionIdempotency :=
  match AuthenticatedScope authorizationID deviceCredentialDomain operation with
  | Err _ => tx_fail (AppClassified ApiMalformedRequest)
  | Ok scope => TrustBeginIdempotency scope key canonical now (time_Add now bundleIdempotencyRetention)
  end.

Definition authorize (svc : trust_service) (authorizationID : UUID) (accessToken : bytes) : ttx BundleAuthority :=
  do cancelled <- context_done;
  do authority <- tx_zoom (fun ch => MkAuthorityChoice (tc_db ch) (tc_clock ch)) tt_authority with_authority
                    (fun e => AppClassified (device_api e))
                    (AuthorizeBundleInTransaction cancelled (av_device svc) accessToken);
  fail_if (ba_AuthorizationID authority != authorizationID) || (ba_PrincipalID authority == uuid_Nil) ||
          (ba_DeviceID authority == uuid_Nil) || (ba_HPKEPublicKey authority == zero_digest) ||
          (ba_DeviceKeyVersion authority =? 0) || (ba_PolicySchema authority != devicePolicySchema) ||
          negb (validDevicePolicyV1 (ba_Policy authority))
  with AppClassified ApiAuthenticationFailed;
  tx_ret authority.

(** ** Issuing *)

Definition bundle_payload (bundleID : UUID) (locator : bytes) (version : Z) (authority : BundleAuthority)
    (testConfig : TestConfigV1) (now : time) : PayloadV1 :=
  MkPayloadV1 bundleSchema (uuid_String bundleID) (b64_EncodeToString locator) (FormatUint version 10)
    (uuid_String (ba_AuthorizationID authority)) (FormatRFC3339 now) (FormatRFC3339 now)
    (FormatRFC3339 (time_Add now bundleLifetime)) (ba_Policy authority) testConfig.

(** The envelope of a trust event. *)
Definition trust_event (eventType : bytes) (eventID bundleID : UUID) (version : Z) (now : time) (payload : bytes) : EventEnvelope :=
  MkEventEnvelope (uuid_String eventID) eventType (Some (timestamp_New now)) (sbytes "trust") (sbytes "bundle")
    (uuid_String bundleID) version (uuid_String eventID) [] payload false.

Definition marshal_event (eventType : bytes) (p : payload) : ttx bytes :=
  match MarshalPayload eventType (MkMessage p false) with
  | Ok encoded => tx_ret encoded
  | Err _ => tx_fail AppApplication
  end.

Definition issueAuthorized (svc : trust_service) (authority : BundleAuthority) (testConfig : TestConfigV1) (now : time) :
  ttx (IssuedBundle * EventEnvelope) :=
  do version <- tx_or (NextBundleVersion (ba_AuthorizationID authority) now) (AppClassified ApiStateConflict);
  fail_if (version =? 0) || (MaxInt64 <? version) || (tc_Sequence testConfig != FormatUint version 10)
  with AppClassified ApiStateConflict;
  do bundleID <- draw_id;
  do eventID <- draw_id;
  do locator <- draw_locator;
  let expiresAt := time_Add now bundleLifetime in
  do keyID <- signer_KeyID;
  also or_fail (SelectSigningKeyForIssue (av_metadata svc) keyID now expiresAt);
  do signed <- sign_bundle (bundle_payload bundleID locator version authority testConfig now);
  do sealed <- seal_bundle (ba_HPKEPublicKey authority) locator signed;
  let '(envelope, envelopeDigest) := sealed in
  do signerKeyID <- signer_KeyID;
  also tx_or (InsertBundle (MkBundleIssuance bundleID (ba_AuthorizationID authority) version locator envelope envelopeDigest
                              signerKeyID now now expiresAt)) ErrRepository;
  do payloadBytes <- marshal_event BundleIssuedType
                       (BundleIssued (uuid_String (ba_AuthorizationID authority)) (uuid_String bundleID)
                          (FormatUint version 10) (hex_encode envelopeDigest));
  tx_ret (MkIssuedBundle bundleID version locator envelopeDigest,
          trust_event BundleIssuedType eventID bundleID version now payloadBytes).

(** ** [Issue] *)

Definition issue_tx (svc : trust_service) (command : IssueCommand) (canonical : bytes) : ttx IssuedBundle :=
  do now <- trust_now;
  do entry <- beginTrustIdempotency (ic_AuthorizationID command) issueBundleOperation (ic_IdempotencyKey command) canonical now;
  match ti_outcome entry with
  | Replay =>
      match decodeIssuedReplay (ti_response entry) with
      | Some replayed => if ti_status entry =? issueResponseStatus then tx_ret replayed else tx_fail ErrRepository
      | None => tx_fail ErrRepository
      end
  | Conflict => tx_fail (AppClassified ApiIdempotencyConflict)
  | InProgress => tx_fail (AppClassified ApiStateConflict)
  | Started =>
      do authority <- authorize svc (ic_AuthorizationID command) (ic_AccessToken command);
      do made <- issueAuthorized svc authority (ic_TestConfig command) now;
      let '(issued, event) := made in
      match encodeIssuedReplay issued with
      | None => tx_fail AppApplication
      | Some body =>
          also tx_or (TrustAppendEvent event) ErrRepository;
          also tx_or (TrustCompleteIdempotency entry issueResponseStatus body) ErrRepository;
          tx_ret issued
      end
  end.

(** A request that is well formed runs its transaction. *)
Definition request {A} (valid : bool) (canonical : option bytes) (operation : bytes -> ttx A) (fate : tx_fate)
    (oracle : nat -> tchoice) (s : tstate) : result trust_api A * tstate :=
  if negb valid then (Err ApiMalformedRequest, s)
  else
    match canonical with
    | None => (Err ApiMalformedRequest, s)
    | Some canonical =>
        match WithinTransaction ErrRepository fate oracle (operation canonical) s with
        | (Ok a, s') => (Ok a, s')
        | (Err e, s') => (Err (collapseTrustError e), s')
        end
    end.

(** [cancelled] is [ctx.Err() != nil] at the start. *)
Definition Issue (svc : trust_service) (cancelled : bool) (command : IssueCommand) : tx_fate -> (nat -> tchoice) -> tstate ->
    result trust_api IssuedBundle * tstate :=
  request (negb cancelled && validIssueCommand command)
    (canonicalTrustedJSON (issue_request_json (ic_AuthorizationID command) (ic_TestConfig command))) (issue_tx svc command).

(** ** [Resolve] *)

Definition resolution (svc : trust_service) (bundle : storedBundle) : result trust_error Resolution :=
  if negb (len (sb_Locator bundle) =? 32) || (sb_EnvelopeSHA256 bundle == zero_digest) then Err TrustRepository
  else
    let locator := b64_EncodeToString (sb_Locator bundle) in
    Ok (MkResolution locator (hex_encode (sb_EnvelopeSHA256 bundle))
          (map (fun baseURL => baseURL ++ sbytes "/b/" ++ locator) (av_bundleBaseURLs svc)) ImmutableCacheControl).

(** The bundle a resolution gives: the latest one when it is current, or a new one. *)
Definition select_bundle (svc : trust_service) (query : ResolveQuery) (authority : BundleAuthority) (current : TestConfigV1)
    (target : Z) (latest : option storedBundle) (now : time) : ttx storedBundle :=
  let reusable := match latest with
                  | Some latest => (target <=? sb_BundleVersion latest) && negb (Before now (sb_NotBefore latest)) &&
                                   Before now (sb_ExpiresAt latest)
                  | None => false
                  end in
  match reusable, latest with
  | true, Some latest => tx_ret latest
  | _, _ =>
      fail_if (match latest with Some latest => negb (target =? u64 (sb_BundleVersion latest + 1)) | None => negb (target =? 1) end)
      with AppClassified ApiStateConflict;
      do made <- issueAuthorized svc authority current now;
      let '(issued, event) := made in
      also tx_or (TrustAppendEvent event) ErrRepository;
      tx_ret (MkStoredBundle (nb_BundleID issued) (rq_AuthorizationID query) (nb_BundleVersion issued) (nb_Locator issued)
                (nb_EnvelopeSHA256 issued) now now (time_Add now bundleLifetime))
  end.

Definition resolve_tx (svc : trust_service) (query : ResolveQuery) (canonical : bytes) : ttx Resolution :=
  do now <- trust_now;
  do entry <- beginTrustIdempotency (rq_AuthorizationID query) resolveBundleOperation (rq_IdempotencyKey query) canonical now;
  match ti_outcome entry with
  | Replay =>
      match decodeResolutionReplay (ti_response entry) with
      | Some replayed => if ti_status entry =? resolveResponseStatus then tx_ret replayed else tx_fail ErrRepository
      | None => tx_fail ErrRepository
      end
  | Conflict => tx_fail (AppClassified ApiIdempotencyConflict)
  | InProgress => tx_fail (AppClassified ApiStateConflict)
  | Started =>
      do authority <- authorize svc (rq_AuthorizationID query) (rq_AccessToken query);
      do current <- current_config;
      match current with
      | None => tx_fail AppApplication
      | Some current =>
          fail_if negb (validTestConfig current) with AppApplication;
          match ParseUint (tc_Sequence current) 10 64 with
          | None => tx_fail AppApplication
          | Some target =>
              fail_if (target =? 0) || (MaxInt64 <? target) with AppApplication;
              do latest <- tx_or (LatestBundle (rq_AuthorizationID query)) ErrRepository;
              do selected <- select_bundle svc query authority current target latest now;
              do result <- or_fail (resolution svc selected);
              match encodeResolutionReplay result with
              | None => tx_fail AppApplication
              | Some body =>
                  also tx_or (TrustCompleteIdempotency entry resolveResponseStatus body) ErrRepository;
                  tx_ret result
              end
          end
      end
  end.

Definition Resolve (svc : trust_service) (cancelled : bool) (query : ResolveQuery) : tx_fate -> (nat -> tchoice) -> tstate ->
    result trust_api Resolution * tstate :=
  request (negb cancelled && validResolveQuery query)
    (canonicalTrustedJSON (authorization_request_json (rq_AuthorizationID query))) (resolve_tx svc query).

(** ** [Acknowledge] *)

Definition acknowledgementEvent (bundle : storedBundle) (now : time) : ttx EventEnvelope :=
  do eventID <- draw_id;
  do payload <- marshal_event BundleAcknowledgedType
                  (BundleAcknowledged (uuid_String (sb_AuthorizationID bundle)) (uuid_String (sb_ID bundle))
                     (FormatUint (sb_BundleVersion bundle) 10));
  tx_ret (trust_event BundleAcknowledgedType eventID (sb_ID bundle) (sb_BundleVersion bundle) now payload).

Definition acknowledge_tx (svc : trust_service) (command : AcknowledgeCommand) (canonical : bytes) : ttx unit :=
  do now <- trust_now;
  do entry <- beginTrustIdempotency (kc_AuthorizationID command) acknowledgeBundleOperation (kc_IdempotencyKey command)
                canonical now;
  match ti_outcome entry with
  | Replay =>
      fail_if negb (ti_status entry =? acknowledgeResponseStatus) || negb (len (ti_response entry) =? 0) with ErrRepository;
      tx_ret tt
  | Conflict => tx_fail (AppClassified ApiIdempotencyConflict)
  | InProgress => tx_fail (AppClassified ApiStateConflict)
  | Started =>
      also authorize svc (kc_AuthorizationID command) (kc_AccessToken command);
      do found <- tx_or (BundleByID (kc_BundleID command)) ErrRepository;
      match found with
      | None => tx_fail (AppClassified ApiStateConflict)
      | Some bundle =>
          fail_if (sb_AuthorizationID bundle != kc_AuthorizationID command) ||
                  negb (sb_BundleVersion bundle =? kc_BundleVersion command) with AppClassified ApiStateConflict;
          also tx_or (InsertAcknowledgement bundle now) ErrRepository;
          do event <- tx_or (acknowledgementEvent bundle now) ErrRepository;
          also tx_or (TrustAppendEvent event) ErrRepository;
          tx_or (TrustCompleteIdempotency entry acknowledgeResponseStatus []) ErrRepository
      end
  end.

Definition Acknowledge (svc : trust_service) (cancelled : bool) (command : AcknowledgeCommand) : tx_fate -> (nat -> tchoice) ->
    tstate -> result trust_api unit * tstate :=
  request (negb cancelled && validAcknowledgeCommand command)
    (canonicalTrustedJSON (acknowledge_request_json (kc_AuthorizationID command) (kc_BundleID command) (kc_BundleVersion command)))
    (acknowledge_tx svc command).
End Service.
