(* ===== verification/TrustMetadata.v ===== *)
(** The stored trust metadata: [PostgresMetadataRepository] of
    [internal/trust/postgres_repository.go] with its statements.

    [ORDER BY key_id] orders texts as the collation of the database does, which is
    a parameter.  [List] makes its statements one after the other outside a
    transaction; rows are only ever added, a version with its keys at once, so that
    what it reads is one state.

    Facts about the statements of the trust tables, and about the texts of the
    stored values. *)
From Stdlib Require Import ZArith Lia Strings.Byte.
From stdpp Require Import base gmap list sorting strings numbers option.
From S2P Require Import Prelude GoStd GoTime AuthorityTypes Ledger FenceStore Programs Transactions GoCrypto Text Sensitive Idempotency Tokens GoJson StrictJson Descriptors Events Outbox DeviceRows DeviceChallenge DeviceRotate TrustStore TrustJson TrustVerify TrustServer TrustSigner TrustSeal DeviceBundle TrustRows.

#[local] Open Scope go_scope.
#[local] Open Scope txn_scope.

(** The order of the texts of a column. *)
Class Collation := { text_le : bytes -> bytes -> bool }.

(** [strconv.ParseInt(s, 10, 64)] *)
Definition ParseInt64 (s : bytes) : option Z :=
  match s with
  | [] => None
  | c :: rest =>
      let negative := c == "-"%byte in
      let digits := if negative || (c == "+"%byte) then rest else s in
      un ← ParseUint digits 10 64;
      if negative then (if un <=? 2 ^ 63 then Some (- un) else None)
      else if un <? 2 ^ 63 then Some un else None
  end.

(** ** Statements *)

Definition older_root (a b : RootRow) : Prop := rr_Version a <= rr_Version b.
#[export] Instance older_root_dec : RelDecision older_root.
Proof. intros a b. apply Z_le_dec. Defined.

(** [SELECT * FROM trust.trust_root_metadata ORDER BY version] *)
Definition ListTrustRootMetadata (s : tstate) : list RootRow :=
  merge_sort older_root (map_to_list (tt_roots s)).*2.

Section Statements.
Context `{TimestampColumn} `{Collation}.

Definition key_before (a b : KeyRow) : Prop := text_le (kr_KeyID a) (kr_KeyID b) = true.
#[export] Instance key_before_dec : RelDecision key_before.
Proof. intros a b. unfold key_before. apply _. Defined.

(** [WHERE root_metadata_version=$1 ORDER BY key_id] *)
Definition ListSigningKeysForMetadata (version : Z) (s : tstate) : list KeyRow :=
  merge_sort key_before (List.filter (fun k => kr_RootMetadataVersion k =? version) (map_to_list (tt_keys s)).*2).

(** [None] is a violated key or constraint. *)
Definition InsertTrustRootMetadata (r : RootRow) (s : tstate) : option (unit * tstate) :=
  if not_nil (tt_roots s !! rr_Version r) || (rr_Version r <=? 0) || (len (rr_CanonicalPayload r) <? 2) ||
     (65536 <? len (rr_CanonicalPayload r)) || negb (len (rr_Signature r) =? 64) ||
     negb (Before (rr_ValidFrom r) (rr_ValidUntil r))
  then None
  else Some (tt, with_roots (<[rr_Version r := r]> (tt_roots s)) s).

(** [key_id ~ '^[A-Za-z0-9_-]{16,64}$'] *)
Definition key_id_char (c : byte) : bool :=
  in_range "A" "Z" c || in_range "a" "z" c || in_range "0" "9" c || bool_decide (c ∈ ["_"; "-"]%byte).

Definition key_row_checks (r : KeyRow) : bool :=
  (16 <=? len (kr_KeyID r)) && (len (kr_KeyID r) <=? 64) && forallb key_id_char (kr_KeyID r) &&
  (kr_Algorithm r == signatureAlgorithm) && (len (kr_PublicKey r) =? 32) &&
  bool_decide (kr_State r ∈ names ["future"; "active"; "retiring"; "revoked"]) && Before (kr_NotBefore r) (kr_NotAfter r).

(** [key_id] alone is the primary key of the table. *)
Definition InsertSigningKeyMetadata (r : KeyRow) (s : tstate) : option (unit * tstate) :=
  if not_nil (tt_keys s !! kr_KeyID r) || negb (key_row_checks r) || is_nil (tt_roots s !! kr_RootMetadataVersion r)
  then None
  else Some (tt, with_keys (<[kr_KeyID r := r]> (tt_keys s)) s).
End Statements.

(** ** The repository *)

Section Repository.
Context `{Primitives} `{UUIDText} `{Protobuf} `{TimestampColumn} `{Protector} `{HPKESender} `{Unicode} `{Ed25519} `{Collation}.
Variable trustedRoots : gmap bytes bytes.

(** The provisioned roots, checked as [NewPostgresMetadataRepository] checks them. *)
Definition NewPostgresMetadataRepository : option (gmap bytes bytes) :=
  if (size trustedRoots =? 0)%nat || (Z.to_nat maximumSigningKeys <? size trustedRoots)%nat ||
     negb (forallb (fun '(keyID, publicKey) => validKeyID keyID && (len publicKey =? PublicKeySize) &&
                                               (deriveKeyID rootKeyIDDomain publicKey == keyID))
             (map_to_list trustedRoots))
  then None else Some trustedRoots.

Definition storedKeyMatches (rootVersion : Z) (key : SigningKeyMetadataV1) (row : KeyRow) : bool :=
  if IsZero (kr_NotBefore row) || IsZero (kr_NotAfter row) then false
  else
    match b64_DecodeLax (sk_PublicKey key), parseProtocolTime (sk_NotBefore key), parseProtocolTime (sk_NotAfter key) with
    | Some publicKey, Some notBefore, Some notAfter =>
        (kr_RootMetadataVersion row =? rootVersion) && (kr_KeyID row == sk_KeyID key) && (kr_Algorithm row == sk_Algorithm key) &&
        (kr_PublicKey row == publicKey) && (kr_State row == sk_State key) &&
        time_Equal (UTC (kr_NotBefore row)) notBefore && time_Equal (UTC (kr_NotAfter row)) notAfter
    | _, _, _ => false
    end.

Fixpoint storedKeysMatch (rootVersion : Z) (expected : list SigningKeyMetadataV1) (rows : list KeyRow) : bool :=
  match expected, rows with
  | [], [] => true
  | key :: expected, row :: rows => storedKeyMatches rootVersion key row && storedKeysMatch rootVersion expected rows
  | _, _ => false
  end.

(** The checks of one stored version before its keys are read. *)
Definition stored_record (root : RootRow) : option (SignedRootMetadataV1 * RootMetadataV1) :=
  if (rr_Version root <=? 0) || (len (rr_CanonicalPayload root) <? 2) ||
     (maximumCanonicalPayloadBytes <? len (rr_CanonicalPayload root)) || negb (len (rr_Signature root) =? SignatureSize) ||
     IsZero (rr_ValidFrom root) || IsZero (rr_ValidUntil root) || IsZero (rr_CreatedAt root)
  then None
  else
    let record := MkSignedRoot (rr_CanonicalPayload root) (b64_EncodeToString (rr_Signature root)) in
    match verifyRootMetadataSignature record trustedRoots with
    | Err _ => None
    | Ok (payload, verifiedVersion) =>
        version ← ParseInt64 (rm_Version payload);
        if negb (version =? rr_Version root) || negb (verifiedVersion =? u64 (rr_Version root)) ||
           negb (time_Equal (UTC (rr_ValidFrom root)) (protocolTime (rm_ValidFrom payload))) ||
           negb (time_Equal (UTC (rr_ValidUntil root)) (protocolTime (rm_ValidUntil payload)))
        then None else Some (record, payload)
    end.

(** The loop of [listStoredMetadata]. *)
Fixpoint list_records (roots : list RootRow) : ttx (list SignedRootMetadataV1) :=
  match roots with
  | [] => tx_ret []
  | root :: roots =>
      match stored_record root with
      | None => tx_fail ErrRepository
      | Some (record, payload) =>
          do keys <- read (ListSigningKeysForMetadata (rr_Version root));
          fail_if negb (storedKeysMatch (rr_Version root) (rm_SigningKeys payload) keys) with ErrRepository;
          do records <- list_records roots;
          tx_ret (record :: records)
      end
  end.

Definition listStoredMetadata : ttx (list SignedRootMetadataV1) :=
  do roots <- read ListTrustRootMetadata;
  fail_if maximumMetadataVersions <? len roots with ErrRepository;
  list_records roots.

(** The insertion of the keys of a version. *)
Fixpoint insert_keys (version : Z) (keys : list SigningKeyMetadataV1) : ttx unit :=
  match keys with
  | [] => tx_ret tt
  | key :: keys =>
      match b64_DecodeLax (sk_PublicKey key), parseProtocolTime (sk_NotBefore key), parseProtocolTime (sk_NotAfter key) with
      | Some publicKey, Some notBefore, Some notAfter =>
          fail_if negb (len publicKey =? PublicKeySize) with AppTrust TrustInvalidMetadata;
          also write (InsertSigningKeyMetadata (MkKeyRow (sk_KeyID key) version signatureAlgorithm publicKey (sk_State key)
                                                  (column_time notBefore) (column_time notAfter)));
          insert_keys version keys
      | _, _, _ => tx_fail (AppTrust TrustInvalidMetadata)
      end
  end.

(** [now] is what [repository.now()] gives. *)
Definition publish_tx (now : time) (value : SignedRootMetadataV1) : ttx unit :=
  do existing <- tx_or listStoredMetadata ErrRepository;
  match verifyRootMetadataSignature value trustedRoots with
  | Err e => tx_fail (AppTrust e)
  | Ok (payload, version) =>
      match highestVersion trustedRoots existing 0 with
      | None => tx_fail ErrRepository
      | Some highest =>
          fail_if version <=? highest with AppTrust TrustMetadataRollback;
          match b64_DecodeLax (sr_Signature value) with
          | None => tx_fail (AppTrust TrustInvalidSignature)
          | Some signature =>
              fail_if negb (len signature =? SignatureSize) with AppTrust TrustInvalidSignature;
              also write (InsertTrustRootMetadata
                (MkRootRow (i64 version) (sr_PayloadJCS value) signature (column_time (protocolTime (rm_ValidFrom payload)))
                   (column_time (protocolTime (rm_ValidUntil payload))) (column_time (UTC now))));
              insert_keys (i64 version) (rm_SigningKeys payload)
          end
      end
  end.

(** [List]; [unusable] says that the context is done. *)
Definition ListMetadata (unusable : bool) (oracle : nat -> tchoice) (s : tstate) : result app_error (list SignedRootMetadataV1) :=
  if unusable then Err ErrRepository else (listStoredMetadata oracle 0%nat s).1.1.

Definition Publish (now : time) (value : SignedRootMetadataV1) (fate : tx_fate) (oracle : nat -> tchoice) (s : tstate) :
  result app_error unit * tstate := WithinTransaction ErrRepository fate oracle (publish_tx now value) s.
End Repository.

(** ** Texts *)

Lemma unsextets_relaxed l r : unsextets l = Some r -> unsextets_lax l = Some r.
Proof.
  revert l r. fix IH 1. intros [|a [|b [|c [|d l]]]] r; cbn [unsextets unsextets_lax]; try done.
  - by destruct (negb _).
  - by destruct (negb _).
  - destruct (unsextets l) as [rest|] eqn:E; [|done]. by rewrite (IH l rest E).
Qed.

Lemma b64_relaxed s r : b64_DecodeString s = Some r -> b64_DecodeLax s = Some r.
Proof.
  unfold b64_DecodeString, b64_DecodeLax. destruct (mapM b64_val _) as [values|]; [|done]. apply unsextets_relaxed.
Qed.

Lemma b64_lax_back raw : b64_DecodeLax (b64_EncodeToString raw) = Some raw.
Proof. apply b64_relaxed, b64_roundtrip. Qed.

Lemma hex_byte_back b rest : hex_DecodeString (hex_byte b ++ rest) = r ← hex_DecodeString rest; Some (b :: r).
Proof. by destruct b. Qed.

Lemma hex_back raw : hex_DecodeString (hex_encode raw) = Some raw.
Proof.
  induction raw as [|b raw IH]; [done|]. change (hex_encode (b :: raw)) with (hex_byte b ++ hex_encode raw).
  by rewrite hex_byte_back, IH.
Qed.

Lemma hex_encode_length raw : len (hex_encode raw) = 2 * len raw.
Proof.
  induction raw as [|b raw IH]; [done|]. change (hex_encode (b :: raw)) with (hex_byte b ++ hex_encode raw).
  rewrite len_app, IH. assert (len (hex_byte b) = 2) as -> by (by destruct b). unfold len. cbn [length]. lia.
Qed.

(** ** Protocol times are whole seconds *)

Lemma protocol_time_seconds value t : parseProtocolTime value = Some t -> t_utc t = true /\ t_nanos t mod Second = 0.
Proof.
  unfold parseProtocolTime. case_match eqn:Hl; [done|]. apply negb_false_iff, Z.eqb_eq in Hl.
  destruct (ParseRFC3339Nano value) as [parsed|] eqn:Hp; [|done]. case_match eqn:Hc; [|done]. intros [= <-].
  bool_props. split; [done|]. unfold ParseRFC3339Nano in Hp. case_top Hp; [done|].
  destruct (drop 19 value) as [|c [|c' tail]] eqn:Hd.
  1: apply (f_equal length) in Hd; rewrite length_drop in Hd; unfold len in Hl; cbn in Hd; lia.
  2: apply (f_equal length) in Hd; rewrite length_drop in Hd; unfold len in Hl; cbn in Hd; lia.
  destruct (parse_field (field 0 4 value) 0 9999) as [y|]; [|done]. cbn [mbind option_bind] in Hp.
  destruct (parse_field (field 5 2 value) 1 12) as [m|]; [|done]. cbn [mbind option_bind] in Hp.
  destruct (parse_field (field 8 2 value) _ _) as [d|]; [|done]. cbn [mbind option_bind] in Hp.
  destruct (parse_field (field 11 2 value) _ _) as [hour|]; [|done]. cbn [mbind option_bind] in Hp.
  destruct (parse_field (field 14 2 value) _ _) as [minute|]; [|done]. cbn [mbind option_bind] in Hp.
  destruct (parse_field (field 17 2 value) _ _) as [second|]; [|done]. cbn [mbind option_bind] in Hp.
  case_top Hp; [done|].
  assert (forall p, parse_tail [c] = Some p -> p = (0, 0)) as Htail.
  { intros p. unfold parse_tail. destruct (bool_decide (c = "."%byte)) eqn:Ec; bool_props; [by subst c|].
    assert (match c with "."%byte => (0, [c]) | _ => (0, [c]) end = (0, [c])) as _ by (by destruct c).
    assert (forall q, (let '(nsec, rest) := (match [c] with "."%byte :: r => match span_digits r with ([], _) => (0, [c]) | (ds, rest) => (fraction_nanos ds, rest) end | _ => (0, [c]) end) in
      match parse_zone rest with Some offset => Some (nsec, offset) | None => None end) = Some q -> q = (0, 0)) as Hq.
    { intros q. destruct c; try (cbn; by intros [= <-]); try done. }
    apply Hq. }
  destruct (parse_tail [c]) as [p|] eqn:Ep; [|done]. rewrite (Htail p eq_refl) in Hp. cbn in Hp. injection Hp as <-. cbn [t_nanos].
  match goal with |- ?e mod _ = 0 =>
    replace e with (((days_of_civil y m d - epoch_days) * 86400 + hour * 3600 + minute * 60 + second) * Second) end.
  - apply Z.mod_mul. done.
  - unfold Date. cbn [t_nanos]. unfold Day, Hour, Minute. generalize (days_of_civil y m d - epoch_days). unfold Minute, Second. lia.
Qed.

(** A whole second is stored as it is. *)
Lemma column_time_second `{TimestampColumnLaws} t : t_nanos t mod Second = 0 -> t_nanos (column_time t) = t_nanos t.
Proof.
  intros Hm. rewrite column_time_floor. apply Z.div_exact in Hm; [|done]. rewrite Hm. generalize (t_nanos t / Second). intros q.
  replace (Second * q) with (q * 1000000 * 1000) by (unfold Second, Millisecond, Microsecond; lia). rewrite Z.div_mul by done. lia.
Qed.

(** ** Sorted rows *)

(** Sorting does not depend on the order the rows come in when no two are
    equivalent. *)
Lemma merge_sort_unique {A} (R : relation A) `{!RelDecision R} `{!Transitive R} `{!Total R} l l' :
  (forall a b, a ∈ l -> b ∈ l -> R a b -> R b a -> a = b) -> l ≡ₚ l' -> merge_sort R l = merge_sort R l'.
Proof.
  intros Hanti Hp. apply (StronglySorted_unique_strong R); [|by apply StronglySorted_merge_sort..|by rewrite !merge_sort_Permutation].
  intros a b Ha Hb. rewrite merge_sort_Permutation in Ha. rewrite merge_sort_Permutation, <- Hp in Hb. by apply Hanti.
Qed.

Lemma merge_sort_sorted {A} (R : relation A) `{!RelDecision R} `{!Transitive R} `{!Total R} l l' :
  (forall a b, a ∈ l -> b ∈ l -> R a b -> R b a -> a = b) -> StronglySorted R l -> l ≡ₚ l' -> merge_sort R l' = l.
Proof.
  intros Hanti Hs Hp. symmetry. apply (StronglySorted_unique_strong R); [|done|by apply StronglySorted_merge_sort|by rewrite merge_sort_Permutation].
  intros a b Ha Hb. rewrite merge_sort_Permutation, <- Hp in Hb. by apply Hanti.
Qed.

Lemma filter_perm {A} (p : A -> bool) l l' : l ≡ₚ l' -> List.filter p l ≡ₚ List.filter p l'.
Proof.
  induction 1 as [|x l l' _ IH|x y l|l l' l'' _ IH1 _ IH2]; cbn; [done|by case_match; [rewrite IH|]| |by etrans].
  do 2 case_match; try done. by apply perm_swap.
Qed.

Lemma mapM_ext_in {A B} (f g : A -> option B) l : (forall x, x ∈ l -> f x = g x) -> mapM f l = mapM g l.
Proof. induction l as [|x l IH]; intros Hf; [done|]. cbn. rewrite Hf, IH; [done| |]; set_solver. Qed.

(** ** Calls *)

Section Calls.
Context `{Primitives} `{UUIDText} `{Protobuf} `{TimestampColumn} `{Protector} `{HPKESender}.

Lemma read_runs {A} (f : tstate -> A) s a s' : runs (read f) s a s' -> s' = s /\ a = f s.
Proof. intros Hr. unfold read in Hr. apply runs_step in Hr as (ch & Hr). destruct (ch_fails _); by simplify_eq. Qed.

Lemma write_runs {A} (f : tstate -> option (A * tstate)) s a s' : runs (write f) s a s' -> f s = Some (a, s').
Proof.
  intros Hr. unfold write in Hr. apply runs_step in Hr as (ch & Hr). destruct (ch_fails _); [done|].
  destruct (f s) as [[a0 s0]|]; by simplify_eq.
Qed.

(** An environment in which no statement fails. *)
Definition calm (oracle : nat -> tchoice) : Prop := forall i, ch_fails (tc_db (oracle i)) = false.

Lemma calm_read {A B} (f : tstate -> A) (k : A -> ttx B) oracle n s :
  calm oracle -> tx_bind (read f) k oracle n s = k (f s) oracle (S n) s.
Proof. intros Hc. unfold tx_bind, read, tx_step. by rewrite Hc. Qed.

Lemma calm_write {A B} (f : tstate -> option (A * tstate)) (k : A -> ttx B) oracle n s a s' :
  calm oracle -> f s = Some (a, s') -> tx_bind (write f) k oracle n s = k a oracle (S n) s'.
Proof. intros Hc Hf. unfold tx_bind, write, tx_step. by rewrite Hc, Hf. Qed.
End Calls.
