(* ===== verification/TrustMetadataTheorems.v ===== *)
(** What publication stores and what [List] reads back. *)
From Stdlib Require Import ZArith Lia Strings.Byte.
From stdpp Require Import base gmap list sorting strings numbers option.
From S2P Require Import Prelude GoStd GoTime AuthorityTypes Programs Transactions GoCrypto Text Sensitive Tokens GoJson StrictJson Events Outbox DeviceRows.
From S2P Require Import TrustStore TrustJson TrustVerify TrustVerifyFacts TrustJcs TrustServer TrustSigner TrustSeal TrustServerFacts TrustRows TrustMetadata.

#[local] Open Scope go_scope.

(** A database that orders texts by their bytes ([COLLATE "C"], or a C library
    that does so, as the one of the deployment's image). *)
Class CollationLaws `{Collation} : Prop := {
  text_le_bytes a b : text_le a b = negb (bytes_lt b a) }.

(** ** The order of texts *)

Lemma bytes_lt_trans a b c : bytes_lt a b = true -> bytes_lt b c = true -> bytes_lt a c = true.
Proof.
  revert b c. induction a as [|x a IH]; intros [|y b] [|z c]; cbn; try done.
  destruct (byte_to_Z x <? byte_to_Z y) eqn:E1, (byte_to_Z y <? byte_to_Z x) eqn:E2,
    (byte_to_Z y <? byte_to_Z z) eqn:E3, (byte_to_Z z <? byte_to_Z y) eqn:E4,
    (byte_to_Z x <? byte_to_Z z) eqn:E5, (byte_to_Z z <? byte_to_Z x) eqn:E6; bool_props; try done; try lia; eauto.
Qed.

Lemma bytes_lt_total a b : bytes_lt a b = false -> bytes_lt b a = false -> a = b.
Proof.
  revert b. induction a as [|x a IH]; intros [|y b]; cbn; try done.
  destruct (byte_to_Z x <? byte_to_Z y) eqn:E1, (byte_to_Z y <? byte_to_Z x) eqn:E2; bool_props; try done; try lia.
  intros H1 H2. f_equal; [|by apply IH]. apply byte_to_Z_inj. lia.
Qed.

Section Metadata.
Context `{Primitives} `{UUIDText} `{Protobuf} `{TimestampColumn} {TL : TimestampColumnLaws} `{Protector} `{HPKESender}
  `{Unicode} `{Ed25519} `{Collation}.
Variable trustedRoots : gmap bytes bytes.

(** ** [listStoredMetadata] as a function of the tables *)

Definition listed (s : tstate) (root : RootRow) : option SignedRootMetadataV1 :=
  '(record, payload) ← stored_record trustedRoots root;
  if storedKeysMatch (rr_Version root) (rm_SigningKeys payload) (ListSigningKeysForMetadata (rr_Version root) s)
  then Some record else None.

Definition listing (s : tstate) : option (list SignedRootMetadataV1) :=
  if maximumMetadataVersions <? len (ListTrustRootMetadata s) then None else mapM (listed s) (ListTrustRootMetadata s).

Lemma list_records_runs roots s l s' :
  runs (list_records trustedRoots roots) s l s' -> s' = s /\ mapM (listed s) roots = Some l.
Proof.
  revert l. induction roots as [|root roots IH]; intros l Hr; cbn [list_records] in Hr; [by inv_run|].
  cbn [mapM]. destruct (stored_record trustedRoots root) as [[record payload]|] eqn:Er; [|by inv_run].
  inv_run. match goal with Hk : runs (read _) _ _ _ |- _ => apply read_runs in Hk as [-> ->] end.
  bool_props. match goal with Hl : runs (list_records _ _) _ _ _ |- _ => destruct (IH _ Hl) as [-> Hm] end.
  split; [done|]. match goal with Hs : storedKeysMatch _ _ _ = true |- _ =>
    assert (listed s root = Some record) as -> by (unfold listed; rewrite Er; cbn; by rewrite Hs) end.
  cbn [mbind option_bind]. by rewrite Hm.
Qed.

Lemma listStoredMetadata_runs s l s' : runs (listStoredMetadata trustedRoots) s l s' -> s' = s /\ listing s = Some l.
Proof.
  intros Hr. unfold listStoredMetadata in Hr. inv_run.
  match goal with Hk : runs (read _) _ _ _ |- _ => apply read_runs in Hk as [-> ->] end.
  match goal with Hl : runs (list_records _ _) _ _ _ |- _ => apply list_records_runs in Hl as [-> Hm] end.
  split; [done|]. unfold listing. by case_match.
Qed.

Lemma list_records_calm roots oracle n s : calm oracle ->
  exists n', list_records trustedRoots roots oracle n s =
    (match mapM (listed s) roots with Some l => Ok l | None => Err ErrRepository end, n', s).
Proof.
  intros Hc. revert n. induction roots as [|root roots IH]; intros n; cbn [list_records mapM]; [by eexists|].
  destruct (listed s root) as [record|] eqn:El; unfold listed in El;
    destruct (stored_record trustedRoots root) as [[record' payload]|]; cbn [mbind option_bind] in El; try done; [| |by eexists].
  - destruct (storedKeysMatch _ _ _) eqn:Es; [|done]. injection El as ->. rewrite calm_read, Es by done.
    unfold tx_bind, tx_guard, tx_ret. cbn [negb]. destruct (IH (S n)) as [n' ->]. exists n'. cbn. by destruct (mapM (listed s) roots).
  - destruct (storedKeysMatch _ _ _) eqn:Es; [done|]. rewrite calm_read, Es by done. by eexists.
Qed.

Lemma ListMetadata_calm oracle s : calm oracle ->
  ListMetadata trustedRoots false oracle s = match listing s with Some l => Ok l | None => Err ErrRepository end.
Proof.
  intros Hc. unfold ListMetadata, listStoredMetadata. rewrite calm_read by done. unfold listing, tx_bind, tx_guard.
  destruct (maximumMetadataVersions <? _); [done|]. cbn.
  destruct (list_records_calm (ListTrustRootMetadata s) oracle 1 s Hc) as [n' ->]. by destruct (mapM _ _).
Qed.

(** ** The keys of a version *)

Definition key_row (version : Z) (key : SigningKeyMetadataV1) : KeyRow :=
  MkKeyRow (sk_KeyID key) version signatureAlgorithm (default [] (b64_DecodeLax (sk_PublicKey key))) (sk_State key)
    (column_time (protocolTime (sk_NotBefore key))) (column_time (protocolTime (sk_NotAfter key))).

Definition add_keys (version : Z) (keys : list SigningKeyMetadataV1) (t : gmap bytes KeyRow) : gmap bytes KeyRow :=
  foldl (fun t key => <[sk_KeyID key := key_row version key]> t) t keys.

Definition readable_key (key : SigningKeyMetadataV1) : Prop :=
  is_Some (b64_DecodeLax (sk_PublicKey key)) /\ is_Some (parseProtocolTime (sk_NotBefore key)) /\
  is_Some (parseProtocolTime (sk_NotAfter key)).

Lemma insert_keys_runs version keys s u s' : runs (insert_keys version keys) s u s' ->
  s' = with_keys (add_keys version keys (tt_keys s)) s /\ Forall (fun key => tt_keys s !! sk_KeyID key = None) keys /\
  NoDup (map sk_KeyID keys) /\ Forall readable_key keys.
Proof.
  revert s. induction keys as [|key keys IH]; intros s Hr; cbn [insert_keys] in Hr.
  { inv_run. split_and!; [by destruct s|constructor..]. }
  destruct (b64_DecodeLax (sk_PublicKey key)) as [publicKey|] eqn:Ek; [|by inv_run].
  destruct (parseProtocolTime (sk_NotBefore key)) as [nb|] eqn:En; [|by inv_run].
  destruct (parseProtocolTime (sk_NotAfter key)) as [na|] eqn:Ea; [|by inv_run].
  inv_run. match goal with Hw : runs (write _) _ _ _ |- _ => apply write_runs in Hw; unfold InsertSigningKeyMetadata in Hw; case_top Hw; [done|]; injection Hw as _ <- end.
  bool_props. cbn [kr_KeyID] in *.
  match goal with Hi : runs (insert_keys _ _) _ _ _ |- _ => destruct (IH _ Hi) as (-> & Habs & Hnd & Hread) end.
  cbn [tt_keys with_keys] in *.
  assert (key_row version key = MkKeyRow (sk_KeyID key) version signatureAlgorithm publicKey (sk_State key) (column_time nb) (column_time na)) as Hrow
    by (unfold key_row, protocolTime; by rewrite Ek, En, Ea).
  split_and!.
  - unfold with_keys. cbn. unfold add_keys. cbn [foldl]. by rewrite Hrow.
  - constructor; [done|]. eapply List.Forall_impl; [|exact Habs]. intros key' Hk. by apply lookup_insert_None in Hk as [? _].
  - cbn [map]. apply list.NoDup_cons. split; [|done]. intros Hin. apply list_elem_of_fmap in Hin as (key' & Heq & Hin).
    rewrite list.Forall_forall in Habs. specialize (Habs _ Hin). apply lookup_insert_None in Habs as [_ Hne]. congruence.
  - constructor; [|done]. split_and!; by eexists.
Qed.

Lemma add_keys_rows version keys t :
  Forall (fun key => t !! sk_KeyID key = None) keys -> NoDup (map sk_KeyID keys) ->
  (map_to_list (add_keys version keys t)).*2 ≡ₚ map (key_row version) keys ++ (map_to_list t).*2.
Proof.
  revert t. induction keys as [|key keys IH]; intros t Habs Hnd; [done|].
  inversion Habs as [|? ? Ha Hrest]; subst. cbn [map] in Hnd. apply list.NoDup_cons in Hnd as [Hni Hnd].
  unfold add_keys in *. cbn [foldl map]. rewrite IH; [|rewrite list.Forall_forall in Hrest |- *|done].
  - rewrite map_to_list_insert by done. cbn. symmetry. apply Permutation_middle.
  - intros key' Hin. apply lookup_insert_None. split; [by apply Hrest|]. intros Heq. apply Hni. rewrite Heq. by apply list_elem_of_fmap_2.
Qed.

(** ** Publication *)

(** The row of a published version. *)
Definition root_row (now : time) (value : SignedRootMetadataV1) (payload : RootMetadataV1) (version : Z) (signature : bytes) : RootRow :=
  MkRootRow (i64 version) (sr_PayloadJCS value) signature (column_time (protocolTime (rm_ValidFrom payload)))
    (column_time (protocolTime (rm_ValidUntil payload))) (column_time (UTC now)).

Record published (now : time) (value : SignedRootMetadataV1) (s s' : tstate) (existing : list SignedRootMetadataV1)
    (payload : RootMetadataV1) (version : Z) (signature : bytes) : Prop := {
  pb_listing : listing s = Some existing;
  pb_verified : verifyRootMetadataSignature value trustedRoots = Ok (payload, version);
  pb_highest : exists highest, highestVersion trustedRoots existing 0 = Some highest /\ highest < version;
  pb_signature : b64_DecodeLax (sr_Signature value) = Some signature /\ len signature = SignatureSize;
  pb_absent : Forall (fun key => tt_keys s !! sk_KeyID key = None) (rm_SigningKeys payload);
  pb_distinct : NoDup (map sk_KeyID (rm_SigningKeys payload));
  pb_readable : Forall readable_key (rm_SigningKeys payload);
  pb_state : s' = with_keys (add_keys (i64 version) (rm_SigningKeys payload) (tt_keys s))
    (with_roots (<[i64 version := root_row now value payload version signature]> (tt_roots s)) s) }.

Lemma publish_runs now value s u s' : runs (publish_tx trustedRoots now value) s u s' ->
  exists existing payload version signature, published now value s s' existing payload version signature.
Proof.
  intros Hr. unfold publish_tx in Hr. inv_run.
  match goal with Hl : runs (listStoredMetadata _) _ _ _ |- _ => apply listStoredMetadata_runs in Hl as [-> Hlist] end.
  destruct (verifyRootMetadataSignature value trustedRoots) as [[payload version]|e] eqn:Ev; [|by inv_run].
  destruct (highestVersion _ _ _) as [highest|] eqn:Eh; [|by inv_run].
  inv_run. destruct (b64_DecodeLax _) as [signature|] eqn:Es; [|by inv_run].
  inv_run. match goal with Hw : runs (write _) _ _ _ |- _ => apply write_runs in Hw; unfold InsertTrustRootMetadata in Hw; case_top Hw; [done|]; injection Hw as _ <- end.
  match goal with Hi : runs (insert_keys _ _) _ _ _ |- _ => apply insert_keys_runs in Hi as (-> & Habs & Hnd & Hread) end.
  bool_props. eexists _, payload, version, signature. split; try done. by eexists.
Qed.

(** C26 (key_published_once): a version of the metadata is only published when none
    of its signing keys has been published before, in whatever state: a version
    that names a key which the database holds is refused, whatever the database
    does, and changes nothing. *)
Theorem key_published_once now value payload version key fate oracle s :
  verifyRootMetadataSignature value trustedRoots = Ok (payload, version) ->
  key ∈ rm_SigningKeys payload -> is_Some (tt_keys s !! sk_KeyID key) ->
  exists e, Publish trustedRoots now value fate oracle s = (Err e, s).
Proof.
  intros Hv Hin [row Hrow]. destruct (Publish _ _ _ _ _ _) as [r s'] eqn:Hp.
  assert (forall u s1, ~ runs (publish_tx trustedRoots now value) s u s1) as Hnever.
  { intros u s1 (existing & payload' & version' & signature & [])%publish_runs. rewrite pb_verified0 in Hv. injection Hv as -> ->.
    rewrite list.Forall_forall in pb_absent0. by rewrite (pb_absent0 _ Hin) in Hrow. }
  apply WithinTransaction_cases in Hp. destruct r as [u|e]; [by apply Hnever in Hp|].
  exists e. destruct Hp as [[-> _]|(_ & u & Hr)]; [done|by apply Hnever in Hr].
Qed.

(** ** What a verified record is *)

Record verified (value : SignedRootMetadataV1) (payload : RootMetadataV1) (version : Z) : Prop := {
  vf_size : 2 <= len (sr_PayloadJCS value) <= maximumCanonicalPayloadBytes;
  vf_signature : exists signature, b64_DecodeLax (sr_Signature value) = Some signature /\ len signature = SignatureSize /\
    b64_EncodeToString signature = sr_Signature value;
  vf_valid : ValidateRootMetadataV1 payload = None;
  vf_version : ParseUint (rm_Version payload) 10 64 = Some version /\ ParseInt64 (rm_Version payload) = Some version /\
    1 <= version <= MaxInt64 }.

Lemma digit_not_sign value c rest : unsignedIntegerString value = true -> value = c :: rest ->
  bool_decide (c = "-"%byte) = false /\ bool_decide (c = "+"%byte) = false.
Proof.
  intros Hu ->. unfold unsignedIntegerString in Hu. case_match; [done|]. bool_props. cbn [forallb] in *. bool_props.
  split; apply bool_decide_eq_false_2; intros ->; done.
Qed.

Lemma verified_facts value payload version :
  verifyRootMetadataSignature value trustedRoots = Ok (payload, version) -> verified value payload version.
Proof.
  unfold verifyRootMetadataSignature. intros Hv. case_top Hv; [|done].
  destruct (CanonicalizeJSON _ _) as [[canonical decoded]|]; [|done]. case_top Hv; [|done].
  destruct (trustedRoots !! _) as [publicKey|]; [|done]. case_top Hv; [|done].
  destruct (b64_DecodeString (sr_Signature value)) as [signature|] eqn:Es; [|done]. case_top Hv; [|done].
  destruct (ParseUint _ 10 64) as [v|] eqn:Ep; [|done]. injection Hv as <- <-. bool_props.
  match goal with He : exactBase64URL _ _ = true |- _ => unfold exactBase64URL in He; rewrite Es in He end. bool_props.
  match goal with Hn : ValidateRootMetadataV1 _ = None |- _ => rename Hn into Hvalid end.
  split; [lia| |done|].
  - exists signature. split; [by apply b64_relaxed|done].
  - unfold ValidateRootMetadataV1 in Hvalid. do 2 (case_top Hvalid; [|done]). case_top Hvalid; [done|]. bool_props.
    match goal with Hpos : positiveIntegerString _ = true |- _ => destruct (positive_spec _ Hpos) as [n Hn] end.
    pose proof (parsePositiveUint_range _ _ Hn) as Hrange. unfold parsePositiveUint in Hn. case_top Hn; [done|].
    rewrite Ep in Hn. case_top Hn; [|done]. injection Hn as ->. bool_props.
    split; [done|]. split; [|lia]. unfold ParseInt64. destruct (rm_Version _) as [|c rest] eqn:Er; [done|].
    match goal with Hu : unsignedIntegerString _ = true |- _ => destruct (digit_not_sign _ _ _ Hu eq_refl) as [-> ->] end.
    cbn [orb]. rewrite Ep. cbn [mbind option_bind]. unfold MaxInt64 in *. by rewrite (proj2 (Z.ltb_lt n (2 ^ 63))) by lia.
Qed.

(** ** Reading back *)

(** Every row is under its key and every signing key has its version. *)
Record metadata_ok (s : tstate) : Prop := {
  mo_root v r : tt_roots s !! v = Some r -> rr_Version r = v;
  mo_key k r : tt_keys s !! k = Some r -> kr_KeyID r = k /\ is_Some (tt_roots s !! kr_RootMetadataVersion r) }.

Lemma ParseInt64_bound text v : ParseInt64 text = Some v -> v < 2 ^ 63.
Proof.
  unfold ParseInt64. destruct text as [|c rest]; [done|]. intros Hp.
  destruct (ParseUint _ 10 64) as [un|] eqn:Eu; [|by destruct (_ || _)]. pose proof (ParseUint_range _ 10 64 _ ltac:(lia) ltac:(lia) Eu).
  cbn [mbind option_bind] in Hp. case_top Hp; (case_top Hp; [|done]); injection Hp as <-; bool_props; lia.
Qed.

Lemma stored_version root record payload : stored_record trustedRoots root = Some (record, payload) ->
  0 < rr_Version root /\ verifyRootMetadataSignature record trustedRoots = Ok (payload, rr_Version root).
Proof.
  unfold stored_record. intros Hs. case_top Hs; [done|]. bool_props.
  destruct (verifyRootMetadataSignature _ trustedRoots) as [[payload' v]|e] eqn:Ev; [|done].
  destruct (ParseInt64 _) as [version|] eqn:Ei; [|done]. cbn [mbind option_bind] in Hs. case_top Hs; [done|]. injection Hs as <- <-.
  bool_props. split; [done|]. rewrite Ev. do 2 f_equal. apply ParseInt64_bound in Ei. unfold u64 in *.
  rewrite Z.mod_small in * by lia. lia.
Qed.

Lemma highestVersion_bound records : forall highest top, highestVersion trustedRoots records highest = Some top ->
  highest <= top /\ forall record payload v, record ∈ records -> verifyRootMetadataSignature record trustedRoots = Ok (payload, v) -> v <= top.
Proof.
  induction records as [|record records IH]; intros highest top Hh; cbn [highestVersion] in Hh.
  { injection Hh as ->. split; [lia|]. intros ? ? ? []%not_elem_of_nil. }
  destruct (verifyRootMetadataSignature record trustedRoots) as [[p v]|e] eqn:Ev; [|done].
  destruct (IH _ _ Hh) as [Hle Hall]. split; [case_match; bool_props; lia|].
  intros record' p' v' [-> | Hin]%elem_of_cons Hv'; [|by eapply Hall]. rewrite Ev in Hv'. injection Hv' as <- <-.
  case_match; bool_props; lia.
Qed.

Lemma roots_in_table s root : root ∈ ListTrustRootMetadata s <-> exists v, tt_roots s !! v = Some root.
Proof.
  unfold ListTrustRootMetadata. rewrite merge_sort_Permutation. split.
  - intros ([v r] & -> & Hin)%list_elem_of_fmap. apply elem_of_map_to_list in Hin. by exists v.
  - intros [v Hl]. apply list_elem_of_fmap. exists (v, root). split; [done|]. by apply elem_of_map_to_list.
Qed.

Lemma old_versions s existing top : listing s = Some existing -> highestVersion trustedRoots existing 0 = Some top ->
  forall root, root ∈ ListTrustRootMetadata s -> rr_Version root <= top.
Proof.
  unfold listing. case_match; [done|]. intros Hm Hh root Hin. apply mapM_Some_1 in Hm.
  apply list_elem_of_lookup in Hin as [i Hi]. destruct (Forall2_lookup_l _ _ _ _ _ Hm Hi) as (record & Hrec%list_elem_of_lookup_2 & Hl). unfold listed in Hl.
  destruct (stored_record trustedRoots root) as [[record' payload]|] eqn:Es; [|done]. cbn [mbind option_bind] in Hl.
  case_top Hl; [|done]. injection Hl as ->. apply stored_version in Es as [_ Hv]. by eapply (proj2 (highestVersion_bound _ _ _ Hh)).
Qed.

#[export] Instance older_root_total : Total older_root.
Proof. intros a b. unfold older_root. lia. Qed.
#[export] Instance older_root_trans : Transitive older_root.
Proof. intros a b c. unfold older_root. lia. Qed.

(** A newer version comes last. *)
Lemma list_roots_add s root : metadata_ok s -> tt_roots s !! rr_Version root = None ->
  (forall r, r ∈ ListTrustRootMetadata s -> rr_Version r < rr_Version root) ->
  ListTrustRootMetadata (with_roots (<[rr_Version root := root]> (tt_roots s)) s) = ListTrustRootMetadata s ++ [root].
Proof.
  intros Hok Hfree Hnew. unfold ListTrustRootMetadata at 1. cbn [tt_roots with_roots]. apply merge_sort_sorted; [apply _..| | |].
  - intros a b Ha Hb Hab Hba. assert (rr_Version a = rr_Version b) as Heq by (unfold older_root in *; lia).
    rewrite elem_of_app, list_elem_of_singleton in Ha, Hb. destruct Ha as [Ha| ->], Hb as [Hb| ->]; try done.
    + apply roots_in_table in Ha as [va Ha], Hb as [vb Hb]. pose proof (mo_root _ Hok _ _ Ha). pose proof (mo_root _ Hok _ _ Hb). congruence.
    + apply Hnew in Ha. lia.
    + apply Hnew in Hb. lia.
  - apply StronglySorted_app_2; [|unfold ListTrustRootMetadata; apply StronglySorted_merge_sort; apply _|by repeat constructor].
    intros a b Ha ->%list_elem_of_singleton. apply Hnew in Ha. unfold older_root. lia.
  - unfold ListTrustRootMetadata. rewrite merge_sort_Permutation, map_to_list_insert by done. cbn. by rewrite Permutation_app_comm.
Qed.

Context {CL : CollationLaws}.

#[local] Instance key_before_total : Total key_before.
Proof.
  intros a b. unfold key_before. rewrite !text_le_bytes. destruct (bytes_lt (kr_KeyID b) (kr_KeyID a)) eqn:E; [right|by left].
  by rewrite (bytes_lt_asym _ _ E).
Qed.

#[local] Instance key_before_trans : Transitive key_before.
Proof.
  intros a b c. unfold key_before. rewrite !text_le_bytes. intros Hab%negb_true_iff Hbc%negb_true_iff. apply negb_true_iff.
  destruct (bytes_lt (kr_KeyID c) (kr_KeyID a)) eqn:E; [|done].
  destruct (bytes_lt (kr_KeyID a) (kr_KeyID b)) eqn:E2; [by rewrite (bytes_lt_trans _ _ _ E E2) in Hbc|].
  rewrite (bytes_lt_total _ _ E2 Hab) in E. congruence.
Qed.

Lemma key_before_anti a b : key_before a b -> key_before b a -> kr_KeyID a = kr_KeyID b.
Proof.
  unfold key_before. rewrite !text_le_bytes. intros Hab%negb_true_iff Hba%negb_true_iff. by apply bytes_lt_total.
Qed.

(** Rows of one table with the same key are the same row. *)
Lemma keys_distinct (t : gmap bytes KeyRow) p a b : (forall k r, t !! k = Some r -> kr_KeyID r = k) ->
  a ∈ List.filter p (map_to_list t).*2 -> b ∈ List.filter p (map_to_list t).*2 -> kr_KeyID a = kr_KeyID b -> a = b.
Proof.
  intros Hk Ha Hb Heq. rewrite !list_elem_of_In, !filter_In, <- !list_elem_of_In in *.
  destruct Ha as [Ha _], Hb as [Hb _]. apply list_elem_of_fmap in Ha as ([ka ra] & -> & Ha), Hb as ([kb rb] & -> & Hb).
  apply elem_of_map_to_list in Ha, Hb. cbn in *. rewrite (Hk _ _ Ha), (Hk _ _ Hb) in Heq. subst kb. congruence.
Qed.

Lemma filter_none {A} (p : A -> bool) l : (forall x, x ∈ l -> p x = false) -> List.filter p l = [].
Proof.
  induction l as [|x l IH]; intros Hf; [done|]. cbn. rewrite Hf by set_solver. apply IH. set_solver.
Qed.

Lemma filter_all {A} (p : A -> bool) l : (forall x, x ∈ l -> p x = true) -> List.filter p l = l.
Proof.
  induction l as [|x l IH]; intros Hf; [done|]. cbn. rewrite Hf by set_solver. f_equal. apply IH. set_solver.
Qed.

Section Added.
Variables (s : tstate) (version : Z) (keys : list SigningKeyMetadataV1).
Hypothesis s_ok : metadata_ok s.
Hypothesis absent : Forall (fun key => tt_keys s !! sk_KeyID key = None) keys.
Hypothesis distinct : NoDup (map sk_KeyID keys).

Let t' := add_keys version keys (tt_keys s).

Lemma added_keys k r : t' !! k = Some r -> tt_keys s !! k = Some r \/ exists key, key ∈ keys /\ k = sk_KeyID key /\ r = key_row version key.
Proof using.
  subst t'. clear absent distinct. generalize (tt_keys s). unfold add_keys. induction keys as [|key l IH]; intros t Hl; cbn [foldl] in Hl; [by left|].
  destruct (IH _ Hl) as [Hl'|(key' & Hin & -> & ->)]; [|right; exists key'; split; [by right|done]].
  apply lookup_insert_Some in Hl' as [[<- <-]|[_ Hl']]; [|by left]. right. exists key. split; [by left|done].
Qed.

Lemma added_key_ids k r : t' !! k = Some r -> kr_KeyID r = k.
Proof using s_ok. intros [Hl|(key & _ & -> & ->)]%added_keys; [by apply (mo_key _ s_ok)|done]. Qed.

(** The keys of the other versions are as they were. *)
Lemma old_keys v s' : v <> version -> tt_keys s' = t' ->
  ListSigningKeysForMetadata v s' = ListSigningKeysForMetadata v s.
Proof using s_ok absent distinct CL TL.
  intros Hne Ht. unfold ListSigningKeysForMetadata. apply merge_sort_unique; [apply _..| |].
  - rewrite Ht. intros a b Ha Hb Hab Hba. apply (keys_distinct t' _ _ _ added_key_ids Ha Hb). by apply key_before_anti.
  - rewrite Ht. subst t'. rewrite (filter_perm _ _ _ (add_keys_rows version keys (tt_keys s) absent distinct)), List.filter_app.
    rewrite filter_none; [done|]. intros x (key & -> & _)%list_elem_of_fmap. cbn. by apply Z.eqb_neq.
Qed.

(** Those of the new version are the ones added, in their order. *)
Lemma new_keys s' : tt_roots s !! version = None -> tt_keys s' = t' ->
  StronglySorted (fun a b => bytes_lt (sk_KeyID a) (sk_KeyID b) = true) keys ->
  ListSigningKeysForMetadata version s' = map (key_row version) keys.
Proof using s_ok absent distinct CL TL.
  intros Hfree Ht Hsort. unfold ListSigningKeysForMetadata. apply merge_sort_sorted; [apply _..| | |].
  - intros a b (ka & -> & Ha)%list_elem_of_fmap (kb & -> & Hb)%list_elem_of_fmap Hab Hba.
    pose proof (key_before_anti _ _ Hab Hba) as Heq. cbn in Heq.
    apply list_elem_of_lookup in Ha as [i Hi], Hb as [j Hj].
    assert (i = j) as <-; [|congruence]. apply (NoDup_lookup (map sk_KeyID keys) i j (sk_KeyID ka) distinct); rewrite list_lookup_fmap.
    + exact (f_equal (fmap sk_KeyID) Hi).
    + rewrite Heq. exact (f_equal (fmap sk_KeyID) Hj).
  - clear -Hsort CL. induction Hsort as [|key l Hsort IH Hall]; cbn [map]; constructor; [done|].
    apply Forall_map. eapply List.Forall_impl; [|exact Hall]. intros key' Hlt. unfold key_before. rewrite text_le_bytes. cbn.
    by rewrite (bytes_lt_asym _ _ Hlt).
  - rewrite Ht. subst t'. rewrite (filter_perm _ _ _ (add_keys_rows version keys (tt_keys s) absent distinct)), List.filter_app.
    rewrite filter_all, (filter_none _ (map_to_list _).*2), app_nil_r; [done| |].
    + intros x ([k r] & -> & Hin)%list_elem_of_fmap. cbn. apply elem_of_map_to_list in Hin. apply Z.eqb_neq. intros <-.
      destruct (mo_key _ s_ok _ _ Hin) as [_ [? Hr]]. congruence.
    + intros x (key & -> & _)%list_elem_of_fmap. cbn. apply Z.eqb_refl.
Qed.
End Added.

Lemma sorted_keys validFrom validUntil keys : forall previous seen,
  validRootKeys validFrom validUntil previous seen keys = true ->
  StronglySorted (fun a b => bytes_lt (sk_KeyID a) (sk_KeyID b) = true) keys /\
  (previous <> [] -> Forall (fun key => bytes_lt previous (sk_KeyID key) = true) keys).
Proof.
  induction keys as [|key keys IH]; intros previous seen Hv; [by split; constructor|]. cbn [validRootKeys] in Hv.
  destruct (validRootKey _ _ _ _ _) eqn:Ek; [|done]. destruct (IH _ _ Hv) as [Hs Hall]. unfold validRootKey in Ek.
  do 3 (case_top Ek; [|done]). bool_props.
  assert (sk_KeyID key <> []) as Hne.
  { intros E. match goal with Hk : validKeyID _ = true |- _ => rewrite E in Hk end. done. }
  specialize (Hall Hne). split; [by constructor|]. intros Hp.
  match goal with Ha : _ && (previous != []) = false |- _ => rewrite (bool_decide_eq_false_2 _ Hp), andb_true_r in Ha; apply negb_false_iff in Ha; rename Ha into Hlt end.
  constructor; [done|]. eapply List.Forall_impl; [|exact Hall]. intros key'. by apply bytes_lt_trans.
Qed.

Lemma key_matches validFrom validUntil previous seen version key :
  validRootKey validFrom validUntil previous seen key = true -> 0 < t_nanos validFrom ->
  storedKeyMatches version key (key_row version key) = true.
Proof.
  intros Hk Hf. unfold validRootKey in Hk. unfold storedKeyMatches, key_row. cbn [kr_NotBefore kr_NotAfter kr_KeyID kr_PublicKey kr_State kr_Algorithm kr_RootMetadataVersion].
  unfold protocolTime.
  destruct (parseProtocolTime (sk_NotBefore key)) as [nb|] eqn:En; [|done].
  destruct (parseProtocolTime (sk_NotAfter key)) as [na|] eqn:Ea; [|done].
  destruct (b64_DecodeString (sk_PublicKey key)) as [pk|] eqn:Ep; [|done]. bool_props. unfold Before, After, IsZero, time_Equal, UTC in *. bool_props.
  cbn [default t_nanos]. unfold id. apply protocol_time_seconds in En as [_ En], Ea as [_ Ea]. rewrite !column_time_second by done.
  rewrite (b64_relaxed _ _ Ep), !(proj2 (Z.eqb_neq _ 0)) by lia. cbn [default orb]. unfold id. rewrite !Z.eqb_refl, !bool_decide_eq_true_2 by done. done.
Qed.

Lemma keys_match validFrom validUntil version keys : 0 < t_nanos validFrom -> forall previous seen,
  validRootKeys validFrom validUntil previous seen keys = true ->
  storedKeysMatch version keys (map (key_row version) keys) = true.
Proof.
  intros Hf. induction keys as [|key keys IH]; intros previous seen Hv; [done|]. cbn [validRootKeys] in Hv.
  destruct (validRootKey _ _ _ _ _) eqn:Ek; [|done]. cbn [map storedKeysMatch].
  by rewrite (key_matches _ _ _ _ _ _ Ek Hf), (IH _ _ Hv).
Qed.

(** The row of a published version reads back as the record. *)
Lemma published_row now value payload version signature :
  verifyRootMetadataSignature value trustedRoots = Ok (payload, version) ->
  b64_DecodeLax (sr_Signature value) = Some signature -> 1000 <= t_nanos now -> 0 < t_nanos (protocolTime (rm_ValidFrom payload)) ->
  i64 version = version /\ stored_record trustedRoots (root_row now value payload version signature) = Some (value, payload).
Proof.
  intros Hv Hs Hnow Hfrom. destruct (verified_facts _ _ _ Hv) as [Hsize (sig & Hd & Hlen & Henc) Hvalid (Hpu & Hpi & Hr)].
  rewrite Hs in Hd. injection Hd as <-.
  assert (i64 version = version) as Hi by (apply i64_id; unfold is_i64, MaxInt64 in *; lia). split; [done|].
  unfold ValidateRootMetadataV1 in Hvalid. unfold protocolTime in *.
  destruct (parseProtocolTime (rm_ValidFrom payload)) as [vf|] eqn:Ef; [|done].
  destruct (parseProtocolTime (rm_ValidUntil payload)) as [vu|] eqn:Eu; [|done]. cbn [default] in *. unfold id in *.
  case_top Hvalid; [done|]. bool_props. unfold After in *. bool_props.
  destruct (protocol_time_seconds _ _ Ef) as [_ Ef'], (protocol_time_seconds _ _ Eu) as [_ Eu'].
  unfold stored_record, root_row, protocolTime.
  cbn [rr_Version rr_CanonicalPayload rr_Signature rr_ValidFrom rr_ValidUntil rr_CreatedAt]. rewrite Hi.
  unfold IsZero, time_Equal, UTC. rewrite Ef, Eu. cbn [t_nanos default]. unfold id. rewrite !column_time_second by done.
  rewrite (proj2 (Z.leb_gt version 0)), (proj2 (Z.ltb_ge (len (sr_PayloadJCS value)) 2)),
    (proj2 (Z.ltb_ge maximumCanonicalPayloadBytes (len _))), Hlen by lia.
  rewrite Henc. destruct value as [text sigtext]. cbn [sr_PayloadJCS sr_Signature] in *. rewrite Hv, Hpi.
  assert (t_nanos (column_time (Time (t_nanos now) true)) <> 0) as Hc
    by (rewrite column_time_floor; cbn [t_nanos]; pose proof (Z.div_le_mono 1000 (t_nanos now) 1000 ltac:(lia) Hnow); rewrite Z.div_same in *; lia).
  assert (u64 version = version) as -> by (unfold u64, MaxInt64 in *; apply Z.mod_small; lia).
  rewrite (proj2 (Z.eqb_neq (t_nanos vf) 0)), (proj2 (Z.eqb_neq (t_nanos vu) 0)), (proj2 (Z.eqb_neq _ 0) Hc) by lia.
  cbn [mbind option_bind negb orb]. rewrite Ef, Eu. cbn [from_option]. rewrite !Z.eqb_refl. done.
Qed.

(** ** What is accepted *)

Lemma key_row_ok validFrom validUntil previous seen version key :
  validRootKey validFrom validUntil previous seen key = true ->
  readable_key key /\ len (default [] (b64_DecodeLax (sk_PublicKey key))) = PublicKeySize /\ key_row_checks (key_row version key) = true.
Proof.
  intros Hk. unfold validRootKey in Hk.
  destruct (parseProtocolTime (sk_NotBefore key)) as [nb|] eqn:En; [|done].
  destruct (parseProtocolTime (sk_NotAfter key)) as [na|] eqn:Ea; [|done].
  destruct (b64_DecodeString (sk_PublicKey key)) as [pk|] eqn:Ep; [|done]. bool_props.
  pose proof (b64_relaxed _ _ Ep) as El. rewrite El.
  split; [split_and!; eexists; [exact El|exact En|exact Ea]|]. cbn [default]. unfold id. split; [done|].
  unfold key_row_checks, key_row, protocolTime.
  cbn [kr_KeyID kr_Algorithm kr_PublicKey kr_State kr_NotBefore kr_NotAfter]. rewrite El, En, Ea. cbn [default]. unfold id.
  match goal with Hid : validKeyID _ = true |- _ => unfold validKeyID in Hid; rename Hid into Hkey end.
  apply andb_true_iff in Hkey as [Hkey Hchars]. rewrite Hkey.
  assert (forallb key_id_char (sk_KeyID key) = true) as ->.
  { rewrite forallb_forall in Hchars |- *. intros c Hc. specialize (Hchars c Hc). destruct c; try discriminate Hchars; reflexivity. }
  unfold After, Before in *. bool_props.
  destruct (protocol_time_seconds _ _ En) as [_ En'], (protocol_time_seconds _ _ Ea) as [_ Ea']. rewrite !column_time_second by done.
  rewrite (proj2 (Z.ltb_lt _ _)), andb_true_r by lia. rewrite !andb_true_iff. split_and!; try done.
  - by apply Z.eqb_eq.
  - by apply bool_decide_eq_true_2.
Qed.

Lemma keys_row_ok validFrom validUntil version keys : forall previous seen,
  validRootKeys validFrom validUntil previous seen keys = true ->
  Forall (fun key => readable_key key /\ len (default [] (b64_DecodeLax (sk_PublicKey key))) = PublicKeySize /\
                     key_row_checks (key_row version key) = true) keys.
Proof.
  induction keys as [|key keys IH]; intros previous seen Hv; [constructor|]. cbn [validRootKeys] in Hv.
  destruct (validRootKey _ _ _ _ _) eqn:Ek; [|done]. constructor; [by eapply key_row_ok|by eapply IH].
Qed.

Lemma insert_keys_calm version keys oracle : calm oracle -> forall n s,
  is_Some (tt_roots s !! version) -> Forall (fun key => tt_keys s !! sk_KeyID key = None) keys -> NoDup (map sk_KeyID keys) ->
  Forall (fun key => readable_key key /\ len (default [] (b64_DecodeLax (sk_PublicKey key))) = PublicKeySize /\
                     key_row_checks (key_row version key) = true) keys ->
  exists n' s', insert_keys version keys oracle n s = (Ok tt, n', s').
Proof.
  intros Hc. induction keys as [|key keys IH]; intros n s Hroot Habs Hnd Hok; [by do 2 eexists|].
  inversion Habs as [|? ? Ha Habs']; subst. cbn [map] in Hnd. apply list.NoDup_cons in Hnd as [Hni Hnd].
  inversion Hok as [|? ? (([pk Ek] & [nb En] & [na Ea]) & Hlen & Hrow) Hok']; subst.
  cbn [insert_keys]. rewrite Ek, En, Ea in *. cbn [default] in Hlen. unfold id in Hlen. rewrite Hlen.
  unfold tx_bind at 1. cbn [negb Z.eqb Pos.eqb PublicKeySize tx_guard tx_ret].
  erewrite calm_write; [|done|].
  2: { unfold InsertSigningKeyMetadata. unfold key_row, protocolTime in Hrow. rewrite Ek, En, Ea in Hrow. cbn [default] in Hrow. unfold id in Hrow.
       rewrite Hrow. cbn [kr_KeyID kr_RootMetadataVersion]. rewrite Ha. destruct Hroot as [r ->]. reflexivity. }
  apply IH; [done| |done|done].
  rewrite list.Forall_forall in Habs' |- *. intros key' Hin. cbn [tt_keys with_keys]. apply lookup_insert_None. split; [by apply Habs'|].
  intros Heq. apply Hni. rewrite Heq. by apply list_elem_of_fmap_2.
Qed.

Lemma listed_verify s records : listing s = Some records ->
  forall record, record ∈ records -> exists payload version, verifyRootMetadataSignature record trustedRoots = Ok (payload, version) /\ 0 < version.
Proof.
  unfold listing. case_match; [done|]. intros Hm record Hin. apply mapM_Some_1 in Hm. apply list_elem_of_lookup in Hin as [i Hi].
  destruct (Forall2_lookup_r _ _ _ _ _ Hm Hi) as (root & _ & Hl). unfold listed in Hl.
  destruct (stored_record trustedRoots root) as [[record' payload]|] eqn:Es; [|done]. cbn [mbind option_bind] in Hl.
  case_top Hl; [|done]. injection Hl as ->. apply stored_version in Es as [Hpos Hv]. by exists payload, (rr_Version root).
Qed.

Lemma highest_below records limit : forall highest, highest < limit ->
  (forall record, record ∈ records -> exists payload version, verifyRootMetadataSignature record trustedRoots = Ok (payload, version) /\ version < limit) ->
  exists top, highestVersion trustedRoots records highest = Some top /\ top < limit.
Proof.
  induction records as [|record records IH]; intros highest Hh Hall; [by exists highest|]. cbn [highestVersion].
  destruct (Hall record ltac:(by left)) as (payload & version & -> & Hlt). apply IH; [by case_match|].
  intros r Hin. apply Hall. by right.
Qed.

(** A version newer than the listed ones, with new keys, is accepted. *)
Lemma publish_accepted now value payload version oracle s records : metadata_ok s -> calm oracle ->
  verifyRootMetadataSignature value trustedRoots = Ok (payload, version) -> listing s = Some records ->
  (forall record p v, record ∈ records -> verifyRootMetadataSignature record trustedRoots = Ok (p, v) -> v < version) ->
  (forall key, key ∈ rm_SigningKeys payload -> tt_keys s !! sk_KeyID key = None) ->
  exists s', Publish trustedRoots now value CommitOk oracle s = (Ok tt, s').
Proof.
  intros Hok Hc Hv Hl Hnew Hfresh. destruct (verified_facts _ _ _ Hv) as [Hsize (signature & Hs & Hlen & _) Hvalid (_ & _ & Hr)].
  assert (i64 version = version) as Hi by (apply i64_id; unfold is_i64, MaxInt64 in *; lia).
  destruct (highest_below records version 0) as (top & Htop & Hlt); [lia| |].
  { intros record Hin. destruct (listed_verify _ _ Hl _ Hin) as (p & v & Hver & _). exists p, v. split; [done|by eapply Hnew]. }
  pose proof (old_versions _ _ _ Hl Htop) as Hold.
  unfold ValidateRootMetadataV1 in Hvalid.
  destruct (parseProtocolTime (rm_ValidFrom payload)) as [vf|] eqn:Ef; [|done].
  destruct (parseProtocolTime (rm_ValidUntil payload)) as [vu|] eqn:Eu; [|done]. case_top Hvalid; [done|].
  destruct (validRootKeys vf vu [] [] (rm_SigningKeys payload)) eqn:Erk; [|done]. bool_props.
  unfold Publish, WithinTransaction.
  enough (exists n' s', publish_tx trustedRoots now value oracle 0%nat s = (Ok tt, n', s')) as (n' & s' & ->) by (by exists s').
  destruct (list_records_calm (ListTrustRootMetadata s) oracle 1 s Hc) as [n1 Hrec]. unfold listing in Hl. case_top Hl; [done|].
  unfold publish_tx. unfold tx_bind at 1, tx_or.
  assert (listStoredMetadata trustedRoots oracle 0%nat s = (Ok records, n1, s)) as ->.
  { unfold listStoredMetadata. rewrite calm_read by done. unfold tx_bind, tx_guard.
    match goal with Hm : (maximumMetadataVersions <? _) = false |- _ => rewrite Hm end. cbn. by rewrite Hrec, Hl. }
  rewrite Hv, Htop. unfold tx_bind at 1. rewrite (proj2 (Z.leb_gt _ _)) by lia. cbn [tx_guard tx_ret]. rewrite Hs.
  unfold tx_bind at 1. rewrite Hlen. cbn [negb Z.eqb Pos.eqb SignatureSize tx_guard tx_ret]. rewrite Hi.
  erewrite calm_write; [|done|].
  2: { unfold InsertTrustRootMetadata. cbn [rr_Version rr_CanonicalPayload rr_Signature rr_ValidFrom rr_ValidUntil].
       assert (tt_roots s !! version = None) as ->.
       { destruct (tt_roots s !! version) as [r|] eqn:E; [|done]. exfalso. pose proof (mo_root _ Hok _ _ E).
         assert (rr_Version r <= top) by (apply Hold, roots_in_table; by exists version). lia. }
       unfold protocolTime. rewrite Ef, Eu. cbn [default]. unfold id, Before, After in *. bool_props.
       destruct (protocol_time_seconds _ _ Ef) as [_ Ef'], (protocol_time_seconds _ _ Eu) as [_ Eu']. rewrite !column_time_second by done.
       unfold maximumCanonicalPayloadBytes in *. rewrite Hlen.
       rewrite (proj2 (Z.leb_gt version 0)), (proj2 (Z.ltb_ge (len (sr_PayloadJCS value)) 2)),
         (proj2 (Z.ltb_ge 65536 (len (sr_PayloadJCS value)))), (proj2 (Z.ltb_lt (t_nanos vf) (t_nanos vu))) by lia.
       reflexivity. }
  apply insert_keys_calm; [done|cbn; by rewrite lookup_insert_eq; eexists|..].
  - rewrite list.Forall_forall. intros key Hin. by apply Hfresh.
  - apply sorted_keys in Erk as [Hsort _]. clear -Hsort. induction Hsort as [|key l Hsort IH Hall]; [constructor|]. cbn [map].
    apply list.NoDup_cons. split; [|done]. intros (key' & Heq & Hin)%list_elem_of_fmap. rewrite list.Forall_forall in Hall.
    specialize (Hall _ Hin). rewrite <- Heq in Hall. pose proof (bytes_lt_asym _ _ Hall). congruence.
  - by eapply keys_row_ok.
Qed.

(** A published version is read back. *)
Lemma published_read now value payload version oracle s s' :
  metadata_ok s -> verifyRootMetadataSignature value trustedRoots = Ok (payload, version) ->
  1000 <= t_nanos now -> 0 < t_nanos (protocolTime (rm_ValidFrom payload)) ->
  Publish trustedRoots now value CommitOk oracle s = (Ok tt, s') ->
  metadata_ok s' /\ exists records, listing s = Some records /\ forall calmly, calm calmly ->
    ListMetadata trustedRoots false calmly s' =
      if len records <? maximumMetadataVersions then Ok (records ++ [value]) else Err ErrRepository.
Proof.
  intros Hok Hv Hnow Hfrom Hp. pose proof (WithinTransaction_cases _ _ _ _ _ _ _ Hp) as Hr. cbn in Hr.
  destruct (publish_runs _ _ _ _ _ Hr) as (existing & payload' & version' & signature & [Hl Hv' (top & Htop & Hlt) [Hs _] Habs Hnd _ ->]).
  rewrite Hv in Hv'. injection Hv' as <- <-.
  destruct (published_row _ _ _ _ _ Hv Hs Hnow Hfrom) as [Hi Hrow]. rewrite Hi.
  set (root := root_row now value payload version signature) in *. set (s1 := with_keys _ _).
  pose proof (old_versions _ _ _ Hl Htop) as Hold.
  assert (rr_Version root = version) as Hrv by (cbn; done).
  assert (tt_roots s !! version = None) as Hfree.
  { destruct (tt_roots s !! version) as [r|] eqn:E; [|done]. exfalso. pose proof (mo_root _ Hok _ _ E) as Er.
    assert (rr_Version r <= top) by (apply Hold, roots_in_table; by exists version). lia. }
  clear Hp Hr.
  assert (ListTrustRootMetadata s1 = ListTrustRootMetadata s ++ [root]) as Hroots.
  { pose proof (list_roots_add s root Hok) as Ha. rewrite Hrv in Ha. unfold ListTrustRootMetadata in Ha |- *. cbn in Ha |- *.
    apply Ha; [done|]. intros r Hr. apply Hold in Hr. lia. }
  assert (forall v, v <> version -> ListSigningKeysForMetadata v s1 = ListSigningKeysForMetadata v s) as Hkeys
    by (intros v Hne; by apply (old_keys s version (rm_SigningKeys payload))).
  assert (metadata_ok s1) as Hok1.
  { split; cbn.
    - intros v r [[<- <-]|[_ Hr']]%lookup_insert_Some; [done|by apply (mo_root _ Hok)].
    - intros k r [Hr'|(key & _ & -> & ->)]%added_keys.
      + destruct (mo_key _ Hok _ _ Hr') as [-> [r' Hr'']]. split; [done|]. apply lookup_insert_is_Some'. right. by eexists.
      + split; [done|]. cbn. apply lookup_insert_is_Some'. by left. }
  split; [done|]. exists existing. split; [done|]. intros calmly Hc. rewrite ListMetadata_calm by done.
  unfold listing in Hl |- *. rewrite Hroots. case_top Hl; [done|]. bool_props.
  assert (len (ListTrustRootMetadata s) = len existing) as Hlen by (unfold len; by rewrite (length_mapM _ _ _ Hl)).
  assert (mapM (listed s1) (ListTrustRootMetadata s ++ [root]) = Some (existing ++ [value])) as ->.
  { apply mapM_Some, Forall2_app.
    - apply mapM_Some. rewrite <- Hl. apply mapM_ext_in. intros r Hin. unfold listed. rewrite Hkeys; [done|]. apply Hold in Hin. lia.
    - constructor; [|constructor]. unfold listed. rewrite Hrow. cbn [mbind option_bind]. rewrite Hrv.
      destruct (verified_facts _ _ _ Hv) as [_ _ Hvalid _]. unfold ValidateRootMetadataV1 in Hvalid. unfold protocolTime in Hfrom.
      destruct (parseProtocolTime (rm_ValidFrom payload)) as [vf|]; [|done]. case_top Hvalid; [|done].
      case_top Hvalid; [done|]. destruct (validRootKeys _ _ _ _ _) eqn:Erk; [|done].
      rewrite (new_keys s version (rm_SigningKeys payload)); try done; [|by eapply sorted_keys].
      by rewrite (keys_match _ _ _ _ Hfrom _ _ Erk). }
  rewrite len_app, Hlen. change (len [root]) with 1.
  destruct (Z.ltb_spec (len existing) maximumMetadataVersions) as [Hlt2|Hge].
  - by rewrite (proj2 (Z.ltb_ge _ _)) by lia.
  - by rewrite (proj2 (Z.ltb_lt _ _)) by lia.
Qed.

(** C27 (published_listed): let [records] be what [List] gives, at most
    [maximumMetadataVersions] versions. A version that verifies, is newer than all
    of them and names only new keys is accepted when no statement fails, even when
    the limit is reached. Whenever a version is accepted, whatever else happened,
    it is read back: [List] then gives [records] with the published record at the
    end, so that another process trusts exactly what was published; but if the
    limit was reached nothing can be read any more. The database orders texts
    bytewise. *)
Theorem published_listed now value payload version s records calmly :
  metadata_ok s -> calm calmly -> ListMetadata trustedRoots false calmly s = Ok records ->
  verifyRootMetadataSignature value trustedRoots = Ok (payload, version) ->
  1000 <= t_nanos now -> 0 < t_nanos (protocolTime (rm_ValidFrom payload)) ->
  len records <= maximumMetadataVersions /\
  ((forall record p v, record ∈ records -> verifyRootMetadataSignature record trustedRoots = Ok (p, v) -> v < version) ->
   (forall key, key ∈ rm_SigningKeys payload -> tt_keys s !! sk_KeyID key = None) ->
   forall oracle, calm oracle -> exists s', Publish trustedRoots now value CommitOk oracle s = (Ok tt, s')) /\
  (forall oracle s', Publish trustedRoots now value CommitOk oracle s = (Ok tt, s') ->
   metadata_ok s' /\ forall calm_later, calm calm_later ->
     ListMetadata trustedRoots false calm_later s' =
       if len records <? maximumMetadataVersions then Ok (records ++ [value]) else Err ErrRepository).
Proof.
  intros Hok Hc Hlist Hv Hnow Hfrom. rewrite ListMetadata_calm in Hlist by done.
  destruct (listing s) as [l|] eqn:Hl; [|done]. injection Hlist as ->. split_and!.
  - unfold listing in Hl. case_top Hl; [done|]. bool_props. unfold len in *. by rewrite <- (length_mapM _ _ _ Hl).
  - intros Hnew Hfresh oracle Ho. by eapply publish_accepted.
  - intros oracle s' Hp. destruct (published_read _ _ _ _ _ _ _ Hok Hv Hnow Hfrom Hp) as (Hok' & records' & Hl' & Hread).
    rewrite Hl in Hl'. injection Hl' as <-. by split.
Qed.
End Metadata.
