(* ===== verification/TrustApplicationRuns.v ===== *)
(** What the transactions of the trust application do to the tables. *)
From Stdlib Require Import ZArith Lia Strings.Byte.
From stdpp Require Import base gmap list sorting strings numbers option relations.
From S2P Require Import Prelude GoStd GoTime AuthorityTypes Ledger FenceStore Programs Transactions GoCrypto Text Sensitive Idempotency IdempotencyTheorems Tokens GoJson StrictJson Descriptors Events Outbox DeviceRows DeviceChallenge DeviceRotate DeviceSafety DeviceBundle.
From S2P Require Import TrustStore TrustJson TrustVerify TrustServer TrustSigner TrustSeal TrustRows TrustApplication TrustMetadata.

#[local] Open Scope go_scope.

(** ** Changes beside the trust tables *)

(** Only idempotency records and the outbox may have changed, and only as their
    operations change them. *)
Definition aside (s s' : tstate) : Prop :=
  s' = put_device (tt_device s') s /\ dle (tt_device s) (tt_device s') /\ device_same (tt_device s) (tt_device s').

#[export] Instance aside_preorder : PreOrder aside.
Proof.
  split.
  - intros s. split; [by destruct s as [[]]|]. split; [done|]. by unfold device_same.
  - intros a b c (Hb & Hab & Sab) (Hc & Hbc & Sbc). split; [|split; [by etrans|]].
    + rewrite Hc, Hb. by destruct a as [[]], b as [[]], c as [[]].
    + destruct Sab as (?&?&?&?), Sbc as (?&?&?&?). unfold device_same. split_and!; congruence.
Qed.

Lemma aside_tables s s' : aside s s' ->
  tt_highest s' = tt_highest s /\ tt_issuances s' = tt_issuances s /\ tt_acks s' = tt_acks s /\ tt_roots s' = tt_roots s /\
  tt_keys s' = tt_keys s /\ as_policies (tt_authority s') = as_policies (tt_authority s).
Proof. intros (-> & _). done. Qed.

Section Runs.
Context `{Primitives} `{UUIDText} `{Protobuf} `{TimestampColumn} {TL : TimestampColumnLaws} `{PL : ProtectorLaws} `{NetURL}
  `{Unicode} `{HPKESender}.
Context {P : tchoice -> Prop}.
Implicit Types (s : tstate).

Abbreviation may := (runs_under P).

(** ** Calls on the shared tables *)

Lemma shared_runs {A} (m : txn choice dstate device_err A) s a s' :
  may (shared m) s a s' -> exists db, runs m (tt_device s) a db /\ s' = put_device db s.
Proof. apply runs_zoom. Qed.

Lemma aside_put s db : dle (tt_device s) db -> device_same (tt_device s) db -> aside s (put_device db s).
Proof. by intros; split. Qed.

(** A completed record of the idempotency table holds this response; it expires at
    [expires] and stands for the request with the digest [digest]. *)
Definition recorded (authorizationID : UUID) (operation key : bytes) (status : Z) (body : bytes) s : Prop :=
  exists scope kd r, AuthenticatedScope authorizationID deviceCredentialDomain operation = Ok scope /\
    KeyDigest key = Ok kd /\ is_table (ds_idem (tt_device s)) !! (sc_Principal scope, sc_Operation scope, kd) = Some r /\
    iw_state r = "completed"%string /\ stored_response r = Ok (status, body).

Record answers (scope : Scope) (key canonical : bytes) (expires : time) (status : Z) (body : bytes) (kd rd : Digest)
    (r : IdempotencyRow) s : Prop := {
  an_key : KeyDigest key = Ok kd;
  an_request : RequestDigest (sc_Operation scope) canonical = Ok rd;
  an_scope : validScope scope = true;
  an_row : is_table (ds_idem (tt_device s)) !! (sc_Principal scope, sc_Operation scope, kd) = Some r;
  an_holds : holds (sc_Principal scope, sc_Operation scope, kd) rd expires status body r }.

(** A request that started: its record is in the table. *)
Record started (scope : Scope) (key canonical : bytes) (now : time) (entry : transactionIdempotency) s (kd rd : Digest) : Prop := {
  st_key : KeyDigest key = Ok kd;
  st_request : RequestDigest (sc_Operation scope) canonical = Ok rd;
  st_record : ti_record entry = started_record scope kd rd now (time_Add now bundleIdempotencyRetention);
  st_row : is_table (ds_idem (tt_device s)) !! (sc_Principal scope, sc_Operation scope, kd) =
    Some (begin_row scope kd rd now (time_Add now bundleIdempotencyRetention)) }.

Lemma Begin_started e scope key canonical c x i record i' :
  Begin e scope key canonical c x i = (Ok (record, Started), i') ->
  exists kd rd, KeyDigest key = Ok kd /\ RequestDigest (sc_Operation scope) canonical = Ok rd /\
    record = started_record scope kd rd c x /\
    is_table i' !! (sc_Principal scope, sc_Operation scope, kd) = Some (begin_row scope kd rd c x).
Proof.
  intros Hb. destruct (Begin_table _ _ _ _ _ _ _ _ _ Hb) as [_ Hs]. destruct (Hs _ eq_refl) as (kd & rd & Hkd & Hrd & _ & Hrow).
  exists kd, rd. split_and!; try done. unfold Begin in Hb. rewrite Hrd, Hkd in Hb.
  case_top Hb; [done|]. case_top Hb; [done|].
  destruct (TryBeginIdempotency _ _ _) as [[rows|err] t]; [|done]. case_top Hb; [by simplify_eq|].
  repeat case_in Hb; by simplify_eq.
Qed.

Lemma begin_runs authorizationID operation key canonical now s entry s' :
  may (beginTrustIdempotency authorizationID operation key canonical now) s entry s' ->
  aside s s' /\
  (ti_outcome entry = Replay -> recorded authorizationID operation key (ti_status entry) (ti_response entry) s') /\
  (ti_outcome entry = Started -> exists scope kd rd,
     AuthenticatedScope authorizationID deviceCredentialDomain operation = Ok scope /\ started scope key canonical now entry s' kd rd).
Proof.
  unfold beginTrustIdempotency. destruct (AuthenticatedScope _ _ _) as [scope|e] eqn:Es; [|by intros Hr%runs_fail].
  unfold TrustBeginIdempotency. intros Hr. inv_run.
  match goal with Hs : may (shared _) _ ?x _ |- _ => destruct x as [record outcome];
    apply shared_runs in Hs as (db & (e & i & Hbegin & -> & Hle & Hsame)%BeginIdempotency_runs & ->) end.
  case_bool_decide; inv_run; cbn [ti_outcome ti_status ti_response ti_record].
  2: { split; [by apply aside_put|]. split; [done|]. intros ->.
       apply Begin_started in Hbegin as (kd & rd & Hkd & Hrd & -> & Hrow). exists scope, kd, rd. by split. }
  subst outcome.
  match goal with Hs : may (shared _) _ _ _ |- _ =>
    apply shared_runs in Hs as (db' & (Hle' & Hidem & Htable & Hbody)%TakeBody_runs & ->) end.
  pose proof (idem_only_same _ _ Hidem) as Hsame'.
  match goal with Hr : may (match ?x with _ => _ end) _ _ _ |- _ => destruct x as [body|] end; inv_run.
  split; [by etrans; apply aside_put|]. split; [|done]. intros _. cbn [ti_status ti_response].
  apply Begin_replay in Hbegin as (kd & r & body' & l & Hk & Hl & Hst & Hresp & Hloc & Hcell).
  pose proof (Hbody _ _ Hloc Hcell) as [= ->].
  exists scope, kd, r. split_and!; try done. cbn. by rewrite Htable.
Qed.

(** Completing a record that was started. *)
Lemma complete_runs scope key canonical now entry status body s0 s u s' kd rd :
  started scope key canonical now entry s0 kd rd -> dle (tt_device s0) (tt_device s) ->
  may (TrustCompleteIdempotency entry status body) s u s' ->
  aside s s' /\
  exists r, answers scope key canonical (column_time (time_Add now bundleIdempotencyRetention)) status body kd rd r s'.
Proof using PL.
  intros [Hkd Hrd Hrec Hrow] Hle (db & Hr & ->)%shared_runs.
  pose proof (Complete_runs _ _ _ _ _ _ Hr) as (Hle' & Hsame & _).
  unfold CompleteIdempotencyRecord in Hr. apply runs_step in Hr as (ch & Hr).
  destruct (Complete _ _ _ _ _ _) as [[d|err] i] eqn:Hc; [|done].
  destruct (Complete_table _ _ _ _ _ _ _ _ Hc) as (_ & Hd). destruct (Hd d eq_refl) as (_ & (r & Hl & Hh) & Hscope & _).
  pose proof (Take_table d i) as Htake. destruct (TakeResponseBody d i) as [[b|] i'] eqn:Ht; [|done]. cbn in Htake. simplify_eq.
  split; [by apply aside_put|]. exists r. rewrite Hrec in *. unfold handle_key, started_record in *.
  cbn [ir_principalScope ir_operation ir_keyDigest ir_requestDigest] in *.
  assert (ir_expiresAt d = column_time (time_Add now bundleIdempotencyRetention)) as Hex.
  { destruct (le_idem _ _ Hle _ _ Hrow) as (r1 & Hl1 & Hm1). destruct (le_idem _ _ Hle' _ _ Hl1) as (r2 & Hl2 & Hm2).
    cbn [with_idem ds_idem] in Hl2. rewrite Htake, Hl in Hl2. injection Hl2 as <-.
    apply row_moves_times in Hm1 as [_ Hm1], Hm2 as [_ Hm2]. by rewrite <- (h_expires _ _ _ _ _ _ Hh), Hm2, Hm1. }
  rewrite <- Hex. destruct scope as [principal op]. split; try done. cbn. by rewrite Htake.
Qed.

Lemma append_runs event s u s' : may (TrustAppendEvent event) s u s' -> aside s s'.
Proof. intros (db & (Hle & Hsame & _)%AppendEvent_runs & ->)%shared_runs. by apply aside_put. Qed.

Lemma read_may {A} (f : tstate -> A) s a s' : may (read f) s a s' -> s' = s /\ a = f s.
Proof. intros Hr%runs_any. by apply read_runs. Qed.

Lemma write_may {A} (f : tstate -> option (A * tstate)) s a s' : may (write f) s a s' -> f s = Some (a, s').
Proof. intros Hr%runs_any. by apply write_runs. Qed.

(** ** Values drawn *)

(** A time of whole seconds in UTC. *)
Definition whole_second (t : time) : Prop := t_utc t = true /\ t_nanos t mod Second = 0.

Lemma truncated_second t : whole_second (Truncate (UTC t) Second).
Proof.
  split; [done|]. unfold Truncate. cbn [t_nanos UTC Z.leb Z.compare]. pose proof (Z.div_mod (t_nanos t) Second ltac:(done)) as Hd.
  replace (t_nanos t - t_nanos t mod Second) with (t_nanos t / Second * Second) by lia. by apply Z.mod_mul.
Qed.

Lemma now_runs s now s' : may trust_now s now s' ->
  s' = s /\ whole_second now /\ exists ch t, P ch /\ tc_clock ch = Some t /\ now = Truncate (UTC t) Second.
Proof.
  unfold trust_now. intros (ch & Hc & Hr)%runs_step_under. destruct (tc_clock ch) as [t|] eqn:E; [|done].
  case_match; [done|]. simplify_eq. split; [done|]. split; [apply truncated_second|by exists ch, t].
Qed.

Lemma draw_id_runs s id s' : may draw_id s id s' -> s' = s /\ id <> uuid_Nil /\ len id = 16.
Proof.
  unfold draw_id. intros (ch & _ & Hr)%runs_step_under. unfold trust_randomUUID in Hr. destruct (readPadding _ 16) as [raw|] eqn:Eraw; [|done].
  cbn [mbind option_bind] in Hr. case_match eqn:E; [|done]. case_match; [done|]. bool_props. simplify_eq. split_and!; [done..|].
  unfold readPadding in Eraw. case_match; [|done]. bool_props. injection Eraw as <-. unfold set_bits, len in *.
  rewrite !length_alter, length_take. lia.
Qed.

Lemma draw_locator_runs s locator s' : may draw_locator s locator s' -> s' = s /\ len locator = 32.
Proof.
  unfold draw_locator. intros (ch & _ & Hr)%runs_step_under. unfold readPadding in Hr. case_match eqn:E; [|done].
  case_match; [|done]. bool_props. simplify_eq. split; [done|]. unfold len in *. rewrite length_take. lia.
Qed.

Lemma or_fail_runs {A} (r : result trust_error A) s a s' : may (or_fail r) s a s' -> s' = s /\ r = Ok a.
Proof. unfold or_fail. destruct r; intros Hr; inv_run; done. Qed.

Lemma keyID_runs s keyID s' : may signer_KeyID s keyID s' -> s' = s /\ exists ch, P ch /\ keyID = tc_keyID ch.
Proof. unfold signer_KeyID. intros (ch & Hc & Hr)%runs_step_under. simplify_eq. eauto. Qed.

Lemma context_runs s b s' : may context_done s b s' -> s' = s.
Proof. unfold context_done. intros (ch & Hc & Hr)%runs_step_under. by simplify_eq. Qed.

Lemma config_runs s c s' : may current_config s c s' -> s' = s /\ exists ch, P ch /\ c = tc_current ch.
Proof. unfold current_config. intros (ch & Hc & Hr)%runs_step_under. simplify_eq. eauto. Qed.

(** What a call of the signer may answer. *)
Definition answered X (c : signer_call X) (x : X) : Prop := exists ch, P ch /\ x = signer_answer X c ch.

Lemma sign_runs payload s signed s' : may (sign_bundle payload) s signed s' ->
  s' = s /\ may_return answered (SignBundleV1 (Some signer_ctx) payload (Some signer_ops)) (Ok signed).
Proof.
  unfold sign_bundle. intros Hr. inv_run. apply or_fail_runs in Hr as [-> ->].
  by match goal with Hp : may (tx_prog _ _) _ _ _ |- _ => apply runs_prog in Hp as [-> Hm] end.
Qed.

Lemma seal_runs recipient locator signed s sealed s' : may (seal_bundle recipient locator signed) s sealed s' ->
  s' = s /\ exists random entropy, Seal (Some random) entropy recipient locator signed = Ok sealed.
Proof.
  unfold seal_bundle. intros (ch & _ & Hr)%runs_step_under. destruct (Seal _ _ _ _ _) eqn:E; [|done]. simplify_eq. eauto.
Qed.

Lemma encrypt_runs locator s protected s' : may (encrypt_locator locator) s protected s' ->
  s' = s /\ exists n, protector_Encrypt n locatorProtectionDomain locator = Ok protected.
Proof.
  unfold encrypt_locator. intros (ch & _ & Hr)%runs_step_under. destruct (protector_Encrypt _ _ _) eqn:E; [|done]. simplify_eq. eauto.
Qed.

Lemma marshal_event_runs eventType p s encoded s' : may (marshal_event eventType p) s encoded s' -> s' = s.
Proof. unfold marshal_event. case_match; intros Hr; inv_run; done. Qed.

(** ** Authorization *)

Lemma authority_runs svc authorizationID accessToken s authority s' :
  may (authorize svc authorizationID accessToken) s authority s' ->
  s' = s /\ ba_AuthorizationID authority = authorizationID /\ ba_HPKEPublicKey authority <> zero_digest /\
  validDevicePolicyV1 (ba_Policy authority) = true /\
  exists ch clock now family authorization device snapshot,
    P ch /\ tc_clock ch = Some clock /\ now = UTC clock /\
    authority_rows (av_device svc) accessToken now (tt_authority s) authority family authorization device snapshot.
Proof.
  unfold authorize. intros Hr. inv_run.
  match goal with Hc : may context_done _ _ _ |- _ => apply context_runs in Hc as -> end.
  match goal with Ha : may (tx_zoom _ _ _ _ _) _ _ _ |- _ => apply runs_zoom_under in Ha as (part & Ha & ->); rename Ha into Hauth end.
  unfold AuthorizeBundleInTransaction in Hauth. inv_run.
  apply authorize_runs in Hauth as (-> & ? & now & family & az & dv & pl & (ch & Hch & ->) & Hclock & Hrows). bool_props.
  apply valid_now_clock in Hclock as (t & Ht & Hnow & _).
  split; [by destruct s|]. split_and!; [done..|]. by exists ch, t, now, family, az, dv, pl.
Qed.

(** ** A bundle that is made *)

Definition issuance_value (authority : BundleAuthority) (now : time) (issued : IssuedBundle) (envelope keyID : bytes) : bundleIssuance :=
  MkBundleIssuance (nb_BundleID issued) (ba_AuthorizationID authority) (nb_BundleVersion issued) (nb_Locator issued) envelope
    (nb_EnvelopeSHA256 issued) keyID now now (time_Add now bundleLifetime).

Record bundle_made (svc : trust_service) (authority : BundleAuthority) (testConfig : TestConfigV1) (now : time) s s'
    (issued : IssuedBundle) (envelope keyID : bytes) (protected : EncryptedField) (signed : SignedBundleV1) : Prop := {
  bm_upsert : UpsertHighest (ba_AuthorizationID authority) now s =
    Some (nb_BundleVersion issued, with_highest (tt_highest s') s);
  bm_insert : InsertBundleIssuance
    (issuance_row (issuance_value authority now issued envelope keyID) (LocatorDigest (nb_Locator issued)) protected)
    (with_highest (tt_highest s') s) = Some (tt, s');
  bm_version : 1 <= nb_BundleVersion issued <= MaxInt64 /\ tc_Sequence testConfig = FormatUint (nb_BundleVersion issued) 10;
  bm_ids : (nb_BundleID issued <> uuid_Nil /\ len (nb_BundleID issued) = 16) /\ len (nb_Locator issued) = 32 /\ LocatorDigest (nb_Locator issued) <> zero_digest;
  bm_protected : ef_KeyVersion protected <= 2 ^ 31 - 1 /\
    exists n, protector_Encrypt n locatorProtectionDomain (nb_Locator issued) = Ok protected;
  bm_valid : validBundleIssuance (issuance_value authority now issued envelope keyID) = true;
  bm_key : exists ch publicKey, P ch /\
    SelectSigningKeyForIssue (av_metadata svc) (tc_keyID ch) now (time_Add now bundleLifetime) = Ok publicKey;
  bm_signed : may_return answered (SignBundleV1 (Some signer_ctx)
    (bundle_payload (nb_BundleID issued) (nb_Locator issued) (nb_BundleVersion issued) authority testConfig now) (Some signer_ops))
    (Ok signed);
  bm_sealed : exists random entropy,
    Seal (Some random) entropy (ba_HPKEPublicKey authority) (nb_Locator issued) signed = Ok (envelope, nb_EnvelopeSHA256 issued) }.

Lemma upsert_shape id now s version s1 : UpsertHighest id now s = Some (version, s1) ->
  s1 = with_highest (<[id := MkHighestRow version (column_time now)]> (tt_highest s)) s /\ version <= MaxInt64 /\
  (tt_highest s !! id = None /\ version = 1 \/ exists row, tt_highest s !! id = Some row /\ version = hv_HighestIssued row + 1).
Proof.
  unfold UpsertHighest. destruct (tt_highest s !! id) as [row|] eqn:E.
  - case_match; [done|]. intros [= <- <-]. bool_props. split; [done|]. split; [lia|]. right. by exists row.
  - case_match; [done|]. intros [= <- <-]. split; [done|]. split; [by vm_compute|]. by left.
Qed.

Lemma insert_shape row s u s1 : InsertBundleIssuance row s = Some (u, s1) ->
  s1 = with_issuances (<[bi_ID row := row]> (tt_issuances s)) s /\ tt_issuances s !! bi_ID row = None /\
  issuance_checks row = true /\ (forall id r, tt_issuances s !! id = Some r -> issuance_unique row r = true) /\
  is_Some (ds_authorizations (tt_device s) !! bi_AuthorizationID row) /\ is_Some (tt_keys s !! bi_SignerKeyID row).
Proof.
  unfold InsertBundleIssuance. intros Hi. case_top Hi; [done|]. injection Hi as _ <-. bool_props.
  destruct (tt_issuances s !! bi_ID row); [done|]. destruct (ds_authorizations _ !! _); [|done]. destruct (tt_keys s !! _); [|done].
  split_and!; try done; [|by eexists..]. intros id r Hl.
  match goal with Hf : forallb _ _ = true |- _ => rewrite forallb_forall in Hf; apply Hf end.
  apply list_elem_of_In, list_elem_of_fmap. exists (id, r). split; [done|]. by apply elem_of_map_to_list.
Qed.

Lemma next_runs id now s version s' : may (NextBundleVersion id now) s version s' ->
  1 <= version <= MaxInt64 /\ UpsertHighest id now s = Some (version, s').
Proof.
  unfold NextBundleVersion. intros Hr. inv_run.
  match goal with Hw : may (write _) _ _ _ |- _ => apply write_may in Hw; rename Hw into Hup end. bool_props.
  pose proof (upsert_shape _ _ _ _ _ Hup) as (_ & Hmax & _). unfold u64, MaxInt64 in *. rewrite Z.mod_small by lia. split; [lia|done].
Qed.

Lemma insert_runs value s u s' : may (InsertBundle value) s u s' ->
  validBundleIssuance value = true /\ LocatorDigest (bu_Locator value) <> zero_digest /\
  exists protected, (ef_KeyVersion protected <= 2 ^ 31 - 1 /\
      exists n, protector_Encrypt n locatorProtectionDomain (bu_Locator value) = Ok protected) /\
    InsertBundleIssuance (issuance_row value (LocatorDigest (bu_Locator value)) protected) s = Some (tt, s').
Proof.
  unfold InsertBundle. intros Hr. inv_run.
  match goal with He : may (encrypt_locator _) _ _ _ |- _ => apply encrypt_runs in He as [-> He] end.
  apply write_may in Hr. bool_props. destruct u. split_and!; try done. by eexists.
Qed.

Lemma issue_runs svc authority testConfig now s made s' :
  may (issueAuthorized svc authority testConfig now) s made s' ->
  exists envelope keyID protected signed, bundle_made svc authority testConfig now s s' made.1 envelope keyID protected signed.
Proof using PL.
  unfold issueAuthorized. intros Hr. inv_run.
  match goal with Hs : may (seal_bundle _ _ _) _ ?sealed _ |- _ => destruct sealed as [envelope digest] end. inv_run.
  repeat match goal with
  | Hd : may draw_id _ _ _ |- _ => apply draw_id_runs in Hd as [-> Hd]
  | Hd : may draw_locator _ _ _ |- _ => apply draw_locator_runs in Hd as [-> Hd]
  | Hd : may signer_KeyID _ _ _ |- _ => apply keyID_runs in Hd as (-> & ? & ? & ->)
  | Hd : may (or_fail _) _ _ _ |- _ => apply or_fail_runs in Hd as [-> ?]
  | Hd : may (sign_bundle _) _ _ _ |- _ => apply sign_runs in Hd as [-> ?]
  | Hd : may (seal_bundle _ _ _) _ _ _ |- _ => apply seal_runs in Hd as [-> ?]
  | Hd : may (marshal_event _ _) _ _ _ |- _ => apply marshal_event_runs in Hd as ->
  | Hd : may (NextBundleVersion _ _) _ _ _ |- _ => apply next_runs in Hd as [? ?]
  | Hd : may (InsertBundle _) _ _ _ |- _ => apply insert_runs in Hd as (? & ? & ? & ? & ?)
  end.
  bool_props. eexists envelope, _, _, _. cbn [fst].
  match goal with Hu : UpsertHighest _ _ s = Some (_, ?s1), Hi : InsertBundleIssuance _ ?s1 = Some (_, ?s2) |- _ =>
    pose proof (upsert_shape _ _ _ _ _ Hu) as (Hs1 & _); pose proof (insert_shape _ _ _ _ Hi) as (Hs2 & _);
    assert (s1 = with_highest (tt_highest s2) s) as Heq by (by rewrite Hs2, Hs1);
    rewrite Heq in Hu, Hi
  end.
  split; try done. eauto.
Qed.

(** ** The transactions *)

(** What the authorization of a device found. *)
Record authorized (svc : trust_service) (authorizationID : UUID) (accessToken : bytes) (authority : BundleAuthority) s : Prop := {
  au_id : ba_AuthorizationID authority = authorizationID;
  au_key : ba_HPKEPublicKey authority <> zero_digest;
  au_policy : validDevicePolicyV1 (ba_Policy authority) = true;
  au_rows : exists ch clock now family authorization device snapshot,
    P ch /\ tc_clock ch = Some clock /\ now = UTC clock /\
    authority_rows (av_device svc) accessToken now (tt_authority s) authority family authorization device snapshot }.

(** A transaction that made a bundle: everything it did beside that went aside. *)
Record delivery (svc : trust_service) (authorizationID : UUID) (accessToken : bytes) (testConfig : TestConfigV1) (now : time)
    s s' (issued : IssuedBundle) (authority : BundleAuthority) (envelope keyID : bytes) (protected : EncryptedField)
    (signed : SignedBundleV1) (s1 s2 : tstate) : Prop := {
  dl_now : whole_second now /\ exists ch t, P ch /\ tc_clock ch = Some t /\ now = Truncate (UTC t) Second;
  dl_before : aside s s1;
  dl_authorized : authorized svc authorizationID accessToken authority s1;
  dl_made : bundle_made svc authority testConfig now s1 s2 issued envelope keyID protected signed;
  dl_digest : nb_EnvelopeSHA256 issued <> zero_digest;
  dl_after : aside s2 s' }.

Lemma authorize_authorized svc authorizationID accessToken s authority s' :
  may (authorize svc authorizationID accessToken) s authority s' -> s' = s /\ authorized svc authorizationID accessToken authority s.
Proof. intros (-> & ? & ? & ? & ?)%authority_runs. by split. Qed.

Lemma encode_digest value body : encodeIssuedReplay value = Some body -> nb_EnvelopeSHA256 value <> zero_digest.
Proof. unfold encodeIssuedReplay. intros He. case_top He; [done|]. by bool_props. Qed.

Lemma encode_resolution_digest svc bundle value : resolution svc bundle = Ok value ->
  len (sb_Locator bundle) = 32 /\ sb_EnvelopeSHA256 bundle <> zero_digest /\
  value = MkResolution (b64_EncodeToString (sb_Locator bundle)) (hex_encode (sb_EnvelopeSHA256 bundle))
            (map (fun baseURL => baseURL ++ sbytes "/b/" ++ b64_EncodeToString (sb_Locator bundle)) (av_bundleBaseURLs svc))
            ImmutableCacheControl.
Proof. unfold resolution. intros Hr. case_top Hr; [done|]. injection Hr as <-. by bool_props. Qed.

Lemma made_authority svc authority testConfig now s s' issued envelope keyID protected signed :
  bundle_made svc authority testConfig now s s' issued envelope keyID protected signed -> tt_authority s' = tt_authority s.
Proof. intros [_ Hi]. by apply insert_shape in Hi as [-> _]. Qed.

Ltac use_head :=
  match goal with Hn : may trust_now _ _ _ |- _ => apply now_runs in Hn as (-> & Hnow) end;
  match goal with Hb : may (beginTrustIdempotency _ _ _ _ _) _ _ _ |- _ => apply begin_runs in Hb as (Haside & Hreplay & Hstarted) end.

Ltac use_authorize :=
  match goal with Ha : may (authorize _ _ _) _ _ _ |- _ => apply authorize_authorized in Ha as [-> Hauth] end.

Lemma issue_tx_runs svc command canonical s issued s' :
  may (issue_tx svc command canonical) s issued s' ->
  (aside s s' /\ exists body, recorded (ic_AuthorizationID command) issueBundleOperation (ic_IdempotencyKey command)
     issueResponseStatus body s' /\ decodeIssuedReplay body = Some issued) \/
  exists now authority envelope keyID protected signed s1 s2,
    delivery svc (ic_AuthorizationID command) (ic_AccessToken command) (ic_TestConfig command) now s s' issued authority
      envelope keyID protected signed s1 s2 /\
    exists scope body kd rd r, AuthenticatedScope (ic_AuthorizationID command) deviceCredentialDomain issueBundleOperation = Ok scope /\
      encodeIssuedReplay issued = Some body /\
      answers scope (ic_IdempotencyKey command) canonical (column_time (time_Add now bundleIdempotencyRetention))
        issueResponseStatus body kd rd r s'.
Proof using PL.
  unfold issue_tx. intros Hr. inv_run. use_head. case_run Hr.
  - destruct Hstarted as (scope & kd & rd & Hscope & Hstarted); [done|]. right. inv_run. use_authorize.
    match goal with Hi : may (issueAuthorized _ _ _ _) _ _ _ |- _ => apply issue_runs in Hi as (envelope & keyID & protected & signed & Hmade) end.
    match goal with Hm : bundle_made _ _ _ _ _ _ (fst ?m) _ _ _ _ |- _ => destruct m as [issued' event]; cbn [fst] in Hm end.
    destruct (encodeIssuedReplay issued') as [body|] eqn:Ebody; inv_run.
    match goal with Ha : may (TrustAppendEvent _) _ _ _ |- _ => apply append_runs in Ha; rename Ha into Happend end.
    match goal with Hc : may (TrustCompleteIdempotency _ _ _) _ _ _ |- _ =>
      eapply (complete_runs scope _ _ _ _ _ _ _ _ _ _ kd rd Hstarted) in Hc as (Hafter & r & Hanswers) end.
    2: { destruct Happend as (_ & Hle & _). unfold tt_device in *. by rewrite <- (made_authority _ _ _ _ _ _ _ _ _ _ _ Hmade). }
    exists a, a1, envelope, keyID, protected, signed. eexists _, _. split.
    + split; try done; [by eapply encode_digest|by etrans].
    + by eexists scope, body, kd, rd, r.
  - left. destruct (decodeIssuedReplay _) eqn:Ed; inv_run. case_run Hr; inv_run. bool_props. split; [done|].
    eexists. split; [|done]. match goal with He : ti_status _ = issueResponseStatus |- _ => rewrite <- He end. by apply Hreplay.
  - inv_run.
  - inv_run.
Qed.

(** Reading a stored bundle. *)
Definition bundle_read (row : option IssuanceRow) (bundle : option storedBundle) : Prop :=
  match row with
  | None => bundle = None
  | Some row => exists b, bundle = Some b /\ storedBundleFromRow row = Some b
  end.

Lemma bundle_of_row_runs row s bundle s' : may (bundle_of_row row) s bundle s' -> s' = s /\ bundle_read row bundle.
Proof.
  unfold bundle_of_row, bundle_read. intros Hr. destruct row as [row|]; [|by inv_run].
  destruct (storedBundleFromRow row) as [b|] eqn:E; inv_run. split; [done|]. by exists b.
Qed.

Lemma latest_runs authorizationID s bundle s' : may (LatestBundle authorizationID) s bundle s' ->
  s' = s /\ bundle_read (GetLatestBundleIssuance authorizationID s) bundle.
Proof.
  unfold LatestBundle. intros Hr. inv_run. match goal with Hq : may (read _) _ _ _ |- _ => apply read_may in Hq as [-> ->] end.
  by apply bundle_of_row_runs in Hr.
Qed.

Lemma by_id_runs bundleID s bundle s' : may (BundleByID bundleID) s bundle s' ->
  s' = s /\ bundle_read (tt_issuances s !! bundleID) bundle.
Proof.
  unfold BundleByID. intros Hr. inv_run. match goal with Hq : may (read _) _ _ _ |- _ => apply read_may in Hq as [-> ->] end.
  by apply bundle_of_row_runs in Hr.
Qed.

(** A resolution that is not a replay: the sequence number it asked for, the bundle
    it gives, and the state in which the device was authorized. *)
Record selection (svc : trust_service) (query : ResolveQuery) (now : time) s s' (value : Resolution) (current : TestConfigV1)
    (target : Z) (bundle : storedBundle) (s1 : tstate) : Prop := {
  sl_now : whole_second now /\ exists ch t, P ch /\ tc_clock ch = Some t /\ now = Truncate (UTC t) Second;
  sl_before : aside s s1;
  sl_authorized : exists authority, authorized svc (rq_AuthorizationID query) (rq_AccessToken query) authority s1;
  sl_current : exists ch, P ch /\ tc_current ch = Some current;
  sl_target : ParseUint (tc_Sequence current) 10 64 = Some target /\ 1 <= target <= MaxInt64;
  sl_value : resolution svc bundle = Ok value;
  sl_bundle :
    (aside s s' /\ exists row, GetLatestBundleIssuance (rq_AuthorizationID query) s1 = Some row /\
       storedBundleFromRow row = Some bundle /\ target <= sb_BundleVersion bundle /\
       t_nanos (sb_NotBefore bundle) <= t_nanos now < t_nanos (sb_ExpiresAt bundle)) \/
    exists latest issued authority envelope keyID protected signed s2,
      bundle_read (GetLatestBundleIssuance (rq_AuthorizationID query) s1) latest /\
      match latest with
      | Some latest => target = u64 (sb_BundleVersion latest + 1)
      | None => target = 1
      end /\
      delivery svc (rq_AuthorizationID query) (rq_AccessToken query) current now s s' issued authority envelope keyID protected
        signed s1 s2 /\
      bundle = MkStoredBundle (nb_BundleID issued) (rq_AuthorizationID query) (nb_BundleVersion issued) (nb_Locator issued)
                 (nb_EnvelopeSHA256 issued) now now (time_Add now bundleLifetime) }.

(** Selecting the bundle of a resolution. *)
Lemma select_runs svc query authority current target latest now s bundle s' :
  may (select_bundle svc query authority current target latest now) s bundle s' ->
  (s' = s /\ latest = Some bundle /\ target <= sb_BundleVersion bundle /\
     t_nanos (sb_NotBefore bundle) <= t_nanos now < t_nanos (sb_ExpiresAt bundle)) \/
  exists issued envelope keyID protected signed s2,
    match latest with Some latest => target = u64 (sb_BundleVersion latest + 1) | None => target = 1 end /\
    bundle_made svc authority current now s s2 issued envelope keyID protected signed /\ aside s2 s' /\
    bundle = MkStoredBundle (nb_BundleID issued) (rq_AuthorizationID query) (nb_BundleVersion issued) (nb_Locator issued)
               (nb_EnvelopeSHA256 issued) now now (time_Add now bundleLifetime).
Proof using PL.
  unfold select_bundle. intros Hr. case_run Hr.
  - destruct latest as [latest|]; [|done]. inv_run. bool_props. unfold Before in *. bool_props. left. split_and!; done || lia.
  - right. assert (forall l, match l with Some latest => negb (target =? u64 (sb_BundleVersion latest + 1)) | None => negb (target =? 1) end = false ->
        match l with Some latest => target = u64 (sb_BundleVersion latest + 1) | None => target = 1 end) as Htarget
      by (intros [l|]; intros; by bool_props).
    assert (exists m, may m s bundle s' /\ m = (tx_bind (tx_guard (match latest with Some latest => negb (target =? u64 (sb_BundleVersion latest + 1)) | None => negb (target =? 1) end) (AppClassified ApiStateConflict))
        (fun _ => tx_bind (issueAuthorized svc authority current now) (fun made => let '(issued, event) := made in
          tx_bind (tx_or (TrustAppendEvent event) ErrRepository) (fun _ => tx_ret (MkStoredBundle (nb_BundleID issued) (rq_AuthorizationID query) (nb_BundleVersion issued) (nb_Locator issued)
                (nb_EnvelopeSHA256 issued) now now (time_Add now bundleLifetime))))))) as (m & Hm & ->)
      by (eexists; split; [exact Hr|by destruct latest]).
    clear Hr. inv_run.
    match goal with Hi : may (issueAuthorized _ _ _ _) _ _ _ |- _ => apply issue_runs in Hi as (envelope & keyID & protected & signed & Hmade) end.
    match goal with Hx : bundle_made _ _ _ _ _ _ (fst ?m) _ _ _ _ |- _ => destruct m as [issued event]; cbn [fst] in Hx end. inv_run.
    match goal with Ha : may (TrustAppendEvent _) _ _ _ |- _ => apply append_runs in Ha end.
    exists issued, envelope, keyID, protected, signed. eexists. split_and!; [by apply Htarget|done..].
Qed.

Lemma resolve_tx_runs svc query canonical s value s' :
  may (resolve_tx svc query canonical) s value s' ->
  (aside s s' /\ exists body, recorded (rq_AuthorizationID query) resolveBundleOperation (rq_IdempotencyKey query)
     resolveResponseStatus body s' /\ decodeResolutionReplay body = Some value) \/
  exists now current target bundle s1, selection svc query now s s' value current target bundle s1.
Proof using PL.
  unfold resolve_tx. intros Hr. inv_run. use_head. case_run Hr.
  - right. destruct Hstarted as (scope & kd & rd & Hscope & Hstarted); [done|]. inv_run. use_authorize.
    match goal with Hc : may current_config _ _ _ |- _ => apply config_runs in Hc as (-> & ch & Hch & ->) end.
    destruct (tc_current ch) as [current|] eqn:Ecur; [|by inv_run]. inv_run.
    destruct (ParseUint (tc_Sequence current) 10 64) as [target|] eqn:Etarget; inv_run.
    match goal with Hl : may (LatestBundle _) _ _ _ |- _ => apply latest_runs in Hl as [-> Hlatest] end.
    match goal with Hs : may (select_bundle _ _ _ _ _ _ _) _ _ _ |- _ => apply select_runs in Hs; rename Hs into Hsel end.
    match goal with Ho : may (or_fail _) _ _ _ |- _ => apply or_fail_runs in Ho as [-> Hres] end.
    case_run Hr; inv_run.
    match goal with Hc : may (TrustCompleteIdempotency _ _ _) ?s2 _ _ |- _ =>
      eapply (complete_runs scope _ _ _ _ _ _ _ _ _ _ kd rd Hstarted) in Hc as (Hafter & _) end.
    2: { destruct Hsel as [(-> & _)|(? & ? & ? & ? & ? & s2 & _ & Hm & (_ & Hle & _) & _)]; [done|].
         unfold tt_device in *. by rewrite <- (made_authority _ _ _ _ _ _ _ _ _ _ _ Hm). }
    bool_props. eexists _, current, target, _, _. split; try done; [by eexists|by exists ch|split; [done|]|].
    + pose proof (ParseUint_range _ 10 64 _ ltac:(lia) ltac:(lia) Etarget). lia.
    + destruct Hsel as [(-> & -> & Htarget & Htimes)|(issued & envelope & keyID & protected & signed & s2 & Htarget & Hmade & Happ & ->)].
      * left. split; [by etrans|]. unfold bundle_read in Hlatest. case_match; [|done]. destruct Hlatest as (b & [= <-] & Hb).
        eexists. split; [done|]. split; [exact Hb|done].
      * right. apply encode_resolution_digest in Hres as (_ & Hd & _). eexists _, issued, _, envelope, keyID, protected, signed, s2.
        split; [exact Hlatest|]. split; [done|]. split; [|done]. split; try done. by etrans.
  - left. destruct (decodeResolutionReplay _) eqn:Ed; inv_run. case_run Hr; inv_run. bool_props. split; [done|].
    eexists. split; [|done]. match goal with He : ti_status _ = resolveResponseStatus |- _ => rewrite <- He end. by apply Hreplay.
  - inv_run.
  - inv_run.
Qed.

Record acknowledgement (svc : trust_service) (command : AcknowledgeCommand) (now : time) s s' (row : IssuanceRow)
    (bundle : storedBundle) (s1 s2 : tstate) : Prop := {
  ac_before : aside s s1;
  ac_authorized : exists authority, authorized svc (kc_AuthorizationID command) (kc_AccessToken command) authority s1;
  ac_row : tt_issuances s1 !! kc_BundleID command = Some row /\ storedBundleFromRow row = Some bundle;
  ac_bundle : sb_AuthorizationID bundle = kc_AuthorizationID command /\ sb_BundleVersion bundle = kc_BundleVersion command /\
    sb_BundleVersion bundle <= MaxInt64;
  ac_insert : InsertBundleAcknowledgement (sb_ID bundle) (sb_AuthorizationID bundle) (sb_BundleVersion bundle) now s1 = Some (tt, s2);
  ac_after : aside s2 s' }.

Lemma ack_shape id authorizationID version at_ s u s1 : InsertBundleAcknowledgement id authorizationID version at_ s = Some (u, s1) ->
  tt_authority s1 = tt_authority s /\ is_Some (tt_issuances s !! id) /\
  s1 = with_acks (match tt_acks s !! (id, authorizationID) with
                  | Some _ => tt_acks s
                  | None => <[(id, authorizationID) := MkAckRow version (column_time at_)]> (tt_acks s)
                  end) s.
Proof.
  unfold InsertBundleAcknowledgement. intros Hi. case_top Hi; [done|]. bool_props. destruct (tt_issuances s !! id); [|done].
  case_top Hi; injection Hi as _ <-; split_and!; try done; by destruct s.
Qed.

Lemma acknowledge_tx_runs svc command canonical s u s' :
  may (acknowledge_tx svc command canonical) s u s' ->
  (aside s s' /\ recorded (kc_AuthorizationID command) acknowledgeBundleOperation (kc_IdempotencyKey command)
     acknowledgeResponseStatus [] s') \/
  exists now row bundle s1 s2, acknowledgement svc command now s s' row bundle s1 s2.
Proof using PL.
  unfold acknowledge_tx. intros Hr. inv_run. use_head. case_run Hr.
  - right. destruct Hstarted as (scope & kd & rd & Hscope & Hstarted); [done|]. inv_run. use_authorize.
    match goal with Hl : may (BundleByID _) _ _ _ |- _ => apply by_id_runs in Hl as [-> Hfound] end.
    case_run Hr; inv_run. unfold InsertAcknowledgement, acknowledgementEvent in *. inv_run. bool_props.
    match goal with Hw : may (write _) _ _ _ |- _ => apply write_may in Hw; rename Hw into Hins end.
    repeat match goal with
    | Hd : may draw_id _ _ _ |- _ => apply draw_id_runs in Hd as [-> Hd]
    | Hd : may (marshal_event _ _) _ _ _ |- _ => apply marshal_event_runs in Hd as ->
    | Hd : may (TrustAppendEvent _) _ _ _ |- _ => apply append_runs in Hd
    end.
    match type of Hins with _ = Some (?u, _) => destruct u end. pose proof (ack_shape _ _ _ _ _ _ _ Hins) as (Hdev & _).
    match goal with Ha : aside ?s2 ?s3, Hc : may (TrustCompleteIdempotency _ _ _) ?s3 _ _ |- _ =>
      eapply (complete_runs scope _ _ _ _ _ _ _ _ _ _ kd rd Hstarted) in Hc as (Hafter & _);
        [|destruct Ha as (_ & Hle & _); unfold tt_device in *; by rewrite <- Hdev] end.
    unfold bundle_read in Hfound. case_match; [|done]. destruct Hfound as (b & [= <-] & Hb).
    eexists _, _, _, _, _. split; [exact Haside|by eexists|split; [done|exact Hb]|split_and!; done|exact Hins|by etrans].
  - left. inv_run. bool_props. split; [done|]. specialize (Hreplay eq_refl).
    match goal with He : ti_status _ = acknowledgeResponseStatus, Hl : len (ti_response _) = 0 |- _ => rewrite He in Hreplay;
      destruct (ti_response a0); [done|]; unfold len in Hl; cbn in Hl; lia end.
  - inv_run.
  - inv_run.
Qed.
End Runs.
