(* ===== verification/TrustApplicationSafety.v ===== *)
(** The trust tables over any sequence of requests: what they keep, and what the
    byte store serves from them. *)
From Stdlib Require Import ZArith Lia Strings.Byte.
From stdpp Require Import base gmap list sorting strings numbers option relations.
From S2P Require Import Prelude GoStd GoTime AuthorityTypes Ledger FenceStore Programs Transactions GoCrypto Text Sensitive Idempotency IdempotencyTheorems Tokens GoJson StrictJson Descriptors Events Outbox DeviceRows DeviceChallenge DeviceRotate DeviceSafety DeviceBundle.
From S2P Require Import TrustStore TrustJson TrustVerify TrustServer TrustSigner TrustSeal TrustRows TrustApplication TrustMetadata TrustMetadataTheorems TrustApplicationRuns.

#[local] Open Scope go_scope.

Section Safety.
Context `{Primitives} `{UUIDText} `{Protobuf} `{TimestampColumn} {TL : TimestampColumnLaws} `{PL : ProtectorLaws} `{NetURL}
  `{Unicode} `{HPKESender} `{Ed25519} `{Collation}.
Implicit Types (s : tstate).

(** ** The invariant *)

(** Every stored bundle can be read and is under its ID; the versions of an
    authorization are those from 1 to its counter, each stored once; no two bundles
    have the same locator; an acknowledgement names a stored bundle, its
    authorization and its version. *)
Record bundles_ok s : Prop := {
  bk_row id r : tt_issuances s !! id = Some r ->
    bi_ID r = id /\ is_Some (storedBundleFromRow r) /\ bi_EnvelopeSha256 r <> zero_digest /\ bi_LocatorHash r <> zero_digest;
  bk_counted id r : tt_issuances s !! id = Some r ->
    exists h, tt_highest s !! bi_AuthorizationID r = Some h /\ 1 <= bi_BundleVersion r <= hv_HighestIssued h;
  bk_counter a h : tt_highest s !! a = Some h -> 1 <= hv_HighestIssued h <= MaxInt64;
  bk_dense a h v : tt_highest s !! a = Some h -> 1 <= v <= hv_HighestIssued h ->
    exists id r, tt_issuances s !! id = Some r /\ bi_AuthorizationID r = a /\ bi_BundleVersion r = v;
  bk_once id id' r r' : tt_issuances s !! id = Some r -> tt_issuances s !! id' = Some r' ->
    bi_AuthorizationID r = bi_AuthorizationID r' -> bi_BundleVersion r = bi_BundleVersion r' -> id = id';
  bk_locator id id' r r' : tt_issuances s !! id = Some r -> tt_issuances s !! id' = Some r' ->
    bi_LocatorHash r = bi_LocatorHash r' -> id = id';
  bk_ack b a k : tt_acks s !! (b, a) = Some k ->
    exists r, tt_issuances s !! b = Some r /\ bi_AuthorizationID r = a /\ bi_BundleVersion r = ak_BundleVersion k }.

(** Rows are only added, counters only grow. *)
Record bundles_le s s' : Prop := {
  ble_rows : tt_issuances s ⊆ tt_issuances s';
  ble_acks : tt_acks s ⊆ tt_acks s';
  ble_highest a h : tt_highest s !! a = Some h -> exists h', tt_highest s' !! a = Some h' /\ hv_HighestIssued h <= hv_HighestIssued h' }.

#[export] Instance bundles_le_preorder : PreOrder bundles_le.
Proof.
  split.
  - intros s. split; [done..|]. intros a h Hl. by exists h.
  - intros a b c [R1 A1 H1'] [R2 A2 H2']. split; [by etrans|by etrans|]. intros k h Hl.
    destruct (H1' _ _ Hl) as (h1 & Hl1 & ?). destruct (H2' _ _ Hl1) as (h2 & Hl2 & ?). exists h2. split; [done|lia].
Qed.

(** The tables of bundles are the same. *)
Definition bundles_same s s' : Prop :=
  tt_highest s' = tt_highest s /\ tt_issuances s' = tt_issuances s /\ tt_acks s' = tt_acks s.

Lemma same_ok s s' : bundles_same s s' -> bundles_ok s -> bundles_ok s'.
Proof. intros (Hh & Hi & Ha) []. split; rewrite ?Hh, ?Hi, ?Ha; eauto. Qed.

Lemma same_le s s' : bundles_same s s' -> bundles_le s s'.
Proof. intros (Hh & Hi & Ha). split; [by rewrite Hi|by rewrite Ha|]. intros a h Hl. exists h. by rewrite Hh. Qed.

Lemma aside_same s s' : aside s s' -> bundles_same s s'.
Proof. intros (? & ? & ? & _)%aside_tables. by split_and!. Qed.

(** ** A bundle that was made *)

Section Made.
Context {P : tchoice -> Prop}.
Variables (svc : trust_service) (authority : BundleAuthority) (testConfig : TestConfigV1) (now : time) (s s' : tstate)
  (issued : IssuedBundle) (envelope keyID : bytes) (protected : EncryptedField) (signed : SignedBundleV1).
Hypothesis made : bundle_made (P:=P) svc authority testConfig now s s' issued envelope keyID protected signed.
Hypothesis second : whole_second now.

Let row := issuance_row (issuance_value authority now issued envelope keyID) (LocatorDigest (nb_Locator issued)) protected.

Definition made_bundle : storedBundle :=
  MkStoredBundle (nb_BundleID issued) (ba_AuthorizationID authority) (nb_BundleVersion issued) (nb_Locator issued)
    (nb_EnvelopeSHA256 issued) now now (time_Add now bundleLifetime).

Lemma made_insert : tt_issuances s' = <[nb_BundleID issued := row]> (tt_issuances s) /\
  tt_issuances s !! nb_BundleID issued = None /\ issuance_checks row = true /\
  (forall id r, tt_issuances s !! id = Some r -> issuance_unique row r = true).
Proof using made. destruct (insert_shape _ _ _ _ (bm_insert _ _ _ _ _ _ _ _ _ _ _ made)) as (-> & Hfree & Hc & Hu & _). done. Qed.

Lemma made_highest : tt_highest s' = <[ba_AuthorizationID authority := MkHighestRow (nb_BundleVersion issued) (column_time now)]> (tt_highest s) /\
  (tt_highest s !! ba_AuthorizationID authority = None /\ nb_BundleVersion issued = 1 \/
   exists h, tt_highest s !! ba_AuthorizationID authority = Some h /\ nb_BundleVersion issued = hv_HighestIssued h + 1).
Proof using made.
  destruct (upsert_shape _ _ _ _ _ (bm_upsert _ _ _ _ _ _ _ _ _ _ _ made)) as (Hs & _ & Hcases).
  split; [|done]. apply (f_equal tt_highest) in Hs. exact Hs.
Qed.

Lemma made_acks : tt_acks s' = tt_acks s.
Proof using made. by destruct (insert_shape _ _ _ _ (bm_insert _ _ _ _ _ _ _ _ _ _ _ made)) as (-> & _). Qed.

Lemma column_second t : whole_second t -> UTC (column_time t) = t.
Proof using TL. intros [Hu Hm]. destruct t as [n u]. unfold UTC. cbn in *. subst u. by rewrite column_time_second. Qed.

Lemma second_later : whole_second (time_Add now bundleLifetime).
Proof using second.
  destruct second as [Hu Hm]. split; [done|]. unfold time_Add. cbn [t_nanos]. unfold bundleLifetime, Hour, Minute.
  apply Z.div_exact in Hm; [|done]. rewrite Hm. generalize (t_nanos now / Second). intros q.
  replace (Second * q + 24 * (60 * (60 * Second))) with ((q + 86400) * Second) by lia. by apply Z.mod_mul.
Qed.

Lemma made_reads : storedBundleFromRow row = Some made_bundle.
Proof using made second PL TL.
  destruct made as [_ Hins [Hver _] (Hid & Hloc & Hld) [Hkv [n Henc]] Hval _ _ _]. apply insert_shape in Hins as (_ & _ & Hchk & _).
  unfold validBundleIssuance in Hval. unfold issuance_checks in Hchk. cbn -[validKeyID] in Hval, Hchk. bool_props.
  pose proof (column_second _ second) as Hn. pose proof (column_second _ second_later) as Hx.
  pose proof (f_equal t_nanos Hn) as Hn'. pose proof (f_equal t_nanos Hx) as Hx'. cbn [UTC t_nanos] in Hn', Hx'.
  pose proof (protector_version _ _ _ _ Henc) as Hv. pose proof (protector_length _ _ _ _ Henc) as Hl.
  unfold storedBundleFromRow, row. cbn [issuance_row issuance_value bi_LocatorKeyVersion bi_LocatorCiphertext].
  assert (validStoredRow row = true) as Hvalid.
  { unfold validStoredRow, row. cbn -[validKeyID]. unfold IsZero, Before, After, maximumEnvelopeBytes in *. rewrite !Hn', !Hx'. bool_props.
    repeat first [assumption|apply andb_true_iff; split];
      first [apply Z.ltb_lt; lia|apply Z.leb_le; lia|apply Z.eqb_eq; done|apply bool_decide_eq_true_2; done|done
            |apply negb_true_iff, bool_decide_eq_false_2; done|apply negb_true_iff, Z.eqb_neq; lia|apply negb_true_iff, Z.ltb_ge; lia]. }
  fold row. rewrite Hvalid. cbn [negb issuance_row issuance_value ef_KeyVersion]. rewrite u32_id by lia.
  assert (MkEncryptedField (ef_KeyVersion protected) (ef_Ciphertext protected) = protected) as -> by (by destruct protected).
  rewrite (protector_roundtrip _ _ _ _ Henc), Hloc. cbn [Z.eqb Pos.eqb negb orb]. unfold row. cbn.
  rewrite bool_decide_eq_true_2 by done. cbn [negb]. rewrite Hn, Hx. unfold made_bundle, u64, MaxInt64 in *.
  by rewrite Z.mod_small by lia.
Qed.

(** The tables stay in order and the bundle is stored under its ID. *)
Lemma made_ok : bundles_ok s -> nb_EnvelopeSHA256 issued <> zero_digest -> bundles_ok s'.
Proof using made second PL TL.
  intros [Hrow Hcount Hcounter Hdense Honce Hloc Hack] Hne.
  destruct made_insert as (Hi & Hfree & _ & Hunique). destruct made_highest as (Hh & Hcases).
  pose proof (bm_version _ _ _ _ _ _ _ _ _ _ _ made) as [Hver _].
  assert (forall id r, tt_issuances s' !! id = Some r -> id = nb_BundleID issued /\ r = row \/ id <> nb_BundleID issued /\ tt_issuances s !! id = Some r) as Hsplit
    by (rewrite Hi; intros id r [[<- <-]|[? ?]]%lookup_insert_Some; auto).
  assert (bi_AuthorizationID row = ba_AuthorizationID authority /\ bi_BundleVersion row = nb_BundleVersion issued) as [Ea Ev] by done.
  assert (forall a h, tt_highest s !! a = Some h -> exists h', tt_highest s' !! a = Some h' /\ hv_HighestIssued h <= hv_HighestIssued h') as Hgrow.
  { intros a h Hl. rewrite Hh. destruct (decide (a = ba_AuthorizationID authority)) as [->|Hd].
    - rewrite lookup_insert_eq. eexists. split; [done|]. cbn. destruct Hcases as [[Hn _]|(h0 & Hl0 & ->)]; [congruence|].
      rewrite Hl in Hl0. injection Hl0 as <-. lia.
    - rewrite lookup_insert_ne by done. by exists h. }
  assert (forall id r, tt_issuances s !! id = Some r -> bi_AuthorizationID r = bi_AuthorizationID row ->
            bi_BundleVersion r = bi_BundleVersion row -> False) as Hnew.
  { intros id r Hl Hra Hrv. specialize (Hunique _ _ Hl). unfold issuance_unique in Hunique. bool_props.
    match goal with Ho : (_ != _) || _ = true |- _ => apply orb_true_iff in Ho as [Ho|Ho]; bool_props; done end. }
  assert (forall id r, tt_issuances s !! id = Some r -> bi_LocatorHash r <> bi_LocatorHash row) as Hnewloc.
  { intros id r Hl. specialize (Hunique _ _ Hl). unfold issuance_unique in Hunique. by bool_props. }
  split.
  - intros id r [[-> ->]|[_ Hl]]%Hsplit; [|by apply Hrow]. split; [done|]. split; [by rewrite made_reads|].
    split; [done|]. apply (bm_ids _ _ _ _ _ _ _ _ _ _ _ made).
  - intros id r [[-> ->]|[_ Hl]]%Hsplit.
    + rewrite Ea, Hh, lookup_insert_eq. eexists. split; [done|]. cbn. lia.
    + destruct (Hcount _ _ Hl) as (h & Hlh & ?). destruct (Hgrow _ _ Hlh) as (h' & ? & ?). exists h'. split; [done|lia].
  - rewrite Hh. intros a h [[<- <-]|[_ Hl]]%lookup_insert_Some; [cbn; lia|by eapply Hcounter].
  - rewrite Hh. intros a h v [[<- <-]|[Hne' Hl]]%lookup_insert_Some Hv; cbn in Hv.
    + destruct (decide (v = nb_BundleVersion issued)) as [->|Hvne].
      { exists (nb_BundleID issued), row. by rewrite Hi, lookup_insert_eq. }
      destruct Hcases as [[_ Hone]|(h0 & Hl0 & Hv0)]; [lia|].
      destruct (Hdense _ _ v Hl0 ltac:(lia)) as (id & r & Hlr & ? & ?). exists id, r. split; [|done].
      rewrite Hi, lookup_insert_ne; [done|]. intros <-. congruence.
    + destruct (Hdense _ _ v Hl Hv) as (id & r & Hlr & ? & ?). exists id, r. split; [|done].
      rewrite Hi, lookup_insert_ne; [done|]. intros <-. congruence.
  - intros id id' r r' [[-> ->]|[? Hl]]%Hsplit [[-> ->]|[? Hl']]%Hsplit Hra Hrv; [done| | |by eapply Honce].
    + by destruct (Hnew _ _ Hl').
    + by destruct (Hnew _ _ Hl).
  - intros id id' r r' [[-> ->]|[? Hl]]%Hsplit [[-> ->]|[? Hl']]%Hsplit Hhash; [done| | |by eapply Hloc].
    + by destruct (Hnewloc _ _ Hl').
    + by destruct (Hnewloc _ _ Hl).
  - rewrite made_acks. intros b a k Hk. destruct (Hack _ _ _ Hk) as (r & Hl & ? & ?). exists r. split; [|done].
    rewrite Hi, lookup_insert_ne; [done|]. intros <-. congruence.
Qed.

Lemma made_le : bundles_le s s'.
Proof using made.
  destruct made_insert as (Hi & Hfree & _). destruct made_highest as (Hh & Hcases). split.
  - rewrite Hi. by apply insert_subseteq.
  - by rewrite made_acks.
  - intros a h Hl. rewrite Hh. destruct (decide (a = ba_AuthorizationID authority)) as [->|Hd].
    + rewrite lookup_insert_eq. eexists. split; [done|]. cbn. destruct Hcases as [[Hn _]|(h0 & Hl0 & ->)]; [congruence|].
      rewrite Hl in Hl0. injection Hl0 as <-. lia.
    + rewrite lookup_insert_ne by done. by exists h.
Qed.
End Made.

(** ** Requests *)

Lemma delivery_ok {P} svc authorizationID accessToken testConfig now s s' issued authority envelope keyID protected signed s1 s2 :
  delivery (P:=P) svc authorizationID accessToken testConfig now s s' issued authority envelope keyID protected signed s1 s2 ->
  bundles_ok s -> bundles_ok s' /\ bundles_le s s'.
Proof using PL TL.
  intros [[Hsec _] Hb%aside_same _ Hm Hd Ha%aside_same] Hok. pose proof (same_ok _ _ Hb Hok) as Hok1. split.
  - eapply same_ok; [exact Ha|]. by eapply made_ok.
  - etrans; [by apply same_le|]. etrans; [by eapply made_le|by apply same_le].
Qed.

Lemma ack_ok {P} svc command now s s' row bundle s1 s2 :
  acknowledgement (P:=P) svc command now s s' row bundle s1 s2 -> bundles_ok s -> bundles_ok s' /\ bundles_le s s'.
Proof.
  intros [Hb%aside_same _ [Hrow Hread] (Hauth & Hver & _) Hins Ha%aside_same] Hok. pose proof (same_ok _ _ Hb Hok) as Hok1.
  apply ack_shape in Hins as (_ & _ & ->).
  assert (sb_ID bundle = bi_ID row /\ sb_AuthorizationID bundle = bi_AuthorizationID row /\ sb_BundleVersion bundle = u64 (bi_BundleVersion row)) as (Eid & Ea & Ev).
  { unfold storedBundleFromRow in Hread. case_top Hread; [done|]. destruct (protector_Decrypt _ _); [|done]. case_top Hread; [done|]. by injection Hread as <-. }
  destruct (bk_row _ Hok1 _ _ Hrow) as (Hid & _). destruct (bk_counted _ Hok1 _ _ Hrow) as (h & Hh & Hle). pose proof (bk_counter _ Hok1 _ _ Hh) as Hmax.
  assert (u64 (bi_BundleVersion row) = bi_BundleVersion row) as Hu by (unfold u64, MaxInt64 in *; rewrite Z.mod_small; lia).
  rewrite Eid, Ea, Ev, Hid, Hu in *. split.
  - eapply same_ok; [exact Ha|]. destruct (tt_acks s1 !! _) as [k|] eqn:Ek; [by destruct Hok1; split|].
    destruct Hok1 as [? ? ? ? ? ? Hack]. split; try done. intros b a k Hl. cbn [tt_acks with_acks] in Hl.
    apply lookup_insert_Some in Hl as [[[= <- <-] <-]|[_ Hl]]; [|by apply Hack].
    exists row. done.
  - etrans; [by apply same_le|]. etrans; [|by apply same_le]. destruct (tt_acks s1 !! _) as [k|] eqn:Ek; split; try done;
      [by intros a h0 Hl; exists h0|by apply insert_subseteq|by intros a h0 Hl; exists h0].
Qed.

Lemma request_cases {A} valid canonical (operation : bytes -> ttx A) fate oracle s r s' :
  request valid canonical operation fate oracle s = (r, s') ->
  (s' = s /\ forall a, r <> Ok a) \/ exists c a, canonical = Some c /\ valid = true /\ runs (operation c) s a s' /\ (forall b, r = Ok b -> a = b).
Proof.
  unfold request. intros Hr. case_top Hr; [injection Hr as <- <-; by left|]. bool_props. destruct canonical as [c|]; [|injection Hr as <- <-; by left].
  destruct (WithinTransaction _ _ _ _ _) as [[a|e] s1] eqn:Hw; injection Hr as <- <-; apply WithinTransaction_cases in Hw.
  - right. exists c, a. split_and!; try done. by intros b [= <-].
  - destruct Hw as [[-> _]|(_ & a & Hw)]; [by left|]. right. by exists c, a.
Qed.

(** A request of the application, a publication of metadata, or a change of the
    tables of other packages. *)
Inductive trust_step s : tstate -> Prop :=
| step_issue svc cancelled command fate oracle : trust_step s (Issue svc cancelled command fate oracle s).2
| step_resolve svc cancelled query fate oracle : trust_step s (Resolve svc cancelled query fate oracle s).2
| step_acknowledge svc cancelled command fate oracle : trust_step s (Acknowledge svc cancelled command fate oracle s).2
| step_publish roots now value fate oracle : trust_step s (Publish roots now value fate oracle s).2
| step_other authority : trust_step s (with_authority authority s).

Lemma selection_ok {P} svc query now s s' value current target bundle s1 :
  selection (P:=P) svc query now s s' value current target bundle s1 -> bundles_ok s -> bundles_ok s' /\ bundles_le s s'.
Proof using PL TL.
  intros [_ _ _ _ _ _ [[Ha%aside_same _]|(? & ? & ? & ? & ? & ? & ? & ? & _ & _ & Hd & _)]] Hok.
  - split; [by eapply same_ok|by apply same_le].
  - by eapply delivery_ok.
Qed.

Lemma publish_same roots now value fate oracle s : bundles_same s (Publish roots now value fate oracle s).2.
Proof.
  unfold Publish. destruct (WithinTransaction _ _ _ _ _) as [r s'] eqn:Hw. apply WithinTransaction_cases in Hw. cbn [snd].
  destruct r as [u|e]; [|destruct Hw as [[-> _]|(_ & u & Hw)]; [done|]];
    apply publish_runs in Hw as (? & ? & ? & ? & [_ _ _ _ _ _ _ ->]); done.
Qed.

Lemma step_ok s s' : trust_step s s' -> bundles_ok s -> bundles_ok s' /\ bundles_le s s'.
Proof using PL TL.
  assert (forall s', bundles_same s s' -> bundles_ok s -> bundles_ok s' /\ bundles_le s s') as Hsame
    by (intros t Ht Hok; split; [by eapply same_ok|by apply same_le]).
  intros [svc cancelled command fate oracle|svc cancelled query fate oracle|svc cancelled command fate oracle|roots now value fate oracle|authority].
  - unfold Issue. destruct (request _ _ _ _ _ _) as [r s1] eqn:Hr. apply request_cases in Hr as [[-> _]|(c & a & _ & _ & Hr & _)]; [by apply Hsame|].
    apply issue_tx_runs in Hr as [[Ha%aside_same _]|(? & ? & ? & ? & ? & ? & ? & ? & Hd & _)]; [by apply Hsame|by eapply delivery_ok].
  - unfold Resolve. destruct (request _ _ _ _ _ _) as [r s1] eqn:Hr. apply request_cases in Hr as [[-> _]|(c & a & _ & _ & Hr & _)]; [by apply Hsame|].
    apply resolve_tx_runs in Hr as [[Ha%aside_same _]|(? & ? & ? & ? & ? & Hd)]; [by apply Hsame|by eapply selection_ok].
  - unfold Acknowledge. destruct (request _ _ _ _ _ _) as [r s1] eqn:Hr. apply request_cases in Hr as [[-> _]|(c & a & _ & _ & Hr & _)]; [by apply Hsame|].
    apply acknowledge_tx_runs in Hr as [[Ha%aside_same _]|(? & ? & ? & ? & ? & Hd)]; [by apply Hsame|by eapply ack_ok].
  - apply Hsame, publish_same.
  - by apply Hsame.
Qed.

Lemma steps_ok s s' : rtc trust_step s s' -> bundles_ok s -> bundles_ok s' /\ bundles_le s s'.
Proof using PL TL.
  induction 1 as [s|s s1 s' Hs _ IH]; intros Hok; [by split|]. destruct (step_ok _ _ Hs Hok) as [Hok1 Hle].
  destruct (IH Hok1) as [Hok2 Hle2]. split; [done|by etrans].
Qed.

Lemma empty_ok s : tt_issuances s = ∅ -> tt_highest s = ∅ -> tt_acks s = ∅ -> bundles_ok s.
Proof. intros Hi Hh Ha. split; rewrite ?Hi, ?Hh, ?Ha; intros; by rewrite lookup_empty in *. Qed.
End Safety.
