(* ===== verification/TrustApplicationTheorems.v ===== *)
(** What the trust application promises its devices. *)
From Stdlib Require Import ZArith Lia Strings.Byte.
From stdpp Require Import base gmap list sorting strings numbers option relations.
From S2P Require Import Prelude GoStd GoTime AuthorityTypes Ledger FenceStore Programs Transactions GoCrypto Text Sensitive Idempotency IdempotencyTheorems Tokens GoJson StrictJson Descriptors Events Outbox DeviceRows DeviceChallenge DeviceRotate DeviceSafety DeviceBundle.
From S2P Require Import TrustStore TrustJson TrustVerify TrustVerifyFacts TrustJcs TrustServer TrustSigner TrustSeal TrustServerFacts TrustRows TrustApplication TrustMetadata TrustMetadataTheorems TrustApplicationRuns TrustApplicationSafety.

#[local] Open Scope go_scope.

Section Theorems.
Context `{Primitives} `{UUIDText} `{Protobuf} `{TimestampColumn} {TL : TimestampColumnLaws} `{PL : ProtectorLaws} `{NetURL}
  `{Unicode} `{HPKESender} `{Ed25519} `{Collation}.
Implicit Types (s : tstate).

(** ** The tables *)

(** Tables without a bundle. *)
Definition no_bundles s : Prop := tt_issuances s = ∅ /\ tt_highest s = ∅ /\ tt_acks s = ∅.

Lemma reachable_ok s0 s : no_bundles s0 -> rtc trust_step s0 s -> bundles_ok s.
Proof using PL TL. intros (Hi & Hh & Ha) Hs. by apply (steps_ok _ _ Hs), empty_ok. Qed.

(** C18 (bundle_versions_dense): whatever requests arrive, however the database, the
    signer, the random sources and the clock behave, and whatever the other
    packages do to their tables: the versions stored for an authorization are 1, 2,
    3, ... up to its counter, each exactly once, every stored bundle can be read,
    locators are distinct and acknowledgements name a stored bundle; and stored
    bundles and acknowledgements never change or disappear, and counters never
    decrease. *)
Theorem bundle_versions_dense s0 s s' :
  no_bundles s0 -> rtc trust_step s0 s -> rtc trust_step s s' -> bundles_ok s /\ bundles_le s s'.
Proof using PL TL.
  intros H0' Hs Hs'. pose proof (reachable_ok _ _ H0' Hs) as Hok. split; [done|]. by apply (steps_ok _ _ Hs').
Qed.

(** ** What is served *)

(** The answer of the distribution handler to a request for [path] at [now] over
    the tables [s], when the database answers. *)
Definition served s (now : time) (path : bytes) : option response :=
  match ServeHTTP (E:=fun _ => Empty_set)
          (Some (MkDistributionOps (fun digest at_ => Ret (GetImmutableBundle false false digest at_ s)) (Ret now))) [] path with
  | Ret r => Some r
  | Vis _ _ => None
  end.

Definition bundle_path (locator : bytes) : bytes := sbytes "/b/" ++ b64_EncodeToString locator.

Lemma b64_no_slash l : "/"%byte ∉ b64_EncodeToString l.
Proof.
  unfold b64_EncodeToString. intros (v & Hv & Hin)%list_elem_of_fmap.
  pose proof (sextets_range l) as Hr. rewrite list.Forall_forall in Hr. apply Hr in Hin.
  pose proof (all_from_spec (fun v => b64_char v != "/"%byte) 0 64 v eq_refl ltac:(lia)) as Hne.
  cbn beta in Hne. bool_props. congruence.
Qed.

Lemma bundle_path_locator locator : len locator = 32 -> distributionLocator (bundle_path locator) = Some (b64_EncodeToString locator).
Proof.
  intros Hl. unfold distributionLocator, bundle_path. rewrite has_prefix_app, trim_prefix_app. cbn [negb].
  rewrite (bool_decide_eq_false_2 (_ ∈ _)) by apply b64_no_slash. rewrite bool_decide_eq_false_2; [done|].
  intros E. pose proof (b64_roundtrip locator) as Hb. rewrite E in Hb. injection Hb as <-. done.
Qed.

(** The bundle with a locator hash is the only one. *)
Lemma by_locator s id r now : bundles_ok s -> tt_issuances s !! id = Some r ->
  GetBundleByLocatorHash (bi_LocatorHash r) now s = if Before (bi_ExpiresAt r) (column_time now) then None else Some r.
Proof.
  intros Hok Hl. unfold GetBundleByLocatorHash. set (p := fun r' => _).
  assert (forall r', r' ∈ List.filter p (map_to_list (tt_issuances s)).*2 -> r' = r /\ p r = true) as Hone.
  { intros r' Hr'. rewrite list_elem_of_In, filter_In, <- list_elem_of_In in Hr'. destruct Hr' as [([id' r''] & -> & Hin)%list_elem_of_fmap Hp].
    apply elem_of_map_to_list in Hin. cbn in Hp. assert (id' = id) as ->; [|cbn; rewrite Hl in Hin; by injection Hin as ->].
    pose proof Hp as Hp'. unfold p in Hp'. bool_props. by apply (bk_locator _ Hok id' id r'' r). }
  destruct (Before (bi_ExpiresAt r) (column_time now)) eqn:Eb.
  - destruct (List.filter _ _) as [|r' l] eqn:Ef; [done|]. destruct (Hone r') as [_ Hp]; [left|]. unfold p in Hp. rewrite Eb, andb_false_r in Hp. done.
  - assert (r ∈ List.filter p (map_to_list (tt_issuances s)).*2) as Hin.
    { rewrite list_elem_of_In, filter_In, <- list_elem_of_In. split; [|unfold p; by rewrite Eb, bool_decide_eq_true_2].
      apply list_elem_of_fmap. exists (id, r). split; [done|]. by apply elem_of_map_to_list. }
    destruct (List.filter _ _) as [|r' l] eqn:Ef; [by apply not_elem_of_nil in Hin|]. cbn. by destruct (Hone r') as [-> _]; [left|].
Qed.

Lemma stored_fields r b : storedBundleFromRow r = Some b ->
  validStoredRow r = true /\ len (sb_Locator b) = 32 /\ LocatorDigest (sb_Locator b) = bi_LocatorHash r /\
  b = MkStoredBundle (bi_ID r) (bi_AuthorizationID r) (u64 (bi_BundleVersion r)) (sb_Locator b) (bi_EnvelopeSha256 r)
        (UTC (bi_IssuedAt r)) (UTC (bi_NotBefore r)) (UTC (bi_ExpiresAt r)).
Proof.
  unfold storedBundleFromRow. intros Hs. case_top Hs; [done|]. destruct (protector_Decrypt _ _) as [plaintext|]; [|done].
  case_top Hs; [done|]. injection Hs as <-. bool_props. done.
Qed.

Lemma stored_served s id r b now : bundles_ok s -> tt_issuances s !! id = Some r -> storedBundleFromRow r = Some b ->
  IsZero now = false ->
  served s now (bundle_path (sb_Locator b)) =
    Some (if Before now (sb_ExpiresAt b) then bundle_response (MkImmutable (bi_Envelope r) (sb_EnvelopeSHA256 b)) else body_free StatusNotFound).
Proof using TL.
  intros Hok Hl Hb Hnow. destruct (stored_fields _ _ Hb) as (Hvalid & H32 & Hhash & Eb). destruct (bk_row _ Hok _ _ Hl) as (_ & _ & Hsha & Hz).
  rewrite Eb. cbn [sb_Locator sb_ExpiresAt sb_EnvelopeSHA256]. unfold served, ServeHTTP.
  rewrite bundle_path_locator, <- H32, decodes_b64 by done. rewrite (bool_decide_eq_true_2 ([] = [])) by done. cbn [negb].
  rewrite Hhash, bool_decide_eq_false_2 by done. cbn [Programs.bind op_Now op_GetImmutableBundle]. rewrite Hnow. unfold GetImmutableBundle. cbn [orb].
  rewrite bool_decide_eq_false_2 by done. change (IsZero (UTC now)) with (IsZero now). rewrite Hnow. cbn [orb].
  rewrite (by_locator _ _ _ _ Hok Hl). pose proof Hvalid as Hchecks.
  unfold Before, After, UTC. cbn [t_nanos]. rewrite column_time_floor. cbn [t_nanos].
  assert (t_nanos now / 1000 * 1000 <= t_nanos now) as Hfloor by (pose proof (Z.mul_div_le (t_nanos now) 1000); lia).
  unfold validStoredRow, maximumEnvelopeBytes in Hchecks. bool_props.
  destruct (Z.ltb_spec (t_nanos now) (t_nanos (bi_ExpiresAt r))) as [Hlt|Hge].
  - rewrite (proj2 (Z.ltb_ge _ _)), Hvalid by lia. rewrite (bool_decide_eq_true_2 (bi_LocatorHash r = _)) by done.
    rewrite (proj2 (Z.ltb_lt _ _)) by lia. cbn [negb orb Programs.bind ib_Envelope ib_EnvelopeSHA256].
    rewrite !(proj2 (Z.ltb_ge _ _)) by (unfold maximumEnvelopeBytes; lia). rewrite bool_decide_eq_false_2, bool_decide_eq_true_2 by done. done.
  - destruct (_ <? t_nanos now / 1000 * 1000); [done|]. rewrite Hvalid. rewrite (bool_decide_eq_true_2 (bi_LocatorHash r = _)) by done.
    by rewrite (proj2 (Z.ltb_ge _ _)) by lia.
Qed.

(** C19 (stored_bundle_served): from the commit that stored a bundle on, whatever
    happens to the tables, a request for its locator gets exactly its envelope, with
    the digest that was given for it, until it expires, and is not found from then
    on. *)
Theorem stored_bundle_served s0 s s' id r b now :
  no_bundles s0 -> rtc trust_step s0 s -> rtc trust_step s s' ->
  tt_issuances s !! id = Some r -> storedBundleFromRow r = Some b -> IsZero now = false ->
  sb_EnvelopeSHA256 b = sha256 (bi_Envelope r) /\
  served s' now (bundle_path (sb_Locator b)) =
    Some (if Before now (sb_ExpiresAt b) then bundle_response (MkImmutable (bi_Envelope r) (sb_EnvelopeSHA256 b))
          else body_free StatusNotFound).
Proof using PL TL.
  intros H0' Hs Hs' Hl Hb Hnow. pose proof (reachable_ok _ _ H0' Hs) as Hok. destruct (steps_ok _ _ Hs' Hok) as [Hok' [Hrows _ _]]. split.
  - destruct (stored_fields _ _ Hb) as (Hvalid & _ & _ & ->). unfold validStoredRow in Hvalid. by bool_props.
  - eapply stored_served; try done. by eapply lookup_weaken.
Qed.

(** ** Resolution *)

#[local] Instance newer_version_total : Total newer_version.
Proof. intros a b. unfold newer_version. lia. Qed.
#[local] Instance newer_version_trans : Transitive newer_version.
Proof. intros a b c. unfold newer_version. lia. Qed.

(** The latest row has the version of the counter. *)
Lemma latest_row s a r : bundles_ok s -> GetLatestBundleIssuance a s = Some r ->
  exists h, tt_issuances s !! bi_ID r = Some r /\ bi_AuthorizationID r = a /\ tt_highest s !! a = Some h /\
    bi_BundleVersion r = hv_HighestIssued h.
Proof.
  intros Hok Hr. unfold GetLatestBundleIssuance in Hr. set (l := List.filter _ _) in *.
  assert (forall r', r' ∈ l <-> exists id, tt_issuances s !! id = Some r' /\ bi_AuthorizationID r' = a) as Hl.
  { intros r'. unfold l. rewrite list_elem_of_In, filter_In, <- list_elem_of_In, bool_decide_eq_true. split.
    - intros [([id r''] & -> & Hin)%list_elem_of_fmap Ha]. exists id. by apply elem_of_map_to_list in Hin.
    - intros (id & Hin & Ha). split; [|done]. apply list_elem_of_fmap. exists (id, r'). split; [done|]. by apply elem_of_map_to_list. }
  pose proof (StronglySorted_merge_sort newer_version l) as Hsorted. pose proof (merge_sort_Permutation newer_version l) as Hperm.
  destruct (merge_sort newer_version l) as [|r' sorted]; [done|]. cbn in Hr. injection Hr as ->.
  assert (r ∈ l) as (id & Hin & Ha)%Hl by (rewrite <- Hperm; left). destruct (bk_row _ Hok _ _ Hin) as (Hid & _).
  destruct (bk_counted _ Hok _ _ Hin) as (h & Hh & Hle). exists h. rewrite Hid, <- Ha. split_and!; try done.
  destruct (bk_dense _ Hok _ _ (hv_HighestIssued h) Hh ltac:(lia)) as (id' & top & Htop & Ha' & Hv).
  assert (top ∈ r :: sorted) as [<-|Htail]%elem_of_cons by (rewrite Hperm; apply Hl; exists id'; split; congruence); [done|].
  inversion Hsorted as [|? ? _ Hall]; subst. rewrite list.Forall_forall in Hall. apply Hall in Htail. unfold newer_version in Htail. lia.
Qed.

(** The row of a delivered bundle. *)
Lemma delivered_row {P} svc authorizationID accessToken testConfig now s s' issued authority envelope keyID protected signed s1 s2 :
  delivery (P:=P) svc authorizationID accessToken testConfig now s s' issued authority envelope keyID protected signed s1 s2 ->
  exists r, tt_issuances s' !! nb_BundleID issued = Some r /\ bi_AuthorizationID r = authorizationID /\
    bi_BundleVersion r = nb_BundleVersion issued /\ bi_Envelope r = envelope /\
    storedBundleFromRow r = Some (made_bundle authority now issued) /\
    exists h, tt_highest s' !! authorizationID = Some h /\ hv_HighestIssued h = nb_BundleVersion issued.
Proof using PL TL.
  intros [[Hsec _] _ [Hid _ _ _] Hm _ (Hh & Hi & _)%aside_same]. destruct (made_insert _ _ _ _ _ _ _ _ _ _ _ Hm) as (Hrows & _).
  destruct (made_highest _ _ _ _ _ _ _ _ _ _ _ Hm) as (Hhigh & _). eexists. rewrite Hi, Hrows, lookup_insert_eq. split; [done|].
  split_and!; [exact Hid|done|done|by eapply made_reads|]. rewrite Hh, Hhigh, <- Hid, lookup_insert_eq. by eexists.
Qed.

Lemma request_under {A} (P : tchoice -> Prop) valid canonical (operation : bytes -> ttx A) fate oracle s a s' :
  (forall i, P (oracle i)) -> request valid canonical operation fate oracle s = (Ok a, s') ->
  exists c, canonical = Some c /\ valid = true /\ runs_under P (operation c) s a s'.
Proof.
  intros HP. unfold request. intros Hr. case_top Hr; [done|]. bool_props. destruct canonical as [c|]; [|done].
  destruct (WithinTransaction _ _ _ _ _) as [[b|e] s1] eqn:Hw; [|done]. injection Hr as -> ->. exists c. split_and!; try done.
  by eapply WithinTransaction_under.
Qed.

(** C20 (resolve_gives_current): a resolution is that of a recorded response of the
    same key, and changes no bundle; or the device was authorized, and it names the
    bundle with the highest version of its authorization, of at least the sequence
    number of a test configuration that was current, in force at a time the clock
    gave: the digest of its envelope, and the paths under which it is served. *)
Theorem resolve_gives_current svc cancelled query fate oracle s value s' :
  bundles_ok s -> Resolve svc cancelled query fate oracle s = (Ok value, s') ->
  (bundles_same s s' /\ exists body, recorded (rq_AuthorizationID query) resolveBundleOperation (rq_IdempotencyKey query)
     resolveResponseStatus body s' /\ decodeResolutionReplay body = Some value) \/
  exists clock t now i current target id r b h,
    tc_clock (oracle clock) = Some t /\ now = Truncate (UTC t) Second /\ tc_current (oracle i) = Some current /\
    ParseUint (tc_Sequence current) 10 64 = Some target /\ target <= bi_BundleVersion r /\
    tt_issuances s' !! id = Some r /\ bi_AuthorizationID r = rq_AuthorizationID query /\
    tt_highest s' !! rq_AuthorizationID query = Some h /\ bi_BundleVersion r = hv_HighestIssued h /\
    storedBundleFromRow r = Some b /\ t_nanos (sb_NotBefore b) <= t_nanos now < t_nanos (sb_ExpiresAt b) /\
    value = MkResolution (b64_EncodeToString (sb_Locator b)) (hex_encode (sb_EnvelopeSHA256 b))
              (map (fun baseURL => baseURL ++ bundle_path (sb_Locator b)) (av_bundleBaseURLs svc)) ImmutableCacheControl /\
    exists authority s1, authorized (P := fun ch => exists i, ch = oracle i) svc (rq_AuthorizationID query) (rq_AccessToken query) authority s1 /\ aside s s1.
Proof using PL TL.
  intros Hok Hr. apply (request_under (fun ch => exists i, ch = oracle i)) in Hr as (c & _ & _ & Hr); [|by intros i; exists i].
  apply resolve_tx_runs in Hr as [[Ha Hrec]|(now & current & target & bundle & s1 & Hsel)]; [left; split; [by apply aside_same|done]|right].
  pose proof (selection_ok _ _ _ _ _ _ _ _ _ _ Hsel Hok) as [Hok' _].
  destruct Hsel as [[_ (? & t & [k ->] & Ht & Hnow)] Hb Hauth (? & [i ->] & Hcur) [Htarget _] Hval Hbundle].
  apply encode_resolution_digest in Hval as (H32 & _ & ->). exists k, t, now, i, current, target.
  assert (exists id r h, target <= bi_BundleVersion r /\ tt_issuances s' !! id = Some r /\ bi_AuthorizationID r = rq_AuthorizationID query /\
            tt_highest s' !! rq_AuthorizationID query = Some h /\ bi_BundleVersion r = hv_HighestIssued h /\
            storedBundleFromRow r = Some bundle /\ t_nanos (sb_NotBefore bundle) <= t_nanos now < t_nanos (sb_ExpiresAt bundle))
    as (id & r & h & ? & ? & ? & ? & ? & ? & Htimes).
  { destruct Hbundle as [(Ha & r & Hlatest & Hread & Hle & Htimes)|(latest & issued & authority & envelope & keyID & protected & signed & s2 & Hlatest & Htgt & Hd & Hbundle)].
    - apply aside_same in Hb as Hb'. apply (latest_row _ _ _ (same_ok _ _ Hb' Hok)) in Hlatest as (h & Hl & Hra & Hh & Hv).
      assert (tt_issuances s' = tt_issuances s1 /\ tt_highest s' = tt_highest s1) as [Ei Eh]
        by (apply aside_same in Ha as (E1 & E2 & _); destruct Hb' as (E3 & E4 & _); split; congruence).
      exists (bi_ID r), r, h. rewrite Ei, Eh. split_and!; try done; try (by apply Htimes).
      destruct (stored_fields _ _ Hread) as (_ & _ & _ & Eb). rewrite Eb in Hle. cbn [sb_BundleVersion] in Hle.
      assert (tt_issuances s' !! bi_ID r = Some r) as Hl' by (by rewrite Ei). destruct (bk_counted _ Hok' _ _ Hl') as (h' & Hh' & Hr').
      pose proof (bk_counter _ Hok' _ _ Hh'). unfold u64, MaxInt64 in *. rewrite Z.mod_small in Hle; lia.
    - destruct (delivered_row _ _ _ _ _ _ _ _ _ _ _ _ _ _ _ Hd) as (r & Hl & Hra & Hv & _ & Hread & h & Hh & Hhv).
      exists (nb_BundleID issued), r, h.
      pose proof (bm_version _ _ _ _ _ _ _ _ _ _ _ (dl_made _ _ _ _ _ _ _ _ _ _ _ _ _ _ _ Hd)) as [Hvr Hseq].
      assert (target = nb_BundleVersion issued) as Etgt by (rewrite Hseq, ParseUint_FormatUint in Htarget by (unfold MaxInt64 in *; lia); by injection Htarget as <-).
      split; [lia|]. split; [done|]. split; [done|]. split; [done|]. split; [congruence|]. split.
      + rewrite Hread, Hbundle. unfold made_bundle. by rewrite (au_id _ _ _ _ _ (dl_authorized _ _ _ _ _ _ _ _ _ _ _ _ _ _ _ Hd)).
      + rewrite Hbundle. cbn. unfold bundleLifetime, Hour, Minute, Second, Millisecond, Microsecond. lia. }
  exists id, r, bundle, h. split_and!; try done; try (by apply Htimes). destruct Hauth as [authority Hauth]. by exists authority, s1.
Qed.
End Theorems.
