(* ===== verification/TrustReplay.v ===== *)
(** A repeated issue request gets the bundle it got before. *)
From Stdlib Require Import ZArith Lia Strings.Byte.
From stdpp Require Import base gmap list sorting strings numbers option relations.
From S2P Require Import Prelude GoStd GoTime AuthorityTypes Ledger FenceStore Programs Transactions GoCrypto Text Sensitive Idempotency IdempotencyTheorems Tokens GoJson StrictJson StrictJsonTheorems Descriptors Events Outbox DeviceRows DeviceChallenge DeviceRotate DeviceSafety DeviceTheorems TrustJsonTheorems DeviceBundle.
From S2P Require Import TrustStore TrustJson TrustVerify TrustVerifyFacts TrustJcs TrustServer TrustSigner TrustSeal TrustServerFacts TrustRows TrustApplication TrustMetadata TrustApplicationRuns TrustApplicationSafety TrustApplicationTheorems.

#[local] Open Scope go_scope.

(** ** Plain texts *)

Lemma uint_plain n : 0 <= n -> plain_text (FormatUint n 10) /\ len (FormatUint n 10) <= 64.
Proof.
  intros Hn. unfold FormatUint, digits. split.
  - apply digits_plain, Forall_map. eapply List.Forall_impl; [|by apply digits_fuel_range]. intros d Hd. cbn beta in Hd.
    by apply digit_char_digit.
  - unfold len. rewrite length_map. assert (forall f m, (length (digits_fuel f 10 m []) <= f)%nat) as Hf; [|specialize (Hf 64%nat n); lia].
    induction f as [|f IH]; intros m; cbn [digits_fuel]; [done|]. case_match; [cbn; lia|]. rewrite digits_fuel_app, length_app. cbn [length].
    specialize (IH (m / 10)). lia.
Qed.

Lemma hex_plain raw : plain_text (hex_encode raw).
Proof.
  induction raw as [|b raw IH]; [constructor|]. change (hex_encode (b :: raw)) with (hex_byte b ++ hex_encode raw).
  apply Forall_app. split; [|done]. by destruct b; repeat constructor.
Qed.

Lemma jcs_plain s : plain_text s -> jcs_string s = json_string s.
Proof.
  intros Hs. rewrite plain_json by done. unfold jcs_string. do 2 f_equal.
  induction Hs as [|c s Hc _ IH]; [done|]. cbn [flat_map]. rewrite IH. by destruct c.
Qed.

(** Plain strings print the same in both encodings. *)
Lemma print_plain names values : Forall (fun n => plain_text n) names -> Forall (fun v => plain_text v) values ->
  print jcs_string (string_struct names values) = print json_string (string_struct names values).
Proof.
  intros Hn Hv. unfold string_struct. rewrite !print_object. do 3 f_equal. revert values Hv.
  induction Hn as [|n names Hn _ IH]; intros values Hv; [done|]. destruct Hv as [|v values Hv Hvs]; [done|].
  cbn [map zip zip_with]. f_equal; [|by apply IH]. unfold member_text. cbn [fst snd print]. by rewrite !jcs_plain.
Qed.

(** ** The stored response of an issue *)

Section Replay.
Context `{Primitives} `{!JCSLaws} `{UUIDText} `{!UUIDTextLaws} `{Unicode} `{HPKESender}.

Definition sorted_fields : list bytes := names ["bundle_id"; "bundle_version"; "envelope_sha256"; "locator"].

Lemma b64_length_32 raw : len raw = 32 -> len (b64_EncodeToString raw) = 43.
Proof. intros Hr. unfold b64_EncodeToString, len. rewrite length_map. fold (len (sextets raw)). by rewrite sextets_length, Hr. Qed.

Lemma issued_replay_back issued body :
  len (nb_BundleID issued) = 16 -> 1 <= nb_BundleVersion issued <= MaxInt64 -> len (nb_EnvelopeSHA256 issued) = 32 ->
  encodeIssuedReplay issued = Some body -> decodeIssuedReplay body = Some issued.
Proof.
  destruct issued as [id version locator digest]. cbn [nb_BundleID nb_BundleVersion nb_EnvelopeSHA256].
  intros Hid Hv Hd He. unfold encodeIssuedReplay in He. case_top He; [done|]. bool_props.
  cbn [nb_BundleID nb_BundleVersion nb_EnvelopeSHA256 nb_Locator] in *.
  set (values := [uuid_String id; FormatUint version 10; hex_encode digest; b64_EncodeToString locator]).
  assert (Forall (fun v => plain_text v) values) as Hplain.
  { unfold values. rewrite !Forall_cons_iff. split_and!; [by apply uuid_plain|by apply uint_plain; lia|apply hex_plain|apply b64_plain|constructor]. }
  assert (canonicalizable (string_struct issued_fields [uuid_String id; FormatUint version 10; b64_EncodeToString locator; hex_encode digest]) = true) as Hok.
  { unfold values in Hplain. rewrite !Forall_cons_iff in Hplain. destruct Hplain as (P1 & P2 & P3 & P4 & _).
    cbn [canonicalizable string_struct zip_with issued_fields names map forallb fst snd].
    rewrite !plain_utf8 by done. vm_compute. reflexivity. }
  unfold canonicalTrustedJSON in He. rewrite jcs_Marshal in He by done. injection He as <-.
  assert (jcs_text (string_struct issued_fields [uuid_String id; FormatUint version 10; b64_EncodeToString locator; hex_encode digest]) =
          json_Marshal (string_struct sorted_fields values)) as Hbody.
  { transitivity (print jcs_string (string_struct sorted_fields values)); [reflexivity|]. rewrite <- print_Marshal.
    apply print_plain; [|done]. repeat constructor. }
  rewrite Hbody. unfold decodeIssuedReplay, decode_strings.
  assert (1 <= len (json_Marshal (string_struct sorted_fields values)) <= 600) as Hlen.
  { split; [rewrite <- Hbody; by eapply jcs_text_nonempty|]. etrans; [apply struct_size; [repeat constructor|done|done]|].
    unfold values. cbn [foldr]. rewrite hex_encode_length, Hd, uuid_String_length, b64_length_32 by done.
    pose proof (proj2 (uint_plain version ltac:(lia))).
    assert (foldr (fun n acc => len n + 6 + acc) 0 sorted_fields <= 100) by (vm_compute; done). lia. }
  unfold maximumReplayBytes. rewrite (proj2 (Z.eqb_neq _ 0)), (proj2 (Z.ltb_ge _ _)) by (change (Z.shiftl 64 10) with 65536; lia). cbn [orb].
  rewrite struct_text. change (match zip sorted_fields values with [] => [] | p :: ps => pair_text p ++ rest_text ps end)
    with (members_text (zip sorted_fields values)).
  rewrite struct_text in Hlen. change (match zip sorted_fields values with [] => [] | p :: ps => pair_text p ++ rest_text ps end)
    with (members_text (zip sorted_fields values)) in Hlen.
  assert (Forall tag_name issued_fields) as Htags by (repeat constructor; done).
  assert (Forall tag_name sorted_fields) as Htags' by (repeat constructor; done).
  assert (NoDup issued_fields /\ NoDup sorted_fields) as [Hnd Hnd'] by (split; apply (bool_decide_eq_true_1 _); vm_compute; reflexivity).
  assert (Forall (fun p => p.1 ∈ issued_fields) (zip sorted_fields values)) as Hin.
  { rewrite list.Forall_forall. intros p Hp. assert (p.1 ∈ sorted_fields) as Hn.
    { rewrite <- (zip_keys sorted_fields values) by done. by apply list_elem_of_fmap_2. }
    revert Hn. generalize (p.1). rewrite <- list.Forall_forall. apply (bool_decide_eq_true_1 _). vm_compute. reflexivity. }
  rewrite (decode_pairs issued_fields (zip sorted_fields values));
    [|done|done|done|by apply zip_plain|by rewrite zip_keys by done|split; [change (Z.shiftl 64 10) with 65536; lia|by vm_compute]].
  match goal with |- match ?l with _ => _ end = _ =>
    assert (l = [uuid_String id; FormatUint version 10; b64_EncodeToString locator; hex_encode digest]) as -> by reflexivity end.
  rewrite uuid_Parse_String by done. cbn [mbind option_bind]. rewrite ParseUint_FormatUint by (unfold MaxInt64 in *; lia).
  cbn [mbind option_bind]. rewrite b64_lax_back, hex_back. cbn [mbind option_bind].
  rewrite !bool_decide_eq_false_2, (bool_decide_eq_true_2 (uuid_String id = _)) by done.
  match goal with Hl : len locator = 32 |- _ => rewrite Hl end. rewrite Hd, (proj2 (Z.eqb_neq _ 0)) by lia. done.
Qed.
End Replay.

(** ** A repeated request *)

Section Again.
Context `{Primitives} `{!JCSLaws} `{UUIDText} `{!UUIDTextLaws} `{Protobuf} `{TimestampColumn} {TL : TimestampColumnLaws}
  `{PL : ProtectorLaws} `{NetURL} `{Unicode} `{HPKESender}.
Implicit Types (s : tstate).

(** The clock says [t] and the statements on idempotency records run. *)
Definition quiet (t : time) (oracle : nat -> tchoice) : Prop :=
  forall i, ch_env (tc_db (oracle i)) = FenceStore.calm /\ tc_clock (oracle i) = Some t.

(** Opening the record of a request that was answered. *)
Lemma begin_again t oracle n authorizationID operation scope key canonical canonical' expires status body kd rd rd' r now s :
  quiet t oracle -> AuthenticatedScope authorizationID deviceCredentialDomain operation = Ok scope ->
  answers scope key canonical expires status body kd rd r s -> RequestDigest (sc_Operation scope) canonical' = Ok rd' -> len rd' = 32 ->
  IsZero now = false -> After expires now = true ->
  exists entry n' s', beginTrustIdempotency authorizationID operation key canonical' now oracle n s = (Ok entry, n', s') /\ aside s s' /\
    if rd' == rd then ti_outcome entry = Replay /\ ti_status entry = status /\ ti_response entry = body
    else ti_outcome entry = Conflict.
Proof.
  intros Hq Hscope [Hkd _ Hvalid Hl Hh] Hrd Hlen Hz Hex. unfold beginTrustIdempotency. rewrite Hscope.
  unfold TrustBeginIdempotency, shared, tx_zoom, tx_bind, BeginIdempotency, tx_step.
  destruct (Hq n) as [-> _].
  assert (After (time_Add now bundleIdempotencyRetention) now = true) as Hafter by (unfold After, time_Add; apply Z.ltb_lt; cbn [t_nanos]; unfold bundleIdempotencyRetention, Hour, Minute, Second, Millisecond, Microsecond; lia).
  rewrite (Begin_existing scope key canonical' now (time_Add now bundleIdempotencyRetention) (ds_idem (tt_device s)) kd rd' r rd status body expires) by done.
  destruct (rd' == rd) eqn:E.
  - rewrite (bool_decide_eq_true_2 (Replay = Replay)) by done. unfold TakeBody, tx_step, TakeResponseBody.
    cbn [set_response ir_response tt_device put_device with_authority tt_authority as_db with_idem ds_idem is_cells].
    rewrite lookup_app_r, Nat.sub_diag by done. cbn -[put_device]. eexists _, _, _. split; [done|]. split; [|done].
    assert (forall i, is_table i = is_table (ds_idem (tt_device s)) -> dle (tt_device s) (with_idem i (tt_device s))) as Hsame
      by (intros i Hi; apply with_idem_le; rewrite Hi; constructor).
    apply (aside_put s (with_idem _ (tt_device s))); [by apply Hsame|done].
  - cbn. eexists _, _, _. split; [done|]. split; [|done]. apply aside_put; [|done]. by apply with_idem_le; constructor.
Qed.

(** The row of a delivered bundle expires when its idempotency record does. *)
Lemma record_lifetime {P} svc authorizationID accessToken testConfig now s s' issued authority envelope keyID protected signed s1 s2 r :
  delivery (P:=P) svc authorizationID accessToken testConfig now s s' issued authority envelope keyID protected signed s1 s2 ->
  tt_issuances s' !! nb_BundleID issued = Some r ->
  t_nanos (bi_ExpiresAt r) = t_nanos (column_time (time_Add now bundleIdempotencyRetention)).
Proof using TL PL.
  intros [[Hsec _] _ _ Hm _ (_ & Hi & _)%aside_same] Hl. destruct (made_insert _ _ _ _ _ _ _ _ _ _ _ Hm) as (Hrows & _).
  rewrite Hi, Hrows, lookup_insert_eq in Hl. injection Hl as <-. done.
Qed.

Definition issue_request (command : IssueCommand) : option bytes :=
  canonicalTrustedJSON (issue_request_json (ic_AuthorizationID command) (ic_TestConfig command)).

Definition issue_digest (command : IssueCommand) : option Digest :=
  match issue_request command with
  | Some canonical => match RequestDigest issueBundleOperation canonical with Ok digest => Some digest | Err _ => None end
  | None => None
  end.

(** C21 (issue_replayed): after an issue request made its bundle, until the bundle
    expires, whatever other requests did and however the service is configured,
    the same request under the same key gets the same answer again and makes no
    bundle, and any other request under this key is a conflict and changes
    nothing. *)
Theorem issue_replayed svc cancelled command fate oracle s issued s' r s2 svc2 oracle2 t :
  Issue svc cancelled command fate oracle s = (Ok issued, s') ->
  tt_issuances s' <> tt_issuances s -> tt_issuances s' !! nb_BundleID issued = Some r ->
  rows_le row_moves (is_table (ds_idem (tt_device s'))) (is_table (ds_idem (tt_device s2))) ->
  quiet t oracle2 -> Second <= t_nanos t < t_nanos (bi_ExpiresAt r) ->
  (exists s3, Issue svc2 false command CommitOk oracle2 s2 = (Ok issued, s3) /\ aside s2 s3) /\
  forall command' rd', ic_AuthorizationID command' = ic_AuthorizationID command ->
    ic_IdempotencyKey command' = ic_IdempotencyKey command -> validIssueCommand command' = true ->
    issue_digest command' = Some rd' -> len rd' = 32 -> issue_digest command <> Some rd' ->
    Issue svc2 false command' CommitOk oracle2 s2 = (Err ApiIdempotencyConflict, s2).
Proof using All.
  intros Hr Hnew Hl Hidem Hq [Ht1 Ht2].
  apply (request_under (fun _ => True)) in Hr as (c & Hc & Hvalid & Hr); [|done]. apply andb_true_iff in Hvalid as [_ Hvalid].
  apply issue_tx_runs in Hr as [[Ha%aside_same _]|(now & authority & envelope & keyID & protected & signed & s1 & s1' & Hd & scope & body & kd & rd & r0 & Hscope & Hbody & Hanswers)];
    [destruct Ha as (_ & Hi & _); congruence|].
  rewrite (record_lifetime _ _ _ _ _ _ _ _ _ _ _ _ _ _ _ _ Hd Hl) in Ht2.
  assert (decodeIssuedReplay body = Some issued) as Hdecode.
  { pose proof (dl_made _ _ _ _ _ _ _ _ _ _ _ _ _ _ _ Hd) as [_ _ [Hv _] [[_ Hid] _] _ Hval _ _ _].
    apply (issued_replay_back issued body); try done. unfold validBundleIssuance in Hval. bool_props. cbn in *.
    match goal with He : sha256 _ = nb_EnvelopeSHA256 _ |- _ => rewrite <- He end. unfold len. by rewrite sha256_length. }
  destruct (AuthenticatedScope_ok _ _ _ _ Hscope) as (_ & _ & _ & Escope).
  assert (sc_Operation scope = issueBundleOperation) as Hop by (by rewrite Escope).
  set (now2 := Truncate (UTC t) Second).
  assert (t_nanos now2 <= t_nanos t) as Hle by apply (Truncate_le (UTC t)).
  assert (IsZero (UTC t) = false /\ IsZero now2 = false) as [Hz Hz2].
  { unfold IsZero, now2, Truncate. cbn [t_nanos UTC Z.leb Z.compare].
    split; apply Z.eqb_neq; [assert (0 < Second) by done; lia|]. rewrite Z.mod_eq by done.
    assert (1 <= t_nanos t / Second) by (apply Z.div_le_lower_bound; [done|lia]).  change (Second <=? 0) with false. cbn [t_nanos].
    assert (0 < Second) by done. nia. }
  set (expires := column_time (time_Add now bundleIdempotencyRetention)) in *.
  assert (After expires now2 = true) as Hlive by (unfold After; apply Z.ltb_lt; lia).
  assert (answers scope (ic_IdempotencyKey command) c expires issueResponseStatus body kd rd r0 s2) as Hagain.
  { destruct Hanswers as [? ? ? Hrow Hh]. split; try done. destruct (Hidem _ _ Hrow) as (r1 & Hr1 & [->|(Hst & _)]); [done|].
    by rewrite (h_state _ _ _ _ _ _ Hh) in Hst. }
  assert (forall n s, trust_now oracle2 n s = (Ok now2, S n, s)) as Hnow.
  { intros n s0. unfold trust_now, tx_step. destruct (Hq n) as [_ ->]. change (IsZero t) with (IsZero (UTC t)). by rewrite Hz. }
  split.
  - unfold Issue, request. rewrite Hvalid. cbn [negb andb]. unfold issue_request in *. rewrite Hc.
    pose proof (record_checks_digest _ (h_checks _ _ _ _ _ _ (an_holds _ _ _ _ _ _ _ _ _ _ Hagain))) as Hlen.
    rewrite (h_digest _ _ _ _ _ _ (an_holds _ _ _ _ _ _ _ _ _ _ Hagain)) in Hlen.
    destruct (begin_again t oracle2 1 _ _ _ _ c c _ _ _ _ _ rd _ now2 s2 Hq Hscope Hagain (an_request _ _ _ _ _ _ _ _ _ _ Hagain) Hlen Hz2 Hlive)
      as (entry & n' & s3 & Hbegin & Haside & Hentry).
    rewrite bool_decide_eq_true_2 in Hentry by done. destruct Hentry as (Ho & Hst & Hresp).
    unfold WithinTransaction, issue_tx, tx_bind at 1. rewrite Hnow. unfold tx_bind at 1. rewrite Hbegin, Ho, Hst, Hresp, Hdecode.
    cbn. by exists s3.
  - intros command' rd' Ea Ek Hv' Hd' Hlen Hne. unfold issue_digest, issue_request in Hd', Hne. unfold Issue, request. rewrite Hv'. cbn [negb andb].
    destruct (canonicalTrustedJSON (issue_request_json (ic_AuthorizationID command') _)) as [c'|]; [|done].
    destruct (RequestDigest issueBundleOperation c') as [d|] eqn:Erd; [|done]. injection Hd' as ->.
    unfold issue_request in *. rewrite Hc, <- Hop, (an_request _ _ _ _ _ _ _ _ _ _ Hagain) in Hne. rewrite <- Hop in Erd.
    destruct (begin_again t oracle2 1 _ _ _ _ c c' _ _ _ _ _ rd' _ now2 s2 Hq Hscope Hagain Erd Hlen Hz2 Hlive)
      as (entry & n' & s3 & Hbegin & Haside & Hentry).
    rewrite bool_decide_eq_false_2 in Hentry by congruence.
    unfold WithinTransaction, issue_tx, tx_bind at 1. rewrite Hnow. unfold tx_bind at 1. rewrite Ea, Ek, Hbegin, Hentry. done.
Qed.
End Again.
