(* ===== verification/TrustDelivery.v ===== *)
(** From the request of a device to the bundle it accepts. *)
From Stdlib Require Import ZArith Lia Strings.Byte.
From stdpp Require Import base gmap list sorting strings numbers option relations.
From S2P Require Import Prelude GoStd GoTime AuthorityTypes Ledger FenceStore Programs Transactions GoCrypto Text Sensitive Idempotency IdempotencyTheorems Tokens GoJson StrictJson Descriptors Events Outbox DeviceRows DeviceChallenge DeviceRotate DeviceSafety TrustJsonTheorems DeviceBundle.
From S2P Require Import TrustStore TrustJson TrustVerify TrustVerifyFacts TrustJcs TrustServer TrustSigner TrustSeal TrustServerFacts TrustIssue TrustIssueTheorems TrustRows TrustApplication TrustMetadata TrustMetadataTheorems TrustApplicationRuns TrustApplicationSafety TrustApplicationTheorems.

#[local] Open Scope go_scope.

(** ** Times are printed and read *)

Lemma second_text t : whole_second t -> 0 <= Year t <= 9999 -> parseProtocolTime (FormatRFC3339 t) = Some t.
Proof.
  intros [Hu Hm] Hy.
  assert (Truncate t Second = t) as Ht.
  { unfold Truncate. change (Second <=? 0) with false. rewrite Hm, Z.sub_0_r. destruct t. cbn in *. by subst. }
  unfold parseProtocolTime, FormatRFC3339. rewrite Ht.
  assert (len (FormatRFC3339Nano t) = 20) as ->.
  { unfold FormatRFC3339Nano. destruct (civil_of_days _) as [[y m] d].
    assert (t_nanos t mod Day mod Second = 0) as ->.
    { assert (Day = 86400 * Second) as -> by done. rewrite (Z.mul_comm 86400), Z.rem_mul_r by done. rewrite Hm, Z.add_0_l.
      rewrite Z.mul_comm. by apply Z.mod_mul. }
    unfold len. rewrite !length_app, !fixed_length. done. }
  cbn [Z.eqb Pos.eqb negb]. rewrite time_text_roundtrip by done.
  assert (UTC t = t) as -> by (destruct t; cbn in *; by subst). rewrite Hu, Ht, bool_decide_eq_true_2 by done. done.
Qed.

(** ** An honest environment *)

Lemma may_return_mono {E A} (P Q : forall X, E X -> X -> Prop) (p : prog E A) a :
  (forall X c x, P X c x -> Q X c x) -> may_return P p a -> may_return Q p a.
Proof.
  intros HPQ. revert a. induction p as [b|X c k IH]; intros a; [done|]. cbn. intros (x & Hx & Hr). exists x. split; [by apply HPQ|by apply IH].
Qed.

Section Delivery.
Context `{Primitives} `{!JCSLaws} `{UUIDText} `{!UUIDTextLaws} `{Protobuf} `{TimestampColumn} {TL : TimestampColumnLaws}
  `{PL : ProtectorLaws} `{NetURL} `{Unicode} `{Ed25519} `{Ed25519Keys} `{!Ed25519Laws} `{HPKE} `{HPKESender} `{!HPKELaws} `{Collation}.
Implicit Types (s : tstate).

(** A clock that shows a time whose day is in a year of four digits. *)
Definition dated (t : time) : Prop :=
  let now := Truncate (UTC t) Second in 0 <= Year now <= 9999 /\ 0 <= Year (time_Add now bundleLifetime) <= 9999.

(** A bounded signer around the local signer of [seed], which may fail or be closed
    at any call, and a clock with a date; everything else is arbitrary. *)
Record honest (seed : bytes) (ch : tchoice) : Prop := {
  ho_keyID : tc_keyID ch = [] \/ tc_keyID ch = deriveKeyID configKeyIDDomain (ed25519_Public seed);
  ho_sign message signature : tc_signed ch message = Ok signature -> signature = ed25519_Sign seed message;
  ho_clock t : tc_clock ch = Some t -> dated t }.

(** The metadata gives the signer's public key for its ID. *)
Definition lists_signer (seed : bytes) (metadata : RootMetadataV1) : Prop :=
  forall key, key ∈ rm_SigningKeys metadata -> sk_KeyID key = deriveKeyID configKeyIDDomain (ed25519_Public seed) ->
    sk_PublicKey key = b64_EncodeToString (ed25519_Public seed).

(** The policy of an authorization as a JSON value: the standard one for an active
    authorization, otherwise what its snapshot says. *)
Definition policy_snapshot (authorization : AuthorizationRow) (snapshot : PolicyRow) (policy : json) (trial : option bytes) : Prop :=
  if az_State authorization == "active"%string then policy = device_policy None /\ trial = None
  else marshalRaw (pl_Policy snapshot) = Some (json_Marshal policy) /\ canonical policy = device_policy trial /\
       forall text, trial = Some text -> utf8_Valid text = true.

Lemma standard_policy : marshalRaw standardPolicy = Some (json_Marshal (device_policy None)) /\ canonical (device_policy None) = device_policy None.
Proof. split; [vm_compute; reflexivity|reflexivity]. Qed.

Lemma honest_signer seed payload signed :
  may_return (answered (P:=honest seed)) (SignBundleV1 (Some signer_ctx) payload (Some signer_ops)) (Ok signed) ->
  may_return (bounded_may configKeyIDDomain seed) (SignBundleV1 (Some signer_ctx) payload (Some signer_ops)) (Ok signed).
Proof.
  apply may_return_mono. intros X c x (ch & [Hk Hs _] & ->). destruct c as [| |message]; cbn [bounded_may signer_answer]; [done|done|].
  destruct (tc_signed ch message) as [signature|e] eqn:E; [by apply Hs|done].
Qed.

Lemma selectKey_member keyID notBefore expiresAt retiring keys publicKey :
  selectKey keyID notBefore expiresAt retiring keys = Ok publicKey ->
  exists key, key ∈ keys /\ sk_KeyID key = keyID /\ b64_DecodeString (sk_PublicKey key) = Some publicKey.
Proof.
  induction keys as [|key keys IH]; [done|]. cbn [selectKey]. intros Hs. case_top Hs.
  - destruct (IH Hs) as (key' & Hin & ?). exists key'. split; [by right|done].
  - bool_props. case_top Hs; [done|]. case_top Hs; [done|]. destruct (b64_DecodeString _) as [pk|] eqn:E; [|done]. case_top Hs; [|done].
    injection Hs as ->. exists key. split; [by left|done].
Qed.

Lemma honest_key seed metadata keyID notBefore expiresAt publicKey :
  lists_signer seed metadata -> keyID = [] \/ keyID = deriveKeyID configKeyIDDomain (ed25519_Public seed) ->
  SelectSigningKeyForIssue metadata keyID notBefore expiresAt = Ok publicKey ->
  SelectSigningKeyForIssue metadata (deriveKeyID configKeyIDDomain (ed25519_Public seed)) notBefore expiresAt = Ok (ed25519_Public seed).
Proof.
  intros Hlist Hkey Hs. assert (keyID = deriveKeyID configKeyIDDomain (ed25519_Public seed)) as ->.
  { destruct Hkey as [->|?]; [|done]. unfold SelectSigningKeyForIssue, selectSigningKey in Hs. case_top Hs; [done|]. bool_props. done. }
  rewrite Hs. unfold SelectSigningKeyForIssue, selectSigningKey in Hs. case_top Hs; [done|].
  apply selectKey_member in Hs as (key & Hin & Hid & Hdec). rewrite (Hlist _ Hin Hid), b64_roundtrip in Hdec. by injection Hdec as ->.
Qed.

(** ** What was issued *)

Section Issued.
Variables (rootSeed seed : bytes) (svc : trust_service) (record : SignedRootMetadataV1) (accessToken : bytes)
  (authorizationID : UUID) (authorization : AuthorizationRow) (device : DeviceRow) (snapshot : PolicyRow) (policy : json) (trial : option bytes).

(** The service is provisioned with signed metadata that lists its signer. *)
Record provisioned : Prop := {
  pr_seeds : len rootSeed = SeedSize /\ len seed = SeedSize;
  pr_metadata : may_return (bounded_may rootKeyIDDomain rootSeed)
    (SignRootMetadataV1 (Some signer_ctx) (av_metadata svc) (Some signer_ops)) (Ok record);
  pr_signer : lists_signer seed (av_metadata svc) }.

(** The rows of the device. *)
Record device_rows s : Prop := {
  dw_authorization : ds_authorizations (tt_device s) !! authorizationID = Some authorization;
  dw_device : ds_devices (tt_device s) !! az_DeviceID authorization = Some device;
  dw_snapshot : as_policies (tt_authority s) !! authorizationID = Some snapshot;
  dw_policy : policy_snapshot authorization snapshot policy trial }.

Hypothesis Hprov : provisioned.

Lemma authorized_rows s authority : device_rows s -> authorized (P := honest seed) svc authorizationID accessToken authority s ->
  ba_AuthorizationID authority = authorizationID /\ ba_HPKEPublicKey authority = dv_HpkePublicKey device /\
  len (dv_HpkePublicKey device) = 32 /\
  ba_Policy authority = if az_State authorization == "active"%string then standardPolicy else pl_Policy snapshot.
Proof.
  intros [Ha Hd Hp _] [Hid _ _ (ch & clock & now & family & az & dv & pl & _ & _ & _ & [_ _ _ _ [Haz Eaz] _ [Hdv Edv] _ _ [Hpl _] -> [Hk _]])].
  cbn [ba_AuthorizationID ba_HPKEPublicKey ba_Policy] in *. unfold tt_device in *. rewrite <- Eaz, Hid in Haz. rewrite Haz in Ha. injection Ha as ->.
  rewrite Hdv in Hd. injection Hd as ->. rewrite Hid, Hp in Hpl. by injection Hpl as ->.
Qed.

Lemma aside_rows s s1 : aside s s1 -> device_rows s -> device_rows s1.
Proof.
  intros (Hs & _ & (_ & _ & Ha & Hd)) [? ? Hp ?]. split; [by rewrite Ha|by rewrite Hd| |done].
  rewrite Hs. exact Hp.
Qed.

Lemma delivery_issuance testConfig now s s' issued authority envelope keyID protected signed s1 s2 : device_rows s ->
  delivery (P:=honest seed) svc authorizationID accessToken testConfig now s s' issued authority envelope keyID protected signed s1 s2 ->
  issuance (av_metadata svc) record rootSeed seed
    (bundle_payload (nb_BundleID issued) (nb_Locator issued) (nb_BundleVersion issued) authority testConfig now)
    policy trial signed (dv_HpkePublicKey device) (nb_Locator issued) envelope (nb_EnvelopeSHA256 issued) now (time_Add now bundleLifetime).
Proof using All.
  intros Hrows [[Hsec (ch & t & Hch & Ht & Hnow)] Hb Hauth Hm _ _]. pose proof (aside_rows _ _ Hb Hrows) as Hrows1.
  destruct (authorized_rows _ _ Hrows1 Hauth) as (Hid & Hkey & H32 & Hpol). destruct Hprov as [Hseeds Hmeta Hlist].
  destruct (ho_clock _ _ Hch _ Ht) as [Hy1 Hy2]. rewrite <- Hnow in Hy1, Hy2.
  destruct Hm as [_ _ _ (_ & Hloc & _) _ _ (ch' & pk & Hch' & Hk) Hsigned Hsealed].
  apply honest_signer in Hsigned. pose proof (SignBundleV1_inv _ _ _ Hsigned) as (text & _ & _ & Esigned).
  split; try done.
  - rewrite Esigned. cbn [sg_SignerKeyID]. eapply honest_key; [done|by apply Hch'|exact Hk].
  - unfold policy_of, bundle_payload. cbn [pv_PolicySnapshot]. rewrite Hpol. destruct Hrows as [_ _ _ Hps]. unfold policy_snapshot in Hps.
    case_match; [|done]. destruct Hps as [-> ->]. split_and!; [apply standard_policy..|done].
  - unfold bundle_payload. cbn [pv_NotBefore pv_ExpiresAt]. split_and!; [by apply second_text|apply second_text; [by apply second_later|done]|done].
  - by rewrite <- Hkey.
Qed.
End Issued.

(** ** What the device does *)

(** The device has the private key of the public key it registered, the metadata in
    any JSON spelling and the root key it trusts, and its clock shows a time at
    which the metadata, the policy and the bundle [b] are in force. *)
Record device_accepts (metadata : RootMetadataV1) (record : SignedRootMetadataV1) (rootSeed : bytes) (trial : option bytes)
    (device : DeviceRow) (b : storedBundle) (private : kem_private) (client : TrustMetadata) (now : time) (skew : Z) : Prop := {
  da_key : kem_public private = Some (dv_HpkePublicKey device) /\ kem_x25519 private = true;
  da_record : states_record (tm_signed client) record;
  da_root : tm_trustedRoots client !! rm_RootKeyID metadata = Some (ed25519_Public rootSeed);
  da_fresh : forall v, parsePositiveUint (rm_Version metadata) = Some v -> tm_highestTrusted client < v;
  da_window : t_nanos (protocolTime (rm_ValidFrom metadata)) <= t_nanos now < t_nanos (protocolTime (rm_ValidUntil metadata));
  da_policy : trial_in_force trial (sb_IssuedAt b) (sb_ExpiresAt b) now;
  da_now : t_nanos (sb_NotBefore b) <= t_nanos now + skew /\ t_nanos now < t_nanos (sb_ExpiresAt b) /\ 0 <= skew /\ IsZero now = false }.

(** C16 (delivered_bundle_accepted): from the request to the device. Start from empty
    tables, run any requests, and let a device that has its rows ask for a bundle
    of a service with signed metadata, in an environment that is only assumed to
    have an honest signer and a clock with a date.  If the request made a bundle,
    then whatever happens to the tables afterwards, the path of its locator serves
    an envelope with the digest that was returned, and the trust client of this
    device accepts it: it gets the version that was returned, and the canonical
    payload with the test configuration of the request, for this authorization. *)
Theorem delivered_bundle_accepted s0 s s' s2 rootSeed seed svc record cancelled command fate oracle issued r b
    authorization device snapshot policy trial private client now skew :
  no_bundles s0 -> rtc trust_step s0 s -> provisioned rootSeed seed svc record ->
  device_rows (ic_AuthorizationID command) authorization device snapshot policy trial s ->
  (forall i, honest seed (oracle i)) ->
  Issue svc cancelled command fate oracle s = (Ok issued, s') -> tt_issuances s' <> tt_issuances s ->
  tt_issuances s' !! nb_BundleID issued = Some r -> storedBundleFromRow r = Some b ->
  device_accepts (av_metadata svc) record rootSeed trial device b private client now skew ->
  rtc trust_step s' s2 ->
  exists payload text,
    served s2 now (bundle_path (nb_Locator issued)) =
      Some (bundle_response (MkImmutable (bi_Envelope r) (nb_EnvelopeSHA256 issued))) /\
    verifyBundle (bi_Envelope r) private client (MkExpected (uuid_String (ic_AuthorizationID command)) (nb_Locator issued)) now skew =
      Ok (nb_BundleVersion issued, text) /\
    CanonicalizePayloadV1 payload = Ok text /\ pv_TestConfig payload = ic_TestConfig command /\
    pv_Audience payload = uuid_String (ic_AuthorizationID command).
Proof using All.
  intros H0' Hs Hprov Hrows Hhonest Hr Hnew Hl Hb [Hkey Hrec Hroot Hfresh Hwindow Hpolicy (Hnow1 & Hnow2 & Hskew & Hz)] Hs2.
  pose proof (reachable_ok _ _ H0' Hs) as Hok.
  apply (request_under (honest seed)) in Hr as (c & _ & _ & Hr); [|done].
  apply issue_tx_runs in Hr as [[(_ & Hi & _)%aside_same _]|(at_ & authority & envelope & keyID & protected & signed & s1 & s1' & Hd & _)]; [congruence|].
  pose proof (delivery_ok _ _ _ _ _ _ _ _ _ _ _ _ _ _ _ Hd Hok) as [Hok' _].
  destruct (steps_ok _ _ Hs2 Hok') as [Hok2 [Hle _ _]].
  destruct (delivered_row _ _ _ _ _ _ _ _ _ _ _ _ _ _ _ Hd) as (r' & Hl' & _ & _ & Henv & Hread & _).
  rewrite Hl in Hl'. injection Hl' as <-. rewrite Hb in Hread. injection Hread as ->.
  unfold made_bundle in *. cbn [sb_IssuedAt sb_NotBefore sb_ExpiresAt] in *.
  pose proof (delivery_issuance rootSeed seed svc record _ _ _ _ _ policy trial Hprov _ _ _ _ _ _ _ _ _ _ _ _ Hrows Hd) as Hissued.
  pose proof (dl_now _ _ _ _ _ _ _ _ _ _ _ _ _ _ _ Hd) as [Hsec (ch & t & Hch & Ht & Hat)].
  destruct (ho_clock _ _ Hch _ Ht) as [Hy _]. rewrite <- Hat in Hy.
  set (payload := bundle_payload _ _ _ _ _ _) in *.
  assert (protocolTime (pv_IssuedAt payload) = at_) as Hissuedat
    by (unfold payload, bundle_payload, protocolTime; cbn [pv_IssuedAt]; by rewrite second_text).
  destruct (issued_bundle_accepted _ _ _ _ _ _ _ _ _ _ _ _ _ _ private client now skew Hissued) as (Hdigest & _ & version & Hversion & Haccept).
  { split; try done; [by rewrite Hissuedat|]. split; [done|lia]. }
  pose proof (dl_authorized _ _ _ _ _ _ _ _ _ _ _ _ _ _ _ Hd) as [Hid _ _ _].
  pose proof (dl_made _ _ _ _ _ _ _ _ _ _ _ _ _ _ _ Hd) as Hm. pose proof (bm_version _ _ _ _ _ _ _ _ _ _ _ Hm) as [Hv _].
  assert (version = nb_BundleVersion issued) as ->.
  { unfold payload, bundle_payload in Hversion. cbn [pv_BundleVersion] in Hversion. unfold parsePositiveUint in Hversion. case_top Hversion; [done|].
    rewrite ParseUint_FormatUint in Hversion by (unfold MaxInt64 in *; lia). case_top Hversion; [|done]. by injection Hversion as ->. }
  assert (pv_Audience payload = uuid_String (ic_AuthorizationID command)) as Haud by (unfold payload, bundle_payload; cbn; by rewrite Hid).
  pose proof (is_signed _ _ _ _ _ _ _ _ _ _ _ _ _ _ Hissued) as Hsig. apply SignBundleV1_inv in Hsig as (text & Hcan & _ & Esigned).
  exists payload, text. split_and!; try done.
  - rewrite Henv in *. pose proof (lookup_weaken _ _ _ _ Hl Hle) as Hl2.
    pose proof (stored_served _ _ _ _ now Hok2 Hl2 Hb Hz) as Hserved. cbn [sb_Locator sb_ExpiresAt sb_EnvelopeSHA256] in Hserved.
    unfold Before in Hserved. rewrite (proj2 (Z.ltb_lt _ _)) in Hserved by done. by rewrite Henv in Hserved.
  - rewrite Henv, <- Haud, Haccept, Esigned. done.
Qed.
End Delivery.
