(* ===== verification/TrustRowsSamples.v ===== *)
(** A control plane with one device for the witnesses of the trust application. *)
From Stdlib Require Import ZArith Lia Strings.Byte.
From stdpp Require Import base gmap list sorting strings numbers option relations.
From S2P Require Import Prelude GoStd GoTime AuthorityTypes Ledger Samples FenceStore Programs Transactions GoCrypto Text Sensitive Idempotency IdempotencyTheorems Tokens GoJson StrictJson Descriptors Events Outbox DeviceRows DeviceChallenge DeviceRotate DeviceSafety TrustJsonTheorems DeviceBundle.
From S2P Require Import TrustStore TrustJson TrustVerify TrustVerifyFacts TrustJcs TrustServer TrustSigner TrustSeal TrustServerFacts TrustIssue TrustIssueTheorems TrustRows TrustApplication TrustMetadata TrustMetadataTheorems TrustApplicationRuns TrustApplicationSafety TrustApplicationTheorems TrustReplay TrustDelivery.

#[local] Open Scope go_scope.

(** ** Libraries *)

#[export] Instance app_protector : Protector := {|
  entropy := unit;
  protector_LookupDigest _ m := sample_sum m;
  protector_Encrypt _ _ p :=
    match p with [] => Err SensitiveInvalidArgument | _ => Ok (MkEncryptedField 1 (repeat x00 28 ++ p)) end;
  protector_Decrypt _ f := Ok (drop 28 (ef_Ciphertext f)) |}.

#[export] Instance app_protector_laws : ProtectorLaws.
Proof.
  split; intros n d [|b p] f He; cbn in He; try done; injection He as <-.
  - cbn. done.
  - cbn. lia.
  - unfold len. cbn. lia.
Qed.

#[export] Instance app_column : TimestampColumn := {| column_time t := Truncate t Microsecond |}.
#[export] Instance app_column_laws : TimestampColumnLaws.
Proof.
  split. intros t. cbn. unfold Truncate. change (Microsecond <=? 0) with false. cbn [t_nanos].
  change Microsecond with 1000. rewrite Z.mod_eq by done. lia.
Qed.

(** The payload of a bundle event as its texts. *)
#[export] Instance app_protobuf : Protobuf := {|
  proto_Marshal e := Some (ev_Payload e);
  proto_Unmarshal _ := None;
  proto_MarshalPayload m :=
    match ms_payload m with
    | BundleIssued a b v d => Some (a ++ b ++ d ++ v)
    | BundleAcknowledged a b v => Some (a ++ b ++ v)
    | _ => None
    end;
  proto_UnmarshalPayload k b :=
    match k with
    | KindBundleIssued => Some (MkMessage (BundleIssued (take 36 b) (take 36 (drop 36 b)) (drop 136 b) (take 64 (drop 72 b))) false)
    | _ => Some (MkMessage (BundleAcknowledged (take 36 b) (take 36 (drop 36 b)) (drop 72 b)) false)
    end;
  timestamp_IsValid _ := true;
  timestamp_AsTime t := Time (unix_epoch_nanos + ts_seconds t * Second + ts_nanos t) true |}.

Definition app_origin : bytes := sbytes "https://api.example".
#[export] Instance app_url : NetURL := {|
  url_ParseRequestURI v :=
    if v == app_origin
    then Some (MkURL (sbytes "https") (sbytes "api.example") (sbytes "api.example") false [] [] [] false [] [] [] v)
    else None;
  ip_IsLoopback _ := false;
  is_localhost h := h == sbytes "localhost";
  to_lower h := h |}.

#[export] Instance app_collation : Collation := {| text_le a b := negb (bytes_lt b a) |}.
#[export] Instance app_collation_laws : CollationLaws.
Proof. split. done. Qed.

(** ** Tables *)

Definition app_uuid (n : Z) : UUID := repeat x02 15 ++ [byte_of_Z n].
Definition app_family : UUID := app_uuid 1.
Definition app_authorization : UUID := app_uuid 2.
Definition app_device : UUID := app_uuid 3.
Definition app_principal : UUID := app_uuid 4.
Definition app_token : bytes := repeat x21 32.

Definition app_family_row : FamilyRow :=
  MkFamilyRow app_family app_authorization "active" 1 (DigestToken DeviceAccessToken app_token) (Date 2024 1 1 12 5 0 0)
    (Date 2024 1 20 0 0 0 0) (Date 2024 3 1 0 0 0 0) (Date 2023 12 1 0 0 0 0) (Date 2023 12 28 0 0 0 0).
Definition app_authorization_row : AuthorizationRow :=
  MkAuthorizationRow app_authorization app_principal app_device "active" 1 None (Date 2023 12 1 0 0 0 0) (Date 2023 12 1 0 0 0 0).
Definition app_device_row : DeviceRow :=
  MkDeviceRow app_device app_principal None None (repeat x0b 32) issue_device 1 "active"
    (Date 2023 12 1 0 0 0 0) (Date 2023 12 1 0 0 0 0).
Definition app_account_row : AccountRow :=
  MkAccountRow app_principal "active" 1 (sbytes "en") (Date 2023 12 1 0 0 0 0) (Date 2023 12 1 0 0 0 0).
Definition app_snapshot : PolicyRow := MkPolicyRow app_authorization devicePolicySchema standardPolicy (Date 2023 12 1 0 0 0 0).

Definition app_db : dstate :=
  MkDState ∅ {[ app_family := app_family_row ]} {[ app_authorization := app_authorization_row ]} {[ app_device := app_device_row ]}
    {[ app_principal := app_account_row ]} ∅ (MkIState ∅ []) ∅.
Definition app_authority : authority_state := MkAuthorityState app_db {[ app_authorization := app_snapshot ]}.

(** No metadata and no bundle. *)
Definition app_empty : tstate := MkTState app_authority ∅ ∅ ∅ ∅ ∅.

(** ** Requests *)

Definition app_service : trust_service :=
  MkTrustService (MkDeviceService app_origin false) issue_metadata
    [sbytes "https://a.example"; sbytes "https://b.example"; sbytes "https://c.example"].
Definition app_config : TestConfigV1 := MkTestConfig (sbytes "hello") (sbytes "1").
Definition app_command : IssueCommand := MkIssueCommand app_authorization app_token app_config (repeat "k"%byte 22).

Definition app_choice : choice := MkChoice false (fun _ => true) FenceStore.calm (tt : @entropy app_protector) (fun _ target => (target, 0, true)).

(** The local signer behind an open bounded one; every draw gives the same bytes. *)
Definition app_random : bytes := repeat x07 4096.
Definition app_tchoice : tchoice :=
  MkTChoice app_choice (Some issue_now) app_random (tt : @hpke_entropy issue_sender) false
    issue_config_id (fun message => Ok (ed25519_Sign issue_config message)) (Some app_config).
Definition app_oracle (n : nat) : tchoice := app_tchoice.

(** ** Metadata *)

Definition app_roots : gmap bytes bytes := {[ issue_root_id := issue_root ]}.
Definition app_tables : tstate := Eval vm_compute in (Publish app_roots issue_now issue_record CommitOk app_oracle app_empty).2.

Lemma app_published : Publish app_roots issue_now issue_record CommitOk app_oracle app_empty = (Ok tt, app_tables).
Proof. vm_compute. reflexivity. Qed.

(** ** The bundle that is made *)

Definition app_ba : BundleAuthority :=
  MkBundleAuthority app_authorization app_principal app_device issue_device 1 devicePolicySchema standardPolicy.
Definition app_id : UUID := Eval vm_compute in default [] (trust_randomUUID app_random).
Definition app_locator : bytes := repeat x07 32.
Definition app_payload : PayloadV1 := bundle_payload app_id app_locator 1 app_ba app_config issue_now.
Definition app_payload_text : bytes := Eval vm_compute in match CanonicalizePayloadV1 app_payload with Ok text => text | Err _ => [] end.
Definition app_payload_digest : bytes := Eval vm_compute in sha256 app_payload_text.
Definition app_signed : SignedBundleV1 :=
  MkSigned app_payload_text (b64_EncodeToString app_payload_digest) issue_config_id signatureAlgorithm
    (b64_EncodeToString (ed25519_Sign issue_config (bundleSignatureDomain ++ app_payload_text))) [].
Definition app_frame : bytes :=
  let text := jcs_text (signed_json app_signed) in
  be_bytes 4 (len text) ++ text ++ take (Z.to_nat (4092 - len text)) app_random.
Definition app_header : outerEnvelopeWire := sealHeader issue_device app_locator issue_enc [].
Definition app_ciphertext : bytes := app_frame ++ issue_tag issue_device issue_enc hpkeInfo (jcs_text (envelope_header app_header)).
Definition app_envelope : bytes :=
  jcs_text (envelope_json (sealHeader issue_device app_locator issue_enc (b64_EncodeToString app_ciphertext))).
Definition app_digest : bytes := Eval vm_compute in sha256 app_envelope.

Lemma app_payload_canonical : CanonicalizePayloadV1 app_payload = Ok app_payload_text.
Proof. vm_compute. reflexivity. Qed.
Lemma app_payload_sum : sha256 app_payload_text = app_payload_digest.
Proof. vm_compute. reflexivity. Qed.
Lemma app_envelope_sum : sha256 app_envelope = app_digest.
Proof. vm_compute. reflexivity. Qed.

Lemma app_signed_valid : ValidateSignedBundleV1 app_signed = None.
Proof. vm_compute. reflexivity. Qed.

Lemma app_signed_ok : canonicalizable (signed_json app_signed) = true.
Proof. vm_compute. reflexivity. Qed.

Lemma app_sealed : Seal (Some app_random) (tt : @hpke_entropy issue_sender) issue_device app_locator app_signed = Ok (app_envelope, app_digest).
Proof.
  unfold Seal. rewrite app_signed_valid. rewrite bool_decide_eq_true_2 by done.
  assert (sealPlaintext app_random app_signed = Ok app_frame) as ->.
  { unfold sealPlaintext. rewrite (jcs_Marshal _ app_signed_ok).
    vm_compute. reflexivity. }
  cbn [hpke_PublicKey hpke_NewSender hpke_Seal issue_sender]. unfold canonicalTrustedJSON.
  rewrite (jcs_Marshal (envelope_header _)) by apply header_canonicalizable.
  rewrite (jcs_Marshal (envelope_json _)) by apply envelope_canonicalizable.
  fold app_header. change (app_frame ++ _) with app_ciphertext. fold app_envelope.
  assert (len app_envelope <=? maximumEnvelopeBytes = true) as -> by (vm_compute; reflexivity).
  by rewrite app_envelope_sum.
Qed.
