(* ===== verification/TrustApplicationWitnesses.v ===== *)
(** Requests to the sample control plane, and the witnesses of the theorems of the
    trust application.

    A resolution, a second version of the metadata and a delivery in the sample
    control plane, with the witnesses of the theorems about them. *)
From Stdlib Require Import ZArith Lia Strings.Byte.
From stdpp Require Import base gmap list sorting strings numbers option relations.
From S2P Require Import Prelude GoStd GoTime AuthorityTypes Ledger Samples FenceStore Programs Transactions GoCrypto Text Sensitive Idempotency IdempotencyTheorems Tokens GoJson StrictJson Descriptors Events Outbox DeviceRows DeviceChallenge DeviceRotate DeviceSafety TrustStore TrustJson TrustJsonTheorems TrustVerify TrustVerifyFacts TrustJcs TrustServer TrustSigner TrustSeal TrustServerFacts TrustIssue TrustIssueTheorems DeviceBundle TrustRows TrustApplication TrustMetadata TrustMetadataTheorems TrustApplicationRuns TrustApplicationSafety TrustApplicationTheorems TrustReplay TrustDelivery TrustRowsSamples.

#[local] Open Scope go_scope.

(** ** Making it *)

Definition app_issued : IssuedBundle := MkIssuedBundle app_id 1 app_locator app_digest.
Definition app_event : EventEnvelope :=
  trust_event BundleIssuedType app_id app_id 1 issue_now
    (uuid_String app_authorization ++ uuid_String app_id ++ hex_encode app_digest ++ FormatUint 1 10).
Definition app_row : IssuanceRow :=
  issuance_row (issuance_value app_ba issue_now app_issued app_envelope issue_config_id) (LocatorDigest app_locator)
    (MkEncryptedField 1 (repeat x00 28 ++ app_locator)).

(** The tables of bundles after the first one. *)
Definition app_made (s : tstate) : tstate :=
  with_issuances {[ app_id := app_row ]} (with_highest {[ app_authorization := MkHighestRow 1 (column_time issue_now) ]} s).

Lemma bind_ok {A B} (m : ttx A) (k : A -> ttx B) o n s a n' s' : m o n s = (Ok a, n', s') -> tx_bind m k o n s = k a o n' s'.
Proof. intros Hm. unfold tx_bind. by rewrite Hm. Qed.

Lemma or_ok {A} (m : ttx A) e o n s a n' s' : m o n s = (Ok a, n', s') -> tx_or m e o n s = (Ok a, n', s').
Proof. intros Hm. unfold tx_or. by rewrite Hm. Qed.

(** Every draw of the oracle gives what [app_tchoice] says. *)
Lemma app_issue_value_valid : validBundleIssuance (issuance_value app_ba issue_now app_issued app_envelope issue_config_id) = true.
Proof.
  unfold validBundleIssuance. cbn [issuance_value bu_Envelope bu_EnvelopeSHA256 nb_EnvelopeSHA256 app_issued]. rewrite app_envelope_sum.
  vm_compute. reflexivity.
Qed.

Section Make.
Variable s : tstate.
Hypothesis no_highest : tt_highest s = ∅.
Hypothesis no_issuances : tt_issuances s = ∅.
Hypothesis has_authorization : is_Some (ds_authorizations (tt_device s) !! app_authorization).
Hypothesis has_key : is_Some (tt_keys s !! issue_config_id).

Lemma app_next n : NextBundleVersion app_authorization issue_now app_oracle n s =
  (Ok 1, S n, with_highest {[ app_authorization := MkHighestRow 1 (column_time issue_now) ]} s).
Proof using no_highest has_authorization.
  unfold NextBundleVersion. erewrite bind_ok by reflexivity.
  erewrite bind_ok; [|unfold write, tx_step, app_oracle; cbn [tc_db app_tchoice ch_fails app_choice];
    unfold UpsertHighest; rewrite no_highest, lookup_empty; destruct has_authorization as [row ->]; reflexivity].
  reflexivity.
Qed.

Let s1 := with_highest {[ app_authorization := MkHighestRow 1 (column_time issue_now) ]} s.

Lemma app_signs n : sign_bundle app_payload app_oracle n s1 = (Ok app_signed, S (S (S (S n))), s1).
Proof.
  unfold sign_bundle. rewrite (bind_ok _ _ _ _ _ (Ok app_signed) (S (S (S (S n)))) s1); [reflexivity|].
  assert (validKeyID issue_config_id = true) as E1 by reflexivity.
  assert (len (ed25519_Sign issue_config (bundleSignatureDomain ++ app_payload_text)) =? SignatureSize = true) as E2 by reflexivity.
  unfold SignBundleV1, signer_ctx, signer_ops, trigger, app_oracle.
  cbn [op_KeyID op_Sign Programs.bind tx_prog signer_answer app_tchoice tc_cancelled tc_keyID tc_signed].
  rewrite E1, app_payload_canonical. cbn [negb Programs.bind tx_prog signer_answer app_tchoice tc_keyID tc_signed].
  rewrite E2. cbn [negb Programs.bind tx_prog signer_answer app_tchoice tc_keyID]. rewrite app_payload_sum.
  match goal with |- context [ValidateSignedBundleV1 ?v] => change v with app_signed end. rewrite app_signed_valid. reflexivity.
Qed.

Lemma app_draws_id n t : draw_id app_oracle n t = (Ok app_id, S n, t).
Proof. vm_compute. reflexivity. Qed.

Lemma app_draws_locator n t : draw_locator app_oracle n t = (Ok app_locator, S n, t).
Proof. vm_compute. reflexivity. Qed.

Lemma app_key_found : SelectSigningKeyForIssue issue_metadata issue_config_id issue_now (time_Add issue_now bundleLifetime) = Ok issue_config.
Proof. vm_compute. reflexivity. Qed.

Lemma app_row_checked : issuance_checks app_row = true.
Proof. vm_compute. reflexivity. Qed.

Lemma app_inserts n : InsertBundle (issuance_value app_ba issue_now app_issued app_envelope issue_config_id) app_oracle n s1 =
  (Ok tt, S (S n), app_made s).
Proof using no_issuances has_authorization has_key.
  unfold InsertBundle. rewrite app_issue_value_valid. cbn [negb tx_guard].
  rewrite (bind_ok _ _ _ _ _ tt n s1) by reflexivity.
  cbn [issuance_value bu_Locator nb_Locator app_issued].
  assert (LocatorDigest app_locator == zero_digest = false) as E by (vm_compute; reflexivity). rewrite E.
  rewrite (bind_ok _ _ _ _ _ tt n s1) by reflexivity.
  rewrite (bind_ok _ _ _ _ _ (MkEncryptedField 1 (repeat x00 28 ++ app_locator)) (S n) s1) by reflexivity.
  rewrite (bind_ok _ _ _ _ _ tt (S n) s1) by reflexivity.
  unfold write, tx_step, app_oracle. cbn [tc_db app_tchoice ch_fails app_choice]. unfold InsertBundleIssuance.
  fold app_row. rewrite app_row_checked. unfold s1. cbn [tt_issuances with_highest]. rewrite no_issuances.
  assert (not_nil ((∅ : gmap UUID IssuanceRow) !! bi_ID app_row) = false) as -> by (by rewrite lookup_empty).
  rewrite map_to_list_empty. cbn [negb orb forallb fmap list_fmap].
  change (tt_device (with_highest _ s)) with (tt_device s). change (bi_AuthorizationID app_row) with app_authorization.
  change (tt_keys (with_highest _ s)) with (tt_keys s). change (bi_SignerKeyID app_row) with issue_config_id.
  destruct has_authorization as [row ->], has_key as [key ->]. cbn [is_nil orb]. unfold app_made. rewrite insert_empty. reflexivity.
Qed.

Lemma app_issues n : issueAuthorized app_service app_ba app_config issue_now app_oracle n s =
  (Ok (app_issued, app_event), (13 + n)%nat, app_made s).
Proof using no_highest no_issuances has_authorization has_key.
  unfold issueAuthorized. erewrite bind_ok by (apply or_ok, app_next). fold s1.
  assert ((1 =? 0) || (MaxInt64 <? 1) || (tc_Sequence app_config != FormatUint 1 10) = false) as -> by reflexivity.
  erewrite bind_ok by reflexivity. erewrite bind_ok by apply app_draws_id. erewrite bind_ok by apply app_draws_id.
  erewrite bind_ok by apply app_draws_locator. erewrite bind_ok by reflexivity. cbn [av_metadata app_service].
  change (tc_keyID (app_oracle _)) with issue_config_id. rewrite app_key_found. erewrite bind_ok by reflexivity.
  erewrite bind_ok by apply app_signs.
  erewrite bind_ok.
  2: { unfold seal_bundle, tx_step, app_oracle. cbn [app_tchoice tc_random tc_hpke app_ba ba_HPKEPublicKey]. rewrite app_sealed. reflexivity. }
  cbv beta iota. erewrite bind_ok by reflexivity. erewrite bind_ok by (apply or_ok, app_inserts).
  erewrite bind_ok.
  2: { unfold marshal_event. match goal with |- (match ?m with _ => _ end) _ _ _ = _ => assert (m = Ok (ev_Payload app_event)) as -> by (vm_compute; reflexivity) end. reflexivity. }
  reflexivity.
Qed.
End Make.

(** ** The issue request *)

(** The computation goes on from the state it reached. *)
Lemma bind_run {A B} (m : ttx A) (k : A -> ttx B) o n s a n' :
  (m o n s).1 = (Ok a, n') -> tx_bind m k o n s = k a o n' (m o n s).2.
Proof. intros Hm. unfold tx_bind. destruct (m o n s) as [[r n1] s1]. cbn in *. by injection Hm as -> ->. Qed.

Lemma or_run {A B} (m : ttx A) e (k : A -> ttx B) o n s a n' :
  (m o n s).1 = (Ok a, n') -> tx_bind (tx_or m e) k o n s = k a o n' (m o n s).2.
Proof. intros Hm. unfold tx_bind, tx_or. destruct (m o n s) as [[r n1] s1]. cbn in *. by injection Hm as -> ->. Qed.

Lemma run_runs {A} (m : ttx A) o n s a n' : (m o n s).1 = (Ok a, n') -> runs m s a (m o n s).2.
Proof. intros Hm. exists o, n, n'. split; [done|]. destruct (m o n s) as [[r n1] s1]. cbn in *. by rewrite Hm. Qed.

Definition app_canonical : bytes := Eval vm_compute in default [] (issue_request app_command).
Definition app_begin : ttx transactionIdempotency :=
  beginTrustIdempotency app_authorization issueBundleOperation (repeat "k"%byte 22) app_canonical issue_now.
Definition app_begun : tstate := (app_begin app_oracle 1%nat app_tables).2.
Definition app_entry : transactionIdempotency := Eval vm_compute in
  match (app_begin app_oracle 1%nat app_tables).1.1 with
  | Ok entry => entry
  | Err _ => MkTransactionIdempotency (started_record AnonymousRegistrationScope [] [] issue_now issue_now) Conflict 0 []
  end.
Definition app_body : bytes := Eval vm_compute in default [] (encodeIssuedReplay app_issued).

Lemma app_begins : (app_begin app_oracle 1%nat app_tables).1 = (Ok app_entry, 2%nat).
Proof. vm_compute. reflexivity. Qed.

Lemma app_authorizes : (authorize app_service app_authorization app_token app_oracle 2%nat app_begun).1 = (Ok app_ba, 12%nat).
Proof. vm_compute. reflexivity. Qed.

Lemma app_begun_aside : aside app_tables app_begun.
Proof. pose proof (run_runs _ _ _ _ _ _ app_begins) as Hr. by apply begin_runs in Hr as [? _]. Qed.

Definition app_made_tables : tstate := app_made app_begun.
Definition app_appended : tstate := (TrustAppendEvent app_event app_oracle 25%nat app_made_tables).2.
Definition app_issued_tables : tstate := (TrustCompleteIdempotency app_entry issueResponseStatus app_body app_oracle 26%nat app_appended).2.

Lemma app_appends : (TrustAppendEvent app_event app_oracle 25%nat app_made_tables).1 = (Ok tt, 26%nat).
Proof. vm_compute. reflexivity. Qed.

Lemma app_encodes : encodeIssuedReplay app_issued = Some app_body.
Proof. vm_compute. reflexivity. Qed.

Lemma app_completes : (TrustCompleteIdempotency app_entry issueResponseStatus app_body app_oracle 26%nat app_appended).1 = (Ok tt, 27%nat).
Proof. vm_compute. reflexivity. Qed.

Lemma app_issue : Issue app_service false app_command CommitOk app_oracle app_tables = (Ok app_issued, app_issued_tables).
Proof.
  unfold Issue, request. assert (negb false && validIssueCommand app_command = true) as -> by (vm_compute; reflexivity).
  assert (canonicalTrustedJSON (issue_request_json (ic_AuthorizationID app_command) (ic_TestConfig app_command)) = Some app_canonical) as ->
    by (vm_compute; reflexivity).
  cbn [negb]. unfold WithinTransaction.
  assert (issue_tx app_service app_command app_canonical app_oracle 0%nat app_tables = (Ok app_issued, 27%nat, app_issued_tables)) as ->;
    [|reflexivity].
  unfold issue_tx. rewrite (bind_ok _ _ _ _ _ issue_now 1%nat app_tables) by (vm_compute; reflexivity).
  change (beginTrustIdempotency _ _ _ _ _) with app_begin. rewrite (bind_run _ _ _ _ _ _ _ app_begins). fold app_begun.
  assert (ti_outcome app_entry = Started) as -> by reflexivity.
  change (authorize _ _ _) with (authorize app_service app_authorization app_token).
  rewrite (bind_run _ _ _ _ _ _ _ app_authorizes).
  pose proof (run_runs _ _ _ _ _ _ app_authorizes) as Hrun. apply authority_runs in Hrun as [-> _].
  destruct (aside_tables _ _ app_begun_aside) as (Hh & Hi & _ & _ & Hk & _).
  assert (is_Some (ds_authorizations (tt_device app_begun) !! app_authorization)) as Ha
    by (destruct app_begun_aside as (_ & _ & _ & _ & -> & _); by eexists).
  change (ic_TestConfig app_command) with app_config.
  rewrite (bind_ok _ _ _ _ _ _ _ _ (app_issues app_begun Hh Hi Ha ltac:(rewrite Hk; by eexists) 12%nat)).
  cbv beta iota. rewrite app_encodes. fold app_made_tables. change (13 + 12)%nat with 25%nat.
  rewrite (or_run _ _ _ _ _ _ _ _ app_appends). fold app_appended.
  rewrite (or_run _ _ _ _ _ _ _ _ app_completes). fold app_issued_tables. reflexivity.
Qed.

(** ** The states that were reached *)

Lemma shared_issuances {A} (m : dtx A) o n s : tt_issuances (shared m o n s).2 = tt_issuances s.
Proof. unfold shared, tx_zoom. by destruct (m _ n (tt_device s)) as [[[a|e] n1] db]. Qed.

Lemma app_issuances : tt_issuances app_issued_tables = {[ app_id := app_row ]}.
Proof. unfold app_issued_tables, app_appended, TrustCompleteIdempotency, TrustAppendEvent. by rewrite !shared_issuances. Qed.

Lemma app_bundle_row : tt_issuances app_issued_tables !! nb_BundleID app_issued = Some app_row.
Proof. rewrite app_issuances. apply lookup_singleton_eq. Qed.

Lemma app_no_bundles : no_bundles app_empty.
Proof. by split_and!. Qed.

Lemma app_publish_step : rtc trust_step app_empty app_tables.
Proof.
  apply rtc_once. pose proof (step_publish app_empty app_roots issue_now issue_record CommitOk app_oracle) as Hs. by rewrite app_published in Hs.
Qed.

Lemma issue_steps s service cancelled command fate oracle r s' :
  Issue service cancelled command fate oracle s = (r, s') -> rtc trust_step s s'.
Proof. intros Hr. apply rtc_once. pose proof (step_issue s service cancelled command fate oracle) as Hs. by rewrite Hr in Hs. Qed.

Lemma app_issue_step : rtc trust_step app_tables app_issued_tables.
Proof. exact (issue_steps _ _ _ _ _ _ _ _ app_issue). Qed.

Lemma app_all_steps : rtc trust_step app_empty app_issued_tables.
Proof. etrans; [exact app_publish_step|exact app_issue_step]. Qed.

Lemma app_readable : exists b, storedBundleFromRow app_row = Some b.
Proof.
  assert (bundles_ok app_issued_tables) as Hok by (eapply reachable_ok; [exact app_no_bundles|exact app_all_steps]).
  by destruct (bk_row _ Hok _ _ app_bundle_row) as (_ & [b Hb] & _); exists b.
Qed.

Lemma app_changed : tt_issuances app_issued_tables <> tt_issuances app_tables.
Proof. rewrite app_issuances. intros E. apply (f_equal (lookup app_id)) in E. rewrite lookup_singleton_eq in E. by vm_compute in E. Qed.

(** ** Witnesses *)

Lemma bundle_versions_dense_witness : bundles_ok app_tables /\ bundles_le app_tables app_issued_tables.
Proof. exact (bundle_versions_dense app_empty app_tables app_issued_tables app_no_bundles app_publish_step app_issue_step). Defined.

Lemma stored_bundle_served_witness : exists b, storedBundleFromRow app_row = Some b /\
  served app_issued_tables issue_now (bundle_path (sb_Locator b)) =
    Some (if Before issue_now (sb_ExpiresAt b) then bundle_response (MkImmutable (bi_Envelope app_row) (sb_EnvelopeSHA256 b))
          else body_free StatusNotFound).
Proof.
  destruct app_readable as [b Hb]. exists b. split; [exact Hb|].
  exact (proj2 (stored_bundle_served app_empty app_issued_tables app_issued_tables app_id app_row b issue_now app_no_bundles
                  app_all_steps (rtc_refl _ _) app_bundle_row Hb eq_refl)).
Defined.

Lemma bundle_authority_sound_witness : exists (i : nat) clock now family authorization device snapshot,
  Some issue_now = Some clock /\ now = UTC clock /\ 2020 <= Year now <= 2100 /\
  authority_rows (av_device app_service) app_token now app_authority app_ba family authorization device snapshot.
Proof.
  destruct (AuthorizeBundle (av_device app_service) app_token CommitOk (fun _ => MkAuthorityChoice app_choice (Some issue_now)) app_authority)
    as [r s'] eqn:Hr.
  apply (proj2 (bundle_authority_sound (av_device app_service) app_token CommitOk (fun _ => MkAuthorityChoice app_choice (Some issue_now))
                  app_authority r s' Hr) app_ba).
  pose proof (f_equal fst Hr) as Hf. vm_compute in Hf. symmetry in Hf. exact Hf.
Defined.

Lemma app_quiet : quiet issue_now app_oracle.
Proof. by split. Qed.

Lemma app_time : Second <= t_nanos issue_now < t_nanos (bi_ExpiresAt app_row).
Proof. by split; vm_compute. Qed.

Lemma app_kept : rows_le row_moves (is_table (ds_idem (tt_device app_issued_tables))) (is_table (ds_idem (tt_device app_issued_tables))).
Proof. apply rows_le_refl, _. Qed.

Lemma issue_replayed_witness :
  exists s3, Issue app_service false app_command CommitOk app_oracle app_issued_tables = (Ok app_issued, s3) /\ aside app_issued_tables s3.
Proof.
  exact (proj1 (issue_replayed app_service false app_command CommitOk app_oracle app_tables app_issued app_issued_tables app_row
                  app_issued_tables app_service app_oracle issue_now app_issue app_changed app_bundle_row app_kept app_quiet app_time)).
Defined.

(** ** A second version of the metadata that keeps the signing key *)

Definition app_metadata2 : RootMetadataV1 :=
  MkRootMetadata metadataSchema (sbytes "2") (rm_RootKeyID issue_metadata) (rm_RootAlgorithm issue_metadata)
    (rm_ValidFrom issue_metadata) (rm_ValidUntil issue_metadata) (rm_SigningKeys issue_metadata).
Definition app_metadata2_text : bytes := Eval vm_compute in jcs_text (metadata_json app_metadata2).
Definition app_record2 : SignedRootMetadataV1 :=
  MkSignedRoot app_metadata2_text (b64_EncodeToString (ed25519_Sign issue_root (metadataSignatureDomain ++ app_metadata2_text))).

Definition app_key : SigningKeyMetadataV1 := Eval vm_compute in
  match rm_SigningKeys issue_metadata with key :: _ => key | [] => MkSigningKey [] [] [] [] [] [] end.

Lemma app_verified2 : verifyRootMetadataSignature app_record2 app_roots = Ok (app_metadata2, 2).
Proof. vm_compute. reflexivity. Qed.

Lemma app_verified : verifyRootMetadataSignature issue_record app_roots = Ok (issue_metadata, 1).
Proof. vm_compute. reflexivity. Qed.

Lemma app_key_kept : app_key ∈ rm_SigningKeys app_metadata2.
Proof. by left. Qed.

Lemma app_key_stored : is_Some (tt_keys app_tables !! sk_KeyID app_key).
Proof. by eexists. Qed.

Lemma key_published_once_witness :
  exists e, Publish app_roots issue_now app_record2 CommitOk app_oracle app_tables = (Err e, app_tables).
Proof.
  exact (key_published_once app_roots issue_now app_record2 app_metadata2 2 app_key CommitOk app_oracle app_tables
           app_verified2 app_key_kept app_key_stored).
Defined.

Lemma app_empty_ok : metadata_ok app_empty.
Proof. by split. Qed.

Lemma app_after_epoch : 1000 <= t_nanos issue_now /\ 0 < t_nanos (protocolTime (rm_ValidFrom issue_metadata)).
Proof. split; by vm_compute. Qed.

Lemma app_calm : calm app_oracle.
Proof. done. Qed.

Lemma app_empty_list : ListMetadata app_roots false app_oracle app_empty = Ok [].
Proof. vm_compute. reflexivity. Qed.

Lemma app_no_record record p v : record ∈ ([] : list SignedRootMetadataV1) ->
  verifyRootMetadataSignature record app_roots = Ok (p, v) -> v < 1.
Proof. by intros []%not_elem_of_nil. Qed.

Lemma app_new_keys key : key ∈ rm_SigningKeys issue_metadata -> tt_keys app_empty !! sk_KeyID key = None.
Proof. intros _. apply lookup_empty. Qed.

Lemma published_listed_witness : exists s', Publish app_roots issue_now issue_record CommitOk app_oracle app_empty = (Ok tt, s') /\
  metadata_ok s' /\ ListMetadata app_roots false app_oracle s' = Ok [issue_record].
Proof.
  destruct (published_listed app_roots issue_now issue_record issue_metadata 1 app_empty [] app_oracle app_empty_ok app_calm app_empty_list
              app_verified (proj1 app_after_epoch) (proj2 app_after_epoch)) as (_ & Haccepted & Hread).
  destruct (Haccepted app_no_record app_new_keys app_oracle app_calm) as [s' Hs']. exists s'. split; [exact Hs'|].
  destruct (Hread app_oracle s' Hs') as [Hok Hlist]. split; [exact Hok|]. exact (Hlist app_oracle app_calm).
Defined.

(** ** A resolution that makes the first bundle *)

Definition app_query : ResolveQuery := MkResolveQuery app_authorization app_token (repeat "r"%byte 22).
Definition app_query_canonical : bytes := Eval vm_compute in
  default [] (canonicalTrustedJSON (authorization_request_json app_authorization)).
Definition app_query_begin : ttx transactionIdempotency :=
  beginTrustIdempotency app_authorization resolveBundleOperation (repeat "r"%byte 22) app_query_canonical issue_now.
Definition app_queried : tstate := (app_query_begin app_oracle 1%nat app_tables).2.
Definition app_query_entry : transactionIdempotency := Eval vm_compute in
  match (app_query_begin app_oracle 1%nat app_tables).1.1 with
  | Ok entry => entry
  | Err _ => MkTransactionIdempotency (started_record AnonymousRegistrationScope [] [] issue_now issue_now) Conflict 0 []
  end.

Lemma app_query_begins : (app_query_begin app_oracle 1%nat app_tables).1 = (Ok app_query_entry, 2%nat).
Proof. vm_compute. reflexivity. Qed.

Lemma app_query_authorizes : (authorize app_service app_authorization app_token app_oracle 2%nat app_queried).1 = (Ok app_ba, 12%nat).
Proof. vm_compute. reflexivity. Qed.

Lemma app_queried_aside : aside app_tables app_queried.
Proof. pose proof (run_runs _ _ _ _ _ _ app_query_begins) as Hr. by apply begin_runs in Hr as [? _]. Qed.

Lemma no_latest s n : tt_issuances s = ∅ -> LatestBundle app_authorization app_oracle n s = (Ok None, S n, s).
Proof.
  intros Hi. unfold LatestBundle. rewrite (bind_ok _ _ _ _ _ tt n s) by reflexivity.
  assert (GetLatestBundleIssuance app_authorization s = None) as Hl
    by (unfold GetLatestBundleIssuance; by rewrite Hi, map_to_list_empty).
  rewrite (bind_ok _ _ _ _ _ None (S n) s); [reflexivity|].
  unfold read, tx_step, app_oracle. cbn [tc_db app_tchoice ch_fails app_choice]. by rewrite Hl.
Qed.

Definition app_query_made : tstate := app_made app_queried.
Definition app_query_appended : tstate := (TrustAppendEvent app_event app_oracle 27%nat app_query_made).2.
Definition app_resolution : Resolution := Eval vm_compute in
  MkResolution (b64_EncodeToString app_locator) (hex_encode app_digest)
    (map (fun baseURL => baseURL ++ bundle_path app_locator) (av_bundleBaseURLs app_service)) ImmutableCacheControl.
Definition app_resolution_body : bytes := Eval vm_compute in default [] (encodeResolutionReplay app_resolution).
Definition app_resolved_tables : tstate :=
  (TrustCompleteIdempotency app_query_entry resolveResponseStatus app_resolution_body app_oracle 28%nat app_query_appended).2.

Lemma app_query_appends : (TrustAppendEvent app_event app_oracle 27%nat app_query_made).1 = (Ok tt, 28%nat).
Proof. vm_compute. reflexivity. Qed.

Lemma app_query_encodes : encodeResolutionReplay app_resolution = Some app_resolution_body.
Proof. vm_compute. reflexivity. Qed.

Lemma app_query_completes :
  (TrustCompleteIdempotency app_query_entry resolveResponseStatus app_resolution_body app_oracle 28%nat app_query_appended).1 = (Ok tt, 29%nat).
Proof. vm_compute. reflexivity. Qed.

Definition app_selected : storedBundle :=
  MkStoredBundle app_id app_authorization 1 app_locator app_digest issue_now issue_now (time_Add issue_now bundleLifetime).

Lemma app_selects : tt_highest app_queried = ∅ -> tt_issuances app_queried = ∅ ->
  is_Some (ds_authorizations (tt_device app_queried) !! app_authorization) -> is_Some (tt_keys app_queried !! issue_config_id) ->
  select_bundle app_service app_query app_ba app_config 1 None issue_now app_oracle 14%nat app_queried =
    (Ok app_selected, 28%nat, app_query_appended).
Proof.
  intros Hh Hi Ha Hk. unfold select_bundle. cbv beta iota zeta.
  rewrite (bind_ok _ _ _ _ _ tt 14%nat app_queried) by reflexivity.
  rewrite (bind_ok _ _ _ _ _ _ _ _ (app_issues app_queried Hh Hi Ha Hk 14%nat)).
  cbv beta iota. fold app_query_made. change (13 + 14)%nat with 27%nat.
  rewrite (or_run _ _ _ _ _ _ _ _ app_query_appends). fold app_query_appended. reflexivity.
Qed.

Lemma app_resolution_made : resolution app_service app_selected = Ok app_resolution.
Proof. vm_compute. reflexivity. Qed.

Lemma app_resolves : Resolve app_service false app_query CommitOk app_oracle app_tables = (Ok app_resolution, app_resolved_tables).
Proof.
  unfold Resolve, request. assert (negb false && validResolveQuery app_query = true) as -> by (vm_compute; reflexivity).
  assert (canonicalTrustedJSON (authorization_request_json (rq_AuthorizationID app_query)) = Some app_query_canonical) as ->
    by (vm_compute; reflexivity).
  cbn [negb]. unfold WithinTransaction.
  assert (resolve_tx app_service app_query app_query_canonical app_oracle 0%nat app_tables = (Ok app_resolution, 29%nat, app_resolved_tables)) as ->;
    [|reflexivity].
  unfold resolve_tx. rewrite (bind_ok _ _ _ _ _ issue_now 1%nat app_tables) by (vm_compute; reflexivity).
  change (beginTrustIdempotency _ _ _ _ _) with app_query_begin. rewrite (bind_run _ _ _ _ _ _ _ app_query_begins). fold app_queried.
  assert (ti_outcome app_query_entry = Started) as -> by reflexivity.
  change (authorize _ _ _) with (authorize app_service app_authorization app_token).
  rewrite (bind_run _ _ _ _ _ _ _ app_query_authorizes).
  pose proof (run_runs _ _ _ _ _ _ app_query_authorizes) as Hrun. apply authority_runs in Hrun as [-> _].
  destruct (aside_tables _ _ app_queried_aside) as (Hh & Hi & _ & _ & Hk & _).
  assert (is_Some (ds_authorizations (tt_device app_queried) !! app_authorization)) as Ha
    by (destruct app_queried_aside as (_ & _ & _ & _ & -> & _); by eexists).
  rewrite (bind_ok _ _ _ _ _ (Some app_config) 13%nat app_queried) by reflexivity. cbv beta iota.
  rewrite (bind_ok _ _ _ _ _ tt 13%nat app_queried) by reflexivity.
  assert (ParseUint (tc_Sequence app_config) 10 64 = Some 1) as -> by (vm_compute; reflexivity).
  rewrite (bind_ok _ _ _ _ _ tt 13%nat app_queried) by reflexivity.
  rewrite (bind_ok _ _ _ _ _ None 14%nat app_queried) by (apply or_ok, no_latest; by rewrite Hi).
  rewrite (bind_ok _ _ _ _ _ _ _ _ (app_selects Hh Hi Ha ltac:(rewrite Hk; by eexists))).
  rewrite app_resolution_made. rewrite (bind_ok _ _ _ _ _ app_resolution 28%nat app_query_appended) by reflexivity.
  rewrite app_query_encodes. rewrite (or_run _ _ _ _ _ _ _ _ app_query_completes). fold app_resolved_tables. reflexivity.
Qed.

Lemma app_resolved_changed : tt_issuances app_resolved_tables <> tt_issuances app_tables.
Proof.
  unfold app_resolved_tables, app_query_appended, TrustCompleteIdempotency, TrustAppendEvent. rewrite !shared_issuances.
  intros E. apply (f_equal (lookup app_id)) in E. unfold app_query_made, app_made in E.
  change (tt_issuances (with_issuances _ _)) with ({[ app_id := app_row ]} : gmap UUID IssuanceRow) in E.
  rewrite lookup_singleton_eq in E. by vm_compute in E.
Qed.

Lemma app_tables_ok : bundles_ok app_tables.
Proof. eapply reachable_ok; [exact app_no_bundles|exact app_publish_step]. Qed.

Lemma resolve_gives_current_witness : exists id r b,
  tt_issuances app_resolved_tables !! id = Some r /\ bi_AuthorizationID r = app_authorization /\
  storedBundleFromRow r = Some b /\ rs_Locator app_resolution = b64_EncodeToString (sb_Locator b).
Proof.
  destruct (resolve_gives_current app_service false app_query CommitOk app_oracle app_tables app_resolution app_resolved_tables
              app_tables_ok app_resolves)
    as [[Hs _]|(clock & t & now & i & current & target & id & r & b & h & _ & _ & _ & _ & _ & Hl & Ha & _ & _ & Hb & _ & Hv & _)].
  - destruct (app_resolved_changed (proj1 (proj2 Hs))).
  - exists id, r, b. split; [exact Hl|]. split; [exact Ha|]. split; [exact Hb|].
    exact (f_equal rs_Locator Hv).
Defined.

(** ** From the request to the device *)

Lemma app_provisioned : provisioned issue_root issue_config app_service issue_record.
Proof.
  split.
  - by split.
  - apply issue_record_made.
  - intros key Hin _. cbn [rm_SigningKeys app_service av_metadata issue_metadata] in Hin. apply list_elem_of_singleton in Hin as ->. reflexivity.
Qed.

Lemma app_device_rows :
  device_rows (ic_AuthorizationID app_command) app_authorization_row app_device_row app_snapshot (device_policy None) None app_tables.
Proof. split; [reflexivity|reflexivity|reflexivity|by split]. Qed.

Lemma app_honest : forall i, honest issue_config (app_oracle i).
Proof.
  intros i. split.
  - right. symmetry. apply issue_config_id_eq.
  - intros message signature Hs. cbn in Hs. by injection Hs as <-.
  - intros t Ht. cbn in Ht. injection Ht as <-. vm_compute. repeat split; discriminate.
Qed.

Lemma app_accepts b : storedBundleFromRow app_row = Some b ->
  device_accepts issue_metadata issue_record issue_root None app_device_row b issue_private issue_client issue_now Minute.
Proof.
  intros Hb. destruct (stored_fields _ _ Hb) as (_ & _ & _ & Eb). split.
  - by split.
  - apply issue_record_stated.
  - apply lookup_singleton_eq.
  - intros v Hv. vm_compute in Hv. injection Hv as <-. reflexivity.
  - vm_compute. repeat split; discriminate.
  - exact I.
  - assert (sb_NotBefore b = issue_now /\ sb_ExpiresAt b = time_Add issue_now bundleLifetime) as [-> ->]
      by (rewrite Eb; by split).
    vm_compute. repeat split; discriminate.
Qed.

Lemma app_row_reads : exists b, storedBundleFromRow app_row = Some b /\
  device_accepts issue_metadata issue_record issue_root None app_device_row b issue_private issue_client issue_now Minute.
Proof. destruct app_readable as [b Hb]. exists b. split; [done|by apply app_accepts]. Qed.

Lemma delivered_bundle_accepted_witness : exists text,
  served app_issued_tables issue_now (bundle_path app_locator) = Some (bundle_response (MkImmutable app_envelope app_digest)) /\
  verifyBundle app_envelope issue_private issue_client (MkExpected (uuid_String app_authorization) app_locator) issue_now Minute = Ok (1, text).
Proof.
  destruct app_row_reads as (b & Hb & Haccepts).
  destruct (delivered_bundle_accepted app_empty app_tables app_issued_tables app_issued_tables issue_root issue_config app_service issue_record
              false app_command CommitOk app_oracle app_issued app_row b app_authorization_row app_device_row app_snapshot (device_policy None) None
              issue_private issue_client issue_now Minute
              app_no_bundles app_publish_step app_provisioned app_device_rows app_honest app_issue app_changed app_bundle_row Hb Haccepts
              (rtc_refl _ _))
    as (payload & text & Hserved & Hverify & _).
  exists text. split; [exact Hserved|exact Hverify].
Defined.
